(* ===== verification/_CoqProject ===== *)
-Q . S2P
Prelude.v
GoStrings.v
StableId.v
Reconciliation.v
Availability.v
Capability.v
Integration.v
Registry.v
RegistryFacts.v
RegistryBinding.v
FileSystem.v
RegistryStore.v
SecureBinding.v
Planning.v
Execution.v
Topology.v
Codec.v
Base64.v
Orders.v
Paths.v
RuntimeOperation.v
RuntimeOperationFacts.v
Effects.v
UpdatePlan.v
UpdateJournal.v
Patroni.v
Sha256.v
PatroniFacts.v
UpgradeContract.v
Release.v
Checkpoint.v
BoundProvider.v
Keycloak.v
OpenBao.v
Compose.v
Volume.v
ProviderUpdates.v
OrgConfig.v
OrgConfigFacts.v
Evidence.v
EvidenceFacts.v
CSR.v
Enrollment.v
EnrollmentStore.v
EnrollmentFacts.v
Wire.v
WireFacts.v
TargetSession.v
TargetSessionFacts.v
TargetPool.v
TargetStream.v
Manifest.v
ManifestValidate.v
ManifestYAML.v
ManifestFacts.v
ManifestText.v
ManifestRoundtrip.v
ManifestServices.v
ManifestExact.v
ManifestTidy.v
ManifestTheorems.v
ManifestErrors.v
Cutover.v
CutoverFacts.v
Rotation.v
RotationFacts.v
Access.v
