(* ===== verification/Prelude.v ===== *)
(** * BaseHarbor: a verification library

    BaseHarbor gives an application the backends it asks for (databases, caches,
    messaging, secrets, object storage, identity, telemetry) on a machine or a
    cluster it manages, keeps the platform's own providers up to date, and lets
    enrolled nodes be reached from a control plane.  This library models the
    decisions, the state machines and the stored state of that program as
    executable definitions, translated from the Go sources under src/, and
    proves what makes them correct.

    ** How the program is put together

    A developer writes a manifest (internal/application).  It is parsed and
    validated, and its requests are planned against a registry of provider
    instances (internal/capability): which provider serves which request, owned
    by whom, shared with whom.  A staged run prepares, provisions, binds and
    verifies what was planned; each resource is reconciled by comparing desired
    and observed state (internal/reconciliation), with the availability that was
    negotiated (internal/availability).  At run time applications create
    resources through an idempotent manager of operations
    (internal/runtimeoperation).  The platform's own providers are updated by a
    journaled transaction (internal/coreupdate) through adapters
    (internal/providerupgrade), among them a roll of a Patroni cluster and the
    cutover of its cluster store.  Organisations constrain what may be selected
    (internal/orgconfig); what happened is kept as evidence (internal/evidence).
    Nodes are enrolled with short-lived certificates
    (internal/targetenrollment, internal/database, internal/serviceaccess) and
    then serve requests and streams over sessions (internal/targetsession,
    contracts/targetaccess_wire.go).

    ** Files

    Foundations.  Prelude: Go errors and results, formatted texts, effects of
    loops, tactics and hints.  GoStrings, Base64, Sha256, Paths, Orders: what
    the sources use of the standard library's strings, strconv, sort,
    encoding/base64, crypto/sha256 and path/filepath, computed on bytes and on
    32-bit words.  FileSystem: a file system whose operations may fail and whose
    history holds every state that a crash can leave.  Effects: the state and
    error monad of the update code with its trace of calls and its rules.
    Codec: a codec for samples.

    Capabilities.  StableId (internal/stableid), Reconciliation
    (internal/reconciliation), Availability (internal/availability), Capability
    and Integration (internal/capability: domain, specifications, descriptors,
    the shipped catalogue), Registry with RegistryFacts and RegistryBinding
    (registry.go), RegistryStore (its file), SecureBinding, Planning (BuildPlan)
    and Execution (Prepare, ProvisionAndBind, Verify, Run of lifecycle.go).

    Applications.  Manifest (the record and its builders), ManifestValidate
    (every check of Manifest.validate), ManifestYAML (Manifest.YAML and
    parseManifestYAML).  ManifestFacts states declaratively which manifests are
    valid; ManifestText, ManifestRoundtrip, ManifestServices, ManifestExact and
    ManifestTidy lead to the theorems of ManifestTheorems and ManifestErrors.

    Topology (internal/providertopology) and RuntimeOperation with
    RuntimeOperationFacts (internal/runtimeoperation).

    Core updates.  UpdatePlan (plan.go), UpdateJournal (journal.go and the
    execution that resumes from it), Patroni with PatroniFacts (the quorum and
    the roll), Cutover with CutoverFacts (dcs_cutover.go), Checkpoint, Release,
    BoundProvider, Compose, Volume, ProviderUpdates, and the adapters
    UpgradeContract, Keycloak and OpenBao of internal/providerupgrade.

    Credentials.  Rotation with RotationFacts (internal/credential: the rotation,
    its journal and its prepared material).

    Organisations and evidence.  OrgConfig with OrgConfigFacts, Evidence with
    EvidenceFacts.

    Target access.  CSR (internal/serviceaccess), Enrollment
    (internal/targetenrollment), EnrollmentStore (the three tables and their
    transactions) with EnrollmentFacts; Wire with WireFacts (strict JSON records
    over the token machine of encoding/json), TargetSession with
    TargetSessionFacts, TargetPool and TargetStream.  Access: the small packages
    that decide whether something is reachable, allowed or within one tenant
    (internal/endpoint, policy, tenancy, authorization, targetaccess).

    ** How definitions correspond to the code

    Definitions keep the names of the sources; a method has the name of its type
    in front where two would clash, and a loop body or a group of statements
    that is a definition of its own has a lower-case name.  A struct is a
    record, an open string type is [string], a Go [int] or [int64] is a [Z], a
    word of a hash is a [Z] below 2^32.  A function that returns [(A, error)]
    returns [result error A]; an error is its format with its arguments, so the
    theorems say which error is returned.  Maps are [gmap]s or [gset]s where the
    order of a range loop cannot be seen, and otherwise the order is an argument
    or a field of a class ([MapOrder], the entries of Topology).  Concurrency is
    a step relation: RuntimeOperation interleaves goroutines at the critical
    sections of the mutex, with restarts and with the heap of shared maps;
    EnrollmentStore interleaves atomic transactions.

    Code that is not in the repository is an argument: classes hold
    encoding/json, net/url, YAML, X.509 and the operations of container
    runtimes, databases and providers, with the laws that the theorems need
    named in a second class ([OperationJSONLaws] and its like), and samples
    instantiate them.  Faults are arguments too: which file operations,
    statements, commits, reads and writes fail is never fixed, so the theorems
    hold for all of them.

    ** What the theorems show

    - Safety of mutation: nothing is provisioned before every request passed
      its preflight ([Execution.Run_preflight_first]); a foreign resource is
      never changed ([Reconciliation.Evaluate_mutation_safe]); an update never
      replaces a Patroni member without proof of a quorum, or the old primary
      before the candidate leads
      ([PatroniFacts.PrepareAndRollPatroniCluster_disciplined]); the cluster
      store is fenced and committed at most once over all attempts
      ([CutoverFacts.cutover_attempts_once]); a provider that was taken back is
      in the state its recovery point describes ([Compose.update_reversible],
      [Volume.volume_restored_exactly]).
    - Invariants: operations keep the registry valid
      ([RegistryFacts.Register_valid], [RegistryBinding.BindDeployment_valid]);
      a session serves the scope it was admitted for ([TargetPool.pool_isolation]);
      what the selection of an organisation returns satisfies every constraint.
    - Durability and restarts: the manager of operations refines a ledger that
      enters a key once ([RuntimeOperationFacts.system_refines_ledger]); an
      interrupted update resumes without repeating a verified step
      ([UpdateJournal.ExecuteJournaled_resume]); a crash leaves the old registry
      or the new one ([RegistryStore.Update_crash_safe]).
    - Exactness: the validation of manifests and the strict reader of wire
      records accept exactly what their declarative descriptions say
      ([ManifestTheorems.validate_exact], [WireFacts.strict_document_spec]).
    - Round trips: a manifest that was read is written as a text that is read
      back as its canonical form ([ManifestTheorems.ParseCanonicalYAML_YAML]);
      recovery points restore what they captured.
    - Errors: the manifest parser reads a text or refuses it with the number of
      a line ([ManifestErrors.parse_errors]), without reaching outside of a
      list.
    - Credentials: a grant is used once, what is admitted was issued under a
      grant, a revocation is final ([EnrollmentFacts]).  A rotation retires the
      old credential only after the new one was verified, over all attempts that
      its journal connects ([RotationFacts.rotation_orderly]), ends when nothing
      fails ([RotationFacts.rotation_completes]), and its journal keeps the last
      phase through crashes ([RotationFacts.journal_durable]).
    - Termination and progress: goroutines end with every operation finished
      ([RuntimeOperationFacts.goroutines_terminate]); reconciliation has nothing
      left to do once its decision is realised
      ([Reconciliation.Evaluate_converges]).

    ** Bounds and fuel

    Recursion is structural wherever the loop of the code is over data.  Fuel is
    computed where it is not: the length of a text bounds the loops that consume
    bytes of it (trimming, fields, lower case, PEM blocks, the parts of a write,
    the events and the pieces of a stream), the lexemes of a document bound the
    strict reader of Wire, and the digits of a number bound its text.  Lemmas
    show that it is enough ([trim_fuel_done], [atoi_itoa_fuel],
    [write_part_sent], [WireFacts.strict_document_spec]).  The wait of a Patroni
    roll ends when its context does, after any number of ticks: that number is
    an argument, and the theorems hold for every one.
    Integers are unbounded where no operation of the code can leave 64
    bits; [Atoi] and the versions of updates check the range they parse into.

    ** What is not modelled

    The command line, the rendering and running of workloads, the drivers of
    databases, container runtimes, brokers, gateways, telemetry and backups:
    they are calls of other programs, of the network and of files around the
    packages above.  Of internal/application only the manifests are modelled,
    not the resolution of external providers, the steps it hands to a rotation
    of credentials and the plans of provider changes.  Token verification and host trust are left
    to the libraries they call.  Contexts and clocks enter only where a decision
    depends on them; the text of an error, its wrapping included, is kept
    symbolic. *)

From stdpp Require Export sorting strings gmap.
Export (notations) Stdlib.Strings.Ascii.
Export Stdlib.Strings.Ascii (ascii(..), ascii_of_nat, nat_of_ascii, ascii_nat_embedding, nat_ascii_bounded).

(** ** Scope and notations *)

Declare Scope go_scope.
Delimit Scope go_scope with go.
Global Open Scope go_scope.

(** Go's [==] and [!=] on comparable types. *)
Notation "a == b" := (bool_decide (a = b)) (at level 70, no associativity) : go_scope.
Notation "a != b" := (negb (bool_decide (a = b))) (at level 70, no associativity) : go_scope.

(** ** Errors and formatted text

    A Go [error] built by [errors.New] is its literal text; one built by
    [fmt.Errorf] (and a string built by [fmt.Sprintf]) is kept symbolically as
    the format and its arguments, so that two errors are equal exactly when
    the same format was applied to the same arguments.  [%w] arguments are
    [ATxt]. *)
Inductive text : Type :=
| Lit (s : string)
| Sprintf (format : string) (args : list arg)
with arg : Type :=
| AStr (s : string)
| AInt (z : Z)
| ABool (b : bool)
| ATxt (t : text).

Abbreviation error := text.
Definition errorsNew (s : string) : error := Lit s.
Definition Errorf (format : string) (args : list arg) : error := Sprintf format args.

(** ** The result of a Go function that returns [(A, error)] *)

Inductive result (E A : Type) : Type :=
| Ok (a : A)
| Err (e : E).
Arguments Ok {E A} a.
Arguments Err {E A} e.

Definition is_ok {E A} (r : result E A) : bool :=
  match r with Ok _ => true | Err _ => false end.
Definition is_err {E A} (r : result E A) : bool := negb (is_ok r).

Global Instance result_ret {E} : MRet (result E) := fun A a => Ok a.
Global Instance result_bind {E} : MBind (result E) :=
  fun A B k r => match r with Ok a => k a | Err e => Err e end.
Global Instance result_fmap {E} : FMap (result E) :=
  fun A B f r => match r with Ok a => Ok (f a) | Err e => Err e end.

(** [if cond { return err }] *)
Definition reject {E} (cond : bool) (e : E) : result E unit :=
  if cond then Err e else Ok tt.

(** [if x, err := f(); err != nil { return wrap(err) }] *)
Definition wrap_err {E F A} (w : E -> F) (r : result E A) : result F A :=
  match r with Ok a => Ok a | Err e => Err (w e) end.

(** A [range] loop whose body may return an error. *)
Fixpoint forE {E A S} (body : S -> A -> result E S) (st : S) (l : list A) : result E S :=
  match l with
  | [] => Ok st
  | x :: xs => match body st x with Ok st' => forE body st' xs | Err e => Err e end
  end.

(** ** Facts about results *)

Lemma bind_Ok {E A B} (r : result E A) (k : A -> result E B) b :
  (r ≫= k) = Ok b <-> exists a, r = Ok a /\ k a = Ok b.
Proof. destruct r; cbn; naive_solver. Qed.

Lemma bind_Err {E A B} (r : result E A) (k : A -> result E B) e :
  (r ≫= k) = Err e <-> r = Err e \/ exists a, r = Ok a /\ k a = Err e.
Proof. destruct r; cbn; naive_solver. Qed.

(** A step whose value is ignored. *)
Lemma seq_Ok {E A B} (r : result E A) (k : result E B) b :
  (r ;; k) = Ok b <-> (exists a, r = Ok a) /\ k = Ok b.
Proof. destruct r; cbn; naive_solver. Qed.

Lemma unit_Ok {E} (r : result E unit) : (exists u, r = Ok u) <-> r = Ok tt.
Proof. destruct r as [[]|]; naive_solver. Qed.

Lemma reject_seq {E A} c (e : E) (k : result E A) :
  (reject c e ;; k) = if c then Err e else k.
Proof. by destruct c. Qed.

Lemma reject_Ok {E} c (e : E) u : reject c e = Ok u <-> c = false.
Proof. destruct u, c; naive_solver. Qed.

Lemma reject_seq_Ok {E A} c (e : E) (k : result E A) a :
  (reject c e ;; k) = Ok a <-> c = false /\ k = Ok a.
Proof. rewrite reject_seq. destruct c; naive_solver. Qed.

Lemma wrap_err_Ok {E F A} (w : E -> F) (r : result E A) a : wrap_err w r = Ok a <-> r = Ok a.
Proof. destruct r; simpl; naive_solver. Qed.

Lemma wrap_err_is_ok {E F A} (w : E -> F) (r : result E A) : is_ok (wrap_err w r) = is_ok r.
Proof. by destruct r. Qed.

Lemma is_ok_spec {E A} (r : result E A) : is_ok r = true <-> exists a, r = Ok a.
Proof. destruct r; simpl; naive_solver. Qed.

Lemma is_ok_unit {E} (r : result E unit) : is_ok r = true <-> r = Ok tt.
Proof. destruct r as [[]|]; simpl; naive_solver. Qed.

Lemma forE_nil {E A S} (body : S -> A -> result E S) st : forE body st [] = Ok st.
Proof. done. Qed.

Lemma forE_cons {E A S} (body : S -> A -> result E S) st x l :
  forE body st (x :: l) = body st x ≫= fun st' => forE body st' l.
Proof. simpl. by destruct (body st x). Qed.

Lemma forE_app {E A S} (body : S -> A -> result E S) st l k :
  forE body st (l ++ k) = forE body st l ≫= fun st' => forE body st' k.
Proof.
  revert st. induction l as [|x l IH]; intros st; [done|].
  simpl. destruct (body st x); [apply IH|done].
Qed.

(** A loop that only checks succeeds when every check does. *)
Lemma forE_unit_Ok {E A} (body : unit -> A -> result E unit) l :
  forE body tt l = Ok tt <-> Forall (fun x => body tt x = Ok tt) l.
Proof.
  induction l as [|x l IH]; simpl; [by rewrite Forall_nil|].
  rewrite Forall_cons, <- IH. destruct (body tt x) as [[]|]; naive_solver.
Qed.

(** Many loops of the code validate each element and reject a repeated key,
    remembering the keys seen in a map: such a loop succeeds exactly when the
    elements are valid and their keys are distinct and new. *)
Section seen_loop.
Context {E A K : Type} `{Countable K}.
Context (body : gset K -> A -> result E (gset K)) (key : A -> K) (ok : A -> Prop).
Context (body_ok : forall seen x out,
  body seen x = Ok out <-> ok x /\ key x ∉ seen /\ out = {[key x]} ∪ seen).

Lemma forE_seen seen l out :
  forE body seen l = Ok out <->
  Forall ok l /\ NoDup (map key l) /\ (forall x, x ∈ l -> key x ∉ seen) /\
  out = list_to_set (map key l) ∪ seen.
Proof.
  revert seen. induction l as [|x l IH]; intros seen.
  - simpl. rewrite Forall_nil. split.
    + intros [= ->]. split_and!; [done|constructor|set_solver|set_solver].
    + intros (_ & _ & _ & ->). f_equal. set_solver.
  - rewrite forE_cons, bind_Ok, map_cons, Forall_cons, NoDup_cons. split.
    + intros (seen' & (Hx & Hk & ->)%body_ok & (Hl & Hnd & Hnew & ->)%IH).
      split_and!; [done|done| |done| |set_solver].
      * intros (y & Hy & Hin)%list_elem_of_fmap. apply (Hnew y Hin). set_solver.
      * intros y [->|Hy]%elem_of_cons; [done|]. specialize (Hnew y Hy). set_solver.
    + intros ((Hx & Hl) & (Hnk & Hnd) & Hnew & ->).
      exists ({[key x]} ∪ seen). split; [apply body_ok; split_and!; [done| |done]; apply Hnew; set_solver|].
      apply IH. split_and!; [done|done| |set_solver].
      intros y Hy Hin. apply elem_of_union in Hin as [Heq%elem_of_singleton|Hin].
      * apply Hnk. rewrite <- Heq. apply list_elem_of_fmap. by exists y.
      * apply (Hnew y); [by right|done].
Qed.

(** From the empty set: valid elements with distinct keys. *)
Lemma forE_seen_empty l out :
  forE body ∅ l = Ok out <->
  Forall ok l /\ NoDup (map key l) /\ out = list_to_set (map key l).
Proof. rewrite forE_seen. split; intros; destruct_and?; split_and!; set_solver. Qed.
End seen_loop.

(** ** Filtered lists

    The code filters with [out := l[:0]] and [append]: [List.filter]. *)

Lemma elem_of_filter_true {A} (f : A -> bool) l x : x ∈ List.filter f l <-> f x = true /\ x ∈ l.
Proof. rewrite !list_elem_of_In, filter_In. tauto. Qed.

Lemma filter_sublist_of {A} (f : A -> bool) l : List.filter f l `sublist_of` l.
Proof. induction l as [|x l IH]; simpl; [constructor|]. destruct (f x); by constructor. Qed.

Lemma NoDup_map_filter {A B} (f : A -> bool) (k : A -> B) l :
  NoDup (map k l) -> NoDup (map k (List.filter f l)).
Proof. intros H. eapply sublist_NoDup; [exact H|]. apply (fmap_sublist k), filter_sublist_of. Qed.

Lemma Forall_filter_true {A} (P : A -> Prop) f l : Forall P l -> Forall P (List.filter f l).
Proof. rewrite !Forall_forall. setoid_rewrite elem_of_filter_true. naive_solver. Qed.

Lemma filter_comm {A} (f g : A -> bool) l : List.filter f (List.filter g l) = List.filter g (List.filter f l).
Proof.
  induction l as [|x l IH]; simpl; [done|].
  destruct (g x) eqn:Hg, (f x) eqn:Hf; simpl; rewrite ?Hg, ?Hf, IH; done.
Qed.

Lemma filter_true_Permutation {A} (f : A -> bool) l k : l ≡ₚ k -> List.filter f l ≡ₚ List.filter f k.
Proof.
  induction 1 as [|x l k _ IH|x y l|l k m _ IH1 _ IH2]; simpl; [done| | |by trans (List.filter f k)].
  - destruct (f x); [by apply Permutation_skip|done].
  - destruct (f x), (f y); [apply Permutation_swap|done..].
Qed.

(** Distinct keys identify the elements of a list. *)
Lemma NoDup_map_inj {A B} (k : A -> B) l x y :
  NoDup (map k l) -> x ∈ l -> y ∈ l -> k x = k y -> x = y.
Proof.
  induction l as [|z l IH]; simpl; [set_solver|].
  rewrite NoDup_cons, !elem_of_cons. intros [Hz Hl] [->|Hx] [->|Hy] Hk; [done| | |auto].
  - destruct Hz. rewrite Hk. by apply list_elem_of_fmap_2.
  - destruct Hz. rewrite <- Hk. by apply list_elem_of_fmap_2.
Qed.

(** A filter that keeps at most one element is decided by membership. *)
Lemma filter_unique {A} (f : A -> bool) l x :
  NoDup l -> x ∈ l -> f x = true -> (forall y, y ∈ l -> f y = true -> y = x) -> List.filter f l = [x].
Proof.
  induction l as [|z l IH]; simpl; [set_solver|].
  rewrite NoDup_cons. intros [Hz Hl] Hx Hf Hu. destruct (f z) eqn:Hfz.
  - assert (z = x) as -> by (apply Hu; [left|done]). f_equal.
    destruct (List.filter f l) as [|w ws] eqn:Hw; [done|].
    assert (w ∈ List.filter f l) as [Hfw Hwl]%elem_of_filter_true by (rewrite Hw; left).
    destruct Hz. rewrite <- (Hu w); [done|by right|done].
  - apply elem_of_cons in Hx as [->|Hx]; [congruence|].
    apply IH; [done..|]. intros y Hy. apply Hu. by right.
Qed.

(** ** Booleans of [==] and [!=] *)

Lemma eqb_true {A} `{EqDecision A} (a b : A) : (a == b) = true <-> a = b.
Proof. apply bool_decide_eq_true. Qed.
Lemma eqb_false {A} `{EqDecision A} (a b : A) : (a == b) = false <-> a <> b.
Proof. apply bool_decide_eq_false. Qed.
Lemma neqb_true {A} `{EqDecision A} (a b : A) : (a != b) = true <-> a <> b.
Proof. by rewrite negb_true_iff, eqb_false. Qed.
Lemma neqb_false {A} `{EqDecision A} (a b : A) : (a != b) = false <-> a = b.
Proof. by rewrite negb_false_iff, eqb_true. Qed.
Lemma negb_neqb_true {A} `{EqDecision A} (a b : A) : negb (a != b) = true <-> a = b.
Proof. by rewrite negb_true_iff, neqb_false. Qed.

Create Rewrite HintDb go.
#[export] Hint Rewrite @bind_Ok @reject_Ok @reject_seq_Ok @wrap_err_Ok @is_ok_unit
  @eqb_true @eqb_false @neqb_true @neqb_false
  orb_true_iff orb_false_iff andb_true_iff andb_false_iff negb_true_iff negb_false_iff
  @bool_decide_eq_true @bool_decide_eq_false : go.

(** Turns the booleans and the error plumbing of a hypothesis or goal into
    propositions. *)
Ltac go_simpl := repeat progress (autorewrite with go in *; simpl in *).

(** Splits a hypothesis [r = Ok x] of a function body into its steps. *)
Ltac inv_ok H :=
  lazymatch type of H with
  | (reject _ _ ;; _) = Ok _ =>
      let H' := fresh "Hc" in apply reject_seq_Ok in H as [H' H]; inv_ok H
  | (_ ≫= _) = Ok _ =>
      let H' := fresh "Hr" in apply bind_Ok in H as (? & H' & H); inv_ok H
  | _ => idtac
  end.
