(* ===== verification/GoStrings.v ===== *)
(** * Go strings

    A Go [string] is a sequence of bytes, here a [string] of [ascii] bytes.
    This file models what the repository uses of package [strings] (TrimSpace,
    HasPrefix, HasSuffix, Contains, ContainsAny, Cut, Split, Join, ToLower),
    of [strconv] (Itoa, Atoi) and of [sort.Strings], and proves the facts the
    components need about them. *)

From S2P Require Import Prelude.

(** ** Bytes *)

Definition byte_of (n : nat) : ascii := ascii_of_nat n.
Definition bytes (l : list nat) : string := foldr (fun n s => String (byte_of n) s) EmptyString l.

(** [errors.Join] of two errors, and of an error with what may be none. *)
Definition join_errors (a b : error) : error := Errorf ("%w" +:+ bytes [10] +:+ "%w") [ATxt a; ATxt b].
Definition join_result {A} (a : error) (r : result error A) : error :=
  match r with Ok _ => Errorf "%w" [ATxt a] | Err b => join_errors a b end.

Definition strlen (s : string) : nat := String.length s.
(** [len(s)] as a Go [int]. *)
Definition len (s : string) : Z := Z.of_nat (strlen s).

(** [s[i]]; [None] out of range, where Go panics. *)
Definition byte_at (s : string) (i : nat) : option ascii := String.get i s.

(** ** Prefixes and suffixes *)

(** [strings.CutPrefix] *)
Fixpoint strip_prefix (p s : string) : option string :=
  match p, s with
  | EmptyString, _ => Some s
  | String a p', String b s' => if decide (a = b) then strip_prefix p' s' else None
  | String _ _, EmptyString => None
  end.

Definition HasPrefix (s p : string) : bool := bool_decide (is_Some (strip_prefix p s)).
Definition HasSuffix (s p : string) : bool := HasPrefix (String.rev s) (String.rev p).
Definition TrimPrefix (s p : string) : string :=
  match strip_prefix p s with Some r => r | None => s end.

(** [strings.Contains] *)
Fixpoint Contains (s sub : string) : bool :=
  HasPrefix s sub || match s with EmptyString => false | String _ s' => Contains s' sub end.

(** [strings.ContainsAny] for a set of ASCII bytes. *)
Fixpoint ContainsAny (s : string) (set : list ascii) : bool :=
  match s with
  | EmptyString => false
  | String c s' => bool_decide (c ∈ set) || ContainsAny s' set
  end.

(** [strings.Cut]: the text before and after the first separator, and whether
    there was one. *)
Fixpoint Cut (s : string) (sep : ascii) : string * string * bool :=
  match s with
  | EmptyString => (EmptyString, EmptyString, false)
  | String c s' =>
      if decide (c = sep) then (EmptyString, s', true)
      else let '(b, a, f) := Cut s' sep in (String c b, a, f)
  end.

(** [strings.Split] on a one-byte separator. *)
Fixpoint Split (s : string) (sep : ascii) : list string :=
  match s with
  | EmptyString => [EmptyString]
  | String c s' =>
      if decide (c = sep) then EmptyString :: Split s' sep
      else match Split s' sep with
           | [] => [String c EmptyString]
           | w :: ws => String c w :: ws
           end
  end.

(** [strings.Join] *)
Fixpoint Join (l : list string) (sep : string) : string :=
  match l with
  | [] => EmptyString
  | [x] => x
  | x :: xs => x +:+ sep +:+ Join xs sep
  end.

(** ** TrimSpace

    [strings.TrimSpace] removes the leading and trailing runes of Unicode's
    White_Space property ([unicode.IsSpace]).  A Go string is UTF-8, so a rune
    is one of these byte sequences: the ASCII spaces, U+0085, U+00A0, U+1680,
    U+2000 to U+200A, U+2028, U+2029, U+202F, U+205F and U+3000.  None of them
    is a prefix or a suffix of another encoding, so decoding runes from either
    end removes exactly these sequences. *)
Definition space_runes : list string :=
  map bytes
    ([[9]; [10]; [11]; [12]; [13]; [32]; [194; 133]; [194; 160]; [225; 154; 128]]
     ++ map (fun n => [226; 128; n]) [128; 129; 130; 131; 132; 133; 134; 135; 136; 137; 138; 168; 169; 175]
     ++ [[226; 129; 159]; [227; 128; 128]]).

(** The rest of [s] after the first of [seqs] it starts with. *)
Fixpoint strip_any (seqs : list string) (s : string) : option string :=
  match seqs with
  | [] => None
  | p :: ps => match strip_prefix p s with Some r => Some r | None => strip_any ps s end
  end.

(** Each step removes at least one byte, so [strlen s] steps are enough. *)
Fixpoint trim_fuel (seqs : list string) (fuel : nat) (s : string) : string :=
  match fuel with
  | O => s
  | S n => match strip_any seqs s with Some r => trim_fuel seqs n r | None => s end
  end.

Definition trim_left (seqs : list string) (s : string) : string := trim_fuel seqs (strlen s) s.

Definition TrimLeftSpace (s : string) : string := trim_left space_runes s.
Definition TrimRightSpace (s : string) : string :=
  String.rev (trim_left (map String.rev space_runes) (String.rev s)).
Definition TrimSpace (s : string) : string := TrimRightSpace (TrimLeftSpace s).

(** [strings.Fields]: the maximal runs without white space; [field] is the one
    being read. *)
Definition flush (field : string) : list string := if field == "" then [] else [field].

Fixpoint fields_fuel (fuel : nat) (s field : string) : list string :=
  match fuel, s with
  | S fuel, String c s' =>
      match strip_any space_runes s with
      | Some rest => flush field ++ fields_fuel fuel rest ""
      | None => fields_fuel fuel s' (field +:+ String c "")
      end
  | _, _ => flush field
  end.

Definition Fields (s : string) : list string := fields_fuel (strlen s) s "".

(** ** ToLower

    [strings.ToLower] maps ASCII letters, and maps runes outside ASCII by
    Unicode's tables.  Two of those have an ASCII lower case: U+0130 (dotted
    capital I, to "i") and U+212A (the Kelvin sign, to "k").  Every other rune
    outside ASCII is mapped to a rune outside ASCII and is left alone here: the
    result is the same as Go's whenever it is compared with ASCII text. *)
Definition lower_byte (c : ascii) : ascii :=
  let n := nat_of_ascii c in
  if (65 <=? n)%nat && (n <=? 90)%nat then byte_of (n + 32) else c.

Fixpoint lower_fuel (fuel : nat) (s : string) : string :=
  match fuel with
  | O => s
  | S n =>
      match strip_prefix (bytes [196; 176]) s, strip_prefix (bytes [226; 132; 170]) s, s with
      | Some r, _, _ => String "i" (lower_fuel n r)
      | None, Some r, _ => String "k" (lower_fuel n r)
      | None, None, String c r => String (lower_byte c) (lower_fuel n r)
      | None, None, EmptyString => EmptyString
      end
  end.
Definition ToLower (s : string) : string := lower_fuel (strlen s) s.

(** ** Decimal numbers *)

Definition digit_byte (n : Z) : ascii := byte_of (48 + Z.to_nat n).

(** Prints the [fuel] low decimal digits of [n] before [acc], without leading
    zeros. *)
Fixpoint itoa_fuel (fuel : nat) (n : Z) (acc : string) : string :=
  match fuel with
  | O => acc
  | S f =>
      let acc := String (digit_byte (n mod 10)) acc in
      if (n / 10 =? 0)%Z then acc else itoa_fuel f (n / 10) acc
  end.

(** [strconv.Itoa] on a 64-bit [int]: 20 digits are enough. *)
Definition Itoa (n : Z) : string :=
  if (n <? 0)%Z then String "-" (itoa_fuel 20 (- n) EmptyString) else itoa_fuel 20 n EmptyString.

Definition digit_val (c : ascii) : option Z :=
  let n := nat_of_ascii c in
  if (48 <=? n)%nat && (n <=? 57)%nat then Some (Z.of_nat n - 48)%Z else None.

Fixpoint atoi_digits (s : string) (acc : Z) : option Z :=
  match s with
  | EmptyString => Some acc
  | String c s' => d ← digit_val c; atoi_digits s' (acc * 10 + d)%Z
  end.

Definition max_int : Z := 2 ^ 63 - 1.
Definition min_int : Z := - 2 ^ 63.

(** [strconv.Atoi]: an optional sign, at least one digit, and a value in the
    range of a 64-bit [int]; [None] is Go's error. *)
Definition Atoi (s : string) : option Z :=
  let '(neg, body) :=
    match s with
    | String "+" r => (false, r)
    | String "-" r => (true, r)
    | _ => (false, s)
    end in
  match body with
  | EmptyString => None
  | _ =>
      n ← atoi_digits body 0;
      let v := if neg then (- n)%Z else n in
      if (min_int <=? v)%Z && (v <=? max_int)%Z then Some v else None
  end.

(** [strings.LastIndex] with the text before and after the last occurrence of
    [sep], which is not empty. *)
Fixpoint LastCut (s sep : string) : option (string * string) :=
  match s with
  | EmptyString => None
  | String c s' =>
      match LastCut s' sep with
      | Some (a, b) => Some (String c a, b)
      | None => match strip_prefix sep s with Some r => Some (EmptyString, r) | None => None end
      end
  end.

(** [strings.TrimSuffix] *)
Definition TrimSuffix (s p : string) : string := String.rev (TrimPrefix (String.rev s) (String.rev p)).

(** ** Sorting *)

(** [sort.Slice] with [key(i) < key(j)]: the callers' keys are distinct, so
    the sorted order is unique and stability does not matter. *)
Definition sort_by {A} (key : A -> string) : list A -> list A :=
  merge_sort (fun a b => String.le (key a) (key b)).

(** [sort.Slice] with a comparison function. *)
Definition not_after {A} (before : A -> A -> bool) (x y : A) : Prop := before y x = false.

Global Instance not_after_dec {A} (before : A -> A -> bool) : RelDecision (not_after before).
Proof. intros x y. unfold not_after. apply _. Defined.

Definition sort_slice {A} (before : A -> A -> bool) : list A -> list A := merge_sort (not_after before).

(** [sort.Strings] *)
Definition sort_strings : list string -> list string := merge_sort String.le.

(** ** Paths

    [filepath.Clean] on a system whose separator is the slash: empty and [.]
    elements go, [..] removes the element before it, and is kept in front of a
    relative path and dropped in front of an absolute one.  The elements kept
    are stacked, the last one first. *)
Definition slash : ascii := "/"%char.

Definition clean_element (rooted : bool) (stack : list string) (element : string) : list string :=
  if (element == "") || (element == ".") then stack
  else if element == ".." then
    match stack with
    | [] => if rooted then [] else [".."]
    | x :: rest => if x == ".." then element :: stack else rest
    end
  else element :: stack.

Definition Clean (path : string) : string :=
  let rooted := HasPrefix path "/" in
  let body := Join (reverse (foldl (clean_element rooted) [] (Split path slash))) "/" in
  if rooted then "/" +:+ body else if body == "" then "." else body.

(** [filepath.Join]: the elements that are not empty. *)
Definition filepath_Join (elements : list string) : string :=
  let kept := List.filter (fun e => e != "") elements in
  match kept with [] => "" | _ => Clean (Join kept "/") end.

(** ** Predicates on texts *)

(** The sequences removed are not empty. *)
Definition proper_seqs (seqs : list string) : Prop := "" ∉ seqs.

(** Text that [TrimSpace] leaves alone: it neither starts nor ends with a
    space rune. *)
Definition trimmed (s : string) : Prop :=
  strip_any space_runes s = None /\ strip_any (map String.rev space_runes) (String.rev s) = None.

Global Instance trimmed_dec s : Decision (trimmed s).
Proof. apply _. Defined.

(** Whether a byte occurs in a text. *)
Fixpoint has_byte (b : ascii) (s : string) : bool :=
  match s with
  | EmptyString => false
  | String c s' => (c == b) || has_byte b s'
  end.

(** Whether every byte is in the ASCII range. *)
Fixpoint is_ascii (s : string) : bool :=
  match s with
  | EmptyString => true
  | String c s' => (nat_of_ascii c <? 128)%nat && is_ascii s'
  end.

(** Whether a sequence starts with byte [c] (the empty one counts). *)
Definition starts_with (c : ascii) (p : string) : bool :=
  match p with EmptyString => true | String a _ => (a == c) end.

(** * Facts *)

(** ** Concatenation and reversal *)

Lemma string_app_nil_l s : "" +:+ s = s.
Proof. done. Qed.

Lemma string_app_cons c s t : String c s +:+ t = String c (s +:+ t).
Proof. done. Qed.

Lemma string_app_nil_r s : s +:+ "" = s.
Proof. induction s as [|c s IH]; [done|]. by rewrite string_app_cons, IH. Qed.

Lemma string_app_assoc s t u : (s +:+ t) +:+ u = s +:+ t +:+ u.
Proof. induction s as [|c s IH]; [done|]. by rewrite !string_app_cons, IH. Qed.

Lemma strlen_app s t : strlen (s +:+ t) = (strlen s + strlen t)%nat.
Proof.
  unfold strlen. induction s as [|c s IH]; [done|].
  rewrite string_app_cons; simpl. by rewrite IH.
Qed.

Lemma rev_app_spec s t : String.rev_app s t = String.rev s +:+ t.
Proof.
  unfold String.rev. revert t. induction s as [|c s IH]; intros t; [done|]; simpl.
  by rewrite (IH (String c t)), (IH (String c "")), string_app_assoc.
Qed.

Lemma rev_cons c s : String.rev (String c s) = String.rev s +:+ String c "".
Proof. unfold String.rev at 1; simpl. by rewrite rev_app_spec. Qed.

Lemma rev_app_distr s t : String.rev (s +:+ t) = String.rev t +:+ String.rev s.
Proof.
  induction s as [|c s IH].
  - by rewrite string_app_nil_l, string_app_nil_r.
  - by rewrite string_app_cons, !rev_cons, IH, string_app_assoc.
Qed.

Lemma rev_involutive s : String.rev (String.rev s) = s.
Proof. induction s as [|c s IH]; [done|]. by rewrite rev_cons, rev_app_distr, IH. Qed.

Lemma strlen_rev s : strlen (String.rev s) = strlen s.
Proof.
  induction s as [|c s IH]; [done|]. rewrite rev_cons, strlen_app, IH. unfold strlen. simpl. lia.
Qed.

Lemma string_app_eq_nil s t : s +:+ t = "" -> s = "" /\ t = "".
Proof. destruct s; [done|]. by rewrite string_app_cons. Qed.

(** ** Prefixes *)

Lemma strip_prefix_spec p s r : strip_prefix p s = Some r <-> s = p +:+ r.
Proof.
  revert s. induction p as [|a p IH]; intros s; simpl.
  - rewrite string_app_nil_l. naive_solver.
  - destruct s as [|b s].
    + by rewrite string_app_cons.
    + rewrite string_app_cons. destruct (decide (a = b)) as [->|Hne].
      * rewrite IH. naive_solver.
      * split; [done|]. intros [=]. by subst.
Qed.

Lemma HasPrefix_spec s p : HasPrefix s p = true <-> exists r, s = p +:+ r.
Proof.
  unfold HasPrefix. rewrite bool_decide_eq_true. unfold is_Some.
  split; intros [r Hr]; exists r; by apply strip_prefix_spec.
Qed.

Lemma strip_any_spec seqs s r :
  strip_any seqs s = Some r -> exists p, p ∈ seqs /\ s = p +:+ r.
Proof.
  induction seqs as [|p ps IH]; simpl; [done|].
  destruct (strip_prefix p s) as [r'|] eqn:Hp.
  - intros [= ->]. exists p. split; [left|]. by apply strip_prefix_spec.
  - intros H. destruct (IH H) as (q & Hq & ->). exists q. split; [by right|done].
Qed.

Lemma strip_any_None seqs s :
  strip_any seqs s = None <-> forall p r, p ∈ seqs -> s <> p +:+ r.
Proof.
  induction seqs as [|p ps IH]; simpl.
  - split; [|done]. intros _ p r Hin. by apply elem_of_nil in Hin.
  - destruct (strip_prefix p s) as [r|] eqn:Hp.
    + split; [done|]. intros H. exfalso. apply (H p r); [left|by apply strip_prefix_spec].
    + rewrite IH. split.
      * intros H q r Hin ->. apply elem_of_cons in Hin as [->|Hin]; [|by eapply H].
        assert (strip_prefix p (p +:+ r) = Some r) by by apply strip_prefix_spec. congruence.
      * intros H q r Hin. apply H. by right.
Qed.

(** A prefix of a text that starts with none of [seqs] starts with none of
    them either. *)
Lemma strip_any_None_prefix seqs s t :
  strip_any seqs (s +:+ t) = None -> strip_any seqs s = None.
Proof.
  rewrite !strip_any_None. intros H p r Hin ->. apply (H p (r +:+ t) Hin).
  by rewrite string_app_assoc.
Qed.

(** ** Trimming *)

Lemma trim_fuel_suffix seqs fuel s : exists pre, s = pre +:+ trim_fuel seqs fuel s.
Proof.
  revert s. induction fuel as [|n IH]; intros s; simpl; [by exists ""|].
  destruct (strip_any seqs s) as [r|] eqn:Hs; [|by exists ""].
  destruct (strip_any_spec _ _ _ Hs) as (p & _ & ->).
  destruct (IH r) as [pre Hpre]. exists (p +:+ pre). by rewrite string_app_assoc, <- Hpre.
Qed.

Lemma trim_left_suffix seqs s : exists pre, s = pre +:+ trim_left seqs s.
Proof. apply trim_fuel_suffix. Qed.

Lemma trim_fuel_done seqs fuel s :
  proper_seqs seqs -> (strlen s <= fuel)%nat -> strip_any seqs (trim_fuel seqs fuel s) = None.
Proof.
  intros Hp. revert s. induction fuel as [|n IH]; intros s Hlen; simpl.
  - destruct s as [|c s]; [|unfold strlen in Hlen; simpl in Hlen; lia].
    apply strip_any_None. intros p r Hin Heq. symmetry in Heq.
    apply string_app_eq_nil in Heq as [-> _]. done.
  - destruct (strip_any seqs s) as [r|] eqn:Hs; [|done].
    apply IH. destruct (strip_any_spec _ _ _ Hs) as (p & Hin & ->).
    rewrite strlen_app in Hlen. destruct p; [done|]. unfold strlen in *. simpl in Hlen. lia.
Qed.

Lemma trim_left_done seqs s : proper_seqs seqs -> strip_any seqs (trim_left seqs s) = None.
Proof. intros Hp. by apply trim_fuel_done. Qed.

Lemma trim_left_id seqs s : strip_any seqs s = None -> trim_left seqs s = s.
Proof. unfold trim_left. intros H. destruct (strlen s); simpl; by rewrite ?H. Qed.

Lemma space_runes_proper : proper_seqs space_runes.
Proof. unfold proper_seqs. apply (bool_decide_unpack _). by vm_compute. Qed.

Lemma rev_space_runes_proper : proper_seqs (map String.rev space_runes).
Proof. unfold proper_seqs. apply (bool_decide_unpack _). by vm_compute. Qed.

Lemma TrimRightSpace_prefix s : exists suf, s = TrimRightSpace s +:+ suf.
Proof.
  unfold TrimRightSpace.
  destruct (trim_left_suffix (map String.rev space_runes) (String.rev s)) as [pre Hpre].
  exists (String.rev pre). by rewrite <- rev_app_distr, <- Hpre, rev_involutive.
Qed.

Lemma TrimSpace_trimmed s : trimmed (TrimSpace s).
Proof.
  unfold TrimSpace. split.
  - destruct (TrimRightSpace_prefix (TrimLeftSpace s)) as [suf Hsuf].
    apply (strip_any_None_prefix _ _ suf). rewrite <- Hsuf.
    apply trim_left_done, space_runes_proper.
  - unfold TrimRightSpace. rewrite rev_involutive.
    apply trim_left_done, rev_space_runes_proper.
Qed.

Lemma trimmed_TrimSpace s : trimmed s -> TrimSpace s = s.
Proof.
  intros [Hl Hr]. unfold TrimSpace, TrimLeftSpace. rewrite (trim_left_id _ _ Hl).
  unfold TrimRightSpace. by rewrite (trim_left_id _ _ Hr), rev_involutive.
Qed.

Lemma TrimSpace_idem s : TrimSpace (TrimSpace s) = TrimSpace s.
Proof. apply trimmed_TrimSpace, TrimSpace_trimmed. Qed.

Lemma TrimSpace_nil : TrimSpace "" = "".
Proof. done. Qed.

(** What [TrimSpace] removes surrounds the result. *)
Lemma TrimSpace_infix s : exists pre suf, s = pre +:+ TrimSpace s +:+ suf.
Proof.
  unfold TrimSpace. destruct (trim_left_suffix space_runes s) as [pre Hpre].
  destruct (TrimRightSpace_prefix (TrimLeftSpace s)) as [suf Hsuf].
  exists pre, suf. rewrite <- Hsuf. apply Hpre.
Qed.

(** A text none of whose end bytes starts (or ends) a space rune is trimmed. *)
Lemma strip_any_head seqs c s :
  forallb (fun p => negb (starts_with c p)) seqs = true -> strip_any seqs (String c s) = None.
Proof.
  induction seqs as [|p ps IH]; simpl; [done|].
  rewrite andb_true_iff, negb_true_iff. intros [Hp Hps].
  destruct p as [|a p]; simpl in *; [done|].
  apply bool_decide_eq_false in Hp. rewrite decide_False by done. auto.
Qed.

(** ** Bytes that occur in a text *)

Lemma has_byte_app b s t : has_byte b (s +:+ t) = has_byte b s || has_byte b t.
Proof.
  induction s as [|c s IH]; [done|]. rewrite string_app_cons; simpl. by rewrite IH, orb_assoc.
Qed.

Lemma has_byte_TrimSpace b s : has_byte b s = false -> has_byte b (TrimSpace s) = false.
Proof.
  destruct (TrimSpace_infix s) as (pre & suf & Heq). rewrite Heq at 1.
  rewrite !has_byte_app, !orb_false_iff. tauto.
Qed.

Lemma has_byte_rev b s : has_byte b (String.rev s) = has_byte b s.
Proof.
  induction s as [|c s IH]; [done|]. rewrite rev_cons, has_byte_app, IH. simpl.
  by rewrite orb_false_r, orb_comm.
Qed.

Lemma has_byte_at b s : has_byte b s = true -> exists j, byte_at s j = Some b.
Proof.
  induction s as [|c s IH]; simpl; [done|]. rewrite orb_true_iff, eqb_true.
  intros [->|[j Hj]%IH]; [by exists 0%nat|by exists (S j)].
Qed.

(** Trimming removes no occurrence of a byte that no space rune has. *)
Lemma has_byte_trim_fuel b seqs fuel s :
  Forall (fun p => has_byte b p = false) seqs -> has_byte b (trim_fuel seqs fuel s) = has_byte b s.
Proof.
  intros Hc. revert s. induction fuel as [|n IH]; intros s; simpl; [done|].
  destruct (strip_any seqs s) as [r|] eqn:Hs; [|done].
  apply strip_any_spec in Hs as (p & Hp & ->). rewrite Forall_forall in Hc.
  by rewrite IH, has_byte_app, (Hc p Hp).
Qed.

Lemma has_byte_trim b s :
  Forall (fun p => has_byte b p = false) space_runes -> has_byte b (TrimSpace s) = has_byte b s.
Proof.
  intros Hc. unfold TrimSpace, TrimRightSpace, TrimLeftSpace, trim_left.
  rewrite has_byte_rev, has_byte_trim_fuel, has_byte_rev; [by apply has_byte_trim_fuel|].
  apply Forall_map. eapply Forall_impl; [exact Hc|]. intros p. simpl. by rewrite has_byte_rev.
Qed.

(** Joining two texts by a byte that does not occur in the first is
    injective: the composite map keys of the code are of this form. *)
Lemma key_inj b s t s' t' :
  has_byte b s = false -> has_byte b s' = false ->
  s +:+ String b t = s' +:+ String b t' -> s = s' /\ t = t'.
Proof.
  revert s'. induction s as [|c s IH]; intros [|c' s'] Hs Hs'; simpl in *;
    rewrite ?string_app_nil_l, ?string_app_cons; intros [=]; subst.
  - done.
  - rewrite bool_decide_true in Hs' by done. done.
  - rewrite bool_decide_true in Hs by done. done.
  - apply orb_false_iff in Hs as [_ Hs], Hs' as [_ Hs'].
    by destruct (IH s' Hs Hs') as [-> ->].
Qed.

(** ** Decimal numbers *)

Lemma digit_val_byte d : (0 <= d < 10)%Z -> digit_val (digit_byte d) = Some d.
Proof.
  intros Hd. unfold digit_val, digit_byte, byte_of. rewrite Stdlib.Strings.Ascii.nat_ascii_embedding by lia.
  rewrite (proj2 (Nat.leb_le _ _)), (proj2 (Nat.leb_le _ _)) by lia. simpl. f_equal. lia.
Qed.

Lemma itoa_fuel_head f n acc : (0 <= n)%Z ->
  exists d s, (0 <= d < 10)%Z /\ itoa_fuel (S f) n acc = String (digit_byte d) s.
Proof.
  revert n acc. induction f as [|f IH]; intros n acc Hn; cbn [itoa_fuel].
  - exists (n mod 10)%Z, acc. split; [apply Z.mod_pos_bound; lia|]. by destruct (_ =? _)%Z.
  - destruct (Z.eqb_spec (n / 10) 0).
    + exists (n mod 10)%Z, acc. split; [apply Z.mod_pos_bound; lia|done].
    + apply IH. apply Z.div_pos; lia.
Qed.

(** One digit read. *)
Lemma atoi_digit d s acc : (0 <= d < 10)%Z ->
  atoi_digits (String (digit_byte d) s) acc = atoi_digits s (acc * 10 + d).
Proof. intros Hd. cbn [atoi_digits]. by rewrite digit_val_byte. Qed.

Lemma atoi_itoa_fuel f n acc : (0 <= n < 10 ^ Z.of_nat (S f))%Z ->
  exists k, forall a, atoi_digits (itoa_fuel (S f) n acc) a = atoi_digits acc (a * 10 ^ k + n)%Z /\ (0 <= k)%Z.
Proof.
  revert n acc. induction f as [|f IH]; intros n acc Hn.
  - change (10 ^ Z.of_nat 1)%Z with 10%Z in Hn. cbn [itoa_fuel].
    rewrite (Z.div_small n 10 Hn), (Z.mod_small n 10 Hn), Z.eqb_refl.
    exists 1%Z. intros a. rewrite (atoi_digit n acc a Hn), Z.pow_1_r. split; [done|lia].
  - remember (S f) as g. cbn [itoa_fuel].
    assert (Hmod : (0 <= n mod 10 < 10)%Z) by (apply Z.mod_pos_bound; lia).
    pose proof (Z.div_mod n 10 ltac:(lia)) as Hdm.
    destruct (Z.eqb_spec (n / 10) 0) as [Hz|Hz].
    + exists 1%Z. intros a. rewrite (atoi_digit _ acc a Hmod), Z.pow_1_r. split; [f_equal; lia|lia].
    + assert (Hlt : (0 <= n / 10 < 10 ^ Z.of_nat g)%Z).
      { split; [apply Z.div_pos; lia|]. apply Z.div_lt_upper_bound; [lia|].
        rewrite Nat2Z.inj_succ, Z.pow_succ_r in Hn by lia. lia. }
      destruct (IH (n / 10)%Z (String (digit_byte (n mod 10)) acc) Hlt) as [k Hk].
      exists (k + 1)%Z. intros a. destruct (Hk a) as [Ha Hk0]. split; [|lia].
      rewrite Ha, (atoi_digit _ acc _ Hmod). f_equal.
      rewrite Z.pow_add_r, Z.pow_1_r, Z.mul_assoc by lia. clear - Hdm.
      generalize (a * 10 ^ k)%Z. intros x. lia.
Qed.

(** Printing and parsing a 64-bit integer. *)
Lemma Atoi_Itoa n : (min_int <= n <= max_int)%Z -> Atoi (Itoa n) = Some n.
Proof.
  unfold min_int, max_int. intros Hn. unfold Itoa.
  assert (Hdigits : forall m, (0 <= m <= 2 ^ 63)%Z -> exists c s,
    itoa_fuel 20 m "" = String c s /\ c <> "+"%char /\ c <> "-"%char /\ atoi_digits (String c s) 0 = Some m).
  { intros m Hm. destruct (itoa_fuel_head 19 m "" ltac:(lia)) as (d & s & Hd & Hs).
    exists (digit_byte d), s. split; [done|].
    destruct (atoi_itoa_fuel 19 m "") as [k Hk]; [change (10 ^ Z.of_nat 20)%Z with (100000000000000000000)%Z; lia|]. destruct (Hk 0%Z) as [Ha _].
    rewrite Hs in Ha. split_and!; [| |rewrite Ha; cbn [atoi_digits]; f_equal; lia];
      intros Hc; pose proof (digit_val_byte d Hd) as Hv; rewrite Hc in Hv; discriminate Hv. }
  destruct (Z.ltb_spec n 0).
  - destruct (Hdigits (- n)%Z ltac:(lia)) as (c & s & -> & _ & _ & Ha). unfold Atoi. rewrite Ha. cbn [mbind option_bind].
    rewrite Z.opp_involutive. unfold min_int, max_int.
    rewrite (proj2 (Z.leb_le _ _)), (proj2 (Z.leb_le _ _)) by lia. done.
  - destruct (Hdigits n ltac:(lia)) as (c & s & -> & Hp & Hm & Ha). unfold Atoi.
    assert ((match String c s with String "+" r => (false, r) | String "-" r => (true, r) | _ => (false, String c s) end)
      = (false, String c s)) as ->.
    { destruct c as [[][][][][][][][]]; try done. }
    rewrite Ha. cbn [mbind option_bind]. unfold min_int, max_int.
    rewrite (proj2 (Z.leb_le _ _)), (proj2 (Z.leb_le _ _)) by lia. done.
Qed.

(** ** Sorting *)

Global Instance key_le_total {A} (key : A -> string) :
  Total (fun a b => String.le (key a) (key b)).
Proof. intros a b. destruct (total String.le (key a) (key b)); auto. Qed.

Global Instance key_le_trans {A} (key : A -> string) :
  Transitive (fun a b => String.le (key a) (key b)).
Proof. intros a b c. apply (transitivity (R := String.le)). Qed.

Lemma sort_by_Permutation {A} (key : A -> string) l : sort_by key l ≡ₚ l.
Proof. apply merge_sort_Permutation. Qed.

Lemma sort_by_sorted {A} (key : A -> string) l :
  StronglySorted (fun a b => String.le (key a) (key b)) (sort_by key l).
Proof. apply StronglySorted_merge_sort; apply _. Qed.

Lemma sort_slice_Permutation {A} (before : A -> A -> bool) l : sort_slice before l ≡ₚ l.
Proof. apply merge_sort_Permutation. Qed.

Lemma sort_strings_Permutation l : sort_strings l ≡ₚ l.
Proof. apply merge_sort_Permutation. Qed.

Lemma elem_of_sort_by {A} (key : A -> string) l x : x ∈ sort_by key l <-> x ∈ l.
Proof. by rewrite sort_by_Permutation. Qed.

Create HintDb gostrings.
Create Rewrite HintDb gostrings.
#[export] Hint Rewrite TrimSpace_idem TrimSpace_nil string_app_nil_l string_app_nil_r : gostrings.
#[export] Hint Resolve TrimSpace_trimmed trimmed_TrimSpace has_byte_TrimSpace : gostrings.

Lemma is_ascii_spec s : is_ascii s = true <-> forall c, has_byte c s = true -> (nat_of_ascii c < 128)%nat.
Proof.
  induction s as [|a s IH]; simpl; [done|]. rewrite andb_true_iff, Nat.ltb_lt, IH. split.
  - intros [Ha Hs] c. rewrite orb_true_iff, eqb_true. intros [<-|Hc]; auto.
  - intros H. split.
    + apply H. by rewrite (proj2 (eqb_true a a) eq_refl).
    + intros c Hc. apply H. by rewrite Hc, orb_true_r.
Qed.

(** A byte that is in no space rune survives trimming. *)
Lemma TrimSpace_nonempty b s :
  forallb (fun p => negb (has_byte b p)) space_runes = true -> has_byte b s = true -> TrimSpace s <> "".
Proof.
  intros Hr Hs Heq. rewrite <- (has_byte_trim b), Heq in Hs; [done|].
  apply Forall_forall. intros p Hp. rewrite List.forallb_forall in Hr.
  apply negb_true_iff, Hr. by apply list_elem_of_In.
Qed.

(** ** Fields *)

(** A byte that starts no white space. *)
Definition visible (c : ascii) : bool := forallb (fun p => negb (starts_with c p)) space_runes.

Definition visible_text (w : string) : Prop := forall c, has_byte c w = true -> visible c = true.

Lemma fields_visible n w rest field :
  visible_text w -> fields_fuel (strlen w + n) (w +:+ rest) field = fields_fuel n rest (field +:+ w).
Proof.
  revert field. induction w as [|c w IH]; intros field Hw.
  { rewrite string_app_nil_l. simpl. by rewrite string_app_nil_r. }
  rewrite string_app_cons. change (strlen (String c w) + n)%nat with (S (strlen w + n)). cbn [fields_fuel].
  rewrite strip_any_head by (apply Hw; simpl; by rewrite (proj2 (eqb_true c c))).
  rewrite IH; [by rewrite string_app_assoc|]. intros d Hd. apply Hw. simpl. by rewrite Hd, orb_true_r.
Qed.

(** Two words and the end of the line. *)
Lemma Fields_two v w :
  visible_text v -> visible_text w -> v <> "" -> w <> "" -> Fields (v +:+ " " +:+ w +:+ bytes [10]) = [v; w].
Proof.
  intros Hv Hw Hv0 Hw0. unfold Fields. rewrite !strlen_app, fields_visible by done.
  rewrite string_app_cons, !string_app_nil_l. change (strlen " ") with 1%nat. change (strlen (bytes [10])) with 1%nat.
  change (1 + (strlen w + 1))%nat with (S (strlen w + 1)). cbn [fields_fuel].
  change (strip_any space_runes (String " " (w +:+ bytes [10]))) with (Some (w +:+ bytes [10])). cbv iota.
  rewrite fields_visible by done. rewrite string_app_nil_l. simpl. unfold flush.
  by rewrite (proj2 (eqb_false v "") Hv0), (proj2 (eqb_false w "") Hw0).
Qed.
