(* ===== verification/StableId.v ===== *)
(** * Stable identities (internal/stableid)

    Generation and validation of the lowercase UUIDv4 identities that name
    applications. *)

From S2P Require Import Prelude GoStrings.

(** ** Definitions *)

(** An error of this package: its message; the type also carries the constant
    next action. *)
Record ValidationError := mkValidationError { Message : text }.

Definition ValidationError_Error (e : ValidationError) : error := Message e.

Definition ValidationError_NextAction (e : ValidationError) : string :=
  "Use a lowercase UUIDv4: 36 characters with hyphens, version 4 and an RFC 4122 variant (8, 9, a or b).".

(** [%x] of a byte slice: two lowercase hexadecimal digits per byte. *)
Definition hex_digit (v : Z) : ascii :=
  byte_of (Z.to_nat (if (v <? 10)%Z then 48 + v else 87 + v)).

Definition hex_byte (b : Z) (rest : string) : string :=
  String (hex_digit (Z.shiftr b 4)) (String (hex_digit (Z.land b 15)) rest).

Definition hex_bytes (l : list Z) : string := foldr hex_byte "" l.

(** [raw] is what [rand.Read] filled the 16-byte array with, or its error.
    The paddings of the format ([%08x] of four bytes and so on) never apply. *)
Definition NewUUIDv4 (label : string) (raw : result error (list Z)) : result error string :=
  match raw with
  | Err err => Err (Errorf "generate %s identity: %w" [AStr label; ATxt err])
  | Ok raw =>
      let raw := alter (fun b => Z.lor (Z.land b 0x0f) 0x40) 6%nat raw in
      let raw := alter (fun b => Z.lor (Z.land b 0x3f) 0x80) 8%nat raw in
      Ok (hex_bytes (take 4 raw) +:+ "-" +:+
          hex_bytes (take 2 (drop 4 raw)) +:+ "-" +:+
          hex_bytes (take 2 (drop 6 raw)) +:+ "-" +:+
          hex_bytes (take 2 (drop 8 raw)) +:+ "-" +:+
          hex_bytes (drop 10 raw))
  end.

(** [(r >= '0' && r <= '9') || (r >= 'a' && r <= 'f')] *)
Definition is_lower_hex (c : ascii) : bool :=
  let n := nat_of_ascii c in
  ((48 <=? n) && (n <=? 57) || (97 <=? n) && (n <=? 102))%nat.

(** The positions the loop skips. *)
Definition is_dash_position (i : nat) : bool := bool_decide (i ∈ [8; 13; 18; 23]%nat).

(** The loop ranges over runes; a rune outside ASCII, and an invalid byte, is
    not a hexadecimal digit and starts at a byte outside ASCII, so checking
    the bytes in order rejects at the same place. *)
Fixpoint lower_hex_from (i : nat) (s : string) : bool :=
  match s with
  | EmptyString => true
  | String c s' => (is_dash_position i || is_lower_hex c) && lower_hex_from (S i) s'
  end.

Definition ValidateUUIDv4 (label id : string) : result ValidationError unit :=
  let id := TrimSpace id in
  let fail (format : string) := mkValidationError (Sprintf format [AStr label; AStr id]) in
  reject ((len id != 36%Z) || (byte_at id 8 != Some "-"%char) || (byte_at id 13 != Some "-"%char)
          || (byte_at id 18 != Some "-"%char) || (byte_at id 23 != Some "-"%char))
    (fail "%s id %q must be a UUIDv4") ;;
  reject (negb (lower_hex_from 0 id)) (fail "%s id %q must be a lowercase UUIDv4") ;;
  reject (byte_at id 14 != Some "4"%char) (fail "%s id %q must use UUID version 4") ;;
  match byte_at id 19 with
  | Some "8"%char | Some "9"%char | Some "a"%char | Some "b"%char => Ok tt
  | _ => Err (fail "%s id %q has an invalid UUID variant")
  end.

(** Whether an identity is accepted. *)
Definition valid_uuid (id : string) : bool := is_ok (ValidateUUIDv4 "application" id).

(** ** Examples *)

Definition sample_uuid : string := "6f9619ff-8b86-4d01-b42d-00cf4fc964ff".

Example sample_uuid_valid : valid_uuid sample_uuid = true.
Proof. by vm_compute. Qed.
Example sample_uuid_upper : valid_uuid "6F9619FF-8B86-4D01-B42D-00CF4FC964FF" = false.
Proof. by vm_compute. Qed.

(** ** Facts *)

Lemma is_lower_hex_digit v : (0 <= v < 16)%Z -> is_lower_hex (hex_digit v) = true.
Proof.
  intros Hv.
  assert (forallb (fun n => is_lower_hex (hex_digit (Z.of_nat n))) (seq 0 16) = true) as H
    by by vm_compute.
  rewrite List.forallb_forall in H. specialize (H (Z.to_nat v)).
  rewrite Z2Nat.id in H by lia. apply H, List.in_seq. lia.
Qed.

Lemma land_15_range b : (0 <= b)%Z -> (0 <= Z.land b 15 < 16)%Z.
Proof.
  intros Hb. change 15%Z with (Z.ones 4). rewrite Z.land_ones by lia.
  apply Z.mod_pos_bound. lia.
Qed.

Lemma shiftr_4_range b : (0 <= b < 256)%Z -> (0 <= Z.shiftr b 4 < 16)%Z.
Proof. intros Hb. rewrite Z.shiftr_div_pow2 by lia. simpl. split; [apply Z.div_pos|apply Z.div_lt_upper_bound]; lia. Qed.

(** The bytes 0..255 satisfy [f] when the table of [f] is all true. *)
Lemma byte_table (f : Z -> bool) :
  forallb (fun n => f (Z.of_nat n)) (seq 0 256) = true ->
  forall b, (0 <= b < 256)%Z -> f b = true.
Proof.
  rewrite List.forallb_forall. intros H b Hb. specialize (H (Z.to_nat b)).
  rewrite Z2Nat.id in H by lia. apply H, List.in_seq. lia.
Qed.

(** The same for ASCII bytes. *)
Lemma ascii_table (f : ascii -> bool) :
  forallb (fun n => f (byte_of n)) (seq 0 256) = true -> forall c, f c = true.
Proof.
  rewrite List.forallb_forall. intros H c. specialize (H (nat_of_ascii c)).
  unfold byte_of in H. rewrite ascii_nat_embedding in H.
  pose proof (nat_ascii_bounded c). apply H. apply List.in_seq. lia.
Qed.

(** A lowercase hexadecimal digit is neither the first nor the last byte of a
    space rune. *)
Lemma hex_not_space c : is_lower_hex c = true ->
  forallb (fun p => negb (starts_with c p)) space_runes = true /\ forallb (fun p => negb (starts_with c p)) (map String.rev space_runes) = true.
Proof.
  intros Hc.
  pose proof (ascii_table (fun c => negb (is_lower_hex c) ||
                     (forallb (fun p => negb (starts_with c p)) space_runes &&
                      forallb (fun p => negb (starts_with c p)) (map String.rev space_runes)))
                ltac:(by vm_compute) c) as H.
  cbv beta in H. rewrite Hc in H. by apply andb_true_iff in H.
Qed.

Lemma hex_ends_trimmed s c r d r' :
  s = String c r -> String.rev s = String d r' ->
  is_lower_hex c = true -> is_lower_hex d = true -> trimmed s.
Proof.
  intros Hs Hrev Hc Hd. unfold trimmed. rewrite Hrev, Hs.
  split; by apply strip_any_head, hex_not_space.
Qed.

(** The bytes 0..15 after the version and variant bits are set. *)
Lemma version_byte b : (0 <= b < 256)%Z ->
  hex_digit (Z.shiftr (Z.lor (Z.land b 0x0f) 0x40) 4) = "4"%char /\
  is_lower_hex (hex_digit (Z.land (Z.lor (Z.land b 0x0f) 0x40) 15)) = true /\
  is_lower_hex (hex_digit (Z.shiftr (Z.lor (Z.land b 0x0f) 0x40) 4)) = true.
Proof.
  intros Hb.
  pose proof (byte_table (fun b => (hex_digit (Z.shiftr (Z.lor (Z.land b 0x0f) 0x40) 4) == "4"%char)
    && (is_lower_hex (hex_digit (Z.land (Z.lor (Z.land b 0x0f) 0x40) 15)) && is_lower_hex (hex_digit (Z.shiftr (Z.lor (Z.land b 0x0f) 0x40) 4)))) ltac:(by vm_compute) b Hb) as H.
  apply andb_true_iff in H as [H1 [H2 H3]%andb_true_iff]. by apply bool_decide_eq_true in H1.
Qed.

Lemma variant_byte b : (0 <= b < 256)%Z ->
  hex_digit (Z.shiftr (Z.lor (Z.land b 0x3f) 0x80) 4) ∈ ["8"; "9"; "a"; "b"]%char /\
  is_lower_hex (hex_digit (Z.land (Z.lor (Z.land b 0x3f) 0x80) 15)) = true /\
  is_lower_hex (hex_digit (Z.shiftr (Z.lor (Z.land b 0x3f) 0x80) 4)) = true.
Proof.
  intros Hb.
  pose proof (byte_table (fun b => bool_decide (hex_digit (Z.shiftr (Z.lor (Z.land b 0x3f) 0x80) 4) ∈ ["8"; "9"; "a"; "b"]%char)
    && (is_lower_hex (hex_digit (Z.land (Z.lor (Z.land b 0x3f) 0x80) 15)) && is_lower_hex (hex_digit (Z.shiftr (Z.lor (Z.land b 0x3f) 0x80) 4)))) ltac:(by vm_compute) b Hb) as H.
  apply andb_true_iff in H as [H1 [H2 H3]%andb_true_iff]. by apply bool_decide_eq_true in H1.
Qed.

Lemma hex_byte_digits b : (0 <= b < 256)%Z ->
  is_lower_hex (hex_digit (Z.shiftr b 4)) = true /\ is_lower_hex (hex_digit (Z.land b 15)) = true.
Proof.
  intros Hb. split; apply is_lower_hex_digit; [by apply shiftr_4_range|apply land_15_range; lia].
Qed.

Lemma hex_bytes_has_byte l c :
  Forall (fun b => 0 <= b < 256)%Z l -> has_byte c (hex_bytes l) = true -> is_lower_hex c = true.
Proof.
  induction 1 as [|b l Hb _ IH]; simpl; [done|].
  destruct (hex_byte_digits b Hb) as [H1 H2].
  rewrite !orb_true_iff, !eqb_true. intros [<-|[<-|Hc]]; auto.
Qed.

(** What [ValidateUUIDv4] accepts, on a text that has been trimmed. *)
Definition uuid_shape (s : string) : Prop :=
  strlen s = 36%nat /\
  Forall (fun i => byte_at s i = Some "-"%char) [8; 13; 18; 23]%nat /\
  lower_hex_from 0 s = true /\
  byte_at s 14 = Some "4"%char /\
  (exists c, byte_at s 19 = Some c /\ c ∈ ["8"; "9"; "a"; "b"]%char).

Lemma ValidateUUIDv4_shape label id :
  ValidateUUIDv4 label id = Ok tt <-> uuid_shape (TrimSpace id).
Proof.
  unfold ValidateUUIDv4, uuid_shape. set (s := TrimSpace id).
  rewrite !Forall_cons, Forall_nil.
  assert ((len s != 36%Z) = false <-> strlen s = 36%nat) as Hlen.
  { rewrite negb_false_iff, bool_decide_eq_true. unfold len. lia. }
  assert (forall i c, (byte_at s i != Some c) = false <-> byte_at s i = Some c) as Hb.
  { intros i c. by rewrite negb_false_iff, bool_decide_eq_true. }
  split.
  - intros H. inv_ok H. rewrite !orb_false_iff, Hlen, !Hb in Hc.
    rewrite negb_false_iff in Hc0. rewrite Hb in Hc1. destruct_and?.
    split_and!; [done..|].
    destruct (byte_at s 19) as [c|]; [|done]. exists c. split; [done|].
    destruct c as [[][][][][][][][]]; try done; set_solver.
  - intros (H36 & (H8 & H13 & H18 & H23 & _) & Hhex & H14 & c & H19 & Hc).
    assert (((len s != 36%Z) || (byte_at s 8 != Some "-"%char) || (byte_at s 13 != Some "-"%char)
          || (byte_at s 18 != Some "-"%char) || (byte_at s 23 != Some "-"%char)) = false) as ->.
    { rewrite !orb_false_iff, Hlen, !Hb. tauto. }
    rewrite Hhex, (proj2 (Hb _ _) H14). simpl. rewrite H19.
    rewrite !elem_of_cons, elem_of_nil in Hc. by destruct_or!; subst.
Qed.

Lemma valid_uuid_shape id : valid_uuid id = true <-> uuid_shape (TrimSpace id).
Proof.
  rewrite <- (ValidateUUIDv4_shape "application"). unfold valid_uuid.
  destruct (ValidateUUIDv4 _ _) as [[]|]; simpl; naive_solver.
Qed.

Lemma lower_hex_from_at i s j c :
  lower_hex_from i s = true -> byte_at s j = Some c -> is_dash_position (i + j) = true \/ is_lower_hex c = true.
Proof.
  revert i j. induction s as [|d s IH]; intros i j; simpl; [done|].
  rewrite andb_true_iff, orb_true_iff. intros [Hd Hs]. destruct j as [|j]; simpl.
  - intros [= ->]. by rewrite Nat.add_0_r.
  - replace (i + S j)%nat with (S i + j)%nat by lia. by apply IH.
Qed.

(** An accepted identity contains no NUL byte. *)
Lemma valid_uuid_nul_free id : valid_uuid id = true -> has_byte (byte_of 0) id = false.
Proof.
  rewrite valid_uuid_shape. intros (_ & Hdash & Hhex & _).
  rewrite <- has_byte_trim by (repeat constructor).
  destruct (has_byte _ _) eqn:Hb; [|done]. apply has_byte_at in Hb as [j Hj].
  destruct (lower_hex_from_at 0 _ j (byte_of 0) Hhex Hj) as [Hp|Hp]; [|done].
  unfold is_dash_position in Hp. apply bool_decide_eq_true in Hp. simpl in Hp.
  rewrite Forall_forall in Hdash. rewrite (Hdash j Hp) in Hj. done.
Qed.

(** The check as a step of a longer validation. *)
Lemma ValidateUUIDv4_seq {E A} (w : ValidationError -> E) label id (k : result E A) a :
  (wrap_err w (ValidateUUIDv4 label id) ;; k) = Ok a <-> valid_uuid id = true /\ k = Ok a.
Proof.
  rewrite bind_Ok, valid_uuid_shape, <- ValidateUUIDv4_shape. setoid_rewrite wrap_err_Ok.
  split; [intros ([] & Hv & Hk); eauto|intros [Hv Hk]; eauto].
Qed.

Lemma hex_bytes_cons b l : hex_bytes (b :: l) = hex_byte b (hex_bytes l).
Proof. done. Qed.

(** * Properties *)

(** An identity that [NewUUIDv4] generates is accepted by [ValidateUUIDv4],
    whatever sixteen bytes the random source delivers, and needs no trimming. *)
Theorem NewUUIDv4_validates label label' raw :
  length raw = 16%nat -> Forall (fun b => 0 <= b < 256)%Z raw ->
  exists id, NewUUIDv4 label (Ok raw) = Ok id /\ TrimSpace id = id /\
    ValidateUUIDv4 label' id = Ok tt.
Proof.
  intros Hlen Hraw.
  do 16 (destruct raw as [|? raw]; [done|]). destruct raw; [|done]. clear Hlen.
  rewrite !Forall_cons in Hraw. destruct_and?.
  eexists. split; [done|].
  repeat match goal with H : (0 <= ?b)%Z, H' : (?b < 256)%Z |- _ =>
    pose proof (hex_byte_digits b (conj H H')) as [];
    pose proof (version_byte b (conj H H')) as (? & ? & ?);
    pose proof (variant_byte b (conj H H')) as (? & ? & ?); clear H H' end.
  match goal with |- TrimSpace ?s = _ /\ _ => set (id := s) end.
  cbv -[hex_digit Z.lor Z.land Z.shiftr] in id.
  assert (TrimSpace id = id) as Htrim.
  { apply trimmed_TrimSpace. eapply hex_ends_trimmed; [reflexivity|reflexivity|assumption..]. }
  split; [done|]. apply ValidateUUIDv4_shape. rewrite Htrim. subst id. unfold uuid_shape.
  split_and!; [done|by repeat constructor| |simpl; congruence|by eexists].
  simpl. repeat match goal with H : is_lower_hex _ = true |- _ => rewrite H; clear H end.
  by rewrite ?orb_true_r.
Qed.

(** The hypotheses hold for the all-zero random bytes. *)
Lemma NewUUIDv4_validates_witness :
  exists id, NewUUIDv4 "application" (Ok (replicate 16 0%Z)) = Ok id /\ TrimSpace id = id /\
    ValidateUUIDv4 "application" id = Ok tt.
Proof.
  apply (NewUUIDv4_validates "application" "application" (replicate 16 0%Z)).
  - reflexivity.
  - apply (bool_decide_unpack _). vm_compute. exact I.
Defined.

(** Exactly which identities are accepted: after trimming, 36 bytes with the
    four hyphens, lowercase hexadecimal digits elsewhere, version 4 and an RFC
    4122 variant; the label plays no part in the decision. *)
Theorem ValidateUUIDv4_accepts label id :
  ValidateUUIDv4 label id = Ok tt <-> uuid_shape (TrimSpace id).
Proof. apply ValidateUUIDv4_shape. Qed.
