(* ===== verification/Reconciliation.v ===== *)
(** * Reconciliation decisions (internal/reconciliation)

    [Evaluate] compares a desired and an observed state and decides which
    action, if any, may be taken on the resource. *)

From S2P Require Import Prelude GoStrings.

(** ** Definitions *)

Definition State := string.
Definition StateMissing : State := "missing".
Definition StateInSync : State := "in_sync".
Definition StateDrift : State := "drift".
Definition StateConflict : State := "conflict".
Definition StateForeignOwnership : State := "foreign_ownership".
Definition StateUnsupported : State := "unsupported".
Definition StateDegraded : State := "degraded".

Definition Ownership := string.
Definition OwnershipBaseHarbor : Ownership := "baseharbor".
Definition OwnershipExternal : Ownership := "external".
Definition OwnershipForeign : Ownership := "foreign".
Definition OwnershipUnknown : Ownership := "unknown".

Definition Action := string.
Definition ActionCreate : Action := "create".
Definition ActionNoop : Action := "noop".
Definition ActionRepair : Action := "repair".
Definition ActionDestroy : Action := "destroy".
Definition ActionObserve : Action := "observe".
Definition ActionBlocked : Action := "blocked".

Record Desired := mkDesired {
  d_Exists : bool;
  d_Digest : string;
  d_Owner : Ownership }.

Record Observed := mkObserved {
  o_Exists : bool;
  o_Digest : string;
  o_Owner : Ownership;
  o_Conflict : bool;
  o_Unsupported : bool;
  o_Degraded : bool;
  o_Message : string }.

Record Diff := mkDiff {
  DesiredDigest : string;
  ObservedDigest : string;
  Changed : bool }.

(** [reconciliation.Result]; the message is kept as the text it was built
    from. *)
Record Decided := mkDecided {
  r_State : State;
  r_Action : Action;
  r_Ownership : Ownership;
  r_Diff : Diff;
  r_Message : text }.

(** The zero value of [Result]. *)
Definition zero_Decided : Decided := mkDecided "" "" "" (mkDiff "" "" false) (Lit "").

Definition messageOr (message : string) (fallback : text) : text :=
  if message != "" then Lit message else fallback.

Definition Evaluate (desired : Desired) (observed : Observed) : Decided :=
  let diff := mkDiff (d_Digest desired) (o_Digest observed)
                ((d_Exists desired != o_Exists observed) || (d_Digest desired != o_Digest observed)) in
  let desired_Owner := if d_Owner desired == "" then OwnershipBaseHarbor else d_Owner desired in
  let observed_Owner := if o_Owner observed == "" then OwnershipUnknown else o_Owner observed in
  let result st act msg := mkDecided st act observed_Owner diff msg in
  if o_Unsupported observed then
    result StateUnsupported ActionBlocked
      (messageOr (o_Message observed) (Lit "target cannot satisfy desired state"))
  else if o_Conflict observed then
    result StateConflict ActionBlocked
      (messageOr (o_Message observed) (Lit "multiple reconciliation owners or conflicting state detected"))
  else if o_Exists observed && (observed_Owner != OwnershipUnknown) && (observed_Owner != desired_Owner) then
    result StateForeignOwnership ActionBlocked
      (messageOr (o_Message observed)
        (Sprintf "observed owner %q does not match expected owner %q" [AStr observed_Owner; AStr desired_Owner]))
  else if o_Degraded observed then
    result StateDegraded ActionBlocked (messageOr (o_Message observed) (Lit "observed resource is degraded"))
  else if desired_Owner == OwnershipExternal then
    if (d_Exists desired == o_Exists observed) && (d_Digest desired == o_Digest observed)
    then result StateInSync ActionObserve (Lit "")
    else result StateDrift ActionObserve (Lit "")
  else if negb (d_Exists desired) && negb (o_Exists observed) then
    result StateInSync ActionNoop (Lit "")
  else if d_Exists desired && negb (o_Exists observed) then
    result StateMissing ActionCreate (Lit "")
  else if negb (d_Exists desired) && o_Exists observed then
    if observed_Owner == OwnershipBaseHarbor
    then result StateDrift ActionDestroy (Lit "")
    else result StateForeignOwnership ActionBlocked
           (Lit "refusing to destroy a resource not owned by BaseHarbor")
  else if d_Digest desired == o_Digest observed then
    result StateInSync ActionNoop (Lit "")
  else result StateDrift ActionRepair (Lit "").

Definition MarkVerified (result : Decided) : Decided :=
  mkDecided (if r_State result == StateDegraded then StateInSync else r_State result)
    (r_Action result) (r_Ownership result) (r_Diff result) (Lit "").

Definition MarkDegraded (result : Decided) (message : string) : Decided :=
  mkDecided StateDegraded ActionBlocked (r_Ownership result) (r_Diff result) (Lit message).

(** ** Specification *)

(** The owner a desired state stands for. *)
Definition desired_owner (d : Desired) : Ownership :=
  if d_Owner d == "" then OwnershipBaseHarbor else d_Owner d.

Definition observed_owner (o : Observed) : Ownership :=
  if o_Owner o == "" then OwnershipUnknown else o_Owner o.

(** Nothing stands in the way of acting on the resource: the target is able,
    unambiguous and healthy, and an existing resource is not somebody else's. *)
Definition actionable (d : Desired) (o : Observed) : Prop :=
  o_Unsupported o = false /\ o_Conflict o = false /\ o_Degraded o = false /\
  (o_Exists o = true -> observed_owner o = OwnershipUnknown \/ observed_owner o = desired_owner d).

Definition is_mutating (a : Action) : bool :=
  bool_decide (a ∈ [ActionCreate; ActionRepair; ActionDestroy]).

(** What observing a target that was brought to [d] reports. *)
Definition realized (d : Desired) : Observed :=
  mkObserved (d_Exists d) (d_Digest d) (desired_owner d) false false false "".

(** ** Facts *)

(** Case analysis along the conditions of [Evaluate], in the order of the code. *)
Ltac evaluate_cases :=
  unfold Evaluate; cbv zeta;
  repeat match goal with
  | |- context [if d_Owner ?d == "" then _ else _] =>
      change (if d_Owner d == "" then _ else _) with (desired_owner d)
  | |- context [if o_Owner ?o == "" then _ else _] =>
      change (if o_Owner o == "" then _ else _) with (observed_owner o)
  end;
  repeat case_match;
  cbn [r_State r_Action r_Ownership r_Diff r_Message Changed DesiredDigest ObservedDigest].

Lemma is_mutating_spec a :
  is_mutating a = true <-> a = ActionCreate \/ a = ActionRepair \/ a = ActionDestroy.
Proof. unfold is_mutating. rewrite bool_decide_eq_true. set_solver. Qed.

(** * Properties *)

(** C10: Evaluate decides on a mutation only for a resource that is managed (not
    external), on an actionable target, that does not match what is desired;
    what it creates is absent, what it repairs is present, and it destroys
    nothing that is not observed as BaseHarbor-owned. *)
Theorem Evaluate_mutation_safe d o :
  is_mutating (r_Action (Evaluate d o)) = true ->
  actionable d o /\ desired_owner d <> OwnershipExternal /\
  Changed (r_Diff (Evaluate d o)) = true /\
  (r_Action (Evaluate d o) = ActionCreate -> d_Exists d = true /\ o_Exists o = false) /\
  (r_Action (Evaluate d o) = ActionRepair -> d_Exists d = true /\ o_Exists o = true) /\
  (r_Action (Evaluate d o) = ActionDestroy ->
     d_Exists d = false /\ o_Exists o = true /\ observed_owner o = OwnershipBaseHarbor).
Proof.
  evaluate_cases; intros Hm; try by vm_compute in Hm.
  all: autorewrite with go in *; unfold actionable.
  all: destruct (d_Exists d) eqn:?, (o_Exists o) eqn:?; intuition (congruence || discriminate).
Qed.

Lemma Evaluate_mutation_safe_witness :
  actionable (mkDesired true "b" "") (mkObserved true "a" "baseharbor" false false false "").
Proof.
  apply (Evaluate_mutation_safe (mkDesired true "b" "") (mkObserved true "a" "baseharbor" false false false "")).
  vm_compute. reflexivity.
Defined.

(** Evaluate reports a resource as in sync exactly when the target is
    actionable and existence agrees with the desired state and so does the
    digest, which does not matter for a managed resource that is and should be
    absent; the action is then "noop" for a managed and "observe" for an
    external resource, so an in-sync resource is never touched. *)
Theorem Evaluate_in_sync d o :
  (r_State (Evaluate d o) = StateInSync <->
     actionable d o /\ d_Exists d = o_Exists o /\
     (d_Digest d = o_Digest o \/
      (desired_owner d <> OwnershipExternal /\ d_Exists d = false))) /\
  (r_State (Evaluate d o) = StateInSync ->
     r_Action (Evaluate d o) =
       if desired_owner d == OwnershipExternal then ActionObserve else ActionNoop).
Proof.
  unfold actionable. evaluate_cases; autorewrite with go in *.
  all: split; [split|]; intros; rewrite ?bool_decide_eq_true_2, ?bool_decide_eq_false_2 by assumption;
    try (exfalso; discriminate).
  all: destruct (d_Exists d) eqn:?, (o_Exists o) eqn:?; intuition (congruence || discriminate).
Qed.

(** Once the desired state has been realized and is observed again, Evaluate
    decides that nothing remains to be done: reconciliation converges in one
    step. *)
Theorem Evaluate_converges d :
  let r := Evaluate d (realized d) in
  r_State r = StateInSync /\ Changed (r_Diff r) = false /\ is_mutating (r_Action r) = false /\
  r_Action r <> ActionBlocked.
Proof.
  assert (observed_owner (realized d) = desired_owner d) as Ho.
  { unfold observed_owner, realized, desired_owner; simpl. by repeat case_bool_decide. }
  cbv zeta. evaluate_cases; rewrite ?Ho in *; autorewrite with go in *; simpl in *.
  all: destruct (d_Exists d) eqn:?; intuition (congruence || discriminate).
Qed.
