(* ===== verification/Availability.v ===== *)
(** * Availability intent, negotiation and observation (internal/availability)

    How an application's availability intent resolves to a requirement per
    component, how the requirement is negotiated against what a provider
    supports, and how observed instances are classified.  A Go [int] is a [Z];
    no operation here does arithmetic that could leave its range. *)

From S2P Require Import Prelude GoStrings.

(** ** The intent (model.go) *)

(** [HA *bool] is an option. *)
Record Override := mkOverride {
  ov_HA : option bool;
  ov_Instances : Z }.

Record Requirement := mkRequirement {
  req_Component : string;
  req_HA : bool;
  req_Instances : Z;
  req_ExplicitException : bool }.

Record Intent := mkIntent {
  in_HA : bool;
  in_Overrides : gmap string Override }.

Definition Intent_Resolve (i : Intent) (component : string) : Requirement :=
  let component := TrimSpace component in
  match in_Overrides i !! component with
  | Some o =>
      match ov_HA o with
      | Some ha => mkRequirement component ha (ov_Instances o) (in_HA i && negb ha)
      | None => mkRequirement component (in_HA i) (ov_Instances o) false
      end
  | None => mkRequirement component (in_HA i) 0 false
  end.

Definition effectiveHA (global : bool) (override : Override) : bool :=
  match ov_HA override with Some ha => ha | None => global end.

(** The body of the loop of [Intent.Validate]. *)
Definition validate_override (i : Intent) (_ : unit) (entry : string * Override) : result error unit :=
  let '(component, override) := entry in
  reject (TrimSpace component == "")
    (errorsNew "availability override component is required") ;;
  reject ((ov_Instances override <? 0)%Z ||
          ((ov_Instances override == 1%Z) && (ov_HA override == Some true)))
    (Errorf "availability override %q has invalid HA instance count %d"
      [AStr component; AInt (ov_Instances override)]) ;;
  reject ((0 <? ov_Instances override)%Z && (ov_Instances override <? 2)%Z &&
          effectiveHA (in_HA i) override)
    (Errorf "availability override %q requires at least 2 instances when HA is enabled" [AStr component]) ;;
  Ok tt.

(** Go ranges over the map in an unspecified order, so which error is reported
    first is unspecified; whether there is one is not.  The order here is that
    of [map_to_list]. *)
Definition Intent_Validate (i : Intent) : result error unit :=
  forE (validate_override i) tt (map_to_list (in_Overrides i)).

Definition Intent_Components (i : Intent) : list string :=
  sort_strings (map fst (map_to_list (in_Overrides i))).

(** ** Negotiation (negotiation.go) *)

Definition SupportLevel := string.
Definition Supported : SupportLevel := "SUPPORTED".
Definition PartiallySupported : SupportLevel := "PARTIALLY_SUPPORTED".
Definition Unsupported : SupportLevel := "UNSUPPORTED".

Record Guarantees := mkGuarantees {
  MemberFailureTolerance : bool;
  HostFailureTolerance : bool;
  RollingMaintenance : bool;
  CredentialRotation : bool;
  PKIRotation : bool;
  ManagementContinuity : bool;
  FailureDomain : string }.

Definition no_guarantees : Guarantees := mkGuarantees false false false false false false "".

Record Support := mkSupport {
  su_Level : SupportLevel;
  su_RecommendedInstances : Z;
  su_Limits : string;
  su_Guarantees : Guarantees }.

Definition Support_Validate (s : Support) : result error unit :=
  reject (bool_decide (su_Level s ∉ [Supported; PartiallySupported; Unsupported]))
    (Errorf "invalid availability support level %q" [AStr (su_Level s)]) ;;
  reject (su_RecommendedInstances s <? 0)%Z
    (errorsNew "recommended availability instance count must not be negative") ;;
  reject ((su_Level s == Unsupported) && (su_RecommendedInstances s != 0%Z))
    (errorsNew "unsupported availability cannot recommend instances") ;;
  Ok tt.

Record NegotiationResult := mkNegotiationResult {
  ng_Component : string;
  ng_Provider : string;
  ng_RequiredHA : bool;
  ng_RequestedInstances : Z;
  ng_EffectiveInstances : Z;
  ng_Support : SupportLevel;
  ng_ExplicitException : bool;
  ng_Satisfied : bool;
  ng_Reason : string;
  ng_Guarantees : Guarantees }.

Definition zero_NegotiationResult : NegotiationResult :=
  mkNegotiationResult "" "" false 0 0 "" false false "" no_guarantees.

(** The errors of [Negotiate]: plain ones, and the typed one that carries the
    result. *)
Inductive NegotiationError :=
| PlainError (e : error)
| UnsupportedGuaranteeError (r : NegotiationResult).

Definition UnsupportedGuaranteeError_Error (r : NegotiationResult) : text :=
  Sprintf "availability guarantee unsupported for %s by %s: %s"
    [AStr (ng_Component r); AStr (ng_Provider r); AStr (ng_Reason r)].

Fixpoint firstNonEmpty (values : list string) : string :=
  match values with
  | [] => ""
  | value :: rest => if TrimSpace value != "" then TrimSpace value else firstNonEmpty rest
  end.

(** The instance count [Negotiate] settles on for an HA requirement. *)
Definition effective_instances (requirement : Requirement) (support : Support) : Z :=
  if (0 <? req_Instances requirement)%Z then req_Instances requirement
  else if (0 <? su_RecommendedInstances support)%Z then su_RecommendedInstances support
  else 3.

(** Go returns the result beside the error. *)
Definition Negotiate (requirement : Requirement) (provider : string) (support : Support)
    : NegotiationResult * option NegotiationError :=
  let provider := TrimSpace provider in
  if provider == "" then
    (zero_NegotiationResult, Some (PlainError (errorsNew "availability provider is required")))
  else
  match Support_Validate support with
  | Err err => (zero_NegotiationResult, Some (PlainError err))
  | Ok _ =>
      let result effective satisfied reason guarantees :=
        mkNegotiationResult (req_Component requirement) provider (req_HA requirement)
          (req_Instances requirement) effective (su_Level support)
          (req_ExplicitException requirement) satisfied reason guarantees in
      if negb (req_HA requirement) then
        (result (if (0 <? req_Instances requirement)%Z then req_Instances requirement else 1%Z) true ""
           (mkGuarantees false false false false false false (FailureDomain (su_Guarantees support))), None)
      else if su_Level support == Unsupported then
        let r := result 0%Z false
          (firstNonEmpty [su_Limits support; "provider/runtime does not implement the requested HA guarantee"])
          (su_Guarantees support) in
        (r, Some (UnsupportedGuaranteeError r))
      else
        let reason := if (su_Level support == PartiallySupported) && (su_Limits support != "")
                      then su_Limits support else "" in
        let effective := effective_instances requirement support in
        if (effective <? 2)%Z then
          let r := result effective false "effective HA topology has fewer than two instances"
                     (su_Guarantees support) in
          (r, Some (UnsupportedGuaranteeError r))
        else (result effective true reason (su_Guarantees support), None)
  end.

(** ** Observation (observation.go) *)

Definition Health := string.
Definition Healthy : Health := "healthy".
Definition Degraded : Health := "degraded".
Definition Unavailable : Health := "unavailable".
Definition UnsatisfiedGuarantee : Health := "unsatisfied-guarantee".

Record InstanceObservation := mkInstanceObservation {
  io_ID : string;
  io_Ready : bool;
  io_FailureDomain : string }.

Record ServiceObservation := mkServiceObservation {
  so_Component : string;
  so_StableEndpoints : list string;
  so_Instances : list InstanceObservation;
  so_Health : Health;
  so_ReadyInstances : Z }.

(** The counting loop of [Observe]. *)
Definition ready_count (instances : list InstanceObservation) : Z :=
  foldl (fun n i => if io_Ready i then (n + 1)%Z else n) 0%Z instances.

Definition Observe (requirement : Requirement) (instances : list InstanceObservation)
    (endpoints : list string) : ServiceObservation :=
  let ready := ready_count instances in
  let total := Z.of_nat (length instances) in
  let health :=
    if (total == 0%Z) || (ready == 0%Z) then Unavailable
    else if req_HA requirement && (0 <? req_Instances requirement)%Z &&
            (ready <? req_Instances requirement)%Z then UnsatisfiedGuarantee
    else if req_HA requirement && (req_Instances requirement == 0%Z) && (ready <? 2)%Z
    then UnsatisfiedGuarantee
    else if (ready <? total)%Z then Degraded
    else Healthy in
  mkServiceObservation (req_Component requirement) endpoints instances health ready.

(** ** Specification *)

(** What a well-formed intent says of one override. *)
Definition override_ok (i : Intent) (component : string) (o : Override) : Prop :=
  TrimSpace component <> "" /\ (0 <= ov_Instances o)%Z /\
  (effectiveHA (in_HA i) o = true -> ov_Instances o = 0%Z \/ (2 <= ov_Instances o)%Z).

Definition intent_ok (i : Intent) : Prop := map_Forall (override_ok i) (in_Overrides i).

(** The number of instances an HA requirement asks for at least. *)
Definition required_ready (r : Requirement) : Z :=
  if req_HA r then
    if (0 <? req_Instances r)%Z then req_Instances r
    else if req_Instances r == 0%Z then 2 else 1
  else 1.

(** ** Facts *)

Lemma validate_override_ok i component o :
  validate_override i tt (component, o) = Ok tt <-> override_ok i component o.
Proof.
  unfold validate_override, override_ok, effectiveHA. autorewrite with go.
  rewrite !Z.ltb_ge. destruct (ov_HA o) as [[]|], (in_HA i);
    (split; [intros (?&?&?&_)|intros (?&?&?)]); split_and!; try done; try lia; try naive_solver lia.
Qed.

Lemma Intent_Validate_spec i : Intent_Validate i = Ok tt <-> intent_ok i.
Proof.
  unfold Intent_Validate, intent_ok. rewrite forE_unit_Ok, map_Forall_to_list.
  apply Forall_proper; [|done]. intros [c o]. apply validate_override_ok.
Qed.

Lemma Support_Validate_spec s :
  Support_Validate s = Ok tt <->
  su_Level s ∈ [Supported; PartiallySupported; Unsupported] /\
  (0 <= su_RecommendedInstances s)%Z /\
  (su_Level s = Unsupported -> su_RecommendedInstances s = 0%Z).
Proof.
  unfold Support_Validate. autorewrite with go. rewrite Z.ltb_ge.
  destruct (decide (su_Level s ∈ [Supported; PartiallySupported; Unsupported])),
    (decide (su_Level s = Unsupported)); tauto.
Qed.

(** The counting loop counts the ready instances. *)
Lemma ready_count_filter l : ready_count l = Z.of_nat (length (filter (fun i => io_Ready i = true) l)).
Proof.
  unfold ready_count. enough (forall n, foldl (fun n i => if io_Ready i then (n + 1)%Z else n) n l =
    (n + Z.of_nat (length (filter (fun i => io_Ready i = true) l)))%Z) as -> by lia.
  induction l as [|x l IH]; intros n; simpl; [lia|]. rewrite IH, filter_cons.
  case_decide as Hx; [rewrite Hx|destruct (io_Ready x); [done|]]; simpl; lia.
Qed.

Lemma ready_count_all l :
  ready_count l = Z.of_nat (length l) <-> Forall (fun i => io_Ready i = true) l.
Proof.
  rewrite ready_count_filter, Nat2Z.inj_iff. split.
  - intros Heq. apply Forall_forall. intros x Hx.
    destruct (decide (io_Ready x = true)) as [|Hn]; [done|].
    pose proof (length_filter_lt (fun i => io_Ready i = true) l x Hx Hn). lia.
  - induction 1 as [|x l Hx _ IH]; [done|]. rewrite filter_cons_True by done. simpl. lia.
Qed.

Lemma ready_count_bounds l : (0 <= ready_count l <= Z.of_nat (length l))%Z.
Proof. rewrite ready_count_filter. pose proof (length_filter (fun i => io_Ready i = true) l). lia. Qed.

Lemma Intent_Resolve_ok i c :
  intent_ok i ->
  (0 <= req_Instances (Intent_Resolve i c))%Z /\
  (req_HA (Intent_Resolve i c) = true ->
     req_Instances (Intent_Resolve i c) = 0%Z \/ (2 <= req_Instances (Intent_Resolve i c))%Z) /\
  (req_ExplicitException (Intent_Resolve i c) = true ->
     in_HA i = true /\ req_HA (Intent_Resolve i c) = false).
Proof.
  intros Hi. unfold Intent_Resolve.
  destruct (in_Overrides i !! TrimSpace c) as [o|] eqn:Ho; simpl; [|naive_solver lia].
  destruct (Hi _ _ Ho) as (_ & Hn & Hha). unfold effectiveHA in Hha.
  destruct (ov_HA o) as [[]|], (in_HA i); simpl; naive_solver.
Qed.

(** * Properties *)

(** Negotiation is sound: there is no error exactly when the result is
    satisfied; a satisfied HA requirement rests on a provider that supports HA
    and on at least two instances, as many as were requested when a number was
    requested; without HA no failure tolerance is promised; and an HA
    requirement on a provider without support is refused with the typed error
    and a reason. *)
Theorem Negotiate_sound requirement provider support r err :
  Support_Validate support = Ok tt -> TrimSpace provider <> "" ->
  Negotiate requirement provider support = (r, err) ->
  (err = None <-> ng_Satisfied r = true) /\
  (ng_Satisfied r = true -> req_HA requirement = true ->
     (2 <= ng_EffectiveInstances r)%Z /\ ng_Support r <> Unsupported /\
     ng_Guarantees r = su_Guarantees support /\
     ((0 < req_Instances requirement)%Z -> ng_EffectiveInstances r = req_Instances requirement)) /\
  (req_HA requirement = false ->
     ng_Satisfied r = true /\ (1 <= ng_EffectiveInstances r)%Z /\
     MemberFailureTolerance (ng_Guarantees r) = false /\
     HostFailureTolerance (ng_Guarantees r) = false) /\
  (req_HA requirement = true -> su_Level support = Unsupported ->
     err = Some (UnsupportedGuaranteeError r) /\ ng_Reason r <> "").
Proof.
  intros Hsup Hprov. unfold Negotiate. rewrite bool_decide_eq_false_2 by done. rewrite Hsup.
  cbv zeta. unfold effective_instances.
  destruct (req_HA requirement) eqn:Hha; simpl; [|intros [= <- <-]; simpl].
  2: { case_match eqn:Hlt; [apply Z.ltb_lt in Hlt|]; naive_solver lia. }
  case_bool_decide as Hlev; [intros [= <- <-]; simpl|].
  { split_and!; try done. intros _ _. split; [done|].
    destruct (decide (TrimSpace (su_Limits support) = "")) as [->|Hne].
    - by vm_compute.
    - by rewrite bool_decide_eq_false_2. }
  case_match eqn:Hsmall; intros [= <- <-]; simpl; [naive_solver|].
  apply Z.ltb_ge in Hsmall. split_and!; try done. intros _ _. split_and!; try done.
  intros Hpos. apply Z.ltb_lt in Hpos. by rewrite Hpos.
Qed.

Lemma Negotiate_sound_witness :
  (2 <= ng_EffectiveInstances (Negotiate (mkRequirement "sql" true 3 false) "postgresql"
          (mkSupport Supported 3 "" no_guarantees)).1)%Z.
Proof.
  eapply (Negotiate_sound (mkRequirement "sql" true 3 false) "postgresql" (mkSupport Supported 3 "" no_guarantees)).
  - reflexivity.
  - vm_compute. discriminate.
  - reflexivity.
  - reflexivity.
  - reflexivity.
Defined.

(** A validated intent always negotiates on a supporting provider: whatever
    component is resolved, the requirement asks for no forbidden instance
    count, and negotiation with a valid support that is not UNSUPPORTED and
    does not recommend a single instance succeeds; [explicit_exception] marks
    exactly an override that turns a global HA intent off. *)
Theorem Intent_Validate_negotiable i component provider support :
  Intent_Validate i = Ok tt -> Support_Validate support = Ok tt ->
  TrimSpace provider <> "" -> su_Level support <> Unsupported ->
  su_RecommendedInstances support <> 1%Z ->
  let requirement := Intent_Resolve i component in
  (Negotiate requirement provider support).2 = None /\
  (0 <= req_Instances requirement)%Z /\
  (req_HA requirement = true -> req_Instances requirement <> 1%Z) /\
  (req_ExplicitException requirement = true <->
     in_HA i = true /\ req_HA requirement = false).
Proof.
  intros Hi%Intent_Validate_spec Hsup Hprov Hlev Hrec. cbv zeta.
  destruct (Intent_Resolve_ok i component Hi) as (Hn & Hha & Hexc).
  split_and!; [|done|intros H; specialize (Hha H); lia|].
  - unfold Negotiate. rewrite bool_decide_eq_false_2 by done. rewrite Hsup. cbv zeta.
    destruct (req_HA (Intent_Resolve i component)) eqn:Hr; simpl; [|done]. rewrite bool_decide_eq_false_2 by done.
    apply Support_Validate_spec in Hsup as (_ & Hrange & _).
    rewrite (proj2 (Z.ltb_ge _ _)); [done|]. unfold effective_instances.
    destruct (Z.ltb_spec 0 (req_Instances (Intent_Resolve i component))); [lia|].
    destruct (Z.ltb_spec 0 (su_RecommendedInstances support)); lia.
  - split; [done|]. unfold Intent_Resolve. intros [Hg Hf].
    destruct (in_Overrides i !! _) as [o|]; simpl in *; [|congruence].
    destruct (ov_HA o); simpl in *; [|congruence]. by rewrite Hg, Hf.
Qed.

Lemma Intent_Validate_negotiable_witness :
  (Negotiate (Intent_Resolve (mkIntent true {["sql" := mkOverride (Some true) 3]}) "sql") "postgresql"
     (mkSupport Supported 3 "" no_guarantees)).2 = None.
Proof.
  apply (Intent_Validate_negotiable (mkIntent true {["sql" := mkOverride (Some true) 3]}) "sql" "postgresql"
    (mkSupport Supported 3 "" no_guarantees)); [reflexivity..|vm_compute; discriminate|vm_compute; discriminate|discriminate].
Defined.

(** Observation classifies the instances exactly: unavailable when none is
    ready, unsatisfied when an HA requirement lacks ready instances, degraded
    when the requirement is met but some instance is not ready, healthy when
    all are ready and the requirement is met. *)
Theorem Observe_health requirement instances endpoints :
  (0 <= req_Instances requirement)%Z ->
  let o := Observe requirement instances endpoints in
  so_ReadyInstances o = Z.of_nat (length (filter (fun i => io_Ready i = true) instances)) /\
  (so_Health o = Unavailable <-> Forall (fun i => io_Ready i = false) instances) /\
  (so_Health o = UnsatisfiedGuarantee <->
     (0 < so_ReadyInstances o < required_ready requirement)%Z) /\
  (so_Health o = Degraded <->
     (required_ready requirement <= so_ReadyInstances o < Z.of_nat (length instances))%Z) /\
  (so_Health o = Healthy <->
     instances <> [] /\ Forall (fun i => io_Ready i = true) instances /\
     (required_ready requirement <= so_ReadyInstances o)%Z).
Proof.
  intros Hreq. cbv zeta. pose proof (ready_count_bounds instances) as Hb.
  assert (ready_count instances = 0%Z <-> Forall (fun i => io_Ready i = false) instances) as Hzero.
  { rewrite ready_count_filter. split.
    - intros Hz. apply Forall_forall. intros x Hx. destruct (io_Ready x) eqn:Hr; [|done].
      assert (x ∈ filter (fun i => io_Ready i = true) instances) as Hin by by apply list_elem_of_filter.
      destruct (filter _ instances); [by apply elem_of_nil in Hin|simpl in Hz; lia].
    - clear Hb. induction 1 as [|x l Hx _ IH]; [done|]. by rewrite filter_cons_False by congruence. }
  assert (instances = [] <-> Z.of_nat (length instances) = 0%Z) as Hnil.
  { destruct instances; simpl; [done|]. split; [done|lia]. }
  rewrite <- Hzero, <- (ready_count_all instances). rewrite Hnil.
  unfold Observe, required_ready. simpl. split; [apply ready_count_filter|].
  clear Hzero Hnil. revert Hb. generalize (ready_count instances), (Z.of_nat (length instances)).
  intros k n Hk.
  destruct (req_HA requirement); simpl; repeat case_bool_decide; simpl;
    repeat match goal with |- context [(?a <? ?b)%Z] => destruct (Z.ltb_spec a b) end; simpl;
    split_and!; split; intros; first [done|lia|exfalso; discriminate|split_and!; (done || lia)|exfalso; lia].
Qed.

Lemma Observe_health_witness :
  so_Health (Observe (mkRequirement "sql" true 3 false)
    [mkInstanceObservation "a" true "rack-1"; mkInstanceObservation "b" false "rack-2"] []) = UnsatisfiedGuarantee.
Proof.
  assert (Hreq : (0 <= req_Instances (mkRequirement "sql" true 3 false))%Z) by (vm_compute; discriminate).
  apply (proj1 (proj2 (proj2 (Observe_health (mkRequirement "sql" true 3 false)
    [mkInstanceObservation "a" true "rack-1"; mkInstanceObservation "b" false "rack-2"] [] Hreq)))).
  vm_compute. split; reflexivity.
Defined.
