(* ===== verification/Capability.v ===== *)
(** * The capability domain (internal/capability: domain, specification,
    service, interfaces, placement, service binding, availability members)

    Capability kinds, providers and their negotiation, the catalogue of
    versioned specifications, placements, and which availability each shipped
    provider supports.  The Go types [Kind], [ProviderKind] and so on are open
    string types: values outside the constants reach these functions from
    stored JSON, so they are strings here too. *)

From S2P Require Import Prelude GoStrings Availability.

(** ** Kinds and providers (domain.go) *)

Definition Kind := string.
Definition SQL : Kind := "database.sql".
Definition KeyValue : Kind := "cache.key-value".
Definition DurableKeyValue : Kind := "database.key-value".
Definition DocumentDatabase : Kind := "database.document".
Definition Secrets : Kind := "secrets".
Definition ExposureHTTP : Kind := "exposure.http".
Definition ObjectStorageS3 : Kind := "object-storage.s3".
Definition TelemetryOTLP : Kind := "telemetry.otlp".
Definition Metrics : Kind := "metrics".
Definition Logs : Kind := "logs".
Definition Traces : Kind := "traces".
Definition Identity : Kind := "identity.oidc".
Definition MessagingQueue : Kind := "messaging.queue".
Definition MessagingPubSub : Kind := "messaging.pubsub".
Definition MessagingStream : Kind := "messaging.stream".

(** A capability an application asks for. *)
Record CapabilityRequirement := mkRequirementFor {
  cr_Kind : Kind;
  cr_Name : string }.

Definition ProviderKind := string.
Definition ProviderPostgreSQL : ProviderKind := "postgresql".
Definition ProviderValkey : ProviderKind := "valkey".
Definition ProviderOpenBao : ProviderKind := "openbao".
Definition ProviderCaddy : ProviderKind := "caddy".
Definition ProviderSeaweedFS : ProviderKind := "seaweedfs".
Definition ProviderOTelCollector : ProviderKind := "opentelemetry-collector".
Definition ProviderExternalOTLP : ProviderKind := "external-otlp".
Definition ProviderPrometheus : ProviderKind := "prometheus".
Definition ProviderLoki : ProviderKind := "loki".
Definition ProviderTempo : ProviderKind := "tempo".
Definition ProviderRuntimeBroker : ProviderKind := "runtime-broker".
Definition ProviderRuntimeExecutor : ProviderKind := "runtime-executor".
Definition ProviderRuntimeWorkload : ProviderKind := "runtime-workload".
Definition ProviderKeycloak : ProviderKind := "keycloak".
Definition ProviderExternalOIDC : ProviderKind := "external-oidc".
Definition ProviderRabbitMQ : ProviderKind := "rabbitmq".
Definition ProviderMongoDB : ProviderKind := "mongodb".

Record Provider := mkProvider {
  pr_Kind : ProviderKind;
  pr_Capabilities : list Kind }.

Fixpoint Supports_loop (capabilities : list Kind) (kind : Kind) : bool :=
  match capabilities with
  | [] => false
  | supported :: rest => if supported == kind then true else Supports_loop rest kind
  end.

Definition Provider_Supports (p : Provider) (kind : Kind) : bool :=
  Supports_loop (pr_Capabilities p) kind.

Record Resource := mkResource {
  rs_Application : string;
  rs_Kind : Kind;
  rs_Name : string;
  rs_Provider : ProviderKind }.

Global Instance Resource_eq_dec : EqDecision Resource.
Proof. solve_decision. Defined.

Definition Resolve (application : string) (requirement : CapabilityRequirement) (provider : Provider)
    : result error Resource :=
  let application := TrimSpace application in
  reject (application == "")
    (Errorf "capability resolution: application is required" []) ;;
  reject (cr_Kind requirement == "")
    (Errorf "capability resolution for %s: capability kind is required" [AStr application]) ;;
  reject (TrimSpace (cr_Name requirement) == "")
    (Errorf "capability resolution for %s/%s: logical resource name is required"
      [AStr application; AStr (cr_Kind requirement)]) ;;
  reject (pr_Kind provider == "")
    (Errorf "capability resolution for %s/%s/%s: provider is required"
      [AStr application; AStr (cr_Kind requirement); AStr (cr_Name requirement)]) ;;
  reject (negb (Provider_Supports provider (cr_Kind requirement)))
    (Errorf "capability provider %s does not support required capability %q"
      [AStr (pr_Kind provider); AStr (cr_Kind requirement)]) ;;
  Ok (mkResource application (cr_Kind requirement) (cr_Name requirement) (pr_Kind provider)).

(** ** Specifications (specification.go) *)

Definition SpecificationVersion := string.
Definition SpecificationV1 : SpecificationVersion := "v1".
Definition SpecificationID := string.

Record CapabilitySpecification := mkSpecification {
  spec_ID : SpecificationID;
  spec_Kind : Kind;
  spec_Version : SpecificationVersion }.

Global Instance CapabilitySpecification_eq_dec : EqDecision CapabilitySpecification.
Proof. solve_decision. Defined.

Definition SQLV1 : CapabilitySpecification := mkSpecification "database.sql/v1" SQL SpecificationV1.
Definition KeyValueV1 : CapabilitySpecification := mkSpecification "cache.key-value/v1" KeyValue SpecificationV1.
Definition DurableKeyValueV1 : CapabilitySpecification := mkSpecification "database.key-value/v1" DurableKeyValue SpecificationV1.
Definition DocumentDatabaseV1 : CapabilitySpecification := mkSpecification "database.document/v1" DocumentDatabase SpecificationV1.
Definition SecretsV1 : CapabilitySpecification := mkSpecification "secrets/v1" Secrets SpecificationV1.
Definition ExposureHTTPV1 : CapabilitySpecification := mkSpecification "exposure.http/v1" ExposureHTTP SpecificationV1.
Definition ObjectStorageS3V1 : CapabilitySpecification := mkSpecification "object-storage.s3/v1" ObjectStorageS3 SpecificationV1.
Definition TelemetryOTLPV1 : CapabilitySpecification := mkSpecification "telemetry.otlp/v1" TelemetryOTLP SpecificationV1.
Definition MetricsV1 : CapabilitySpecification := mkSpecification "metrics/v1" Metrics SpecificationV1.
Definition LogsV1 : CapabilitySpecification := mkSpecification "logs/v1" Logs SpecificationV1.
Definition TracesV1 : CapabilitySpecification := mkSpecification "traces/v1" Traces SpecificationV1.
Definition IdentityOIDCV1 : CapabilitySpecification := mkSpecification "identity.oidc/v1" Identity SpecificationV1.
Definition MessagingQueueV1 : CapabilitySpecification := mkSpecification "messaging.queue/v1" MessagingQueue SpecificationV1.
Definition MessagingPubSubV1 : CapabilitySpecification := mkSpecification "messaging.pubsub/v1" MessagingPubSub SpecificationV1.
Definition MessagingStreamV1 : CapabilitySpecification := mkSpecification "messaging.stream/v1" MessagingStream SpecificationV1.

Definition Specifications : list CapabilitySpecification :=
  [SQLV1; KeyValueV1; DurableKeyValueV1; DocumentDatabaseV1; SecretsV1; ExposureHTTPV1;
   ObjectStorageS3V1; TelemetryOTLPV1; MetricsV1; LogsV1; TracesV1; IdentityOIDCV1;
   MessagingQueueV1; MessagingPubSubV1; MessagingStreamV1].

Definition SpecificationForKind (kind : Kind) : result error CapabilitySpecification :=
  if kind == SQL then Ok SQLV1
  else if kind == KeyValue then Ok KeyValueV1
  else if kind == DurableKeyValue then Ok DurableKeyValueV1
  else if kind == DocumentDatabase then Ok DocumentDatabaseV1
  else if kind == Secrets then Ok SecretsV1
  else if kind == ExposureHTTP then Ok ExposureHTTPV1
  else if kind == ObjectStorageS3 then Ok ObjectStorageS3V1
  else if kind == TelemetryOTLP then Ok TelemetryOTLPV1
  else if kind == Metrics then Ok MetricsV1
  else if kind == Logs then Ok LogsV1
  else if kind == Traces then Ok TracesV1
  else if kind == Identity then Ok IdentityOIDCV1
  else if kind == MessagingQueue then Ok MessagingQueueV1
  else if kind == MessagingPubSub then Ok MessagingPubSubV1
  else if kind == MessagingStream then Ok MessagingStreamV1
  else Err (Errorf "capability specification for %q is not defined" [AStr kind]).

Definition ParseSpecificationID (id : SpecificationID) : result error CapabilitySpecification :=
  let value := TrimSpace id in
  reject (value == "") (Errorf "capability specification id is required" []) ;;
  match Split value "/" with
  | [part0; part1] =>
      reject (part1 != SpecificationV1)
        (Errorf "unsupported capability specification version %q" [AStr part1]) ;;
      spec ← SpecificationForKind part0;
      reject (spec_ID spec != id)
        (Errorf "capability specification id %q is not canonical" [AStr value]) ;;
      Ok spec
  | _ => Err (Errorf "invalid capability specification id %q" [AStr value])
  end.

(** ** Service families (service.go) *)

Definition ServiceKind := string.
Definition ServiceSQL : ServiceKind := "sql".
Definition ServiceCache : ServiceKind := "cache".
Definition ServiceKeyValue : ServiceKind := "key-value".
Definition ServiceDocumentDatabase : ServiceKind := "document-database".
Definition ServiceObjectStorage : ServiceKind := "object-storage".
Definition ServiceSecrets : ServiceKind := "secrets".
Definition ServiceObservability : ServiceKind := "observability".
Definition ServiceIdentity : ServiceKind := "identity".
Definition ServiceMessaging : ServiceKind := "messaging".
Definition ServiceVector : ServiceKind := "vector".
Definition ServiceExposure : ServiceKind := "exposure".

Definition ServiceKindForCapability (kind : Kind) : result error ServiceKind :=
  if kind == SQL then Ok ServiceSQL
  else if kind == KeyValue then Ok ServiceCache
  else if kind == DurableKeyValue then Ok ServiceKeyValue
  else if kind == DocumentDatabase then Ok ServiceDocumentDatabase
  else if kind == ObjectStorageS3 then Ok ServiceObjectStorage
  else if kind == Secrets then Ok ServiceSecrets
  else if (kind == TelemetryOTLP) || (kind == Metrics) || (kind == Logs) || (kind == Traces)
  then Ok ServiceObservability
  else if kind == ExposureHTTP then Ok ServiceExposure
  else if kind == Identity then Ok ServiceIdentity
  else if (kind == MessagingQueue) || (kind == MessagingPubSub) || (kind == MessagingStream)
  then Ok ServiceMessaging
  else Err (Errorf "service kind for capability %q is not defined" [AStr kind]).

(** ** Provider interfaces (interfaces.go) *)

Definition ProviderInterfaceClass := string.
Definition InterfaceApplication : ProviderInterfaceClass := "application".
Definition InterfaceUserFacing : ProviderInterfaceClass := "user-facing".
Definition InterfaceAdministration : ProviderInterfaceClass := "administration".
Definition InterfaceManagement : ProviderInterfaceClass := "management".
Definition InterfaceObservability : ProviderInterfaceClass := "observability".
Definition InterfaceHealth : ProviderInterfaceClass := "health".

Definition interface_classes : list ProviderInterfaceClass :=
  [InterfaceApplication; InterfaceUserFacing; InterfaceAdministration; InterfaceManagement;
   InterfaceObservability; InterfaceHealth].

Record ProviderInterface := mkInterface {
  if_Name : string;
  if_Class : ProviderInterfaceClass;
  if_Protocol : string;
  if_Optional : bool;
  if_Intrinsic : bool;
  if_Path : string }.

Definition ProviderInterface_Validate (i : ProviderInterface) : result error unit :=
  reject (TrimSpace (if_Name i) == "") (Errorf "provider interface name is required" []) ;;
  reject (bool_decide (if_Class i ∉ interface_classes))
    (Errorf "provider interface %q has unsupported class %q" [AStr (if_Name i); AStr (if_Class i)]) ;;
  reject (if_Optional i && if_Intrinsic i)
    (Errorf "provider interface %q cannot be both optional and intrinsic" [AStr (if_Name i)]) ;;
  reject ((if_Path i != "") && negb (HasPrefix (if_Path i) "/"))
    (Errorf "provider interface %q path must be absolute" [AStr (if_Name i)]) ;;
  Ok tt.

(** ** Placement (registry.go, provider_placement.go) *)

Definition ProviderScope := string.
Definition ScopeShared : ProviderScope := "shared".
Definition ScopeApplication : ProviderScope := "application".
Definition ScopeExternal : ProviderScope := "external".

Definition ProviderOwnership := string.
Definition ProviderOwnedByBaseHarbor : ProviderOwnership := "baseharbor".
Definition ProviderOwnedExternally : ProviderOwnership := "external".

Record ProviderPlacement := mkPlacement {
  pl_Scope : ProviderScope;
  pl_SharingBoundary : string;
  pl_Ownership : ProviderOwnership;
  pl_ExternalReference : string }.

Definition ProviderPlacement_Validate (p : ProviderPlacement) : result error unit :=
  let boundary := TrimSpace (pl_SharingBoundary p) in
  let reference := TrimSpace (pl_ExternalReference p) in
  if pl_Scope p == ScopeShared then
    reject (pl_Ownership p != ProviderOwnedByBaseHarbor)
      (Errorf "shared provider placement must be BaseHarbor-owned" []) ;;
    reject (reference != "") (Errorf "shared provider placement cannot use an external reference" []) ;;
    Ok tt
  else if pl_Scope p == ScopeApplication then
    reject (pl_Ownership p != ProviderOwnedByBaseHarbor)
      (Errorf "application-scoped provider placement must be BaseHarbor-owned" []) ;;
    reject (boundary != "")
      (Errorf "application-scoped provider placement cannot define a sharing boundary" []) ;;
    reject (reference != "")
      (Errorf "application-scoped provider placement cannot use an external reference" []) ;;
    Ok tt
  else if pl_Scope p == ScopeExternal then
    reject (pl_Ownership p != ProviderOwnedExternally)
      (Errorf "external provider placement must be externally owned" []) ;;
    reject (boundary != "") (Errorf "external provider placement cannot define a sharing boundary" []) ;;
    reject (reference == "") (Errorf "external provider placement requires a non-secret reference" []) ;;
    Ok tt
  else Err (Errorf "unsupported provider scope %q" [AStr (pl_Scope p)]).

(** ** Service binding entry names (service_binding.go) *)

Definition ServiceBindingHost : string := "host".
Definition ServiceBindingUsername : string := "username".
Definition ServiceBindingPassword : string := "password".
Definition ServiceBindingURI : string := "uri".

Definition serviceBindingWellKnownNames : gset string :=
  list_to_set ["type"; "provider"; ServiceBindingHost; "port"; ServiceBindingURI;
    ServiceBindingUsername; ServiceBindingPassword; "certificates"; "private-key"].

Definition IsServiceBindingWellKnownName (name : string) : bool :=
  bool_decide (TrimSpace name ∈ serviceBindingWellKnownNames).

Definition ValidateServiceBindingName (name : string) : result error unit :=
  let name := TrimSpace name in
  let must_use (standard : string) :=
    Err (Errorf "service binding entry %q must use the standard name %q" [AStr name; AStr standard]) in
  if name == "" then Err (Errorf "service binding entry name is required" [])
  else if IsServiceBindingWellKnownName name then Ok tt
  else if bool_decide (ToLower name ∈ ["hostname"; "connectionhost"; "connection_host"])
  then must_use ServiceBindingHost
  else if ToLower name == "user" then must_use ServiceBindingUsername
  else if ToLower name == "pass" then must_use ServiceBindingPassword
  else if bool_decide (ToLower name ∈ ["connectionstring"; "connection_string"])
  then must_use ServiceBindingURI
  else if negb (Contains name ".") && negb (Contains name "/")
  then Err (Errorf "non-standard service binding entry %q must be namespaced" [AStr name])
  else Ok tt.

(** ** Availability of the shipped providers (availability.go,
       availability_members.go) *)

Definition unsupported_availability (reason : string) : Support :=
  mkSupport Unsupported 0 reason no_guarantees.

Definition native_availability (count : Z) (limits : string) : Support :=
  mkSupport PartiallySupported count limits
    (mkGuarantees true false false false false false "runtime-host").

(** A supported topology; the flags are credential rotation, PKI rotation. *)
Definition supported_availability (count : Z) (limits : string) (credential pki : bool) : Support :=
  mkSupport Supported count limits (mkGuarantees true false true credential pki true "runtime-host").

Definition AvailabilitySupportForProvider (kind : ProviderKind) : result error Support :=
  if kind == ProviderPostgreSQL then
    Ok (native_availability 3 "native shared PostgreSQL uses Patroni and an odd authenticated etcd quorum on one runtime host; application-scoped PostgreSQL remains single-instance")
  else if kind == ProviderValkey then
    Ok (supported_availability 3 "verified Sentinel-backed member/process failure tolerance on the selected runtime host; host-failure tolerance requires a multi-host runtime" false false)
  else if kind == ProviderOpenBao then
    Ok (native_availability 3 "native Core OpenBao HA uses three service members and the retained shared PostgreSQL backend; a single Core installation cannot be silently converted")
  else if kind == ProviderCaddy then
    Ok (unsupported_availability "single-host exposure owns one loopback HTTPS port; stable routing and config/TLS hot reload are supported, but redundant ingress/member-failure tolerance is not")
  else if kind == ProviderSeaweedFS then
    Ok (supported_availability 3 "verified three-member SeaweedFS member/process failure tolerance and stable S3/Admin continuity on one runtime host; host-failure tolerance requires a multi-host runtime" true true)
  else if kind == ProviderOTelCollector then
    Ok (supported_availability 2 "verified redundant OpenTelemetry Collector member/process failure tolerance and stable OTLP endpoint continuity on one runtime host; host-failure tolerance requires a multi-host runtime" false true)
  else if kind == ProviderExternalOTLP then
    Ok (unsupported_availability "external OTLP availability must be explicitly declared and verified by the selected external provider")
  else if kind == ProviderPrometheus then
    Ok (supported_availability 2 "verified redundant Prometheus member/process failure tolerance and stable query/management continuity on one runtime host; host-failure tolerance requires a multi-host runtime" true true)
  else if kind == ProviderLoki then
    Ok (native_availability 3 "native Loki uses three service members and explicitly requested replicated platform object storage on one runtime host")
  else if kind == ProviderTempo then
    Ok (native_availability 2 "native Tempo uses fixed replicated live-store partitions and redundant distributors/query services with platform object storage on one runtime host")
  else if kind == ProviderKeycloak then
    Ok (native_availability 3 "native Keycloak uses three identity members and a Patroni/etcd PostgreSQL backend on one runtime host")
  else if kind == ProviderExternalOIDC then
    Ok (unsupported_availability "external OIDC availability must be explicitly declared and verified by the selected external provider")
  else if kind == ProviderRabbitMQ then
    Ok (supported_availability 3 "verified member/process failure tolerance on the selected runtime host; host-failure tolerance requires a multi-host runtime" false false)
  else if kind == ProviderMongoDB then
    Ok (supported_availability 3 "verified replica-set member/process failure tolerance on the selected runtime host; host-failure tolerance requires a multi-host runtime" false false)
  else Err (Errorf "availability classification for provider %q is not defined" [AStr kind]).

(** Go's [%] truncates towards zero, as [Z.rem] does. *)
Definition ValidateAvailabilityMembers (kind : ProviderKind) (req : Requirement) : result error unit :=
  if negb (req_HA req) && (1 <? req_Instances req)%Z then
    Err (Errorf "provider %s requires explicit ha:true for multiple data/service members" [AStr kind])
  else if negb (req_HA req) || (req_Instances req == 0%Z) then Ok tt
  else
  let n := req_Instances req in
  if bool_decide (kind ∈ [ProviderPostgreSQL; ProviderSeaweedFS; ProviderValkey; ProviderRabbitMQ; ProviderMongoDB]) then
    reject ((n <? 3)%Z || (Z.rem n 2 == 0%Z))
      (Errorf "provider %s HA requires an odd member count of at least three" [AStr kind]) ;;
    Ok tt
  else if bool_decide (kind ∈ [ProviderOpenBao; ProviderKeycloak; ProviderLoki]) then
    reject (n != 3%Z) (Errorf "provider %s native HA requires exactly three members" [AStr kind]) ;;
    Ok tt
  else if kind == ProviderTempo then
    reject (n != 2%Z)
      (Errorf "Tempo native HA requires two service partitions with its fixed replicated storage layout" []) ;;
    Ok tt
  else if bool_decide (kind ∈ [ProviderPrometheus; ProviderOTelCollector]) then
    reject (n <? 2)%Z (Errorf "provider %s HA requires multiple service members" [AStr kind]) ;;
    Ok tt
  else Ok tt.

(** ** Specification *)

(** What a placement must look like, scope by scope. *)
Definition placement_ok (p : ProviderPlacement) : Prop :=
  (pl_Scope p = ScopeShared /\ pl_Ownership p = ProviderOwnedByBaseHarbor /\
     TrimSpace (pl_ExternalReference p) = "") \/
  (pl_Scope p = ScopeApplication /\ pl_Ownership p = ProviderOwnedByBaseHarbor /\
     TrimSpace (pl_SharingBoundary p) = "" /\ TrimSpace (pl_ExternalReference p) = "") \/
  (pl_Scope p = ScopeExternal /\ pl_Ownership p = ProviderOwnedExternally /\
     TrimSpace (pl_SharingBoundary p) = "" /\ TrimSpace (pl_ExternalReference p) <> "").

(** Providers with a stateful quorum. *)
Definition quorum_providers : list ProviderKind :=
  [ProviderPostgreSQL; ProviderSeaweedFS; ProviderValkey; ProviderRabbitMQ; ProviderMongoDB].

(** ** Facts *)

Lemma Provider_Supports_spec p k : Provider_Supports p k = true <-> k ∈ pr_Capabilities p.
Proof.
  unfold Provider_Supports. induction (pr_Capabilities p) as [|c l IH]; simpl.
  - by rewrite elem_of_nil.
  - rewrite elem_of_cons. case_bool_decide; naive_solver.
Qed.

Lemma SpecificationForKind_spec kind spec :
  SpecificationForKind kind = Ok spec <-> spec ∈ Specifications /\ spec_Kind spec = kind.
Proof.
  split.
  - unfold SpecificationForKind. intros H. repeat case_bool_decide; subst; try done; injection H as <-;
      (split; [apply (bool_decide_unpack _); vm_compute; exact I|done]).
  - intros [Hin <-].
    assert (Forall (fun s => SpecificationForKind (spec_Kind s) = Ok s) Specifications) as H.
    { repeat constructor. }
    by apply (proj1 (Forall_forall _ _) H).
Qed.

Lemma ProviderPlacement_Validate_spec p : ProviderPlacement_Validate p = Ok tt <-> placement_ok p.
Proof.
  unfold ProviderPlacement_Validate, placement_ok.
  case_bool_decide as H1; [rewrite H1|case_bool_decide as H2; [rewrite H2|case_bool_decide as H3; [rewrite H3|]]];
    autorewrite with go; unfold ScopeShared, ScopeApplication, ScopeExternal in *;
    first [naive_solver|split; [done|naive_solver]].
Qed.

Lemma HasPrefix_byte s c : HasPrefix s (String c "") = match s with String b _ => b == c | EmptyString => false end.
Proof.
  unfold HasPrefix. destruct s as [|b s]; [done|]. cbn [strip_prefix].
  destruct (decide (c = b)) as [->|Hne].
  - rewrite !bool_decide_eq_true_2; done.
  - rewrite !bool_decide_eq_false_2; [done|naive_solver|intros [? ?]; done].
Qed.

Lemma Contains_byte s c : Contains s (String c "") = has_byte c s.
Proof.
  induction s as [|b s IH]; cbn [Contains has_byte]; rewrite HasPrefix_byte; [done|]. by rewrite IH.
Qed.

(** Lower-casing keeps every byte that is not an ASCII capital, nor one of the
    bytes of the two runes outside ASCII that map into it. *)
Lemma lower_keeps_byte c fuel s :
  bool_decide (c ∈ [byte_of 196; byte_of 176; byte_of 226; byte_of 132; byte_of 170]) = false ->
  lower_byte c = c -> (strlen s <= fuel)%nat ->
  has_byte c s = true -> has_byte c (lower_fuel fuel s) = true.
Proof.
  intros Hc Hl. apply bool_decide_eq_false in Hc. revert s.
  induction fuel as [|n IH]; intros s Hlen Hs; [done|]. cbn [lower_fuel].
  destruct (strip_prefix (bytes [196; 176]) s) as [r|] eqn:E1.
  { apply strip_prefix_spec in E1 as ->. rewrite has_byte_app in Hs. rewrite strlen_app in Hlen.
    cbn [bytes foldr has_byte] in Hs. rewrite !bool_decide_eq_false_2 in Hs by set_solver.
    simpl in *. rewrite (IH r); [apply orb_true_r|unfold strlen in *; simpl in *; lia|done]. }
  destruct (strip_prefix (bytes [226; 132; 170]) s) as [r|] eqn:E2.
  { apply strip_prefix_spec in E2 as ->. rewrite has_byte_app in Hs. rewrite strlen_app in Hlen.
    cbn [bytes foldr has_byte] in Hs. rewrite !bool_decide_eq_false_2 in Hs by set_solver.
    simpl in *. rewrite (IH r); [apply orb_true_r|unfold strlen in *; simpl in *; lia|done]. }
  destruct s as [|b s]; [done|]. simpl in *. apply orb_true_iff in Hs as [Hb|Hs].
  - apply bool_decide_eq_true in Hb as ->. rewrite Hl. by rewrite bool_decide_eq_true_2.
  - rewrite IH; [apply orb_true_r|unfold strlen in *; simpl in *; lia|done].
Qed.

Lemma ToLower_keeps_byte c s :
  bool_decide (c ∈ [byte_of 196; byte_of 176; byte_of 226; byte_of 132; byte_of 170]) = false ->
  lower_byte c = c -> has_byte c s = true -> has_byte c (ToLower s) = true.
Proof. intros. by apply lower_keeps_byte. Qed.

(** A text with a dot or a slash is none of the aliases. *)
Lemma namespaced_not_alias s alias :
  has_byte "." s || has_byte "/" s = true ->
  has_byte "." alias || has_byte "/" alias = false -> ToLower s <> alias.
Proof.
  intros [H|H]%orb_true_iff [H1 H2]%orb_false_iff <-.
  - by rewrite (ToLower_keeps_byte "."%char) in H1 by (by vm_compute || done).
  - by rewrite (ToLower_keeps_byte "/"%char) in H2 by (by vm_compute || done).
Qed.

(** * Properties *)

(** The specification identifiers that parse are exactly the canonical
    identifiers of the shipped catalogue, and parsing returns the entry that
    carries the identifier. *)
Theorem ParseSpecificationID_catalogue id spec :
  ParseSpecificationID id = Ok spec <-> spec ∈ Specifications /\ spec_ID spec = id.
Proof.
  split.
  - unfold ParseSpecificationID. intros H. inv_ok H.
    destruct (Split _ _) as [|p0 [|p1 [|? ?]]]; try done. inv_ok H.
    injection H as <-. apply SpecificationForKind_spec in Hr as [Hin _].
    split; [done|by rewrite neqb_false in Hc1].
  - intros [Hin <-].
    assert (Forall (fun s => ParseSpecificationID (spec_ID s) = Ok s) Specifications) as H.
    { unfold Specifications. repeat (constructor; [vm_compute; reflexivity|]). constructor. }
    by apply (proj1 (Forall_forall _ _) H).
Qed.

(** Capability negotiation succeeds exactly when the application, the
    capability and the logical name are given and the provider supports the
    capability; the resource then carries the trimmed application, the
    requested capability and name, and the provider's kind. *)
Theorem Resolve_spec application requirement provider r :
  Resolve application requirement provider = Ok r <->
  TrimSpace application <> "" /\ cr_Kind requirement <> "" /\
  TrimSpace (cr_Name requirement) <> "" /\ pr_Kind provider <> "" /\
  cr_Kind requirement ∈ pr_Capabilities provider /\
  r = mkResource (TrimSpace application) (cr_Kind requirement) (cr_Name requirement) (pr_Kind provider).
Proof.
  unfold Resolve. rewrite <- Provider_Supports_spec. autorewrite with go.
  naive_solver.
Qed.

(** A placement is accepted exactly when it has the shape of its scope: shared
    and application placements are BaseHarbor-owned and have no external
    reference, an external placement is externally owned and has one, and only
    a shared placement may name a sharing boundary. *)
Theorem ProviderPlacement_Validate_accepts p :
  ProviderPlacement_Validate p = Ok tt <-> placement_ok p.
Proof. apply ProviderPlacement_Validate_spec. Qed.

(** A service binding entry name is accepted exactly when, after trimming, it
    is a well-known name of Service Binding 1.1 or is namespaced by a dot or a
    slash: the alias table only chooses the error message. *)
Theorem ValidateServiceBindingName_accepts name :
  ValidateServiceBindingName name = Ok tt <->
  TrimSpace name ∈ serviceBindingWellKnownNames \/
  has_byte "." (TrimSpace name) = true \/ has_byte "/" (TrimSpace name) = true.
Proof.
  unfold ValidateServiceBindingName, IsServiceBindingWellKnownName. rewrite TrimSpace_idem.
  set (s := TrimSpace name). rewrite !Contains_byte.
  case_bool_decide as H0.
  { rewrite H0. split; [done|]. simpl. intros [H|[H|H]]; [|done|done].
    exfalso. revert H. apply (bool_decide_unpack _). vm_compute. exact I. }
  case_bool_decide as H1; [tauto|].
  destruct (has_byte "." s || has_byte "/" s) eqn:Hns.
  - assert (forall alias, has_byte "." alias || has_byte "/" alias = false -> (ToLower s == alias) = false) as Hna.
    { intros alias Ha. apply bool_decide_eq_false. by apply namespaced_not_alias. }
    assert (forall l, forallb (fun a => negb (has_byte "." a || has_byte "/" a)) l = true ->
      bool_decide (ToLower s ∈ l) = false) as Hnl.
    { intros l Hl. apply bool_decide_eq_false. intros Hin%list_elem_of_In.
      rewrite List.forallb_forall in Hl. apply Hl, negb_true_iff in Hin.
      by apply (namespaced_not_alias s (ToLower s)) in Hin. }
    rewrite !Hnl, !Hna by done.
    rewrite <- negb_orb, Hns. simpl. apply orb_true_iff in Hns. tauto.
  - apply orb_false_iff in Hns as [-> ->]. repeat case_bool_decide; simpl; naive_solver.
Qed.

(** The availability classification of every shipped provider is well-formed,
    promises no host-failure tolerance, and, where HA is supported, recommends
    a member count that negotiation settles on by default and that
    ValidateAvailabilityMembers accepts for this provider. *)
Theorem AvailabilitySupportForProvider_buildable kind support component :
  AvailabilitySupportForProvider kind = Ok support ->
  Support_Validate support = Ok tt /\
  HostFailureTolerance (su_Guarantees support) = false /\
  (su_Level support <> Unsupported ->
     let (r, err) := Negotiate (mkRequirement component true 0 false) kind support in
     err = None /\ ng_EffectiveInstances r = su_RecommendedInstances support /\
     ValidateAvailabilityMembers kind
       (mkRequirement component true (ng_EffectiveInstances r) false) = Ok tt).
Proof.
  unfold AvailabilitySupportForProvider. intros H.
  repeat (case_bool_decide; [subst kind; injection H as <-;
    (split_and!; [vm_compute; reflexivity|reflexivity|]);
    first [intros Hn; exfalso; apply Hn; reflexivity | intros _; vm_compute; done]|]).
  done.
Qed.

Lemma AvailabilitySupportForProvider_buildable_witness :
  Support_Validate (native_availability 3 "native Keycloak uses three identity members and a Patroni/etcd PostgreSQL backend on one runtime host") = Ok tt.
Proof.
  refine (proj1 (AvailabilitySupportForProvider_buildable ProviderKeycloak _ "identity" _)).
  vm_compute. reflexivity.
Defined.

(** A member count that passes ValidateAvailabilityMembers for a quorum-based
    provider under HA is odd and at least three, so a majority survives the
    loss of one member; and no provider is given several members without an
    explicit HA requirement. *)
Theorem ValidateAvailabilityMembers_quorum kind req :
  (0 <= req_Instances req)%Z -> ValidateAvailabilityMembers kind req = Ok tt ->
  (req_HA req = false -> (req_Instances req <= 1)%Z) /\
  (req_HA req = true -> req_Instances req <> 0%Z -> kind ∈ quorum_providers ->
     (3 <= req_Instances req)%Z /\ Z.odd (req_Instances req) = true /\
     (req_Instances req < 2 * (req_Instances req - 1))%Z).
Proof.
  intros Hn. unfold ValidateAvailabilityMembers, quorum_providers.
  destruct (req_HA req) eqn:Hha; simpl.
  - case_bool_decide as H0; [intros _; split; congruence|]. intros H. split; [done|]. intros _ _ Hin.
    rewrite bool_decide_eq_true_2 in H by done. autorewrite with go in H.
    rewrite Z.ltb_ge in H. destruct H as ((H3 & Hrem) & _).
    rewrite Z.rem_mod_nonneg, Zmod_odd in Hrem by lia.
    destruct (Z.odd (req_Instances req)); [|done]. lia.
  - destruct (Z.ltb_spec 1 (req_Instances req)); [done|]. intros _. split; [lia|done].
Qed.

Lemma ValidateAvailabilityMembers_quorum_witness :
  Z.odd (req_Instances (mkRequirement "sql" true 5 false)) = true.
Proof.
  apply (ValidateAvailabilityMembers_quorum ProviderPostgreSQL (mkRequirement "sql" true 5 false)).
  - simpl. lia.
  - reflexivity.
  - reflexivity.
  - simpl. lia.
  - apply (bool_decide_unpack _). vm_compute. exact I.
Defined.
