(* ===== verification/Integration.v ===== *)
(** * Integration descriptors (internal/capability: integration_contract,
    conformance, reference, provider_change_contract, provider_placement)

    What a provider integration declares, when a declaration is valid, the
    conformance report built on it, and the catalogue of shipped providers. *)

From S2P Require Import Prelude GoStrings Availability Capability.

(** ** Declarations (integration_contract.go) *)

Definition ProviderProtocolV1 : string := "baseharbor.provider/v1".

Definition ProviderOperation := string.
Definition OperationDescribe : ProviderOperation := "describe".
Definition OperationPreflight : ProviderOperation := "preflight".
Definition OperationProvision : ProviderOperation := "provision".
Definition OperationBind : ProviderOperation := "bind".
Definition OperationVerify : ProviderOperation := "verify".
Definition OperationStatus : ProviderOperation := "status".
Definition OperationUpdate : ProviderOperation := "update".
Definition OperationBackup : ProviderOperation := "backup".
Definition OperationRestore : ProviderOperation := "restore".
Definition OperationDestroy : ProviderOperation := "destroy".

Record OptionalLifecycleSupport := mkOptional {
  op_Status : bool;
  op_Update : bool;
  op_Backup : bool;
  op_Restore : bool;
  op_Destroy : bool }.

Definition ObservabilitySignalKind := string.
Definition ObservabilityMetrics : ObservabilitySignalKind := "metrics".
Definition ObservabilityLogs : ObservabilitySignalKind := "logs".
Definition ObservabilityTraces : ObservabilitySignalKind := "traces".

Definition ObservabilitySupportStatus := string.
Definition ObservabilitySupported : ObservabilitySupportStatus := "supported".
Definition ObservabilityUnsupported : ObservabilitySupportStatus := "unsupported".
Definition ObservabilityNotApplicable : ObservabilitySupportStatus := "not-applicable".
Definition ObservabilityRequiresAdapter : ObservabilitySupportStatus := "requires-adapter".

Definition ObservabilityRealizationMode := string.
Definition ObservabilityNative : ObservabilityRealizationMode := "native".
Definition ObservabilityRuntime : ObservabilityRealizationMode := "runtime".
Definition ObservabilityAdapter : ObservabilityRealizationMode := "adapter".
Definition ObservabilityInteraction : ObservabilityRealizationMode := "interaction".
Definition ObservabilityCombined : ObservabilityRealizationMode := "combined".

Definition ObservabilityVerificationMode := string.
Definition ObservabilityVerifyEndpoint : ObservabilityVerificationMode := "endpoint".
Definition ObservabilityVerifyBackend : ObservabilityVerificationMode := "backend-query".
Definition ObservabilityVerifySpan : ObservabilityVerificationMode := "span-query".
Definition ObservabilityVerifyNone : ObservabilityVerificationMode := "none".

Record ProviderObservabilitySignal := mkSignal {
  sg_Name : string;
  sg_Kind : ObservabilitySignalKind;
  sg_Status : ObservabilitySupportStatus;
  sg_Mode : ObservabilityRealizationMode;
  sg_Protocol : string;
  sg_SemanticConvention : string;
  sg_Verification : ObservabilityVerificationMode;
  sg_Port : Z;
  sg_Path : string }.

Definition Collectable (s : ProviderObservabilitySignal) : bool := sg_Status s == ObservabilitySupported.

Record IntegrationDescriptor := mkIntegrationDescriptor {
  ds_ID : string;
  ds_Version : string;
  ds_Protocol : string;
  ds_Provider : Provider;
  ds_Services : list ServiceKind;
  ds_Capabilities : list SpecificationID;
  ds_SupportedScopes : list ProviderScope;
  ds_Optional : OptionalLifecycleSupport;
  ds_Signals : list ProviderObservabilitySignal;
  ds_Interfaces : list ProviderInterface }.

(** ** EffectiveServices *)

(** The loop that derives the services of the capabilities. *)
Definition derive_service (st : gset ServiceKind * list ServiceKind) (kind : Kind)
    : result error (gset ServiceKind * list ServiceKind) :=
  let '(seen, derived) := st in
  service ← ServiceKindForCapability kind;
  if decide (service ∈ seen) then Ok (seen, derived)
  else Ok ({[service]} ∪ seen, derived ++ [service]).

(** The loop over the declared services. *)
Definition declare_service (declared : gset ServiceKind) (service : ServiceKind)
    : result error (gset ServiceKind) :=
  reject (service == "") (Errorf "provider service kind is required" []) ;;
  reject (bool_decide (service ∈ declared))
    (Errorf "provider service kind %q is declared more than once" [AStr service]) ;;
  Ok ({[service]} ∪ declared).

(** The last loop ranges over a map: which missing service the error names is
    unspecified in Go. *)
Definition EffectiveServices (d : IntegrationDescriptor) : result error (list ServiceKind) :=
  '(seen, derived) ← forE derive_service (∅, []) (pr_Capabilities (ds_Provider d));
  if ds_Services d == [] then Ok derived
  else
    declared ← forE declare_service ∅ (ds_Services d);
    reject (size declared != size seen)
      (Errorf "declared service kinds do not match capability-derived service kinds" []) ;;
    forE (fun _ service =>
      reject (bool_decide (service ∉ declared))
        (Errorf "declared service kinds do not include capability-derived service %q" [AStr service]))
      tt (elements seen) ;;
    Ok (ds_Services d).

(** ** Validation *)

(** The loop over the supported scopes. *)
Definition validate_scope (d : IntegrationDescriptor) (seen : gset ProviderScope) (scope : ProviderScope)
    : result error (gset ProviderScope) :=
  let kind := pr_Kind (ds_Provider d) in
  reject (bool_decide (scope ∉ [ScopeShared; ScopeApplication; ScopeExternal]))
    (Errorf "provider %q declares unsupported placement scope %q" [AStr kind; AStr scope]) ;;
  reject (bool_decide (scope ∈ seen))
    (Errorf "provider %q declares placement scope %q more than once" [AStr kind; AStr scope]) ;;
  Ok ({[scope]} ∪ seen).

(** The loop over the versioned capability specifications. *)
Definition validate_capability (d : IntegrationDescriptor) (declared : gset Kind) (id : SpecificationID)
    : result error (gset Kind) :=
  let kind := pr_Kind (ds_Provider d) in
  spec ← wrap_err (fun err => Errorf "provider %q capability %q: %w" [AStr kind; AStr id; ATxt err])
           (ParseSpecificationID id);
  reject (bool_decide (spec_Kind spec ∈ declared))
    (Errorf "provider %q declares capability %q more than once" [AStr kind; AStr (spec_Kind spec)]) ;;
  reject (negb (Provider_Supports (ds_Provider d) (spec_Kind spec)))
    (Errorf "provider %q specification %q is not present in provider capabilities" [AStr kind; AStr id]) ;;
  Ok ({[spec_Kind spec]} ∪ declared).

(** The loop over the interfaces. *)
Definition validate_interface (d : IntegrationDescriptor) (seen : gset string) (iface : ProviderInterface)
    : result error (gset string) :=
  let kind := pr_Kind (ds_Provider d) in
  wrap_err (fun err => Errorf "provider %q: %w" [AStr kind; ATxt err]) (ProviderInterface_Validate iface) ;;
  let name := TrimSpace (if_Name iface) in
  reject (bool_decide (name ∈ seen))
    (Errorf "provider %q interface %q is declared more than once" [AStr kind; AStr name]) ;;
  Ok ({[name]} ∪ seen).

(** The realization checks of a signal that is supported or needs an adapter;
    [name] and [protocol] are the normalized ones. *)
Definition validate_realization (kind : ProviderKind) (signal : ProviderObservabilitySignal)
    (name protocol : string) : result error unit :=
  reject (bool_decide (sg_Mode signal ∉ [ObservabilityNative; ObservabilityRuntime; ObservabilityAdapter;
                                         ObservabilityInteraction; ObservabilityCombined]))
    (Errorf "provider %q observability signal %q has unsupported realization mode %q"
      [AStr kind; AStr name; AStr (sg_Mode signal)]) ;;
  (if bool_decide (sg_Verification signal ∈ [ObservabilityVerifyEndpoint; ObservabilityVerifyBackend;
                                             ObservabilityVerifySpan]) then Ok tt
   else if sg_Verification signal == ObservabilityVerifyNone then
     reject (sg_Status signal != ObservabilityRequiresAdapter)
       (Errorf "provider %q observability signal %q cannot skip verification when supported"
         [AStr kind; AStr name])
   else Err (Errorf "provider %q observability signal %q has unsupported verification %q"
          [AStr kind; AStr name; AStr (sg_Verification signal)])) ;;
  reject ((sg_Status signal == ObservabilityRequiresAdapter) &&
          (sg_Mode signal != ObservabilityAdapter) && (sg_Mode signal != ObservabilityCombined))
    (Errorf "provider %q observability signal %q requires adapter realization" [AStr kind; AStr name]) ;;
  reject (protocol == "")
    (Errorf "provider %q observability signal %q requires protocol" [AStr kind; AStr name]) ;;
  if (sg_Kind signal == ObservabilityMetrics) && (sg_Status signal == ObservabilitySupported) &&
     (sg_Mode signal == ObservabilityNative) then
    reject (protocol != "openmetrics")
      (Errorf "provider %q native metrics signal %q must use openmetrics" [AStr kind; AStr name]) ;;
    reject ((sg_Port signal <? 1)%Z || (65535 <? sg_Port signal)%Z || negb (HasPrefix (sg_Path signal) "/"))
      (Errorf "provider %q native metrics signal %q requires port and absolute path" [AStr kind; AStr name])
  else Ok tt.

(** The loop over the observability signals. *)
Definition validate_signal (d : IntegrationDescriptor) (seen : gset string)
    (signal : ProviderObservabilitySignal) : result error (gset string) :=
  let kind := pr_Kind (ds_Provider d) in
  let name := TrimSpace (sg_Name signal) in
  let protocol := TrimSpace (ToLower (sg_Protocol signal)) in
  reject (name == "") (Errorf "provider %q observability signal name is required" [AStr kind]) ;;
  reject (bool_decide (name ∈ seen))
    (Errorf "provider %q observability signal %q is declared more than once" [AStr kind; AStr name]) ;;
  let seen := {[name]} ∪ seen in
  reject (bool_decide (sg_Status signal ∉ [ObservabilitySupported; ObservabilityUnsupported;
                                           ObservabilityNotApplicable; ObservabilityRequiresAdapter]))
    (Errorf "provider %q observability signal %q has unsupported status %q"
      [AStr kind; AStr name; AStr (sg_Status signal)]) ;;
  reject (bool_decide (sg_Kind signal ∉ [ObservabilityMetrics; ObservabilityLogs; ObservabilityTraces]))
    (Errorf "provider %q observability signal %q has unsupported kind %q"
      [AStr kind; AStr name; AStr (sg_Kind signal)]) ;;
  if (sg_Status signal == ObservabilityUnsupported) || (sg_Status signal == ObservabilityNotApplicable) then
    reject ((sg_Mode signal != "") || (protocol != "") || (sg_Port signal != 0%Z) || (sg_Path signal != ""))
      (Errorf "provider %q observability signal %q cannot declare realization details for status %q"
        [AStr kind; AStr name; AStr (sg_Status signal)]) ;;
    reject (sg_Verification signal != ObservabilityVerifyNone)
      (Errorf "provider %q observability signal %q must use verification %q for status %q"
        [AStr kind; AStr name; AStr ObservabilityVerifyNone; AStr (sg_Status signal)]) ;;
    Ok seen
  else
    validate_realization kind signal name protocol ;;
    Ok seen.

Definition IntegrationDescriptor_Validate (d : IntegrationDescriptor) : result error unit :=
  let kind := pr_Kind (ds_Provider d) in
  reject (TrimSpace (ds_ID d) == "") (Errorf "provider id is required" []) ;;
  reject (TrimSpace (ds_Version d) == "")
    (Errorf "provider %q implementation version is required" [AStr (ds_ID d)]) ;;
  reject (ds_Protocol d != ProviderProtocolV1)
    (Errorf "provider protocol %q is unsupported; expected %q" [AStr (ds_Protocol d); AStr ProviderProtocolV1]) ;;
  reject (kind == "") (Errorf "provider kind is required" []) ;;
  reject (pr_Capabilities (ds_Provider d) == [])
    (Errorf "provider %q must declare at least one capability" [AStr kind]) ;;
  reject (ds_Capabilities d == [])
    (Errorf "provider %q must declare versioned capability specifications" [AStr kind]) ;;
  services ← wrap_err (fun err => Errorf "provider %q service mapping: %w" [AStr kind; ATxt err])
               (EffectiveServices d);
  reject (services == []) (Errorf "provider %q must declare at least one service kind" [AStr kind]) ;;
  reject (ds_SupportedScopes d == [])
    (Errorf "provider %q must declare at least one supported placement scope" [AStr kind]) ;;
  forE (validate_scope d) ∅ (ds_SupportedScopes d) ;;
  declared ← forE (validate_capability d) ∅ (ds_Capabilities d);
  forE (fun _ k =>
    reject (bool_decide (k ∉ declared))
      (Errorf "provider %q capability %q has no versioned capability specification" [AStr kind; AStr k]))
    tt (pr_Capabilities (ds_Provider d)) ;;
  forE (validate_interface d) ∅ (ds_Interfaces d) ;;
  forE (validate_signal d) ∅ (ds_Signals d) ;;
  Ok tt.

(** [sameCapabilitySet]: a multiset comparison by counting.  Reading an absent
    key of a Go map gives 0. *)
Definition count_kinds (a : list Kind) : gmap Kind Z :=
  foldl (fun seen kind => <[kind := (default 0 (seen !! kind) + 1)%Z]> seen) ∅ a.

Fixpoint consume_kinds (seen : gmap Kind Z) (b : list Kind) : bool :=
  match b with
  | [] => true
  | kind :: rest =>
      if default 0%Z (seen !! kind) == 0%Z then false
      else consume_kinds (<[kind := (default 0 (seen !! kind) - 1)%Z]> seen) rest
  end.

Definition sameCapabilitySet (a b : list Kind) : bool :=
  if length a != length b then false else consume_kinds (count_kinds a) b.

(** ** Placement (provider_placement.go) *)

Fixpoint SupportsScope_loop (scopes : list ProviderScope) (scope : ProviderScope) : bool :=
  match scopes with
  | [] => false
  | supported :: rest => if supported == scope then true else SupportsScope_loop rest scope
  end.

Definition SupportsScope (d : IntegrationDescriptor) (scope : ProviderScope) : bool :=
  SupportsScope_loop (ds_SupportedScopes d) scope.

Definition ValidateProviderPlacement (descriptor : IntegrationDescriptor) (placement : ProviderPlacement)
    : result error unit :=
  IntegrationDescriptor_Validate descriptor ;;
  ProviderPlacement_Validate placement ;;
  reject (negb (SupportsScope descriptor (pl_Scope placement)))
    (Errorf "provider %q does not support placement scope %q"
      [AStr (pr_Kind (ds_Provider descriptor)); AStr (pl_Scope placement)]) ;;
  Ok tt.

(** ** Conformance (conformance.go) *)

Definition ConformanceStatus := string.
Definition ConformancePass : ConformanceStatus := "pass".
Definition ConformanceFail : ConformanceStatus := "fail".

Record ConformanceCheck := mkConformanceCheck {
  cc_Name : string;
  cc_Status : ConformanceStatus;
  cc_Message : text }.

Record ConformanceReport := mkConformanceReport {
  rp_ProviderID : string;
  rp_ProviderVersion : string;
  rp_Protocol : string;
  rp_Provider : ProviderKind;
  rp_Services : list ServiceKind;
  rp_Status : ConformanceStatus;
  rp_Checks : list ConformanceCheck }.

Definition CheckIntegrationContract (descriptor : IntegrationDescriptor) : ConformanceReport :=
  let report services status checks :=
    mkConformanceReport (ds_ID descriptor) (ds_Version descriptor) (ds_Protocol descriptor)
      (pr_Kind (ds_Provider descriptor)) services status checks in
  match IntegrationDescriptor_Validate descriptor with
  | Err err => report [] ConformanceFail [mkConformanceCheck "provider-contract" ConformanceFail err]
  | Ok _ =>
      match EffectiveServices descriptor with
      | Err err => report [] ConformanceFail [mkConformanceCheck "service-declarations" ConformanceFail err]
      | Ok services =>
          report services ConformancePass
            [mkConformanceCheck "service-declarations" ConformancePass (Lit "");
             mkConformanceCheck "provider-protocol" ConformancePass (Lit "");
             mkConformanceCheck "capability-declarations" ConformancePass (Lit "")]
      end
  end.

Definition RequireIntegrationContract (descriptor : IntegrationDescriptor) : result error unit :=
  let report := CheckIntegrationContract descriptor in
  if rp_Status report == ConformancePass then Ok tt
  else match rp_Checks report with
       | [] => Err (Errorf "provider integration contract failed" [])
       | c :: _ => Err (Errorf "provider integration contract failed: %s" [ATxt (cc_Message c)])
       end.

(** ** The shipped providers (reference.go) *)

Definition PostgreSQL : Provider := mkProvider ProviderPostgreSQL [SQL].
Definition Valkey : Provider := mkProvider ProviderValkey [KeyValue; DurableKeyValue].
Definition OpenBao : Provider := mkProvider ProviderOpenBao [Secrets].
Definition Caddy : Provider := mkProvider ProviderCaddy [ExposureHTTP].
Definition SeaweedFS : Provider := mkProvider ProviderSeaweedFS [ObjectStorageS3].
Definition OTelCollector : Provider := mkProvider ProviderOTelCollector [TelemetryOTLP].
Definition ExternalOTLP : Provider := mkProvider ProviderExternalOTLP [TelemetryOTLP].
Definition Prometheus : Provider := mkProvider ProviderPrometheus [Metrics].
Definition Loki : Provider := mkProvider ProviderLoki [Logs].
Definition Tempo : Provider := mkProvider ProviderTempo [Traces].
Definition Keycloak : Provider := mkProvider ProviderKeycloak [Identity].
Definition ExternalOIDC : Provider := mkProvider ProviderExternalOIDC [Identity].
Definition RabbitMQ : Provider := mkProvider ProviderRabbitMQ [MessagingQueue; MessagingPubSub; MessagingStream].
Definition MongoDB : Provider := mkProvider ProviderMongoDB [DocumentDatabase].

Definition PostgreSQLIntegration : IntegrationDescriptor :=
  mkIntegrationDescriptor "baseharbor/postgresql" "0.1.0" ProviderProtocolV1 PostgreSQL
    [ServiceSQL]
    [spec_ID SQLV1]
    [ScopeShared; ScopeApplication; ScopeExternal]
    (mkOptional false false false false false)
    [mkSignal "metrics" ObservabilityMetrics ObservabilityRequiresAdapter ObservabilityAdapter "openmetrics" "" ObservabilityVerifyNone 0%Z "";
     mkSignal "logs" ObservabilityLogs ObservabilitySupported ObservabilityRuntime "stdout-stderr" "baseharbor.runtime.logs" ObservabilityVerifyBackend 0%Z "";
     mkSignal "traces" ObservabilityTraces ObservabilitySupported ObservabilityInteraction "interaction" "database" ObservabilityVerifySpan 0%Z ""]
    [mkInterface "sql" InterfaceApplication "postgresql" false true "";
     mkInterface "management-ui" InterfaceAdministration "https" true false ""].

Definition ValkeyIntegration : IntegrationDescriptor :=
  mkIntegrationDescriptor "baseharbor/valkey" "0.1.0" ProviderProtocolV1 Valkey
    [ServiceCache; ServiceKeyValue]
    [spec_ID KeyValueV1; spec_ID DurableKeyValueV1]
    [ScopeShared; ScopeApplication; ScopeExternal]
    (mkOptional false false false false false)
    [mkSignal "metrics" ObservabilityMetrics ObservabilityRequiresAdapter ObservabilityAdapter "openmetrics" "" ObservabilityVerifyNone 0%Z "";
     mkSignal "logs" ObservabilityLogs ObservabilitySupported ObservabilityRuntime "stdout-stderr" "baseharbor.runtime.logs" ObservabilityVerifyBackend 0%Z "";
     mkSignal "traces" ObservabilityTraces ObservabilitySupported ObservabilityInteraction "interaction" "database" ObservabilityVerifySpan 0%Z ""]
    [mkInterface "cache" InterfaceApplication "resp" false true "";
     mkInterface "management-ui" InterfaceAdministration "https" true false ""].

Definition OpenBaoIntegration : IntegrationDescriptor :=
  mkIntegrationDescriptor "baseharbor/openbao" "0.1.0" ProviderProtocolV1 OpenBao
    [ServiceSecrets]
    [spec_ID SecretsV1]
    [ScopeShared]
    (mkOptional true true true true true)
    [mkSignal "metrics" ObservabilityMetrics ObservabilityUnsupported "" "" "" ObservabilityVerifyNone 0%Z "";
     mkSignal "logs" ObservabilityLogs ObservabilityUnsupported "" "" "" ObservabilityVerifyNone 0%Z "";
     mkSignal "traces" ObservabilityTraces ObservabilityUnsupported "" "" "" ObservabilityVerifyNone 0%Z ""]
    [mkInterface "api" InterfaceManagement "https" false true "";
     mkInterface "management-ui" InterfaceAdministration "https" true false ""].

Definition CaddyIntegration : IntegrationDescriptor :=
  mkIntegrationDescriptor "baseharbor/caddy" "0.1.0" ProviderProtocolV1 Caddy
    [ServiceExposure]
    [spec_ID ExposureHTTPV1]
    [ScopeApplication]
    (mkOptional true true false false true)
    [mkSignal "metrics" ObservabilityMetrics ObservabilityUnsupported "" "" "" ObservabilityVerifyNone 0%Z "";
     mkSignal "logs" ObservabilityLogs ObservabilityUnsupported "" "" "" ObservabilityVerifyNone 0%Z "";
     mkSignal "traces" ObservabilityTraces ObservabilityUnsupported "" "" "" ObservabilityVerifyNone 0%Z ""]
    [mkInterface "ingress" InterfaceApplication "http" false true ""].

Definition SeaweedFSIntegration : IntegrationDescriptor :=
  mkIntegrationDescriptor "baseharbor/seaweedfs" "0.1.0" ProviderProtocolV1 SeaweedFS
    [ServiceObjectStorage]
    [spec_ID ObjectStorageS3V1]
    [ScopeShared]
    (mkOptional true true false false true)
    [mkSignal "metrics" ObservabilityMetrics ObservabilityUnsupported "" "" "" ObservabilityVerifyNone 0%Z "";
     mkSignal "logs" ObservabilityLogs ObservabilityUnsupported "" "" "" ObservabilityVerifyNone 0%Z "";
     mkSignal "traces" ObservabilityTraces ObservabilityUnsupported "" "" "" ObservabilityVerifyNone 0%Z ""]
    [mkInterface "s3" InterfaceApplication "s3" false true "";
     mkInterface "management-ui" InterfaceAdministration "https" true false ""].

Definition OTelCollectorIntegration : IntegrationDescriptor :=
  mkIntegrationDescriptor "baseharbor/opentelemetry-collector" "0.1.0" ProviderProtocolV1 OTelCollector
    [ServiceObservability]
    [spec_ID TelemetryOTLPV1]
    [ScopeShared]
    (mkOptional true true false false true)
    [mkSignal "collector-metrics" ObservabilityMetrics ObservabilitySupported ObservabilityNative "openmetrics" "" ObservabilityVerifyBackend 8888%Z "/metrics";
     mkSignal "collector-logs" ObservabilityLogs ObservabilityUnsupported "" "" "" ObservabilityVerifyNone 0%Z "";
     mkSignal "collector-traces" ObservabilityTraces ObservabilityUnsupported "" "" "" ObservabilityVerifyNone 0%Z ""]
    [mkInterface "otlp" InterfaceApplication "otlp" false true "";
     mkInterface "health" InterfaceHealth "http" false true ""].

Definition PrometheusIntegration : IntegrationDescriptor :=
  mkIntegrationDescriptor "baseharbor/prometheus" "0.1.0" ProviderProtocolV1 Prometheus
    [ServiceObservability]
    [spec_ID MetricsV1]
    [ScopeShared; ScopeApplication]
    (mkOptional true true false false true)
    [mkSignal "prometheus-metrics" ObservabilityMetrics ObservabilityUnsupported "" "" "" ObservabilityVerifyNone 0%Z "";
     mkSignal "prometheus-logs" ObservabilityLogs ObservabilityUnsupported "" "" "" ObservabilityVerifyNone 0%Z "";
     mkSignal "prometheus-traces" ObservabilityTraces ObservabilityNotApplicable "" "" "" ObservabilityVerifyNone 0%Z ""]
    [mkInterface "query-api" InterfaceObservability "https" false true "";
     mkInterface "management-ui" InterfaceObservability "https" true false ""].

Definition LokiIntegration : IntegrationDescriptor :=
  mkIntegrationDescriptor "baseharbor/loki" "0.1.0" ProviderProtocolV1 Loki
    [ServiceObservability]
    [spec_ID LogsV1]
    [ScopeShared; ScopeApplication]
    (mkOptional true true false false true)
    [mkSignal "loki-metrics" ObservabilityMetrics ObservabilitySupported ObservabilityNative "openmetrics" "" ObservabilityVerifyBackend 3100%Z "/metrics";
     mkSignal "loki-logs" ObservabilityLogs ObservabilityUnsupported "" "" "" ObservabilityVerifyNone 0%Z "";
     mkSignal "loki-traces" ObservabilityTraces ObservabilityNotApplicable "" "" "" ObservabilityVerifyNone 0%Z ""]
    [mkInterface "query-api" InterfaceObservability "https" false true ""].

Definition TempoIntegration : IntegrationDescriptor :=
  mkIntegrationDescriptor "baseharbor/tempo" "0.1.0" ProviderProtocolV1 Tempo
    [ServiceObservability]
    [spec_ID TracesV1]
    [ScopeShared]
    (mkOptional true true false false true)
    [mkSignal "tempo-metrics" ObservabilityMetrics ObservabilitySupported ObservabilityNative "openmetrics" "" ObservabilityVerifyBackend 3200%Z "/metrics";
     mkSignal "tempo-logs" ObservabilityLogs ObservabilityUnsupported "" "" "" ObservabilityVerifyNone 0%Z "";
     mkSignal "tempo-traces" ObservabilityTraces ObservabilityNotApplicable "" "" "" ObservabilityVerifyNone 0%Z ""]
    [mkInterface "query-api" InterfaceObservability "https" false true ""].

Definition KeycloakIntegration : IntegrationDescriptor :=
  mkIntegrationDescriptor "baseharbor/keycloak" "0.1.0" ProviderProtocolV1 Keycloak
    [ServiceIdentity]
    [spec_ID IdentityOIDCV1]
    [ScopeShared; ScopeApplication]
    (mkOptional true true false false true)
    [mkSignal "keycloak-metrics" ObservabilityMetrics ObservabilitySupported ObservabilityNative "openmetrics" "" ObservabilityVerifyBackend 9000%Z "/metrics";
     mkSignal "keycloak-logs" ObservabilityLogs ObservabilitySupported ObservabilityRuntime "stdout-stderr" "baseharbor.runtime.logs" ObservabilityVerifyBackend 0%Z "";
     mkSignal "keycloak-traces" ObservabilityTraces ObservabilityUnsupported "" "" "" ObservabilityVerifyNone 0%Z ""]
    [mkInterface "oidc" InterfaceApplication "oidc" false true "";
     mkInterface "login-account" InterfaceUserFacing "https" false true "";
     mkInterface "admin-api" InterfaceManagement "https" false true "";
     mkInterface "management-ui" InterfaceAdministration "https" true false ""].

Definition ExternalOIDCIntegration : IntegrationDescriptor :=
  mkIntegrationDescriptor "baseharbor/external-oidc" "0.1.0" ProviderProtocolV1 ExternalOIDC
    [ServiceIdentity]
    [spec_ID IdentityOIDCV1]
    [ScopeExternal]
    (mkOptional false false false false false)
    []
    [mkInterface "oidc" InterfaceApplication "oidc" false true "";
     mkInterface "login-account" InterfaceUserFacing "https" false true ""].

Definition RabbitMQIntegration : IntegrationDescriptor :=
  mkIntegrationDescriptor "baseharbor/rabbitmq" "0.1.0" ProviderProtocolV1 RabbitMQ
    [ServiceMessaging]
    [spec_ID MessagingQueueV1; spec_ID MessagingPubSubV1; spec_ID MessagingStreamV1]
    [ScopeApplication; ScopeExternal]
    (mkOptional false false false false false)
    []
    [mkInterface "amqp" InterfaceApplication "amqp" false true "";
     mkInterface "management-ui" InterfaceAdministration "https" true false ""].

Definition MongoDBIntegration : IntegrationDescriptor :=
  mkIntegrationDescriptor "baseharbor/mongodb" "0.1.0" ProviderProtocolV1 MongoDB
    [ServiceDocumentDatabase]
    [spec_ID DocumentDatabaseV1]
    [ScopeApplication; ScopeExternal]
    (mkOptional false false false false false)
    []
    [mkInterface "document-database" InterfaceApplication "mongodb" false true "";
     mkInterface "management-ui" InterfaceAdministration "https" true false ""].

Definition ExternalOTLPIntegration : IntegrationDescriptor :=
  mkIntegrationDescriptor "baseharbor/external-otlp" "0.1.0" ProviderProtocolV1 ExternalOTLP
    [ServiceObservability]
    [spec_ID TelemetryOTLPV1]
    [ScopeExternal]
    (mkOptional false false false false false)
    []
    [].

Definition ReferenceIntegrations : list IntegrationDescriptor :=
  [PostgreSQLIntegration; ValkeyIntegration; OpenBaoIntegration; CaddyIntegration;
   SeaweedFSIntegration; OTelCollectorIntegration; ExternalOTLPIntegration;
   PrometheusIntegration; LokiIntegration; TempoIntegration; KeycloakIntegration;
   ExternalOIDCIntegration; RabbitMQIntegration; MongoDBIntegration].

Definition ReferenceIntegration (provider : ProviderKind) : result error IntegrationDescriptor :=
  if provider == ProviderPostgreSQL then Ok PostgreSQLIntegration
  else if provider == ProviderValkey then Ok ValkeyIntegration
  else if provider == ProviderOpenBao then Ok OpenBaoIntegration
  else if provider == ProviderCaddy then Ok CaddyIntegration
  else if provider == ProviderSeaweedFS then Ok SeaweedFSIntegration
  else if provider == ProviderOTelCollector then Ok OTelCollectorIntegration
  else if provider == ProviderExternalOTLP then Ok ExternalOTLPIntegration
  else if provider == ProviderPrometheus then Ok PrometheusIntegration
  else if provider == ProviderLoki then Ok LokiIntegration
  else if provider == ProviderTempo then Ok TempoIntegration
  else if provider == ProviderKeycloak then Ok KeycloakIntegration
  else if provider == ProviderExternalOIDC then Ok ExternalOIDCIntegration
  else if provider == ProviderRabbitMQ then Ok RabbitMQIntegration
  else if provider == ProviderMongoDB then Ok MongoDBIntegration
  else Err (Errorf "reference integration for provider %q is not defined" [AStr provider]).

(** ** Change contracts (provider_change_contract.go) *)

Record ProviderChangeContract := mkChangeContract {
  ch_Provider : ProviderKind;
  ch_Functions : list string;
  ch_MaterialKinds : list string;
  ch_Aspects : list string }.

Definition ChangeContract (d : IntegrationDescriptor) : ProviderChangeContract * bool :=
  let kind := pr_Kind (ds_Provider d) in
  let contract functions materials aspects := mkChangeContract kind functions materials aspects in
  if kind == ProviderPostgreSQL then
    (contract
      ["sql.transactions"; "sql.queries"]
      ["database"; "schema"; "wal"; "credentials"; "backup"]
      ["transactions"; "consistency"; "durability"; "protocol"; "availability"; "reconnection"; "recovery"], true)
  else if kind == ProviderValkey then
    (contract
      ["cache.access"; "key-value.durable"; "session.access"; "job.state"]
      ["cache"; "durable-key-value"; "session"; "job"; "snapshot"; "aof"]
      ["durability"; "expiry"; "eviction"; "consistency"; "reconnection"; "recovery"], true)
  else if kind == ProviderOpenBao then
    (contract
      ["secrets.delivery"; "secrets.policy"; "credentials.issue"; "credentials.renew"; "credentials.revoke"; "pki.issue"; "pki.renew"; "pki.revoke"; "pki.validate"]
      ["secret"; "policy"; "lease"; "key"; "certificate"; "recovery"]
      ["permissions"; "encryption"; "delivery"; "lease-expiry"; "revocation"; "renewal"; "availability"; "recovery"], true)
  else if kind == ProviderCaddy then
    (contract
      ["http.routing"; "tls.termination"; "pki.renew"]
      ["route"; "configuration"; "key"; "certificate"]
      ["dns"; "routing"; "tls"; "renewal"; "availability"; "reconnection"], true)
  else if kind == ProviderSeaweedFS then
    (contract
      ["objects.read"; "objects.write"]
      ["object"; "file"; "metadata"; "credentials"; "backup"]
      ["durability"; "consistency"; "s3-compatibility"; "permissions"; "retention"; "availability"; "recovery"], true)
  else if (kind == ProviderOTelCollector) || (kind == ProviderExternalOTLP) then
    (contract
      ["telemetry.receive"; "telemetry.forward"]
      ["telemetry-buffer"; "configuration"]
      ["delivery"; "buffer-loss"; "routing"; "protocol"; "retention"; "reconnection"], true)
  else if kind == ProviderPrometheus then
    (contract
      ["metrics.ingest"; "metrics.query"; "metrics.rules"]
      ["metrics"; "wal"; "rule"; "configuration"]
      ["retention"; "scrape-gap"; "query-access"; "availability"; "recovery"], true)
  else if kind == ProviderLoki then
    (contract
      ["logs.ingest"; "logs.query"]
      ["logs"; "wal"; "index"; "configuration"]
      ["retention"; "delivery"; "query-access"; "availability"; "recovery"], true)
  else if kind == ProviderTempo then
    (contract
      ["traces.ingest"; "traces.query"]
      ["traces"; "wal"; "index"; "configuration"]
      ["retention"; "delivery"; "query-access"; "availability"; "recovery"], true)
  else if (kind == ProviderKeycloak) || (kind == ProviderExternalOIDC) then
    (contract
      ["identity.login"; "identity.sso"; "identity.issue"; "identity.validate"; "identity.jwks"; "identity.session"; "identity.refresh"]
      ["user"; "realm"; "client"; "session"; "signing-key"; "token"; "configuration"; "backup"]
      ["authentication"; "authorization"; "token-expiry"; "jwks-refresh"; "session-expiry"; "reconnection"; "availability"; "recovery"], true)
  else if kind == ProviderRabbitMQ then
    (contract
      ["queue.publish"; "queue.consume"; "pubsub.delivery"; "stream.read"; "stream.write"]
      ["queue"; "message"; "in-flight"; "stream"; "offset"; "topology"; "credentials"]
      ["ordering"; "delivery"; "acknowledgement"; "durability"; "protocol"; "reconnection"; "recovery"], true)
  else if kind == ProviderRuntimeBroker then
    (contract
      ["runtime.authorize"; "runtime.credentials"; "runtime.policy"]
      ["policy"; "credentials"; "configuration"; "certificate"; "recovery"]
      ["authorization"; "credential-renewal"; "tls"; "availability"; "reconnection"; "recovery"], true)
  else if kind == ProviderRuntimeExecutor then
    (contract
      ["runtime.execute"; "runtime.observe"; "runtime.control"]
      ["in-flight"; "configuration"; "certificate"; "credentials"]
      ["execution"; "in-flight-work"; "authorization"; "tls"; "availability"; "reconnection"], true)
  else if kind == ProviderRuntimeWorkload then
    (contract
      ["workload.run"; "workload.access"]
      ["in-flight"; "configuration"; "volume"]
      ["availability"; "in-flight-work"; "reconnection"; "recovery"], true)
  else if kind == ProviderMongoDB then
    (contract
      ["document.read"; "document.write"; "document.transactions"]
      ["document"; "index"; "oplog"; "credentials"; "backup"]
      ["transactions"; "consistency"; "durability"; "protocol"; "availability"; "reconnection"; "recovery"], true)
  else (mkChangeContract kind [] [] [], false).

(** ** Specification *)

(** The capability a specification identifier stands for. *)
Definition spec_kind_of (id : SpecificationID) : Kind :=
  match ParseSpecificationID id with Ok s => spec_Kind s | Err _ => "" end.

(** What a signal that is supported or needs an adapter must declare. *)
Definition realization_ok (s : ProviderObservabilitySignal) : Prop :=
  let protocol := TrimSpace (ToLower (sg_Protocol s)) in
  sg_Mode s ∈ [ObservabilityNative; ObservabilityRuntime; ObservabilityAdapter;
               ObservabilityInteraction; ObservabilityCombined] /\
  (sg_Verification s ∈ [ObservabilityVerifyEndpoint; ObservabilityVerifyBackend; ObservabilityVerifySpan] \/
   (sg_Verification s = ObservabilityVerifyNone /\ sg_Status s = ObservabilityRequiresAdapter)) /\
  (sg_Status s = ObservabilityRequiresAdapter ->
     sg_Mode s = ObservabilityAdapter \/ sg_Mode s = ObservabilityCombined) /\
  protocol <> "" /\
  (sg_Kind s = ObservabilityMetrics -> sg_Status s = ObservabilitySupported ->
   sg_Mode s = ObservabilityNative ->
     protocol = "openmetrics" /\ (1 <= sg_Port s <= 65535)%Z /\ HasPrefix (sg_Path s) "/" = true).

Definition signal_ok (s : ProviderObservabilitySignal) : Prop :=
  TrimSpace (sg_Name s) <> "" /\
  sg_Kind s ∈ [ObservabilityMetrics; ObservabilityLogs; ObservabilityTraces] /\
  (((sg_Status s = ObservabilityUnsupported \/ sg_Status s = ObservabilityNotApplicable) /\
    sg_Mode s = "" /\ TrimSpace (ToLower (sg_Protocol s)) = "" /\ sg_Port s = 0%Z /\ sg_Path s = "" /\
    sg_Verification s = ObservabilityVerifyNone) \/
   ((sg_Status s = ObservabilitySupported \/ sg_Status s = ObservabilityRequiresAdapter) /\
    realization_ok s)).

(** The services the capabilities of a provider belong to. *)
Definition service_of (kind : Kind) : option ServiceKind :=
  match ServiceKindForCapability kind with Ok s => Some s | Err _ => None end.

(** The declared services are those of the capabilities, each once; declaring
    none means all of them. *)
Definition services_ok (d : IntegrationDescriptor) : Prop :=
  Forall (fun k => is_Some (service_of k)) (pr_Capabilities (ds_Provider d)) /\
  (ds_Services d <> [] ->
     NoDup (ds_Services d) /\ "" ∉ ds_Services d /\
     forall s, s ∈ ds_Services d <-> exists k, k ∈ pr_Capabilities (ds_Provider d) /\ service_of k = Some s).

Definition descriptor_ok (d : IntegrationDescriptor) : Prop :=
  (TrimSpace (ds_ID d) <> "" /\ TrimSpace (ds_Version d) <> "" /\
   ds_Protocol d = ProviderProtocolV1 /\ pr_Kind (ds_Provider d) <> "" /\
   pr_Capabilities (ds_Provider d) <> [] /\ ds_Capabilities d <> []) /\
  services_ok d /\
  (ds_SupportedScopes d <> [] /\ NoDup (ds_SupportedScopes d) /\
   ds_SupportedScopes d ⊆ [ScopeShared; ScopeApplication; ScopeExternal]) /\
  (Forall (fun id => is_ok (ParseSpecificationID id) = true) (ds_Capabilities d) /\
   NoDup (map spec_kind_of (ds_Capabilities d)) /\
   forall k, k ∈ map spec_kind_of (ds_Capabilities d) <-> k ∈ pr_Capabilities (ds_Provider d)) /\
  (Forall (fun i => ProviderInterface_Validate i = Ok tt) (ds_Interfaces d) /\
   NoDup (map (fun i => TrimSpace (if_Name i)) (ds_Interfaces d))) /\
  (Forall signal_ok (ds_Signals d) /\ NoDup (map (fun s => TrimSpace (sg_Name s)) (ds_Signals d))).

(** ** Facts *)

Lemma derive_service_loop caps seen derived out :
  forE derive_service (seen, derived) caps = Ok out ->
  NoDup derived -> (forall s, s ∈ derived <-> s ∈ seen) ->
  Forall (fun k => is_Some (service_of k)) caps /\ NoDup out.2 /\
  (forall s, s ∈ out.2 <-> s ∈ out.1) /\
  (forall s, s ∈ out.1 <-> s ∈ seen \/ exists k, k ∈ caps /\ service_of k = Some s).
Proof.
  revert seen derived. induction caps as [|k caps IH]; intros seen derived.
  - intros [= <-] Hnd Hs. simpl. split_and!; [constructor|done|done|].
    intros s. split; [tauto|]. intros [?|(k & Hk & _)]; [done|]. by apply elem_of_nil in Hk.
  - rewrite forE_cons. intros H Hnd Hs. apply bind_Ok in H as ([seen' derived'] & Hstep & H).
    unfold derive_service in Hstep. apply bind_Ok in Hstep as (s0 & Hs0 & Hstep).
    assert (service_of k = Some s0) as Hk by (unfold service_of; by rewrite Hs0).
    destruct (decide (s0 ∈ seen)) as [Hin|Hin]; injection Hstep as <- <-.
    + destruct (IH _ _ H Hnd Hs) as (Hall & Hnd' & Hs' & Hout).
      split_and!; [by constructor; [exists s0|]|done|done|].
      intros s. rewrite Hout. set_solver.
    + assert (NoDup (derived ++ [s0])) as Hnd2.
      { apply NoDup_app. split_and!; [done| |apply NoDup_singleton].
        intros x Hx ->%list_elem_of_singleton. by apply Hin, Hs. }
      assert (forall s, s ∈ derived ++ [s0] <-> s ∈ {[s0]} ∪ seen) as Hs2 by set_solver.
      destruct (IH _ _ H Hnd2 Hs2) as (Hall & Hnd' & Hs' & Hout).
      split_and!; [by constructor; [exists s0|]|done|done|].
      intros s. rewrite Hout. set_solver.
Qed.

Lemma derive_service_total caps seen derived :
  Forall (fun k => is_Some (service_of k)) caps ->
  exists out, forE derive_service (seen, derived) caps = Ok out.
Proof.
  intros H. revert seen derived. induction H as [|k caps [s Hs] _ IH]; intros seen derived; [eauto|].
  assert (ServiceKindForCapability k = Ok s) as Hk.
  { unfold service_of in Hs. destruct (ServiceKindForCapability k); congruence. }
  simpl. rewrite Hk. cbn. destruct (decide (s ∈ seen)); apply IH.
Qed.

Lemma declare_service_ok seen s out :
  declare_service seen s = Ok out <-> s <> "" /\ s ∉ seen /\ out = {[s]} ∪ seen.
Proof. unfold declare_service. autorewrite with go. naive_solver. Qed.

Lemma declare_loop l out :
  forE declare_service ∅ l = Ok out <-> Forall (fun s => s <> "") l /\ NoDup l /\ out = list_to_set l.
Proof.
  rewrite (forE_seen_empty declare_service id (fun s => s <> "")) by apply declare_service_ok.
  by rewrite List.map_id.
Qed.

(** Two duplicate-free enumerations: the size test of [EffectiveServices] and
    inclusion of the derived set give equality. *)
Lemma size_and_subset (declared seen : gset string) :
  (size declared = size seen /\ seen ⊆ declared) <-> declared = seen.
Proof.
  split; [intros [Hsz Hsub]|by intros ->].
  symmetry. apply leibniz_equiv. by apply set_subseteq_size_equiv; [|rewrite Hsz].
Qed.

Lemma EffectiveServices_spec d l :
  EffectiveServices d = Ok l ->
  services_ok d /\ NoDup l /\
  (forall s, s ∈ l <-> exists k, k ∈ pr_Capabilities (ds_Provider d) /\ service_of k = Some s) /\
  (ds_Services d <> [] -> l = ds_Services d).
Proof.
  unfold EffectiveServices. intros H. apply bind_Ok in H as ([seen derived] & Hd & H).
  destruct (derive_service_loop _ _ _ _ Hd) as (Hall & Hnd & Hs & Hseen);
    [constructor|intros s; split; intros Hin; [by apply elem_of_nil in Hin|set_solver]|].
  simpl in *. case_bool_decide as Hempty.
  - injection H as <-. split_and!; [split; [done|naive_solver]|done| |naive_solver].
    intros s. rewrite Hs, Hseen. set_solver.
  - apply bind_Ok in H as (declared & (Hne & Hnd' & ->)%declare_loop & H). inv_ok H.
    injection H as <-. destruct x. apply forE_unit_Ok in Hr.
    assert (list_to_set (ds_Services d) = seen) as Heq.
    { apply size_and_subset. split; [by apply neqb_false|].
      intros s Hin. rewrite Forall_forall in Hr. specialize (Hr s).
      rewrite elem_of_elements in Hr. specialize (Hr Hin). rewrite reject_Ok, bool_decide_eq_false in Hr.
      by destruct (decide (s ∈@{gset string} list_to_set (ds_Services d))). }
    assert (forall s, s ∈ ds_Services d <->
      exists k, k ∈ pr_Capabilities (ds_Provider d) /\ service_of k = Some s) as Hmem.
    { intros s. rewrite <- (elem_of_list_to_set (C := gset ServiceKind)), Heq, Hseen. set_solver. }
    split_and!; [split; [done|intros _]|done|done|done].
    split_and!; [done| |done]. intros Hin. rewrite Forall_forall in Hne. by apply (Hne "").
Qed.

Lemma EffectiveServices_total d : services_ok d -> exists l, EffectiveServices d = Ok l.
Proof.
  intros [Hall Hserv]. unfold EffectiveServices.
  destruct (derive_service_total _ ∅ [] Hall) as [[seen derived] Hd]. rewrite Hd. cbn.
  destruct (derive_service_loop _ _ _ _ Hd) as (_ & _ & _ & Hseen);
    [constructor|intros s; split; intros Hin; [by apply elem_of_nil in Hin|set_solver]|]. simpl in Hseen.
  case_bool_decide as Hempty; [eauto|].
  destruct (Hserv Hempty) as (Hnd & Hne & Hmem).
  assert (list_to_set (ds_Services d) = seen) as Heq.
  { apply leibniz_equiv. intros s. rewrite elem_of_list_to_set, Hmem, Hseen. set_solver. }
  assert (forE declare_service ∅ (ds_Services d) = Ok seen) as ->.
  { apply declare_loop. split_and!; [|done|done]. apply Forall_forall. intros s Hs ->. done. }
  cbn. rewrite bool_decide_eq_true_2 by done. cbn.
  eassert (forE _ tt (elements seen) = Ok tt) as ->; [|cbn; eauto].
  apply forE_unit_Ok, Forall_forall. intros s Hs. rewrite bool_decide_eq_false_2; [done|].
  rewrite elem_of_elements in Hs. tauto.
Qed.

Lemma validate_scope_ok d seen s out :
  validate_scope d seen s = Ok out <->
  s ∈ [ScopeShared; ScopeApplication; ScopeExternal] /\ s ∉ seen /\ out = {[s]} ∪ seen.
Proof.
  unfold validate_scope. cbv zeta. autorewrite with go.
  destruct (decide (s ∈ [ScopeShared; ScopeApplication; ScopeExternal])); naive_solver.
Qed.

Lemma ParseSpecificationID_is_ok id spec :
  ParseSpecificationID id = Ok spec -> is_ok (ParseSpecificationID id) = true /\ spec_kind_of id = spec_Kind spec.
Proof. unfold spec_kind_of. by intros ->. Qed.

Lemma validate_capability_ok d seen id out :
  validate_capability d seen id = Ok out <->
  (is_ok (ParseSpecificationID id) = true /\ spec_kind_of id ∈ pr_Capabilities (ds_Provider d)) /\
  spec_kind_of id ∉ seen /\ out = {[spec_kind_of id]} ∪ seen.
Proof.
  unfold validate_capability, spec_kind_of. cbv zeta. rewrite <- Provider_Supports_spec.
  destruct (ParseSpecificationID id) as [spec|e]; simpl; [|naive_solver].
  rewrite !reject_seq_Ok, bool_decide_eq_false, negb_false_iff. naive_solver.
Qed.

Lemma validate_interface_ok d seen i out :
  validate_interface d seen i = Ok out <->
  ProviderInterface_Validate i = Ok tt /\ TrimSpace (if_Name i) ∉ seen /\
  out = {[TrimSpace (if_Name i)]} ∪ seen.
Proof.
  unfold validate_interface. cbv zeta.
  destruct (ProviderInterface_Validate i) as [[]|e]; simpl; [|naive_solver].
  rewrite reject_seq_Ok, bool_decide_eq_false. naive_solver.
Qed.

Lemma validate_realization_ok kind s :
  validate_realization kind s (TrimSpace (sg_Name s)) (TrimSpace (ToLower (sg_Protocol s))) = Ok tt <->
  realization_ok s.
Proof.
  unfold validate_realization, realization_ok. cbv zeta.
  set (protocol := TrimSpace (ToLower (sg_Protocol s))). rewrite reject_seq_Ok.
  assert (forall (r1 r2 : result error unit), (r1 ;; r2) = Ok tt <-> r1 = Ok tt /\ r2 = Ok tt) as Hseq.
  { intros [[]|] r2; simpl; naive_solver. }
  rewrite Hseq, !reject_seq_Ok. rewrite bool_decide_eq_false.
  apply Morphisms_Prop.and_iff_morphism;
    [destruct (decide (sg_Mode s ∈ [ObservabilityNative; ObservabilityRuntime; ObservabilityAdapter;
               ObservabilityInteraction; ObservabilityCombined])); naive_solver|].
  apply Morphisms_Prop.and_iff_morphism; [|apply Morphisms_Prop.and_iff_morphism;
    [|apply Morphisms_Prop.and_iff_morphism; [by rewrite eqb_false|]]].
  - case_bool_decide as Hv; [tauto|]. case_bool_decide as Hn; [rewrite reject_Ok, neqb_false; tauto|naive_solver].
  - rewrite !andb_false_iff, eqb_false, !neqb_false.
    destruct (decide (sg_Status s = ObservabilityRequiresAdapter)); tauto.
  - destruct ((sg_Kind s == ObservabilityMetrics) && (sg_Status s == ObservabilitySupported) &&
              (sg_Mode s == ObservabilityNative)) eqn:Hnat.
    + rewrite !andb_true_iff, !eqb_true in Hnat.
      rewrite reject_seq_Ok, reject_Ok, !orb_false_iff, neqb_false, !Z.ltb_ge, negb_false_iff. naive_solver lia.
    + split; [|done]. intros _ H1 H2 H3. rewrite H1, H2, H3 in Hnat. done.
Qed.

Lemma validate_signal_ok d seen s out :
  validate_signal d seen s = Ok out <->
  signal_ok s /\ TrimSpace (sg_Name s) ∉ seen /\ out = {[TrimSpace (sg_Name s)]} ∪ seen.
Proof.
  unfold validate_signal, signal_ok. cbv zeta.
  rewrite !reject_seq_Ok, !bool_decide_eq_false.
  assert (forall (l : list string) (x : string), ~ (x ∉ l) <-> x ∈ l) as Hnn.
  { intros l x. destruct (decide (x ∈ l)); tauto. }
  rewrite !Hnn.
  assert (forall (r : result error unit) o, (r ;; (Ok o : result error (gset string))) = Ok out <-> r = Ok tt /\ out = o) as Hseq.
  { intros [[]|] o; simpl; naive_solver. }
  case_match eqn:Hst.
  - rewrite orb_true_iff, !eqb_true in Hst.
    rewrite !reject_seq_Ok, !orb_false_iff, !neqb_false.
    assert (sg_Status s ∈ [ObservabilitySupported; ObservabilityUnsupported; ObservabilityNotApplicable;
      ObservabilityRequiresAdapter]) by set_solver.
    assert (~ (sg_Status s = ObservabilitySupported \/ sg_Status s = ObservabilityRequiresAdapter))
      by (destruct Hst as [Hst'|Hst']; rewrite Hst'; intros [?|?]; discriminate).
    naive_solver.
  - rewrite orb_false_iff, !eqb_false in Hst. rewrite Hseq, validate_realization_ok.
    assert (sg_Status s ∈ [ObservabilitySupported; ObservabilityUnsupported; ObservabilityNotApplicable;
      ObservabilityRequiresAdapter] <-> sg_Status s = ObservabilitySupported \/ sg_Status s = ObservabilityRequiresAdapter) as ->
      by set_solver.
    naive_solver.
Qed.

Lemma IntegrationDescriptor_Validate_ok d :
  IntegrationDescriptor_Validate d = Ok tt <-> descriptor_ok d.
Proof.
  unfold IntegrationDescriptor_Validate, descriptor_ok. cbv zeta.
  rewrite !reject_seq_Ok, !bool_decide_eq_false, neqb_false. split.
  - intros (H1 & H2 & H3 & H4 & H5 & H6 & H). inv_ok H.
    rewrite wrap_err_Ok in Hr. apply EffectiveServices_spec in Hr as (Hserv & _).
    rewrite bool_decide_eq_false in Hc0.
    apply (forE_seen_empty _ id _ (validate_scope_ok d)) in Hr0 as (Hsc & Hscn & _).
    rewrite List.map_id in Hscn.
    apply (forE_seen_empty _ spec_kind_of _ (validate_capability_ok d)) in Hr1 as (Hcap & Hcapn & ->).
    destruct x2. apply forE_unit_Ok in Hr2.
    apply (forE_seen_empty _ _ _ (validate_interface_ok d)) in Hr3 as (Hif & Hifn & _).
    apply (forE_seen_empty _ _ _ (validate_signal_ok d)) in Hr4 as (Hsg & Hsgn & _).
    rewrite !Forall_forall in *. split_and!; try done.
    + intros id Hid. by apply Hcap.
    + intros k. split.
      * intros (id & -> & Hid)%list_elem_of_fmap. by apply Hcap.
      * intros Hk. specialize (Hr2 k Hk). rewrite reject_Ok, bool_decide_eq_false in Hr2.
        destruct (decide (k ∈ map spec_kind_of (ds_Capabilities d))) as [|Hn]; [done|].
        exfalso. apply Hr2. by rewrite elem_of_list_to_set.
  - intros ((H1 & H2 & H3 & H4 & H5 & H6) & Hserv & (Hsc1 & Hsc2 & Hsc3) & (Hcap & Hcapn & Hmem) & (Hif & Hifn) & Hsg & Hsgn).
    split_and!; try done. destruct (EffectiveServices_total d Hserv) as [l Hl]. rewrite Hl. simpl.
    destruct (EffectiveServices_spec d l Hl) as ([Hall _] & _ & Hlm & _).
    rewrite reject_seq_Ok, bool_decide_eq_false. split.
    { intros ->. destruct (pr_Capabilities (ds_Provider d)) as [|k ks] eqn:Hks; [done|].
      apply Forall_cons in Hall as [[s Hs] _]. apply (not_elem_of_nil s), Hlm. exists k. split; [left|done]. }
    rewrite reject_seq_Ok, bool_decide_eq_false. split; [done|].
    rewrite (proj2 (forE_seen_empty _ id _ (validate_scope_ok d) _ (list_to_set (ds_SupportedScopes d)))).
    2:{ rewrite List.map_id. split_and!; [|done|done]. apply Forall_forall. intros s Hs. by apply Hsc3. }
    cbn. rewrite (proj2 (forE_seen_empty _ spec_kind_of _ (validate_capability_ok d) _
                    (list_to_set (map spec_kind_of (ds_Capabilities d))))).
    2:{ split_and!; [|done|done]. rewrite Forall_forall in *. intros id Hid. split; [by apply Hcap|].
        apply Hmem, list_elem_of_fmap. eauto. }
    cbn. eassert (forE _ tt (pr_Capabilities (ds_Provider d)) = Ok tt) as ->.
    { apply forE_unit_Ok, Forall_forall. intros k Hk. rewrite bool_decide_eq_false_2; [done|].
      rewrite elem_of_list_to_set. apply Hmem in Hk. tauto. }
    cbn. rewrite (proj2 (forE_seen_empty _ _ _ (validate_interface_ok d) _ _)) by (split_and!; [done|done|reflexivity]).
    cbn. rewrite (proj2 (forE_seen_empty _ _ _ (validate_signal_ok d) _ _)) by (split_and!; [done|done|reflexivity]).
    done.
Qed.

(** The counters hold the multiset of [a]. *)
Definition counts (seen : gmap Kind Z) (a : list Kind) : Prop :=
  forall k, default 0%Z (seen !! k) = Z.of_nat (List.count_occ String.string_dec a k).

Lemma count_kinds_counts a : counts (count_kinds a) a.
Proof.
  unfold count_kinds, counts, Kind.
  enough (forall (seen : gmap string Z) k,
    default 0%Z (foldl (fun seen kind => <[kind := (default 0 (seen !! kind) + 1)%Z]> seen) seen a !! k) =
    (default 0 (seen !! k) + Z.of_nat (List.count_occ String.string_dec a k))%Z) as H.
  { intros k. by rewrite H, lookup_empty. }
  induction a as [|x a IH]; intros seen k; simpl; [lia|].
  rewrite IH, lookup_insert. destruct (String.string_dec x k) as [->|Hne].
  - rewrite decide_True by done. simpl. by rewrite Nat2Z.inj_succ, <- Z.add_1_l, Z.add_assoc.
  - by rewrite decide_False by done.
Qed.

Lemma consume_kinds_spec b : forall seen a, counts seen a -> length a = length b ->
  (consume_kinds seen b = true <-> a ≡ₚ b).
Proof.
  unfold counts, Kind.
  induction b as [|k b IH]; intros seen a Hcount Hlen; simpl.
  - destruct a; [done|]. done.
  - case_bool_decide as Hk.
    + split; [done|]. intros Hp. rewrite Hcount in Hk.
      assert (k ∈ a) as Hin by (rewrite Hp; left).
      apply list_elem_of_In, (List.count_occ_In String.string_dec) in Hin. lia.
    + assert (k ∈ a) as Hin.
      { apply list_elem_of_In, (List.count_occ_In String.string_dec). rewrite Hcount in Hk. lia. }
      apply elem_of_Permutation in Hin as [a' Ha].
      rewrite (IH _ a').
      * rewrite Ha. split; [by intros ->|]. apply Permutation_cons_inv.
      * intros j. assert (List.count_occ String.string_dec a j =
          List.count_occ String.string_dec (k :: a') j) as Hj by by apply (Permutation_count_occ String.string_dec).
        specialize (Hcount j). rewrite lookup_insert. simpl in Hj.
        destruct (String.string_dec k j) as [->|Hne].
        -- rewrite decide_True by done. simpl. rewrite Hj in Hcount. apply Z.sub_move_r.
           etrans; [exact Hcount|]. by rewrite Nat2Z.inj_succ, <- Z.add_1_r.
        -- rewrite decide_False by done. by rewrite <- Hj.
      * apply Permutation_length in Ha. simpl in *. by injection (eq_trans (eq_sym Ha) Hlen).
Qed.

Lemma SupportsScope_spec d s : SupportsScope d s = true <-> s ∈ ds_SupportedScopes d.
Proof.
  unfold SupportsScope. induction (ds_SupportedScopes d) as [|x l IH]; simpl.
  - by rewrite elem_of_nil.
  - rewrite elem_of_cons. case_bool_decide; naive_solver.
Qed.

(** * Properties *)

(** Validation of an integration descriptor is exactly the declarative
    contract: the identity fields are given, the declared services are those of
    the capabilities, scopes are known and distinct, the versioned
    specifications are canonical, distinct and in bijection with the provider's
    capabilities, and interfaces and observability signals are individually
    well-formed with distinct trimmed names. *)
Theorem IntegrationDescriptor_Validate_spec d :
  IntegrationDescriptor_Validate d = Ok tt <-> descriptor_ok d.
Proof. apply IntegrationDescriptor_Validate_ok. Qed.

(** The effective services of a descriptor are computed exactly when its
    declaration agrees with its capabilities, and are then, without
    repetition, the services of its capabilities. *)
Theorem EffectiveServices_correct d :
  (services_ok d <-> is_ok (EffectiveServices d) = true) /\
  forall l, EffectiveServices d = Ok l ->
    NoDup l /\
    (forall s, s ∈ l <-> exists k, k ∈ pr_Capabilities (ds_Provider d) /\ service_of k = Some s) /\
    (ds_Services d <> [] -> l = ds_Services d).
Proof.
  split; [split|].
  - intros [l Hl]%EffectiveServices_total. by rewrite Hl.
  - intros [l Hl]%is_ok_spec. by apply EffectiveServices_spec in Hl as [? _].
  - intros l Hl. apply EffectiveServices_spec in Hl. tauto.
Qed.

(** Comparing capability sets by counting decides permutation of the two
    lists, so neither order nor repetition is confused. *)
Lemma sameCapabilitySet_permutation a b : sameCapabilitySet a b = true <-> a ≡ₚ b.
Proof.
  unfold sameCapabilitySet. destruct (decide (length a = length b)) as [Hlen|Hlen].
  - rewrite bool_decide_eq_true_2 by done. simpl. apply consume_kinds_spec; [apply count_kinds_counts|done].
  - rewrite bool_decide_eq_false_2 by done. simpl. split; [done|]. intros H%Permutation_length. done.
Qed.

(** Static conformance passes exactly for valid descriptors; a passing report
    carries the effective services and only passed checks, a failing one names
    the validation error. *)
Theorem RequireIntegrationContract_iff_valid d :
  (RequireIntegrationContract d = Ok tt <-> IntegrationDescriptor_Validate d = Ok tt) /\
  (IntegrationDescriptor_Validate d = Ok tt ->
     EffectiveServices d = Ok (rp_Services (CheckIntegrationContract d)) /\
     Forall (fun c => cc_Status c = ConformancePass) (rp_Checks (CheckIntegrationContract d))) /\
  (forall err, IntegrationDescriptor_Validate d = Err err ->
     RequireIntegrationContract d =
       Err (Errorf "provider integration contract failed: %s" [ATxt err])).
Proof.
  unfold RequireIntegrationContract, CheckIntegrationContract. cbv zeta.
  destruct (IntegrationDescriptor_Validate d) as [[]|err] eqn:Hv; simpl.
  - apply IntegrationDescriptor_Validate_ok in Hv as (_ & Hserv & _).
    destruct (EffectiveServices_total d Hserv) as [l Hl]. rewrite Hl. simpl.
    split_and!; [done| |done]. intros _. split; [done|]. by repeat constructor.
  - split_and!; try done. intros e [= ->]. done.
Qed.

(** A provider placement is accepted exactly for a valid descriptor, a
    well-formed placement and a scope the descriptor supports. *)
Theorem ValidateProviderPlacement_spec d p :
  ValidateProviderPlacement d p = Ok tt <->
  descriptor_ok d /\ placement_ok p /\ pl_Scope p ∈ ds_SupportedScopes d.
Proof.
  unfold ValidateProviderPlacement.
  rewrite <- IntegrationDescriptor_Validate_ok, <- ProviderPlacement_Validate_spec, <- SupportsScope_spec.
  destruct (IntegrationDescriptor_Validate d) as [[]|]; simpl; [|naive_solver].
  destruct (ProviderPlacement_Validate p) as [[]|]; simpl; [|naive_solver].
  rewrite reject_seq_Ok, negb_false_iff. naive_solver.
Qed.

(** Every shipped reference provider satisfies the integration contract, has a
    change contract and an availability classification, and is the one that
    looking its kind up returns; no other kind is found, and each kind occurs
    once in the catalogue. *)
Theorem ReferenceIntegrations_conform :
  Forall (fun d =>
    RequireIntegrationContract d = Ok tt /\ (ChangeContract d).2 = true /\
    is_ok (AvailabilitySupportForProvider (pr_Kind (ds_Provider d))) = true) ReferenceIntegrations /\
  NoDup (map (fun d => pr_Kind (ds_Provider d)) ReferenceIntegrations) /\
  forall kind d, ReferenceIntegration kind = Ok d <->
    d ∈ ReferenceIntegrations /\ pr_Kind (ds_Provider d) = kind.
Proof.
  split_and!.
  - repeat (constructor; [split_and!; vm_compute; reflexivity|]). constructor.
  - apply (bool_decide_unpack _). vm_compute. exact I.
  - intros kind d. split.
    + unfold ReferenceIntegration. intros H.
      repeat (case_bool_decide; [subst kind; injection H as <-; split; [|reflexivity];
        unfold ReferenceIntegrations; rewrite !elem_of_cons; tauto|]). done.
    + intros [Hin <-].
      assert (Forall (fun d => ReferenceIntegration (pr_Kind (ds_Provider d)) = Ok d) ReferenceIntegrations) as H.
      { repeat (constructor; [vm_compute; reflexivity|]). constructor. }
      by apply (proj1 (Forall_forall _ _) H).
Qed.
