(* ===== verification/Registry.v ===== *)
(** * The provider registry (internal/capability/registry.go)

    Which provider instances exist, who owns them, and which application
    resources are bound to which instance.  The file holds the operations of
    [Registry]; RegistryStore.v holds the persistent store. *)

From S2P Require Import Prelude GoStrings StableId Capability.

(** ** Data *)

Definition RegistryVersion : Z := 2.

Record ProviderInstance := mkInstance {
  pi_ID : string;
  pi_ProviderID : string;
  pi_ProviderVersion : string;
  pi_ProviderProtocol : string;
  pi_Provider : Provider;
  pi_Scope : ProviderScope;
  pi_SharingBoundary : string;
  pi_Ownership : ProviderOwnership;
  pi_OwnerApplicationID : string;
  pi_OwnerApplication : string;
  pi_OwnerEnvironment : string;
  pi_Reference : string }.

Record ProviderBinding := mkBinding {
  pb_ApplicationID : string;
  pb_Resource : Resource;
  pb_Environment : string;
  pb_ProviderInstanceID : string }.

Record Registry := mkRegistry {
  rg_Version : Z;
  rg_Instances : list ProviderInstance;
  rg_Bindings : list ProviderBinding }.

Definition NewRegistry : Registry := mkRegistry RegistryVersion [] [].

(** The outcome of a method with a pointer receiver: the registry it leaves
    behind and its error. *)
Definition outcome : Type := Registry * result error unit.

Definition nil_registry : error := errorsNew "provider registry is nil".

(** The nil check every pointer method that returns an error starts with. *)
Definition with_receiver (r : option Registry) (method : Registry -> outcome)
    : option Registry * result error unit :=
  match r with
  | None => (None, Err nil_registry)
  | Some r => let '(r', e) := method r in (Some r', e)
  end.

(** ** Comparisons *)

(** The capability loop of [sameProviderInstance]; the lengths are equal. *)
Fixpoint same_capabilities (a b : list Kind) : bool :=
  match a, b with
  | x :: a', y :: b' => if x != y then false else same_capabilities a' b'
  | _, _ => true
  end.

Definition sameProviderInstance (a b : ProviderInstance) : bool :=
  if (pi_ID a != pi_ID b) || (pi_ProviderID a != pi_ProviderID b)
     || (pi_ProviderVersion a != pi_ProviderVersion b) || (pi_ProviderProtocol a != pi_ProviderProtocol b)
     || (pr_Kind (pi_Provider a) != pr_Kind (pi_Provider b)) || (pi_Scope a != pi_Scope b)
     || (pi_SharingBoundary a != pi_SharingBoundary b) || (pi_Ownership a != pi_Ownership b)
     || (pi_OwnerApplicationID a != pi_OwnerApplicationID b)
     || (pi_OwnerApplication a != pi_OwnerApplication b)
     || (pi_OwnerEnvironment a != pi_OwnerEnvironment b) || (pi_Reference a != pi_Reference b)
     || (length (pr_Capabilities (pi_Provider a)) != length (pr_Capabilities (pi_Provider b)))
  then false
  else same_capabilities (pr_Capabilities (pi_Provider a)) (pr_Capabilities (pi_Provider b)).

Definition clear_distribution (i : ProviderInstance) : ProviderInstance :=
  mkInstance (pi_ID i) "" "" "" (pi_Provider i) (pi_Scope i) (pi_SharingBoundary i) (pi_Ownership i)
    (pi_OwnerApplicationID i) (pi_OwnerApplication i) (pi_OwnerEnvironment i) (pi_Reference i).

Definition sameProviderInstanceWithoutDistribution (a b : ProviderInstance) : bool :=
  sameProviderInstance (clear_distribution a) (clear_distribution b).

Definition providerInstanceDistributionMetadataMissing (instance : ProviderInstance) : bool :=
  (TrimSpace (pi_ProviderID instance) == "") && (TrimSpace (pi_ProviderVersion instance) == "") &&
  (TrimSpace (pi_ProviderProtocol instance) == "").

Definition sameLogicalDeploymentResource (binding : ProviderBinding) (applicationID : string)
    (resource : Resource) (environment : string) : bool :=
  (pb_ApplicationID binding == TrimSpace applicationID) &&
  (rs_Kind (pb_Resource binding) == rs_Kind resource) &&
  (rs_Name (pb_Resource binding) == rs_Name resource) &&
  (rs_Provider (pb_Resource binding) == rs_Provider resource) &&
  (TrimSpace (pb_Environment binding) == TrimSpace environment).

Definition sameLogicalResource (a b : Resource) : bool :=
  (rs_Application a == rs_Application b) && (rs_Kind a == rs_Kind b) && (rs_Name a == rs_Name b).

(** [Registry.instance]: the first instance with the identifier. *)
Fixpoint find_instance (instances : list ProviderInstance) (id : string) : option ProviderInstance :=
  match instances with
  | [] => None
  | instance :: rest => if pi_ID instance == id then Some instance else find_instance rest id
  end.

Definition Registry_instance (r : Registry) (id : string) : option ProviderInstance :=
  find_instance (rg_Instances r) id.

(** ** Instance validation *)

Definition validateProviderInstance (i : ProviderInstance) : result error unit :=
  let id := pi_ID i in
  reject (TrimSpace id == "") (errorsNew "provider instance id is required") ;;
  reject ((pr_Kind (pi_Provider i) == "") || (length (pr_Capabilities (pi_Provider i)) == 0%nat))
    (Errorf "provider instance %q requires a provider descriptor" [AStr id]) ;;
  if pi_Scope i == ScopeShared then
    reject ((pi_OwnerApplicationID i != "") || (pi_OwnerApplication i != ""))
      (Errorf "shared provider instance %q cannot have an application owner" [AStr id]) ;;
    reject (pi_Ownership i != ProviderOwnedByBaseHarbor)
      (Errorf "shared provider instance %q must be BaseHarbor-owned; use external scope for BYO providers" [AStr id])
  else if pi_Scope i == ScopeApplication then
    reject (TrimSpace (pi_SharingBoundary i) != "")
      (Errorf "application-scoped provider instance %q cannot define a sharing boundary" [AStr id]) ;;
    wrap_err (fun err => Errorf "application-scoped provider instance %q: %w"
                [AStr id; ATxt (ValidationError_Error err)])
      (ValidateUUIDv4 "application" (pi_OwnerApplicationID i)) ;;
    reject (TrimSpace (pi_OwnerApplication i) == "")
      (Errorf "application-scoped provider instance %q requires a readable owner application" [AStr id]) ;;
    reject (pi_Ownership i != ProviderOwnedByBaseHarbor)
      (Errorf "application-scoped provider instance %q must be BaseHarbor-owned" [AStr id])
  else if pi_Scope i == ScopeExternal then
    reject (TrimSpace (pi_SharingBoundary i) != "")
      (Errorf "external provider instance %q cannot define a sharing boundary" [AStr id]) ;;
    reject (pi_Ownership i != ProviderOwnedExternally)
      (Errorf "external provider instance %q must have external ownership" [AStr id]) ;;
    reject (TrimSpace (pi_Reference i) == "")
      (Errorf "external provider instance %q requires a non-secret reference" [AStr id]) ;;
    reject ((pi_OwnerApplicationID i != "") || (pi_OwnerApplication i != ""))
      (Errorf "external provider instance %q cannot be lifecycle-owned by an application" [AStr id])
  else Err (Errorf "provider instance %q has unsupported scope %q" [AStr id; AStr (pi_Scope i)]).

(** ** Registration *)

(** Two shared instances that serve the same provider kind and boundary. *)
Definition shared_conflict (instance existing : ProviderInstance) : bool :=
  (pi_Scope instance == ScopeShared) && (pi_Scope existing == ScopeShared) &&
  (pr_Kind (pi_Provider existing) == pr_Kind (pi_Provider instance)) &&
  (TrimSpace (pi_SharingBoundary existing) == TrimSpace (pi_SharingBoundary instance)).

(** The loop of [Register]: [Ok (Some l)] when it returns with the instances
    [l], [Ok None] when it runs to the end. *)
Fixpoint Register_loop (instances : list ProviderInstance) (instance : ProviderInstance)
    : result error (option (list ProviderInstance)) :=
  match instances with
  | [] => Ok None
  | existing :: rest =>
      if pi_ID existing == pi_ID instance then
        if sameProviderInstance existing instance then Ok (Some instances)
        else if providerInstanceDistributionMetadataMissing existing &&
                sameProviderInstanceWithoutDistribution existing instance
        then Ok (Some (instance :: rest))
        else Err (Errorf "provider instance %q already exists with different metadata" [AStr (pi_ID instance)])
      else if shared_conflict instance existing then
        Err (Errorf "shared provider %q for sharing boundary %q already registered as %q"
          [AStr (pr_Kind (pi_Provider instance)); AStr (pi_SharingBoundary instance); AStr (pi_ID existing)])
      else
        match Register_loop rest instance with
        | Ok (Some rest') => Ok (Some (existing :: rest'))
        | Ok None => Ok None
        | Err e => Err e
        end
  end.

Definition Register_at (r : Registry) (instance : ProviderInstance) : outcome :=
  let r := if rg_Version r == 0%Z then mkRegistry RegistryVersion (rg_Instances r) (rg_Bindings r) else r in
  match validateProviderInstance instance with
  | Err err => (r, Err err)
  | Ok _ =>
      match Register_loop (rg_Instances r) instance with
      | Err err => (r, Err err)
      | Ok (Some instances) => (mkRegistry (rg_Version r) instances (rg_Bindings r), Ok tt)
      | Ok None => (mkRegistry (rg_Version r) (rg_Instances r ++ [instance]) (rg_Bindings r), Ok tt)
      end
  end.

Definition Register (r : option Registry) (instance : ProviderInstance) :=
  with_receiver r (fun r => Register_at r instance).

(** ** Resolution *)

(** The [matches] of [Resolve]. *)
Definition resolve_match (provider : ProviderKind) (scope : ProviderScope)
    (applicationID externalID : string) (instance : ProviderInstance) : bool :=
  if (pr_Kind (pi_Provider instance) != provider) || (pi_Scope instance != scope) then false
  else if scope == ScopeShared then TrimSpace (pi_SharingBoundary instance) == ""
  else if scope == ScopeApplication then pi_OwnerApplicationID instance == applicationID
  else if scope == ScopeExternal then (externalID != "") && (pi_ID instance == externalID)
  else false.

Definition Registry_Resolve (r : Registry) (provider : ProviderKind) (scope : ProviderScope)
    (applicationID externalID : string) : result error ProviderInstance :=
  let applicationID := TrimSpace applicationID in
  let externalID := TrimSpace externalID in
  match List.filter (resolve_match provider scope applicationID externalID) (rg_Instances r) with
  | [] => Err (Errorf "provider %q with scope %q not found" [AStr provider; AStr scope])
  | [instance] => Ok instance
  | _ => Err (Errorf "provider %q with scope %q is ambiguous" [AStr provider; AStr scope])
  end.

(** The [matches] of [ResolvePlacement]. *)
Definition placement_match (provider : ProviderKind) (scope : ProviderScope)
    (applicationID boundary reference : string) (instance : ProviderInstance) : bool :=
  if (pr_Kind (pi_Provider instance) != provider) || (pi_Scope instance != scope) then false
  else if scope == ScopeShared then TrimSpace (pi_SharingBoundary instance) == boundary
  else if scope == ScopeApplication then pi_OwnerApplicationID instance == applicationID
  else if scope == ScopeExternal then TrimSpace (pi_Reference instance) == reference
  else false.

Definition ResolvePlacement (r : Registry) (provider : ProviderKind) (placement : ProviderPlacement)
    (applicationID : string) : result error ProviderInstance :=
  ProviderPlacement_Validate placement ;;
  let applicationID := TrimSpace applicationID in
  let boundary := TrimSpace (pl_SharingBoundary placement) in
  let reference := TrimSpace (pl_ExternalReference placement) in
  match List.filter (placement_match provider (pl_Scope placement) applicationID boundary reference)
          (rg_Instances r) with
  | [] => Err (Errorf "provider %q with scope %q and sharing boundary %q not found"
            [AStr provider; AStr (pl_Scope placement); AStr boundary])
  | [instance] => Ok instance
  | _ => Err (Errorf "provider %q with scope %q and sharing boundary %q is ambiguous"
            [AStr provider; AStr (pl_Scope placement); AStr boundary])
  end.

(** ** Removal of external instances *)

Definition BindingsForProviderInstance (r : Registry) (providerInstanceID : string) : list ProviderBinding :=
  let providerInstanceID := TrimSpace providerInstanceID in
  List.filter (fun binding => pb_ProviderInstanceID binding == providerInstanceID) (rg_Bindings r).

Definition UnregisterExternal_at (r : Registry) (providerInstanceID : string) : outcome :=
  let providerInstanceID := TrimSpace providerInstanceID in
  if providerInstanceID == "" then (r, Err (errorsNew "provider instance id is required"))
  else match Registry_instance r providerInstanceID with
  | None => (r, Err (Errorf "provider instance %q not found" [AStr providerInstanceID]))
  | Some instance =>
      if (pi_Scope instance != ScopeExternal) || (pi_Ownership instance != ProviderOwnedExternally)
      then (r, Err (Errorf "provider instance %q is not externally owned" [AStr providerInstanceID]))
      else
        let bindings := BindingsForProviderInstance r providerInstanceID in
        if length bindings != 0%nat
        then (r, Err (Errorf "external provider instance %q still has %d application binding(s); release bindings before removal"
                [AStr providerInstanceID; AInt (Z.of_nat (length bindings))]))
        else (mkRegistry (rg_Version r)
                (List.filter (fun candidate => pi_ID candidate != providerInstanceID) (rg_Instances r))
                (rg_Bindings r), Ok tt)
  end.

Definition UnregisterExternal (r : option Registry) (providerInstanceID : string) :=
  with_receiver r (fun r => UnregisterExternal_at r providerInstanceID).

(** ** Binding *)

(** The loop of [BindDeployment]: the first binding of the same logical
    deployment resource. *)
Definition bound_resource (bindings : list ProviderBinding) (applicationID : string)
    (resource : Resource) (environment : string) : option ProviderBinding :=
  List.find (fun binding => sameLogicalDeploymentResource binding applicationID resource environment) bindings.

Definition BindDeployment_check (r : Registry) (resource : Resource)
    (applicationID environment providerInstanceID : string) : result error unit :=
  wrap_err ValidationError_Error (ValidateUUIDv4 "application" applicationID) ;;
  match Registry_instance r providerInstanceID with
  | None => Err (Errorf "provider instance %q not found" [AStr providerInstanceID])
  | Some instance =>
      reject (rs_Provider resource != pr_Kind (pi_Provider instance))
        (Errorf "resource provider %q does not match provider instance %q"
          [AStr (rs_Provider resource); AStr (pr_Kind (pi_Provider instance))]) ;;
      reject (negb (Provider_Supports (pi_Provider instance) (rs_Kind resource)))
        (Errorf "provider instance %q does not support capability %q"
          [AStr (pi_ID instance); AStr (rs_Kind resource)]) ;;
      if pi_Scope instance == ScopeApplication then
        reject (pi_OwnerApplicationID instance != applicationID)
          (Errorf "provider instance %q belongs to application_id %q, not %q"
            [AStr (pi_ID instance); AStr (pi_OwnerApplicationID instance); AStr applicationID]) ;;
        let ownerEnvironment := TrimSpace (pi_OwnerEnvironment instance) in
        reject ((ownerEnvironment != "") && (environment != "") && (ownerEnvironment != environment))
          (Errorf "provider instance %q belongs to environment %q, not %q"
            [AStr (pi_ID instance); AStr ownerEnvironment; AStr environment])
      else Ok tt
  end.

Definition BindDeployment_at (r : Registry) (resource : Resource)
    (applicationID environment providerInstanceID : string) : outcome :=
  let applicationID := TrimSpace applicationID in
  let environment := TrimSpace environment in
  match BindDeployment_check r resource applicationID environment providerInstanceID with
  | Err err => (r, Err err)
  | Ok _ =>
      match bound_resource (rg_Bindings r) applicationID resource environment with
      | Some binding =>
          if pb_ProviderInstanceID binding == providerInstanceID then (r, Ok tt)
          else (r, Err (Errorf "resource %s/%s/%s/%s is already bound to provider instance %q"
                 [AStr (rs_Application resource); AStr environment; AStr (rs_Kind resource);
                  AStr (rs_Name resource); AStr (pb_ProviderInstanceID binding)]))
      | None =>
          (mkRegistry (rg_Version r) (rg_Instances r)
             (rg_Bindings r ++ [mkBinding applicationID resource environment providerInstanceID]), Ok tt)
      end
  end.

Definition BindDeployment (r : option Registry) (resource : Resource)
    (applicationID environment providerInstanceID : string) :=
  with_receiver r (fun r => BindDeployment_at r resource applicationID environment providerInstanceID).

Definition Bind (r : option Registry) (resource : Resource) (applicationID providerInstanceID : string) :=
  BindDeployment r resource applicationID "" providerInstanceID.

(** ** Application lifecycle *)

Definition LifecycleOperation := string.
Definition LifecycleUpdate : LifecycleOperation := "update".
Definition LifecycleBackup : LifecycleOperation := "backup".
Definition LifecycleDestroy : LifecycleOperation := "destroy".

Record LifecycleAction := mkLifecycleAction {
  la_ProviderInstanceID : string;
  la_Scope : ProviderScope;
  la_Ownership : ProviderOwnership;
  la_Operation : LifecycleOperation;
  la_MutateProvider : bool;
  la_RemoveBinding : bool }.

Definition lifecycle_action (applicationID : string) (operation : LifecycleOperation)
    (instance : ProviderInstance) : LifecycleAction :=
  let ownedDedicated := (pi_Scope instance == ScopeApplication) &&
    (pi_Ownership instance == ProviderOwnedByBaseHarbor) &&
    (pi_OwnerApplicationID instance == applicationID) in
  mkLifecycleAction (pi_ID instance) (pi_Scope instance) (pi_Ownership instance) operation
    ownedDedicated (operation == LifecycleDestroy).

(** The loop over the bindings. *)
Definition lifecycle_step (r : Registry) (applicationID : string) (operation : LifecycleOperation)
    (st : gset string * list LifecycleAction) (binding : ProviderBinding)
    : result error (gset string * list LifecycleAction) :=
  let '(seen, actions) := st in
  if pb_ApplicationID binding != applicationID then Ok st
  else if decide (pb_ProviderInstanceID binding ∈ seen) then Ok st
  else match Registry_instance r (pb_ProviderInstanceID binding) with
  | None => Err (Errorf "binding references missing provider instance %q" [AStr (pb_ProviderInstanceID binding)])
  | Some instance =>
      Ok ({[pi_ID instance]} ∪ seen, actions ++ [lifecycle_action applicationID operation instance])
  end.

Definition ApplicationLifecycle (r : Registry) (applicationID : string) (operation : LifecycleOperation)
    : result error (list LifecycleAction) :=
  let applicationID := TrimSpace applicationID in
  wrap_err ValidationError_Error (ValidateUUIDv4 "application" applicationID) ;;
  reject (bool_decide (operation ∉ [LifecycleUpdate; LifecycleBackup; LifecycleDestroy]))
    (Errorf "unsupported provider lifecycle operation %q" [AStr operation]) ;;
  '(_, actions) ← forE (lifecycle_step r applicationID operation) (∅, []) (rg_Bindings r);
  Ok (sort_by la_ProviderInstanceID actions).

(** ** Release *)

Definition is_external (o : option ProviderInstance) : bool :=
  match o with Some instance => pi_Ownership instance == ProviderOwnedExternally | None => false end.

(** Whether [removeUnboundOwnedInstances] keeps an instance. *)
Definition keep_instance (referenced : gset string) (applicationID : string)
    (instance : ProviderInstance) : bool :=
  if pi_Ownership instance != ProviderOwnedByBaseHarbor then true
  else if bool_decide (pi_ID instance ∈ referenced) then true
  else if pi_Scope instance == ScopeShared then false
  else if pi_Scope instance == ScopeApplication then negb (pi_OwnerApplicationID instance == applicationID)
  else true.

Definition removeUnboundOwnedInstances (r : Registry) (applicationID : string) : Registry :=
  let referenced : gset string := list_to_set (map pb_ProviderInstanceID (rg_Bindings r)) in
  mkRegistry (rg_Version r) (List.filter (keep_instance referenced applicationID) (rg_Instances r))
    (rg_Bindings r).

Definition keep_managed_application (r : Registry) (applicationID : string) (binding : ProviderBinding) : bool :=
  if pb_ApplicationID binding != applicationID then true
  else is_external (Registry_instance r (pb_ProviderInstanceID binding)).

Definition ReleaseManagedApplication (r : Registry) (applicationID : string) : Registry :=
  let applicationID := TrimSpace applicationID in
  removeUnboundOwnedInstances
    (mkRegistry (rg_Version r) (rg_Instances r)
      (List.filter (keep_managed_application r applicationID) (rg_Bindings r))) applicationID.

Definition ReleaseApplication (r : Registry) (applicationID : string) : Registry :=
  let applicationID := TrimSpace applicationID in
  removeUnboundOwnedInstances
    (mkRegistry (rg_Version r) (rg_Instances r)
      (List.filter (fun binding => pb_ApplicationID binding != applicationID) (rg_Bindings r))) applicationID.

Definition keep_deployment (r : Registry) (applicationID environment : string) (preserveExternal : bool)
    (binding : ProviderBinding) : bool :=
  if pb_ApplicationID binding != applicationID then true
  else
    let bindingEnvironment := TrimSpace (pb_Environment binding) in
    if (bindingEnvironment != "") && (bindingEnvironment != environment) then true
    else if preserveExternal then is_external (Registry_instance r (pb_ProviderInstanceID binding))
    else false.

Definition releaseDeployment (r : Registry) (applicationID environment : string) (preserveExternal : bool)
    : Registry :=
  let applicationID := TrimSpace applicationID in
  let environment := TrimSpace environment in
  removeUnboundOwnedInstances
    (mkRegistry (rg_Version r) (rg_Instances r)
      (List.filter (keep_deployment r applicationID environment preserveExternal) (rg_Bindings r)))
    applicationID.

Definition ReleaseManagedDeployment (r : Registry) (applicationID environment : string) : Registry :=
  releaseDeployment r applicationID environment true.

Definition ReleaseApplicationDeployment (r : Registry) (applicationID environment : string) : Registry :=
  releaseDeployment r applicationID environment false.

(** ** Validation *)

Definition nul : ascii := byte_of 0.

Definition shared_key (instance : ProviderInstance) : string :=
  pr_Kind (pi_Provider instance) +:+ String nul (TrimSpace (pi_SharingBoundary instance)).

(** The loop over the instances: the seen identifiers and the shared keys with
    the instance that claimed them. *)
Definition validate_instance (st : gset string * gmap string string) (instance : ProviderInstance)
    : result error (gset string * gmap string string) :=
  let '(seenIDs, shared) := st in
  validateProviderInstance instance ;;
  reject (bool_decide (pi_ID instance ∈ seenIDs))
    (Errorf "duplicate provider instance %q" [AStr (pi_ID instance)]) ;;
  let seenIDs := {[pi_ID instance]} ∪ seenIDs in
  if pi_Scope instance == ScopeShared then
    match shared !! shared_key instance with
    | Some previous =>
        Err (Errorf "duplicate shared provider %q for sharing boundary %q: %q and %q"
          [AStr (pr_Kind (pi_Provider instance)); AStr (pi_SharingBoundary instance);
           AStr previous; AStr (pi_ID instance)])
    | None => Ok (seenIDs, <[shared_key instance := pi_ID instance]> shared)
    end
  else Ok (seenIDs, shared).

Definition binding_key (binding : ProviderBinding) : string :=
  pb_ApplicationID binding +:+ String nul (TrimSpace (pb_Environment binding) +:+
    String nul (rs_Kind (pb_Resource binding) +:+ String nul (rs_Name (pb_Resource binding)))).

(** The loop over the bindings. *)
Definition validate_binding (r : Registry) (seenResources : gset string) (binding : ProviderBinding)
    : result error (gset string) :=
  let environment := TrimSpace (pb_Environment binding) in
  let resource := pb_Resource binding in
  wrap_err (fun err => Errorf "provider binding: %w" [ATxt (ValidationError_Error err)])
    (ValidateUUIDv4 "application" (pb_ApplicationID binding)) ;;
  reject (bool_decide (binding_key binding ∈ seenResources))
    (Errorf "duplicate binding for resource %s/%s/%s/%s"
      [AStr (rs_Application resource); AStr environment; AStr (rs_Kind resource); AStr (rs_Name resource)]) ;;
  let seenResources := {[binding_key binding]} ∪ seenResources in
  match Registry_instance r (pb_ProviderInstanceID binding) with
  | None => Err (Errorf "binding references missing provider instance %q" [AStr (pb_ProviderInstanceID binding)])
  | Some instance =>
      reject ((rs_Provider resource != pr_Kind (pi_Provider instance)) ||
              negb (Provider_Supports (pi_Provider instance) (rs_Kind resource)))
        (Errorf "binding for %s/%s/%s is incompatible with provider instance %q"
          [AStr (rs_Application resource); AStr (rs_Kind resource); AStr (rs_Name resource);
           AStr (pi_ID instance)]) ;;
      (if pi_Scope instance == ScopeApplication then
        reject (pi_OwnerApplicationID instance != pb_ApplicationID binding)
          (Errorf "binding crosses application identity ownership boundary for provider instance %q"
            [AStr (pi_ID instance)]) ;;
        let ownerEnvironment := TrimSpace (pi_OwnerEnvironment instance) in
        reject ((ownerEnvironment != "") && (environment != "") && (ownerEnvironment != environment))
          (Errorf "binding crosses environment ownership boundary for provider instance %q"
            [AStr (pi_ID instance)])
      else Ok tt) ;;
      Ok seenResources
  end.

Definition Registry_Validate (r : Registry) : result error unit :=
  reject (rg_Version r != RegistryVersion)
    (Errorf "unsupported provider registry version %d" [AInt (rg_Version r)]) ;;
  forE validate_instance (∅, ∅) (rg_Instances r) ;;
  forE (validate_binding r) ∅ (rg_Bindings r) ;;
  Ok tt.
