(* ===== verification/RegistryFacts.v ===== *)
(** * What the provider registry guarantees

    A declarative description of the registries [Registry.Validate] accepts,
    and the theorems about the operations of Registry.v: which of them keep a
    registry valid, exactly what they change, and what they leave alone. *)

From S2P Require Import Prelude GoStrings StableId Capability Registry.

(** ** Well-formed registries *)

Definition blank (s : string) : Prop := TrimSpace s = "".

Definition is_shared (i : ProviderInstance) : bool := pi_Scope i == ScopeShared.

Definition unowned (i : ProviderInstance) : Prop :=
  pi_OwnerApplicationID i = "" /\ pi_OwnerApplication i = "".

(** The three scopes and the ownership each of them demands. *)
Inductive scope_ok (i : ProviderInstance) : Prop :=
| scope_shared : pi_Scope i = ScopeShared -> unowned i ->
    pi_Ownership i = ProviderOwnedByBaseHarbor -> scope_ok i
| scope_application : pi_Scope i = ScopeApplication -> blank (pi_SharingBoundary i) ->
    valid_uuid (pi_OwnerApplicationID i) = true -> ~ blank (pi_OwnerApplication i) ->
    pi_Ownership i = ProviderOwnedByBaseHarbor -> scope_ok i
| scope_external : pi_Scope i = ScopeExternal -> blank (pi_SharingBoundary i) ->
    pi_Ownership i = ProviderOwnedExternally -> ~ blank (pi_Reference i) -> unowned i -> scope_ok i.

Definition instance_ok (i : ProviderInstance) : Prop :=
  ~ blank (pi_ID i) /\ pr_Kind (pi_Provider i) <> "" /\ pr_Capabilities (pi_Provider i) <> [] /\ scope_ok i.

(** Whether an instance may serve a resource of an application in an
    environment: an application-scoped instance serves its owner only, in the
    environment it is pinned to. *)
Definition serves (i : ProviderInstance) (applicationID environment : string) (resource : Resource) : Prop :=
  rs_Provider resource = pr_Kind (pi_Provider i) /\ rs_Kind resource ∈ pr_Capabilities (pi_Provider i) /\
  (pi_Scope i = ScopeApplication ->
     pi_OwnerApplicationID i = applicationID /\
     (blank (pi_OwnerEnvironment i) \/ blank environment \/ TrimSpace (pi_OwnerEnvironment i) = TrimSpace environment)).

Definition binding_ok (instances : list ProviderInstance) (b : ProviderBinding) : Prop :=
  valid_uuid (pb_ApplicationID b) = true /\
  exists i, find_instance instances (pb_ProviderInstanceID b) = Some i /\
    serves i (pb_ApplicationID b) (pb_Environment b) (pb_Resource b).

Record registry_ok (r : Registry) : Prop := mkRegistryOk {
  ok_version : rg_Version r = RegistryVersion;
  ok_instances : Forall instance_ok (rg_Instances r);
  ok_ids : NoDup (map pi_ID (rg_Instances r));
  ok_shared : NoDup (map shared_key (List.filter is_shared (rg_Instances r)));
  ok_resources : NoDup (map binding_key (rg_Bindings r));
  ok_bindings : Forall (binding_ok (rg_Instances r)) (rg_Bindings r) }.

(** The map keys of [Validate] join their parts with a NUL byte; they are
    faithful for texts that contain none. *)
Definition nul_free (s : string) : Prop := has_byte nul s = false.

Definition nul_free_kinds (r : Registry) : Prop :=
  Forall (fun i => nul_free (pr_Kind (pi_Provider i))) (rg_Instances r).

(** Two lists of instances that differ in distribution metadata only. *)
Definition same_but_distribution (l l' : list ProviderInstance) : Prop :=
  map clear_distribution l = map clear_distribution l'.

(** An instance recorded before distribution metadata existed, which a
    registration may complete. *)
Definition adopts (existing instance : ProviderInstance) : Prop :=
  blank (pi_ProviderID existing) /\ blank (pi_ProviderVersion existing) /\
  blank (pi_ProviderProtocol existing) /\ clear_distribution existing = clear_distribution instance.

(** ** A sample registry

    One shared, one dedicated and two external instances; the sample
    application uses the dedicated database, the shared secrets store and one
    external identity provider. *)
Definition sample_secrets : ProviderInstance :=
  mkInstance "openbao/control-plane" "" "" "" (mkProvider ProviderOpenBao [Secrets])
    ScopeShared "" ProviderOwnedByBaseHarbor "" "" "" "".
Definition sample_secrets_upgrade : ProviderInstance :=
  mkInstance "openbao/control-plane" "openbao" "1" "v1" (mkProvider ProviderOpenBao [Secrets])
    ScopeShared "" ProviderOwnedByBaseHarbor "" "" "" "".
Definition sample_database : ProviderInstance :=
  mkInstance "postgresql/alpha" "" "" "" (mkProvider ProviderPostgreSQL [SQL])
    ScopeApplication "" ProviderOwnedByBaseHarbor sample_uuid "alpha" "" "".
Definition sample_oidc : ProviderInstance :=
  mkInstance "oidc/corporate" "" "" "" (mkProvider ProviderExternalOIDC [Identity])
    ScopeExternal "" ProviderOwnedExternally "" "" "" "https://id.example".
Definition sample_keycloak : ProviderInstance :=
  mkInstance "keycloak/byo" "" "" "" (mkProvider ProviderKeycloak [Identity])
    ScopeExternal "" ProviderOwnedExternally "" "" "" "https://kc.example".

Definition sample_resource (kind : Kind) (provider : ProviderKind) : Resource :=
  mkResource "alpha" kind "default" provider.

Definition sample_registry : Registry :=
  mkRegistry RegistryVersion [sample_secrets; sample_database; sample_oidc; sample_keycloak]
    [mkBinding sample_uuid (sample_resource SQL ProviderPostgreSQL) "" "postgresql/alpha";
     mkBinding sample_uuid (sample_resource Secrets ProviderOpenBao) "" "openbao/control-plane";
     mkBinding sample_uuid (sample_resource Identity ProviderExternalOIDC) "" "oidc/corporate"].

(** An instance has one scope and one owner. *)
Ltac scope_clash :=
  match goal with
  | H1 : ?x = _, H2 : ?x = _ |- _ => exfalso; rewrite H1 in H2; discriminate H2
  end.

(** ** Validation *)

Lemma validateProviderInstance_ok i : validateProviderInstance i = Ok tt <-> instance_ok i.
Proof.
  unfold validateProviderInstance, instance_ok, blank.
  rewrite !reject_seq_Ok, orb_false_iff, !eqb_false, length_zero_iff_nil.
  assert (Hscope : forall P, (P <-> scope_ok i) ->
    (TrimSpace (pi_ID i) <> "" /\
    (pr_Kind (pi_Provider i) <> "" /\ pr_Capabilities (pi_Provider i) <> []) /\ P <->
    TrimSpace (pi_ID i) <> "" /\ pr_Kind (pi_Provider i) <> "" /\
      pr_Capabilities (pi_Provider i) <> [] /\ scope_ok i)) by tauto.
  apply Hscope; clear Hscope.
  case_bool_decide as Hs; [|case_bool_decide as Ha; [|case_bool_decide as He]];
    rewrite ?reject_seq_Ok, ?ValidateUUIDv4_seq, ?reject_seq_Ok, ?reject_Ok, ?orb_false_iff,
      ?neqb_false, ?eqb_false.
  - split; [intros [Ho Hw]; by apply scope_shared|by intros [? Ho Hw|Hn|Hn]; [|scope_clash..]].
  - split; [intros (Hb & Hu & Hn & Hw); by apply scope_application|].
    intros [Hn|? Hb Hu Hn Hw|Hn]; [scope_clash|done|scope_clash].
  - split; [intros (Hb & Hw & Hr & Hu); by apply scope_external|].
    intros [Hn|Hn|? Hb Hw Hr Hu]; [scope_clash..|done].
  - split; [done|by intros []].
Qed.

(** One iteration over the instances. *)
Lemma validate_instance_ok seen shared x out :
  validate_instance (seen, shared) x = Ok out <->
  instance_ok x /\ pi_ID x ∉ seen /\ (is_shared x = true -> shared !! shared_key x = None) /\
  out = ({[pi_ID x]} ∪ seen, if is_shared x then <[shared_key x := pi_ID x]> shared else shared).
Proof.
  unfold validate_instance. rewrite bind_Ok, <- validateProviderInstance_ok.
  setoid_rewrite reject_seq_Ok. setoid_rewrite bool_decide_eq_false. fold (is_shared x).
  destruct (is_shared x).
  - destruct (shared !! shared_key x) as [p|] eqn:Hp; [naive_solver|].
    split; [intros ([] & ? & ? & [= <-]); done|intros (? & ? & _ & ->); eauto].
  - split; [intros ([] & ? & ? & [= <-]); done|intros (? & ? & _ & ->); eauto].
Qed.

(** The loop over the instances accepts exactly the well-formed instances with
    new identifiers and new shared keys. *)
Lemma validate_instances_ok l seen shared :
  (exists out, forE validate_instance (seen, shared) l = Ok out) <->
  Forall instance_ok l /\ NoDup (map pi_ID l) /\ (forall i, i ∈ l -> pi_ID i ∉ seen) /\
  NoDup (map shared_key (List.filter is_shared l)) /\
  (forall i, i ∈ l -> is_shared i = true -> shared !! shared_key i = None).
Proof.
  revert seen shared. induction l as [|x l IH]; intros seen shared.
  { simpl. split; [intros _; split_and!; set_solver by constructor|eauto]. }
  setoid_rewrite forE_cons. setoid_rewrite bind_Ok. setoid_rewrite validate_instance_ok.
  trans (instance_ok x /\ pi_ID x ∉ seen /\ (is_shared x = true -> shared !! shared_key x = None) /\
    exists out, forE validate_instance ({[pi_ID x]} ∪ seen,
      if is_shared x then <[shared_key x := pi_ID x]> shared else shared) l = Ok out).
  { naive_solver. }
  rewrite IH, map_cons, Forall_cons, NoDup_cons. setoid_rewrite not_elem_of_union.
  setoid_rewrite elem_of_cons. simpl.
  assert (Hid : pi_ID x ∉ map pi_ID l <-> forall i, i ∈ l -> pi_ID i ∉ ({[pi_ID x]} : gset string)).
  { setoid_rewrite list_elem_of_fmap. setoid_rewrite not_elem_of_singleton. naive_solver. }
  rewrite Hid; clear Hid IH. destruct (is_shared x) eqn:Hsx; [|naive_solver].
  rewrite map_cons, NoDup_cons.
  assert (Hkeys : forall i, <[shared_key x := pi_ID x]> shared !! shared_key i = None <->
    shared_key i <> shared_key x /\ shared !! shared_key i = None).
  { intros i. rewrite lookup_insert_None. naive_solver. }
  setoid_rewrite Hkeys.
  assert (Hx : shared_key x ∉ map shared_key (List.filter is_shared l) <->
    forall i, i ∈ l -> is_shared i = true -> shared_key i <> shared_key x).
  { setoid_rewrite list_elem_of_fmap. setoid_rewrite elem_of_filter_true. naive_solver. }
  rewrite Hx. naive_solver.
Qed.

(** The comparison of an owner environment with the environment of a binding. *)
Lemma pinned_false (x y : string) :
  (x != "") && (y != "") && (x != y) = false <-> x = "" \/ y = "" \/ x = y.
Proof. destruct (decide (x = "")), (decide (y = "")), (decide (x = y)); go_simpl; tauto. Qed.

(** The body of the loop over the bindings. *)
Lemma validate_binding_ok r seen b out :
  validate_binding r seen b = Ok out <->
  binding_ok (rg_Instances r) b /\ binding_key b ∉ seen /\ out = {[binding_key b]} ∪ seen.
Proof.
  unfold validate_binding, binding_ok, Registry_instance, serves, blank.
  rewrite ValidateUUIDv4_seq, reject_seq_Ok, bool_decide_eq_false.
  destruct (find_instance _ _) as [i|]; [|naive_solver].
  rewrite reject_seq_Ok, orb_false_iff, neqb_false, negb_false_iff, Provider_Supports_spec.
  case_bool_decide as Hs.
  - rewrite bind_Ok. setoid_rewrite reject_seq_Ok. setoid_rewrite reject_Ok.
    setoid_rewrite neqb_false.
    setoid_rewrite pinned_false. split.
    + intros (Hu & Hkey & (Hp & Hk) & [] & (Ho & He) & [= <-]).
      split_and!; [done| |done|done]. exists i. done.
    + intros ((Hu & ? & [= <-] & Hp & Hk & Ha) & Hkey & ->). destruct (Ha Hs) as [Ho He].
      split_and!; [done..|]. exists tt. done.
  - simpl. naive_solver.
Qed.

Lemma Registry_Validate_ok r : Registry_Validate r = Ok tt <-> registry_ok r.
Proof.
  unfold Registry_Validate. rewrite reject_seq_Ok, neqb_false, bind_Ok. setoid_rewrite bind_Ok.
  trans (rg_Version r = RegistryVersion /\
    (exists out, forE validate_instance (∅, ∅) (rg_Instances r) = Ok out) /\
    (exists out, forE (validate_binding r) ∅ (rg_Bindings r) = Ok out)); [naive_solver|].
  rewrite validate_instances_ok.
  setoid_rewrite (forE_seen_empty _ binding_key (binding_ok (rg_Instances r))); [|apply validate_binding_ok].
  split; [intros (? & (? & ? & _ & ? & _) & ? & ? & ? & ->); by constructor|].
  intros []. split_and!; [done..|set_solver|done|intros; apply lookup_empty|eauto].
Qed.

(** ** Instances *)

Lemma same_capabilities_eq a b :
  length a = length b -> (same_capabilities a b = true <-> a = b).
Proof.
  revert b. induction a as [|x a IH]; intros [|y b]; simpl; [naive_solver..|]. intros [= Hl].
  case_bool_decide as Hxy; simpl; [rewrite (IH b Hl)|]; naive_solver.
Qed.

(** The field by field comparison is equality. *)
Lemma sameProviderInstance_eq a b : sameProviderInstance a b = true <-> a = b.
Proof.
  unfold sameProviderInstance. destruct (_ || _) eqn:Hc.
  - split; [done|intros ->]. repeat (apply orb_true_iff in Hc as [Hc|Hc]);
      apply neqb_true in Hc; by destruct Hc.
  - repeat (apply orb_false_iff in Hc as [Hc ?]).
    repeat match goal with H : (_ != _) = false |- _ => rewrite neqb_false in H end.
    rewrite same_capabilities_eq by done.
    destruct a as [? ? ? ? []], b as [? ? ? ? []]; simpl in *; subst.
    split; [by intros ->|by intros [=]].
Qed.

(** The lookup finds the first instance with the identifier. *)
Lemma find_instance_Some l id i :
  find_instance l id = Some i <->
  exists pre post, l = pre ++ i :: post /\ pi_ID i = id /\ id ∉ map pi_ID pre.
Proof.
  induction l as [|x l IH]; simpl.
  { split; [done|intros ([] & ? & ? & _); discriminate]. }
  case_bool_decide as Hx.
  - split; [intros [= ->]; exists [], l; set_solver|].
    intros ([|y pre] & post & Heq & Hi & Hn); injection Heq as -> Heq; [done|].
    destruct Hn. simpl. rewrite Hx. left.
  - rewrite IH. split.
    + intros (pre & post & -> & Hi & Hn). exists (x :: pre), post. split_and!; [done..|].
      simpl. rewrite not_elem_of_cons. naive_solver.
    + intros ([|y pre] & post & Heq & Hi & Hn); injection Heq as -> ->; [done|].
      exists pre, post. split_and!; [done..|]. simpl in Hn. set_solver.
Qed.

Lemma find_instance_elem l id i : find_instance l id = Some i -> i ∈ l /\ pi_ID i = id.
Proof. intros (pre & post & -> & Hi & _)%find_instance_Some. set_solver. Qed.

Lemma find_instance_None l id : find_instance l id = None <-> id ∉ map pi_ID l.
Proof.
  induction l as [|x l IH]; simpl; [set_solver|].
  case_bool_decide; rewrite not_elem_of_cons; [naive_solver|]. rewrite IH. naive_solver.
Qed.

Lemma find_instance_app l k id :
  find_instance (l ++ k) id =
  match find_instance l id with Some i => Some i | None => find_instance k id end.
Proof. induction l as [|x l IH]; simpl; [done|]. by case_bool_decide. Qed.

(** With distinct identifiers the lookup is membership. *)
Lemma find_instance_NoDup l id i :
  NoDup (map pi_ID l) -> (find_instance l id = Some i <-> i ∈ l /\ pi_ID i = id).
Proof.
  intros Hnd. split; [apply find_instance_elem|]. intros [Hi Hid].
  destruct (find_instance l id) as [j|] eqn:Hj.
  - apply find_instance_elem in Hj as [Hj Hjd]. f_equal. apply (NoDup_map_inj pi_ID l); congruence.
  - apply find_instance_None in Hj. destruct Hj. rewrite <- Hid. by apply list_elem_of_fmap_2.
Qed.

(** Removing instances keeps the lookup of the remaining identifiers. *)
Lemma find_instance_filter f l id i :
  NoDup (map pi_ID l) -> find_instance l id = Some i -> f i = true ->
  find_instance (List.filter f l) id = Some i.
Proof.
  intros Hnd Hi Hf. apply find_instance_NoDup; [by apply NoDup_map_filter|].
  rewrite elem_of_filter_true. apply find_instance_elem in Hi. tauto.
Qed.

(** ** Registration *)

Lemma shared_key_inj i j :
  nul_free (pr_Kind (pi_Provider i)) -> nul_free (pr_Kind (pi_Provider j)) ->
  shared_key i = shared_key j ->
  pr_Kind (pi_Provider i) = pr_Kind (pi_Provider j) /\
  TrimSpace (pi_SharingBoundary i) = TrimSpace (pi_SharingBoundary j).
Proof. intros Hi Hj. by apply key_inj. Qed.

Lemma shared_conflict_false i j :
  is_shared i = true -> is_shared j = true ->
  nul_free (pr_Kind (pi_Provider i)) -> nul_free (pr_Kind (pi_Provider j)) ->
  shared_conflict i j = false -> shared_key j <> shared_key i.
Proof.
  unfold shared_conflict. fold (is_shared i) (is_shared j). intros -> -> Hi Hj Hc Hk.
  apply shared_key_inj in Hk as [Hp Hb]; [|done..]. rewrite Hp, Hb in Hc.
  by rewrite !bool_decide_true in Hc.
Qed.

Lemma clear_distribution_fields i j :
  clear_distribution i = clear_distribution j ->
  pi_ID i = pi_ID j /\ pi_Provider i = pi_Provider j /\ pi_Scope i = pi_Scope j /\
  pi_SharingBoundary i = pi_SharingBoundary j /\ pi_OwnerApplicationID i = pi_OwnerApplicationID j /\
  pi_OwnerEnvironment i = pi_OwnerEnvironment j.
Proof. destruct i, j; simpl. by intros [= -> -> -> -> -> -> -> -> ->]. Qed.

(** How the loop of [Register] ends. *)
Lemma Register_loop_None l i :
  Register_loop l i = Ok None ->
  pi_ID i ∉ map pi_ID l /\ (forall x, x ∈ l -> shared_conflict i x = false).
Proof.
  induction l as [|x l IH]; simpl; [set_solver|].
  case_bool_decide as Hid; [by repeat case_match|].
  destruct (shared_conflict i x) eqn:Hc; [done|].
  destruct (Register_loop l i) as [[]|]; [done| |done]. intros _. destruct IH as [IH1 IH2]; [done|].
  split; [rewrite not_elem_of_cons; naive_solver|]. intros y [->|Hy]%elem_of_cons; auto.
Qed.

Lemma Register_loop_Some l i l' :
  Register_loop l i = Ok (Some l') ->
  exists pre old post, l = pre ++ old :: post /\ l' = pre ++ i :: post /\
    pi_ID old = pi_ID i /\ pi_ID i ∉ map pi_ID pre /\ (old = i \/ adopts old i).
Proof.
  revert l'. induction l as [|x l IH]; simpl; intros l'; [done|].
  case_bool_decide as Hid.
  - destruct (sameProviderInstance x i) eqn:Hs.
    + apply sameProviderInstance_eq in Hs as ->. intros [= <-]. exists [], i, l. set_solver.
    + destruct (providerInstanceDistributionMetadataMissing x) eqn:Hm; [|done].
      unfold sameProviderInstanceWithoutDistribution.
      destruct (sameProviderInstance (clear_distribution x) _) eqn:Hc; [|done]. intros [= <-].
      exists [], x, l. split_and!; [done..|set_solver|]. right.
      unfold providerInstanceDistributionMetadataMissing in Hm.
      rewrite !andb_true_iff, !eqb_true in Hm. apply sameProviderInstance_eq in Hc.
      by destruct Hm as [[? ?] ?].
  - destruct (shared_conflict i x) eqn:Hc; [done|].
    destruct (Register_loop l i) as [[k|]|]; [|done..]. intros [= <-].
    destruct (IH k) as (pre & old & post & -> & -> & Ho & Hp & Ha); [done|].
    exists (x :: pre), old, post. split_and!; [done..| |done]. simpl.
    rewrite not_elem_of_cons. naive_solver.
Qed.

Lemma same_but_distribution_fields l l' :
  same_but_distribution l l' ->
  map pi_ID l = map pi_ID l' /\
  map shared_key (List.filter is_shared l) = map shared_key (List.filter is_shared l').
Proof.
  unfold same_but_distribution. revert l'.
  induction l as [|x l IH]; intros [|y l']; simpl; [done..|].
  intros [Hxy Hl]%cons_eq_inj. destruct (IH l' Hl) as [-> Hk].
  apply clear_distribution_fields in Hxy as (-> & Hp & Hs & Hb & _ & _).
  split; [done|]. assert (is_shared x = is_shared y) as -> by (unfold is_shared; by rewrite Hs).
  destruct (is_shared y); [|done]. simpl. rewrite Hk. unfold shared_key. by rewrite Hp, Hb.
Qed.

Lemma find_instance_clear l id :
  find_instance (map clear_distribution l) id = clear_distribution <$> find_instance l id.
Proof. induction l as [|x l IH]; simpl; [done|]. by case_bool_decide. Qed.

Lemma find_same_but_distribution l l' id i :
  same_but_distribution l l' -> find_instance l id = Some i ->
  exists j, find_instance l' id = Some j /\ clear_distribution i = clear_distribution j.
Proof.
  intros Hs Hi. assert (Hc := find_instance_clear l' id).
  rewrite <- Hs, find_instance_clear, Hi in Hc. destruct (find_instance l' id) as [j|]; [|done].
  exists j. split; [done|]. apply (inj Some) in Hc. exact Hc.
Qed.

(** A binding stays well-formed while its instance keeps everything but its
    distribution metadata. *)
Lemma binding_ok_transfer l l' b :
  (forall i, find_instance l (pb_ProviderInstanceID b) = Some i ->
     exists j, find_instance l' (pb_ProviderInstanceID b) = Some j /\
       clear_distribution i = clear_distribution j) ->
  binding_ok l b -> binding_ok l' b.
Proof.
  intros Hl (Hu & i & Hi & Hs). destruct (Hl i Hi) as (j & Hj & Hc). split; [done|].
  exists j. split; [done|]. apply clear_distribution_fields in Hc as (_ & Hp & Hsc & _ & Ho & He).
  unfold serves in *. by rewrite <- Hp, <- Hsc, <- Ho, <- He.
Qed.

Lemma bindings_ok_transfer l l' bs :
  (forall b i, b ∈ bs -> find_instance l (pb_ProviderInstanceID b) = Some i ->
     exists j, find_instance l' (pb_ProviderInstanceID b) = Some j /\
       clear_distribution i = clear_distribution j) ->
  Forall (binding_ok l) bs -> Forall (binding_ok l') bs.
Proof.
  rewrite !Forall_forall. intros Hl Hok b Hb. eapply binding_ok_transfer; [|by apply Hok]. eauto.
Qed.

Lemma NoDup_snoc {A} (l : list A) x : NoDup (l ++ [x]) <-> NoDup l /\ x ∉ l.
Proof. rewrite NoDup_app. split; [set_solver|]. intros [? ?]. split_and!; [done|set_solver|apply NoDup_singleton]. Qed.

(** Appending a new, valid instance keeps a registry well-formed. *)
Lemma append_instance_ok r i :
  registry_ok r -> nul_free_kinds r -> nul_free (pr_Kind (pi_Provider i)) -> instance_ok i ->
  pi_ID i ∉ map pi_ID (rg_Instances r) -> (forall x, x ∈ rg_Instances r -> shared_conflict i x = false) ->
  registry_ok (mkRegistry (rg_Version r) (rg_Instances r ++ [i]) (rg_Bindings r)).
Proof.
  intros [Hv Hi Hids Hsh Hres Hb] Hnul Hn Hok Hid Hc. constructor; simpl; [done| | | |done|].
  - by rewrite Forall_app, Forall_singleton.
  - rewrite map_app. by apply NoDup_snoc.
  - rewrite List.filter_app, map_app. simpl. destruct (is_shared i) eqn:Hs; [|by rewrite app_nil_r].
    apply NoDup_snoc. split; [done|].
    intros (x & Hk & [Hsx Hx]%elem_of_filter_true)%list_elem_of_fmap.
    eapply (shared_conflict_false i x); eauto. unfold nul_free_kinds in Hnul.
    rewrite Forall_forall in Hnul. auto.
  - eapply bindings_ok_transfer; [|exact Hb]. intros b j _ Hj. exists j.
    by rewrite find_instance_app, Hj.
Qed.

(** Completing the distribution metadata of an instance keeps it too. *)
Lemma replace_instance_ok r pre old post i :
  registry_ok r -> rg_Instances r = pre ++ old :: post -> instance_ok i ->
  clear_distribution old = clear_distribution i ->
  registry_ok (mkRegistry (rg_Version r) (pre ++ i :: post) (rg_Bindings r)).
Proof.
  intros [Hv Hi Hids Hsh Hres Hb] Heq Hok Hc.
  assert (Hs : same_but_distribution (rg_Instances r) (pre ++ i :: post)).
  { unfold same_but_distribution. by rewrite Heq, !map_app, !map_cons, Hc. }
  destruct (same_but_distribution_fields _ _ Hs) as [Hids' Hsh'].
  constructor; simpl; [done| | | |done|].
  - rewrite Heq, !Forall_app, !Forall_cons in *. tauto.
  - by rewrite <- Hids'.
  - by rewrite <- Hsh'.
  - eapply bindings_ok_transfer; [|exact Hb]. intros. eapply find_same_but_distribution; eauto.
Qed.

Lemma find_instance_other pre old post i id :
  pi_ID old = pi_ID i -> id <> pi_ID i ->
  find_instance (pre ++ i :: post) id = find_instance (pre ++ old :: post) id.
Proof.
  intros Ho Hid. rewrite !find_instance_app. simpl. by rewrite Ho, !bool_decide_false.
Qed.

(** C7: Registration keeps a valid registry valid, changes no binding and no other
    instance, leaves the registry as it is when it fails, and otherwise ends
    with exactly the given instance under its identifier: it was absent, equal,
    or recorded without the distribution metadata it now carries. *)
Theorem Register_valid r i r' res :
  Registry_Validate r = Ok tt -> nul_free_kinds r -> nul_free (pr_Kind (pi_Provider i)) ->
  Register_at r i = (r', res) ->
  Registry_Validate r' = Ok tt /\ rg_Bindings r' = rg_Bindings r /\
  (forall id, id <> pi_ID i -> Registry_instance r' id = Registry_instance r id) /\
  match res with
  | Ok _ => Registry_instance r' (pi_ID i) = Some i /\
      forall old, Registry_instance r (pi_ID i) = Some old -> old = i \/ adopts old i
  | Err _ => r' = r
  end.
Proof.
  rewrite Registry_Validate_ok. intros Hr Hnul Hn. unfold Register_at.
  rewrite bool_decide_false by (by rewrite (ok_version r Hr)).
  destruct (validateProviderInstance i) as [[]|e] eqn:Hi;
    [|intros [= <- <-]; by rewrite Registry_Validate_ok].
  apply validateProviderInstance_ok in Hi.
  destruct (Register_loop (rg_Instances r) i) as [[l'|]|e] eqn:Hl;
    intros [= <- <-]; rewrite Registry_Validate_ok; unfold Registry_instance; simpl; [| |done].
  - apply Register_loop_Some in Hl as (pre & old & post & Hl & -> & Ho & Hp & Ha).
    assert (clear_distribution old = clear_distribution i) as Hc.
    { destruct Ha as [->|(_ & _ & _ & Hc)]; done. }
    split_and!; [by eapply replace_instance_ok|done| | |].
    + intros id Hid. rewrite Hl. by apply find_instance_other.
    + apply find_instance_Some. eauto 10.
    + intros old' Hold. rewrite Hl in Hold.
      assert (Some old' = Some old) as [= ->]; [rewrite <- Hold|done].
      apply find_instance_Some. eauto 10.
  - apply Register_loop_None in Hl as [Hid Hc].
    split_and!; [by apply append_instance_ok|done| | |].
    + intros id Hne. rewrite find_instance_app. simpl. rewrite bool_decide_false by done.
      by destruct (find_instance _ _).
    + apply find_instance_None in Hid. rewrite find_instance_app, Hid. simpl.
      by rewrite bool_decide_true.
    + apply find_instance_None in Hid. by rewrite Hid.
Qed.

Lemma Register_valid_witness :
  snd (Register_at sample_registry sample_secrets_upgrade) = Ok tt /\
  Registry_Validate (fst (Register_at sample_registry sample_secrets_upgrade)) = Ok tt.
Proof.
  split; [vm_compute; reflexivity|].
  refine (proj1 (Register_valid sample_registry sample_secrets_upgrade _ (Ok tt) _ _ _ _)).
  - vm_compute. reflexivity.
  - unfold nul_free_kinds, nul_free. apply (bool_decide_unpack _). vm_compute. exact I.
  - reflexivity.
  - vm_compute. reflexivity.
Defined.

(** Exactly the registries [Validate] accepts: the current version; well-formed
    instances with distinct identifiers, of which the shared ones have distinct
    provider and sharing boundary keys; and bindings with distinct resource
    keys, each to an existing instance of the resource's provider that supports
    its capability and, when the instance belongs to one application, to that
    application and environment. *)
Theorem Registry_Validate_spec r : Registry_Validate r = Ok tt <-> registry_ok r.
Proof. apply Registry_Validate_ok. Qed.
