(* ===== verification/RegistryBinding.v ===== *)
(** * Binding, release and lifecycle of the provider registry

    What [BindDeployment], [UnregisterExternal], the four release operations,
    [ApplicationLifecycle] and the resolution of a placement do to a valid
    registry. *)

From S2P Require Import Prelude GoStrings StableId Capability Registry RegistryFacts.

(** ** Vocabulary *)

Definition binding_nul_free (b : ProviderBinding) : Prop :=
  nul_free (pb_Environment b) /\ nul_free (rs_Kind (pb_Resource b)).

(** A binding of the given resource of an application in an environment,
    whatever its provider: what the key of [Validate] identifies. *)
Definition binds (b : ProviderBinding) (applicationID environment : string) (resource : Resource) : Prop :=
  pb_ApplicationID b = applicationID /\ TrimSpace (pb_Environment b) = TrimSpace environment /\
  rs_Kind (pb_Resource b) = rs_Kind resource /\ rs_Name (pb_Resource b) = rs_Name resource.

Definition bound_to (bindings : list ProviderBinding) (id : string) : Prop :=
  exists b, b ∈ bindings /\ pb_ProviderInstanceID b = id.

(** Whether a binding leads to an external instance. *)
Definition binds_external (r : Registry) (b : ProviderBinding) : Prop :=
  exists i, Registry_instance r (pb_ProviderInstanceID b) = Some i /\ pi_Scope i = ScopeExternal.

(** What a release for an application may remove once it is unbound. *)
Definition releasable (applicationID : string) (i : ProviderInstance) : Prop :=
  pi_Scope i = ScopeShared \/ (pi_Scope i = ScopeApplication /\ pi_OwnerApplicationID i = applicationID).

(** A release keeps the bindings [P] selects, and drops of the instances
    exactly the releasable ones that end up unbound. *)
Definition releases (r r' : Registry) (applicationID : string) (P : ProviderBinding -> Prop) : Prop :=
  rg_Version r' = rg_Version r /\
  (forall b, b ∈ rg_Bindings r' <-> b ∈ rg_Bindings r /\ P b) /\
  (forall i, i ∈ rg_Instances r' <-> i ∈ rg_Instances r /\
     (bound_to (rg_Bindings r') (pi_ID i) \/ ~ releasable applicationID i)).

(** What a lifecycle operation of an application asks for an instance. *)
Record lifecycle_request (applicationID : string) (operation : LifecycleOperation)
    (a : LifecycleAction) (i : ProviderInstance) : Prop := mkLifecycleRequest {
  lr_id : la_ProviderInstanceID a = pi_ID i;
  lr_scope : la_Scope a = pi_Scope i;
  lr_ownership : la_Ownership a = pi_Ownership i;
  lr_operation : la_Operation a = operation;
  lr_mutate : la_MutateProvider a = true <->
    pi_Scope i = ScopeApplication /\ pi_OwnerApplicationID i = applicationID;
  lr_remove : la_RemoveBinding a = true <-> operation = LifecycleDestroy }.

(** The instance a shared provider kind and sharing boundary name. *)
Definition shared_at (r : Registry) (provider : ProviderKind) (boundary : string) (i : ProviderInstance) : Prop :=
  i ∈ rg_Instances r /\ pr_Kind (pi_Provider i) = provider /\ pi_Scope i = ScopeShared /\
  TrimSpace (pi_SharingBoundary i) = TrimSpace boundary.

(** ** Keys *)

Lemma binding_key_binds b applicationID environment resource id :
  valid_uuid (pb_ApplicationID b) = true -> valid_uuid applicationID = true ->
  binding_nul_free b -> nul_free environment -> nul_free (rs_Kind resource) ->
  binding_key b = binding_key (mkBinding applicationID resource environment id) ->
  binds b applicationID environment resource.
Proof.
  intros Hu Hu' [He Hk] He' Hk' Heq. unfold binding_key in Heq. simpl in Heq.
  apply key_inj in Heq as [Happ Heq]; [|by apply valid_uuid_nul_free..].
  apply key_inj in Heq as [Henv Heq]; [|by apply has_byte_TrimSpace..].
  apply key_inj in Heq as [Hkind Hname]; [|done..]. done.
Qed.

Lemma sameLogical_binds b applicationID environment resource :
  sameLogicalDeploymentResource b (TrimSpace applicationID) resource (TrimSpace environment) = true <->
  binds b (TrimSpace applicationID) environment resource /\
  rs_Provider (pb_Resource b) = rs_Provider resource.
Proof.
  unfold sameLogicalDeploymentResource, binds. rewrite !andb_true_iff, !eqb_true, !TrimSpace_idem. tauto.
Qed.

(** ** Binding *)

Lemma BindDeployment_check_ok r resource applicationID environment id :
  BindDeployment_check r resource applicationID (TrimSpace environment) id = Ok tt <->
  valid_uuid applicationID = true /\
  exists i, Registry_instance r id = Some i /\ serves i applicationID environment resource.
Proof.
  unfold BindDeployment_check, serves, blank. rewrite ValidateUUIDv4_seq.
  destruct (Registry_instance r id) as [i|]; [|naive_solver].
  rewrite !reject_seq_Ok, neqb_false, negb_false_iff, Provider_Supports_spec.
  case_bool_decide as Hs.
  - rewrite reject_seq_Ok, reject_Ok, neqb_false, pinned_false. naive_solver.
  - naive_solver.
Qed.

Lemma bound_resource_Some bindings applicationID resource environment b :
  bound_resource bindings (TrimSpace applicationID) resource (TrimSpace environment) = Some b ->
  b ∈ bindings /\ binds b (TrimSpace applicationID) environment resource.
Proof.
  intros [Hb Hs]%find_some. split; [by apply list_elem_of_In|]. by apply sameLogical_binds in Hs as [Hs _].
Qed.

Lemma bound_resource_None bindings applicationID resource environment b :
  bound_resource bindings (TrimSpace applicationID) resource (TrimSpace environment) = None ->
  b ∈ bindings -> binds b (TrimSpace applicationID) environment resource ->
  rs_Provider (pb_Resource b) <> rs_Provider resource.
Proof.
  intros Hn Hb Hs Hp. apply list_elem_of_In in Hb. apply (find_none _ _ Hn) in Hb.
  rewrite (proj2 (sameLogical_binds _ _ _ _)) in Hb; [done|by split].
Qed.

(** Appending a binding of a new resource keeps a registry well-formed. *)
Lemma append_binding_ok r b :
  registry_ok r -> binding_ok (rg_Instances r) b -> binding_key b ∉ map binding_key (rg_Bindings r) ->
  registry_ok (mkRegistry (rg_Version r) (rg_Instances r) (rg_Bindings r ++ [b])).
Proof.
  intros [Hv Hi Hids Hsh Hres Hb] Hok Hkey. constructor; simpl; [done..| |].
  - rewrite map_app. by apply NoDup_snoc.
  - by rewrite Forall_app, Forall_singleton.
Qed.

(** C6: Binding a resource keeps a valid registry valid, as long as the resource is
    not bound through another kind of provider already.  It never changes an
    instance; it leaves the registry as it is when it fails, and otherwise the
    resource is bound to the requested instance, which may serve it; at most
    that one binding is added. *)
Theorem BindDeployment_valid r resource applicationID environment id r' res :
  Registry_Validate r = Ok tt -> Forall binding_nul_free (rg_Bindings r) ->
  nul_free environment -> nul_free (rs_Kind resource) ->
  (forall b, b ∈ rg_Bindings r -> binds b (TrimSpace applicationID) environment resource ->
     rs_Provider (pb_Resource b) = rs_Provider resource) ->
  BindDeployment_at r resource applicationID environment id = (r', res) ->
  Registry_Validate r' = Ok tt /\ rg_Instances r' = rg_Instances r /\
  match res with
  | Err _ => r' = r
  | Ok _ => exists b i, b ∈ rg_Bindings r' /\ binds b (TrimSpace applicationID) environment resource /\
      pb_ProviderInstanceID b = id /\ Registry_instance r id = Some i /\
      serves i (TrimSpace applicationID) environment resource /\
      (rg_Bindings r' = rg_Bindings r \/ rg_Bindings r' = rg_Bindings r ++ [b])
  end.
Proof.
  rewrite Registry_Validate_ok. intros Hr Hnul He Hk Hsame. unfold BindDeployment_at.
  destruct (BindDeployment_check _ _ _ _ _) as [[]|e] eqn:Hc;
    [|intros [= <- <-]; by rewrite Registry_Validate_ok].
  apply BindDeployment_check_ok in Hc as (Hu & i & Hi & Hs).
  destruct (bound_resource _ _ _ _) as [b|] eqn:Hb.
  - apply bound_resource_Some in Hb as [Hb Hbinds].
    case_bool_decide as Hid; intros [= <- <-]; rewrite Registry_Validate_ok; [|done].
    split_and!; [done..|]. exists b, i. eauto 10.
  - intros [= <- <-]. rewrite Registry_Validate_ok. simpl.
    set (b := mkBinding _ _ _ _). split_and!; [|done|].
    + apply append_binding_ok; [done| |].
      * split; [done|]. exists i. split; [done|]. unfold serves, blank in *. simpl. by rewrite TrimSpace_idem.
      * intros (c & Hkey & Hc)%list_elem_of_fmap.
        assert (binds c (TrimSpace applicationID) environment resource) as Hcb.
        { unfold binds. rewrite <- (TrimSpace_idem environment).
          pose proof (ok_bindings r Hr) as Hok. rewrite Forall_forall in Hok, Hnul.
          eapply binding_key_binds; [by apply Hok|done|by apply Hnul| |done|by symmetry].
          by apply has_byte_TrimSpace. }
        by apply (bound_resource_None _ _ _ _ c Hb Hc Hcb), Hsame.
    + exists b, i. split_and!; [set_solver| |done..|by right].
      unfold binds, b. simpl. by rewrite TrimSpace_idem.
Qed.

Lemma BindDeployment_valid_witness :
  let resource := mkResource "alpha" Secrets "tokens" ProviderOpenBao in
  Registry_Validate (fst (BindDeployment_at sample_registry resource sample_uuid "" "openbao/control-plane")) = Ok tt.
Proof.
  refine (proj1 (BindDeployment_valid sample_registry (mkResource "alpha" Secrets "tokens" ProviderOpenBao)
    sample_uuid "" "openbao/control-plane" _ (Ok tt) _ _ _ _ _ _)).
  - vm_compute. reflexivity.
  - unfold binding_nul_free, nul_free. apply (bool_decide_unpack _). vm_compute. exact I.
  - reflexivity.
  - reflexivity.
  - intros b Hb. simpl in Hb. rewrite !elem_of_cons, elem_of_nil in Hb.
    destruct Hb as [->|[->|[->|[]]]]; intros (_ & _ & Hk & Hn); discriminate.
  - vm_compute. reflexivity.
Defined.

(** Without that proviso the registry breaks: [sameLogicalDeploymentResource]
    compares the provider of the resource, the key of [Validate] does not, so
    [BindDeployment] accepts a second binding of a bound resource through a
    provider of another kind and leaves a registry that [Validate] (and
    therefore [Save] and [Load]) rejects. *)
Theorem BindDeployment_second_provider :
  exists r resource applicationID id,
    Registry_Validate r = Ok tt /\
    snd (BindDeployment_at r resource applicationID "" id) = Ok tt /\
    is_err (Registry_Validate (fst (BindDeployment_at r resource applicationID "" id))) = true.
Proof.
  exists sample_registry, (sample_resource Identity ProviderKeycloak), sample_uuid, "keycloak/byo".
  split_and!; vm_compute; reflexivity.
Qed.

(** ** Removal *)

Lemma bound_to_spec bindings id :
  bound_to bindings id <-> id ∈ map pb_ProviderInstanceID bindings.
Proof. unfold bound_to. rewrite list_elem_of_fmap. naive_solver. Qed.

(** Removing instances that no remaining binding uses, and bindings, keeps a
    registry well-formed. *)
Lemma shrink_ok r f g :
  registry_ok r ->
  (forall i, i ∈ rg_Instances r -> bound_to (List.filter g (rg_Bindings r)) (pi_ID i) -> f i = true) ->
  registry_ok (mkRegistry (rg_Version r) (List.filter f (rg_Instances r)) (List.filter g (rg_Bindings r))).
Proof.
  intros [Hv Hi Hids Hsh Hres Hb] Hkeep. constructor; simpl; [done| | | | |].
  - by apply Forall_filter_true.
  - by apply NoDup_map_filter.
  - rewrite filter_comm. by apply NoDup_map_filter.
  - by apply NoDup_map_filter.
  - eapply bindings_ok_transfer; [|by apply Forall_filter_true].
    intros b i Hin Hfi. exists i. split; [|done].
    apply find_instance_filter; [done..|]. apply find_instance_elem in Hfi as [Hi' Hid].
    apply Hkeep; [done|]. exists b. done.
Qed.

(** On well-formed instances the owner follows from the scope. *)
Lemma external_ownership i :
  instance_ok i -> (pi_Ownership i = ProviderOwnedExternally <-> pi_Scope i = ScopeExternal).
Proof. intros (_ & _ & _ & [Hs _ Ho|Hs _ _ _ Ho|Hs _ Ho _ _]); rewrite Hs, Ho; split; done. Qed.

Lemma baseharbor_ownership i :
  instance_ok i -> (pi_Ownership i = ProviderOwnedByBaseHarbor <-> pi_Scope i <> ScopeExternal).
Proof.
  intros (_ & _ & _ & [Hs _ Ho|Hs _ _ _ Ho|Hs _ Ho _ _]); rewrite Hs, Ho; split; (done || by intros []).
Qed.

Lemma registry_instance_ok r id i :
  registry_ok r -> Registry_instance r id = Some i -> instance_ok i /\ i ∈ rg_Instances r /\ pi_ID i = id.
Proof.
  intros Hr Hi. apply find_instance_elem in Hi as [Hi Hid].
  pose proof (ok_instances r Hr) as Hok. rewrite Forall_forall in Hok. auto.
Qed.

Lemma bindings_nil r id :
  (length (BindingsForProviderInstance r id) != 0%nat) = false <-> ~ bound_to (rg_Bindings r) (TrimSpace id).
Proof.
  rewrite neqb_false, length_zero_iff_nil. unfold BindingsForProviderInstance, bound_to. split.
  - intros Hn (b & Hb & Hid). apply (not_elem_of_nil b). rewrite <- Hn, elem_of_filter_true, eqb_true. done.
  - intros Hn. destruct (List.filter _ _) as [|b bs] eqn:Hf; [done|]. destruct Hn. exists b.
    assert (b ∈ b :: bs) as Hb by left. rewrite <- Hf, elem_of_filter_true, eqb_true in Hb. tauto.
Qed.

(** An external instance can be removed exactly when it exists and nothing is
    bound to it; then it alone disappears and the registry stays valid, and
    otherwise nothing changes. *)
Theorem UnregisterExternal_valid r id r' res :
  Registry_Validate r = Ok tt -> UnregisterExternal_at r id = (r', res) ->
  Registry_Validate r' = Ok tt /\
  (res = Ok tt <-> (exists i, Registry_instance r (TrimSpace id) = Some i /\ pi_Scope i = ScopeExternal) /\
                   ~ bound_to (rg_Bindings r) (TrimSpace id)) /\
  match res with
  | Err _ => r' = r
  | Ok _ => rg_Bindings r' = rg_Bindings r /\
      forall i, i ∈ rg_Instances r' <-> i ∈ rg_Instances r /\ pi_ID i <> TrimSpace id
  end.
Proof.
  rewrite Registry_Validate_ok. intros Hr. unfold UnregisterExternal_at.
  case_bool_decide as Hblank.
  { intros [= <- <-]. rewrite Registry_Validate_ok. split_and!; [done| |done].
    split; [done|]. intros ((i & Hi & _) & _). destruct (registry_instance_ok r _ i Hr Hi) as ((Hb & _) & _ & Hid).
    destruct Hb. unfold blank. by rewrite Hid, TrimSpace_idem. }
  destruct (Registry_instance r (TrimSpace id)) as [i|] eqn:Hi;
    [|intros [= <- <-]; rewrite Registry_Validate_ok; split_and!; [done|naive_solver|done]].
  destruct (registry_instance_ok r _ i Hr Hi) as (Hok & Hin & Hid).
  assert ((pi_Scope i != ScopeExternal) || (pi_Ownership i != ProviderOwnedExternally) =
    (pi_Scope i != ScopeExternal)) as ->.
  { pose proof (external_ownership i Hok) as Ho.
    repeat case_bool_decide; simpl; tauto. }
  case_bool_decide as Hext; simpl;
    [|intros [= <- <-]; rewrite Registry_Validate_ok; split_and!; [done|naive_solver|done]].
  destruct (length _ != 0%nat) eqn:Hb;
    [|apply bindings_nil in Hb; rewrite TrimSpace_idem in Hb]; intros [= <- <-]; rewrite Registry_Validate_ok.
  - split_and!; [done| |done]. split; [done|]. intros [_ Hn].
    rewrite (proj2 (bindings_nil r (TrimSpace id))) in Hb; [done|by rewrite TrimSpace_idem].
  - simpl. split_and!; [|split; [split; [by exists i|done]|done]|done|].
    + rewrite <- (List.filter_true (rg_Bindings r)). apply shrink_ok; [done|].
      rewrite List.filter_true. intros j Hj Hbound. apply neqb_true. intros Heq. by rewrite Heq in Hbound.
    + intros j. simpl. rewrite elem_of_filter_true, neqb_true. tauto.
Qed.

Lemma UnregisterExternal_valid_witness :
  Registry_Validate (fst (UnregisterExternal_at sample_registry "keycloak/byo")) = Ok tt.
Proof.
  refine (proj1 (UnregisterExternal_valid sample_registry "keycloak/byo" _ (Ok tt) _ _)).
  - vm_compute. reflexivity.
  - vm_compute. reflexivity.
Defined.

(** ** Release *)

Lemma keep_instance_true referenced applicationID i :
  instance_ok i ->
  (keep_instance referenced applicationID i = true <-> pi_ID i ∈ referenced \/ ~ releasable applicationID i).
Proof.
  intros Hok. pose proof (baseharbor_ownership i Hok) as Ho. unfold keep_instance, releasable.
  case_bool_decide as Hb; simpl.
  2:{ split; [|done]. intros _. right. intros [Hs|[Hs _]]; apply Hb, Ho; rewrite Hs; done. }
  apply Ho in Hb. case_bool_decide as Hr; [naive_solver|].
  case_bool_decide as Hsh; [naive_solver|]. case_bool_decide as Ha.
  - rewrite negb_true_iff, eqb_false. naive_solver.
  - naive_solver.
Qed.

(** Every release filters the bindings and then drops what became unbound. *)
Lemma release_spec r applicationID g :
  registry_ok r ->
  let r' := removeUnboundOwnedInstances
    (mkRegistry (rg_Version r) (rg_Instances r) (List.filter g (rg_Bindings r))) applicationID in
  registry_ok r' /\ releases r r' applicationID (fun b => g b = true).
Proof.
  intros Hr r'. unfold r', removeUnboundOwnedInstances. simpl.
  pose proof (ok_instances r Hr) as Hok. rewrite Forall_forall in Hok.
  assert (Hk : forall i, i ∈ rg_Instances r ->
    (keep_instance (list_to_set (map pb_ProviderInstanceID (List.filter g (rg_Bindings r)))) applicationID i = true <->
     bound_to (List.filter g (rg_Bindings r)) (pi_ID i) \/ ~ releasable applicationID i)).
  { intros i Hi. rewrite keep_instance_true by auto. by rewrite elem_of_list_to_set, bound_to_spec. }
  split.
  - apply shrink_ok; [done|]. intros i Hi Hb. apply Hk; [done|by left].
  - split_and!; simpl; [done| |].
    + intros b. rewrite elem_of_filter_true. tauto.
    + intros i. rewrite elem_of_filter_true. specialize (Hk i). tauto.
Qed.

Lemma is_external_binds r b :
  registry_ok r -> (is_external (Registry_instance r (pb_ProviderInstanceID b)) = true <-> binds_external r b).
Proof.
  intros Hr. unfold is_external, binds_external.
  destruct (Registry_instance r (pb_ProviderInstanceID b)) as [i|] eqn:Hi; [|naive_solver].
  apply registry_instance_ok in Hi as (Hok & _ & _); [|done].
  rewrite eqb_true, (external_ownership i Hok). naive_solver.
Qed.

Lemma releases_iff r r' applicationID P Q :
  releases r r' applicationID P -> (forall b, P b <-> Q b) -> releases r r' applicationID Q.
Proof. intros (Hv & Hb & Hi) HPQ. split_and!; [done| |done]. intros b. rewrite Hb, HPQ. done. Qed.

Lemma ReleaseApplication_releases r applicationID :
  registry_ok r ->
  registry_ok (ReleaseApplication r applicationID) /\
  releases r (ReleaseApplication r applicationID) (TrimSpace applicationID)
    (fun b => pb_ApplicationID b <> TrimSpace applicationID).
Proof.
  intros Hr. destruct (release_spec r (TrimSpace applicationID)
    (fun b => pb_ApplicationID b != TrimSpace applicationID) Hr) as [Hok Hrel].
  split; [done|]. eapply releases_iff; [done|]. intros b. by rewrite neqb_true.
Qed.

Lemma ReleaseManagedApplication_releases r applicationID :
  registry_ok r ->
  registry_ok (ReleaseManagedApplication r applicationID) /\
  releases r (ReleaseManagedApplication r applicationID) (TrimSpace applicationID)
    (fun b => pb_ApplicationID b <> TrimSpace applicationID \/ binds_external r b).
Proof.
  intros Hr. destruct (release_spec r (TrimSpace applicationID)
    (keep_managed_application r (TrimSpace applicationID)) Hr) as [Hok Hrel].
  split; [done|]. eapply releases_iff; [done|]. intros b. unfold keep_managed_application.
  rewrite <- (is_external_binds r b Hr). case_bool_decide; simpl; [|naive_solver].
  split; [by right|by intros [?|?]].
Qed.

Lemma releaseDeployment_releases r applicationID environment preserveExternal :
  registry_ok r ->
  registry_ok (releaseDeployment r applicationID environment preserveExternal) /\
  releases r (releaseDeployment r applicationID environment preserveExternal) (TrimSpace applicationID)
    (fun b => pb_ApplicationID b <> TrimSpace applicationID \/
      (~ blank (pb_Environment b) /\ TrimSpace (pb_Environment b) <> TrimSpace environment) \/
      (preserveExternal = true /\ binds_external r b)).
Proof.
  intros Hr. destruct (release_spec r (TrimSpace applicationID)
    (keep_deployment r (TrimSpace applicationID) (TrimSpace environment) preserveExternal) Hr) as [Hok Hrel].
  split; [done|]. eapply releases_iff; [done|]. intros b. unfold keep_deployment, blank.
  rewrite <- (is_external_binds r b Hr). case_bool_decide as Ha; simpl; [|naive_solver].
  destruct (_ && _) eqn:Hc.
  - rewrite andb_true_iff, !neqb_true in Hc. tauto.
  - rewrite andb_false_iff, !neqb_false in Hc. destruct preserveExternal; naive_solver.
Qed.

(** Releasing an application keeps a valid registry valid and removes exactly
    the application's bindings (its bindings to external instances excepted
    when only managed providers are released) and then the BaseHarbor-owned
    instances left without a binding that are shared or dedicated to the
    application. *)
Theorem ReleaseApplication_exact r applicationID :
  Registry_Validate r = Ok tt ->
  (Registry_Validate (ReleaseApplication r applicationID) = Ok tt /\
   releases r (ReleaseApplication r applicationID) (TrimSpace applicationID)
     (fun b => pb_ApplicationID b <> TrimSpace applicationID)) /\
  (Registry_Validate (ReleaseManagedApplication r applicationID) = Ok tt /\
   releases r (ReleaseManagedApplication r applicationID) (TrimSpace applicationID)
     (fun b => pb_ApplicationID b <> TrimSpace applicationID \/ binds_external r b)).
Proof.
  intros Hr%Registry_Validate_ok.
  split; [rewrite Registry_Validate_ok; by apply ReleaseApplication_releases|].
  rewrite Registry_Validate_ok. by apply ReleaseManagedApplication_releases.
Qed.

Lemma ReleaseApplication_exact_witness :
  Registry_Validate (ReleaseManagedApplication sample_registry sample_uuid) = Ok tt.
Proof.
  refine (proj1 (proj2 (ReleaseApplication_exact sample_registry sample_uuid _))).
  vm_compute. reflexivity.
Defined.

(** Releasing one deployment is the same with the bindings of the application
    in that environment and those without an environment: bindings of other
    applications and other environments are never touched. *)
Theorem releaseDeployment_exact r applicationID environment preserveExternal :
  Registry_Validate r = Ok tt ->
  Registry_Validate (releaseDeployment r applicationID environment preserveExternal) = Ok tt /\
  releases r (releaseDeployment r applicationID environment preserveExternal) (TrimSpace applicationID)
    (fun b => pb_ApplicationID b <> TrimSpace applicationID \/
      (~ blank (pb_Environment b) /\ TrimSpace (pb_Environment b) <> TrimSpace environment) \/
      (preserveExternal = true /\ binds_external r b)).
Proof.
  intros Hr%Registry_Validate_ok. rewrite Registry_Validate_ok. by apply releaseDeployment_releases.
Qed.

Lemma releaseDeployment_exact_witness :
  Registry_Validate (ReleaseManagedDeployment sample_registry sample_uuid "prod") = Ok tt.
Proof.
  refine (proj1 (releaseDeployment_exact sample_registry sample_uuid "prod" true _)).
  vm_compute. reflexivity.
Defined.

(** C8: After a release every other application still finds its providers: each of
    its bindings, and the instance it leads to, are as before. *)
Theorem release_isolation r r' applicationID environment preserveExternal b :
  Registry_Validate r = Ok tt ->
  r' = ReleaseApplication r applicationID \/ r' = ReleaseManagedApplication r applicationID \/
  r' = releaseDeployment r applicationID environment preserveExternal ->
  b ∈ rg_Bindings r -> pb_ApplicationID b <> TrimSpace applicationID ->
  b ∈ rg_Bindings r' /\
  Registry_instance r' (pb_ProviderInstanceID b) = Registry_instance r (pb_ProviderInstanceID b).
Proof.
  intros Hv%Registry_Validate_ok Hr' Hb Happ.
  assert (exists P, registry_ok r' /\ releases r r' (TrimSpace applicationID) P /\ P b)
    as (P & Hv' & (_ & Hbs & His) & HP).
  { destruct (ReleaseApplication_releases r applicationID Hv).
    destruct (ReleaseManagedApplication_releases r applicationID Hv).
    destruct (releaseDeployment_releases r applicationID environment preserveExternal Hv).
    destruct Hr' as [->|[->| ->]]; eexists; (split_and!; [done..|by (left || idtac)]). }
  assert (b ∈ rg_Bindings r') as Hb' by (by apply Hbs).
  split; [done|].
  pose proof (ok_bindings r Hv) as Hok. rewrite Forall_forall in Hok.
  destruct (Hok b Hb) as (_ & i & Hi & _). unfold Registry_instance. rewrite Hi.
  apply find_instance_elem in Hi as [Hi Hid].
  apply find_instance_NoDup; [apply Hv'|]. split; [|done]. apply His. split; [done|].
  left. exists b. done.
Qed.

Lemma release_isolation_witness :
  let b := mkBinding sample_uuid (sample_resource Secrets ProviderOpenBao) "" "openbao/control-plane" in
  b ∈ rg_Bindings (ReleaseApplication sample_registry "other") /\
  Registry_instance (ReleaseApplication sample_registry "other") "openbao/control-plane" = Some sample_secrets.
Proof.
  refine (release_isolation sample_registry _ "other" "" true
    (mkBinding sample_uuid (sample_resource Secrets ProviderOpenBao) "" "openbao/control-plane") _ _ _ _).
  - vm_compute. reflexivity.
  - left. reflexivity.
  - right. left.
  - vm_compute. discriminate.
Defined.

(** ** Application lifecycle *)

(** The loop collects the instances the application is bound to, each once. *)
Lemma lifecycle_loop r applicationID operation bindings seen actions :
  (forall b, b ∈ bindings -> is_Some (Registry_instance r (pb_ProviderInstanceID b))) ->
  exists seen' found,
    forE (lifecycle_step r applicationID operation) (seen, actions) bindings =
      Ok (seen', actions ++ map (lifecycle_action applicationID operation) found) /\
    NoDup (map pi_ID found) /\
    forall i, i ∈ found <-> pi_ID i ∉ seen /\
      exists b, b ∈ bindings /\ pb_ApplicationID b = applicationID /\
        Registry_instance r (pb_ProviderInstanceID b) = Some i.
Proof.
  revert seen actions. induction bindings as [|b bs IH]; intros seen actions Hall.
  { exists seen, []. simpl. rewrite app_nil_r. split_and!; [done|constructor|]. set_solver. }
  rewrite forE_cons. unfold lifecycle_step at 2. setoid_rewrite elem_of_cons.
  assert (Hbs : forall c, c ∈ bs -> is_Some (Registry_instance r (pb_ProviderInstanceID c))).
  { intros c Hc. apply Hall. by right. }
  destruct (Hall b) as [j Hj]; [left|]. apply find_instance_elem in Hj as Hj'. destruct Hj' as [_ Hid].
  case_bool_decide as Happ; simpl; [|destruct (IH seen actions Hbs) as (s & f & -> & Hnd & Hf);
    exists s, f; split_and!; [done..|]; intros i; rewrite Hf; naive_solver].
  destruct (decide _) as [Hin|Hin]; simpl.
  - destruct (IH seen actions Hbs) as (s & f & -> & Hnd & Hf).
    exists s, f. split_and!; [done..|]. intros i. rewrite Hf. split; [naive_solver|].
    intros (Hi & c & [->|Hc] & Hca & Hci); [|eauto]. rewrite Hj in Hci. injection Hci as <-.
    by rewrite Hid in Hi.
  - rewrite Hj. simpl.
    destruct (IH ({[pi_ID j]} ∪ seen) (actions ++ [lifecycle_action applicationID operation j]) Hbs)
      as (s & f & -> & Hnd & Hf).
    exists s, (j :: f). simpl. rewrite <- app_assoc. split_and!; [done| |].
    + apply NoDup_cons. split; [|done]. intros (k & Hk & Hkf)%list_elem_of_fmap.
      apply Hf in Hkf as [Hkn _]. rewrite Hk in Hkn. set_solver.
    + intros i. rewrite elem_of_cons, Hf. split.
      * intros [->|(Hi & c & Hc & Hca & Hci)]; [rewrite Hid; eauto 10|].
        split; [set_solver|]. eauto 10.
      * intros (Hi & c & [->|Hc] & Hca & Hci); [left; congruence|].
        destruct (decide (pi_ID i = pi_ID j)) as [Heq|Hne]; [left|right; split; [set_solver|eauto]].
        apply find_instance_elem in Hci as Hci'. destruct Hci' as [_ Hcid].
        rewrite Hcid, Hid in Heq. rewrite Heq in Hci. congruence.
Qed.

Lemma lifecycle_action_request applicationID operation i :
  instance_ok i -> lifecycle_request applicationID operation (lifecycle_action applicationID operation i) i.
Proof.
  intros Hok. constructor; simpl; [done..| |apply eqb_true].
  rewrite !andb_true_iff, !eqb_true, (baseharbor_ownership i Hok).
  split; [tauto|]. intros [Hs Ho]. split_and!; [done|by rewrite Hs|done].
Qed.

(** On a valid registry the lifecycle of an application never fails for a
    supported operation: it answers, in the order of the identifiers, one
    action for each instance the application is bound to and for no other; the
    provider itself is mutated only when it is dedicated to the application, and
    bindings are removed only on destruction. *)
Theorem ApplicationLifecycle_exact r applicationID operation :
  Registry_Validate r = Ok tt -> valid_uuid applicationID = true ->
  operation ∈ [LifecycleUpdate; LifecycleBackup; LifecycleDestroy] ->
  exists actions, ApplicationLifecycle r applicationID operation = Ok actions /\
    StronglySorted (fun a b => String.le (la_ProviderInstanceID a) (la_ProviderInstanceID b)) actions /\
    NoDup (map la_ProviderInstanceID actions) /\
    (forall a, a ∈ actions -> exists i, i ∈ rg_Instances r /\
       lifecycle_request (TrimSpace applicationID) operation a i) /\
    (forall id, id ∈ map la_ProviderInstanceID actions <->
       exists b, b ∈ rg_Bindings r /\ pb_ApplicationID b = TrimSpace applicationID /\
         pb_ProviderInstanceID b = id).
Proof.
  intros Hr%Registry_Validate_ok Hu Hop. set (app := TrimSpace applicationID).
  assert (valid_uuid app = true) as Hu'.
  { rewrite valid_uuid_shape in *. unfold app. by rewrite TrimSpace_idem. }
  pose proof (ok_bindings r Hr) as Hb. rewrite Forall_forall in Hb.
  destruct (lifecycle_loop r app operation (rg_Bindings r) ∅ []) as (s & found & Hloop & Hnd & Hf).
  { intros b Hin. destruct (Hb b Hin) as (_ & i & Hi & _). by exists i. }
  exists (sort_by la_ProviderInstanceID (map (lifecycle_action app operation) found)).
  assert (Hids : map la_ProviderInstanceID (map (lifecycle_action app operation) found) = map pi_ID found).
  { rewrite map_map. done. }
  split_and!.
  - unfold ApplicationLifecycle. fold app. rewrite ValidateUUIDv4_seq. split; [done|].
    rewrite reject_seq_Ok, bool_decide_eq_false. split; [by intros []|]. by rewrite Hloop.
  - apply sort_by_sorted.
  - rewrite (Permutation_map la_ProviderInstanceID (sort_by_Permutation _ _)). by rewrite Hids.
  - intros a (i & -> & Hi)%elem_of_sort_by%list_elem_of_fmap. exists i.
    apply Hf in Hi as (_ & b & _ & _ & Hi). apply registry_instance_ok in Hi as (Hok & Hin & _); [|done].
    split; [done|]. by apply lifecycle_action_request.
  - intros id.
    trans (id ∈ map pi_ID found).
    { rewrite <- Hids, !list_elem_of_fmap. by setoid_rewrite elem_of_sort_by. }
    rewrite list_elem_of_fmap. setoid_rewrite Hf. split.
    + intros (i & -> & _ & b & Hin & Ha & Hi). exists b. split_and!; [done..|].
      by apply find_instance_elem in Hi as [_ ->].
    + intros (b & Hin & Ha & <-). destruct (Hb b Hin) as (_ & i & Hi & _). exists i.
      apply find_instance_elem in Hi as Hid. destruct Hid as [_ ->]. split; [done|].
      split; [set_solver|]. exists b. done.
Qed.

Lemma ApplicationLifecycle_exact_witness :
  exists actions, ApplicationLifecycle sample_registry sample_uuid LifecycleDestroy = Ok actions.
Proof.
  refine (match ApplicationLifecycle_exact sample_registry sample_uuid LifecycleDestroy _ _ _ with
          | ex_intro _ actions (conj H _) => ex_intro _ actions H end).
  - vm_compute. reflexivity.
  - vm_compute. reflexivity.
  - right. right. left.
Defined.

(** ** Resolution *)

Lemma filter_singleton {A} (f : A -> bool) l x : List.filter f l = [x] -> x ∈ l /\ f x = true.
Proof.
  intros Hf. assert (x ∈ List.filter f l) as Hx by (rewrite Hf; left).
  apply elem_of_filter_true in Hx. tauto.
Qed.


(** On a valid registry a shared placement is never ambiguous: resolving it
    finds an instance exactly when one serves the provider kind and the sharing
    boundary, and it is that one. *)
Theorem ResolvePlacement_shared r provider placement applicationID i :
  Registry_Validate r = Ok tt -> ProviderPlacement_Validate placement = Ok tt -> pl_Scope placement = ScopeShared ->
  (ResolvePlacement r provider placement applicationID = Ok i <->
   shared_at r provider (pl_SharingBoundary placement) i).
Proof.
  intros Hr%Registry_Validate_ok Hp Hs. unfold ResolvePlacement. rewrite Hp. simpl.
  set (f := placement_match _ _ _ _ _).
  assert (Hf : forall j, f j = true <-> pr_Kind (pi_Provider j) = provider /\ pi_Scope j = ScopeShared /\
    TrimSpace (pi_SharingBoundary j) = TrimSpace (pl_SharingBoundary placement)).
  { intros j. unfold f, placement_match. rewrite Hs. rewrite bool_decide_true with (P := ScopeShared = ScopeShared) by done.
    destruct (_ || _) eqn:Hc.
    - rewrite orb_true_iff, !neqb_true in Hc. split; [done|tauto].
    - rewrite orb_false_iff, !neqb_false in Hc. rewrite eqb_true. tauto. }
  unfold shared_at. split.
  - intros H. destruct (List.filter f (rg_Instances r)) as [|x [|y l]] eqn:Hl; [done| |done].
    injection H as ->. apply filter_singleton in Hl as [Hx Hfx]. by apply Hf in Hfx.
  - intros (Hi & Hfi). rewrite (filter_unique f (rg_Instances r) i); [done| |done|by apply Hf|].
    { eapply NoDup_fmap_1, (ok_ids r Hr). }
    intros j Hj Hfj. apply Hf in Hfj as (Hk & Hsh & Hb). destruct Hfi as (Hki & Hshi & Hbi).
    apply (NoDup_map_inj shared_key (List.filter is_shared (rg_Instances r))); [apply Hr| | |].
    + apply elem_of_filter_true. split; [by apply eqb_true|done].
    + apply elem_of_filter_true. split; [by apply eqb_true|done].
    + unfold shared_key. by rewrite Hk, Hki, Hb, Hbi.
Qed.

Lemma ResolvePlacement_shared_witness :
  ResolvePlacement sample_registry ProviderOpenBao (mkPlacement ScopeShared "" ProviderOwnedByBaseHarbor "") "" = Ok sample_secrets.
Proof.
  refine (proj2 (ResolvePlacement_shared sample_registry ProviderOpenBao (mkPlacement ScopeShared "" ProviderOwnedByBaseHarbor "") ""
    sample_secrets _ _ _) _).
  - vm_compute. reflexivity.
  - vm_compute. reflexivity.
  - reflexivity.
  - split_and!; [left|reflexivity..].
Defined.
