(* ===== verification/FileSystem.v ===== *)
(** * The file system the code acts on

    Regular files by path, and the operations of Go's os package the code
    uses.  Any operation may fail: which ones do, and what a failed write
    leaves behind, is an interface, so every theorem holds for all faults.
    Directories are not represented: creating one succeeds or fails. *)

From S2P Require Import Prelude GoStrings.

(** ** State *)

(** [f_Regular] is false for links, directories and devices. *)
Record file := mkFile {
  f_Data : string;
  f_Regular : bool;
  f_Perm : Z }.

Abbreviation fsys := (gmap string file).

(** An error with what [errors.Is(err, os.ErrNotExist)] says of it. *)
Record os_error := mkOsError {
  oe_text : error;
  oe_NotExist : bool }.

Inductive operation : Type :=
| OpLstat (path : string)
| OpRead (path : string)
| OpMkdirAll (path : string)
| OpOpenLock (path : string)
| OpFlock (path : string)
| OpWrite (path : string)
| OpChmod (path : string)
| OpRename (old new : string)
| OpRemove (path : string)
| OpCreateTemp (dir : string)
| OpSync (path : string)
| OpClose (path : string)
| OpOpen (path : string).

(** Which operations fail, and the file a failed write leaves. *)
Class OS := mkOS {
  os_fault : operation -> option error;
  os_torn : string -> option file -> option file }.

Section os.
Context {os : OS}.

Definition not_exist (path : string) : os_error :=
  mkOsError (Errorf "open %s: no such file or directory" [AStr path]) true.

Definition Lstat (fs : fsys) (path : string) : result os_error file :=
  match os_fault (OpLstat path) with
  | Some err => Err (mkOsError err false)
  | None => match fs !! path with Some f => Ok f | None => Err (not_exist path) end
  end.

Definition ReadFile (fs : fsys) (path : string) : result os_error string :=
  match os_fault (OpRead path) with
  | Some err => Err (mkOsError err false)
  | None => match fs !! path with Some f => Ok (f_Data f) | None => Err (not_exist path) end
  end.

(** An operation that changes no file. *)
Definition attempt (op : operation) : result error unit :=
  match os_fault op with Some err => Err err | None => Ok tt end.

(** [os.WriteFile] creates the file with the permissions or truncates it and
    keeps its own; a failure may leave it in any state. *)
Definition WriteFile (fs : fsys) (path data : string) (perm : Z) : fsys * result error unit :=
  match os_fault (OpWrite path) with
  | Some err => (partial_alter (fun _ => os_torn path (fs !! path)) path fs, Err err)
  | None =>
      let perm := match fs !! path with Some f => f_Perm f | None => perm end in
      (<[path := mkFile data true perm]> fs, Ok tt)
  end.

Definition Chmod (fs : fsys) (path : string) (perm : Z) : fsys * result error unit :=
  match os_fault (OpChmod path) with
  | Some err => (fs, Err err)
  | None => (alter (fun f => mkFile (f_Data f) (f_Regular f) perm) path fs, Ok tt)
  end.

(** [os.Rename] replaces the target atomically. *)
Definition Rename (fs : fsys) (old new : string) : fsys * result error unit :=
  match os_fault (OpRename old new), fs !! old with
  | Some err, _ => (fs, Err err)
  | None, None => (fs, Err (Errorf "rename %s %s: no such file or directory" [AStr old; AStr new]))
  | None, Some f => (<[new := f]> (delete old fs), Ok tt)
  end.

(** [_ = os.Remove(path)] *)
Definition Remove (fs : fsys) (path : string) : fsys :=
  match os_fault (OpRemove path) with Some _ => fs | None => delete path fs end.

(** ** The disk and its history

    The files, and the states they went through, the last one first: what
    another process, or this one after a crash, could find. *)
Record disk := mkDisk {
  dk_Files : fsys;
  dk_History : list fsys }.

(** A step that leaves the files [fs]. *)
Definition visit (d : disk) (fs : fsys) : disk := mkDisk fs (fs :: dk_History d).

(** 0o600 *)
Definition owner_only : Z := 384.

(** ** Replacing a file through a temporary one

    The idiom of the stores: write [path + ".tmp"], restrict its permissions,
    rename it over [path], and remove it when one of the last two fails.  The
    messages of the three failures are arguments. *)
Definition replace_via (write_error chmod_error rename_error : error -> error) (path data : string) (d : disk)
    : disk * result error unit :=
  let tmp := path +:+ ".tmp" in
  let '(fs, written) := WriteFile (dk_Files d) tmp data owner_only in
  let d := visit d fs in
  match written with
  | Err err => (d, Err (write_error err))
  | Ok _ =>
      let '(fs, secured) := Chmod (dk_Files d) tmp owner_only in
      let d := visit d fs in
      match secured with
      | Err err => (visit d (Remove (dk_Files d) tmp), Err (chmod_error err))
      | Ok _ =>
          let '(fs, renamed) := Rename (dk_Files d) tmp path in
          let d := visit d fs in
          match renamed with
          | Err err => (visit d (Remove (dk_Files d) tmp), Err (rename_error err))
          | Ok _ => (d, Ok tt)
          end
      end
  end.

(** The durable form of the idiom: a temporary file of a fresh name, its
    permissions, its contents, a sync of the file and, after the rename, of the
    directory.  A failure of the last two leaves the new file in place. *)
Definition fill_temp (tmp data : string) (d : disk) : disk * result error unit :=
  let '(fs, secured) := Chmod (dk_Files d) tmp owner_only in
  let d := visit d fs in
  match secured with
  | Err err => (d, Err err)
  | Ok _ =>
      let '(fs, written) := WriteFile (dk_Files d) tmp data owner_only in
      let d := visit d fs in
      match written with
      | Err err => (d, Err err)
      | Ok _ => (d, attempt (OpSync tmp))
      end
  end.

(** Up to the renaming, before which [ready] checks the files.  The messages of
    a failed creation and of a failed renaming are arguments. *)
Definition rename_filled_via (create_error rename_error : error -> error) (ready : fsys -> result error unit)
    (dir tmp path data : string) (d : disk) : disk * result error unit :=
  match attempt (OpCreateTemp dir) with
  | Err err => (d, Err (create_error err))
  | Ok _ =>
      let d := visit d (<[tmp := mkFile "" true owner_only]> (dk_Files d)) in
      let '(d, filled) := fill_temp tmp data d in
      match filled ;; attempt (OpClose tmp) ;; ready (dk_Files d) with
      | Err err => (visit d (Remove (dk_Files d) tmp), Err err)
      | Ok _ =>
          let '(fs, renamed) := Rename (dk_Files d) tmp path in
          let d := visit d fs in
          match renamed with
          | Err err => (visit d (Remove (dk_Files d) tmp), Err (rename_error err))
          | Ok _ => (d, Ok tt)
          end
      end
  end.

Definition rename_filled : (fsys -> result error unit) -> string -> string -> string -> string -> disk -> disk * result error unit :=
  rename_filled_via (fun err => err) (fun err => err).

Definition replace_checked (ready : fsys -> result error unit) (dir tmp path data : string) (d : disk)
    : disk * result error unit :=
  let '(d, renamed) := rename_filled ready dir tmp path data d in
  (d, renamed ;; attempt (OpOpen dir) ;; attempt (OpSync dir)).

Definition replace_synced : string -> string -> string -> string -> disk -> disk * result error unit :=
  replace_checked (fun _ => Ok tt).

(** [os.OpenFile] with [O_CREATE|O_EXCL]: the file must not exist. *)
Definition create_exclusive (path : string) (d : disk) : disk * result error unit :=
  match os_fault (OpOpenLock path) with
  | Some err => (d, Err err)
  | None =>
      match dk_Files d !! path with
      | Some _ => (d, Err (Errorf "open %s: file exists" [AStr path]))
      | None => (visit d (<[path := mkFile "" true owner_only]> (dk_Files d)), Ok tt)
      end
  end.

(** A file that is written once: created, its contents and a sync of the file;
    in the durable form also of its directory.  A failure leaves what was
    written. *)
Definition create_filled (path data : string) (d : disk) : disk * result error unit :=
  let '(d, created) := create_exclusive path d in
  match created with
  | Err err => (d, Err err)
  | Ok _ =>
      let '(fs, written) := WriteFile (dk_Files d) path data owner_only in
      (visit d fs, written ;; attempt (OpSync path))
  end.

Definition create_synced (dir path data : string) (d : disk) : disk * result error unit :=
  let '(d, filled) := create_filled path data d in
  (d, filled ;; attempt (OpClose path) ;; attempt (OpOpen dir) ;; attempt (OpSync dir)).
End os.

(** What [os.Lstat] says of a directory: whether it is one, and its
    permissions. *)
Class Dirs := dir_info : string -> result os_error (bool * Z).

(** The name [os.CreateTemp] chooses for a directory and a pattern. *)
Class TempNames := temp_name : string -> string -> string.

(** 0o077 *)
Definition shared_bits : Z := 63.

(** ** Atomicity

    The states from [d] to [d'] hold at [path] what [d] held, or the file
    [new] if there is one; no path changes besides [path] and those of [side]. *)
Definition atomic (path : string) (side : list string) (new : option file) (d d' : disk) : Prop :=
  exists visited, dk_History d' = visited ++ dk_History d /\
    dk_Files d' ∈ dk_Files d :: visited /\
    Forall (fun fs => fs !! path = dk_Files d !! path \/ (is_Some new /\ fs !! path = new)) visited /\
    Forall (fun fs => forall p, p ∉ path :: side -> fs !! p = dk_Files d !! p) visited.

Section atomic.
Context (path : string) (side : list string).
Context `{OS}.

Lemma atomic_refl new d : atomic path side new d d.
Proof. exists []. split_and!; [done|left|constructor|constructor]. Qed.

Lemma atomic_visit new d fs :
  (fs !! path = dk_Files d !! path \/ (is_Some new /\ fs !! path = new)) ->
  (forall p, p ∉ path :: side -> fs !! p = dk_Files d !! p) ->
  atomic path side new d (visit d fs).
Proof.
  intros Hp Ho. exists [fs]. split_and!; [done|right; left|by constructor|by constructor].
Qed.

Lemma atomic_None new d d' : atomic path side None d d' -> atomic path side new d d'.
Proof.
  intros (v & Hv & Hd & Hp & Ho). exists v. split_and!; [done..| |done].
  eapply Forall_impl; [exact Hp|]. by intros fs [Hfs|[[? ?] _]]; [left|].
Qed.

Lemma atomic_side side' new d d' : side ⊆ side' -> atomic path side new d d' -> atomic path side' new d d'.
Proof.
  intros Hs (v & Hv & Hd & Hp & Ho). exists v. split_and!; [done..|].
  eapply Forall_impl; [exact Ho|]. intros fs Hfs p Hpn. apply Hfs. set_solver.
Qed.

(** Atomic steps compose as long as the file has not been replaced. *)
Lemma atomic_trans new d d' d'' :
  dk_Files d' !! path = dk_Files d !! path ->
  atomic path side new d d' -> atomic path side new d' d'' -> atomic path side new d d''.
Proof.
  intros Hp (v & Hv & Hd & Hvp & Hvo) (w & Hw & Hd' & Hwp & Hwo).
  assert (Ho : forall p, p ∉ path :: side -> dk_Files d' !! p = dk_Files d !! p).
  { apply elem_of_cons in Hd as [->|Hd]; [done|]. rewrite Forall_forall in Hvo. by apply Hvo. }
  exists (w ++ v). rewrite Hw, Hv, app_assoc. split_and!; [done| | |].
  - apply elem_of_cons in Hd' as [->|Hd']; set_solver.
  - apply Forall_app. split; [|done]. eapply Forall_impl; [exact Hwp|]. intros fs. simpl. by rewrite Hp.
  - apply Forall_app. split; [|done]. eapply Forall_impl; [exact Hwo|]. intros fs Hfs p ?.
    rewrite Hfs by done. by apply Ho.
Qed.
End atomic.

(** ** The replacement is atomic *)

Lemma suffix_neq (s t : string) : t <> "" -> s <> s +:+ t.
Proof.
  intros Ht Heq. assert (strlen s = strlen (s +:+ t)) as Hl by (by rewrite <- Heq).
  rewrite strlen_app in Hl. destruct t; [done|]. unfold strlen in Hl. simpl in Hl. lia.
Qed.

Section replace.
Context {os : OS} (path tmp : string) (tmp_neq : path <> tmp).

(** Files that differ from [d] at the temporary path only. *)
Definition only_tmp (d : disk) (fs : fsys) : Prop :=
  forall p, p <> tmp -> fs !! p = dk_Files d !! p.

Lemma atomic_tmp new d visited final :
  Forall (only_tmp d) visited -> final ∈ dk_Files d :: visited ->
  atomic path [tmp] new d (mkDisk final (visited ++ dk_History d)) /\ final !! path = dk_Files d !! path.
Proof.
  intros Hv Hf. split.
  - exists visited. split_and!; [done|done| |]; (eapply Forall_impl; [exact Hv|]); intros fs Hfs.
    + left. apply Hfs, tmp_neq.
    + intros p Hp. apply Hfs. set_solver.
  - apply elem_of_cons in Hf as [->|Hf]; [done|]. rewrite Forall_forall in Hv. apply (Hv _ Hf), tmp_neq.
Qed.

(** The steps of [replace_via] that only touch the temporary file. *)
Lemma only_tmp_write d data perm : only_tmp d (fst (WriteFile (dk_Files d) tmp data perm)).
Proof.
  intros p Hp. unfold WriteFile. destruct (os_fault _); simpl.
  - by apply lookup_partial_alter_ne.
  - by apply lookup_insert_ne.
Qed.

Lemma only_tmp_chmod d fs perm : only_tmp d fs -> only_tmp d (fst (Chmod fs tmp perm)).
Proof.
  intros Hfs p Hp. unfold Chmod. destruct (os_fault _); simpl; [by apply Hfs|].
  rewrite lookup_alter_ne by done. by apply Hfs.
Qed.

Lemma only_tmp_remove d fs : only_tmp d fs -> only_tmp d (Remove fs tmp).
Proof.
  intros Hfs p Hp. unfold Remove. destruct (os_fault _); simpl; [by apply Hfs|].
  rewrite lookup_delete_ne by done. by apply Hfs.
Qed.

Lemma only_tmp_insert d f : only_tmp d (<[tmp := f]> (dk_Files d)).
Proof. intros p Hp. by apply lookup_insert_ne. Qed.

(** Steps that only touched the temporary file, followed by its renaming. *)
Lemma atomic_rename d visited fs f :
  Forall (only_tmp d) visited -> only_tmp d fs -> fs !! tmp = Some f ->
  let fs' := <[path := f]> (delete tmp fs) in
  atomic path [tmp] (Some f) d (mkDisk fs' (fs' :: visited ++ dk_History d)) /\ fs' !! path = Some f.
Proof.
  intros Hv Hfs Htmp fs'. assert (fs' !! path = Some f) as Hp by apply lookup_insert_eq. split; [|done].
  exists (fs' :: visited). split_and!; [done|right; left| |].
  - constructor; [right; split; [by eexists|done]|]. eapply Forall_impl; [exact Hv|]. intros x Hx. left. by apply Hx.
  - constructor.
    + intros p Hpn. unfold fs'. rewrite lookup_insert_ne, lookup_delete_ne by set_solver. apply Hfs. set_solver.
    + eapply Forall_impl; [exact Hv|]. intros x Hx p Hpn. apply Hx. set_solver.
Qed.
End replace.

Section replace_via.
Context {os : OS} (path : string).
Local Abbreviation tmp := (path +:+ ".tmp").
Local Abbreviation atomic_tmp := (atomic_tmp path tmp (suffix_neq path ".tmp" ltac:(done))).
Local Abbreviation only_tmp := (only_tmp tmp).

(** Replacing the file is atomic, and leaves the new one exactly when it
    reports no error. *)
Lemma replace_via_atomic we ce re data d d' res :
  replace_via we ce re path data d = (d', res) ->
  atomic path [tmp] (Some (mkFile data true owner_only)) d d' /\
  dk_Files d' !! path =
    match res with Ok _ => Some (mkFile data true owner_only) | Err _ => dk_Files d !! path end.
Proof.
  unfold replace_via.
  pose proof (only_tmp_write tmp d data owner_only) as H1.
  destruct (WriteFile (dk_Files d) tmp data owner_only) as [fs1 w] eqn:Hw. simpl in H1.
  destruct w as [[]|e]; [|intros [= <- <-]; apply (atomic_tmp _ d [fs1]); [by constructor|set_solver]].
  pose proof (only_tmp_chmod tmp d fs1 owner_only H1) as H2. simpl.
  destruct (Chmod fs1 tmp owner_only) as [fs2 c] eqn:Hc. simpl in H2. simpl.
  destruct c as [[]|e].
  2:{ pose proof (only_tmp_remove tmp d fs2 H2) as H3. intros [= <- <-].
      apply (atomic_tmp _ d [Remove fs2 tmp; fs2; fs1]); [by repeat constructor|set_solver]. }
  assert (Htmp : fs2 !! tmp = Some (mkFile data true owner_only)).
  { revert Hw Hc. unfold WriteFile, Chmod.
    destruct (os_fault (OpWrite tmp)); [done|]. intros [= <-].
    destruct (os_fault (OpChmod tmp)); [done|]. intros [= <-].
    by rewrite lookup_alter, lookup_insert, !decide_True. }
  destruct (Rename fs2 tmp path) as [fs3 r] eqn:Hr. simpl. revert Hr. unfold Rename. rewrite Htmp.
  destruct (os_fault (OpRename tmp path)) as [e|]; intros [= <- <-].
  - pose proof (only_tmp_remove tmp d fs2 H2) as H3. intros [= <- <-].
    apply (atomic_tmp _ d [Remove fs2 tmp; fs2; fs2; fs1]); [by repeat constructor|set_solver].
  - intros [= <- <-]. simpl.
    apply (atomic_rename path tmp (suffix_neq path ".tmp" ltac:(done)) d [fs2; fs1]); [by repeat constructor|done..].
Qed.
End replace_via.

(** ** The durable replacement *)

Section replace_synced.
Context {os : OS} (dir path tmp : string) (tmp_neq : path <> tmp).

Lemma only_tmp_trans d fs fs' : only_tmp tmp d fs -> only_tmp tmp (mkDisk fs []) fs' -> only_tmp tmp d fs'.
Proof. intros H H' p Hp. rewrite H' by done. by apply H. Qed.

Lemma fill_temp_spec data d0 d d' res :
  only_tmp tmp d0 (dk_Files d) -> dk_Files d !! tmp = Some (mkFile "" true owner_only) ->
  fill_temp tmp data d = (d', res) ->
  exists visited, dk_History d' = visited ++ dk_History d /\ dk_Files d' ∈ dk_Files d :: visited /\
    Forall (only_tmp tmp d0) visited /\ (res = Ok tt -> dk_Files d' !! tmp = Some (mkFile data true owner_only)).
Proof.
  intros Hd Htmp. unfold fill_temp. pose proof (only_tmp_chmod tmp d0 (dk_Files d) owner_only Hd) as H1.
  assert (Hperm : forall fs, Chmod (dk_Files d) tmp owner_only = (fs, Ok tt) -> fs !! tmp = Some (mkFile "" true owner_only)).
  { unfold Chmod. destruct (os_fault _); [done|]. intros fs [= <-]. by rewrite lookup_alter, decide_True, Htmp. }
  destruct (Chmod (dk_Files d) tmp owner_only) as [fs1 [[]|e]]; simpl in H1 |- *.
  2:{ intros [= <- <-]. exists [fs1]. split_and!; [done|right; left|by constructor|done]. }
  specialize (Hperm fs1 eq_refl).
  pose proof (only_tmp_trans _ _ _ H1 (only_tmp_write tmp (mkDisk fs1 []) data owner_only)) as H2.
  assert (Hdata : forall fs, WriteFile fs1 tmp data owner_only = (fs, Ok tt) -> fs !! tmp = Some (mkFile data true owner_only)).
  { unfold WriteFile. destruct (os_fault _); [done|]. intros fs [= <-]. by rewrite Hperm, lookup_insert_eq. }
  simpl in H2. destruct (WriteFile fs1 tmp data owner_only) as [fs2 [[]|e]]; simpl in H2 |- *; intros [= <- <-];
    exists [fs2; fs1]; (split_and!; [done|set_solver|by repeat constructor|]); simpl; auto; done.
Qed.

(** The durable replacement is atomic too: it leaves the new file when it
    reports no error, the old or the new one otherwise. *)
Lemma rename_filled_via_atomic ce re ready data d d' res :
  rename_filled_via ce re ready dir tmp path data d = (d', res) ->
  atomic path [tmp] (Some (mkFile data true owner_only)) d d' /\
  match res with
  | Ok _ => dk_Files d' !! path = Some (mkFile data true owner_only) /\
      exists fs, fs !! path = dk_Files d !! path /\ ready fs = Ok tt
  | Err _ => dk_Files d' !! path = dk_Files d !! path
  end.
Proof.
  unfold rename_filled_via. destruct (attempt (OpCreateTemp dir)) as [[]|e].
  2:{ intros [= <- <-]. split; [apply atomic_refl|done]. }
  set (d1 := visit d _). pose proof (only_tmp_insert tmp d (mkFile "" true owner_only)) as H1.
  destruct (fill_temp tmp data d1) as [d2 filled] eqn:Hfill.
  destruct (fill_temp_spec data d d1 d2 filled H1 (lookup_insert_eq _ _ _) Hfill) as (v & Hv & Hin & Ho & Hok).
  assert (Hall : Forall (only_tmp tmp d) (v ++ [dk_Files d1])) by (apply Forall_app; split; [done|by constructor]).
  assert (H2 : only_tmp tmp d (dk_Files d2)).
  { rewrite Forall_forall in Hall. apply Hall. set_solver. }
  assert (Hh : dk_History d2 = (v ++ [dk_Files d1]) ++ dk_History d) by (rewrite Hv, <- app_assoc; done).
  destruct (filled ;; attempt (OpClose tmp) ;; ready (dk_Files d2)) as [[]|e] eqn:Hready.
  2:{ intros [= <- <-]. unfold visit. rewrite Hh.
      apply (atomic_tmp path tmp tmp_neq _ d (_ :: v ++ [dk_Files d1])); [|right; left].
      constructor; [by apply only_tmp_remove|done]. }
  destruct filled as [[]|e]; [|done]. specialize (Hok eq_refl). simpl in Hready.
  destruct (attempt (OpClose tmp)) as [[]|e]; [|done]. simpl in Hready.
  destruct (Rename (dk_Files d2) tmp path) as [fs3 r] eqn:Hr. simpl. revert Hr. unfold Rename. rewrite Hok.
  destruct (os_fault (OpRename tmp path)) as [e|]; intros [= <- <-].
  - intros [= <- <-]. unfold visit. simpl. rewrite Hh.
    apply (atomic_tmp path tmp tmp_neq _ d (_ :: _ :: v ++ [dk_Files d1])); [|right; left].
    constructor; [by apply only_tmp_remove|by constructor].
  - intros [= <- <-]. unfold visit. simpl. rewrite Hh.
    destruct (atomic_rename path tmp tmp_neq d (v ++ [dk_Files d1]) (dk_Files d2) _ Hall H2 Hok) as [Ha Hp].
    split_and!; [done..|]. exists (dk_Files d2). split; [by apply H2|done].
Qed.

Lemma rename_filled_atomic ready data d d' res :
  rename_filled ready dir tmp path data d = (d', res) ->
  atomic path [tmp] (Some (mkFile data true owner_only)) d d' /\
  match res with
  | Ok _ => dk_Files d' !! path = Some (mkFile data true owner_only) /\
      exists fs, fs !! path = dk_Files d !! path /\ ready fs = Ok tt
  | Err _ => dk_Files d' !! path = dk_Files d !! path
  end.
Proof. apply rename_filled_via_atomic. Qed.

(** When nothing fails it succeeds. *)
Lemma replace_checked_done ready data d :
  (forall op, os_fault op = None) -> (forall fs, only_tmp tmp d fs -> ready fs = Ok tt) ->
  snd (replace_checked ready dir tmp path data d) = Ok tt.
Proof.
  intros Hno Hready. unfold replace_checked. destruct (rename_filled ready dir tmp path data d) as [d1 r] eqn:Hr.
  assert (r = Ok tt) as ->; [|unfold attempt; by rewrite !Hno]. revert Hr. unfold rename_filled, rename_filled_via, attempt at 1.
  rewrite Hno. set (d2 := visit d _). pose proof (only_tmp_insert tmp d (mkFile "" true owner_only)) as H2.
  destruct (fill_temp tmp data d2) as [d3 filled] eqn:Hfill.
  destruct (fill_temp_spec data d d2 d3 filled H2 (lookup_insert_eq _ _ _) Hfill) as (v & _ & Hin & Ho & Hok).
  assert (filled = Ok tt) as ->.
  { revert Hfill. unfold fill_temp, Chmod, WriteFile, attempt. rewrite !Hno. by intros [= _ <-]. }
  assert (only_tmp tmp d (dk_Files d3)) as H3.
  { apply elem_of_cons in Hin as [->|Hin]; [done|]. rewrite Forall_forall in Ho. by apply Ho. }
  unfold attempt at 1. rewrite Hno. simpl. rewrite Hready by done. unfold Rename. rewrite Hno, (Hok eq_refl). by intros [= _ <-].
Qed.

Lemma replace_checked_atomic ready data d d' res :
  replace_checked ready dir tmp path data d = (d', res) ->
  atomic path [tmp] (Some (mkFile data true owner_only)) d d' /\
  (dk_Files d' !! path <> dk_Files d !! path -> exists fs, fs !! path = dk_Files d !! path /\ ready fs = Ok tt) /\
  (res = Ok tt -> dk_Files d' !! path = Some (mkFile data true owner_only)).
Proof.
  unfold replace_checked. destruct (rename_filled ready dir tmp path data d) as [d1 r] eqn:Hr.
  apply rename_filled_atomic in Hr as [Ha Hr]. intros [= <- <-]. split; [done|].
  destruct r as [[]|e]; [destruct Hr as [Hp Hready]; by split|]. by rewrite Hr.
Qed.

Lemma replace_synced_atomic data d d' res :
  replace_synced dir tmp path data d = (d', res) ->
  atomic path [tmp] (Some (mkFile data true owner_only)) d d' /\
  (res = Ok tt -> dk_Files d' !! path = Some (mkFile data true owner_only)).
Proof. by intros (Ha & _ & Hok)%replace_checked_atomic. Qed.
End replace_synced.

(** A file that is written once was not there, and is complete when no error is
    reported; the other files are as before. *)
Lemma create_filled_spec `{OS} path data d d' res :
  create_filled path data d = (d', res) ->
  (forall p, p <> path -> dk_Files d' !! p = dk_Files d !! p) /\
  (res = Ok tt -> dk_Files d !! path = None /\ dk_Files d' !! path = Some (mkFile data true owner_only)).
Proof.
  unfold create_filled, create_exclusive. destruct (os_fault (OpOpenLock path)); [by intros [= <- <-]|].
  destruct (dk_Files d !! path) eqn:Hp; [by intros [= <- <-]|].
  unfold WriteFile. simpl. destruct (os_fault (OpWrite path)) as [e|]; intros [= <- <-].
  - split; [|done]. intros p Hne. simpl. by rewrite lookup_partial_alter_ne, lookup_insert_ne.
  - split.
    + intros p Hne. simpl. by rewrite !lookup_insert_ne.
    + intros _. split; [done|]. simpl. by rewrite !lookup_insert_eq.
Qed.

Lemma create_synced_spec `{OS} dir path data d d' res :
  create_synced dir path data d = (d', res) ->
  (forall p, p <> path -> dk_Files d' !! p = dk_Files d !! p) /\
  (res = Ok tt -> dk_Files d !! path = None /\ dk_Files d' !! path = Some (mkFile data true owner_only)).
Proof.
  unfold create_synced. destruct (create_filled path data d) as [d1 [[]|e]] eqn:Hc; intros [= <- <-];
    apply create_filled_spec in Hc as [Hother Hok]; (split; [done|]); [|done].
  intros _. by apply Hok.
Qed.
