(* ===== verification/RegistryStore.v ===== *)
(** * The registry store (internal/capability/registry.go, RegistryStore)

    Loading, saving and updating the registry file.  encoding/json enters as an
    interface.  The state is the file system with the history of the states it
    went through: what another process, or this one after a crash, could find. *)

From S2P Require Import Prelude GoStrings StableId Capability FileSystem Registry RegistryFacts.

(** ** Interfaces *)

Class RegistryJSON := mkRegistryJSON {
  json_Unmarshal : string -> result error Registry;
  json_MarshalIndent : Registry -> result error string }.

Record RegistryStore := mkStore { st_Path : string }.

Section store.
Context {os : OS} {json : RegistryJSON}.

(** ** Load *)

Definition Load (s : RegistryStore) (fs : fsys) : result error Registry :=
  match ReadFile fs (st_Path s) with
  | Err err =>
      if oe_NotExist err then Ok NewRegistry
      else Err (Errorf "read provider registry: %w" [ATxt (oe_text err)])
  | Ok data =>
      registry ← wrap_err (fun err => Errorf "decode provider registry: %w" [ATxt err]) (json_Unmarshal data);
      wrap_err (fun err => Errorf "validate provider registry: %w" [ATxt err]) (Registry_Validate registry) ;;
      Ok registry
  end.

(** ** Save *)

(** The comparison of the bindings: application identity, application,
    environment, kind, name. *)
Definition binding_before (x y : ProviderBinding) : bool :=
  let a := pb_Resource x in
  let b := pb_Resource y in
  let lt (s t : string) := String.ltb s t in
  if pb_ApplicationID x != pb_ApplicationID y then lt (pb_ApplicationID x) (pb_ApplicationID y)
  else if rs_Application a != rs_Application b then lt (rs_Application a) (rs_Application b)
  else
    let ae := TrimSpace (pb_Environment x) in
    let be := TrimSpace (pb_Environment y) in
    if ae != be then lt ae be
    else if rs_Kind a != rs_Kind b then lt (rs_Kind a) (rs_Kind b)
    else lt (rs_Name a) (rs_Name b).

Definition sorted_registry (r : Registry) : Registry :=
  mkRegistry (rg_Version r) (sort_slice (fun a b => String.ltb (pi_ID a) (pi_ID b)) (rg_Instances r))
    (sort_slice binding_before (rg_Bindings r)).

Definition newline : string := bytes [10].

(** Writing the temporary file, securing it and moving it into place. *)
Definition replace_file : string -> string -> disk -> disk * result error unit :=
  replace_via (fun err => Errorf "write provider registry: %w" [ATxt err])
    (fun err => Errorf "secure provider registry: %w" [ATxt err])
    (fun err => Errorf "replace provider registry: %w" [ATxt err]).

(** The checks before the file is written: the encoded registry. *)
Definition Save_encode (s : RegistryStore) (r : Registry) : result error string :=
  reject (TrimSpace (st_Path s) == "") (errorsNew "provider registry path is required") ;;
  Registry_Validate r ;;
  data ← wrap_err (fun err => Errorf "encode provider registry: %w" [ATxt err]) (json_MarshalIndent (sorted_registry r));
  wrap_err (fun err => Errorf "create provider registry directory: %w" [ATxt err]) (attempt (OpMkdirAll (st_Path s))) ;;
  Ok (data +:+ newline).

Definition Save (s : RegistryStore) (r : Registry) (d : disk) : disk * result error unit :=
  match Save_encode s r with
  | Err err => (d, Err err)
  | Ok data => replace_file (st_Path s) data d
  end.

(** ** Update *)

(** Opening the lock file creates it. *)
Definition open_lock (path : string) (d : disk) : disk * result error unit :=
  match os_fault (OpOpenLock path) with
  | Some err => (d, Err (Errorf "open provider registry lock: %w" [ATxt err]))
  | None =>
      (visit d (partial_alter (fun f => match f with Some f => Some f | None => Some (mkFile "" true owner_only) end)
         path (dk_Files d)), Ok tt)
  end.

(** The mutation runs on the loaded registry; it is modelled by the registry it
    leaves and its error.  The exclusive lock keeps other updates out until the
    registry is saved. *)
Definition Update (s : RegistryStore) (mutate : option (Registry -> Registry * result error unit)) (d : disk)
    : disk * result error unit :=
  if TrimSpace (st_Path s) == "" then (d, Err (errorsNew "provider registry path is required"))
  else match mutate with
  | None => (d, Err (errorsNew "provider registry mutation is required"))
  | Some mutate =>
      match attempt (OpMkdirAll (st_Path s)) with
      | Err err => (d, Err (Errorf "create provider registry directory: %w" [ATxt err]))
      | Ok _ =>
          let lock := st_Path s +:+ ".lock" in
          let '(d, opened) := open_lock lock d in
          match opened with
          | Err err => (d, Err err)
          | Ok _ =>
              match attempt (OpFlock lock) with
              | Err err => (d, Err (Errorf "lock provider registry: %w" [ATxt err]))
              | Ok _ =>
                  match Load s (dk_Files d) with
                  | Err err => (d, Err err)
                  | Ok registry =>
                      let '(registry, mutated) := mutate registry in
                      match mutated with
                      | Err err => (d, Err err)
                      | Ok _ => Save s registry d
                      end
                  end
              end
          end
      end
  end.

(** ** What is promised *)

(** Only the registry file, its temporary file and the lock file change, the
    registry file at once. *)
Definition registry_atomic (s : RegistryStore) : option file -> disk -> disk -> Prop :=
  atomic (st_Path s) [st_Path s +:+ ".tmp"; st_Path s +:+ ".lock"].

(** The file a registry is saved as. *)
Definition saved_file (r : Registry) (f : file) : Prop :=
  exists data, json_MarshalIndent (sorted_registry r) = Ok data /\ f = mkFile (data +:+ newline) true owner_only.
End store.

(** ** A sample

    No operation fails, and a codec that knows one registry. *)

Definition sample_os : OS := mkOS (fun _ => None) (fun _ f => f).
Definition sample_mutation (r : Registry) : Registry * result error unit := Register_at r sample_secrets.
Definition sample_saved : Registry := sorted_registry (fst (sample_mutation NewRegistry)).
Definition sample_json : RegistryJSON := mkRegistryJSON (fun _ => Ok sample_saved) (fun _ => Ok "{}").
Definition sample_disk : disk := mkDisk ∅ [∅].
Definition sample_update : disk * result error unit :=
  Update (os := sample_os) (json := sample_json) (mkStore "/core/providers.json") (Some sample_mutation) sample_disk.

(** ** Facts *)

Section facts.
Context {os : OS} {json : RegistryJSON}.

Lemma lock_neq s : st_Path s <> st_Path s +:+ ".lock".
Proof. by apply suffix_neq. Qed.

Lemma replace_file_atomic s data d d' res :
  replace_file (st_Path s) data d = (d', res) ->
  registry_atomic s (Some (mkFile data true owner_only)) d d' /\
  dk_Files d' !! st_Path s =
    match res with Ok _ => Some (mkFile data true owner_only) | Err _ => dk_Files d !! st_Path s end.
Proof.
  intros [Ha Hf]%replace_via_atomic. split; [|done]. eapply atomic_side; [|exact Ha]. set_solver.
Qed.

(** Sorting keeps a registry well-formed. *)
Lemma sorted_registry_ok r : registry_ok r -> registry_ok (sorted_registry r).
Proof.
  intros [Hv Hi Hids Hsh Hres Hb].
  assert (Pi : rg_Instances (sorted_registry r) ≡ₚ rg_Instances r) by apply sort_slice_Permutation.
  assert (Pb : rg_Bindings (sorted_registry r) ≡ₚ rg_Bindings r) by apply sort_slice_Permutation.
  constructor; [done| | | | |].
  - by rewrite Pi.
  - by rewrite (Permutation_map pi_ID Pi).
  - assert (List.filter is_shared (rg_Instances (sorted_registry r)) ≡ₚ List.filter is_shared (rg_Instances r))
      as Pf by (by apply filter_true_Permutation).
    by rewrite (Permutation_map shared_key Pf).
  - by rewrite (Permutation_map binding_key Pb).
  - rewrite Pb. eapply bindings_ok_transfer; [|exact Hb].
    intros b i _ Hf. exists i. split; [|done].
    apply find_instance_NoDup; [by rewrite (Permutation_map pi_ID Pi)|].
    rewrite Pi. by apply find_instance_elem.
Qed.

Lemma Save_encode_ok s r data :
  Save_encode s r = Ok data ->
  registry_ok r /\ exists text, json_MarshalIndent (sorted_registry r) = Ok text /\ data = text +:+ newline.
Proof.
  unfold Save_encode. rewrite reject_seq_Ok, seq_Ok, unit_Ok, bind_Ok, Registry_Validate_ok.
  intros (_ & Hr & text & Ht & Hk). apply wrap_err_Ok in Ht. split; [done|].
  exists text. split; [done|]. apply seq_Ok in Hk as [_ [= <-]]. done.
Qed.

Lemma Save_ok s r d d' res :
  Save s r d = (d', res) ->
  match res with
  | Ok _ => registry_ok r /\ exists f, saved_file r f /\ registry_atomic s (Some f) d d' /\ dk_Files d' !! st_Path s = Some f
  | Err _ => dk_Files d' !! st_Path s = dk_Files d !! st_Path s /\
      (d' = d \/ (registry_ok r /\ exists f, saved_file r f /\ registry_atomic s (Some f) d d'))
  end.
Proof.
  unfold Save. destruct (Save_encode s r) as [data|e] eqn:He; [|intros [= <- <-]; by split; [|left]].
  apply Save_encode_ok in He as (Hr & text & Ht & ->). intros Hrep.
  apply replace_file_atomic in Hrep as [Ha Hf].
  assert (saved_file r (mkFile (text +:+ newline) true owner_only)) as Hs by (by exists text).
  destruct res; [by split; [|eexists]|split; [done|right]]. split; [done|]. by eexists.
Qed.

(** A saved file loads as the sorted registry, when encoding/json reads back
    what it wrote for that registry. *)
Lemma Load_saved s r f fs :
  registry_ok r -> saved_file r f -> os_fault (OpRead (st_Path s)) = None ->
  (forall text, json_MarshalIndent (sorted_registry r) = Ok text ->
     json_Unmarshal (text +:+ newline) = Ok (sorted_registry r)) ->
  fs !! st_Path s = Some f -> Load s fs = Ok (sorted_registry r).
Proof.
  intros Hr (text & Ht & ->) Hfault Hjson Hf. unfold Load, ReadFile. rewrite Hfault, Hf. simpl.
  rewrite (Hjson text Ht). simpl. rewrite (proj2 (Registry_Validate_ok _)); [done|].
  by apply sorted_registry_ok.
Qed.

Lemma Load_same s fs fs' : fs !! st_Path s = fs' !! st_Path s -> Load s fs = Load s fs'.
Proof. intros Hf. unfold Load, ReadFile. by rewrite Hf. Qed.

Lemma open_lock_atomic s new d d' res :
  open_lock (st_Path s +:+ ".lock") d = (d', res) ->
  registry_atomic s new d d' /\ dk_Files d' !! st_Path s = dk_Files d !! st_Path s.
Proof.
  unfold open_lock. destruct (os_fault _); [intros [= <- <-]; split; [apply atomic_refl|done]|].
  intros [= <- <-]. pose proof (lock_neq s) as Hl. simpl. rewrite lookup_partial_alter_ne by done.
  split; [|done]. apply atomic_visit.
  - left. by rewrite lookup_partial_alter_ne.
  - intros p Hp. rewrite lookup_partial_alter_ne; [done|set_solver].
Qed.

(** What an update does: it fails and leaves the registry file, or it saves
    what the mutation made of the loaded registry. *)
Lemma Update_ok s mutate d d' res :
  Update s (Some mutate) d = (d', res) ->
  (is_ok res = false /\ dk_Files d' !! st_Path s = dk_Files d !! st_Path s /\ registry_atomic s None d d') \/
  exists r r' f, Load s (dk_Files d) = Ok r /\ mutate r = (r', Ok tt) /\ registry_ok r' /\ saved_file r' f /\
    registry_atomic s (Some f) d d' /\
    dk_Files d' !! st_Path s = match res with Ok _ => Some f | Err _ => dk_Files d !! st_Path s end.
Proof.
  unfold Update.
  assert (Hsame : forall e : error, (d, Err e) = (d', res) ->
    is_ok res = false /\ dk_Files d' !! st_Path s = dk_Files d !! st_Path s /\ registry_atomic s None d d').
  { intros e [= <- <-]. split_and!; [done..|apply atomic_refl]. }
  case_bool_decide; [by intros Hx%Hsame; left|].
  destruct (attempt (OpMkdirAll (st_Path s))) as [[]|e]; [|by intros Hx%Hsame; left].
  destruct (open_lock _ d) as [d1 opened] eqn:Ho.
  apply (open_lock_atomic s None) in Ho as [Ho' Hfile].
  assert (Hsame1 : forall e : error, (d1, Err e) = (d', res) ->
    is_ok res = false /\ dk_Files d' !! st_Path s = dk_Files d !! st_Path s /\ registry_atomic s None d d').
  { intros e [= <- <-]. split_and!; [done..|exact Ho']. }
  destruct opened as [[]|e]; [|by intros Hx%Hsame1; left].
  destruct (attempt (OpFlock _)) as [[]|e]; [|by intros Hx%Hsame1; left].
  rewrite (Load_same s _ _ Hfile).
  destruct (Load s (dk_Files d)) as [r|e]; [|by intros Hx%Hsame1; left].
  destruct (mutate r) as [r' [[]|e]] eqn:Hm; [|by intros Hx%Hsame1; left].
  intros Hsave%Save_ok. destruct res as [[]|e].
  - destruct Hsave as (Hr & f & Hs & Ha & Hf). right. exists r, r', f. split_and!; [done..| |done].
    eapply atomic_trans; [exact Hfile|by apply atomic_None|done].
  - destruct Hsave as (Hf & [->|(Hr & f & Hs & Ha)]); [left; split_and!; [done..|exact Ho']|].
    right. exists r, r', f. split_and!; [done..| |congruence].
    eapply atomic_trans; [exact Hfile|by apply atomic_None|done].
Qed.
End facts.

(** An update is atomic: in every state the file system goes through, whatever
    fails and wherever the process stops, the registry file holds what it held
    before or, if it was loaded and the mutation of it succeeded with a valid
    registry, the encoding of that registry; only the temporary and the lock
    file change besides.  It holds the new one in the end exactly when the
    update reports no error. *)
Theorem Update_atomic `{OS} `{RegistryJSON} s mutate d d' res :
  Update s (Some mutate) d = (d', res) ->
  (is_ok res = false /\ registry_atomic s None d d' /\ dk_Files d' !! st_Path s = dk_Files d !! st_Path s) \/
  (exists r r' f, Load s (dk_Files d) = Ok r /\ mutate r = (r', Ok tt) /\ Registry_Validate r' = Ok tt /\
     saved_file r' f /\ registry_atomic s (Some f) d d' /\
     dk_Files d' !! st_Path s = match res with Ok _ => Some f | Err _ => dk_Files d !! st_Path s end).
Proof.
  intros [(Hr & Hf & Ha)|(r & r' & f & Hl & Hm & Hr & Hs & Ha & Hf)]%Update_ok; [by left|right].
  exists r, r', f. by rewrite Registry_Validate_ok.
Qed.

(** C34: An interrupted update is recoverable: every state it goes through loads as
    the registry before it or as the sorted result of the mutation, provided
    the file can be read and encoding/json reads back what it wrote. *)
Theorem Update_crash_safe `{OS} `{RegistryJSON} s mutate d d' res r :
  Update s (Some mutate) d = (d', res) -> Load s (dk_Files d) = Ok r ->
  os_fault (OpRead (st_Path s)) = None ->
  (forall text, json_MarshalIndent (sorted_registry (fst (mutate r))) = Ok text ->
     json_Unmarshal (text +:+ newline) = Ok (sorted_registry (fst (mutate r)))) ->
  exists visited, dk_History d' = visited ++ dk_History d /\
    Forall (fun fs => Load s fs = Ok r \/ Load s fs = Ok (sorted_registry (fst (mutate r)))) visited.
Proof.
  intros Hup Hload Hread Hjson.
  apply Update_ok in Hup as [(_ & _ & v & Hv & _ & Hp & _)|(r0 & r' & f & Hl & Hm & Hr & Hs & (v & Hv & _ & Hp & _) & _)];
    exists v; (split; [done|]); (eapply Forall_impl; [exact Hp|]); intros fs [Hfs|[Hn Hfs]].
  - left. by rewrite (Load_same s _ _ Hfs).
  - by destruct Hn.
  - left. by rewrite (Load_same s _ _ Hfs).
  - right. rewrite Hload in Hl. injection Hl as <-. rewrite Hm in *. simpl in *. by eapply Load_saved.
Qed.

Lemma Update_atomic_witness :
  snd sample_update = Ok tt /\
  exists f, dk_Files (fst sample_update) !! "/core/providers.json" = Some f.
Proof.
  assert (Hok : snd sample_update = Ok tt) by (vm_compute; reflexivity). split; [exact Hok|].
  destruct sample_update as [d' res] eqn:Hup. simpl in Hok. unfold sample_update in Hup.
  destruct (Update_atomic (H := sample_os) (H0 := sample_json) _ _ _ _ _ Hup)
    as [(Hf & _)|(r & r' & f & _ & _ & _ & _ & _ & Hf)].
  - rewrite Hok in Hf. discriminate Hf.
  - exists f. rewrite Hok in Hf. exact Hf.
Defined.

Lemma Update_crash_safe_witness :
  exists visited, dk_History (fst sample_update) = visited ++ [∅] /\ length visited = 4%nat /\
    Forall (fun fs => Load (os := sample_os) (json := sample_json) (mkStore "/core/providers.json") fs = Ok NewRegistry \/
      Load (os := sample_os) (json := sample_json) (mkStore "/core/providers.json") fs = Ok sample_saved) visited.
Proof.
  assert (Hlen : length (dk_History (fst sample_update)) = 5%nat) by (vm_compute; reflexivity).
  destruct sample_update as [d' res] eqn:Hup. unfold sample_update in Hup.
  destruct (Update_crash_safe (H := sample_os) (H0 := sample_json) (mkStore "/core/providers.json") sample_mutation
    sample_disk d' res NewRegistry Hup) as (visited & Hv & Hf).
  - vm_compute. reflexivity.
  - reflexivity.
  - intros text _. reflexivity.
  - exists visited. split; [exact Hv|]. split; [|exact Hf].
    simpl in Hlen. rewrite Hv, length_app in Hlen. simpl in Hlen. lia.
Defined.
