(* ===== verification/SecureBinding.v ===== *)
(** * Secure bindings (internal/capability/secure_binding.go)

    Provider-neutral security metadata: only opaque references to secret
    material may cross this boundary.  Parsing a URL is the work of Go's
    net/url, which enters as an interface: the fields the code inspects. *)

From S2P Require Import Prelude GoStrings.

(** ** net/url *)

(** The fields of [url.URL] that the validation reads; [User] is a pointer, of
    which only whether it is nil matters. *)
Record URL := mkURL {
  url_Scheme : string;
  url_Host : string;
  url_User : option string;
  url_RawQuery : string;
  url_Fragment : string }.

Class NetURL := url_Parse : string -> result error URL.

(** ** Diagnostics (lifecycle.go) *)

Definition Severity := string.
Definition SeverityInfo : Severity := "info".
Definition SeverityError : Severity := "error".

Record Diagnostic := mkDiagnostic {
  dg_Code : string;
  dg_Severity : Severity;
  dg_Message : text }.

(** ** Data *)

Record WorkloadIdentityBinding := mkWorkloadIdentity {
  wi_Subject : string;
  wi_Reference : string }.

Record CredentialReference := mkCredential {
  cd_Name : string;
  cd_Reference : string }.

Record TrustMaterialReference := mkTrust {
  tm_Name : string;
  tm_Reference : string;
  tm_Format : string }.

Record AuthorizationMetadata := mkAuthorization {
  az_Audience : string;
  az_Scopes : list string }.

Record SecretReference := mkSecret {
  sc_Name : string;
  sc_Reference : string }.

Record SecurityLifecycleSupport := mkSecurityLifecycle {
  sl_Renewable : bool;
  sl_Rotatable : bool;
  sl_Revocable : bool }.

Record SecureBinding := mkSecureBinding {
  sb_Identity : option WorkloadIdentityBinding;
  sb_Credentials : list CredentialReference;
  sb_Trust : list TrustMaterialReference;
  sb_Authorization : list AuthorizationMetadata;
  sb_Secrets : list SecretReference;
  sb_Lifecycle : SecurityLifecycleSupport;
  sb_Diagnostics : list Diagnostic }.

Section SecureBinding.
Context {net : NetURL}.

(** ** Validation *)

Definition line_breaks : list ascii := [byte_of 13; byte_of 10].

Definition validateNamedReference (kind name reference : string) : result error unit :=
  let name := TrimSpace name in
  let reference := TrimSpace reference in
  reject (name == "") (Errorf "secure binding %s name is required" [AStr kind]) ;;
  reject (reference == "") (Errorf "secure binding %s %q reference is required" [AStr kind; AStr name]) ;;
  reject (ContainsAny name line_breaks || ContainsAny reference line_breaks)
    (Errorf "secure binding %s %q contains invalid control characters" [AStr kind; AStr name]) ;;
  let opaque_required := Errorf "secure binding %s %q reference must be an opaque baseharbor:// reference"
    [AStr kind; AStr name] in
  match url_Parse reference with
  | Err _ => Err opaque_required
  | Ok parsed =>
      reject ((url_Scheme parsed != "baseharbor") || (url_Host parsed == "") ||
              bool_decide (is_Some (url_User parsed)) || (url_RawQuery parsed != "") ||
              (url_Fragment parsed != "")) opaque_required
  end.

(** The bodies of the loops, with the names seen so far. *)
Definition validate_credential (seen : gset string) (credential : CredentialReference) : result error (gset string) :=
  validateNamedReference "credential" (cd_Name credential) (cd_Reference credential) ;;
  reject (bool_decide (cd_Name credential ∈ seen))
    (Errorf "secure binding contains duplicate credential %q" [AStr (cd_Name credential)]) ;;
  Ok ({[cd_Name credential]} ∪ seen).

Definition validate_trust (seen : gset string) (trust : TrustMaterialReference) : result error (gset string) :=
  validateNamedReference "trust material" (tm_Name trust) (tm_Reference trust) ;;
  reject (bool_decide (tm_Name trust ∈ seen))
    (Errorf "secure binding contains duplicate trust material %q" [AStr (tm_Name trust)]) ;;
  reject (ContainsAny (tm_Format trust) line_breaks)
    (Errorf "secure binding trust material %q has invalid format metadata" [AStr (tm_Name trust)]) ;;
  Ok ({[tm_Name trust]} ∪ seen).

Definition validate_secret (seen : gset string) (secret : SecretReference) : result error (gset string) :=
  validateNamedReference "secret" (sc_Name secret) (sc_Reference secret) ;;
  reject (bool_decide (sc_Name secret ∈ seen))
    (Errorf "secure binding contains duplicate secret %q" [AStr (sc_Name secret)]) ;;
  Ok ({[sc_Name secret]} ∪ seen).

Definition validate_authorization (_ : unit) (authorization : AuthorizationMetadata) : result error unit :=
  reject (ContainsAny (az_Audience authorization) line_breaks)
    (Errorf "secure binding authorization audience contains invalid control characters" []) ;;
  forE (fun _ scope => reject ((TrimSpace scope == "") || ContainsAny scope line_breaks)
    (Errorf "secure binding authorization contains invalid scope metadata" [])) tt (az_Scopes authorization).

Definition validate_diagnostic (_ : unit) (diagnostic : Diagnostic) : result error unit :=
  reject (TrimSpace (dg_Code diagnostic) == "") (Errorf "secure binding diagnostic code is required" []) ;;
  reject ((dg_Severity diagnostic != SeverityInfo) && (dg_Severity diagnostic != SeverityError))
    (Errorf "secure binding diagnostic %q has invalid severity %q"
      [AStr (dg_Code diagnostic); AStr (dg_Severity diagnostic)]).

Definition SecureBinding_Validate (b : SecureBinding) : result error unit :=
  match sb_Identity b with
  | Some identity => validateNamedReference "workload identity" (wi_Subject identity) (wi_Reference identity)
  | None => Ok tt
  end ;;
  forE validate_credential ∅ (sb_Credentials b) ;;
  forE validate_trust ∅ (sb_Trust b) ;;
  forE validate_secret ∅ (sb_Secrets b) ;;
  forE validate_authorization tt (sb_Authorization b) ;;
  forE validate_diagnostic tt (sb_Diagnostics b).

(** ** What is promised *)

Definition single_line (s : string) : Prop := ContainsAny s line_breaks = false.

(** A reference to secret material: a baseharbor URL with a host and without
    user information, query or fragment. *)
Definition opaque_reference (reference : string) : Prop :=
  exists parsed, url_Parse reference = Ok parsed /\ url_Scheme parsed = "baseharbor" /\
    url_Host parsed <> "" /\ url_User parsed = None /\ url_RawQuery parsed = "" /\ url_Fragment parsed = "".

Definition reference_ok (name reference : string) : Prop :=
  TrimSpace name <> "" /\ TrimSpace reference <> "" /\ single_line (TrimSpace name) /\
  single_line (TrimSpace reference) /\ opaque_reference (TrimSpace reference).

Record secure_binding_ok (b : SecureBinding) : Prop := mkSecureBindingOk {
  sbo_identity : forall identity, sb_Identity b = Some identity ->
    reference_ok (wi_Subject identity) (wi_Reference identity);
  sbo_credentials : Forall (fun c => reference_ok (cd_Name c) (cd_Reference c)) (sb_Credentials b);
  sbo_credential_names : NoDup (map cd_Name (sb_Credentials b));
  sbo_trust : Forall (fun t => reference_ok (tm_Name t) (tm_Reference t) /\ single_line (tm_Format t)) (sb_Trust b);
  sbo_trust_names : NoDup (map tm_Name (sb_Trust b));
  sbo_secrets : Forall (fun s => reference_ok (sc_Name s) (sc_Reference s)) (sb_Secrets b);
  sbo_secret_names : NoDup (map sc_Name (sb_Secrets b));
  sbo_authorization : Forall (fun a => single_line (az_Audience a) /\
    Forall (fun scope => TrimSpace scope <> "" /\ single_line scope) (az_Scopes a)) (sb_Authorization b);
  sbo_diagnostics : Forall (fun d => TrimSpace (dg_Code d) <> "" /\
    dg_Severity d ∈ [SeverityInfo; SeverityError]) (sb_Diagnostics b) }.

Lemma validateNamedReference_ok kind name reference :
  validateNamedReference kind name reference = Ok tt <-> reference_ok name reference.
Proof.
  unfold validateNamedReference, reference_ok, opaque_reference, single_line.
  rewrite !reject_seq_Ok, !eqb_false, orb_false_iff.
  destruct (url_Parse (TrimSpace reference)) as [u|e]; [|naive_solver].
  rewrite reject_Ok, !orb_false_iff, !neqb_false, eqb_false, bool_decide_eq_false, <- eq_None_not_Some.
  naive_solver.
Qed.

Lemma reference_seq {A} kind name reference (k : result error A) x :
  (validateNamedReference kind name reference ;; k) = Ok x <-> reference_ok name reference /\ k = Ok x.
Proof.
  rewrite <- (validateNamedReference_ok kind), bind_Ok. split; [intros ([] & ? & ?); done|intros []; by exists tt].
Qed.

Lemma validate_credential_ok seen c out :
  validate_credential seen c = Ok out <->
  reference_ok (cd_Name c) (cd_Reference c) /\ cd_Name c ∉ seen /\ out = {[cd_Name c]} ∪ seen.
Proof. unfold validate_credential. rewrite reference_seq, reject_seq_Ok, bool_decide_eq_false. naive_solver. Qed.

Lemma validate_trust_ok seen t out :
  validate_trust seen t = Ok out <->
  (reference_ok (tm_Name t) (tm_Reference t) /\ single_line (tm_Format t)) /\
  tm_Name t ∉ seen /\ out = {[tm_Name t]} ∪ seen.
Proof.
  unfold validate_trust. rewrite reference_seq, !reject_seq_Ok, bool_decide_eq_false. naive_solver.
Qed.

Lemma validate_secret_ok seen s out :
  validate_secret seen s = Ok out <->
  reference_ok (sc_Name s) (sc_Reference s) /\ sc_Name s ∉ seen /\ out = {[sc_Name s]} ∪ seen.
Proof. unfold validate_secret. rewrite reference_seq, reject_seq_Ok, bool_decide_eq_false. naive_solver. Qed.

Lemma validate_authorization_ok a :
  validate_authorization tt a = Ok tt <->
  single_line (az_Audience a) /\ Forall (fun scope => TrimSpace scope <> "" /\ single_line scope) (az_Scopes a).
Proof.
  unfold validate_authorization. rewrite reject_seq_Ok, forE_unit_Ok.
  setoid_rewrite reject_Ok. setoid_rewrite orb_false_iff. by setoid_rewrite eqb_false.
Qed.

Lemma validate_diagnostic_ok d :
  validate_diagnostic tt d = Ok tt <->
  TrimSpace (dg_Code d) <> "" /\ dg_Severity d ∈ [SeverityInfo; SeverityError].
Proof.
  unfold validate_diagnostic.
  rewrite reject_seq_Ok, eqb_false, reject_Ok, andb_false_iff, !neqb_false, !elem_of_cons, elem_of_nil.
  unfold Severity in *. tauto.
Qed.

Lemma SecureBinding_Validate_ok b : SecureBinding_Validate b = Ok tt <-> secure_binding_ok b.
Proof.
  unfold SecureBinding_Validate. rewrite !seq_Ok, unit_Ok.
  setoid_rewrite (forE_seen_empty _ cd_Name (fun c => reference_ok (cd_Name c) (cd_Reference c)));
    [|apply validate_credential_ok].
  setoid_rewrite (forE_seen_empty _ tm_Name
    (fun t => reference_ok (tm_Name t) (tm_Reference t) /\ single_line (tm_Format t))); [|apply validate_trust_ok].
  setoid_rewrite (forE_seen_empty _ sc_Name (fun s => reference_ok (sc_Name s) (sc_Reference s)));
    [|apply validate_secret_ok].
  rewrite unit_Ok, !forE_unit_Ok.
  setoid_rewrite validate_authorization_ok. setoid_rewrite validate_diagnostic_ok.
  assert (Hid : (match sb_Identity b with
    | Some identity => validateNamedReference "workload identity" (wi_Subject identity) (wi_Reference identity)
    | None => Ok tt end) = Ok tt <->
    forall identity, sb_Identity b = Some identity -> reference_ok (wi_Subject identity) (wi_Reference identity)).
  { destruct (sb_Identity b) as [i|]; [rewrite validateNamedReference_ok|]; naive_solver. }
  rewrite Hid. split.
  - intros (Hi & (? & ? & ? & _) & (? & ? & ? & _) & (? & ? & ? & _) & ? & ?). by constructor.
  - intros []. eauto 20.
Qed.
End SecureBinding.

(** Exactly the secure bindings that are accepted: every identity, credential,
    trust material and secret carries a name and an opaque baseharbor reference,
    on one line each; credential, trust and secret names are distinct; audiences,
    scopes and formats are single lines; diagnostics have a code and a known
    severity.  No parsed reference with user information, a query or a fragment
    (where secret material could hide) is accepted, whatever net/url does. *)
Theorem SecureBinding_Validate_spec `{NetURL} b :
  SecureBinding_Validate b = Ok tt <-> secure_binding_ok b.
Proof. apply SecureBinding_Validate_ok. Qed.
