(* ===== verification/Planning.v ===== *)
(** * Capability plans (internal/capability/lifecycle.go, BuildPlan)

    The data of the capability lifecycle and the plan an application's requests
    resolve to.  A driver and an observer are values that act on a world [W]:
    their calls are what Execution.v sequences.  [context.Context] arguments,
    which the code only passes on, are left out. *)

From S2P Require Import Prelude GoStrings Reconciliation Capability Integration SecureBinding.

(** ** Data *)

Definition Phase := string.
Definition PhaseResolve : Phase := "resolve".
Definition PhasePreflight : Phase := "preflight".
Definition PhaseObserve : Phase := "observe".
Definition PhaseApply : Phase := "apply".
Definition PhaseBind : Phase := "bind".
Definition PhaseVerify : Phase := "verify".

Definition Status := string.
Definition StatusReady : Status := "ready".
Definition StatusFailed : Status := "failed".

Record ProviderOperationObservation := mkOperationObservation {
  po_Phase : Phase;
  po_Status : Status;
  po_Application : string;
  po_Capability : Kind;
  po_Resource : string;
  po_Provider : ProviderKind;
  po_Duration : Z }.

Record HTTPExposureBinding := mkHTTPExposure {
  he_Service : string;
  he_TargetPort : Z;
  he_Protocol : string;
  he_Visibility : string }.

Record ObjectStorageS3Binding := mkObjectStorageS3 { s3_Bucket : string }.

Record OTLPTelemetryBinding := mkOTLP {
  ot_Direction : string;
  ot_Protocol : string;
  ot_Signals : list string }.

Record MetricsBinding := mkMetrics {
  mb_Direction : string;
  mb_Format : string;
  mb_Service : string;
  mb_Scheme : string;
  mb_Port : Z;
  mb_Path : string }.

Record LogsBinding := mkLogs {
  lb_Direction : string;
  lb_Format : string;
  lb_Service : string }.

Record IdentityBinding := mkIdentity {
  ib_CallbackPaths : list string;
  ib_LogoutPaths : list string;
  ib_Scopes : list string;
  ib_Claims : list string;
  ib_MFA : string;
  ib_Methods : list string;
  ib_Passwordless : bool }.

(** [Binding] of lifecycle.go. *)
Record Binding := mkLifecycleBinding {
  bd_Resource : Resource;
  bd_Workload : string;
  bd_HTTPExposure : option HTTPExposureBinding;
  bd_ObjectStorageS3 : option ObjectStorageS3Binding;
  bd_TelemetryOTLP : option OTLPTelemetryBinding;
  bd_Metrics : option MetricsBinding;
  bd_Logs : option LogsBinding;
  bd_Identity : option IdentityBinding;
  bd_Security : option SecureBinding }.

Record PlanItem := mkPlanItem {
  it_Resource : Resource;
  it_Binding : Binding }.

Record Plan := mkPlan {
  pn_Application : string;
  pn_Items : list PlanItem }.

Record ReconciliationResult := mkReconciliation {
  rr_Resource : Resource;
  rr_Result : Decided }.

Record StepResult := mkStep {
  sr_Phase : Phase;
  sr_Status : Status;
  sr_Resource : Resource;
  sr_Binding : Binding;
  sr_Diagnostics : list Diagnostic }.

(** [Result] of lifecycle.go. *)
Record Outcome := mkOutcome {
  oc_Application : string;
  oc_Status : Status;
  oc_Plan : Plan;
  oc_Steps : list StepResult;
  oc_Reconciliation : list ReconciliationResult }.

Definition zero_Plan : Plan := mkPlan "" [].

(** A driver that also reports desired and observed state. *)
Record ReconciliationDriver (W : Type) := mkReconciliationDriver {
  rd_DesiredState : Resource -> Binding -> W -> Desired;
  rd_Observe : Resource -> Binding -> W -> W * result error Observed }.
Arguments mkReconciliationDriver {W}.
Arguments rd_DesiredState {W}.
Arguments rd_Observe {W}.

(** [Driver]; the type assertion to [ReconciliationDriver] is the last field. *)
Record Driver (W : Type) := mkDriver {
  dr_Descriptor : Provider;
  dr_Preflight : Resource -> Binding -> W -> W * result error unit;
  dr_Provision : Resource -> Binding -> W -> W * result error unit;
  dr_Bind : Resource -> Binding -> W -> W * result error unit;
  dr_Verify : Resource -> Binding -> W -> W * result error unit;
  dr_Reconciliation : option (ReconciliationDriver W) }.
Arguments mkDriver {W}.
Arguments dr_Descriptor {W}.
Arguments dr_Preflight {W}.
Arguments dr_Provision {W}.
Arguments dr_Bind {W}.
Arguments dr_Verify {W}.
Arguments dr_Reconciliation {W}.

Record Request (W : Type) := mkRequest {
  rq_Requirement : CapabilityRequirement;
  rq_Workload : string;
  rq_HTTPExposure : option HTTPExposureBinding;
  rq_ObjectStorageS3 : option ObjectStorageS3Binding;
  rq_TelemetryOTLP : option OTLPTelemetryBinding;
  rq_Metrics : option MetricsBinding;
  rq_Logs : option LogsBinding;
  rq_Identity : option IdentityBinding;
  rq_Security : option SecureBinding;
  rq_Driver : option (Driver W);
  rq_Observer : option (ProviderOperationObservation -> W -> W) }.
Arguments mkRequest {W}.
Arguments rq_Requirement {W}.
Arguments rq_Workload {W}.
Arguments rq_HTTPExposure {W}.
Arguments rq_ObjectStorageS3 {W}.
Arguments rq_TelemetryOTLP {W}.
Arguments rq_Metrics {W}.
Arguments rq_Logs {W}.
Arguments rq_Identity {W}.
Arguments rq_Security {W}.
Arguments rq_Driver {W}.
Arguments rq_Observer {W}.

(** ** Planning *)

Section planning.
Context {net : NetURL} {W : Type}.

(** The first arguments of the messages about one requirement. *)
Definition requirement_args (application : string) (requirement : CapabilityRequirement) : list arg :=
  [AStr application; AStr (cr_Name requirement)].

(** [if request.X != nil { ... binding.X = &value }] *)
Definition bind_optional {A} (o : option A) (f : A -> result error A) : result error (option A) :=
  match o with
  | None => Ok None
  | Some value => value ← f value; Ok (Some value)
  end.

Definition bind_s3 (app : string) (rq : CapabilityRequirement) (value : ObjectStorageS3Binding)
    : result error ObjectStorageS3Binding :=
  reject (TrimSpace (s3_Bucket value) == "")
    (Errorf "capability S3 binding for %s/%s: bucket is required" (requirement_args app rq)) ;;
  Ok value.

(** The loop over the signals. *)
Definition check_signal (app : string) (rq : CapabilityRequirement) (seenSignals : gset string) (signal : string)
    : result error (gset string) :=
  let signal := TrimSpace signal in
  reject (bool_decide (signal ∉ ["traces"; "metrics"; "logs"]))
    (Errorf "capability OTLP binding for %s/%s: unsupported signal %q" (requirement_args app rq ++ [AStr signal])) ;;
  reject (bool_decide (signal ∈ seenSignals))
    (Errorf "capability OTLP binding for %s/%s: duplicate signal %q" (requirement_args app rq ++ [AStr signal])) ;;
  Ok ({[signal]} ∪ seenSignals).

Definition bind_otlp (app : string) (rq : CapabilityRequirement) (value : OTLPTelemetryBinding)
    : result error OTLPTelemetryBinding :=
  let value := mkOTLP (TrimSpace (ot_Direction value)) (TrimSpace (ot_Protocol value)) (ot_Signals value) in
  reject (ot_Direction value != "export")
    (Errorf "capability OTLP binding for %s/%s: direction must be export" (requirement_args app rq)) ;;
  reject (ot_Protocol value != "http/protobuf")
    (Errorf "capability OTLP binding for %s/%s: unsupported protocol %q"
      (requirement_args app rq ++ [AStr (ot_Protocol value)])) ;;
  reject (length (ot_Signals value) == 0%nat)
    (Errorf "capability OTLP binding for %s/%s: at least one signal is required" (requirement_args app rq)) ;;
  forE (check_signal app rq) ∅ (ot_Signals value) ;;
  Ok value.

Definition bind_metrics (app : string) (rq : CapabilityRequirement) (value : MetricsBinding)
    : result error MetricsBinding :=
  let scheme := TrimSpace (mb_Scheme value) in
  let value := mkMetrics (TrimSpace (mb_Direction value)) (TrimSpace (mb_Format value))
    (TrimSpace (mb_Service value)) (if scheme == "" then "http" else scheme) (mb_Port value)
    (TrimSpace (mb_Path value)) in
  reject (mb_Direction value != "provide")
    (Errorf "capability metrics binding for %s/%s: direction must be provide" (requirement_args app rq)) ;;
  reject (mb_Format value != "openmetrics")
    (Errorf "capability metrics binding for %s/%s: unsupported format %q"
      (requirement_args app rq ++ [AStr (mb_Format value)])) ;;
  reject ((mb_Scheme value != "http") && (mb_Scheme value != "https"))
    (Errorf "capability metrics binding for %s/%s: unsupported scheme %q"
      (requirement_args app rq ++ [AStr (mb_Scheme value)])) ;;
  reject ((mb_Service value == "") || (mb_Port value <? 1)%Z || (65535 <? mb_Port value)%Z ||
          negb (HasPrefix (mb_Path value) "/"))
    (Errorf "capability metrics binding for %s/%s is incomplete" (requirement_args app rq)) ;;
  Ok value.

Definition bind_logs (app : string) (rq : CapabilityRequirement) (value : LogsBinding)
    : result error LogsBinding :=
  let direction := TrimSpace (lb_Direction value) in
  let format := TrimSpace (lb_Format value) in
  let service := TrimSpace (lb_Service value) in
  reject (direction != "collect")
    (Errorf "capability logs binding for %s/%s: direction must be collect" (requirement_args app rq)) ;;
  let format := if format == "" then "runtime-stream" else format in
  reject ((format != "runtime-stream") && (format != "syslog-rfc5424"))
    (Errorf "capability logs binding for %s/%s: unsupported format %q" (requirement_args app rq ++ [AStr format])) ;;
  reject (service == "")
    (Errorf "capability logs binding for %s/%s: service is required" (requirement_args app rq)) ;;
  Ok (mkLogs direction format service).

Definition bind_security (app : string) (rq : CapabilityRequirement) (value : SecureBinding)
    : result error SecureBinding :=
  wrap_err (fun err => Errorf "capability secure binding for %s/%s: %w" (requirement_args app rq ++ [ATxt err]))
    (SecureBinding_Validate value) ;;
  Ok value.

(** The body of the loop over the requests. *)
Definition plan_request (app : string) (request : Request W) : result error PlanItem :=
  let rq := rq_Requirement request in
  match rq_Driver request with
  | None => Err (Errorf "capability plan for %s/%s: provider driver is required" (requirement_args app rq))
  | Some driver =>
      resource ← Resolve app rq (dr_Descriptor driver);
      let workload := TrimSpace (rq_Workload request) in
      reject (workload == "")
        (Errorf "capability binding for %s/%s: workload is required" (requirement_args app rq)) ;;
      s3 ← bind_optional (rq_ObjectStorageS3 request) (bind_s3 app rq);
      reject ((cr_Kind rq == TelemetryOTLP) && bool_decide (rq_TelemetryOTLP request = None))
        (Errorf "capability OTLP binding for %s/%s is required" (requirement_args app rq)) ;;
      otlp ← bind_optional (rq_TelemetryOTLP request) (bind_otlp app rq);
      reject ((cr_Kind rq == Metrics) && bool_decide (rq_Metrics request = None))
        (Errorf "capability metrics binding for %s/%s is required" (requirement_args app rq)) ;;
      metrics ← bind_optional (rq_Metrics request) (bind_metrics app rq);
      reject ((cr_Kind rq == Logs) && bool_decide (rq_Logs request = None))
        (Errorf "capability logs binding for %s/%s is required" (requirement_args app rq)) ;;
      logs ← bind_optional (rq_Logs request) (bind_logs app rq);
      reject ((cr_Kind rq == Identity) && bool_decide (rq_Identity request = None))
        (Errorf "capability identity binding for %s/%s is required" (requirement_args app rq)) ;;
      security ← bind_optional (rq_Security request) (bind_security app rq);
      Ok (mkPlanItem resource
            (mkLifecycleBinding resource workload (rq_HTTPExposure request) s3 otlp metrics logs
               (rq_Identity request) security))
  end.

Definition BuildPlan (application : string) (requests : list (Request W)) : result error Plan :=
  let application := TrimSpace application in
  reject (application == "") (Errorf "capability plan: application is required" []) ;;
  items ← forE (fun items request => item ← plan_request application request; Ok (items ++ [item])) [] requests;
  Ok (mkPlan application items).

(** ** What a planned request is *)

Definition planned_s3 (v w : ObjectStorageS3Binding) : Prop := w = v /\ TrimSpace (s3_Bucket v) <> "".

Definition planned_otlp (v w : OTLPTelemetryBinding) : Prop :=
  w = mkOTLP "export" "http/protobuf" (ot_Signals v) /\
  TrimSpace (ot_Direction v) = "export" /\ TrimSpace (ot_Protocol v) = "http/protobuf" /\
  ot_Signals v <> [] /\ NoDup (map TrimSpace (ot_Signals v)) /\
  Forall (fun s => TrimSpace s ∈ ["traces"; "metrics"; "logs"]) (ot_Signals v).

Definition planned_metrics (v w : MetricsBinding) : Prop :=
  w = mkMetrics "provide" "openmetrics" (TrimSpace (mb_Service v)) (mb_Scheme w) (mb_Port v) (TrimSpace (mb_Path v)) /\
  TrimSpace (mb_Direction v) = "provide" /\ TrimSpace (mb_Format v) = "openmetrics" /\
  mb_Scheme w = (if TrimSpace (mb_Scheme v) == "" then "http" else TrimSpace (mb_Scheme v)) /\
  mb_Scheme w ∈ ["http"; "https"] /\ mb_Service w <> "" /\ (1 <= mb_Port w <= 65535)%Z /\
  HasPrefix (mb_Path w) "/" = true.

Definition planned_logs (v w : LogsBinding) : Prop :=
  w = mkLogs "collect" (lb_Format w) (TrimSpace (lb_Service v)) /\ TrimSpace (lb_Direction v) = "collect" /\
  lb_Format w = (if TrimSpace (lb_Format v) == "" then "runtime-stream" else TrimSpace (lb_Format v)) /\
  lb_Format w ∈ ["runtime-stream"; "syslog-rfc5424"] /\ lb_Service w <> "".

Definition planned_security (v w : SecureBinding) : Prop := w = v /\ secure_binding_ok v.

(** The plan item of a request of the application [app]. *)
Record planned (app : string) (request : Request W) (item : PlanItem) : Prop := mkPlanned {
  pd_driver : exists driver, rq_Driver request = Some driver /\
    Resolve app (rq_Requirement request) (dr_Descriptor driver) = Ok (it_Resource item);
  pd_resource : bd_Resource (it_Binding item) = it_Resource item;
  pd_workload : bd_Workload (it_Binding item) = TrimSpace (rq_Workload request) /\ TrimSpace (rq_Workload request) <> "";
  pd_http : bd_HTTPExposure (it_Binding item) = rq_HTTPExposure request;
  pd_s3 : option_Forall2 planned_s3 (rq_ObjectStorageS3 request) (bd_ObjectStorageS3 (it_Binding item));
  pd_otlp : option_Forall2 planned_otlp (rq_TelemetryOTLP request) (bd_TelemetryOTLP (it_Binding item));
  pd_metrics : option_Forall2 planned_metrics (rq_Metrics request) (bd_Metrics (it_Binding item));
  pd_logs : option_Forall2 planned_logs (rq_Logs request) (bd_Logs (it_Binding item));
  pd_identity : bd_Identity (it_Binding item) = rq_Identity request;
  pd_security : option_Forall2 planned_security (rq_Security request) (bd_Security (it_Binding item));
  pd_required_otlp : cr_Kind (rq_Requirement request) = TelemetryOTLP -> rq_TelemetryOTLP request <> None;
  pd_required_metrics : cr_Kind (rq_Requirement request) = Metrics -> rq_Metrics request <> None;
  pd_required_logs : cr_Kind (rq_Requirement request) = Logs -> rq_Logs request <> None;
  pd_required_identity : cr_Kind (rq_Requirement request) = Identity -> rq_Identity request <> None }.

(** ** Facts *)

Lemma bind_optional_Ok {A} (f : A -> result error A) (R : A -> A -> Prop) o r :
  (forall v w, f v = Ok w <-> R v w) -> (bind_optional o f = Ok r <-> option_Forall2 R o r).
Proof.
  intros Hf. destruct o as [v|]; simpl.
  - rewrite bind_Ok. setoid_rewrite Hf. split.
    + intros (w & Hw & [= <-]). by constructor.
    + intros HR. inversion HR; subst. eauto.
  - split; [intros [= <-]; constructor|by inversion 1].
Qed.

Lemma bind_s3_ok app rq v w : bind_s3 app rq v = Ok w <-> planned_s3 v w.
Proof. unfold bind_s3, planned_s3. rewrite reject_seq_Ok, eqb_false. naive_solver. Qed.

Lemma check_signal_ok app rq seen signal out :
  check_signal app rq seen signal = Ok out <->
  TrimSpace signal ∈ ["traces"; "metrics"; "logs"] /\ TrimSpace signal ∉ seen /\
  out = {[TrimSpace signal]} ∪ seen.
Proof.
  unfold check_signal. rewrite !reject_seq_Ok, !bool_decide_eq_false.
  split; [intros (H1%dec_stable & H2 & [= <-]); done|intros (H1 & H2 & ->); naive_solver].
Qed.

Lemma bind_otlp_ok app rq v w : bind_otlp app rq v = Ok w <-> planned_otlp v w.
Proof.
  unfold bind_otlp, planned_otlp. cbn [ot_Direction ot_Protocol ot_Signals].
  rewrite !reject_seq_Ok, !neqb_false, eqb_false, length_zero_iff_nil, seq_Ok.
  setoid_rewrite (forE_seen_empty _ TrimSpace (fun s => TrimSpace s ∈ ["traces"; "metrics"; "logs"]));
    [|apply check_signal_ok].
  split.
  - intros (Hd & Hp & Hn & (? & Hf & Hnd & _) & [= <-]). by rewrite Hd, Hp.
  - intros (-> & Hd & Hp & Hn & Hnd & Hf). rewrite Hd, Hp. split_and!; eauto.
Qed.

Lemma bind_metrics_ok app rq v w : bind_metrics app rq v = Ok w <-> planned_metrics v w.
Proof.
  unfold bind_metrics, planned_metrics.
  set (scheme := if TrimSpace (mb_Scheme v) == "" then _ else _).
  cbn [mb_Direction mb_Format mb_Service mb_Scheme mb_Port mb_Path].
  rewrite !reject_seq_Ok, !neqb_false, andb_false_iff, !neqb_false, !orb_false_iff, eqb_false,
    !Z.ltb_ge, negb_false_iff, !elem_of_cons, elem_of_nil.
  split.
  - intros (Hd & Hf & Hs & [[[Hsv Hp1] Hp2] Hpath] & [= <-]). simpl. rewrite Hd, Hf. tauto.
  - intros (-> & Hd & Hf & Hs & Hin & Hsv & [Hp1 Hp2] & Hpath). simpl in *. rewrite Hs in *.
    rewrite Hd, Hf. tauto.
Qed.

Lemma bind_logs_ok app rq v w : bind_logs app rq v = Ok w <-> planned_logs v w.
Proof.
  unfold bind_logs, planned_logs.
  set (format := if TrimSpace (lb_Format v) == "" then _ else _).
  rewrite !reject_seq_Ok, !neqb_false, andb_false_iff, !neqb_false, eqb_false, !elem_of_cons, elem_of_nil.
  split.
  - intros (Hd & Hf & Hs & [= <-]). simpl. rewrite Hd. tauto.
  - intros (-> & Hd & Hf & Hin & Hs). simpl in *. rewrite Hf in *. rewrite Hd. tauto.
Qed.

Lemma bind_security_ok app rq v w : bind_security app rq v = Ok w <-> planned_security v w.
Proof.
  unfold bind_security, planned_security. rewrite seq_Ok, unit_Ok, wrap_err_Ok, SecureBinding_Validate_ok.
  naive_solver.
Qed.

Lemma required_false {A} (kind k : Kind) (o : option A) :
  (kind == k) && bool_decide (o = None) = false <-> (kind = k -> o <> None).
Proof. rewrite andb_false_iff, eqb_false, bool_decide_eq_false. destruct (decide (kind = k)); tauto. Qed.

Lemma plan_request_ok app request item : plan_request app request = Ok item <-> planned app request item.
Proof.
  unfold plan_request.
  destruct (rq_Driver request) as [driver|] eqn:Hd;
    [|split; [done|intros [(? & Hn & _)]; congruence]].
  set (res := Resolve _ _ _). assert (Hres : res = Resolve app (rq_Requirement request) (dr_Descriptor driver)) by done.
  clearbody res.
  rewrite bind_Ok. do 5 (try setoid_rewrite reject_seq_Ok; try setoid_rewrite bind_Ok).
  setoid_rewrite (bind_optional_Ok _ _ _ _ (bind_s3_ok app (rq_Requirement request))).
  setoid_rewrite (bind_optional_Ok _ _ _ _ (bind_otlp_ok app (rq_Requirement request))).
  setoid_rewrite (bind_optional_Ok _ _ _ _ (bind_metrics_ok app (rq_Requirement request))).
  setoid_rewrite (bind_optional_Ok _ _ _ _ (bind_logs_ok app (rq_Requirement request))).
  setoid_rewrite (bind_optional_Ok _ _ _ _ (bind_security_ok app (rq_Requirement request))).
  setoid_rewrite required_false. setoid_rewrite eqb_false. split.
  - intros (r & Hr & Hw & s3 & Hs3 & Ho & o & Hotlp & Hm & m & Hmetrics & Hl & l & Hlogs & Hi & s & Hs & [= <-]).
    constructor; simpl; [|done..]. exists driver. by rewrite <- Hres.
  - intros [(d & Hd' & Hr) Hbr [Hw Hw'] Hh Hs3 Ho Hm Hl Hi Hs]. rewrite Hd in Hd'. injection Hd' as <-.
    rewrite <- Hres in Hr. exists (it_Resource item). split_and!; [done..|].
    exists (bd_ObjectStorageS3 (it_Binding item)). split_and!; [done..|].
    exists (bd_TelemetryOTLP (it_Binding item)). split_and!; [done..|].
    exists (bd_Metrics (it_Binding item)). split_and!; [done..|].
    exists (bd_Logs (it_Binding item)). split_and!; [done..|].
    exists (bd_Security (it_Binding item)). split_and!; [done..|].
    destruct item as [r []]; simpl in *. by subst.
Qed.

Lemma plan_loop app requests items out :
  forE (fun items request => item ← plan_request app request; Ok (items ++ [item])) items requests = Ok out <->
  exists new, out = items ++ new /\ Forall2 (planned app) requests new.
Proof.
  revert items. induction requests as [|q qs IH]; intros items.
  - simpl. split; [intros [= <-]; exists []; by rewrite app_nil_r|].
    intros (new & -> & Hn). inversion Hn; subst. by rewrite app_nil_r.
  - rewrite forE_cons, bind_Ok. setoid_rewrite bind_Ok. setoid_rewrite plan_request_ok.
    setoid_rewrite IH. split.
    + intros (? & (item & Hitem & [= <-]) & new & -> & Hn). exists (item :: new).
      split; [by rewrite <- app_assoc|by constructor].
    + intros (new & -> & Hn). inversion Hn as [|? item ? new' Hitem Hnew]; subst.
      exists (items ++ [item]). split; [eauto|]. exists new'. by rewrite <- app_assoc.
Qed.

Lemma BuildPlan_ok application requests plan :
  BuildPlan application requests = Ok plan <->
  TrimSpace application <> "" /\ pn_Application plan = TrimSpace application /\
  Forall2 (planned (TrimSpace application)) requests (pn_Items plan).
Proof.
  unfold BuildPlan. rewrite reject_seq_Ok, eqb_false, bind_Ok. setoid_rewrite plan_loop. simpl. split.
  - intros (Ha & ? & (new & -> & Hn) & [= <-]). done.
  - intros (Ha & Hp & Hn). split; [done|]. exists (pn_Items plan). destruct plan; simpl in *; subst. eauto.
Qed.
End planning.

(** A plan is built exactly when the application is named and every request can
    be planned; it then has one item per request, in their order, each for the
    resource its driver's provider supports, with every binding normalised,
    complete, within its limits (a metrics port between 1 and 65535, an
    absolute path) and with the binding its capability demands. *)
Theorem BuildPlan_spec `{NetURL} {W} application (requests : list (Request W)) plan :
  BuildPlan application requests = Ok plan <->
  TrimSpace application <> "" /\ pn_Application plan = TrimSpace application /\
  Forall2 (planned (TrimSpace application)) requests (pn_Items plan).
Proof. apply BuildPlan_ok. Qed.
