(* ===== verification/Execution.v ===== *)
(** * The staged capability lifecycle (internal/capability/lifecycle.go)

    [Prepare], [ProvisionAndBind], [Verify] and [Run], with [DriverAdapter] of
    integration_contract.go.  The state is the world the drivers and observers
    act on and a trace of their calls, in order; a driver call is recorded with
    the position of its request and whether it succeeded. *)

From S2P Require Import Prelude GoStrings Reconciliation Capability Integration SecureBinding Planning.

(** A Go [error] beside a value. *)
Abbreviation fallible := (result error).

(** ** State *)

Inductive event : Type :=
| Called (phase : Phase) (position : nat) (succeeded : bool)
| Notified (observation : ProviderOperationObservation).

Record St (W : Type) := mkSt {
  st_world : W;
  st_trace : list event }.
Arguments mkSt {W}.
Arguments st_world {W}.
Arguments st_trace {W}.

(** [Execution]; it is built by [Prepare] only. *)
Record Execution (W : Type) := mkExecution {
  ex_requests : list (Request W);
  ex_result : Outcome;
  ex_decisions : list Decided }.
Arguments mkExecution {W}.
Arguments ex_requests {W}.
Arguments ex_result {W}.
Arguments ex_decisions {W}.

Section execution.
Context {net : NetURL} {W : Type}.

(** The clock, read from the world ([time.Now]). *)
Context (now : W -> Z).

(** ** Steps *)

Definition readyStep (phase : Phase) (item : PlanItem) : StepResult :=
  mkStep phase StatusReady (it_Resource item) (it_Binding item) [].

Definition failedStep (phase : Phase) (item : PlanItem) (code : string) (err : error) : StepResult :=
  mkStep phase StatusFailed (it_Resource item) (it_Binding item) [mkDiagnostic code SeverityError err].

Definition add_step (r : Outcome) (step : StepResult) : Outcome :=
  mkOutcome (oc_Application r) (oc_Status r) (oc_Plan r) (oc_Steps r ++ [step]) (oc_Reconciliation r).

Definition set_status (r : Outcome) (status : Status) : Outcome :=
  mkOutcome (oc_Application r) status (oc_Plan r) (oc_Steps r) (oc_Reconciliation r).

(** [result.Steps = append(...); result.Status = StatusFailed] *)
Definition fail_step (r : Outcome) (step : StepResult) : Outcome := set_status (add_step r step) StatusFailed.

Definition add_reconciliation (r : Outcome) (resource : Resource) (decision : Decided) : Outcome :=
  mkOutcome (oc_Application r) (oc_Status r) (oc_Plan r) (oc_Steps r)
    (oc_Reconciliation r ++ [mkReconciliation resource decision]).

(** The loop that replaces the decisions of a resource. *)
Definition update_reconciliation (r : Outcome) (resource : Resource) (decision : Decided) : Outcome :=
  mkOutcome (oc_Application r) (oc_Status r) (oc_Plan r) (oc_Steps r)
    (map (fun rr => if rr_Resource rr == resource then mkReconciliation (rr_Resource rr) decision else rr)
       (oc_Reconciliation r)).

(** The message of a failed stage for an item. *)
Definition stage_error (format : string) (item : PlanItem) (err : error) : error :=
  Errorf format [AStr (rs_Kind (it_Resource item)); AStr (rs_Name (it_Resource item)); ATxt err].

(** A driver call. *)
Definition invoke {A} (phase : Phase) (position : nat) (call : W -> W * fallible A) (s : St W) : St W * fallible A :=
  let '(w, a) := call (st_world s) in (mkSt w (st_trace s ++ [Called phase position (is_ok a)]), a).

Definition observeProviderOperation (request : Request W) (item : PlanItem) (phase : Phase)
    (status : Status) (duration : Z) (s : St W) : St W :=
  match rq_Observer request with
  | None => s
  | Some observer =>
      let resource := it_Resource item in
      let observation := mkOperationObservation phase status (rs_Application resource) (rs_Kind resource)
        (rs_Name resource) (rs_Provider resource) duration in
      mkSt (observer observation (st_world s)) (st_trace s ++ [Notified observation])
  end.

(** [observeProviderOperation(..., time.Since(started))] *)
Definition notify (request : Request W) (item : PlanItem) (phase : Phase) (status : Status)
    (started : Z) (s : St W) : St W :=
  observeProviderOperation request item phase status (now (st_world s) - started) s.

(** A method call on the driver of a request that has none panics; a plan is
    only built when every request has one. *)
Definition nil_driver : error := errorsNew "runtime error: invalid memory address or nil pointer dereference".

(** ** Prepare *)

(** The observation of a reconciliation driver in [Prepare]. *)
Definition Prepare_observe (i : nat) (item : PlanItem) (request : Request W) (driver : ReconciliationDriver W)
    (result : Outcome) (decisions : list Decided) (s : St W) : St W * Outcome * fallible (list Decided) :=
  let started := now (st_world s) in
  let '(s, observed) := invoke PhaseObserve i (rd_Observe driver (it_Resource item) (it_Binding item)) s in
  match observed with
  | Err err =>
      let s := notify request item PhaseObserve StatusFailed started s in
      (s, fail_step result (failedStep PhaseObserve item "provider-observe-failed" err),
       Err (stage_error "capability observation failed for %s/%s: %w" item err))
  | Ok observed =>
      let decision := Evaluate (rd_DesiredState driver (it_Resource item) (it_Binding item) (st_world s)) observed in
      let decisions := <[i := decision]> decisions in
      let result := add_reconciliation result (it_Resource item) decision in
      if r_Action decision == ActionBlocked then
        let err := Errorf "%s" [ATxt (r_Message decision)] in
        let s := notify request item PhaseObserve StatusFailed started s in
        (s, fail_step result (failedStep PhaseObserve item "provider-reconciliation-blocked" err),
         Err (stage_error "capability reconciliation blocked for %s/%s: %w" item err))
      else
        let s := notify request item PhaseObserve StatusReady started s in
        (s, add_step result (readyStep PhaseObserve item), Ok decisions)
  end.

(** The body of the loop of [Prepare]. *)
Definition Prepare_item (i : nat) (item : PlanItem) (request : Request W) (result : Outcome)
    (decisions : list Decided) (s : St W) : St W * Outcome * fallible (list Decided) :=
  match rq_Driver request with
  | None => (s, result, Err nil_driver)
  | Some driver =>
      let started := now (st_world s) in
      let '(s, preflight) := invoke PhasePreflight i (dr_Preflight driver (it_Resource item) (it_Binding item)) s in
      match preflight with
      | Err err =>
          let s := notify request item PhasePreflight StatusFailed started s in
          (s, fail_step result (failedStep PhasePreflight item "provider-preflight-failed" err),
           Err (stage_error "capability preflight failed for %s/%s: %w" item err))
      | Ok _ =>
          let s := notify request item PhasePreflight StatusReady started s in
          let result := add_step result (readyStep PhasePreflight item) in
          match dr_Reconciliation driver with
          | Some driver => Prepare_observe i item request driver result decisions s
          | None => (s, result, Ok decisions)
          end
      end
  end.

Fixpoint Prepare_loop (i : nat) (jobs : list (PlanItem * Request W)) (result : Outcome)
    (decisions : list Decided) (s : St W) : St W * Outcome * fallible (list Decided) :=
  match jobs with
  | [] => (s, result, Ok decisions)
  | (item, request) :: rest =>
      let '(s, result, outcome) := Prepare_item i item request result decisions s in
      match outcome with
      | Err err => (s, result, Err err)
      | Ok decisions => Prepare_loop (S i) rest result decisions s
      end
  end.

Definition Prepare (application : string) (requests : list (Request W)) (s : St W)
    : St W * Outcome * fallible (Execution W) :=
  match BuildPlan application requests with
  | Err err => (s, mkOutcome (TrimSpace application) StatusFailed zero_Plan [] [], Err err)
  | Ok plan =>
      let result := mkOutcome (pn_Application plan) StatusReady plan
        (map (readyStep PhaseResolve) (pn_Items plan)) [] in
      let decisions := replicate (length (pn_Items plan)) zero_Decided in
      let '(s, result, outcome) := Prepare_loop 0 (zip (pn_Items plan) requests) result decisions s in
      (s, result, decisions ← outcome; Ok (mkExecution requests result decisions))
  end.

(** ** ProvisionAndBind *)

(** The action a decision leaves to the provisioning stage. *)
Definition provisions (decision : Decided) : bool :=
  (r_Action decision != ActionNoop) && (r_Action decision != ActionObserve).

(** [Provision] is called unless there is nothing to do or to own. *)
Definition Provision_apply (i : nat) (item : PlanItem) (driver : Driver W) (decision : Decided) (s : St W)
    : St W * fallible unit :=
  if provisions decision then invoke PhaseApply i (dr_Provision driver (it_Resource item) (it_Binding item)) s
  else (s, Ok tt).

(** The body of its loop. *)
Definition Provision_item (i : nat) (item : PlanItem) (request : Request W) (decisions : list Decided)
    (result : Outcome) (s : St W) : St W * Outcome * fallible unit :=
  match rq_Driver request with
  | None => (s, result, Err nil_driver)
  | Some driver =>
      let started := now (st_world s) in
      let decision := default zero_Decided (decisions !! i) in
      let '(s, applied) := Provision_apply i item driver decision s in
      match applied with
      | Err err =>
          let s := notify request item PhaseApply StatusFailed started s in
          (s, fail_step result (failedStep PhaseApply item "provider-apply-failed" err),
           Err (stage_error "capability apply failed for %s/%s: %w" item err))
      | Ok _ =>
          let s := notify request item PhaseApply StatusReady started s in
          let result := add_step result (readyStep PhaseApply item) in
          let started := now (st_world s) in
          let '(s, bound) := invoke PhaseBind i (dr_Bind driver (it_Resource item) (it_Binding item)) s in
          match bound with
          | Err err =>
              let s := notify request item PhaseBind StatusFailed started s in
              (s, fail_step result (failedStep PhaseBind item "provider-bind-failed" err),
               Err (stage_error "capability bind failed for %s/%s: %w" item err))
          | Ok _ =>
              let s := notify request item PhaseBind StatusReady started s in
              (s, add_step result (readyStep PhaseBind item), Ok tt)
          end
      end
  end.

Fixpoint Provision_loop (i : nat) (jobs : list (PlanItem * Request W)) (decisions : list Decided)
    (result : Outcome) (s : St W) : St W * Outcome * fallible unit :=
  match jobs with
  | [] => (s, result, Ok tt)
  | (item, request) :: rest =>
      let '(s, result, outcome) := Provision_item i item request decisions result s in
      match outcome with
      | Err err => (s, result, Err err)
      | Ok _ => Provision_loop (S i) rest decisions result s
      end
  end.

Definition ex_jobs (e : Execution W) : list (PlanItem * Request W) :=
  zip (pn_Items (oc_Plan (ex_result e))) (ex_requests e).

Definition nil_execution : error := Errorf "capability execution is nil" [].
Definition nil_outcome : Outcome := mkOutcome "" StatusFailed zero_Plan [] [].

Definition ProvisionAndBind (e : option (Execution W)) (s : St W)
    : St W * option (Execution W) * Outcome * fallible unit :=
  match e with
  | None => (s, None, nil_outcome, Err nil_execution)
  | Some e =>
      let '(s, result, outcome) := Provision_loop 0 (ex_jobs e) (ex_decisions e) (ex_result e) s in
      (s, Some (mkExecution (ex_requests e) result (ex_decisions e)), result, outcome)
  end.

(** ** Verify *)

(** The observation after a verification. *)
Definition Verify_observe (i : nat) (item : PlanItem) (driver : ReconciliationDriver W)
    (result : Outcome) (decisions : list Decided) (s : St W) : St W * Outcome * list Decided * fallible unit :=
  let '(s, observed) := invoke PhaseObserve i (rd_Observe driver (it_Resource item) (it_Binding item)) s in
  match observed with
  | Err err =>
      (s, set_status result StatusFailed, decisions,
       Err (stage_error "capability post-verification observation failed for %s/%s: %w" item err))
  | Ok observed =>
      let decision := Evaluate (rd_DesiredState driver (it_Resource item) (it_Binding item) (st_world s)) observed in
      let decisions := <[i := decision]> decisions in
      let result := update_reconciliation result (it_Resource item) decision in
      if (r_Ownership decision == OwnershipBaseHarbor) && (r_State decision != StateInSync) then
        (s, set_status result StatusFailed, decisions,
         Err (Errorf "capability failed to converge for %s/%s: state=%s"
           [AStr (rs_Kind (it_Resource item)); AStr (rs_Name (it_Resource item)); AStr (r_State decision)]))
      else (s, result, decisions, Ok tt)
  end.

(** The body of its loop. *)
Definition Verify_item (i : nat) (item : PlanItem) (request : Request W) (result : Outcome)
    (decisions : list Decided) (s : St W) : St W * Outcome * list Decided * fallible unit :=
  match rq_Driver request with
  | None => (s, result, decisions, Err nil_driver)
  | Some driver =>
      let started := now (st_world s) in
      let '(s, verified) := invoke PhaseVerify i (dr_Verify driver (it_Resource item) (it_Binding item)) s in
      match verified with
      | Err err =>
          let s := notify request item PhaseVerify StatusFailed started s in
          (s, fail_step result (failedStep PhaseVerify item "provider-verification-failed" err), decisions,
           Err (stage_error "capability verification failed for %s/%s: %w" item err))
      | Ok _ =>
          let s := notify request item PhaseVerify StatusReady started s in
          let result := add_step result (readyStep PhaseVerify item) in
          match dr_Reconciliation driver with
          | Some driver => Verify_observe i item driver result decisions s
          | None => (s, result, decisions, Ok tt)
          end
      end
  end.

Fixpoint Verify_loop (i : nat) (jobs : list (PlanItem * Request W)) (result : Outcome)
    (decisions : list Decided) (s : St W) : St W * Outcome * list Decided * fallible unit :=
  match jobs with
  | [] => (s, result, decisions, Ok tt)
  | (item, request) :: rest =>
      let '(s, result, decisions, outcome) := Verify_item i item request result decisions s in
      match outcome with
      | Err err => (s, result, decisions, Err err)
      | Ok _ => Verify_loop (S i) rest result decisions s
      end
  end.

Definition Verify (e : option (Execution W)) (s : St W)
    : St W * option (Execution W) * Outcome * fallible unit :=
  match e with
  | None => (s, None, nil_outcome, Err nil_execution)
  | Some e =>
      let '(s, result, decisions, outcome) := Verify_loop 0 (ex_jobs e) (ex_result e) (ex_decisions e) s in
      match outcome with
      | Err err => (s, Some (mkExecution (ex_requests e) result decisions), result, Err err)
      | Ok _ =>
          let result := set_status result StatusReady in
          (s, Some (mkExecution (ex_requests e) result decisions), result, Ok tt)
      end
  end.

(** ** Run *)

Definition Run (application : string) (requests : list (Request W)) (s : St W)
    : St W * Outcome * fallible unit :=
  let '(s, result, execution) := Prepare application requests s in
  match execution with
  | Err err => (s, result, Err err)
  | Ok execution =>
      let '(s, execution, result, outcome) := ProvisionAndBind (Some execution) s in
      match outcome with
      | Err err => (s, result, Err err)
      | Ok _ => let '(s, _, result, outcome) := Verify execution s in (s, result, outcome)
      end
  end.

(** ** Driver adapters (integration_contract.go) *)

Record DriverAdapter := mkDriverAdapter {
  da_driver : Driver W;
  da_descriptor : IntegrationDescriptor }.

Definition NewDriverAdapter (driver : option (Driver W)) (descriptor : IntegrationDescriptor)
    : fallible DriverAdapter :=
  match driver with
  | None => Err (Errorf "provider driver is required" [])
  | Some driver =>
      IntegrationDescriptor_Validate descriptor ;;
      let driverProvider := dr_Descriptor driver in
      reject (pr_Kind driverProvider != pr_Kind (ds_Provider descriptor))
        (Errorf "provider driver kind %q does not match integration descriptor %q"
          [AStr (pr_Kind driverProvider); AStr (pr_Kind (ds_Provider descriptor))]) ;;
      reject (negb (sameCapabilitySet (pr_Capabilities driverProvider) (pr_Capabilities (ds_Provider descriptor))))
        (Errorf "provider driver %q capabilities do not match integration descriptor"
          [AStr (pr_Kind driverProvider)]) ;;
      Ok (mkDriverAdapter driver descriptor)
  end.

(** The adapter as a driver: it forwards the methods of [Driver] and has no
    others, so it is never a [ReconciliationDriver]. *)
Definition adapted_driver (a : DriverAdapter) : Driver W :=
  let d := da_driver a in
  mkDriver (dr_Descriptor d) (dr_Preflight d) (dr_Provision d) (dr_Bind d) (dr_Verify d) None.
(** ** Sequences of calls *)

Definition call : Type := Phase * nat.

(** The driver calls of a trace, with their success. *)
Definition calls (t : list event) : list (call * bool) :=
  omap (fun e => match e with Called p i b => Some ((p, i), b) | Notified _ => None end) t.

Definition reconciles (request : Request W) : bool :=
  match rq_Driver request with
  | Some driver => bool_decide (is_Some (dr_Reconciliation driver))
  | None => false
  end.

(** The calls a stage makes for the request at a position when all succeed. *)
Definition prepare_calls (i : nat) (request : Request W) : list call :=
  (PhasePreflight, i) :: if reconciles request then [(PhaseObserve, i)] else [].
Definition provision_calls (decisions : list Decided) (i : nat) (_ : Request W) : list call :=
  (if provisions (default zero_Decided (decisions !! i)) then [(PhaseApply, i)] else []) ++ [(PhaseBind, i)].
Definition verify_calls (i : nat) (request : Request W) : list call :=
  (PhaseVerify, i) :: if reconciles request then [(PhaseObserve, i)] else [].

Fixpoint stage_calls (f : nat -> Request W -> list call) (i : nat) (requests : list (Request W)) : list call :=
  match requests with
  | [] => []
  | request :: rest => f i request ++ stage_calls f (S i) rest
  end.

Definition ok_calls (l : list call) : list (call * bool) := map (fun c => (c, true)) l.

(** The calls follow a planned sequence: they succeed up to some point, and the
    first that fails is the last. *)
Definition follows (planned : list call) (made : list (call * bool)) : Prop :=
  exists done rest, planned = done ++ rest /\
    (made = ok_calls done \/ exists c rest', rest = c :: rest' /\ made = ok_calls done ++ [(c, false)]).

(** A stage extends the trace by calls that follow its plan, all of it when it
    reports no error. *)
Definition stage {A} (planned : list call) (s s' : St W) (outcome : fallible A) : Prop :=
  exists t, st_trace s' = st_trace s ++ t /\ follows planned (calls t) /\
    (is_ok outcome = true -> calls t = ok_calls planned).
(** ** Convergence *)

(** A resource BaseHarbor owns is in sync. *)
Definition converged (d : Decided) : Prop := r_Ownership d = OwnershipBaseHarbor -> r_State d = StateInSync.

(** The resources of the reconciliation drivers among the requests. *)
Definition reconciled_resources (jobs : list (PlanItem * Request W)) : list Resource :=
  map (fun j => it_Resource j.1) (List.filter (fun j => reconciles j.2) jobs).
End execution.

(** ** A sample world

    One secrets store that exists or not, and a driver that creates it; the
    owner it reports is a parameter. *)

Definition sample_url : NetURL := fun _ => Ok (mkURL "baseharbor" "core" None "" "").

Definition sample_driver (provision : bool -> bool) (owner : Ownership) : Driver bool :=
  mkDriver (mkProvider ProviderOpenBao [Secrets])
    (fun _ _ w => (w, Ok tt)) (fun _ _ w => (provision w, Ok tt))
    (fun _ _ w => (w, Ok tt)) (fun _ _ w => (w, Ok tt))
    (Some (mkReconciliationDriver (fun _ _ _ => mkDesired true "v1" "")
      (fun _ _ w => (w, Ok (mkObserved w (if w then "v1" else "") owner false false false ""))))).

Definition sample_request (driver : Driver bool) : Request bool :=
  mkRequest (mkRequirementFor Secrets "default") "web" None None None None None None None (Some driver) None.

Definition sample_clock (_ : bool) : Z := 0.

(** A run on a world where the store does not exist. *)
Definition sample_run (provision : bool -> bool) (owner : Ownership) : St bool * Outcome * fallible unit :=
  Run (net := sample_url) sample_clock "alpha" [sample_request (sample_driver provision owner)] (mkSt false []).

(** ** Facts about sequences *)

Section facts.
Context {net : NetURL} {W : Type} (now : W -> Z).
Implicit Types s : St W.

Lemma calls_app t u : calls (t ++ u) = calls t ++ calls u.
Proof. apply omap_app. Qed.

Lemma ok_calls_app l k : ok_calls (l ++ k) = ok_calls l ++ ok_calls k.
Proof. apply map_app. Qed.

Lemma follows_left p q m : follows p m -> follows (p ++ q) m.
Proof.
  intros (d & r & -> & Hm). exists d, (r ++ q). split; [by rewrite app_assoc|].
  destruct Hm as [->|(c & r' & -> & ->)]; [by left|right]. exists c, (r' ++ q). done.
Qed.

Lemma follows_right p q m : follows q m -> follows (p ++ q) (ok_calls p ++ m).
Proof.
  intros (d & r & -> & Hm). exists (p ++ d), r. split; [by rewrite app_assoc|].
  rewrite ok_calls_app. destruct Hm as [->|(c & r' & -> & ->)]; [by left|right].
  exists c, r'. by rewrite app_assoc.
Qed.

Lemma follows_refl p : follows p (ok_calls p).
Proof. exists p, []. rewrite app_nil_r. auto. Qed.

Lemma follows_nil p : follows p [].
Proof. exists [], p. auto. Qed.

(** Stages compose. *)
Lemma stage_trans {A B} p q s s' s'' (o : fallible A) (o' : fallible B) :
  is_ok o = true -> stage p s s' o -> stage q s' s'' o' -> stage (p ++ q) s s'' o'.
Proof.
  intros Ho (t & Ht & _ & Hok) (u & Hu & Hf & Hok'). exists (t ++ u).
  rewrite Hu, Ht, calls_app, (Hok Ho), app_assoc. split; [done|]. split.
  - by apply follows_right.
  - intros Ho'. by rewrite (Hok' Ho'), ok_calls_app.
Qed.

Lemma stage_fail {A B} p q s s' (o : fallible A) (o' : fallible B) :
  is_ok o' = false -> stage p s s' o -> stage (p ++ q) s s' o'.
Proof.
  intros Ho (t & Ht & Hf & _). exists t. split; [done|]. split; [by apply follows_left|].
  by rewrite Ho.
Qed.

Lemma stage_outcome {A B} p s s' (o : fallible A) (o' : fallible B) :
  (is_ok o' = true -> is_ok o = true) -> stage p s s' o -> stage p s s' o'.
Proof. intros Ho (t & Ht & Hf & Hok). exists t. auto. Qed.

Lemma stage_nil {A} s (o : fallible A) : stage [] s s o.
Proof. exists []. rewrite app_nil_r. split; [done|]. split; [apply follows_nil|done]. Qed.

Lemma stage_error_nil {A} p s (o : fallible A) : is_ok o = false -> stage p s s o.
Proof. intros Ho. exists []. rewrite app_nil_r. split; [done|]. split; [apply follows_nil|by rewrite Ho]. Qed.

(** One driver call. *)
Lemma stage_invoke {A} phase i (f : W -> W * fallible A) s s' o :
  invoke phase i f s = (s', o) -> stage [(phase, i)] s s' o.
Proof.
  unfold invoke. destruct (f (st_world s)) as [w a]. intros [= <- <-].
  exists [Called phase i (is_ok a)]. split; [done|]. simpl. destruct (is_ok a).
  - split; [apply (follows_refl [(phase, i)])|done].
  - split; [|done]. exists [], [(phase, i)]. split; [done|]. right. by exists (phase, i), [].
Qed.

(** Observers are not drivers. *)
Lemma stage_notify {A} p request item phase status started s s' (o : fallible A) :
  stage p s s' o -> stage p s (notify now request item phase status started s') o.
Proof.
  intros (t & Ht & Hf & Hok). unfold notify, observeProviderOperation.
  destruct (rq_Observer request); [|by exists t].
  eexists (t ++ [_]). simpl. rewrite Ht, app_assoc. split; [done|].
  rewrite calls_app, app_nil_r. done.
Qed.
(** ** The calls of each stage *)

Lemma Prepare_observe_stage i item request driver result decisions s s' r' o :
  Prepare_observe now i item request driver result decisions s = (s', r', o) ->
  stage [(PhaseObserve, i)] s s' o.
Proof.
  unfold Prepare_observe.
  destruct (invoke PhaseObserve i _ s) as [s1 obs] eqn:Hi. apply stage_invoke in Hi.
  destruct obs as [obs|e]; [case_match|]; intros [= <- <- <-]; apply stage_notify;
    (eapply stage_outcome; [|exact Hi]); done.
Qed.

Lemma Prepare_item_stage i item request result decisions s s' r' o :
  Prepare_item now i item request result decisions s = (s', r', o) ->
  stage (prepare_calls i request) s s' o.
Proof.
  unfold Prepare_item, prepare_calls, reconciles.
  destruct (rq_Driver request) as [driver|]; [|intros [= <- <- <-]; by apply stage_error_nil].
  destruct (invoke PhasePreflight i _ s) as [s1 pre] eqn:Hi. apply stage_invoke in Hi.
  apply (stage_notify _ request item PhasePreflight StatusReady (now (st_world s))) in Hi as Hn.
  destruct pre as [[]|e].
  - destruct (dr_Reconciliation driver) as [rd|]; simpl.
    + intros Ho%Prepare_observe_stage. by eapply (stage_trans [_] [_]); [|exact Hn|exact Ho].
    + intros [= <- <- <-]. by eapply stage_outcome; [|exact Hn].
  - intros [= <- <- <-]. eapply (stage_fail [_]); [done|]. apply stage_notify. exact Hi.
Qed.

Lemma Prepare_loop_stage i jobs result decisions s s' r' o :
  Prepare_loop now i jobs result decisions s = (s', r', o) ->
  stage (stage_calls prepare_calls i (map snd jobs)) s s' o.
Proof.
  revert i result decisions s. induction jobs as [|[item request] jobs IH]; intros i result decisions s; cbn [Prepare_loop map snd stage_calls].
  - intros [= <- <- <-]. apply stage_nil.
  - destruct (Prepare_item now i item request result decisions s) as [[s1 r1] o1] eqn:Hi.
    apply Prepare_item_stage in Hi. destruct o1 as [d|e].
    + intros Hl%IH. by eapply stage_trans; [|exact Hi|exact Hl].
    + intros [= <- <- <-]. by eapply stage_fail; [|exact Hi].
Qed.

Lemma Provision_item_stage i item request decisions result s s' r' o :
  Provision_item now i item request decisions result s = (s', r', o) ->
  stage (provision_calls decisions i request) s s' o.
Proof.
  unfold Provision_item, provision_calls.
  destruct (rq_Driver request) as [driver|]; [|intros [= <- <- <-]; by apply stage_error_nil].
  set (decision := default zero_Decided (decisions !! i)).
  destruct (Provision_apply i item driver decision s) as [s1 applied] eqn:Ha.
  set (apply_calls := if provisions decision then [(PhaseApply, i)] else []).
  assert (Hi : stage apply_calls s s1 applied).
  { unfold apply_calls, Provision_apply in *. destruct (provisions decision); [by eapply stage_invoke|].
    injection Ha as <- <-. apply stage_nil. }
  clear Ha. destruct applied as [[]|e].
  - apply (stage_notify _ request item PhaseApply StatusReady (now (st_world s))) in Hi.
    destruct (invoke PhaseBind i _ _) as [s2 bound] eqn:Hb. apply stage_invoke in Hb.
    eapply (stage_trans _ _ _ _ _ (Ok ()) bound eq_refl Hi) in Hb.
    destruct bound as [[]|e]; intros [= <- <- <-]; apply stage_notify; by eapply stage_outcome; [|exact Hb].
  - intros [= <- <- <-]. eapply (stage_fail apply_calls); [done|]. apply stage_notify. exact Hi.
Qed.

Lemma Provision_loop_stage i jobs decisions result s s' r' o :
  Provision_loop now i jobs decisions result s = (s', r', o) ->
  stage (stage_calls (provision_calls decisions) i (map snd jobs)) s s' o.
Proof.
  revert i result s. induction jobs as [|[item request] jobs IH]; intros i result s; cbn [Provision_loop map snd stage_calls].
  - intros [= <- <- <-]. apply stage_nil.
  - destruct (Provision_item now i item request decisions result s) as [[s1 r1] o1] eqn:Hi.
    apply Provision_item_stage in Hi. destruct o1 as [[]|e].
    + intros Hl%IH. by eapply stage_trans; [|exact Hi|exact Hl].
    + intros [= <- <- <-]. by eapply stage_fail; [|exact Hi].
Qed.

Lemma Verify_observe_stage i item driver result decisions s s' r' d' o :
  Verify_observe i item driver result decisions s = (s', r', d', o) ->
  stage [(PhaseObserve, i)] s s' o.
Proof.
  unfold Verify_observe.
  destruct (invoke PhaseObserve i _ s) as [s1 obs] eqn:Hi. apply stage_invoke in Hi.
  destruct obs as [obs|e]; [case_match|]; intros [= <- <- <- <-];
    (eapply stage_outcome; [|exact Hi]); done.
Qed.

Lemma Verify_item_stage i item request result decisions s s' r' d' o :
  Verify_item now i item request result decisions s = (s', r', d', o) ->
  stage (verify_calls i request) s s' o.
Proof.
  unfold Verify_item, verify_calls, reconciles.
  destruct (rq_Driver request) as [driver|]; [|intros [= <- <- <- <-]; by apply stage_error_nil].
  destruct (invoke PhaseVerify i _ s) as [s1 pre] eqn:Hi. apply stage_invoke in Hi.
  apply (stage_notify _ request item PhaseVerify StatusReady (now (st_world s))) in Hi as Hn.
  destruct pre as [[]|e].
  - destruct (dr_Reconciliation driver) as [rd|]; simpl.
    + intros Ho%Verify_observe_stage. by eapply (stage_trans [_] [_]); [|exact Hn|exact Ho].
    + intros [= <- <- <- <-]. by eapply stage_outcome; [|exact Hn].
  - intros [= <- <- <- <-]. eapply (stage_fail [_]); [done|]. apply stage_notify. exact Hi.
Qed.

Lemma Verify_loop_stage i jobs result decisions s s' r' d' o :
  Verify_loop now i jobs result decisions s = (s', r', d', o) ->
  stage (stage_calls verify_calls i (map snd jobs)) s s' o.
Proof.
  revert i result decisions s. induction jobs as [|[item request] jobs IH]; intros i result decisions s; cbn [Verify_loop map snd stage_calls].
  - intros [= <- <- <- <-]. apply stage_nil.
  - destruct (Verify_item now i item request result decisions s) as [[[s1 r1] d1] o1] eqn:Hi.
    apply Verify_item_stage in Hi. destruct o1 as [[]|e].
    + intros Hl%IH. by eapply stage_trans; [|exact Hi|exact Hl].
    + intros [= <- <- <- <-]. by eapply stage_fail; [|exact Hi].
Qed.
(** ** What the stages keep of the result *)

Lemma Prepare_item_keeps i item request result decisions s s' r' d' :
  Prepare_item now i item request result decisions s = (s', r', Ok d') ->
  oc_Plan r' = oc_Plan result /\ oc_Status r' = oc_Status result /\ length d' = length decisions /\
  (Forall (fun d => r_Action d <> ActionBlocked) decisions -> Forall (fun d => r_Action d <> ActionBlocked) d') /\
  (exists driver, rq_Driver request = Some driver).
Proof.
  unfold Prepare_item, Prepare_observe.
  destruct (rq_Driver request) as [driver|]; [|done].
  destruct (invoke PhasePreflight i _ s) as [s1 [[]|e]]; [|done].
  destruct (dr_Reconciliation driver) as [rd|]; [|intros [= <- <- <-]; eauto 10].
  destruct (invoke PhaseObserve i _ _) as [s2 [obs|e]]; [|done].
  case_bool_decide as Hb; [done|]. intros [= <- <- <-]. simpl. rewrite length_insert.
  split_and!; [done..| |eauto]. intros Hd. by apply Forall_insert.
Qed.

Lemma Prepare_loop_keeps i jobs result decisions s s' r' d' :
  Prepare_loop now i jobs result decisions s = (s', r', Ok d') ->
  oc_Plan r' = oc_Plan result /\ oc_Status r' = oc_Status result /\ length d' = length decisions /\
  (Forall (fun d => r_Action d <> ActionBlocked) decisions -> Forall (fun d => r_Action d <> ActionBlocked) d').
Proof.
  revert i result decisions s. induction jobs as [|[item request] jobs IH]; intros i result decisions s; simpl.
  - intros [= <- <- <-]. done.
  - destruct (Prepare_item now i item request result decisions s) as [[s1 r1] [d|e]] eqn:Hi; [|done].
    apply Prepare_item_keeps in Hi as (Hp & Hs & Hl & Hb & _). intros (Hp' & Hs' & Hl' & Hb')%IH.
    split_and!; [congruence..|auto].
Qed.

(** An execution comes from a plan with one item per request and no blocked
    decision. *)
Lemma Prepare_execution application requests s s' r e :
  Prepare now application requests s = (s', r, Ok e) ->
  ex_requests e = requests /\ ex_result e = r /\ oc_Status r = StatusReady /\
  BuildPlan application requests = Ok (oc_Plan r) /\
  map snd (ex_jobs e) = requests /\ map fst (ex_jobs e) = pn_Items (oc_Plan r) /\
  length (ex_decisions e) = length requests /\ Forall (fun d => r_Action d <> ActionBlocked) (ex_decisions e).
Proof.
  unfold Prepare. destruct (BuildPlan application requests) as [plan|err] eqn:Hp; [|done].
  destruct (Prepare_loop _ _ _ _ _ _) as [[s1 r1] [d|err]] eqn:Hl; [|done].
  intros [= <- <- <-]. apply Prepare_loop_keeps in Hl as (Hplan & Hstatus & Hlen & Hb). simpl in *.
  unfold ex_jobs. simpl. rewrite Hplan. rewrite length_replicate in Hlen.
  apply BuildPlan_ok in Hp as Hok. destruct Hok as (_ & _ & Hall). apply Forall2_length in Hall.
  split_and!; [done..| | | |].
  - apply (snd_zip (pn_Items plan)). lia.
  - apply (fst_zip (pn_Items plan)). lia.
  - by rewrite Hlen.
  - apply Hb. by apply Forall_replicate.
Qed.

Lemma Prepare_stage application requests s s' r o :
  Prepare now application requests s = (s', r, o) -> stage (stage_calls prepare_calls 0 requests) s s' o.
Proof.
  unfold Prepare. destruct (BuildPlan application requests) as [plan|err] eqn:Hp;
    [|intros [= <- <- <-]; by apply stage_error_nil].
  destruct (Prepare_loop _ _ _ _ _ _) as [[s1 r1] o1] eqn:Hl. intros [= <- <- <-].
  apply Prepare_loop_stage in Hl.
  apply BuildPlan_ok in Hp as (_ & _ & Hall). apply Forall2_length in Hall.
  replace (map snd (zip (pn_Items plan) requests)) with requests in Hl
    by (symmetry; apply (snd_zip (pn_Items plan)); lia).
  eapply stage_outcome; [|exact Hl]. by destruct o1.
Qed.

Lemma Provision_item_keeps i item request decisions result s s' r' o :
  Provision_item now i item request decisions result s = (s', r', o) ->
  oc_Plan r' = oc_Plan result /\ oc_Reconciliation r' = oc_Reconciliation result /\
  (o = Ok tt -> oc_Status r' = oc_Status result).
Proof.
  unfold Provision_item.
  destruct (rq_Driver request) as [driver|]; [|by intros [= <- <- <-]].
  destruct (Provision_apply _ _ _ _ _) as [s1 [[]|e]]; [|by intros [= <- <- <-]].
  destruct (invoke PhaseBind i _ _) as [s2 [[]|e]]; by intros [= <- <- <-].
Qed.

Lemma Provision_loop_keeps i jobs decisions result s s' r' o :
  Provision_loop now i jobs decisions result s = (s', r', o) ->
  oc_Plan r' = oc_Plan result /\ oc_Reconciliation r' = oc_Reconciliation result /\
  (o = Ok tt -> oc_Status r' = oc_Status result).
Proof.
  revert i result s. induction jobs as [|[item request] jobs IH]; intros i result s; simpl.
  - by intros [= <- <- <-].
  - destruct (Provision_item now i item request decisions result s) as [[s1 r1] o1] eqn:Hi.
    apply Provision_item_keeps in Hi as (Hp & Hr & Hs). destruct o1 as [[]|e]; [|by intros [= <- <- <-]].
    intros (Hp' & Hr' & Hs')%IH. rewrite Hp', Hr'. split_and!; [done..|]. intros Ho. by rewrite Hs', Hs.
Qed.
(** ** Convergence *)

Lemma Prepare_loop_reconciliation i jobs result decisions s s' r' d' :
  Prepare_loop now i jobs result decisions s = (s', r', Ok d') ->
  map rr_Resource (oc_Reconciliation r') = map rr_Resource (oc_Reconciliation result) ++ reconciled_resources jobs.
Proof.
  revert i result decisions s. induction jobs as [|[item request] jobs IH]; intros i result decisions s; simpl.
  - intros [= <- <- <-]. by rewrite app_nil_r.
  - destruct (Prepare_item now i item request result decisions s) as [[s1 r1] [d|e]] eqn:Hi; [|done].
    intros ->%IH.
    assert (map rr_Resource (oc_Reconciliation r1) = map rr_Resource (oc_Reconciliation result) ++
      if reconciles request then [it_Resource item] else []) as ->.
    { clear IH. revert Hi. unfold Prepare_item, Prepare_observe, reconciles.
      destruct (rq_Driver request) as [driver|]; [|done].
      destruct (invoke PhasePreflight i _ s) as [? [[]|]]; [|done].
      destruct (dr_Reconciliation driver) as [rd|]; simpl.
      - destruct (invoke PhaseObserve i _ _) as [? [obs|]]; [|done]. case_bool_decide; [done|].
        intros [= <- <- <-]. simpl. by rewrite map_app.
      - intros [= <- <- <-]. simpl. by rewrite app_nil_r. }
    unfold reconciled_resources. simpl. by destruct (reconciles request); simpl; rewrite <- app_assoc.
Qed.

Lemma Verify_item_reconciliation i item request result decisions s s' r' d' :
  Verify_item now i item request result decisions s = (s', r', d', Ok tt) ->
  oc_Plan r' = oc_Plan result /\
  if reconciles request
  then exists decision, converged decision /\ oc_Reconciliation r' = map (fun rr =>
      if rr_Resource rr == it_Resource item then mkReconciliation (rr_Resource rr) decision else rr)
      (oc_Reconciliation result)
  else oc_Reconciliation r' = oc_Reconciliation result.
Proof.
  unfold Verify_item, Verify_observe, reconciles.
  destruct (rq_Driver request) as [driver|]; [|done].
  destruct (invoke PhaseVerify i _ s) as [? [[]|]]; [|done].
  destruct (dr_Reconciliation driver) as [rd|]; simpl; [|by intros [= <- <- <-]].
  destruct (invoke PhaseObserve i _ _) as [? [obs|]]; [|done].
  destruct (_ && _) eqn:Hc; [done|]. intros [= <- <- <-]. split; [done|].
  eexists. split; [|reflexivity]. rewrite andb_false_iff, eqb_false, neqb_false in Hc.
  unfold converged. tauto.
Qed.

(** After the loop of [Verify] an entry is converged, unless no remaining
    reconciliation driver reports its resource. *)
Lemma Verify_loop_converged i jobs result decisions s s' r' d' :
  Verify_loop now i jobs result decisions s = (s', r', d', Ok tt) ->
  oc_Plan r' = oc_Plan result /\
  map rr_Resource (oc_Reconciliation r') = map rr_Resource (oc_Reconciliation result) /\
  forall rr, rr ∈ oc_Reconciliation r' -> converged (rr_Result rr) \/
    (rr ∈ oc_Reconciliation result /\ rr_Resource rr ∉ reconciled_resources jobs).
Proof.
  revert i result decisions s. induction jobs as [|[item request] jobs IH]; intros i result decisions s; simpl.
  - intros [= <- <- <-]. split_and!; [done..|]. intros rr Hrr. right. split; [done|]. apply not_elem_of_nil.
  - destruct (Verify_item now i item request result decisions s) as [[[s1 r1] d1] [[]|e]] eqn:Hi; [|done].
    apply Verify_item_reconciliation in Hi as [Hp Hr]. intros (Hp' & Hmap & Hrr)%IH.
    unfold reconciled_resources. simpl. destruct (reconciles request); simpl.
    + destruct Hr as (decision & Hd & Hr). split_and!; [congruence| |].
      * rewrite Hmap, Hr, map_map. apply map_ext. intros rr. by case_bool_decide.
      * intros rr [Hc|[Hin Hn]]%Hrr; [by left|]. rewrite Hr in Hin.
        apply list_elem_of_fmap in Hin as (rr0 & Heq & Hin).
        case_bool_decide as Hres; subst rr; [by left|right].
        split; [done|]. rewrite not_elem_of_cons. split; [done|exact Hn].
    + rewrite Hr in Hmap, Hrr. split_and!; [congruence|done|exact Hrr].
Qed.

(** ** Run *)

Lemma Run_ok application requests s s' r :
  Run now application requests s = (s', r, Ok tt) ->
  exists s1 r1 e s2 r2 r3 d3, Prepare now application requests s = (s1, r1, Ok e) /\
    Provision_loop now 0 (ex_jobs e) (ex_decisions e) r1 s1 = (s2, r2, Ok tt) /\
    Verify_loop now 0 (zip (pn_Items (oc_Plan r2)) requests) r2 (ex_decisions e) s2 = (s', r3, d3, Ok tt) /\
    r = set_status r3 StatusReady.
Proof.
  unfold Run. destruct (Prepare _ _ _ _) as [[s1 r1] [e|err]] eqn:Hp; [|done].
  pose proof (Prepare_execution _ _ _ _ _ _ Hp) as (Hreq & Hres & _).
  unfold ProvisionAndBind. rewrite Hres.
  destruct (Provision_loop _ _ _ _ _ _) as [[s2 r2] [[]|err]] eqn:Hl; [|done].
  unfold Verify, ex_jobs. simpl. rewrite Hreq.
  destruct (Verify_loop _ _ _ _ _ _) as [[[s3 r3] d3] [[]|err]] eqn:Hv; [|done].
  intros [= <- <-]. eauto 20.
Qed.
(** The calls of a run: when the preparation fails it is all there is, and
    otherwise the stages follow each other. *)
Lemma Run_stages application requests s s' r o :
  Run now application requests s = (s', r, o) ->
  (exists err, snd (Prepare now application requests s) = Err err /\ o = Err err /\
     stage (stage_calls prepare_calls 0 requests) s s' o) \/
  (exists e, snd (Prepare now application requests s) = Ok e /\
     Forall (fun d => r_Action d <> ActionBlocked) (ex_decisions e) /\
     stage (stage_calls prepare_calls 0 requests ++
            stage_calls (provision_calls (ex_decisions e)) 0 requests ++
            stage_calls verify_calls 0 requests) s s' o).
Proof.
  unfold Run. destruct (Prepare _ _ _ _) as [[s1 r1] [e|err]] eqn:Hp; simpl.
  2:{ intros [= <- <- <-]. left. exists err. apply Prepare_stage in Hp.
      split_and!; [done..|]. by eapply stage_outcome; [|exact Hp]. }
  pose proof (Prepare_execution _ _ _ _ _ _ Hp) as (Hreq & Hres & _ & _ & Hsnd & Hfst & _ & Hb).
  apply Prepare_stage in Hp. intros Hrun. right. exists e. split_and!; [done..|].
  eapply (stage_trans _ _ s s1 s' (Ok e) o eq_refl Hp).
  unfold ProvisionAndBind in Hrun.
  destruct (Provision_loop _ _ _ _ _ _) as [[s2 r2] [[]|err]] eqn:Hl.
  - apply Provision_loop_keeps in Hl as Hk. destruct Hk as (Hplan & _ & _).
    apply Provision_loop_stage in Hl. rewrite Hsnd in Hl.
    eapply (stage_trans _ _ s1 s2 s' (Ok tt) o eq_refl Hl).
    unfold Verify in Hrun.
    destruct (Verify_loop _ _ _ _ _ _) as [[[s3 r3] d3] o3] eqn:Hv.
    apply Verify_loop_stage in Hv. unfold ex_jobs in *. simpl in Hv. rewrite Hplan, Hsnd in Hv.
    destruct o3 as [[]|err]; injection Hrun as <- <- <-; exact Hv.
  - apply Provision_loop_stage in Hl. rewrite Hsnd in Hl. injection Hrun as <- <- <-.
    by eapply stage_fail; [|exact Hl].
Qed.

Lemma ok_calls_In l c b : (c, b) ∈ ok_calls l -> c ∈ l.
Proof. intros (x & [= -> _] & Hx)%list_elem_of_fmap. done. Qed.

Lemma follows_elem planned made c b : follows planned made -> (c, b) ∈ made -> c ∈ planned.
Proof.
  intros (d & rest & -> & [->|(x & rest' & -> & ->)]) Hc.
  - apply ok_calls_In in Hc. set_solver.
  - apply elem_of_app in Hc as [Hc|Hc]; [apply ok_calls_In in Hc; set_solver|].
    apply list_elem_of_singleton in Hc. injection Hc as -> _. set_solver.
Qed.

(** A sequence that contains a call planned only after [p] starts with all of
    [p], successful. *)
Lemma follows_prefix p q made c b :
  follows (p ++ q) made -> (c, b) ∈ made -> c ∉ p -> ok_calls p `prefix_of` made.
Proof.
  intros (d & rest & Heq & Hm) Hc Hp.
  apply app_eq_inv in Heq as [(k & Hpd & Hk)|(k & Hpd & Hk)].
  - destruct Hm as [->|(x & rest' & Hx & ->)].
    + apply ok_calls_In in Hc. subst p. set_solver.
    + destruct k as [|y k].
      * rewrite app_nil_r in Hpd. subst p. exists [(x, false)]. done.
      * subst p rest. injection Hx as <- <-.
        apply elem_of_app in Hc as [Hc|Hc]; [apply ok_calls_In in Hc; set_solver|].
        apply list_elem_of_singleton in Hc. injection Hc as -> _. set_solver.
  - subst d. destruct Hm as [->|(x & rest' & _ & ->)]; rewrite ok_calls_app, <- ?app_assoc; eexists; reflexivity.
Qed.

Lemma prepare_calls_phase i requests p n :
  (p, n) ∈ stage_calls (W := W) prepare_calls i requests -> p = PhasePreflight \/ p = PhaseObserve.
Proof.
  revert i. induction requests as [|q qs IH]; intros i; simpl; [set_solver|].
  rewrite elem_of_cons, elem_of_app. intros [[= -> _]|[H|H]]; [by left| |by eapply IH].
  destruct (reconciles q); [|set_solver]. apply list_elem_of_singleton in H. injection H as -> _. by right.
Qed.
(** ** Status *)

Lemma Prepare_item_failed i item request driver result decisions s s' r' e :
  rq_Driver request = Some driver ->
  Prepare_item now i item request result decisions s = (s', r', Err e) -> oc_Status r' = StatusFailed.
Proof.
  intros Hd. unfold Prepare_item, Prepare_observe. rewrite Hd.
  destruct (invoke PhasePreflight i _ s) as [? [[]|]]; [|by intros [= <- <- <-]].
  destruct (dr_Reconciliation driver) as [rd|]; [|done].
  destruct (invoke PhaseObserve i _ _) as [? [obs|]]; [|by intros [= <- <- <-]].
  case_bool_decide; [by intros [= <- <- <-]|done].
Qed.

Lemma Provision_item_failed i item request driver decisions result s s' r' e :
  rq_Driver request = Some driver ->
  Provision_item now i item request decisions result s = (s', r', Err e) -> oc_Status r' = StatusFailed.
Proof.
  intros Hd. unfold Provision_item. rewrite Hd.
  destruct (Provision_apply _ _ _ _ _) as [? [[]|]]; [|by intros [= <- <- <-]].
  destruct (invoke PhaseBind i _ _) as [? [[]|]]; [done|by intros [= <- <- <-]].
Qed.

Lemma Verify_item_failed i item request driver result decisions s s' r' d' e :
  rq_Driver request = Some driver ->
  Verify_item now i item request result decisions s = (s', r', d', Err e) -> oc_Status r' = StatusFailed.
Proof.
  intros Hd. unfold Verify_item, Verify_observe. rewrite Hd.
  destruct (invoke PhaseVerify i _ s) as [? [[]|]]; [|by intros [= <- <- <- <-]].
  destruct (dr_Reconciliation driver) as [rd|]; [|done].
  destruct (invoke PhaseObserve i _ _) as [? [obs|]]; [|by intros [= <- <- <- <-]].
  destruct (_ && _); [by intros [= <- <- <- <-]|done].
Qed.

(** Every request has a driver. *)
Definition driven (jobs : list (PlanItem * Request W)) : Prop :=
  Forall (fun j => is_Some (rq_Driver j.2)) jobs.

Lemma Prepare_loop_failed i jobs result decisions s s' r' e :
  driven jobs -> Prepare_loop now i jobs result decisions s = (s', r', Err e) -> oc_Status r' = StatusFailed.
Proof.
  revert i result decisions s. induction jobs as [|[item request] jobs IH]; intros i result decisions s; simpl; [done|].
  intros [[driver Hd] Hj]%Forall_cons.
  destruct (Prepare_item now i item request result decisions s) as [[s1 r1] [d|err]] eqn:Hi; [by apply IH|].
  intros [= <- <- <-]. by eapply Prepare_item_failed.
Qed.

Lemma Provision_loop_failed i jobs decisions result s s' r' e :
  driven jobs -> Provision_loop now i jobs decisions result s = (s', r', Err e) -> oc_Status r' = StatusFailed.
Proof.
  revert i result s. induction jobs as [|[item request] jobs IH]; intros i result s; simpl; [done|].
  intros [[driver Hd] Hj]%Forall_cons.
  destruct (Provision_item now i item request decisions result s) as [[s1 r1] [d|err]] eqn:Hi; [by apply IH|].
  intros [= <- <- <-]. by eapply Provision_item_failed.
Qed.

Lemma Verify_loop_failed i jobs result decisions s s' r' d' e :
  driven jobs -> Verify_loop now i jobs result decisions s = (s', r', d', Err e) -> oc_Status r' = StatusFailed.
Proof.
  revert i result decisions s. induction jobs as [|[item request] jobs IH]; intros i result decisions s; simpl; [done|].
  intros [[driver Hd] Hj]%Forall_cons.
  destruct (Verify_item now i item request result decisions s) as [[[s1 r1] d1] [[]|err]] eqn:Hi; [by apply IH|].
  intros [= <- <- <- <-]. by eapply Verify_item_failed.
Qed.

Lemma BuildPlan_driven application requests plan :
  BuildPlan application requests = Ok plan -> driven (zip (pn_Items plan) requests).
Proof.
  intros (_ & _ & Hall)%BuildPlan_ok. unfold driven.
  induction Hall as [|q item qs items Hq Hall IH]; simpl; constructor; [|done].
  destruct (pd_driver _ _ _ Hq) as (driver & Hd & _). by exists driver.
Qed.

Lemma Run_failed application requests s s' r e :
  Run now application requests s = (s', r, Err e) -> oc_Status r = StatusFailed.
Proof.
  unfold Run. destruct (Prepare _ _ _ _) as [[s1 r1] [ex|err]] eqn:Hp.
  - pose proof (Prepare_execution _ _ _ _ _ _ Hp) as (Hreq & Hres & _ & Hplan & _).
    apply BuildPlan_driven in Hplan.
    unfold ProvisionAndBind. rewrite Hres.
    destruct (Provision_loop _ _ _ _ _ _) as [[s2 r2] [[]|err]] eqn:Hl.
    + apply Provision_loop_keeps in Hl as (Hp2 & _ & _). unfold Verify, ex_jobs. simpl. rewrite Hreq, Hp2.
      destruct (Verify_loop _ _ _ _ _ _) as [[[s3 r3] d3] [[]|err]] eqn:Hv; [done|].
      intros [= <- <- <-]. by eapply Verify_loop_failed.
    + intros [= <- <- <-]. unfold ex_jobs in Hl. rewrite Hreq, Hres in Hl. by eapply Provision_loop_failed.
  - intros [= <- <- <-]. revert Hp. unfold Prepare.
    destruct (BuildPlan application requests) as [plan|] eqn:Hplan; [|by intros [= <- <- <-]].
    apply BuildPlan_driven in Hplan.
    destruct (Prepare_loop _ _ _ _ _ _) as [[s0 r0] [d|err']] eqn:Hloop; [done|].
    intros [= <- <- <-]. by eapply Prepare_loop_failed.
Qed.

Lemma NewDriverAdapter_ok driver descriptor a :
  NewDriverAdapter (Some driver) descriptor = Ok a <->
  IntegrationDescriptor_Validate descriptor = Ok tt /\
  pr_Kind (dr_Descriptor driver) = pr_Kind (ds_Provider descriptor) /\
  pr_Capabilities (dr_Descriptor driver) ≡ₚ pr_Capabilities (ds_Provider descriptor) /\
  a = mkDriverAdapter (W := W) driver descriptor.
Proof.
  unfold NewDriverAdapter.
  rewrite seq_Ok, unit_Ok, !reject_seq_Ok, neqb_false, negb_false_iff, sameCapabilitySet_permutation.
  naive_solver.
Qed.
End facts.

(** The order of a run.  Its driver calls follow the plan stage by stage and
    request by request, every call but the last succeeds, and a run without
    error makes all of them: the preflights and observations of every request;
    then for each request the provisioning, except where the decision is to do
    nothing or only to observe, and the binding; then the verifications.  When
    the preparation fails nothing else is called, and no run goes on past a
    blocked decision. *)
Theorem Run_sequence `{NetURL} {W} now application (requests : list (Request W)) s s' r o :
  Run now application requests s = (s', r, o) ->
  (exists err, snd (Prepare now application requests s) = Err err /\ o = Err err /\
     stage (stage_calls prepare_calls 0 requests) s s' o) \/
  (exists e, snd (Prepare now application requests s) = Ok e /\
     Forall (fun d => r_Action d <> ActionBlocked) (ex_decisions e) /\
     stage (stage_calls prepare_calls 0 requests ++
            stage_calls (provision_calls (ex_decisions e)) 0 requests ++
            stage_calls verify_calls 0 requests) s s' o).
Proof. apply Run_stages. Qed.

(** C1: No mutation before preflight: a run that provisions or binds anything has
    first made every preflight and observation of every request, and all of
    them succeeded. *)
Theorem Run_preflight_first `{NetURL} {W} now application (requests : list (Request W)) s s' r o phase i b :
  Run now application requests s = (s', r, o) -> phase ∈ [PhaseApply; PhaseBind] ->
  exists t, st_trace s' = st_trace s ++ t /\
    (((phase, i), b) ∈ calls t -> ok_calls (stage_calls prepare_calls 0 requests) `prefix_of` calls t).
Proof.
  intros Hr Hphase.
  assert (Hn : (phase, i) ∉ stage_calls prepare_calls 0 requests).
  { intros Hin. apply prepare_calls_phase in Hin. revert Hphase.
    rewrite !elem_of_cons, elem_of_nil. destruct Hin as [->| ->]; intros [Hx|[Hx|[]]]; discriminate Hx. }
  apply Run_stages in Hr as [(err & _ & _ & t & Ht & Hf & _)|(e & _ & _ & t & Ht & Hf & _)];
    exists t; split; try done; intros Hc.
  - apply (follows_elem _ _ _ _ Hf) in Hc. done.
  - by eapply follows_prefix.
Qed.

(** C9: A run that reports no error has converged: its status is ready, it has one
    reconciliation entry per reconciliation driver, in order, and each of them
    shows a resource that is in sync unless its observed owner is not
    BaseHarbor. *)
Theorem Run_converged `{NetURL} {W} now application (requests : list (Request W)) s s' r :
  Run now application requests s = (s', r, Ok tt) ->
  oc_Status r = StatusReady /\ BuildPlan application requests = Ok (oc_Plan r) /\
  map rr_Resource (oc_Reconciliation r) = reconciled_resources (zip (pn_Items (oc_Plan r)) requests) /\
  Forall (fun rr => converged (rr_Result rr)) (oc_Reconciliation r).
Proof.
  intros (s1 & r1 & e & s2 & r2 & r3 & d3 & Hp & Hl & Hv & ->)%Run_ok.
  pose proof (Prepare_execution _ _ _ _ _ _ _ Hp) as (Hreq & Hres & _ & Hplan & _).
  apply Provision_loop_keeps in Hl as (Hp2 & Hr2 & _).
  apply Verify_loop_converged in Hv as (Hp3 & Hmap & Hconv).
  assert (Hrec : map rr_Resource (oc_Reconciliation r1) =
    reconciled_resources (zip (pn_Items (oc_Plan r1)) requests)).
  { revert Hp. unfold Prepare. rewrite Hplan.
    destruct (Prepare_loop _ _ _ _ _ _) as [[s0 r0] [d|err]] eqn:Hloop; [|done].
    intros [= <- <- <-]. by apply Prepare_loop_reconciliation in Hloop. }
  simpl. rewrite Hp3, Hp2, Hmap, Hr2. split_and!; [done..|].
  apply Forall_forall. intros rr [Hc|[Hin Hn]]%Hconv; [done|]. destruct Hn.
  rewrite Hp2, <- Hrec, <- Hr2. by apply list_elem_of_fmap_2.
Qed.

Lemma Run_sequence_witness :
  let '(s', r, o) := sample_run (fun _ => true) OwnershipBaseHarbor in
  o = Ok tt /\ calls (st_trace s') = ok_calls [(PhasePreflight, 0); (PhaseObserve, 0); (PhaseApply, 0);
    (PhaseBind, 0); (PhaseVerify, 0); (PhaseObserve, 0)] /\
  ((exists err, snd (Prepare (net := sample_url) sample_clock "alpha"
      [sample_request (sample_driver (fun _ => true) OwnershipBaseHarbor)] (mkSt false [])) = Err err) \/
   (exists e, snd (Prepare (net := sample_url) sample_clock "alpha"
      [sample_request (sample_driver (fun _ => true) OwnershipBaseHarbor)] (mkSt false [])) = Ok e)).
Proof.
  destruct (sample_run (fun _ => true) OwnershipBaseHarbor) as [[s' r] o] eqn:Hrun.
  split; [|split].
  - vm_compute in Hrun. by injection Hrun as <- <- <-.
  - vm_compute in Hrun. by injection Hrun as <- <- <-.
  - unfold sample_run in Hrun. apply Run_sequence in Hrun as [(err & He & _)|(e & He & _)]; [left|right]; eauto.
Defined.

Lemma Run_preflight_first_witness :
  let '(s', r, o) := sample_run (fun _ => true) OwnershipBaseHarbor in
  exists t, st_trace s' = [] ++ t /\ (((PhaseApply, 0%nat), true) ∈ calls t ->
    ok_calls [(PhasePreflight, 0%nat); (PhaseObserve, 0%nat)] `prefix_of` calls t).
Proof.
  destruct (sample_run (fun _ => true) OwnershipBaseHarbor) as [[s' r] o] eqn:Hrun.
  unfold sample_run in Hrun.
  refine (Run_preflight_first (H := sample_url) sample_clock "alpha" _ _ _ _ _ PhaseApply 0 true Hrun _).
  left.
Defined.

Lemma Run_converged_witness :
  oc_Status (snd (fst (sample_run (fun _ => true) OwnershipBaseHarbor))) = StatusReady.
Proof.
  assert (Hrun : sample_run (fun _ => true) OwnershipBaseHarbor =
    (fst (fst (sample_run (fun _ => true) OwnershipBaseHarbor)),
     snd (fst (sample_run (fun _ => true) OwnershipBaseHarbor)), Ok tt)) by (vm_compute; reflexivity).
  exact (proj1 (Run_converged (H := sample_url) sample_clock "alpha" _ _ _ _ Hrun)).
Defined.

(** The proviso about the observed owner matters: [Verify] only insists on
    convergence of resources whose observed owner is BaseHarbor, and an
    observation without an owner counts as unknown.  A run whose provisioning
    leaves the resource missing, observed without an owner, still ends ready
    and without error. *)
Theorem Run_ready_while_missing :
  exists s' r, sample_run (fun w => w) "" = (s', r, Ok tt) /\ oc_Status r = StatusReady /\
    map (fun rr => r_State (rr_Result rr)) (oc_Reconciliation r) = [StateMissing].
Proof. do 2 eexists. split; [vm_compute; reflexivity|]. split; vm_compute; reflexivity. Qed.

(** The status of a run tells its outcome: it is ready exactly when no error is
    returned. *)
Theorem Run_status `{NetURL} {W} now application (requests : list (Request W)) s s' r o :
  Run now application requests s = (s', r, o) -> (oc_Status r = StatusReady <-> o = Ok tt).
Proof.
  destruct o as [[]|e]; intros Hr.
  - apply Run_ok in Hr as (s1 & r1 & e & s2 & r2 & r3 & d3 & _ & _ & _ & ->). done.
  - apply Run_failed in Hr. rewrite Hr. done.
Qed.

Lemma Run_status_witness :
  let '(_, r, o) := sample_run (fun w => w) OwnershipBaseHarbor in
  is_err o = true /\ (oc_Status r = StatusReady <-> o = Ok tt).
Proof.
  destruct (sample_run (fun w => w) OwnershipBaseHarbor) as [[s' r] o] eqn:Hrun. split.
  - vm_compute in Hrun. by injection Hrun as <- <- <-.
  - exact (Run_status (H := sample_url) sample_clock "alpha" _ _ _ _ _ Hrun).
Defined.

(** A driver adapter is built exactly for a driver whose kind, and capabilities
    up to order, are those of a valid integration descriptor; it then behaves as
    the driver in every call, but no longer reconciles: its runs observe
    nothing and always provision. *)
Theorem NewDriverAdapter_spec {W} (driver : option (Driver W)) descriptor a :
  NewDriverAdapter driver descriptor = Ok a <->
  exists d, driver = Some d /\ IntegrationDescriptor_Validate descriptor = Ok tt /\
    pr_Kind (dr_Descriptor d) = pr_Kind (ds_Provider descriptor) /\
    pr_Capabilities (dr_Descriptor d) ≡ₚ pr_Capabilities (ds_Provider descriptor) /\
    a = mkDriverAdapter d descriptor /\
    adapted_driver a = mkDriver (dr_Descriptor d) (dr_Preflight d) (dr_Provision d) (dr_Bind d) (dr_Verify d) None.
Proof.
  destruct driver as [d|]; [rewrite NewDriverAdapter_ok|split; [done|by intros (? & ? & _)]].
  split; [intros (? & ? & ? & ->); by exists d|intros (? & [= <-] & ? & ? & ? & -> & _); done].
Qed.
