(* ===== verification/Topology.v ===== *)
(** * Provider topology (internal/providertopology)

    Binding the member intent of a provider to its retained native state, a
    protected Compose file.  Parsing YAML is the work of a third-party package,
    which enters as an interface; a Go map is the list of its entries in the
    order a range loop visits them, which is any order. *)

From S2P Require Import Prelude GoStrings Availability FileSystem.

(** ** Data *)

(** The Go values a YAML document decodes to ([any]).  A scalar that is no
    string is kept as [fmt.Sprint] renders it. *)
Inductive any : Type :=
| ANull
| AScalar (rendered : string)
| AString (s : string)
| AList (l : list any)
| AMap (entries : list (string * any)).

(** Entry of a [map[string]any]. *)
Fixpoint lookup_any (entries : list (string * any)) (key : string) : option any :=
  match entries with
  | [] => None
  | (k, v) :: rest => if k == key then Some v else lookup_any rest key
  end.

(** The [services] of a document, [None] when it has none. *)
Class YAML := yaml_services : string -> result error (option (list (string * any))).

(** [fmt.Sprint] of a decoded value; a map prints its keys in order. *)
Fixpoint Sprint (v : any) : string :=
  match v with
  | ANull => "<nil>"
  | AScalar rendered => rendered
  | AString s => s
  | AList l => "[" +:+ Join (map Sprint l) " " +:+ "]"
  | AMap entries =>
      let printed := map (fun e => (fst e, Sprint (snd e))) entries in
      "map[" +:+ Join (map (fun e => fst e +:+ ":" +:+ snd e) (sort_by fst printed)) " " +:+ "]"
  end.

Section topology.
Context {os : OS} {yaml : YAML}.

Definition plain (text : string) : os_error := mkOsError (errorsNew text) false.

(** ** Retained state (members.go) *)

(** 0o077 *)
Definition group_or_world : Z := 63.

Definition ServiceNames (fs : fsys) (compose : string) : result os_error (list (string * any)) :=
  info ← Lstat fs compose;
  reject (negb (f_Regular info) || (Z.land (f_Perm info) group_or_world != 0)%Z)
    (plain "provider topology requires protected regular Compose state") ;;
  data ← ReadFile fs compose;
  services ← wrap_err (fun err => mkOsError err false) (yaml_services data);
  match services with
  | None => Err (plain "retained provider has no service inventory")
  | Some services => Ok services
  end.

Definition Names (prefix : string) (count : Z) : list string :=
  map (fun n => prefix +:+ "-" +:+ Itoa (Z.of_nat n)) (seq 1 (Z.to_nat count)).

(** The ordinal a service name carries after the prefix. *)
Definition member_number (prefix service : string) : option Z :=
  if HasPrefix service (prefix +:+ "-") then
    match Atoi (TrimPrefix service (prefix +:+ "-")) with
    | Some n => if (0 <? n)%Z then Some n else None
    | None => None
    end
  else None.

Definition member_numbers (prefix : string) (services : list (string * any)) : gset Z :=
  list_to_set (omap (fun s => member_number prefix (fst s)) services).

Definition ExistingMembers (fs : fsys) (compose prefix : string) : result os_error Z :=
  services ← ServiceNames fs compose;
  let members := member_numbers prefix services in
  reject (size members == 0%nat) (plain "retained provider has no identifiable data members") ;;
  reject (negb (forallb (fun n => bool_decide (Z.of_nat n ∈ members)) (seq 1 (size members))))
    (plain "retained provider member inventory is incomplete") ;;
  Ok (Z.of_nat (size members)).

(** The member count an intent asks for. *)
Definition desired_members (recommended : Z) (intent : list Requirement) : result os_error Z :=
  match intent with
  | [] => Ok 1%Z
  | i :: _ =>
      if req_HA i then
        let desired := if (0 <? req_Instances i)%Z then req_Instances i else recommended in
        reject (desired <? 2)%Z (plain "provider HA requires multiple members") ;;
        Ok desired
      else
        reject (1 <? req_Instances i)%Z (plain "multiple provider members require explicit ha: true") ;;
        Ok 1%Z
  end.

Definition ResolveMembers (fs : fsys) (compose prefix : string) (recommended : Z) (intent : list Requirement)
    : result os_error Z :=
  reject (1 <? Z.of_nat (length intent))%Z (plain "one provider availability intent required") ;;
  desired ← desired_members recommended intent;
  match ExistingMembers fs compose prefix with
  | Err err => if oe_NotExist err then Ok desired else Err err
  | Ok actual =>
      reject ((Z.of_nat (length intent) =? 1)%Z && (desired != actual))
        (mkOsError (Errorf "provider topology change blocked: retained %s has %d data members, requested %d; preserve the existing intent or perform an explicitly supported data migration"
          [AStr prefix; AInt actual; AInt desired]) false) ;;
      Ok actual
  end.

(** Whether the map has the key. *)
Definition has_service (services : list (string * any)) (name : string) : bool :=
  bool_decide (name ∈ map fst services).

Definition RequireVariant (fs : fsys) (compose single haMarker : string) (ha : bool) : result os_error unit :=
  match ServiceNames fs compose with
  | Err err => if oe_NotExist err then Ok tt else Err err
  | Ok services =>
      let retainedHA := has_service services haMarker in
      let retainedSingle := has_service services single in
      reject (retainedHA == retainedSingle) (plain "retained provider storage layout is unverified") ;;
      reject (retainedHA != ha)
        (plain "provider topology change blocked: retained storage layout differs from explicit HA intent; use an explicitly supported data migration")
  end.

(** ** Completed prerequisites (completed_prerequisites.go) *)

(** [requirement["condition"] == "..."]: the value is that string. *)
Definition has_text (entries : list (string * any)) (key text : string) : bool :=
  match lookup_any entries key with Some (AString s) => s == text | _ => false end.

(** The body of the loop over the dependencies of a service. *)
Definition select_prerequisite (services : list (string * any)) (selected : gset string)
    (dependency : string * any) : result os_error (gset string) :=
  let '(service, rawRequirement) := dependency in
  match rawRequirement with
  | AMap requirement =>
      if negb (has_text requirement "condition" "service_completed_successfully") then Ok selected
      else match lookup_any services service with
      | Some (AMap prerequisite) =>
          reject (negb (has_text prerequisite "restart" "no"))
            (plain "completed provider prerequisite has no canonical one-shot definition") ;;
          Ok ({[service]} ∪ selected)
      | _ => Err (plain "completed provider prerequisite has no canonical one-shot definition")
      end
  | _ => Ok selected
  end.

(** [dependencies, _ := spec["depends_on"].(map[string]any)] *)
Definition depends_on (spec : list (string * any)) : list (string * any) :=
  match lookup_any spec "depends_on" with Some (AMap dependencies) => dependencies | _ => [] end.

Definition CompletedPrerequisiteServices (fs : fsys) (compose : string) : result os_error (list string) :=
  services ← ServiceNames fs compose;
  selected ← forE (fun selected service =>
    match snd service with
    | AMap spec => forE (select_prerequisite services) selected (depends_on spec)
    | _ => Err (plain "provider service definition is invalid")
    end) ∅ services;
  Ok (sort_strings (elements selected)).

(** ** Observation (observation.go) *)

Record Observation := mkObservation {
  ob_Provider : string;
  ob_Component : string;
  ob_Replication : string;
  ob_Instance : string;
  ob_RequestedHA : bool;
  ob_Members : Z;
  ob_DataMembers : Z;
  ob_Helpers : Z;
  ob_DeclaredMembers : Z;
  ob_DeclaredHelpers : Z;
  ob_MemberNames : list string;
  ob_HelperNames : list string;
  ob_SemanticProof : string }.

(** What [Detail] says of replication and failover: ha-active, replicas,
    replication-proof, failover-proof. *)
Definition detail_claims (o : Observation) : string * string * string * string :=
  let redundant := (1 <? ob_Members o)%Z in
  let '(active, replication, proof, failover) :=
    if redundant then
      if (ob_SemanticProof o != "") && (ob_Members o =? ob_DeclaredMembers o)%Z then
        let '(replication, failover) :=
          if bool_decide (ob_SemanticProof o ∈ ["valkey-primary-replicas-sentinel"; "mongodb-primary-secondaries"])
          then (Itoa (ob_DataMembers o - 1), "quorum-ready")
          else if ob_SemanticProof o == "rabbitmq-cluster-membership"
          then ("queue-policy-dependent", "cluster-ready-data-policy-dependent")
          else (ob_Replication o, "unknown") in
        ("true", replication, ob_SemanticProof o, failover)
      else ("unknown", ob_Replication o, "not-collected", "unknown")
    else ("false", ob_Replication o, "not-collected", "false") in
  let replication :=
    if (ob_DeclaredMembers o <=? 1)%Z && (replication == "configured-not-proven") then "0" else replication in
  (active, replication, proof, failover).

Definition Detail (o : Observation) : text :=
  let '(active, replication, proof, failover) := detail_claims o in
  Sprintf "provider=%s instance=%s ha-requested=%t ha-active=%s data-members=%d service-members=%d replicas=%s auxiliary-services=%d/%d configured-service-members=%d members=[%s] helpers=[%s] process-redundancy=%t replication-proof=%s failover-proof=%s host-failure-tolerance=false"
    [AStr (ob_Provider o); AStr (ob_Instance o); ABool (ob_RequestedHA o); AStr active; AInt (ob_DataMembers o);
     AInt (ob_Members o); AStr replication; AInt (ob_Helpers o); AInt (ob_DeclaredHelpers o);
     AInt (ob_DeclaredMembers o); AStr (Join (ob_MemberNames o) ","); AStr (Join (ob_HelperNames o) ",");
     ABool (1 <? ob_Members o)%Z; AStr proof; AStr failover].

(** The results of [classifyRole]. *)
Record Role := mkRole {
  ro_Provider : string;
  ro_Component : string;
  ro_Replication : string;
  ro_Data : bool;
  ro_Member : bool }.

Definition auxiliary_name (name : string) : bool :=
  HasSuffix name "-admin" || HasSuffix name "-init" || Contains name "-access" || Contains name "-sentinel" ||
  Contains name "-etcd-" || HasSuffix name "-ui" || Contains name "pgadmin" || Contains name "cache-ui" ||
  Contains name "redisinsight".

Definition classifyRole (name image : string) (command : any) : Role :=
  let auxiliary := auxiliary_name name in
  if HasPrefix name "seaweedfs-" then
    mkRole "seaweedfs" "object_storage" "configured-not-proven"
      (HasPrefix name "seaweedfs-node-") (HasPrefix name "seaweedfs-node-")
  else if Contains image "prometheus:" || HasPrefix name "prometheus" then
    let member := Contains image "prometheus:" && negb auxiliary in
    mkRole "prometheus" "metrics" "0-independent-tsdb" member member
  else if Contains image "opentelemetry-collector" || HasPrefix name "otel-collector" then
    mkRole "otel-collector" "telemetry" "0-stateless" false (negb auxiliary)
  else if HasPrefix name "keycloak-db" then
    let member := negb auxiliary && (Contains image "postgres:" || Contains image "spilo-") in
    mkRole "keycloak-sql" "identity" "configured-not-proven" member member
  else if Contains image "keycloak:" then
    mkRole "keycloak" "identity" "0-shared-sql" false (negb auxiliary)
  else if Contains image "pgadmin" || Contains name "pgadmin" || Contains image "postgres:" ||
          Contains image "spilo-" || HasPrefix name "postgres" || HasPrefix name "shared-postgres" then
    let member := negb auxiliary && (Contains image "postgres:" || Contains image "spilo-") in
    mkRole "postgresql" "sql" "configured-not-proven" member member
  else if Contains image "openbao:" || HasPrefix name "openbao" then
    mkRole "openbao" "secrets" "0-shared-sql" false (negb auxiliary && Contains image "openbao:")
  else if Contains name "cache-ui" || Contains image "redisinsight" || Contains image "valkey:" ||
          HasPrefix name "valkey" || HasPrefix name "shared-valkey" then
    let member := negb auxiliary && Contains image "valkey:" in
    mkRole "valkey" "cache" "configured-not-proven" member member
  else if Contains image "rabbitmq:" || HasPrefix name "rabbitmq" then
    let member := negb auxiliary && Contains image "rabbitmq:" in
    mkRole "rabbitmq" "messaging" "configured-not-proven" member member
  else if Contains image "mongo:" || HasPrefix name "mongodb" then
    let member := negb auxiliary && Contains image "mongo:" in
    mkRole "mongodb" "document_database" "configured-not-proven" member member
  else if Contains image "loki:" || Contains name "loki" || Contains image "alloy:" then
    let member := Contains image "loki:" && negb auxiliary in
    mkRole "loki" "logs" "configured-not-proven" member member
  else if Contains image "tempo:" || HasPrefix name "tempo" then
    if Contains image "redpandadata/redpanda:" then
      mkRole "tempo-kafka" "traces" "configured-not-proven" (negb auxiliary) (negb auxiliary)
    else
      let member := Contains image "tempo:" && negb auxiliary in
      let text := Sprint command in
      let data := member && ((name == "tempo") || Contains text "live-store" || Contains text "block-builder") in
      mkRole "tempo" "traces" "configured-not-proven" data member
  else if Contains image "redpandadata/redpanda:" then
    mkRole "tempo-kafka" "traces" "configured-not-proven" (negb auxiliary) (negb auxiliary)
  else mkRole "" "" "" false false.

(** The text before a provider-owned ordinal greater than [least] after the
    last marker. *)
Definition before_ordinal (name marker : string) (least : Z) : option string :=
  match LastCut name marker with
  | Some (base, ordinal) =>
      match Atoi ordinal with
      | Some n => if (least <? n)%Z then Some base else None
      | None => None
      end
  | None => None
  end.

(** One step of [datastoreRoot]: the name it goes on with, if any. *)
Definition datastore_parent (name : string) (services : list (string * any)) : option string :=
  match omap (fun marker => before_ordinal name marker 0) ["-member-"; "-etcd-"; "-sentinel-"] with
  | base :: _ => Some base
  | [] =>
      match List.filter (HasSuffix name) ["-access"; "-admin"; "-init"; "-sentinel"; "-ui"] with
      | suffix :: _ => Some (TrimSuffix name suffix)
      | [] =>
          match before_ordinal name "-" 1 with
          | Some base => if has_service services base then Some base else None
          | None => None
          end
      end
  end.

(** Each step shortens the name, so its length is enough fuel. *)
Fixpoint datastoreRoot_fuel (fuel : nat) (name : string) (services : list (string * any))
    (explicit : gmap string string) : string :=
  match explicit !! name with
  | Some root => root
  | None =>
      match datastore_parent name services, fuel with
      | Some base, S fuel => datastoreRoot_fuel fuel base services explicit
      | _, _ => name
      end
  end.

Definition datastoreRoot (name : string) (services : list (string * any)) (explicit : gmap string string) : string :=
  datastoreRoot_fuel (S (strlen name)) name services explicit.

(** The group a service belongs to: its provider, instance, component,
    replication, and its role. *)
Record Placed := mkPlaced {
  pc_Role : Role;
  pc_Instance : string;
  pc_Component : string }.

Definition place_service (services : list (string * any)) (groupNames : gmap string string)
    (service : string * any) : result os_error (option Placed) :=
  let '(name, raw) := service in
  match raw with
  | AMap spec =>
      let image := match lookup_any spec "image" with Some (AString s) => s | _ => "" end in
      let role := classifyRole name image (default ANull (lookup_any spec "command")) in
      if ro_Provider role == "" then Ok None
      else if bool_decide (ro_Provider role ∈ ["postgresql"; "valkey"; "rabbitmq"; "mongodb"]) then
        let instance := datastoreRoot name services groupNames in
        Ok (Some (mkPlaced role instance
          (if HasPrefix instance "key_value/" then "key_value" else ro_Component role)))
      else Ok (Some (mkPlaced role (ro_Provider role) (ro_Component role)))
  | _ => Err (mkOsError (Errorf "invalid retained service role for %s" [AStr name]) false)
  end.

Definition group_key (p : Placed) : string := ro_Provider (pc_Role p) +:+ "/" +:+ pc_Instance p.

Definition new_group (intent : Intent) (p : Placed) : Observation :=
  mkObservation (ro_Provider (pc_Role p)) (pc_Component p) (ro_Replication (pc_Role p)) (pc_Instance p)
    (req_HA (Intent_Resolve intent (pc_Component p))) 0 0 0 0 0 [] [] "".

(** The counters of a group for one more service. *)
Definition count_service (live : bool) (name : string) (p : Placed) (o : Observation) : Observation :=
  let one (b : bool) : Z := if b then 1%Z else 0%Z in
  let member := ro_Member (pc_Role p) in
  mkObservation (ob_Provider o) (ob_Component o) (ob_Replication o) (ob_Instance o) (ob_RequestedHA o)
    (ob_Members o + one (live && member))%Z (ob_DataMembers o + one (live && ro_Data (pc_Role p)))%Z
    (ob_Helpers o + one (live && negb member))%Z
    (ob_DeclaredMembers o + one member)%Z (ob_DeclaredHelpers o + one (negb member))%Z
    (if live && member then ob_MemberNames o ++ [name] else ob_MemberNames o)
    (if live && negb member then ob_HelperNames o ++ [name] else ob_HelperNames o)
    (ob_SemanticProof o).

(** The body of the loop over the services. *)
Definition observe_service (services : list (string * any)) (live : gset string) (groupNames : gmap string string)
    (intent : Intent) (groups : gmap string Observation) (service : string * any)
    : result os_error (gmap string Observation) :=
  placed ← place_service services groupNames service;
  match placed with
  | None => Ok groups
  | Some p =>
      let o := default (new_group intent p) (groups !! group_key p) in
      Ok (<[group_key p := count_service (bool_decide (fst service ∈ live)) (fst service) p o]> groups)
  end.

Definition sort_names (o : Observation) : Observation :=
  mkObservation (ob_Provider o) (ob_Component o) (ob_Replication o) (ob_Instance o) (ob_RequestedHA o)
    (ob_Members o) (ob_DataMembers o) (ob_Helpers o) (ob_DeclaredMembers o) (ob_DeclaredHelpers o)
    (sort_strings (ob_MemberNames o)) (sort_strings (ob_HelperNames o)) (ob_SemanticProof o).

Definition Topology_Observe (fs : fsys) (compose : string) (running : list string) (intent : Intent)
    (explicitGroups : list (gmap string string)) : result os_error (list Observation) :=
  services ← ServiceNames fs compose;
  let groupNames := match explicitGroups with groups :: _ => groups | [] => ∅ end in
  groups ← forE (observe_service services (list_to_set running) groupNames intent) ∅ services;
  Ok (sort_by (fun o => ob_Provider o +:+ ob_Instance o) (map snd (map_to_list ((sort_names <$> groups) : gmap string Observation)))).
End topology.

(** ** The order of the services does not matter *)

(** Observations up to the order of their names. *)
Record obs_eq (o o' : Observation) : Prop := mkObsEq {
  oe_provider : ob_Provider o = ob_Provider o';
  oe_component : ob_Component o = ob_Component o';
  oe_replication : ob_Replication o = ob_Replication o';
  oe_instance : ob_Instance o = ob_Instance o';
  oe_ha : ob_RequestedHA o = ob_RequestedHA o';
  oe_members : ob_Members o = ob_Members o';
  oe_data : ob_DataMembers o = ob_DataMembers o';
  oe_helpers : ob_Helpers o = ob_Helpers o';
  oe_declared_members : ob_DeclaredMembers o = ob_DeclaredMembers o';
  oe_declared_helpers : ob_DeclaredHelpers o = ob_DeclaredHelpers o';
  oe_member_names : ob_MemberNames o ≡ₚ ob_MemberNames o';
  oe_helper_names : ob_HelperNames o ≡ₚ ob_HelperNames o';
  oe_proof : ob_SemanticProof o = ob_SemanticProof o' }.

Definition groups_eq (m m' : gmap string Observation) : Prop :=
  forall k, option_Forall2 obs_eq (m !! k) (m' !! k).

(** Outcomes up to the order of names and the choice of the error. *)
Definition outcome_eq {A} (R : A -> A -> Prop) (r r' : result os_error A) : Prop :=
  match r, r' with
  | Ok a, Ok a' => R a a'
  | Err _, Err _ => True
  | _, _ => False
  end.

(** The providers of [classifyRole], with the component and the replication
    each of them has. *)
Definition provider_roles : list (string * (string * string)) :=
  [("seaweedfs", ("object_storage", "configured-not-proven")); ("prometheus", ("metrics", "0-independent-tsdb"));
   ("otel-collector", ("telemetry", "0-stateless")); ("keycloak-sql", ("identity", "configured-not-proven"));
   ("keycloak", ("identity", "0-shared-sql")); ("postgresql", ("sql", "configured-not-proven"));
   ("openbao", ("secrets", "0-shared-sql")); ("valkey", ("cache", "configured-not-proven"));
   ("rabbitmq", ("messaging", "configured-not-proven")); ("mongodb", ("document_database", "configured-not-proven"));
   ("loki", ("logs", "configured-not-proven")); ("tempo-kafka", ("traces", "configured-not-proven"));
   ("tempo", ("traces", "configured-not-proven")); ("", ("", ""))].

(** How the groups of two placed services relate to their keys. *)
Definition same_group (p q : Placed) : Prop :=
  ro_Provider (pc_Role p) = ro_Provider (pc_Role q) /\ pc_Instance p = pc_Instance q /\
  pc_Component p = pc_Component q /\ ro_Replication (pc_Role p) = ro_Replication (pc_Role q).

Definition datastores : list string := ["postgresql"; "valkey"; "rabbitmq"; "mongodb"].

(** What [place_service] can answer. *)
Definition placed_ok (p : Placed) : Prop :=
  ro_Provider (pc_Role p) <> "" /\
  (ro_Provider (pc_Role p), (ro_Component (pc_Role p), ro_Replication (pc_Role p))) ∈ provider_roles /\
  pc_Component p = (if bool_decide (ro_Provider (pc_Role p) ∈ datastores) && HasPrefix (pc_Instance p) "key_value/"
                    then "key_value" else ro_Component (pc_Role p)) /\
  (ro_Provider (pc_Role p) ∉ datastores -> pc_Instance p = ro_Provider (pc_Role p)).

(** ** A sample

    A protected file of two members and a proxy. *)

Definition sample_services : list (string * any) :=
  [("pg-2", AMap []); ("proxy", AMap []); ("pg-1", AMap [])].
Definition sample_yaml : YAML := fun _ => Ok (Some sample_services).
Definition sample_compose : fsys := {["compose.yaml" := mkFile "" true 384%Z]}.
Definition no_faults : OS := mkOS (fun _ => None) (fun _ f => f).

(** ** Facts *)

Section facts.
Context {os : OS} {yaml : YAML}.

Lemma TrimPrefix_app p s : TrimPrefix (p +:+ s) p = s.
Proof. unfold TrimPrefix. by rewrite (proj2 (strip_prefix_spec p (p +:+ s) s)). Qed.

Lemma HasPrefix_app p s : HasPrefix (p +:+ s) p = true.
Proof. apply HasPrefix_spec. by exists s. Qed.

(** A member name carries its number. *)
Lemma member_number_name prefix n :
  (1 <= n <= max_int)%Z -> member_number prefix (prefix +:+ "-" +:+ Itoa n) = Some n.
Proof.
  intros Hn. unfold member_number.
  assert (prefix +:+ "-" +:+ Itoa n = (prefix +:+ "-") +:+ Itoa n) as -> by (by rewrite string_app_assoc).
  rewrite HasPrefix_app, TrimPrefix_app, Atoi_Itoa by (unfold min_int, max_int in *; lia).
  destruct (Z.ltb_spec 0 n); [done|lia].
Qed.

Lemma elem_of_member_numbers prefix services k :
  k ∈ member_numbers prefix services <-> exists s, s ∈ map fst services /\ member_number prefix s = Some k.
Proof.
  unfold member_numbers. rewrite elem_of_list_to_set, list_elem_of_omap.
  setoid_rewrite list_elem_of_fmap. naive_solver.
Qed.

Lemma member_number_positive prefix s k : member_number prefix s = Some k -> (1 <= k)%Z.
Proof.
  unfold member_number. destruct (HasPrefix _ _); [|done].
  destruct (Atoi _) as [m|]; [|done]. destruct (Z.ltb_spec 0 m); [|done]. intros [= <-]. lia.
Qed.

(** The numbers from 1 to [n]. *)
Definition up_to (n : nat) : gset Z := list_to_set (map Z.of_nat (seq 1 n)).

Lemma elem_of_up_to n k : k ∈ up_to n <-> (1 <= k <= Z.of_nat n)%Z.
Proof.
  unfold up_to. rewrite elem_of_list_to_set, list_elem_of_fmap. setoid_rewrite elem_of_seq. split.
  - intros (m & -> & Hm). lia.
  - intros Hk. exists (Z.to_nat k). lia.
Qed.

Lemma size_up_to n : size (up_to n) = n.
Proof.
  unfold up_to. rewrite size_list_to_set; [by rewrite length_map, length_seq|].
  apply (NoDup_fmap_2 _), NoDup_seq.
Qed.

(** The inventory is complete when the numbers are those from 1 up. *)
Lemma complete_up_to (m : gset Z) :
  (forall k, k ∈ m -> (1 <= k)%Z) ->
  (forallb (fun n => bool_decide (Z.of_nat n ∈ m)) (seq 1 (size m)) = true <-> m = up_to (size m)).
Proof.
  intros Hpos. rewrite forallb_forall. setoid_rewrite bool_decide_eq_true. split.
  - intros Hall. symmetry. apply set_eq.
    assert (Hsub : up_to (size m) ⊆ m).
    { intros k Hk%elem_of_up_to. specialize (Hall (Z.to_nat k)).
      rewrite Z2Nat.id in Hall by lia. apply Hall, in_seq. lia. }
    intros k. split; [apply Hsub|]. intros Hk.
    destruct (decide (k ∈ up_to (size m))) as [|Hn]; [done|].
    assert (size (up_to (size m)) < size m)%nat as Hlt by (apply subset_size; set_solver).
    rewrite size_up_to in Hlt. lia.
  - intros Heq n Hn%in_seq. rewrite Heq. apply elem_of_up_to. lia.
Qed.

Lemma ExistingMembers_ok fs compose prefix n :
  ExistingMembers fs compose prefix = Ok n <->
  exists services, ServiceNames fs compose = Ok services /\
    (1 <= n)%Z /\ member_numbers prefix services = up_to (Z.to_nat n).
Proof.
  unfold ExistingMembers. rewrite bind_Ok. setoid_rewrite reject_seq_Ok. setoid_rewrite reject_seq_Ok.
  setoid_rewrite negb_false_iff. setoid_rewrite eqb_false. split.
  - intros (services & Hs & Hnz & Hc & [= <-]). exists services. split; [done|].
    apply complete_up_to in Hc; [rewrite Nat2Z.id; split; [lia|done]|].
    intros k (s & _ & Hk)%elem_of_member_numbers. by eapply member_number_positive.
  - intros (services & Hs & Hn & Hm). exists services. rewrite Hm, size_up_to. split_and!; [done|lia| |f_equal; lia].
    apply forallb_forall. intros k Hk%in_seq. apply bool_decide_eq_true, elem_of_up_to. lia.
Qed.

Lemma desired_members_single recommended i desired :
  desired_members recommended [i] = Ok desired ->
  if req_HA i then (2 <= desired)%Z /\ desired = (if (0 <? req_Instances i)%Z then req_Instances i else recommended)
  else desired = 1%Z /\ (req_Instances i <= 1)%Z.
Proof.
  unfold desired_members. destruct (req_HA i); rewrite reject_seq_Ok, Z.ltb_ge; [|naive_solver].
  intros [Hge [= <-]]. done.
Qed.
(** ** Datastore roots *)

Lemma LastCut_spec s sep a b : LastCut s sep = Some (a, b) -> s = a +:+ sep +:+ b.
Proof.
  revert a b. induction s as [|c s IH]; intros a b; [done|]. cbn [LastCut].
  destruct (LastCut s sep) as [[a' b']|].
  - intros [= <- <-]. by rewrite string_app_cons, (IH a' b').
  - destruct (strip_prefix sep (String c s)) as [r|] eqn:Hr; [|done]. intros [= <- <-].
    by apply strip_prefix_spec in Hr.
Qed.

Lemma before_ordinal_shorter name marker least base :
  marker <> "" -> before_ordinal name marker least = Some base -> (strlen base < strlen name)%nat.
Proof.
  intros Hm. unfold before_ordinal. destruct (LastCut name marker) as [[a b]|] eqn:Hc; [|done].
  apply LastCut_spec in Hc as ->. destruct (Atoi b); [|done]. case_match; [|done]. intros [= <-].
  rewrite !strlen_app. destruct marker; [done|]. unfold strlen. simpl. lia.
Qed.

Lemma HasSuffix_spec s p : HasSuffix s p = true -> exists r, s = r +:+ p /\ TrimSuffix s p = r.
Proof.
  unfold HasSuffix, TrimSuffix. intros (r & Hr)%HasPrefix_spec. exists (String.rev r).
  rewrite <- (rev_involutive s), Hr, rev_app_distr, rev_involutive. split; [done|].
  by rewrite rev_app_distr, !rev_involutive, TrimPrefix_app.
Qed.

(** Each step of the walk to the root shortens the name. *)
Lemma datastore_parent_shorter name services base :
  datastore_parent name services = Some base -> (strlen base < strlen name)%nat.
Proof.
  unfold datastore_parent. destruct (omap _ _) as [|b bs] eqn:Ho.
  - destruct (List.filter _ _) as [|suffix rest] eqn:Hf.
    + destruct (before_ordinal name "-" 1) as [b|] eqn:Hb; [|done].
      apply before_ordinal_shorter in Hb; [|done]. case_match; [|done]. by intros [= <-].
    + intros [= <-]. assert (suffix ∈ suffix :: rest) as Hin by left. rewrite <- Hf in Hin.
      apply elem_of_filter_true in Hin as [Hs Hin]. apply HasSuffix_spec in Hs as (r & -> & ->).
      rewrite strlen_app. rewrite !elem_of_cons, elem_of_nil in Hin. destruct_or!; subst; simpl; done || (unfold strlen; simpl; lia).
  - intros [= <-]. assert (b ∈ b :: bs) as Hin by left. rewrite <- Ho in Hin.
    apply list_elem_of_omap in Hin as (m & Hm & Hb). eapply before_ordinal_shorter; [|exact Hb].
    rewrite !elem_of_cons, elem_of_nil in Hm. destruct_or!; by subst.
Qed.

Lemma datastoreRoot_enough f g name services explicit :
  (strlen name < f)%nat -> (strlen name < g)%nat ->
  datastoreRoot_fuel f name services explicit = datastoreRoot_fuel g name services explicit.
Proof.
  revert g name. induction f as [|f IH]; intros [|g] name Hf Hg; [lia..|]. simpl.
  destruct (explicit !! name); [done|].
  destruct (datastore_parent name services) as [base|] eqn:Hb; [|done].
  apply datastore_parent_shorter in Hb. apply IH; lia.
Qed.

Lemma datastoreRoot_unfold name services explicit :
  datastoreRoot name services explicit =
  match explicit !! name with
  | Some root => root
  | None =>
      match datastore_parent name services with
      | Some base => datastoreRoot base services explicit
      | None => name
      end
  end.
Proof.
  unfold datastoreRoot at 1. simpl. destruct (explicit !! name); [done|].
  destruct (datastore_parent name services) as [base|] eqn:Hb; [|done].
  apply datastore_parent_shorter in Hb. apply datastoreRoot_enough; lia.
Qed.

(** ** The order of the services *)

Lemma has_service_perm services services' name :
  services ≡ₚ services' -> has_service services name = has_service services' name.
Proof. intros Hp. unfold has_service. apply bool_decide_ext. by rewrite (Permutation_map fst Hp). Qed.

Lemma datastoreRoot_perm services services' name explicit :
  services ≡ₚ services' -> datastoreRoot name services explicit = datastoreRoot name services' explicit.
Proof.
  intros Hp. unfold datastoreRoot. generalize (S (strlen name)). intros f. revert name.
  assert (Hpar : forall n, datastore_parent n services = datastore_parent n services').
  { intros n. unfold datastore_parent. repeat case_match; try done;
      match goal with H : has_service _ _ = _ |- _ => idtac end;
      rewrite (has_service_perm _ _ _ Hp) in *; congruence. }
  induction f as [|f IH]; intros name; simpl; rewrite Hpar; [done|].
  destruct (explicit !! name); [done|]. destruct (datastore_parent name services'); [apply IH|done].
Qed.

Lemma place_service_perm services services' groupNames service :
  services ≡ₚ services' -> place_service services groupNames service = place_service services' groupNames service.
Proof.
  intros Hp. unfold place_service. destruct service as [name []]; try done.
  by rewrite (datastoreRoot_perm _ _ name groupNames Hp).
Qed.
(** *** Roles *)

Lemma classifyRole_provider name image command :
  (ro_Provider (classifyRole name image command),
   (ro_Component (classifyRole name image command), ro_Replication (classifyRole name image command)))
  ∈ provider_roles.
Proof.
  unfold classifyRole, provider_roles. cbv zeta.
  repeat match goal with |- context [if ?b then _ else _] => destruct b end; cbn;
    repeat (first [left | right]).
Qed.
Lemma place_service_ok services groupNames service p :
  place_service services groupNames service = Ok (Some p) -> placed_ok p.
Proof.
  unfold place_service, placed_ok. destruct service as [name [| | | |spec]]; try done.
  set (image := match lookup_any spec "image" with Some (AString s) => s | _ => "" end).
  pose proof (classifyRole_provider name image (default ANull (lookup_any spec "command"))) as Hr.
  set (role := classifyRole _ _ _) in *. clearbody role. fold datastores.
  case_bool_decide as He; [done|]. case_bool_decide as Hd; intros [= <-]; simpl.
  - split_and!; [done..| |done]. by rewrite bool_decide_true.
  - split_and!; [done..| |done]. by rewrite bool_decide_false.
Qed.

(** A provider determines its component and replication. *)
Lemma provider_roles_functional pr a b : (pr, a) ∈ provider_roles -> (pr, b) ∈ provider_roles -> a = b.
Proof.
  intros Ha Hb. assert (Hnd : NoDup (map fst provider_roles)) by (apply (bool_decide_unpack _); vm_compute; exact I).
  pose proof (NoDup_map_inj fst provider_roles (pr, a) (pr, b) Hnd Ha Hb eq_refl) as Heq. by injection Heq.
Qed.

Lemma same_group_intro p q :
  placed_ok p -> placed_ok q -> ro_Provider (pc_Role p) = ro_Provider (pc_Role q) ->
  pc_Instance p = pc_Instance q -> same_group p q.
Proof.
  intros (_ & Hp & Hpc & _) (_ & Hq & Hqc & _) Hpr Hi. rewrite Hpr in Hp.
  pose proof (provider_roles_functional _ _ _ Hp Hq) as Heq. injection Heq as Hc Hr.
  unfold same_group. split_and!; [done..| |done]. by rewrite Hpc, Hqc, Hpr, Hi, Hc.
Qed.

Lemma provider_no_slash pr a : (pr, a) ∈ provider_roles -> has_byte "/" pr = false.
Proof.
  assert (Hall : Forall (fun e => has_byte "/" (fst e) = false) provider_roles)
    by (apply (bool_decide_unpack _); vm_compute; exact I).
  rewrite Forall_forall in Hall. apply (Hall (pr, a)).
Qed.

Lemma group_key_same p q : placed_ok p -> placed_ok q -> group_key p = group_key q -> same_group p q.
Proof.
  intros Hp Hq Hk. unfold group_key in Hk. rewrite !string_app_cons, !string_app_nil_l in Hk.
  apply key_inj in Hk as [Hpr Hi]; [by apply same_group_intro| |].
  - destruct Hp as (_ & Hp & _). by eapply provider_no_slash.
  - destruct Hq as (_ & Hq & _). by eapply provider_no_slash.
Qed.

(** Provider names followed by an instance are unambiguous: no datastore
    begins like another provider, and the others are their own instance. *)
Lemma sort_text_inj pr pr' i j :
  pr ∈ map fst provider_roles -> pr' ∈ map fst provider_roles -> pr <> "" -> pr' <> "" ->
  (pr ∉ datastores -> i = pr) -> (pr' ∉ datastores -> j = pr') -> pr +:+ i = pr' +:+ j -> pr = pr' /\ i = j.
Proof.
  intros Hpr Hpr' He He' Hi Hj. unfold provider_roles, datastores in *. simpl in Hpr, Hpr'.
  rewrite !elem_of_cons, elem_of_nil in Hpr, Hpr'.
  destruct_or!; subst; try done; intros Heq; try (lazy in Heq; discriminate Heq);
    try (lazy in Heq; injection Heq as ->; done);
    exfalso; rewrite Hi, Hj in Heq by (apply (bool_decide_unpack _); vm_compute; exact I);
    vm_compute in Heq; discriminate Heq.
Qed.

(** The order of the answer is the order of these texts. *)
Lemma sort_text_same p q :
  placed_ok p -> placed_ok q ->
  ro_Provider (pc_Role p) +:+ pc_Instance p = ro_Provider (pc_Role q) +:+ pc_Instance q -> same_group p q.
Proof.
  intros Hp Hq Heq. pose proof Hp as (Hpe & Hpr & _ & Hpi). pose proof Hq as (Hqe & Hqr & _ & Hqi).
  apply (list_elem_of_fmap_2 fst) in Hpr, Hqr. simpl in Hpr, Hqr.
  destruct (sort_text_inj _ _ _ _ Hpr Hqr Hpe Hqe Hpi Hqi Heq). by apply same_group_intro.
Qed.

(** *** Groups up to the order of names *)

#[global] Instance obs_eq_equivalence : Equivalence obs_eq.
Proof.
  split.
  - by intros o.
  - intros o o' []. by constructor.
  - intros o o' o'' [] []. constructor; by etrans.
Qed.

#[global] Instance groups_eq_equivalence : Equivalence groups_eq.
Proof.
  split.
  - intros m k. destruct (m !! k); constructor. reflexivity.
  - intros m m' H k. destruct (H k); constructor. by symmetry.
  - intros m m' m'' H H' k. specialize (H k). specialize (H' k).
    inversion H as [a b Hab Ha Hb|Ha Hb]; rewrite <- Hb in H'; inversion H' as [c d Hcd Hc Hd|Hc Hd];
      subst; constructor. by etrans.
Qed.

#[global] Instance insert_proper k :
  Proper (obs_eq ==> groups_eq ==> groups_eq) (insert (M := gmap string Observation) k).
Proof.
  intros o o' Ho m m' Hm k'. destruct (decide (k = k')) as [<-|Hne].
  - rewrite !lookup_insert_eq. by constructor.
  - rewrite !lookup_insert_ne by done. apply Hm.
Qed.

#[global] Instance count_service_proper live name p : Proper (obs_eq ==> obs_eq) (count_service live name p).
Proof.
  intros o o' []. constructor; simpl; try congruence; case_match; try done; by apply Permutation_app_tail.
Qed.

Lemma default_proper o m m' k :
  groups_eq m m' -> obs_eq (default o (m !! k)) (default o (m' !! k)).
Proof. intros Hm. destruct (Hm k) as [a b Hab|]; simpl; [done|reflexivity]. Qed.

Lemma count_service_comm l1 n1 p1 l2 n2 p2 o :
  obs_eq (count_service l1 n1 p1 (count_service l2 n2 p2 o)) (count_service l2 n2 p2 (count_service l1 n1 p1 o)).
Proof.
  assert (Hnames : forall (c1 c2 : bool) (l : list string),
    (if c1 then (if c2 then l ++ [n2] else l) ++ [n1] else if c2 then l ++ [n2] else l) ≡ₚ
    (if c2 then (if c1 then l ++ [n1] else l) ++ [n2] else if c1 then l ++ [n1] else l)).
  { intros [] [] l; try done. rewrite <- !app_assoc. apply Permutation_app_head, Permutation_app_comm. }
  constructor; simpl; try done; try lia; apply Hnames.
Qed.

Lemma new_group_same intent p q : same_group p q -> new_group intent p = new_group intent q.
Proof. intros (Hpr & Hi & Hc & Hr). unfold new_group. by rewrite Hpr, Hi, Hc, Hr. Qed.

(** Counting a placed service in its group. *)
Definition add_service (intent : Intent) (live : gset string) (name : string) (p : Placed)
    (groups : gmap string Observation) : gmap string Observation :=
  <[group_key p := count_service (bool_decide (name ∈ live)) name p
     (default (new_group intent p) (groups !! group_key p))]> groups.

Lemma observe_service_step services live groupNames intent groups service :
  observe_service services live groupNames intent groups service =
  match place_service services groupNames service with
  | Err e => Err e
  | Ok None => Ok groups
  | Ok (Some p) => Ok (add_service intent live (fst service) p groups)
  end.
Proof. unfold observe_service. by destruct (place_service _ _ _) as [[p|]|e]. Qed.

#[global] Instance add_service_proper intent live name p :
  Proper (groups_eq ==> groups_eq) (add_service intent live name p).
Proof. intros m m' Hm. unfold add_service. by rewrite (default_proper _ _ _ _ Hm), Hm. Qed.

Lemma add_service_comm intent live n1 p1 n2 p2 m :
  placed_ok p1 -> placed_ok p2 ->
  groups_eq (add_service intent live n1 p1 (add_service intent live n2 p2 m))
    (add_service intent live n2 p2 (add_service intent live n1 p1 m)).
Proof.
  intros H1 H2. unfold add_service. destruct (decide (group_key p1 = group_key p2)) as [Hk|Hne].
  - rewrite <- Hk, !lookup_insert_eq, !insert_insert_eq. simpl.
    rewrite (new_group_same intent p1 p2) by (by apply group_key_same).
    rewrite count_service_comm. reflexivity.
  - rewrite !lookup_insert_ne by done. rewrite insert_insert_ne by done. reflexivity.
Qed.
(** *** The loop *)

Lemma observe_loop_proper services live groupNames intent l m m' :
  groups_eq m m' ->
  outcome_eq groups_eq (forE (observe_service services live groupNames intent) m l)
    (forE (observe_service services live groupNames intent) m' l).
Proof.
  revert m m'. induction l as [|x l IH]; intros m m' Hm; [done|].
  simpl. rewrite !observe_service_step.
  destruct (place_service _ _ _) as [[p|]|e]; [|by apply IH|done].
  apply IH. by apply add_service_proper.
Qed.

Lemma outcome_eq_trans {A} (R : A -> A -> Prop) `{!Transitive R} r1 r2 r3 :
  outcome_eq R r1 r2 -> outcome_eq R r2 r3 -> outcome_eq R r1 r3.
Proof. destruct r1, r2, r3; simpl; try done. apply transitivity. Qed.

Lemma observe_loop_perm services live groupNames intent l l' :
  l ≡ₚ l' -> forall m,
  outcome_eq groups_eq (forE (observe_service services live groupNames intent) m l)
    (forE (observe_service services live groupNames intent) m l').
Proof.
  induction 1 as [|x l l' _ IH|x y l|l1 l2 l3 _ IH1 _ IH2]; intros m.
  - simpl. reflexivity.
  - simpl. rewrite observe_service_step. destruct (place_service _ _ _) as [[p|]|e]; [apply IH..|done].
  - simpl. rewrite !observe_service_step.
    destruct (place_service services groupNames x) as [[p|]|e] eqn:Hx,
      (place_service services groupNames y) as [[q|]|e'] eqn:Hy;
      rewrite ?observe_service_step, ?Hx, ?Hy; try done; try (apply observe_loop_proper; reflexivity).
    apply observe_loop_proper, add_service_comm; by eapply place_service_ok.
  - eapply outcome_eq_trans; [apply _|apply IH1|apply IH2].
Qed.

Lemma sort_strings_perm l l' : l ≡ₚ l' -> sort_strings l = sort_strings l'.
Proof.
  intros Hp. eapply (StronglySorted_unique String.le).
  - apply StronglySorted_merge_sort; apply _.
  - apply StronglySorted_merge_sort; apply _.
  - by rewrite !sort_strings_Permutation.
Qed.

Lemma sort_names_eq o o' : obs_eq o o' -> sort_names o = sort_names o'.
Proof.
  intros []. unfold sort_names. f_equal; try done; by apply sort_strings_perm.
Qed.

Lemma groups_eq_sorted m m' :
  groups_eq m m' -> (sort_names <$> m : gmap string Observation) = sort_names <$> m'.
Proof.
  intros Hm. apply map_eq. intros k. rewrite !lookup_fmap.
  destruct (Hm k) as [o o' Ho|]; simpl; [by rewrite (sort_names_eq o o' Ho)|done].
Qed.

(** Every group belongs to a placed service. *)
Definition groups_placed (m : gmap string Observation) : Prop :=
  map_Forall (fun k o => exists p, placed_ok p /\ k = group_key p /\
    ob_Provider o = ro_Provider (pc_Role p) /\ ob_Instance o = pc_Instance p) m.

Lemma observe_loop_placed services live groupNames intent l m m' :
  groups_placed m -> forE (observe_service services live groupNames intent) m l = Ok m' -> groups_placed m'.
Proof.
  revert m. induction l as [|x l IH]; intros m Hm; simpl; [by intros [= <-]|].
  rewrite observe_service_step. destruct (place_service _ _ _) as [[p|]|e] eqn:Hx; [|by apply IH|done].
  apply IH, map_Forall_insert_2; [|done]. exists p. apply place_service_ok in Hx. split_and!; [done..| |].
  - simpl. destruct (m !! group_key p) as [o|] eqn:Ho; simpl; [|done].
    destruct (Hm _ _ Ho) as (q & Hq & Hk & -> & _). by destruct (group_key_same p q Hx Hq Hk) as [-> _].
  - simpl. destruct (m !! group_key p) as [o|] eqn:Ho; simpl; [|done].
    destruct (Hm _ _ Ho) as (q & Hq & Hk & _ & ->). by destruct (group_key_same p q Hx Hq Hk) as (_ & -> & _).
Qed.
End facts.

(** The names given to the members of a new provider are read back: retained
    services that are those names, in any order, with others that carry no
    ordinal of the provider, are an inventory of exactly that many members. *)
Theorem ExistingMembers_Names `{OS} `{YAML} fs compose prefix services others n :
  ServiceNames fs compose = Ok services -> (1 <= n <= max_int)%Z ->
  map fst services ≡ₚ Names prefix n ++ others ->
  Forall (fun s => member_number prefix s = None) others ->
  ExistingMembers fs compose prefix = Ok n.
Proof.
  intros Hs Hn Hperm Hothers. apply ExistingMembers_ok. exists services. split_and!; [done|lia|].
  apply set_eq. intros k. rewrite elem_of_member_numbers, elem_of_up_to, Z2Nat.id by lia.
  setoid_rewrite Hperm. setoid_rewrite elem_of_app. rewrite Forall_forall in Hothers.
  unfold Names. setoid_rewrite list_elem_of_fmap. setoid_rewrite elem_of_seq. split.
  - intros (s & [(m & -> & Hm)|Ho] & Hk); [|by rewrite Hothers in Hk].
    rewrite member_number_name in Hk by lia. injection Hk as <-. lia.
  - intros Hk. exists (prefix +:+ "-" +:+ Itoa k). split; [left|apply member_number_name; lia].
    exists (Z.to_nat k). rewrite Z2Nat.id by lia. split; [done|lia].
Qed.

(** Resolving the members never changes a retained topology: with a readable
    inventory the answer is its count, and an intent that asks for another is
    an error; without a file it is the count asked for, one by default, at
    least two with HA and one without.  More than one intent, an incomplete
    inventory or any other failure is an error. *)
Theorem ResolveMembers_retains `{OS} `{YAML} fs compose prefix recommended intent n :
  ResolveMembers fs compose prefix recommended intent = Ok n <->
  (length intent <= 1)%nat /\ exists desired, desired_members recommended intent = Ok desired /\
    ((ExistingMembers fs compose prefix = Ok n /\ (intent <> [] -> n = desired)) \/
     (exists err, ExistingMembers fs compose prefix = Err err /\ oe_NotExist err = true /\ n = desired)).
Proof.
  unfold ResolveMembers. rewrite reject_seq_Ok, Z.ltb_ge, bind_Ok.
  assert (Hlen : (Z.of_nat (length intent) <= 1)%Z <-> (length intent <= 1)%nat) by lia. rewrite Hlen.
  split; (intros [Hl (desired & Hd & H')]; split; [done|]; exists desired; split; [done|]).
  - destruct (ExistingMembers _ _ _) as [actual|err].
    + apply reject_seq_Ok in H' as [Hc [= <-]]. left. split; [done|]. intros Hne.
      destruct intent as [|i [|]]; [done| |simpl in Hl; lia]. simpl in Hc. rewrite neqb_false in Hc. congruence.
    + destruct (oe_NotExist err) eqn:Hn; [|done]. injection H' as <-. right. eauto.
  - destruct H' as [[-> Hc]|(err & -> & Hn & ->)]; [|by rewrite Hn].
    rewrite reject_seq_Ok. split; [|done]. destruct intent as [|i [|]]; [done| |simpl in Hl; lia].
    rewrite Hc by done. simpl. by apply neqb_false.
Qed.

Lemma ExistingMembers_Names_witness :
  ExistingMembers (os := no_faults) (yaml := sample_yaml) sample_compose "compose.yaml" "pg" = Ok 2%Z.
Proof.
  refine (ExistingMembers_Names (H := no_faults) (H0 := sample_yaml) sample_compose "compose.yaml" "pg"
    sample_services ["proxy"] 2 _ _ _ _).
  - vm_compute. reflexivity.
  - vm_compute. split; discriminate.
  - exact (Permutation_trans (perm_skip _ (perm_swap _ _ _)) (perm_swap _ _ _)).
  - apply Forall_cons. split; [vm_compute; reflexivity|apply Forall_nil; exact I].
Defined.

(** The observation of a topology does not depend on the order in which the
    services are visited, which Go leaves open: two files with the same services
    in any order give the same observations, or both an error.  Groups are told
    apart by the text they are sorted by, so the order of the answer is
    determined too. *)
Theorem Topology_Observe_order `{OS} `{YAML} fs fs' compose services services' running intent groups :
  ServiceNames fs compose = Ok services -> ServiceNames fs' compose = Ok services' -> services ≡ₚ services' ->
  outcome_eq (fun r r' => r = r' /\ NoDup (map (fun o => ob_Provider o +:+ ob_Instance o) r))
    (Topology_Observe fs compose running intent groups) (Topology_Observe fs' compose running intent groups).
Proof.
  intros Hs Hs' Hp. unfold Topology_Observe. rewrite Hs, Hs'. simpl.
  set (names := match groups with g :: _ => g | [] => ∅ end).
  assert (Hfun : forall l m, forE (observe_service services' (list_to_set running) names intent) m l =
    forE (observe_service services (list_to_set running) names intent) m l).
  { induction l as [|x l IH]; intros m; [done|]. simpl.
    rewrite !observe_service_step, (place_service_perm services services' names x Hp).
    destruct (place_service _ _ _) as [[p|]|e]; [apply IH..|done]. }
  rewrite Hfun. pose proof (observe_loop_perm services (list_to_set running) names intent _ _ Hp ∅) as Ho.
  destruct (forE _ ∅ services) as [m|] eqn:Hm, (forE _ ∅ services') as [m'|]; simpl in *; try done.
  rewrite (groups_eq_sorted m m' Ho). split; [done|].
  rewrite (Permutation_map _ (sort_by_Permutation _ _)), map_map. rewrite <- (groups_eq_sorted m m' Ho).
  apply observe_loop_placed in Hm; [|apply map_Forall_empty].
  assert (Hinj : forall k o k' o', (k, o) ∈ map_to_list (sort_names <$> m : gmap string Observation) ->
    (k', o') ∈ map_to_list (sort_names <$> m : gmap string Observation) ->
    ob_Provider o +:+ ob_Instance o = ob_Provider o' +:+ ob_Instance o' -> k = k').
  { intros k o k' o' Hk Hk'. apply elem_of_map_to_list in Hk, Hk'.
    rewrite lookup_fmap in Hk, Hk'. apply fmap_Some in Hk as (x & Hx & ->), Hk' as (y & Hy & ->). simpl.
    destruct (Hm _ _ Hx) as (p & Hpp & -> & -> & ->), (Hm _ _ Hy) as (q & Hq & -> & -> & ->).
    intros Heq. destruct (sort_text_same p q Hpp Hq Heq) as (Hpr & Hi & _).
    unfold group_key. by rewrite Hpr, Hi. }
  apply (NoDup_fmap_2_strong _); [|apply NoDup_map_to_list].
  intros [k o] [k' o'] Hk Hk' Heq. simpl in Heq. assert (k = k') as <- by (by eapply Hinj).
  apply elem_of_map_to_list in Hk, Hk'. congruence.
Qed.

Lemma Topology_Observe_order_witness :
  outcome_eq (fun r r' => r = r' /\ NoDup (map (fun o => ob_Provider o +:+ ob_Instance o) r))
    (Topology_Observe (os := no_faults) (yaml := sample_yaml) sample_compose "compose.yaml" ["pg-1"] (mkIntent true ∅) [])
    (Topology_Observe (os := no_faults) (yaml := sample_yaml) sample_compose "compose.yaml" ["pg-1"] (mkIntent true ∅) []).
Proof.
  refine (Topology_Observe_order (H := no_faults) (H0 := sample_yaml) sample_compose sample_compose "compose.yaml"
    sample_services sample_services ["pg-1"] (mkIntent true ∅) [] _ _ _).
  - vm_compute. reflexivity.
  - vm_compute. reflexivity.
  - reflexivity.
Defined.

(** What the detail claims is covered by what was observed: activity, a proof
    and a failover promise are only claimed with more than one running member,
    all the declared ones, and a semantic proof; and a failover promise only
    for the proofs that support it. *)
Theorem Detail_claims_sound o active replication proof failover :
  detail_claims o = (active, replication, proof, failover) ->
  (active = "true" <-> (1 < ob_Members o)%Z /\ ob_Members o = ob_DeclaredMembers o /\ ob_SemanticProof o <> "") /\
  (active = "false" <-> (ob_Members o <= 1)%Z) /\
  (proof <> "not-collected" -> active = "true" /\ proof = ob_SemanticProof o) /\
  (failover = "quorum-ready" -> active = "true" /\
     ob_SemanticProof o ∈ ["valkey-primary-replicas-sentinel"; "mongodb-primary-secondaries"]) /\
  (failover = "cluster-ready-data-policy-dependent" -> active = "true" /\
     ob_SemanticProof o = "rabbitmq-cluster-membership").
Proof.
  unfold detail_claims. destruct (Z.ltb_spec 1 (ob_Members o)) as [Hr|Hr].
  - destruct (_ && _) eqn:Hp.
    + rewrite andb_true_iff, neqb_true, Z.eqb_eq in Hp. destruct Hp as [Hs Hm].
      case_bool_decide as H1; [|case_bool_decide as H2]; intros [= <- _ <- <-];
        split_and!; try done; split; (done || lia).
    + assert (~ (ob_Members o = ob_DeclaredMembers o /\ ob_SemanticProof o <> "")) as Hn.
      { intros [Hm Hs]. rewrite andb_false_iff, neqb_false, Z.eqb_neq in Hp. tauto. }
      intros [= <- _ <- <-]. split_and!; try done; split; (done || tauto || lia).
  - intros [= <- _ <- <-]. split_and!; try done; split; (done || lia).
Qed.

Lemma Detail_claims_sound_witness :
  let o := mkObservation "valkey" "cache" "configured-not-proven" "valkey" true 3 3 0 3 0 [] []
    "valkey-primary-replicas-sentinel" in
  detail_claims o = ("true", "2", "valkey-primary-replicas-sentinel", "quorum-ready") /\
  (1 < ob_Members o)%Z.
Proof.
  intros o. assert (Hd : detail_claims o = ("true", "2", "valkey-primary-replicas-sentinel", "quorum-ready"))
    by (vm_compute; reflexivity).
  split; [exact Hd|]. exact (proj1 (proj1 (proj1 (Detail_claims_sound o _ _ _ _ Hd)) eq_refl)).
Defined.
