(* ===== verification/Codec.v ===== *)
(** * A codec for samples

    The theorems hold for every codec with the laws of encoding/json they name.
    Their samples use this one: a value of a countable type is written as the
    bits of its number. *)

From S2P Require Import Prelude GoStrings.

Fixpoint bits_text (p : positive) : string :=
  match p with xI p => String "1" (bits_text p) | xO p => String "0" (bits_text p) | xH => "" end.

Fixpoint text_bits (s : string) : positive :=
  match s with
  | String c s => if c == "1"%char then xI (text_bits s) else if c == "0"%char then xO (text_bits s) else xH
  | EmptyString => xH
  end.

Lemma text_bits_text p s : text_bits (bits_text p +:+ String "010" s) = p.
Proof. induction p as [p IH|p IH|]; simpl; by rewrite ?IH. Qed.

Lemma text_bits_newline p : text_bits (bits_text p +:+ bytes [10]) = p.
Proof. apply (text_bits_text p ""). Qed.

Lemma text_bits_only p : text_bits (bits_text p) = p.
Proof. induction p as [p IH|p IH|]; simpl; by rewrite ?IH. Qed.

Definition encode_text {A} `{Countable A} (a : A) : string := bits_text (encode a).
Definition decode_text {A} `{Countable A} (s : string) : option A := decode (text_bits s).

Lemma decode_encode_text {A} `{Countable A} (a : A) : decode_text (encode_text a +:+ bytes [10]) = Some a.
Proof. unfold decode_text, encode_text. rewrite text_bits_newline. apply decode_encode. Qed.
