(* ===== verification/Base64.v ===== *)
(** * Base64 without padding (encoding/base64, RawURLEncoding)

    The encoding of the standard library that the code writes its bootstrap
    credentials with. *)

From Stdlib Require Import Strings.String.
From S2P Require Import Prelude GoStrings.

Local Open Scope Z_scope.

(** ** The alphabet *)

Definition alphabet_char (d : Z) : ascii :=
  byte_of (Z.to_nat (if d <? 26 then 65 + d else if d <? 52 then 71 + d else if d <? 62 then d - 4 else if d =? 62 then 45 else 95)).

Definition alphabet_value (c : ascii) : option Z :=
  let n := Z.of_nat (nat_of_ascii c) in
  if (65 <=? n) && (n <=? 90) then Some (n - 65)
  else if (97 <=? n) && (n <=? 122) then Some (n - 71)
  else if (48 <=? n) && (n <=? 57) then Some (n + 4)
  else if n =? 45 then Some 62
  else if n =? 95 then Some 63
  else None.

(** ** Encoding *)

Fixpoint sextets (l : list Z) : list Z :=
  match l with
  | a :: b :: c :: rest => a / 4 :: a mod 4 * 16 + b / 16 :: b mod 16 * 4 + c / 64 :: c mod 64 :: sextets rest
  | [a; b] => [a / 4; a mod 4 * 16 + b / 16; b mod 16 * 4]
  | [a] => [a / 4; a mod 4 * 16]
  | [] => []
  end.

Definition EncodeToString (l : list Z) : string := string_of_list_ascii (map alphabet_char (sextets l)).

(** ** Decoding

    Line breaks are skipped, and the bits that do not fill a byte are
    dropped. *)

Fixpoint octets (ds : list Z) : option (list Z) :=
  match ds with
  | p :: q :: r :: s :: rest => (fun l => p * 4 + q / 16 :: q mod 16 * 16 + r / 4 :: r mod 4 * 64 + s :: l) <$> octets rest
  | [p; q; r] => Some [p * 4 + q / 16; q mod 16 * 16 + r / 4]
  | [p; q] => Some [p * 4 + q / 16]
  | [_] => None
  | [] => Some []
  end.

Definition line_break (c : ascii) : bool := bool_decide (c ∈ [byte_of 10; byte_of 13]).

Definition DecodeString (s : string) : option (list Z) :=
  mapM alphabet_value (List.filter (fun c => negb (line_break c)) (list_ascii_of_string s)) ≫= octets.

(** ** Facts *)

Definition byte_range (b : Z) : Prop := 0 <= b < 256.

(** Three bytes at a time. *)
Lemma triples_ind (P : list Z -> Prop) :
  P [] -> (forall a, P [a]) -> (forall a b, P [a; b]) -> (forall a b c rest, P rest -> P (a :: b :: c :: rest)) -> forall l, P l.
Proof.
  intros H0 H1 H2 H3. fix IH 1. intros [|a [|b [|c rest]]]; [exact H0|apply H1|apply H2|]. apply H3, IH.
Qed.

Ltac sextet_arith :=
  repeat match goal with H : byte_range _ |- _ => unfold byte_range in H end;
  repeat (first [split | constructor]); Z.div_mod_to_equations; lia.

Lemma sextets_range l : Forall byte_range l -> Forall (fun d => 0 <= d < 64) (sextets l).
Proof.
  induction l as [|a|a b|a b c rest IH] using triples_ind; intros Hl; simpl; [constructor|..].
  - rewrite Forall_cons in Hl; destruct Hl as [Hl _]. sextet_arith.
  - rewrite !Forall_cons in Hl; destruct Hl as (Ha & Hl & _). sextet_arith.
  - rewrite !Forall_cons in Hl. destruct Hl as (Ha & Hb & Hc & Hl). do 4 (constructor; [sextet_arith|]). by apply IH.
Qed.

Lemma octets_sextets l : Forall byte_range l -> octets (sextets l) = Some l.
Proof.
  induction l as [|a|a b|a b c rest IH] using triples_ind; intros Hl; [done|..].
  - rewrite Forall_cons in Hl; destruct Hl as [Hl _]. simpl. do 2 f_equal. sextet_arith.
  - apply Forall_cons in Hl as [Ha Hl]. rewrite Forall_cons in Hl; destruct Hl as [Hl _]. simpl. f_equal. f_equal; [sextet_arith|]. f_equal. sextet_arith.
  - rewrite !Forall_cons in Hl. destruct Hl as (Ha & Hb & Hc & Hl). simpl. rewrite (IH Hl). simpl.
    f_equal. f_equal; [sextet_arith|]. f_equal; [sextet_arith|]. f_equal. sextet_arith.
Qed.

Lemma alphabet_spec d : 0 <= d < 64 -> alphabet_value (alphabet_char d) = Some d /\ line_break (alphabet_char d) = false.
Proof.
  intros Hd.
  assert (forallb (fun n => bool_decide (alphabet_value (alphabet_char (Z.of_nat n)) = Some (Z.of_nat n)) &&
                            negb (line_break (alphabet_char (Z.of_nat n)))) (seq 0 64) = true) as H by (vm_compute; reflexivity).
  rewrite List.forallb_forall in H. specialize (H (Z.to_nat d)). rewrite Z2Nat.id in H by lia.
  assert (bool_decide (alphabet_value (alphabet_char d) = Some d) && negb (line_break (alphabet_char d)) = true) as Hx
    by (apply H, in_seq; lia).
  apply andb_true_iff in Hx as [H1 H2]. split; [by apply bool_decide_eq_true in H1|by apply negb_true_iff].
Qed.

(** What was encoded is decoded. *)
Lemma Decode_Encode l : Forall byte_range l -> DecodeString (EncodeToString l) = Some l.
Proof.
  intros Hl. unfold DecodeString, EncodeToString. rewrite list_ascii_of_string_of_list_ascii.
  pose proof (sextets_range l Hl) as Hs. pose proof (octets_sextets l Hl) as Ho. revert Hs Ho. generalize (sextets l). intros ds Hs Ho.
  assert (List.filter (fun c => negb (line_break c)) (map alphabet_char ds) = map alphabet_char ds) as ->.
  { clear Ho. induction Hs as [|d ds Hd _ IH]; [done|]. simpl. rewrite (proj2 (alphabet_spec d Hd)). simpl. by rewrite IH. }
  assert (mapM alphabet_value (map alphabet_char ds) = Some ds) as ->; [|exact Ho].
  clear Ho. induction Hs as [|d ds Hd _ IH]; [done|]. simpl. rewrite (proj1 (alphabet_spec d Hd)). simpl. by rewrite IH.
Qed.

(** ** Strict decoding

    [RawURLEncoding.Strict()] also rejects bits that do not fill a byte and
    are not zero. *)

Definition octets_strict (ds : list Z) : option (list Z) :=
  l ← octets ds;
  if decide (sextets l = ds) then Some l else None.

Definition DecodeStrict (s : string) : option (list Z) :=
  mapM alphabet_value (List.filter (fun c => negb (line_break c)) (list_ascii_of_string s)) ≫= octets_strict.

(** ** The standard alphabet with padding (encoding/base64, StdEncoding) *)

Definition std_char (d : Z) : ascii :=
  if d =? 62 then byte_of 43 else if d =? 63 then byte_of 47 else alphabet_char d.

Definition std_value (c : ascii) : option Z :=
  let n := nat_of_ascii c in
  if (n =? 43)%nat then Some 62
  else if (n =? 47)%nat then Some 63
  else if (n =? 45)%nat || (n =? 95)%nat then None
  else alphabet_value c.

Definition pad : ascii := byte_of 61.

Fixpoint std_quanta (l : list Z) : list ascii :=
  match l with
  | a :: b :: c :: rest => map std_char (sextets [a; b; c]) ++ std_quanta rest
  | [a; b] => map std_char (sextets [a; b]) ++ [pad]
  | [a] => map std_char (sextets [a]) ++ [pad; pad]
  | [] => []
  end.

Definition StdEncode (l : list Z) : string := string_of_list_ascii (std_quanta l).

(** Quanta of four characters; only the last may be padded. *)
Fixpoint std_octets (cs : list ascii) : option (list Z) :=
  match cs with
  | [] => Some []
  | p :: q :: r :: s :: rest =>
      if bool_decide (rest = []) && bool_decide (s = pad) then
        if bool_decide (r = pad) then mapM std_value [p; q] ≫= octets_strict
        else mapM std_value [p; q; r] ≫= octets_strict
      else
        l ← mapM std_value [p; q; r; s] ≫= octets_strict;
        ls ← std_octets rest;
        Some (l ++ ls)
  | _ => None
  end.

Definition StdDecodeStrict (s : string) : option (list Z) :=
  std_octets (List.filter (fun c => negb (line_break c)) (list_ascii_of_string s)).

Lemma std_spec d : 0 <= d < 64 -> std_value (std_char d) = Some d /\ line_break (std_char d) = false /\ std_char d <> pad.
Proof.
  intros Hd.
  assert (forallb (fun n => bool_decide (std_value (std_char (Z.of_nat n)) = Some (Z.of_nat n)) &&
                            (negb (line_break (std_char (Z.of_nat n))) && bool_decide (std_char (Z.of_nat n) <> pad))) (seq 0 64) = true)
    as H by (vm_compute; reflexivity).
  rewrite List.forallb_forall in H. specialize (H (Z.to_nat d)). rewrite Z2Nat.id in H by lia.
  specialize (H ltac:(apply in_seq; lia)).
  apply andb_true_iff in H as [H1 [H2 H3]%andb_true_iff].
  apply bool_decide_eq_true in H1, H3. by apply negb_true_iff in H2.
Qed.

Lemma octets_strict_sextets l : Forall byte_range l -> octets_strict (sextets l) = Some l.
Proof. intros Hl. unfold octets_strict. rewrite octets_sextets by done. simpl. by rewrite decide_True. Qed.

Lemma std_values ds : Forall (fun d => 0 <= d < 64) ds -> mapM std_value (map std_char ds) = Some ds.
Proof. induction 1 as [|d ds Hd _ IH]; [done|]. simpl. rewrite (proj1 (std_spec d Hd)). simpl. by rewrite IH. Qed.

Lemma std_group l : Forall byte_range l -> mapM std_value (map std_char (sextets l)) ≫= octets_strict = Some l.
Proof. intros Hl. rewrite std_values by by apply sextets_range. simpl. by apply octets_strict_sextets. Qed.

Lemma std_octets_quanta l : Forall byte_range l -> std_octets (std_quanta l) = Some l.
Proof.
  induction l as [|a|a b|a b c rest IH] using triples_ind; intros Hl; [done|..].
  - pose proof (std_group [a] Hl) as Hg. simpl in *. exact Hg.
  - pose proof (std_group [a; b] Hl) as Hg. pose proof (sextets_range [a; b] Hl) as Hr.
    simpl in *. rewrite !Forall_cons in Hr. destruct Hr as (_ & _ & Hc & _).
    rewrite (bool_decide_false _ (proj2 (proj2 (std_spec _ Hc)))). exact Hg.
  - assert (Forall byte_range [a; b; c] /\ Forall byte_range rest) as [H3 Hrest] by (by apply (Forall_app _ [a; b; c])).
    pose proof (std_group [a; b; c] H3) as Hg. pose proof (sextets_range [a; b; c] H3) as Hr.
    simpl in *. rewrite !Forall_cons in Hr. destruct Hr as (_ & _ & _ & Hd & _).
    rewrite (bool_decide_false _ (proj2 (proj2 (std_spec _ Hd)))), andb_false_r. rewrite Hg, IH by done. done.
Qed.

Lemma std_quanta_clean l : Forall byte_range l ->
  List.filter (fun c => negb (line_break c)) (std_quanta l) = std_quanta l.
Proof.
  intros Hl.
  assert (forall ds, Forall (fun d => 0 <= d < 64) ds ->
    List.filter (fun c => negb (line_break c)) (map std_char ds) = map std_char ds) as Hclean.
  { induction 1 as [|d ds Hd _ IH]; [done|]. simpl. rewrite (proj1 (proj2 (std_spec d Hd))). simpl. by rewrite IH. }
  induction l as [|a|a b|a b c rest IH] using triples_ind; [done|..]; cbn [std_quanta]; rewrite List.filter_app.
  1-2: rewrite Hclean by (by apply sextets_range); done.
  apply (Forall_app _ [a; b; c]) in Hl as [H3 Hrest].
  rewrite Hclean by (by apply sextets_range). by rewrite IH.
Qed.

(** What was encoded is decoded. *)
Lemma StdDecode_StdEncode l : Forall byte_range l -> StdDecodeStrict (StdEncode l) = Some l.
Proof.
  intros Hl. unfold StdDecodeStrict, StdEncode. rewrite list_ascii_of_string_of_list_ascii, std_quanta_clean by done.
  by apply std_octets_quanta.
Qed.
