(* ===== verification/Orders.v ===== *)
(** * Sorted orders

    [sort.Slice] is not stable: what it returns is determined only when the
    comparison tells the elements of the slice apart.  Here the comparison is
    the strict part of a total order on keys, and the keys are distinct. *)

From S2P Require Import Prelude GoStrings.

(** ** The lexicographic order of pairs *)

Section lex.
Context {A B : Type} (leA : relation A) (leB : relation B).
Context `{!PartialOrder leA, !Total leA, !PartialOrder leB, !Total leB}.

Definition lex_le (p q : A * B) : Prop := (leA p.1 q.1 /\ p.1 <> q.1) \/ (p.1 = q.1 /\ leB p.2 q.2).

Global Instance lex_le_partial : PartialOrder lex_le.
Proof.
  split; [split|].
  - intros [a b]. right. by split.
  - intros [a1 b1] [a2 b2] [a3 b3]. unfold lex_le. simpl. intros [[H1 N1]|[-> H1]] [[H2 N2]|[-> H2]].
    + left. split; [by trans a2|]. intros ->. apply N1. by apply (anti_symm leA).
    + by left.
    + by left.
    + right. split; [done|by trans b2].
  - intros [a1 b1] [a2 b2]. unfold lex_le. simpl. intros [[H1 N1]|[-> H1]] [[H2 N2]|[E2 H2]]; [| | |].
    + destruct N1. by apply (anti_symm leA).
    + by destruct N1.
    + by destruct N2.
    + f_equal. by apply (anti_symm leB).
Qed.

Global Instance lex_le_total `{!EqDecision A} : Total lex_le.
Proof.
  intros [a1 b1] [a2 b2]. unfold lex_le. simpl. destruct (decide (a1 = a2)) as [->|Hne].
  - destruct (total leB b1 b2); naive_solver.
  - destruct (total leA a1 a2); naive_solver.
Qed.
End lex.

(** [String.ltb] is the strict part of [String.le]. *)
Lemma ltb_false s t : String.ltb s t = false <-> String.le t s.
Proof.
  unfold String.ltb, String.le, String.leb. rewrite String.compare_antisym.
  destruct (String.compare t s); simpl; naive_solver.
Qed.

(** ** Sorting by keys *)

Section keyed.
Context {A K : Type} (key : A -> K) (le : relation K) `{!PartialOrder le, !Total le}.
Context (before : A -> A -> bool) (before_key : forall x y, before y x = false <-> le (key x) (key y)).

Lemma not_after_total : Total (not_after before).
Proof. intros x y. unfold not_after. rewrite !before_key. apply (total le). Qed.

Lemma not_after_trans : Transitive (not_after before).
Proof. intros x y z. unfold not_after. rewrite !before_key. intros H1 H2. by trans (key y). Qed.

Lemma sort_slice_sorted l : StronglySorted (not_after before) (sort_slice before l).
Proof. apply StronglySorted_merge_sort; [exact not_after_trans|exact not_after_total]. Qed.

(** Distinct keys: the result only depends on the elements. *)
Lemma sort_slice_canonical l k :
  NoDup (map key l) -> l ≡ₚ k -> sort_slice before l = sort_slice before k.
Proof.
  intros Hn Hp. apply (StronglySorted_unique_strong (not_after before)); [|apply sort_slice_sorted..|].
  - intros x y Hx Hy H1 H2. rewrite sort_slice_Permutation in Hx. rewrite sort_slice_Permutation, <- Hp in Hy.
    apply (NoDup_map_inj key l); [done..|]. apply (anti_symm le); by apply before_key.
  - by rewrite !sort_slice_Permutation.
Qed.
End keyed.
