(* ===== verification/Paths.v ===== *)
(** * Clean paths

    [filepath.Clean] keeps the meaning of a path when elements are added to it,
    so joining in two steps is joining in one. *)

From S2P Require Import Prelude GoStrings.

(** ** Splitting and joining *)

Lemma Split_cons s sep : exists w ws, Split s sep = w :: ws.
Proof. destruct s as [|c s]; simpl; [by eauto|]. destruct (decide _); [by eauto|]. destruct (Split s sep); by eauto. Qed.

Lemma Split_app_sep s t sep : Split (s +:+ String sep t) sep = Split s sep ++ Split t sep.
Proof.
  induction s as [|c s IH]; simpl; [by rewrite decide_True|].
  destruct (decide (c = sep)); [by rewrite IH|]. rewrite IH. by destruct (Split_cons s sep) as (w & ws & ->).
Qed.

Lemma Split_no_sep s sep : has_byte sep s = false -> Split s sep = [s].
Proof.
  induction s as [|c s IH]; simpl; [done|]. rewrite orb_false_iff, bool_decide_eq_false. intros [Hc Hs].
  rewrite decide_False by done. by rewrite IH.
Qed.

Lemma Split_has_no_sep s sep : Forall (fun e => has_byte sep e = false) (Split s sep).
Proof.
  induction s as [|c s IH]; simpl; [by repeat constructor|]. destruct (decide (c = sep)) as [->|Hc]; [by constructor|].
  destruct (Split s sep) as [|w ws]; simpl.
  - repeat constructor. simpl. by rewrite bool_decide_eq_false_2.
  - inversion IH; subst. constructor; [|done]. simpl. by rewrite bool_decide_eq_false_2.
Qed.

Lemma Split_Join l : l <> [] -> Forall (fun e => has_byte slash e = false) l -> Split (Join l "/") slash = l.
Proof.
  intros Hne Hl. induction Hl as [|e l He Hl IH]; [done|]. destruct l as [|e' l]; [by apply Split_no_sep|].
  change (Join (e :: e' :: l) "/") with (e +:+ String slash (Join (e' :: l) "/")).
  rewrite Split_app_sep, Split_no_sep, IH by done. done.
Qed.

(** ** Stacks of clean elements *)

(** Names above, [..] below them, none of these in an absolute path. *)
Definition clean_stack (rooted : bool) (stack : list string) : Prop :=
  exists names n, stack = names ++ replicate n ".." /\ (rooted = true -> n = 0%nat) /\
    Forall (fun e => e <> "" /\ e <> "." /\ e <> ".." /\ has_byte slash e = false) names.

Lemma clean_element_stack rooted stack e :
  has_byte slash e = false -> clean_stack rooted stack -> clean_stack rooted (clean_element rooted stack e).
Proof.
  intros He (names & n & -> & Hr & Hn). unfold clean_element.
  destruct (decide (e = "")) as [->|H0]; [by exists names, n|]. rewrite (bool_decide_eq_false_2 (e = "")) by done.
  destruct (decide (e = ".")) as [->|H1]; [by exists names, n|]. rewrite (bool_decide_eq_false_2 (e = ".")) by done. simpl.
  destruct (decide (e = "..")) as [->|H2].
  - rewrite bool_decide_eq_true_2 by done. destruct names as [|x names]; simpl.
    + destruct n as [|n]; simpl.
      * destruct rooted; [by exists [], 0%nat|]. by exists [], 1%nat.
      * destruct rooted; [by specialize (Hr eq_refl)|]. by exists [], (S (S n)).
    + inversion Hn as [|? ? (? & ? & Hx & ?) Hn']; subst. rewrite bool_decide_eq_false_2 by done. by exists names, n.
  - rewrite bool_decide_eq_false_2 by done. exists (e :: names), n. split_and!; [done..|]. by constructor.
Qed.

Lemma clean_fold_stack rooted elements stack :
  Forall (fun e => has_byte slash e = false) elements -> clean_stack rooted stack ->
  clean_stack rooted (foldl (clean_element rooted) stack elements).
Proof.
  intros He. revert stack. induction He as [|e elements He _ IH]; intros stack Hs; [done|]. simpl.
  by apply IH, clean_element_stack.
Qed.

Lemma clean_name rooted stack e :
  e <> "" -> e <> "." -> e <> ".." -> clean_element rooted stack e = e :: stack.
Proof. intros. unfold clean_element. by rewrite !bool_decide_eq_false_2 by done. Qed.

(** The elements of a clean stack make it again. *)
Lemma clean_again rooted stack : clean_stack rooted stack -> foldl (clean_element rooted) [] (reverse stack) = stack.
Proof.
  intros (names & n & -> & Hr & Hn). rewrite reverse_app, foldl_app.
  assert (foldl (clean_element rooted) [] (reverse (replicate n "..")) = replicate n "..") as ->.
  { destruct rooted; [by rewrite Hr|]. rewrite reverse_replicate. clear. induction n as [|n IH]; [done|].
    rewrite replicate_S_end, foldl_app, IH, <- replicate_S_end. destruct n; vm_compute; reflexivity. }
  induction Hn as [|e names (He & Hd & Hdd & _) _ IH]; [done|].
  rewrite reverse_cons, foldl_app, IH. simpl. by apply clean_name.
Qed.

Lemma clean_stack_elements rooted stack :
  clean_stack rooted stack -> Forall (fun e => e <> "" /\ has_byte slash e = false) (reverse stack).
Proof.
  intros (names & n & -> & _ & Hn). apply Forall_reverse, Forall_app. split.
  - eapply Forall_impl; [exact Hn|]. naive_solver.
  - by apply Forall_replicate.
Qed.

(** ** Cleaning *)

Definition path_stack (path : string) : list string :=
  foldl (clean_element (HasPrefix path "/")) [] (Split path slash).

Lemma path_stack_clean path : clean_stack (HasPrefix path "/") (path_stack path).
Proof. apply clean_fold_stack; [apply Split_has_no_sep|]. by exists [], 0%nat. Qed.

Lemma HasPrefix_slash path : HasPrefix path "/" = match path with String c _ => bool_decide (c = slash) | EmptyString => false end.
Proof.
  unfold HasPrefix. destruct path as [|c path]; [done|]. simpl.
  apply bool_decide_ext. unfold slash. destruct (decide _) as [<-|Hc]; split; [by eauto..|by intros []|by intros ->].
Qed.

Lemma HasPrefix_slash_app path rest : path <> "" -> HasPrefix (path +:+ rest) "/" = HasPrefix path "/".
Proof. intros Hp. rewrite !HasPrefix_slash. by destruct path. Qed.

Lemma Join_head e l : e <> "" -> exists c r t, e = String c r /\ Join (e :: l) "/" = String c t.
Proof. destruct e as [|c r]; [done|]. intros _. destruct l; by repeat eexists. Qed.

(** A path and its clean form have the same elements left and the same root. *)
Lemma Clean_spec path :
  Clean path <> "" /\ HasPrefix (Clean path) "/" = HasPrefix path "/" /\ path_stack (Clean path) = path_stack path.
Proof.
  pose proof (path_stack_clean path) as Hc. pose proof (clean_stack_elements _ _ Hc) as He.
  pose proof (clean_again _ _ Hc) as Ha. unfold Clean. fold (path_stack path).
  destruct (HasPrefix path "/") eqn:Hp.
  - assert (HasPrefix ("/" +:+ Join (reverse (path_stack path)) "/") "/" = true) as Hr by (by rewrite HasPrefix_slash).
    split_and!; [done|done|]. unfold path_stack at 1. rewrite Hr. simpl.
    destruct (reverse (path_stack path)) as [|e l] eqn:Hs; [simpl in *; by rewrite <- Ha|].
    rewrite string_app_nil_l, Split_Join; [exact Ha|done|]. eapply Forall_impl; [exact He|naive_solver].
  - destruct (reverse (path_stack path)) as [|e l] eqn:Hs; [by rewrite <- Ha|].
    inversion He as [|? ? [He1 He2] _]; subst. destruct (Join_head e l He1) as (c & r & t & -> & Hj).
    rewrite bool_decide_eq_false_2 by by rewrite Hj. rewrite Hj. simpl in He2. rewrite orb_false_iff, bool_decide_eq_false in He2.
    assert (HasPrefix (String c t) "/" = false) as Hr by (rewrite HasPrefix_slash; apply bool_decide_eq_false; naive_solver).
    split_and!; [done|done|]. unfold path_stack at 1. rewrite Hr, <- Hj, Split_Join; [exact Ha|done|].
    eapply Forall_impl; [exact He|naive_solver].
Qed.

Lemma Clean_eq path path' :
  HasPrefix path "/" = HasPrefix path' "/" -> path_stack path = path_stack path' -> Clean path = Clean path'.
Proof. intros Hp Hs. unfold Clean. fold (path_stack path) (path_stack path'). by rewrite Hp, Hs. Qed.

(** Cleaning first makes no difference. *)
Lemma Clean_Clean_app path rest : path <> "" -> Clean (Clean path +:+ String slash rest) = Clean (path +:+ String slash rest).
Proof.
  intros Hne. destruct (Clean_spec path) as (Hc & Hp & Hs). apply Clean_eq.
  - by rewrite !HasPrefix_slash_app.
  - unfold path_stack. rewrite !HasPrefix_slash_app, !Split_app_sep, !foldl_app by done. rewrite Hp. f_equal.
    rewrite <- Hp at 1. exact Hs.
Qed.

Lemma Join_twice a b c :
  a <> "" -> b <> "" -> c <> "" -> filepath_Join [filepath_Join [a; b]; c] = filepath_Join [a; b; c].
Proof.
  intros Ha Hb Hc. unfold filepath_Join at 2 3. simpl. rewrite !bool_decide_eq_false_2 by done. simpl.
  assert (Clean (a +:+ "/" +:+ b) <> "") as Hne by apply Clean_spec.
  unfold filepath_Join. simpl. rewrite !bool_decide_eq_false_2 by done. simpl.
  etransitivity; [exact (Clean_Clean_app (a +:+ "/" +:+ b) c ltac:(by destruct a))|]. f_equal.
  change (String slash c) with ("/" +:+ c). by rewrite !string_app_assoc.
Qed.
