(* ===== verification/RuntimeOperation.v ===== *)
(** * Runtime operations (internal/runtimeoperation)

    The manager that accepts capability operations idempotently, runs each in
    a goroutine of its own, and keeps them in a file that survives a restart.

    The goroutines interleave at the critical sections of the mutex, so the
    program is a step relation over processes: the manager, the heap of the
    maps it shares with its callers, the disk and the goroutines under way.
    A process can stop at every state of the file system, and is then started
    again on the files it left, by [New] and [Resume]
    (internal/controlplaneruntime/bound_runtime.go:106).

    encoding/json enters as an interface; its laws are named where theorems
    use them.  What an executor does is arbitrary. *)

From S2P Require Import Prelude GoStrings StableId FileSystem.

(** ** Data

    A request and a result refer to a map of parameters: in memory the
    reference of a map in the heap, in the file the map itself. *)
Definition StatePending : string := "pending".
Definition StateRunning : string := "running".
Definition StateSucceeded : string := "succeeded".
Definition StateFailed : string := "failed".

Record Request (M : Type) := mkRequest {
  rq_Application : string;
  rq_CallerService : string;
  rq_Capability : string;
  rq_Operation : string;
  rq_ResourceName : string;
  rq_IdempotencyKey : string;
  rq_Parameters : option M }.

Record Result (M : Type) := mkResult {
  rs_ResourceID : string;
  rs_Binding : option M }.

(** A [time.Time] in UTC is its number of nanoseconds. *)
Record Operation (M : Type) := mkOperation {
  op_ID : string;
  op_Request : Request M;
  op_State : string;
  op_Result : Result M;
  op_Error : string;
  op_CreatedAt : Z;
  op_UpdatedAt : Z }.

Arguments mkRequest {M}.
Arguments rq_Application {M}.
Arguments rq_CallerService {M}.
Arguments rq_Capability {M}.
Arguments rq_Operation {M}.
Arguments rq_ResourceName {M}.
Arguments rq_IdempotencyKey {M}.
Arguments rq_Parameters {M}.
Arguments mkResult {M}.
Arguments rs_ResourceID {M}.
Arguments rs_Binding {M}.
Arguments mkOperation {M}.
Arguments op_ID {M}.
Arguments op_Request {M}.
Arguments op_State {M}.
Arguments op_Result {M}.
Arguments op_Error {M}.
Arguments op_CreatedAt {M}.
Arguments op_UpdatedAt {M}.

Definition zero_request {M} : Request M := mkRequest "" "" "" "" "" "" None.
Definition zero_result {M} : Result M := mkResult "" None.
Definition zero_operation {M} : Operation M := mkOperation "" zero_request "" zero_result "" 0 0.

Definition with_Request {M N} (op : Operation M) (request : Request N) (result : Result N) : Operation N :=
  mkOperation (op_ID op) request (op_State op) result (op_Error op) (op_CreatedAt op) (op_UpdatedAt op).
Definition with_Parameters {M N} (r : Request M) (parameters : option N) : Request N :=
  mkRequest (rq_Application r) (rq_CallerService r) (rq_Capability r) (rq_Operation r) (rq_ResourceName r)
    (rq_IdempotencyKey r) parameters.

(** ** encoding/json

    [json_map] is a decoded object.  [json_refresh] is what a map holds after
    [json.Unmarshal] decoded the encoding of it into it. *)
Class OperationJSON := mkOperationJSON {
  json_map : Type;
  json_refresh : json_map -> json_map;
  json_encode : list (Operation json_map) -> result error string;
  json_decode : string -> result error (list (Operation json_map)) }.

(** ** Requests and keys *)

Definition ErrNotFound : error := errorsNew "runtime operation not found".

Definition validateRequest {M} (request : Request M) : result error unit :=
  reject ((TrimSpace (rq_Application request) == "") || (TrimSpace (rq_Capability request) == "") ||
          (TrimSpace (rq_Operation request) == "") || (TrimSpace (rq_ResourceName request) == "") ||
          (TrimSpace (rq_IdempotencyKey request) == ""))
    (errorsNew "runtime operation request is incomplete") ;;
  reject (200 <? len (rq_IdempotencyKey request))%Z
    (errorsNew "idempotency key exceeds 200 characters").

Definition nul : string := bytes [0].

Definition executorKey (capability operation : string) : string :=
  TrimSpace capability +:+ nul +:+ TrimSpace operation.

Definition idempotencyKey {M} (request : Request M) : string :=
  rq_Application request +:+ nul +:+ rq_Capability request +:+ nul +:+
  rq_Operation request +:+ nul +:+ rq_IdempotencyKey request.

(** [raw] is what [rand.Read] filled the array of 16 bytes with, or its error. *)
Definition newID (raw : result error (list Z)) : result error string :=
  match raw with
  | Err err => Err (Errorf "generate runtime operation id: %w" [ATxt err])
  | Ok value => Ok ("op-" +:+ hex_bytes value)
  end.

(** The argument is [err.Error()] of an error that is not nil. *)
Definition safeError (err : string) : string :=
  let message := TrimSpace err in
  if message == "" then "runtime operation failed"
  else if (512 <? len message)%Z then String.substring 0 512 message
  else message.

Section manager.
Context {json : OperationJSON} {Executor : Type}.

(** ** The heap of maps

    A reference is an index; maps are never freed. *)
Abbreviation ref := nat.
Abbreviation heap := (list json_map).

Definition alloc (h : heap) (v : option json_map) : heap * option ref :=
  match v with None => (h, None) | Some v => (h ++ [v], Some (length h)) end.

(** [json.Unmarshal] into a map that is not nil decodes into that very map,
    and the copy of the structure still refers to it. *)
Definition clone_map (h : heap) (m : option ref) : heap :=
  match m with None => h | Some r => alter json_refresh r h end.

Definition cloneRequest (h : heap) (request : Request ref) : heap * Request ref :=
  (clone_map h (rq_Parameters request), request).

Definition cloneResult (h : heap) (result : Result ref) : heap * Result ref :=
  (clone_map h (rs_Binding result), result).

Definition cloneOperation (h : heap) (operation : Operation ref) : heap * Operation ref :=
  let '(h, request) := cloneRequest h (op_Request operation) in
  let '(h, result) := cloneResult h (op_Result operation) in
  (h, with_Request operation request result).

(** What is written of an operation, and an operation read. *)
Definition resolve (h : heap) (op : Operation ref) : Operation json_map :=
  with_Request op
    (with_Parameters (op_Request op) (rq_Parameters (op_Request op) ≫= fun r => h !! r))
    (mkResult (rs_ResourceID (op_Result op)) (rs_Binding (op_Result op) ≫= fun r => h !! r)).

Definition receive (h : heap) (op : Operation json_map) : heap * Operation ref :=
  let '(h, parameters) := alloc h (rq_Parameters (op_Request op)) in
  let '(h, binding) := alloc h (rs_Binding (op_Result op)) in
  (h, with_Request op (with_Parameters (op_Request op) parameters)
        (mkResult (rs_ResourceID (op_Result op)) binding)).

(** ** The manager and its process *)

Record Manager := mkManager {
  mg_dir : string;
  mg_executors : gmap string Executor;
  mg_ops : gmap string (Operation ref);
  mg_keys : gmap string string }.

(** Where a goroutine of [execute] stands: before the first [update], before
    the copy of the request, in [Execute], and before the last [update], with
    what [Execute] returned (the text of its error). *)
Inductive progress :=
| Starting
| Reading
| Executing (request : Request ref)
| Returned (outcome : result string (Result ref)).

Record thread := mkThread {
  th_id : string;
  th_executor : Executor;
  th_progress : progress }.

Record process := mkProcess {
  pr_Manager : Manager;
  pr_Heap : heap;
  pr_Disk : disk;
  pr_Threads : list thread }.

Definition with_ops (ops : gmap string (Operation ref)) (keys : gmap string string) (p : process) : process :=
  let m := pr_Manager p in
  mkProcess (mkManager (mg_dir m) (mg_executors m) ops keys) (pr_Heap p) (pr_Disk p) (pr_Threads p).
Definition with_heap (h : heap) (p : process) : process :=
  mkProcess (pr_Manager p) h (pr_Disk p) (pr_Threads p).
Definition with_disk (d : disk) (p : process) : process :=
  mkProcess (pr_Manager p) (pr_Heap p) d (pr_Threads p).
Definition with_threads (threads : list thread) (p : process) : process :=
  mkProcess (pr_Manager p) (pr_Heap p) (pr_Disk p) threads.

Definition ops_of (p : process) : gmap string (Operation ref) := mg_ops (pr_Manager p).
Definition keys_of (p : process) : gmap string string := mg_keys (pr_Manager p).

(** ** The file *)

Definition operations_path (dir : string) : string := filepath_Join [dir; "operations.json"].

(** By creation, then by identity. *)
Definition created_before {M} (a b : Operation M) : bool :=
  if (op_CreatedAt a =? op_CreatedAt b)%Z then String.ltb (op_ID a) (op_ID b)
  else (op_CreatedAt a <? op_CreatedAt b)%Z.

Definition clone_items (h : heap) (ops : list (Operation ref)) : heap :=
  foldl (fun h op => fst (cloneOperation h op)) h ops.

Definition newline : string := bytes [10].

(** The items are collected in the order of a [range] over the map; they have
    distinct identities, so sorting them fixes the order. *)
Definition persistLocked (os : OS) (p : process) : process * result error unit :=
  let items := map snd (map_to_list (ops_of p)) in
  let h := clone_items (pr_Heap p) items in
  let p := with_heap h p in
  match json_encode (map (resolve h) (sort_slice created_before items)) with
  | Err err => (p, Err err)
  | Ok data =>
      let '(d, written) :=
        replace_via (fun err => Errorf "write runtime operation state: %w" [ATxt err])
          (fun err => err)
          (fun err => Errorf "commit runtime operation state: %w" [ATxt err])
          (operations_path (mg_dir (pr_Manager p))) (data +:+ newline) (pr_Disk p) in
      (with_disk d p, written)
  end.

Definition load_item (p : process) (op : Operation json_map) : result error process :=
  reject (is_err (validateRequest (op_Request op)) || (TrimSpace (op_ID op) == ""))
    (errorsNew "runtime operation state is invalid") ;;
  let '(h, op) := receive (pr_Heap p) op in
  let '(h, cloned) := cloneOperation h op in
  Ok (with_heap h (with_ops (<[op_ID op := cloned]> (ops_of p))
                            (<[idempotencyKey (op_Request op) := op_ID op]> (keys_of p)) p)).

Definition load (os : OS) (p : process) : result error process :=
  match ReadFile (dk_Files (pr_Disk p)) (operations_path (mg_dir (pr_Manager p))) with
  | Err err =>
      if oe_NotExist err then Ok p
      else Err (Errorf "read runtime operations: %w" [ATxt (oe_text err)])
  | Ok data =>
      items ← wrap_err (fun err => Errorf "decode runtime operations: %w" [ATxt err]) (json_decode data);
      forE load_item p items
  end.

(** The executors in the order of the [range] over the map; [None] is nil. *)
Definition add_executor (executors : gmap string Executor) (entry : string * option Executor) : gmap string Executor :=
  match snd entry with
  | None => executors
  | Some executor => <[TrimSpace (fst entry) := executor]> executors
  end.

Definition New (os : OS) (dir : string) (executors : list (string * option Executor)) (files : fsys)
    : result error process :=
  let dir := TrimSpace dir in
  reject (dir == "") (errorsNew "runtime operation state directory is required") ;;
  wrap_err (fun err => Errorf "create runtime operation state directory: %w" [ATxt err]) (attempt (OpMkdirAll dir)) ;;
  wrap_err (fun err => Errorf "protect runtime operation state directory: %w" [ATxt err]) (attempt (OpChmod dir)) ;;
  load os (mkProcess (mkManager dir (foldl add_executor ∅ executors) ∅ ∅) [] (mkDisk files []) []).

(** ** Operations of the manager *)

Definition Submit (os : OS) (raw : result error (list Z)) (now : Z) (request : Request ref) (p : process)
    : process * result error (Operation ref * bool) :=
  match validateRequest request with
  | Err err => (p, Err err)
  | Ok _ =>
      match mg_executors (pr_Manager p) !! executorKey (rq_Capability request) (rq_Operation request) with
      | None =>
          (p, Err (Errorf "unsupported capability operation %s %s"
                     [AStr (rq_Capability request); AStr (rq_Operation request)]))
      | Some executor =>
          let idem := idempotencyKey request in
          let existingID := default "" (keys_of p !! idem) in
          if existingID != "" then (p, Ok (default zero_operation (ops_of p !! existingID), true))
          else match newID raw with
          | Err err => (p, Err err)
          | Ok id =>
              let '(h, cloned) := cloneRequest (pr_Heap p) request in
              let op := mkOperation id cloned StatePending zero_result "" now now in
              let p := with_heap h (with_ops (<[id := op]> (ops_of p)) (<[idem := id]> (keys_of p)) p) in
              let '(p, persisted) := persistLocked os p in
              match persisted with
              | Err err => (with_ops (delete id (ops_of p)) (delete idem (keys_of p)) p, Err err)
              | Ok _ => (with_threads (mkThread id executor Starting :: pr_Threads p) p, Ok (op, false))
              end
          end
      end
  end.

Definition Get (id : string) (p : process) : process * result error (Operation ref) :=
  match ops_of p !! TrimSpace id with
  | None => (p, Err ErrNotFound)
  | Some op => let '(h, op) := cloneOperation (pr_Heap p) op in (with_heap h p, Ok op)
  end.

Definition creates_resource (resourceID : string) (op : Operation ref) : bool :=
  negb ((rq_Operation (op_Request op) != "runtime.create") || (op_State op != StateSucceeded) ||
        (rs_ResourceID (op_Result op) != resourceID)).

(** [order] is the order of the [range] over the operations. *)
Definition FindResource (order : list (string * Operation ref)) (resourceID : string) (p : process)
    : process * result error (Request ref) :=
  let resourceID := TrimSpace resourceID in
  if resourceID == "" then (p, Err ErrNotFound)
  else match List.find (fun entry => creates_resource resourceID (snd entry)) order with
  | None => (p, Err ErrNotFound)
  | Some (_, op) => let '(h, request) := cloneRequest (pr_Heap p) (op_Request op) in (with_heap h p, Ok request)
  end.

(** ** execute *)

Definition mark (state error_text : string) (op : Operation ref) : Operation ref :=
  mkOperation (op_ID op) (op_Request op) state (op_Result op) error_text (op_CreatedAt op) (op_UpdatedAt op).
Definition touch (now : Z) (op : Operation ref) : Operation ref :=
  mkOperation (op_ID op) (op_Request op) (op_State op) (op_Result op) (op_Error op) (op_CreatedAt op) now.

(** The error of the last statement is dropped. *)
Definition update (os : OS) (now : Z) (id : string) (change : heap -> Operation ref -> heap * Operation ref)
    (p : process) : process :=
  match ops_of p !! id with
  | None => p
  | Some op =>
      let '(h, op) := change (pr_Heap p) op in
      fst (persistLocked os (with_heap h (with_ops (<[id := touch now op]> (ops_of p)) (keys_of p) p)))
  end.

Definition to_running (h : heap) (op : Operation ref) : heap * Operation ref := (h, mark StateRunning "" op).

Definition to_returned (outcome : result string (Result ref)) (h : heap) (op : Operation ref) : heap * Operation ref :=
  match outcome with
  | Err err => (h, mark StateFailed (safeError err) op)
  | Ok res =>
      let '(h, res) := cloneResult h res in
      (h, mkOperation (op_ID op) (op_Request op) StateSucceeded res "" (op_CreatedAt op) (op_UpdatedAt op))
  end.

(** The request the goroutine hands to the executor. *)
Definition read_request (id : string) (p : process) : process * Request ref :=
  let '(h, request) := cloneRequest (pr_Heap p) (op_Request (default zero_operation (ops_of p !! id))) in
  (with_heap h p, request).

(** ** Resume *)

Definition unfinished (op : Operation ref) : bool :=
  (op_State op == StatePending) || (op_State op == StateRunning).

Definition requeue (clock : string -> Z) (id : string) (op : Operation ref) : Operation ref :=
  if unfinished op then touch (clock id) (mark StatePending "" op) else op.

Definition resume_job (clock : string -> Z) (acc : process * list thread) (id : string) : process * list thread :=
  let '(p, jobs) := acc in
  let op := default zero_operation (ops_of p !! id) in
  match mg_executors (pr_Manager p) !! executorKey (rq_Capability (op_Request op)) (rq_Operation (op_Request op)) with
  | None =>
      (with_ops (<[id := touch (clock id) (mark StateFailed "unsupported capability operation after restart" op)]>
         (ops_of p)) (keys_of p) p, jobs)
  | Some executor => (p, jobs ++ [mkThread id executor Starting])
  end.

(** [os] and [clock] are those of the first section, [os'] and [clock'] of the
    second. *)
Definition Resume (os os' : OS) (clock clock' : string -> Z) (p : process) : process * result error unit :=
  let pending := sort_strings (map fst (List.filter (fun entry => unfinished (snd entry)) (map_to_list (ops_of p)))) in
  let p := with_ops (map_imap (fun id op => Some (requeue clock id op)) (ops_of p)) (keys_of p) p in
  let '(p, persisted) := persistLocked os p in
  match persisted with
  | Err err => (p, Err err)
  | Ok _ =>
      let '(p, jobs) := foldl (resume_job clock') (p, []) pending in
      let '(p, persisted) := persistLocked os' p in
      match persisted with
      | Err err => (p, Err err)
      | Ok _ => (with_threads (jobs ++ pr_Threads p) p, Ok tt)
      end
  end.

(** Starting the process: [New], then [Resume]. *)
Definition boot (os os1 os2 : OS) (clock clock' : string -> Z) (dir : string)
    (executors : list (string * option Executor)) (files : fsys) : disk * result error process :=
  match New os dir executors files with
  | Err err => (mkDisk files [], Err err)
  | Ok p =>
      let '(p, resumed) := Resume os1 os2 clock clock' p in
      (pr_Disk p, match resumed with Ok _ => Ok p | Err err => Err err end)
  end.
End manager.

Arguments thread : clear implicits.
Arguments process {json} Executor.

(** ** Steps of a process *)

Section steps.
Context {json : OperationJSON} {Executor : Type}.

(** What a caller of [Submit] sees of the identity of its operation. *)
Inductive observation :=
| Accepted (key id : string)
| Known (key id : string)
| Refused
| Silent.

Definition observe (request : Request nat) (answer : result error (Operation nat * bool)) : observation :=
  match answer with
  | Ok (op, true) => Known (idempotencyKey request) (op_ID op)
  | Ok (op, false) => Accepted (idempotencyKey request) (op_ID op)
  | Err _ => Refused
  end.

Definition at_thread (p : process Executor) (before : list (thread Executor)) (t : thread Executor)
    (after : list (thread Executor)) : Prop :=
  pr_Threads p = before ++ t :: after.

(** One goroutine of [execute] moves. *)
Inductive thread_step : process Executor -> process Executor -> Prop :=
| step_start os now p before after id executor :
    at_thread p before (mkThread id executor Starting) after ->
    thread_step p (with_threads (before ++ mkThread id executor Reading :: after) (update os now id to_running p))
| step_read p p' before after id executor request :
    at_thread p before (mkThread id executor Reading) after ->
    read_request id p = (p', request) ->
    thread_step p (with_threads (before ++ mkThread id executor (Executing request) :: after) p')
| step_execute p before after id executor request outcome :
    at_thread p before (mkThread id executor (Executing request)) after ->
    thread_step p (with_threads (before ++ mkThread id executor (Returned outcome) :: after) p)
| step_return os now p before after id executor outcome :
    at_thread p before (mkThread id executor (Returned outcome)) after ->
    thread_step p (with_threads (before ++ after) (update os now id (to_returned outcome) p)).

End steps.

(** encoding/json reads back what it wrote, up to two changes: a text becomes
    valid UTF-8 ([json_text], the identity on ASCII), and an empty map is left
    out ([json_wire]). *)
Class OperationJSONLaws (json : OperationJSON) := mkOperationJSONLaws {
  json_text : string -> string;
  json_wire : option json_map -> option json_map;
  json_text_ascii : forall s, is_ascii s = true -> json_text s = s;
  json_decode_encode : forall items data, json_encode items = Ok data ->
    json_decode (data +:+ newline) = Ok (map (fun op =>
      let r := op_Request op in
      mkOperation (json_text (op_ID op))
        (mkRequest (json_text (rq_Application r)) (json_text (rq_CallerService r)) (json_text (rq_Capability r))
           (json_text (rq_Operation r)) (json_text (rq_ResourceName r)) (json_text (rq_IdempotencyKey r))
           (json_wire (rq_Parameters r)))
        (json_text (op_State op))
        (mkResult (json_text (rs_ResourceID (op_Result op))) (json_wire (rs_Binding (op_Result op))))
        (json_text (op_Error op)) (op_CreatedAt op) (op_UpdatedAt op)) items) }.

(** ** The system

    The program runs on one directory.  A request comes from the decoder of an
    HTTP body, so its texts are valid UTF-8; the 128 random bits of an identity
    do not repeat. *)
Section system.
Context {json : OperationJSON} {laws : OperationJSONLaws json} {Executor : Type} (dir : string).

Definition decoded_request {M} (r : Request M) : Prop :=
  json_text (rq_Application r) = rq_Application r /\ json_text (rq_CallerService r) = rq_CallerService r /\
  json_text (rq_Capability r) = rq_Capability r /\ json_text (rq_Operation r) = rq_Operation r /\
  json_text (rq_ResourceName r) = rq_ResourceName r /\ json_text (rq_IdempotencyKey r) = rq_IdempotencyKey r.

(** Callers and executors may write the maps they share with the manager, and
    [Get] and [FindResource] do: the heap may change at any time. *)
Inductive process_step : process Executor -> observation -> process Executor -> Prop :=
| step_submit os raw now request p p' answer :
    decoded_request request ->
    (forall value, raw = Ok value -> Forall (fun b => 0 <= b < 256)%Z value) ->
    (forall id, newID raw = Ok id -> ops_of p !! id = None) ->
    Submit os raw now request p = (p', answer) ->
    process_step p (observe request answer) p'
| step_thread p p' : thread_step p p' -> process_step p Silent p'
| step_heap h p : process_step p Silent (with_heap h p).

Inductive system :=
| Up (p : process Executor)
| Down (files : fsys).

(** A stopped process leaves the files of any state it went through. *)
Inductive system_step : system -> observation -> system -> Prop :=
| system_run p o p' : process_step p o p' -> system_step (Up p) o (Up p')
| system_stop p : system_step (Up p) Silent (Down (dk_Files (pr_Disk p)))
| system_stop_in p o p' visited files :
    process_step p o p' ->
    dk_History (pr_Disk p') = visited ++ dk_History (pr_Disk p) -> files ∈ visited ->
    system_step (Up p) Silent (Down files)
| system_boot os os1 os2 clock clock' executors files d p :
    boot os os1 os2 clock clock' dir executors files = (d, Ok p) ->
    system_step (Down files) Silent (Up p)
| system_boot_stop os os1 os2 clock clock' executors files d (booted : result error (process Executor)) files' :
    boot os os1 os2 clock clock' dir executors files = (d, booted) -> files' ∈ dk_History d ->
    system_step (Down files) Silent (Down files').

Definition state_path : string := operations_path (TrimSpace dir).

Definition initial (s : system) : Prop := exists files, s = Down files /\ files !! state_path = None.

Inductive reachable : system -> Prop :=
| reachable_initial s : initial s -> reachable s
| reachable_step s o s' : reachable s -> system_step s o s' -> reachable s'.

Inductive system_run_of : system -> list observation -> system -> Prop :=
| run_nil s : system_run_of s [] s
| run_cons s o s' l s'' : system_step s o s' -> system_run_of s' l s'' -> system_run_of s (o :: l) s''.

(** ** The specification: a ledger

    The contract of the component is a ledger of idempotency keys and the
    identities they were given: a key is entered once, and never changes or
    disappears.  An operation may be entered without an answer when the process
    stops during the submission. *)
Abbreviation ledger := (gmap string string).

Inductive ledger_step : ledger -> observation -> ledger -> Prop :=
| ledger_accept l key id :
    l !! key = None -> (forall key', l !! key' <> Some id) -> ledger_step l (Accepted key id) (<[key := id]> l)
| ledger_known l key id : l !! key = Some id -> ledger_step l (Known key id) l
| ledger_refuse l : ledger_step l Refused l
| ledger_silent l : ledger_step l Silent l
| ledger_unanswered l key id :
    l !! key = None -> (forall key', l !! key' <> Some id) -> ledger_step l Silent (<[key := id]> l).

Definition recorded (files : fsys) : list (Operation json_map) :=
  match files !! state_path with
  | None => []
  | Some f => match json_decode (f_Data f) with Ok items => items | Err _ => [] end
  end.

Definition ledger_of (s : system) : ledger :=
  match s with
  | Up p => keys_of p
  | Down files => list_to_map (map (fun op => (idempotencyKey (op_Request op), op_ID op)) (recorded files))
  end.
End system.
