(* ===== verification/RuntimeOperationFacts.v ===== *)
(** * Facts about runtime operations

    The invariant of the system, its refinement of the ledger, and what
    follows: idempotent submission across restarts, final states that stay,
    and termination of the goroutines. *)

From S2P Require Import Prelude GoStrings StableId FileSystem Codec RuntimeOperation.

(** ** Records

    What persists of an operation is its core: its identity and its request
    without the parameters.  A list of cores is a record of a ledger when the
    cores are valid and identities and keys are distinct. *)
Section records.
Context {json : OperationJSON} {laws : OperationJSONLaws json}.

Definition core_of {M} (op : Operation M) : string * Request unit :=
  (op_ID op, with_Parameters (op_Request op) None).

Definition entry_of (c : string * Request unit) : string * string := (idempotencyKey (snd c), fst c).

Record core_ok (c : string * Request unit) : Prop := mkCoreOk {
  co_request : validateRequest (snd c) = Ok tt;
  co_id : TrimSpace (fst c) <> "";
  co_text : json_text (fst c) = fst c;
  co_decoded : decoded_request (snd c) }.

Record records (cores : list (string * Request unit)) (l : gmap string string) : Prop := mkRecords {
  re_ok : Forall core_ok cores;
  re_ids : NoDup (map fst cores);
  re_keys : NoDup (map (fun c => fst (entry_of c)) cores);
  re_ledger : l = list_to_map (map entry_of cores) }.

Lemma map_fst_entry cores : (map entry_of cores).*1 = map (fun c => fst (entry_of c)) cores.
Proof. unfold fmap. induction cores as [|c cs IH]; [done|]. simpl. f_equal. exact IH. Qed.

Lemma records_Permutation cores cores' l : cores ≡ₚ cores' -> records cores l -> records cores' l.
Proof.
  intros HP [Ho Hi Hk Hl]. split.
  - by rewrite <- HP.
  - by rewrite <- (Permutation_map fst HP).
  - by rewrite <- (Permutation_map _ HP).
  - rewrite Hl. apply list_to_map_proper; [by rewrite map_fst_entry|]. by apply Permutation_map.
Qed.

Lemma records_nil : records [] ∅.
Proof. split; constructor. Qed.

Lemma records_cons c cores l :
  core_ok c -> fst c ∉ map fst cores -> l !! idempotencyKey (snd c) = None -> records cores l ->
  records (c :: cores) (<[idempotencyKey (snd c) := fst c]> l).
Proof.
  intros Hc Hid Hk [Ho Hi Hks ->]. split.
  - by constructor.
  - by constructor.
  - constructor; [|done]. intros Hin.
    apply not_elem_of_list_to_map in Hk. apply Hk. rewrite map_fst_entry. exact Hin.
  - done.
Qed.

Lemma records_prefix cores cores' l :
  records (cores ++ cores') l -> records cores (list_to_map (map entry_of cores)).
Proof.
  intros [Ho Hi Hk _]. rewrite map_app in Hi, Hk.
  apply NoDup_app in Hi as (Hi & _). apply NoDup_app in Hk as (Hk & _).
  apply Forall_app in Ho as [Ho _]. by split.
Qed.

Lemma records_lookup cores l key id :
  records cores l -> l !! key = Some id <-> exists c, c ∈ cores /\ idempotencyKey (snd c) = key /\ fst c = id.
Proof.
  intros [_ _ Hk ->]. rewrite <- elem_of_list_to_map by (by rewrite map_fst_entry). split.
  - intros (c & [= -> ->] & Hc)%list_elem_of_fmap. by exists c.
  - intros (c & Hc & <- & <-). apply list_elem_of_fmap. by exists c.
Qed.

Lemma records_id cores l key key' id :
  records cores l -> l !! key = Some id -> l !! key' = Some id -> key = key'.
Proof.
  intros Hr H1 H2. apply (records_lookup _ _ _ _ Hr) in H1 as (c & Hc & <- & Hid).
  apply (records_lookup _ _ _ _ Hr) in H2 as (c' & Hc' & <- & Hid').
  f_equal. f_equal. apply (NoDup_map_inj fst cores c c'); [by destruct Hr|done..|congruence].
Qed.

Lemma records_nonempty cores l key id : records cores l -> l !! key = Some id -> id <> "".
Proof.
  intros Hr Hl. apply (records_lookup _ _ _ _ Hr) in Hl as (c & Hc & _ & <-).
  destruct Hr as [Ho _ _ _]. rewrite Forall_forall in Ho. intros Heq.
  apply (co_id _ (Ho _ Hc)). by rewrite Heq.
Qed.

(** ** Operations in memory *)

Definition cores_of {M} (ops : gmap string (Operation M)) : list (string * Request unit) :=
  map (fun entry => core_of (snd entry)) (map_to_list ops).

Lemma cores_of_insert {M} (ops : gmap string (Operation M)) id op :
  ops !! id = None -> cores_of (<[id := op]> ops) ≡ₚ core_of op :: cores_of ops.
Proof. intros Hid. unfold cores_of. by rewrite (map_to_list_insert ops id op Hid). Qed.

(** Changing operations but not their cores. *)
Definition same_cores {M} (ops ops' : gmap string (Operation M)) : Prop := core_of <$> ops = core_of <$> ops'.

Lemma cores_of_fmap {M} (ops : gmap string (Operation M)) :
  cores_of ops ≡ₚ (map_to_list (core_of <$> ops)).*2.
Proof.
  rewrite map_to_list_fmap. unfold cores_of. rewrite <- list_fmap_compose.
  erewrite list_fmap_ext; [reflexivity|]. by intros ? [].
Qed.

Lemma same_cores_Permutation {M} (ops ops' : gmap string (Operation M)) :
  same_cores ops ops' -> cores_of ops ≡ₚ cores_of ops'.
Proof. intros H. rewrite !cores_of_fmap. by rewrite H. Qed.

Lemma same_cores_insert {M} (ops : gmap string (Operation M)) id op op' :
  ops !! id = Some op -> core_of op' = core_of op -> same_cores (<[id := op']> ops) ops.
Proof.
  intros Hid Hc. unfold same_cores. rewrite fmap_insert, Hc. apply insert_id. by rewrite lookup_fmap, Hid.
Qed.

Definition known_state (s : string) : Prop :=
  s = StatePending \/ s = StateRunning \/ s = StateSucceeded \/ s = StateFailed.

Record memory_ok {M} (ops : gmap string (Operation M)) (keys : gmap string string) : Prop := mkMemoryOk {
  me_id : forall id op, ops !! id = Some op -> op_ID op = id;
  me_state : forall id op, ops !! id = Some op -> known_state (op_State op);
  me_records : records (cores_of ops) keys }.

Lemma memory_ok_empty {M} : memory_ok (M := M) ∅ ∅.
Proof. split; [done..|]. unfold cores_of. rewrite map_to_list_empty. apply records_nil. Qed.

Lemma elem_of_cores {M} (ops : gmap string (Operation M)) c :
  c ∈ cores_of ops <-> exists id op, ops !! id = Some op /\ c = core_of op.
Proof.
  unfold cores_of. rewrite list_elem_of_fmap. split.
  - intros ([id op] & -> & Hin). exists id, op. by apply elem_of_map_to_list in Hin.
  - intros (id & op & Hin & ->). exists (id, op). by apply elem_of_map_to_list in Hin.
Qed.

(** Every operation is recorded under its key, and nothing else is. *)
Lemma memory_ok_lookup {M} (ops : gmap string (Operation M)) keys key id :
  memory_ok ops keys ->
  keys !! key = Some id <-> exists op, ops !! id = Some op /\ idempotencyKey (op_Request op) = key.
Proof.
  intros Hm. rewrite (records_lookup _ _ _ _ (me_records _ _ Hm)). setoid_rewrite elem_of_cores. split.
  - intros (c & (id' & op & Hop & ->) & Hk & <-). exists op. split; [|exact Hk].
    simpl. by rewrite (me_id _ _ Hm _ _ Hop).
  - intros (op & Hop & Hk). exists (core_of op). split_and!; [by eauto|exact Hk|].
    simpl. by apply (me_id _ _ Hm).
Qed.

Lemma memory_ok_same {M} (ops ops' : gmap string (Operation M)) keys :
  same_cores ops ops' -> (forall id op, ops' !! id = Some op -> known_state (op_State op)) ->
  memory_ok ops keys -> memory_ok ops' keys.
Proof.
  intros Hs Hk [Hi _ Hr]. split; [|done|].
  - intros id op Hop. assert ((core_of <$> ops) !! id = Some (core_of op)) as Hc by (by rewrite Hs, lookup_fmap, Hop).
    apply lookup_fmap_Some in Hc as (op0 & Hc & Hop0). apply Hi in Hop0. injection Hc as Hc _. congruence.
  - by eapply records_Permutation; [apply same_cores_Permutation|].
Qed.

Lemma memory_ok_insert {M} (ops : gmap string (Operation M)) keys id op :
  ops !! id = None -> op_ID op = id -> known_state (op_State op) -> core_ok (core_of op) ->
  keys !! idempotencyKey (op_Request op) = None -> memory_ok ops keys ->
  memory_ok (<[id := op]> ops) (<[idempotencyKey (op_Request op) := id]> keys).
Proof.
  intros Hid Hop Hst Hc Hk [Hi Hs Hr]. split.
  - intros id' op'. rewrite lookup_insert_Some. naive_solver.
  - intros id' op'. rewrite lookup_insert_Some. naive_solver.
  - eapply records_Permutation; [by rewrite cores_of_insert|].
    rewrite <- Hop. apply (records_cons (core_of op)); [done| |exact Hk|done].
    intros (c & Heq & (id' & op' & Hop' & ->)%elem_of_cores)%list_elem_of_fmap.
    simpl in Heq. apply Hi in Hop' as Hid'. congruence.
Qed.

(** ** Files *)

Section files.
Context (dir : string).
Local Abbreviation path := (state_path dir).

Record file_ok (files : fsys) (l : gmap string string) : Prop := mkFileOk {
  fo_read : match files !! path with
            | None => True
            | Some f => exists items, json_decode (f_Data f) = Ok items
            end;
  fo_state : Forall (fun op => known_state (op_State op)) (recorded dir files);
  fo_records : records (map core_of (recorded dir files)) l }.

Lemma recorded_same files files' : files !! path = files' !! path -> recorded dir files = recorded dir files'.
Proof. intros H. unfold recorded. by rewrite H. Qed.

Lemma file_ok_same files files' l : files !! path = files' !! path -> file_ok files l -> file_ok files' l.
Proof. intros H [Hr Hs Hl]. split; rewrite <- ?(recorded_same _ _ H), <- ?H; done. Qed.

Lemma file_ok_ledger files l : file_ok files l -> ledger_of (Executor := unit) dir (Down files) = l.
Proof. intros [_ _ [_ _ _ ->]]. simpl. rewrite map_map. done. Qed.
End files.

(** ** Encoding *)

Lemma newID_text raw id :
  (forall value, raw = Ok value -> Forall (fun b => 0 <= b < 256)%Z value) -> newID raw = Ok id ->
  TrimSpace id <> "" /\ json_text id = id.
Proof.
  intros Hraw. destruct raw as [value|]; [|done]. simpl. intros [= <-]. split.
  - apply (TrimSpace_nonempty "-"%char); [by vm_compute|done].
  - apply json_text_ascii, is_ascii_spec. intros c Hc. rewrite !has_byte_app in Hc.
    apply orb_true_iff in Hc as [Hc|Hc].
    + by apply (proj1 (is_ascii_spec "op-") eq_refl).
    + apply hex_bytes_has_byte in Hc; [|by apply Hraw]. unfold is_lower_hex in Hc.
      apply orb_true_iff in Hc as [[_ Hc]%andb_true_iff|[_ Hc]%andb_true_iff]; apply Nat.leb_le in Hc; lia.
Qed.

Lemma known_state_text s : known_state s -> json_text s = s.
Proof. intros Hs. apply json_text_ascii. by destruct Hs as [->|[->|[->| ->]]]. Qed.

(** What is written reads back with the same cores and states. *)
Lemma decode_cores items data :
  Forall (fun op => known_state (op_State op)) items -> Forall (fun op => core_ok (core_of op)) items ->
  json_encode items = Ok data ->
  exists items', json_decode (data +:+ newline) = Ok items' /\
    map core_of items' = map core_of items /\ Forall (fun op => known_state (op_State op)) items'.
Proof.
  intros Hs Hc Hd. apply json_decode_encode in Hd. eexists. split; [exact Hd|]. clear Hd. split.
  - rewrite map_map. apply map_ext_Forall. eapply Forall_impl; [exact Hc|]. intros op Hop.
    destruct Hop as [_ _ Hid (H1 & H2 & H3 & H4 & H5 & H6)]. simpl in *.
    unfold core_of, with_Parameters. simpl. by rewrite Hid, H1, H2, H3, H4, H5, H6.
  - apply Forall_map. eapply Forall_impl; [exact Hs|]. intros op Hop. simpl. by rewrite known_state_text.
Qed.

(** ** Persisting *)

Context {Executor : Type}.
Abbreviation process := (process Executor).
Abbreviation system := (system (Executor := Executor)).

Lemma core_of_resolve (h : list json_map) op : core_of (resolve h op) = core_of op.
Proof. done. Qed.

Section dir.
Context (dir : string).
Local Abbreviation path := (state_path dir).
Definition of_dir (p : process) : Prop := mg_dir (pr_Manager p) = TrimSpace dir.

Lemma items_of_memory (ops : gmap string (Operation nat)) keys :
  memory_ok ops keys ->
  let items := sort_slice created_before (map snd (map_to_list ops)) in
  Forall (fun op => known_state (op_State op)) items /\ records (map core_of items) keys.
Proof.
  intros Hm items.
  assert (items ≡ₚ map snd (map_to_list ops)) as HP by apply sort_slice_Permutation. split.
  - rewrite HP. apply Forall_map, Forall_forall. intros [id op] Hin%elem_of_map_to_list.
    by eapply (me_state _ _ Hm).
  - eapply records_Permutation; [|exact (me_records _ _ Hm)].
    rewrite (Permutation_map core_of HP), map_map. done.
Qed.

(** The states of the file system a critical section goes through, and what it
    leaves: the file of before or one that records [l]. *)
Definition persisted (l : gmap string string) (d d' : disk) : Prop :=
  exists visited, dk_History d' = visited ++ dk_History d /\ dk_Files d' ∈ dk_Files d :: visited /\
    Forall (fun fs => fs !! path = dk_Files d !! path \/ file_ok dir fs l) visited.

Lemma persisted_refl l d : persisted l d d.
Proof. exists []. split_and!; [done|left|constructor]. Qed.

Lemma file_ok_written files items data f l :
  Forall (fun op => known_state (op_State op)) items -> records (map core_of items) l ->
  json_encode items = Ok data -> files !! path = Some f -> f_Data f = data +:+ newline -> file_ok dir files l.
Proof.
  intros Hs Hr Hd Hf Hdata.
  assert (Forall (fun op => core_ok (core_of op)) items) as Hc by (apply Forall_map, (re_ok _ _ Hr)).
  destruct (decode_cores _ _ Hs Hc Hd) as (items' & Hd' & Hcores & Hs').
  assert (recorded dir files = items') as Hrec by (unfold recorded; by rewrite Hf, Hdata, Hd').
  split; rewrite ?Hrec, ?Hcores; [|done..]. rewrite Hf, Hdata, Hd'. eauto.
Qed.

Lemma persistLocked_spec os (p p' : process) res l :
  of_dir p -> memory_ok (ops_of p) l -> persistLocked os p = (p', res) ->
  exists h d, p' = with_disk d (with_heap h p) /\ persisted l (pr_Disk p) d /\
    match res with
    | Ok _ => file_ok dir (dk_Files d) l
    | Err _ => dk_Files d !! path = dk_Files (pr_Disk p) !! path
    end.
Proof.
  intros Hdir Hm. unfold persistLocked. pose proof (items_of_memory _ _ Hm) as [Hs Hr].
  set (items := sort_slice created_before (map snd (map_to_list (ops_of p)))) in *.
  set (h := clone_items _ _).
  destruct (json_encode _) as [data|e] eqn:He.
  2:{ intros [= <- <-]. exists h, (pr_Disk p). split_and!; [by destruct p|apply persisted_refl|done]. }
  simpl. rewrite Hdir. fold path.
  destruct (replace_via _ _ _ _ _ _) as [d written] eqn:Hw. intros [= <- <-].
  apply replace_via_atomic in Hw as [(v & Hv & Hd & Hp & _) Hf]. fold path in Hp, Hf.
  assert (forall fs, fs !! path = Some (mkFile (data +:+ newline) true owner_only) -> file_ok dir fs l) as Hok.
  { intros fs Hfs. eapply file_ok_written; [| |exact He|exact Hfs|done].
    - by apply Forall_map.
    - by rewrite map_map. }
  exists h, d. split_and!; [done| |].
  - exists v. split_and!; [done..|]. eapply Forall_impl; [exact Hp|].
    intros fs [Hfs|[_ Hfs]]; [by left|right; auto].
  - destruct written; auto.
Qed.

Record process_ok (l : gmap string string) (p : process) : Prop := mkProcessOk {
  po_dir : of_dir p;
  po_keys : keys_of p = l;
  po_memory : memory_ok (ops_of p) l;
  po_file : file_ok dir (dk_Files (pr_Disk p)) l }.

Lemma persisted_ok l d d' :
  file_ok dir (dk_Files d) l -> persisted l d d' ->
  file_ok dir (dk_Files d') l /\
  exists visited, dk_History d' = visited ++ dk_History d /\ Forall (fun fs => file_ok dir fs l) visited.
Proof.
  intros Hf (v & Hv & Hd & Hp).
  assert (Forall (fun fs => file_ok dir fs l) v) as Hok.
  { eapply Forall_impl; [exact Hp|]. intros fs [Hfs|?]; [|done]. by eapply file_ok_same. }
  split; [|by exists v]. apply elem_of_cons in Hd as [->|Hd]; [done|]. rewrite Forall_forall in Hok. auto.
Qed.

Lemma persisted_trans l d d' d'' :
  file_ok dir (dk_Files d) l -> persisted l d d' -> persisted l d' d'' -> persisted l d d''.
Proof.
  intros Hf H1 H2. destruct (persisted_ok _ _ _ Hf H1) as (Hf' & v & Hv & Hok).
  destruct (persisted_ok _ _ _ Hf' H2) as (_ & w & Hw & Hok').
  destruct H1 as (v' & Hv' & Hd & _), H2 as (w' & Hw' & Hd' & _).
  rewrite Hv in Hv'. apply app_inv_tail in Hv' as <-. rewrite Hw in Hw'. apply app_inv_tail in Hw' as <-.
  exists (w ++ v). rewrite Hw, Hv, app_assoc. split_and!; [done| |].
  - apply elem_of_cons in Hd' as [->|Hd']; set_solver.
  - apply Forall_app. split; (eapply Forall_impl; [eassumption|]); auto.
Qed.

(** Persisting in a process that is in order keeps it so. *)
Lemma persistLocked_ok os l p p' res :
  process_ok l p -> persistLocked os p = (p', res) ->
  process_ok l p' /\ pr_Manager p' = pr_Manager p /\ pr_Threads p' = pr_Threads p /\
  persisted l (pr_Disk p) (pr_Disk p').
Proof.
  intros [Hd Hk Hm Hf] Hp. eapply persistLocked_spec in Hp as (h & d & -> & Hdisk & _); [|done..].
  split; [|done]. destruct (persisted_ok _ _ _ Hf Hdisk) as [Hf' _]. by split.
Qed.

(** A change that keeps the core of an operation. *)
Lemma with_ops_ok l (ops : gmap string (Operation nat)) p :
  same_cores ops (ops_of p) -> (forall id op, ops !! id = Some op -> known_state (op_State op)) ->
  process_ok l p -> process_ok l (with_ops ops (keys_of p) p).
Proof. intros Hs Hst [Hd Hk Hm Hf]. split; [done..| |done]. by eapply memory_ok_same. Qed.

Lemma insert_known (ops : gmap string (Operation nat)) keys id op :
  memory_ok ops keys -> known_state (op_State op) ->
  forall i o, <[id := op]> ops !! i = Some o -> known_state (op_State o).
Proof. intros Hm Hop i o. rewrite lookup_insert_Some. intros [[_ <-]|[_ Ho]]; [done|by eapply me_state]. Qed.

(** What [update] does to a process that is in order. *)
Lemma update_ok os now id (change : list json_map -> Operation nat -> list json_map * Operation nat) l p op :
  process_ok l p -> ops_of p !! id = Some op ->
  (forall h, core_of (snd (change h op)) = core_of op /\ known_state (op_State (snd (change h op)))) ->
  process_ok l (update os now id change p) /\ pr_Threads (update os now id change p) = pr_Threads p /\
  ops_of (update os now id change p) = <[id := touch now (snd (change (pr_Heap p) op))]> (ops_of p) /\
  persisted l (pr_Disk p) (pr_Disk (update os now id change p)).
Proof.
  intros Hp Hop Hc. destruct (Hc (pr_Heap p)) as [Hcore Hstate]. unfold update. rewrite Hop.
  destruct (change (pr_Heap p) op) as [h op'] eqn:Hch. simpl in *.
  destruct (persistLocked _ _) as [p' res] eqn:Hpl. simpl.
  eapply (persistLocked_ok _ l) in Hpl as (Hok & Hm & Ht & Hd).
  - split_and!; [done|by rewrite Ht|by unfold ops_of; rewrite Hm|exact Hd].
  - destruct Hp as [Hd Hk Hm Hf]. split; [done..| |done].
    eapply memory_ok_same; [| |exact Hm].
    + symmetry. by eapply same_cores_insert.
    + by eapply insert_known.
Qed.

(** ** Loading *)

Lemma load_item_ok (p p1 : process) op :
  load_item p op = Ok p1 ->
  exists h op', core_of op' = core_of op /\ op_State op' = op_State op /\
    p1 = with_heap h (with_ops (<[op_ID op := op']> (ops_of p))
                               (<[idempotencyKey (op_Request op) := op_ID op]> (keys_of p)) p).
Proof.
  unfold load_item. rewrite reject_seq_Ok. intros [_ H]. unfold receive in H.
  destruct (alloc (pr_Heap p) _) as [h1 parameters] eqn:H1. destruct (alloc h1 _) as [h2 binding] eqn:H2.
  simpl in H. injection H as <-.
  eexists _, (with_Request op (with_Parameters (op_Request op) parameters) _). split_and!; reflexivity.
Qed.

Lemma load_items_ok items (p p' : process) l :
  forE load_item p items = Ok p' ->
  (forall id op, ops_of p !! id = Some op -> op_ID op = id) ->
  (forall id op, ops_of p !! id = Some op -> known_state (op_State op)) ->
  Forall (fun op => known_state (op_State op)) items ->
  keys_of p = list_to_map (map entry_of (cores_of (ops_of p))) ->
  records (cores_of (ops_of p) ++ map core_of items) l ->
  memory_ok (ops_of p') l /\ keys_of p' = l /\ mg_dir (pr_Manager p') = mg_dir (pr_Manager p) /\
  pr_Disk p' = pr_Disk p /\ pr_Threads p' = pr_Threads p.
Proof.
  revert p. induction items as [|op items IH]; intros p.
  - simpl. rewrite app_nil_r. intros [= ->] Hid Hs _ Hk Hr. split; [by split|]. split; [|done].
    by rewrite Hk, (re_ledger _ _ Hr).
  - rewrite forE_cons, bind_Ok. intros (p1 & (h & op' & Hc & Hst & ->)%load_item_ok & Hload) Hid Hs Hss Hk Hr.
    apply Forall_cons in Hss as [Hsop Hss].
    assert (op_ID op' = op_ID op) as Hop by (by injection Hc).
    assert (ops_of p !! op_ID op = None) as Hnew.
    { destruct (ops_of p !! op_ID op) as [o|] eqn:Ho; [|done]. exfalso.
      pose proof (re_ids _ _ Hr) as Hnd. rewrite map_app in Hnd. simpl in Hnd.
      apply NoDup_app in Hnd as (_ & Hnd & _). apply (Hnd (op_ID op)); [|by left].
      rewrite <- (Hid _ _ Ho). apply (list_elem_of_fmap_2 fst _ (core_of o)). apply elem_of_cores. by eauto. }
    assert (cores_of (<[op_ID op := op']> (ops_of p)) ≡ₚ core_of op :: cores_of (ops_of p)) as HP
      by (by rewrite cores_of_insert, Hc).
    assert (records (cores_of (<[op_ID op := op']> (ops_of p)) ++ map core_of items) l) as Hr'.
    { eapply records_Permutation; [|exact Hr]. rewrite HP. simpl. symmetry. apply Permutation_middle. }
    apply IH in Hload; simpl; [exact Hload|..].
    + intros id o. unfold ops_of. simpl. rewrite lookup_insert_Some. naive_solver.
    + intros id o. unfold ops_of. simpl. rewrite lookup_insert_Some. intros [[_ <-]|[_ Ho]]; [by rewrite Hst|eauto].
    + done.
    + unfold keys_of, ops_of in *. simpl. rewrite Hk. symmetry.
      change (<[idempotencyKey (op_Request op):=op_ID op]> (list_to_map (map entry_of (cores_of (mg_ops (pr_Manager p))))))
        with (list_to_map (M := gmap string string) (map entry_of (core_of op :: cores_of (mg_ops (pr_Manager p))))).
      apply list_to_map_proper; [|by apply Permutation_map]. rewrite map_fst_entry.
      exact (re_keys _ _ (records_prefix _ _ _ Hr')).
    + exact Hr'.
Qed.

Lemma New_ok os executors files (p : process) l :
  New os dir executors files = Ok p -> file_ok dir files l ->
  process_ok l p /\ pr_Threads p = [] /\ pr_Disk p = mkDisk files [].
Proof.
  unfold New. rewrite reject_seq_Ok, !seq_Ok. intros (_ & _ & _ & Hload) Hf. unfold load in Hload. simpl in Hload.
  fold path in Hload. unfold ReadFile in Hload.
  destruct (os_fault (OpRead path)) as [err|]; [done|].
  destruct Hf as [Hread Hst Hr]. unfold recorded in Hst, Hr.
  destruct (files !! path) as [f|] eqn:Hfile; simpl in Hload.
  - apply bind_Ok in Hload as (items & Hd%wrap_err_Ok & Hload). rewrite Hd in Hst, Hr.
    eapply load_items_ok in Hload as (Hm & Hk & Hdir & Hdisk & Ht); [|done..]. simpl in *.
    split; [|done]. split; [exact Hdir|exact Hk|exact Hm|]. rewrite Hdisk. simpl.
    split; unfold recorded; rewrite ?Hfile, ?Hd; eauto.
  - injection Hload as <-. simpl in *. assert (l = ∅) as -> by (by destruct Hr).
    split; [|done]. split; [done|done|apply memory_ok_empty|].
    simpl. split; unfold recorded; by rewrite ?Hfile.
Qed.

(** ** The goroutines

    At most one per operation, at the state its progress stands for, with the
    request of the operation; every unfinished operation has one. *)
Definition stage (pr : progress) : string := match pr with Starting => StatePending | _ => StateRunning end.

Definition thread_at (ops : gmap string (Operation nat)) (t : thread Executor) : Prop :=
  exists op, ops !! th_id t = Some op /\ op_State op = stage (th_progress t) /\
    forall request, th_progress t = Executing request -> request = op_Request op.

Record threads_ok (p : process) : Prop := mkThreadsOk {
  tk_distinct : NoDup (map th_id (pr_Threads p));
  tk_at : Forall (thread_at (ops_of p)) (pr_Threads p);
  tk_unfinished : forall id op, ops_of p !! id = Some op -> unfinished op = true -> id ∈ map th_id (pr_Threads p) }.

Definition job_of (p : process) (op : Operation nat) (id : string) : option (thread Executor) :=
  (fun executor => mkThread id executor Starting) <$>
  (mg_executors (pr_Manager p) !! executorKey (rq_Capability (op_Request op)) (rq_Operation (op_Request op))).

(** The second loop of [Resume] turns each pending operation into a job, or
    fails it when it has no executor. *)
Lemma resume_jobs_ok l clock ids p jobs p' jobs' :
  foldl (resume_job clock) (p, jobs) ids = (p', jobs') -> NoDup ids -> process_ok l p ->
  Forall (fun id => exists op, ops_of p !! id = Some op /\ op_State op = StatePending) ids ->
  process_ok l p' /\ pr_Disk p' = pr_Disk p /\ pr_Threads p' = pr_Threads p /\
  (forall id, id ∉ ids -> ops_of p' !! id = ops_of p !! id) /\
  exists new, jobs' = jobs ++ new /\ NoDup (map th_id new) /\ (forall t, t ∈ new -> th_id t ∈ ids) /\
    Forall (thread_at (ops_of p')) new /\
    (forall id, id ∈ ids -> id ∈ map th_id new \/ exists op, ops_of p' !! id = Some op /\ unfinished op = false).
Proof.
  revert p jobs. induction ids as [|id ids IH]; intros p jobs.
  - simpl. intros [= -> ->] _ Hp _. split_and!; [done..|].
    exists []. rewrite app_nil_r. split_and!; [done|constructor|set_solver|constructor|set_solver].
  - intros Hfold [Hnew Hnd]%NoDup_cons Hp [(op & Hop & Hst) Hpend]%Forall_cons. simpl in Hfold.
    rewrite Hop in Hfold. simpl in Hfold.
    destruct (mg_executors (pr_Manager p) !! _) as [executor|] eqn:Hex.
    + apply IH in Hfold as (Hp' & Hd & Ht & Hsame & new & -> & Hnn & Hin & Hat & Hdone); [|done..].
      split_and!; [done..| |].
      { intros i Hi. apply Hsame. set_solver. }
      exists (mkThread id executor Starting :: new). rewrite <- app_assoc. split_and!; [done| | | |].
      * simpl. apply NoDup_cons. split; [|done]. intros (t & -> & Ht')%list_elem_of_fmap. by apply Hnew, Hin.
      * intros t [->|Ht']%elem_of_cons; [left|right; auto].
      * constructor; [|done]. exists op. rewrite Hsame by done. by split_and!.
      * intros i [->|Hi]%elem_of_cons; [left; left|]. destruct (Hdone i Hi); [left; by right|by right].
    + set (op' := touch _ _) in Hfold.
      apply IH in Hfold as (Hp' & Hd & Ht & Hsame & new & -> & Hnn & Hin & Hat & Hdone); [|done| |].
      * split_and!; [done..| |].
        { intros i Hi. rewrite Hsame by set_solver. unfold ops_of. simpl. apply lookup_insert_ne. set_solver. }
        exists new. split_and!; [done..|set_solver|done|].
        intros i [->|Hi]%elem_of_cons; [right|by apply Hdone].
        exists op'. rewrite Hsame by done. split; [by apply lookup_insert_eq|done].
      * apply with_ops_ok; [|eapply insert_known; [by destruct Hp|by right; right; right]|done].
        by eapply same_cores_insert.
      * apply Forall_forall. intros i Hi. rewrite Forall_forall in Hpend. destruct (Hpend i Hi) as (o & Ho & Hos).
        exists o. split; [|done]. unfold ops_of. simpl. rewrite lookup_insert_ne; [done|]. by intros ->.
Qed.

Lemma unfinished_iff op : unfinished op = true <-> op_State op = StatePending \/ op_State op = StateRunning.
Proof. unfold unfinished. by rewrite orb_true_iff, !eqb_true. Qed.

Lemma requeue_core clock id op : core_of (requeue clock id op) = core_of op.
Proof. unfold requeue. by destruct (unfinished op). Qed.

Lemma requeue_unfinished clock id op :
  unfinished (requeue clock id op) = unfinished op /\
  (unfinished op = true -> op_State (requeue clock id op) = StatePending).
Proof.
  unfold requeue. destruct (unfinished op) eqn:Hu; [by split|]. split; [exact Hu|done].
Qed.

(** The identities that [Resume] collects. *)
Definition pending_ids (ops : gmap string (Operation nat)) : list string :=
  sort_strings (map fst (List.filter (fun entry => unfinished (snd entry)) (map_to_list ops))).

Lemma pending_ids_spec ops :
  NoDup (pending_ids ops) /\
  forall id, id ∈ pending_ids ops <-> exists op, ops !! id = Some op /\ unfinished op = true.
Proof.
  unfold pending_ids. set (l := map fst _).
  assert (sort_strings l ≡ₚ l) as HP by apply sort_strings_Permutation. split.
  - rewrite HP. apply NoDup_map_filter, NoDup_fst_map_to_list.
  - intros id. rewrite HP. unfold l. rewrite list_elem_of_fmap. split.
    + intros ([i op] & -> & [Hu Hin]%elem_of_filter_true). exists op. by apply elem_of_map_to_list in Hin.
    + intros (op & Hop & Hu). exists (id, op). split; [done|]. apply elem_of_filter_true.
      split; [done|by apply elem_of_map_to_list].
Qed.

Lemma requeued_ok l clock p :
  process_ok l p ->
  process_ok l (with_ops (map_imap (fun id op => Some (requeue clock id op)) (ops_of p)) (keys_of p) p).
Proof.
  intros Hp. apply with_ops_ok; [|intros id op'; rewrite map_lookup_imap|done].
  - unfold same_cores. apply map_eq. intros id. rewrite !lookup_fmap, map_lookup_imap.
    destruct (ops_of p !! id); simpl; [by rewrite requeue_core|done].
  - destruct (ops_of p !! id) as [op|] eqn:Hop; simpl; [|done]. intros [= <-].
    destruct (unfinished op) eqn:Hu.
    + left. by apply requeue_unfinished.
    + unfold requeue. rewrite Hu. destruct Hp as [_ _ Hm _]. by eapply me_state.
Qed.

(** What [Resume] does to a process without goroutines. *)
Lemma Resume_ok os os' clock clock' l p p' res :
  process_ok l p -> pr_Threads p = [] -> Resume os os' clock clock' p = (p', res) ->
  process_ok l p' /\ persisted l (pr_Disk p) (pr_Disk p') /\ (res = Ok tt -> threads_ok p').
Proof.
  intros Hp Ht. unfold Resume. pose proof (requeued_ok l clock p Hp) as H1.
  set (p1 := with_ops _ _ _) in *.
  destruct (persistLocked os p1) as [p2 [[]|e]] eqn:Hp2.
  2:{ eapply persistLocked_ok in Hp2 as (H2 & _ & _ & Hd2); [|done]. by intros [= <- <-]. }
  eapply persistLocked_ok in Hp2 as (H2 & Hm2 & Ht2 & Hd2); [|done].
  assert (forall id, ops_of p2 !! id = requeue clock id <$> ops_of p !! id) as Hops2.
  { intros id. unfold ops_of at 1. rewrite Hm2. unfold p1. simpl. rewrite map_lookup_imap.
    by destruct (ops_of p !! id). }
  fold (pending_ids (ops_of p)). destruct (pending_ids_spec (ops_of p)) as [Hnd Hids].
  destruct (foldl (resume_job clock') (p2, []) (pending_ids (ops_of p))) as [p3 jobs] eqn:H3.
  eapply resume_jobs_ok in H3 as (Hok3 & Hd3 & Ht3 & Hsame & new & Hj & Hnn & Hin & Hat & Hdone); [|done|done|].
  2:{ apply Forall_forall. intros id (op & Hop & Hu)%Hids. exists (requeue clock id op).
      rewrite Hops2, Hop. split; [done|]. by apply requeue_unfinished. }
  simpl in Hj. subst new.
  destruct (persistLocked os' p3) as [p4 res4] eqn:Hp4.
  eapply persistLocked_ok in Hp4 as (H4 & Hm4 & Ht4 & Hd4); [|done].
  assert (persisted l (pr_Disk p) (pr_Disk p4)) as Hd.
  { eapply persisted_trans; [by destruct Hp|exact Hd2|]. by rewrite <- Hd3. }
  destruct res4 as [[]|e]; intros [= <- <-]; [|done].
  split; [|split; [exact Hd|]].
  - by destruct H4.
  - intros _. rewrite Ht4, Ht3, Ht2. simpl. rewrite Ht, app_nil_r.
    assert (ops_of p4 = ops_of p3) as Ho4 by (unfold ops_of; by rewrite Hm4).
    split; simpl; rewrite ?Ht4, ?Ht3, ?Ht2; simpl; rewrite ?Ht, ?app_nil_r; unfold ops_of; simpl; fold (ops_of p4); rewrite ?Ho4.
    + exact Hnn.
    + exact Hat.
    + intros id op Hop Hu. destruct (decide (id ∈ pending_ids (ops_of p))) as [Hid|Hid].
      * destruct (Hdone id Hid) as [?|(op' & Hop' & Hu')]; congruence.
      * rewrite Hsame in Hop by done. rewrite Hops2 in Hop. apply fmap_Some in Hop as (o & Ho & ->).
        destruct Hid. apply Hids. exists o. split; [done|]. by rewrite <- (proj1 (requeue_unfinished clock id o)).
Qed.

Lemma boot_ok os os1 os2 clock clock' executors files l d res :
  boot os os1 os2 clock clock' dir executors files = (d, res) -> file_ok dir files l ->
  Forall (fun fs => file_ok dir fs l) (dk_History d) /\
  forall p, res = Ok p -> process_ok l p /\ threads_ok p.
Proof.
  intros Hb Hf. unfold boot in Hb. destruct (New os dir executors files) as [p|e] eqn:HN.
  2:{ injection Hb as <- <-. split; [constructor|done]. }
  destruct (New_ok _ _ _ _ _ HN Hf) as (Hp & Ht & Hd).
  destruct (Resume os1 os2 clock clock' p) as [p' res'] eqn:HR.
  destruct (Resume_ok _ _ _ _ _ _ _ _ Hp Ht HR) as (Hp' & Hpers & Hth).
  injection Hb as <- <-. split.
  - apply persisted_ok in Hpers as (_ & v & Hv & Hok); [|by destruct Hp].
    rewrite Hd in Hv. simpl in Hv. by rewrite app_nil_r in Hv; rewrite Hv.
  - destruct res' as [[]|]; [|done]. intros q [= <-]. auto.
Qed.

(** ** Steps *)

(** A goroutine that moves changes its own operation only. *)
Lemma threads_replace p p' before t after new op' :
  threads_ok p -> at_thread p before t after ->
  ops_of p' = <[th_id t := op']> (ops_of p) -> pr_Threads p' = before ++ new ++ after ->
  (new = [] /\ unfinished op' = false) \/ (exists t', new = [t'] /\ th_id t' = th_id t /\ thread_at (ops_of p') t') ->
  threads_ok p'.
Proof.
  intros [Hnd Hat Hun] Hthreads Hops Ht' Hnew. unfold at_thread in Hthreads. rewrite Hthreads in Hnd, Hat, Hun.
  assert (forall t', t' ∈ before ++ after -> th_id t' <> th_id t) as Hother.
  { intros t' Hin Heq. rewrite map_app, map_cons in Hnd. rewrite <- Permutation_middle in Hnd.
    apply NoDup_cons in Hnd as [Hnd _]. apply Hnd. rewrite <- map_app, <- Heq. by apply list_elem_of_fmap_2. }
  assert (forall t', t' ∈ before ++ after -> thread_at (ops_of p') t') as Hkeep.
  { intros t' Hin. rewrite Forall_forall in Hat. destruct (Hat t') as (o & Ho & Hs & Hr); [set_solver|].
    exists o. split; [|done]. rewrite Hops, lookup_insert_ne; [done|]. intros Heq. by apply (Hother t' Hin). }
  split; rewrite Ht'.
  - destruct Hnew as [[-> _]|(t' & -> & Hid & _)]; simpl.
    + rewrite map_app, map_cons, <- Permutation_middle in Hnd. apply NoDup_cons in Hnd as [_ Hnd]. by rewrite map_app.
    + rewrite map_app, map_cons in Hnd |- *. by rewrite Hid.
  - apply Forall_forall. intros t' Hin.
    destruct Hnew as [[-> _]|(t1 & -> & _ & Ht1)]; [by apply Hkeep|].
    apply elem_of_app in Hin as [Hin|[->|Hin]%elem_of_cons]; [|done|]; apply Hkeep; set_solver.
  - intros id op Hop Hu. rewrite Hops in Hop. apply lookup_insert_Some in Hop as [[<- <-]|[Hne Hop]].
    + destruct Hnew as [[_ Hf]|(t1 & -> & Hid & _)]; [congruence|].
      rewrite !map_app, !elem_of_app. right; left. simpl. rewrite Hid. by left.
    + specialize (Hun _ _ Hop Hu). rewrite map_app, map_cons in Hun. rewrite !map_app, !elem_of_app.
      apply elem_of_app in Hun as [?|[?|?]%elem_of_cons]; [by left|congruence|by right; right].
Qed.

Lemma threads_ok_heap h p : threads_ok p -> threads_ok (with_heap h p).
Proof. intros [H1 H2 H3]. by split. Qed.

Lemma process_ok_heap l h p : process_ok l p -> process_ok l (with_heap h p).
Proof. intros [H1 H2 H3 H4]. by split. Qed.

Lemma process_ok_threads l ts p : process_ok l p -> process_ok l (with_threads ts p).
Proof. intros [H1 H2 H3 H4]. by split. Qed.

Lemma threads_ok_at p before t after :
  threads_ok p -> at_thread p before t after -> thread_at (ops_of p) t.
Proof.
  intros [_ Hat _] Hth. unfold at_thread in Hth. rewrite Hth in Hat. apply Forall_app in Hat as [_ Hat].
  by apply Forall_cons in Hat as [? _].
Qed.

Lemma to_returned_spec outcome h op :
  core_of (snd (to_returned outcome h op)) = core_of op /\
  known_state (op_State (snd (to_returned outcome h op))) /\ unfinished (snd (to_returned outcome h op)) = false.
Proof.
  unfold to_returned, known_state. destruct outcome as [res|err]; [|by split_and!; [|auto|]].
  split_and!; [done|auto|done].
Qed.

Lemma thread_step_ok l (p p' : process) :
  process_ok l p -> threads_ok p -> thread_step p p' ->
  process_ok l p' /\ threads_ok p' /\ persisted l (pr_Disk p) (pr_Disk p').
Proof.
  intros Hp Ht Hstep. destruct Hstep as
    [os now p before after id executor Hth|p p' before after id executor request Hth Hread
    |p before after id executor request outcome Hth|os now p before after id executor outcome Hth];
    pose proof (threads_ok_at _ _ _ _ Ht Hth) as (op & Hop & Hst & Hreq); simpl in *.
  - destruct (update_ok os now id to_running l p op Hp Hop) as (H1 & H2 & H3 & H4).
    { intros h. split; [done|]. by right; left. }
    split; [by apply process_ok_threads|]. split; [|exact H4].
    eapply (threads_replace p _ before _ after [_]); [done|exact Hth|exact H3|done|].
    right. eexists. split_and!; [done..|]. eexists. simpl. unfold ops_of in *. simpl. rewrite H3.
    by rewrite lookup_insert_eq.
  - injection Hread as <- <-. rewrite Hop. simpl.
    split; [by apply process_ok_threads, process_ok_heap|]. split; [|apply persisted_refl].
    eapply (threads_replace p _ before _ after [_] op); [done|exact Hth| |done|].
    + unfold ops_of. simpl. by rewrite insert_id.
    + right. eexists. split_and!; [done..|]. exists op. by split_and!; [|done|intros ? [= <-]].
  - split; [by apply process_ok_threads|]. split; [|apply persisted_refl].
    eapply (threads_replace p _ before _ after [_] op); [done|exact Hth| |done|].
    + unfold ops_of. simpl. by rewrite insert_id.
    + right. eexists. split_and!; [done..|]. by exists op.
  - pose proof (fun h => to_returned_spec outcome h op) as Hr.
    destruct (update_ok os now id (to_returned outcome) l p op Hp Hop) as (H1 & H2 & H3 & H4).
    { intros h. by destruct (Hr h) as (? & ? & ?). }
    split; [by apply process_ok_threads|]. split; [|exact H4].
    eapply (threads_replace p _ before _ after []); [done|exact Hth|exact H3|done|].
    left. split; [done|]. by destruct (Hr (pr_Heap p)) as (_ & _ & Hu).
Qed.

(** ** Submission *)

(** What a submission that reaches the manager adds to it. *)
Definition new_operation (id : string) (now : Z) (request : Request nat) : Operation nat :=
  mkOperation id request StatePending zero_result "" now now.

Lemma new_operation_ok l p id now request raw :
  process_ok l p -> validateRequest request = Ok tt -> decoded_request request ->
  (forall value, raw = Ok value -> Forall (fun b => 0 <= b < 256)%Z value) -> newID raw = Ok id ->
  ops_of p !! id = None -> keys_of p !! idempotencyKey request = None ->
  memory_ok (<[id := new_operation id now request]> (ops_of p)) (<[idempotencyKey request := id]> l) /\
  forall key, l !! key <> Some id.
Proof.
  intros [Hd Hk Hm Hf] Hv Hdec Hraw Hid Hfresh Hnone. rewrite Hk in Hnone.
  destruct (newID_text _ _ Hraw Hid) as [Hne Htext]. split.
  - apply (memory_ok_insert (ops_of p) l id (new_operation id now request)); [done|done|by left| |done|done].
    split; done.
  - intros key Hkey. apply (memory_ok_lookup _ _ _ _ Hm) in Hkey as (op & Hop & _). congruence.
Qed.

Lemma threads_ok_spawn p p' t op :
  threads_ok p -> ops_of p !! th_id t = None -> ops_of p' = <[th_id t := op]> (ops_of p) ->
  pr_Threads p' = t :: pr_Threads p -> thread_at (ops_of p') t -> threads_ok p'.
Proof.
  intros [Hnd Hat Hun] Hnew Hops Hth Ht. rewrite Forall_forall in Hat.
  assert (forall t', t' ∈ pr_Threads p -> th_id t' <> th_id t) as Hother.
  { intros t' Hin Heq. destruct (Hat t' Hin) as (o & Ho & _). congruence. }
  split; rewrite Hth; simpl.
  - apply NoDup_cons. split; [|done]. intros (t' & Heq & Hin)%list_elem_of_fmap. by apply (Hother t' Hin).
  - constructor; [done|]. apply Forall_forall. intros t' Hin. destruct (Hat t' Hin) as (o & Ho & Hrest).
    exists o. split; [|done]. rewrite Hops, lookup_insert_ne; [done|]. intros Heq. by apply (Hother t' Hin).
  - intros id o. rewrite Hops, lookup_insert_Some. intros [[<- _]|[_ Ho]] Hu; [by left|right; eauto].
Qed.

(** What a critical section may leave if the process stops in it. *)
Definition stops_in (l : gmap string string) (d d' : disk) : Prop :=
  exists visited, dk_History d' = visited ++ dk_History d /\
    Forall (fun fs => exists l', ledger_step l Silent l' /\ file_ok dir fs l') visited.

Lemma persisted_stops_in l d d' : file_ok dir (dk_Files d) l -> persisted l d d' -> stops_in l d d'.
Proof.
  intros Hf Hp. destruct (persisted_ok _ _ _ Hf Hp) as (_ & v & Hv & Hok). exists v. split; [done|].
  eapply Forall_impl; [exact Hok|]. intros fs Hfs. exists l. split; [constructor|done].
Qed.

Lemma stops_in_refl l d : stops_in l d d.
Proof. exists []. by split; [|constructor]. Qed.

(** Undoing the entry of an operation. *)
Lemma rollback_entry (p : process) id op key h0 h d :
  ops_of p !! id = None -> keys_of p !! key = None ->
  let q := with_disk d (with_heap h (with_heap h0 (with_ops (<[id := op]> (ops_of p)) (<[key := id]> (keys_of p)) p))) in
  with_ops (delete id (ops_of q)) (delete key (keys_of q)) q = with_disk d (with_heap h p).
Proof.
  intros Hid Hkey. destruct p as [[dir' ex ops keys] h1 d1 ts]. unfold ops_of, keys_of, with_ops in *. simpl in *.
  by rewrite !delete_insert_id.
Qed.

Lemma Submit_ok os raw now request l p p' answer :
  process_ok l p -> threads_ok p -> decoded_request request ->
  (forall value, raw = Ok value -> Forall (fun b => 0 <= b < 256)%Z value) ->
  (forall id, newID raw = Ok id -> ops_of p !! id = None) ->
  Submit os raw now request p = (p', answer) ->
  exists l', ledger_step l (observe request answer) l' /\ process_ok l' p' /\ threads_ok p' /\
    stops_in l (pr_Disk p) (pr_Disk p').
Proof.
  intros Hp Ht Hdec Hraw Hfresh. unfold Submit.
  assert (forall e : error, (p, Err e) = (p', answer) -> exists l', ledger_step l (observe request answer) l' /\
    process_ok l' p' /\ threads_ok p' /\ stops_in l (pr_Disk p) (pr_Disk p')) as Hrefuse.
  { intros e [= <- <-]. exists l. split_and!; [constructor|done|done|apply stops_in_refl]. }
  destruct (validateRequest request) as [[]|e] eqn:Hv; [|apply Hrefuse].
  destruct (mg_executors _ !! _) as [executor|]; [|apply Hrefuse]. simpl.
  destruct (keys_of p !! idempotencyKey request) as [id|] eqn:Hkey; simpl.
  - rewrite (po_keys _ _ Hp) in Hkey.
    rewrite (proj2 (neqb_true id "")) by (by exact (records_nonempty _ _ _ _ (me_records _ _ (po_memory _ _ Hp)) Hkey)).
    pose proof Hkey as (op & Hop & _)%(memory_ok_lookup _ _ _ _ (po_memory _ _ Hp)).
    rewrite Hop. simpl. intros [= <- <-]. exists l. split_and!; [|done|done|apply stops_in_refl].
    simpl. rewrite (me_id _ _ (po_memory _ _ Hp) _ _ Hop). by constructor.
  - destruct (newID raw) as [id|e] eqn:Hid; [|apply Hrefuse]. specialize (Hfresh _ eq_refl).
    destruct (new_operation_ok l p id now request raw Hp Hv Hdec Hraw Hid Hfresh Hkey) as [Hm Hl].
    fold (new_operation id now request). set (p1 := with_heap _ _).
    rewrite (po_keys _ _ Hp) in Hkey.
    assert (ledger_step l Silent (<[idempotencyKey request := id]> l)) as Hsil by (by constructor).
    destruct (persistLocked os p1) as [p2 res] eqn:Hper.
    eapply (persistLocked_spec _ _ _ _ (<[idempotencyKey request := id]> l)) in Hper as (h & d & -> & Hd & Hf);
      [|by destruct Hp|exact Hm].
    assert (stops_in l (pr_Disk p) d) as Hstop.
    { destruct Hd as (v & Hv' & _ & Hp'). exists v. split; [exact Hv'|]. eapply Forall_impl; [exact Hp'|].
      intros fs [Hfs|Hfs]; [|by eauto]. exists l. split; [constructor|]. eapply file_ok_same; [|by destruct Hp].
      by rewrite Hfs. }
    destruct res as [[]|e]; intros [= <- <-].
    + exists (<[idempotencyKey request := id]> l). split_and!; [by constructor| | |exact Hstop].
      * split; [by destruct Hp|simpl; unfold keys_of; simpl; by rewrite <- (po_keys _ _ Hp)|exact Hm|exact Hf].
      * eapply (threads_ok_spawn p _ (mkThread id executor Starting)); [done|exact Hfresh|reflexivity|done|].
        exists (new_operation id now request). split_and!; [|done|done]. apply lookup_insert_eq.
    + exists l. unfold p1. rewrite rollback_entry by (by rewrite ?(po_keys _ _ Hp)).
      split_and!; [constructor| |by destruct Ht|exact Hstop].
      destruct Hp as [H1 H2 H3 H4]. split; [done..|]. by eapply file_ok_same; [symmetry; exact Hf|].
Qed.

(** ** The system *)

Definition system_ok (l : gmap string string) (s : system) : Prop :=
  match s with
  | Up p => process_ok l p /\ threads_ok p
  | Down files => file_ok dir files l
  end.

Lemma process_step_ok l (p p' : process) o :
  process_ok l p -> threads_ok p -> process_step p o p' ->
  exists l', ledger_step l o l' /\ process_ok l' p' /\ threads_ok p' /\ stops_in l (pr_Disk p) (pr_Disk p').
Proof.
  intros Hp Ht Hstep. destruct Hstep as [os raw now request p p' answer Hdec Hraw Hfresh Hs|p p' Hstep|h p].
  - by eapply Submit_ok.
  - destruct (thread_step_ok _ _ _ Hp Ht Hstep) as (H1 & H2 & H3).
    exists l. split_and!; [constructor|done|done|]. eapply persisted_stops_in; [by destruct Hp|done].
  - exists l. split_and!; [constructor|by apply process_ok_heap|by apply threads_ok_heap|apply stops_in_refl].
Qed.

Lemma system_step_ok l (s : system) o s' :
  system_ok l s -> system_step dir s o s' -> exists l', ledger_step l o l' /\ system_ok l' s'.
Proof.
  intros Hs Hstep. destruct Hstep as [p o p' Hstep|p|p o p' visited files Hstep Hv Hin
    |os os1 os2 clock clock' executors files d p Hb|os os1 os2 clock clock' executors files d booted files' Hb Hin].
  - destruct Hs as [Hp Ht]. destruct (process_step_ok _ _ _ _ Hp Ht Hstep) as (l' & ? & ? & ? & _). by exists l'.
  - destruct Hs as [Hp _]. exists l. split; [constructor|by destruct Hp].
  - destruct Hs as [Hp Ht]. destruct (process_step_ok _ _ _ _ Hp Ht Hstep) as (l' & _ & _ & _ & v & Hv' & Hok).
    rewrite Hv in Hv'. apply app_inv_tail in Hv' as <-. rewrite Forall_forall in Hok.
    destruct (Hok _ Hin) as (l'' & ? & ?). by exists l''.
  - destruct (boot_ok _ _ _ _ _ _ _ _ _ _ Hb Hs) as [_ Hp]. exists l. split; [constructor|by apply Hp].
  - destruct (boot_ok _ _ _ _ _ _ _ _ _ _ Hb Hs) as [Hok _]. rewrite Forall_forall in Hok.
    exists l. split; [constructor|by apply Hok].
Qed.

Lemma system_ok_ledger l (s : system) : system_ok l s -> ledger_of dir s = l.
Proof. destruct s; [by intros [[_ ? _ _] _]|]. simpl. intros [_ _ [_ _ _ ->]]. by rewrite map_map. Qed.

Lemma initial_ok (s : system) : initial dir s -> system_ok ∅ s.
Proof. intros (files & -> & Hf). split; unfold recorded; rewrite ?Hf; [done|constructor|apply records_nil]. Qed.

Lemma reachable_ok (s : system) : reachable dir s -> system_ok (ledger_of dir s) s.
Proof.
  induction 1 as [s Hi|s o s' _ IH Hstep].
  - pose proof (initial_ok s Hi) as Hok. by rewrite (system_ok_ledger _ _ Hok).
  - destruct (system_step_ok _ _ _ _ IH Hstep) as (l' & _ & Hok). by rewrite (system_ok_ledger _ _ Hok).
Qed.

Lemma reachable_up p : reachable dir (Up p) -> process_ok (keys_of p) p /\ threads_ok p.
Proof. intros H. apply (reachable_ok _ H). Qed.

Lemma refinement (s : system) o s' :
  reachable dir s -> system_step dir s o s' -> ledger_step (ledger_of dir s) o (ledger_of dir s').
Proof.
  intros Hr Hstep. destruct (system_step_ok _ _ _ _ (reachable_ok _ Hr) Hstep) as (l' & Hl & Hok).
  by rewrite (system_ok_ledger _ _ Hok).
Qed.

(** ** The ledger *)

Definition mentions (key : string) (o : observation) : option string :=
  match o with
  | Accepted k id | Known k id => if k == key then Some id else None
  | _ => None
  end.

Lemma ledger_step_keeps l o l' key id : ledger_step l o l' -> l !! key = Some id -> l' !! key = Some id.
Proof. intros Hstep Hl. destruct Hstep; try done; rewrite lookup_insert_ne; congruence. Qed.

Lemma ledger_step_mentions l o l' key id :
  ledger_step l o l' -> mentions key o = Some id -> l' !! key = Some id /\ (is_Some (l !! key) -> o = Known key id).
Proof.
  intros Hstep. destruct Hstep as [l k i Hk Hi|l k i Hk| | |]; simpl; try done;
    case_bool_decide as Heq; try done; subst; intros [= ->].
  - rewrite lookup_insert_eq. split; [done|]. intros [? ?]; congruence.
  - done.
Qed.

Lemma run_reachable (s : system) obs s' : reachable dir s -> system_run_of dir s obs s' -> reachable dir s'.
Proof. intros Hr Hrun. induction Hrun; [done|]. apply IHHrun. by eapply reachable_step. Qed.

Lemma run_keeps (s : system) obs s' key id :
  reachable dir s -> system_run_of dir s obs s' -> ledger_of dir s !! key = Some id ->
  ledger_of dir s' !! key = Some id.
Proof.
  intros Hr Hrun. induction Hrun as [|s o s' obs s'' Hstep Hrun IH]; [done|]. intros Hk.
  apply IH; [by eapply reachable_step|]. by eapply ledger_step_keeps; [apply refinement|].
Qed.

Lemma run_split (s : system) pre obs s' : system_run_of dir s (pre ++ obs) s' ->
  exists s1, system_run_of dir s pre s1 /\ system_run_of dir s1 obs s'.
Proof.
  revert s. induction pre as [|o pre IH]; intros s; simpl.
  - intros H. exists s. split; [constructor|done].
  - intros H. inversion H as [|? ? s2 ? ? Hstep Hrun]; subst. destruct (IH _ Hrun) as (s1 & H1 & H2).
    exists s1. split; [|done]. by econstructor.
Qed.
End dir.
End records.

(** ** A sample

    A codec for operations whose maps are texts: the fields as a list of
    texts, numbered and written as bits. *)
Definition sample_fields (op : Operation string) : list string :=
  let r := op_Request op in
  [op_ID op; rq_Application r; rq_CallerService r; rq_Capability r; rq_Operation r; rq_ResourceName r;
   rq_IdempotencyKey r; default "" (String "+" <$> rq_Parameters r); op_State op; rs_ResourceID (op_Result op);
   default "" (String "+" <$> rs_Binding (op_Result op)); op_Error op;
   bits_text (encode (op_CreatedAt op)); bits_text (encode (op_UpdatedAt op))].

Definition sample_map (s : string) : option string := match s with String _ s => Some s | EmptyString => None end.
Definition sample_number (s : string) : Z := default 0%Z (decode (text_bits s)).

Definition sample_operation (fields : list string) : Operation string :=
  match fields with
  | [id; app; caller; cap; oper; res; key; params; state; rid; binding; err; created; updated] =>
      mkOperation id (mkRequest app caller cap oper res key (sample_map params)) state
        (mkResult rid (sample_map binding)) err (sample_number created) (sample_number updated)
  | _ => zero_operation
  end.

#[export] Instance sample_json : OperationJSON :=
  mkOperationJSON string (fun m => m) (fun items => Ok (bits_text (encode (map sample_fields items))))
    (fun data => match decode (text_bits data) with
                 | Some items => Ok (map sample_operation items)
                 | None => Err (errorsNew "invalid character")
                 end).

Lemma sample_operation_fields op : sample_operation (sample_fields op) = op.
Proof.
  destruct op as [id [app caller cap oper res key params] state [rid binding] err created updated].
  unfold sample_operation, sample_fields. simpl. unfold sample_number. rewrite !text_bits_only, !decode_encode. simpl.
  by destruct params, binding.
Qed.

#[export, refine] Instance sample_laws : OperationJSONLaws sample_json :=
  mkOperationJSONLaws _ (fun s => s) (fun m => m) _ _.
Proof.
  - done.
  - intros items data [= <-]. unfold json_decode, sample_json. rewrite text_bits_newline, decode_encode.
    f_equal. rewrite map_map. apply map_ext_Forall, Forall_forall. intros op _.
    rewrite sample_operation_fields. by destruct op as [? [] ? [] ? ? ?].
Defined.

Definition sample_os : OS := mkOS (fun _ => None) (fun _ f => f).
Definition sample_request : Request nat :=
  mkRequest "shop" "web" "object/v1" "runtime.create" "images" "create-images" (Some 0%nat).
Definition sample_raw : result error (list Z) := Ok (map Z.of_nat (seq 1 16)).
Definition sample_executors : list (string * option unit) :=
  [(executorKey "object/v1" "runtime.create", Some tt)].
Definition sample_boot : disk * result error (process unit) :=
  boot sample_os sample_os sample_os (fun _ => 1%Z) (fun _ => 2%Z) "/state" sample_executors ∅.
Definition empty_process : process unit := mkProcess (mkManager "" ∅ ∅ ∅) [] (mkDisk ∅ []) [].
Definition sample_booted : process unit := match snd sample_boot with Ok p => p | Err _ => empty_process end.
Definition sample_started : process unit := with_heap ["size=5"] sample_booted.
Definition sample_submitted : process unit := fst (Submit sample_os sample_raw 3 sample_request sample_started).
Definition sample_id : string := "op-0102030405060708090a0b0c0d0e0f10".
Definition sample_key : string := idempotencyKey sample_request.

Example sample_submit_accepts :
  observe sample_request (snd (Submit sample_os sample_raw 3 sample_request sample_started)) = Accepted sample_key sample_id.
Proof. vm_compute. reflexivity. Qed.

Lemma sample_fresh (id : string) : newID sample_raw = Ok id -> ops_of sample_started !! id = None.
Proof. intros _. assert (ops_of sample_started = ∅) as -> by (vm_compute; reflexivity). apply lookup_empty. Qed.

Lemma sample_submit_step : process_step sample_started (Accepted sample_key sample_id) sample_submitted.
Proof.
  rewrite <- sample_submit_accepts. eapply step_submit; [by vm_compute| |exact sample_fresh|].
  - intros value [= <-]. apply (bool_decide_unpack _). by vm_compute.
  - unfold sample_submitted. apply surjective_pairing.
Qed.

Lemma sample_initial : initial (Executor := unit) "/state" (Down ∅).
Proof. exists ∅. by split. Qed.

Lemma sample_boot_step : system_step "/state" (Down ∅) Silent (Up sample_booted).
Proof.
  apply (system_boot "/state" sample_os sample_os sample_os (fun _ => 1%Z) (fun _ => 2%Z) sample_executors ∅ (fst sample_boot)).
  vm_compute. reflexivity.
Qed.

Lemma sample_reachable_started : reachable "/state" (Up sample_started).
Proof.
  eapply reachable_step; [|apply system_run, step_heap].
  eapply reachable_step; [apply reachable_initial, sample_initial|apply sample_boot_step].
Qed.

Lemma sample_run :
  system_run_of (Executor := unit) "/state" (Down ∅) [Silent; Silent; Accepted sample_key sample_id; Silent]
    (Down (dk_Files (pr_Disk sample_submitted))).
Proof.
  eapply run_cons; [apply sample_boot_step|].
  eapply run_cons; [apply system_run, (step_heap (json := sample_json) ["size=5"])|].
  eapply run_cons; [apply system_run, sample_submit_step|].
  eapply run_cons; [apply system_stop|]. constructor.
Qed.

Lemma sample_reachable : reachable "/state" (Up sample_submitted).
Proof. eapply reachable_step; [apply sample_reachable_started|apply system_run, sample_submit_step]. Qed.

(** ** Properties *)

(** C16: The manager refines the ledger of idempotency keys: every step of the
    system, in any interleaving of submissions, goroutines, failed writes,
    stops and restarts, is a step of the ledger with the same observation; a
    stop inside a submission may enter the operation without an answer. *)
Theorem system_refines_ledger {json} {laws : OperationJSONLaws json} {Executor : Type} dir
    (s : system (Executor := Executor)) o s' :
  reachable dir s -> system_step dir s o s' -> ledger_step (ledger_of dir s) o (ledger_of dir s').
Proof. apply refinement. Qed.

Lemma system_refines_ledger_witness :
  ledger_step (keys_of sample_started) (Accepted sample_key sample_id) (keys_of sample_submitted) /\
  keys_of sample_submitted !! sample_key = Some sample_id.
Proof.
  split; [|vm_compute; reflexivity].
  apply (system_refines_ledger "/state" (Up sample_started) (Accepted sample_key sample_id) (Up sample_submitted)).
  - apply sample_reachable_started.
  - apply system_run, sample_submit_step.
Defined.

(** C2: Submission is idempotent for ever: once a key was given an identity,
    accepted or already known, every later answer for that key, across
    restarts and failures, is that the key is known with that identity. *)
Theorem Submit_idempotent {json} {laws : OperationJSONLaws json} {Executor : Type} dir
    (s s' : system (Executor := Executor)) pre o mid o' post key id id' :
  reachable dir s -> system_run_of dir s (pre ++ o :: mid ++ o' :: post) s' ->
  mentions key o = Some id -> mentions key o' = Some id' -> o' = Known key id.
Proof.
  intros Hr Hrun Ho Ho'.
  apply run_split in Hrun as (s1 & H1 & H2). pose proof (run_reachable dir _ _ _ Hr H1) as Hr1.
  inversion H2 as [|? ? s2 ? ? Hstep Hrun]; subst. pose proof (refinement dir _ _ _ Hr1 Hstep) as Hl.
  pose proof (reachable_step dir _ _ _ Hr1 Hstep) as Hr2.
  destruct (ledger_step_mentions _ _ _ _ _ Hl Ho) as [Hk _].
  apply run_split in Hrun as (s3 & H3 & H4). pose proof (run_keeps dir _ _ _ _ _ Hr2 H3 Hk) as Hk3.
  pose proof (run_reachable dir _ _ _ Hr2 H3) as Hr3.
  inversion H4 as [|? ? s4 ? ? Hstep' Hrun']; subst. pose proof (refinement dir _ _ _ Hr3 Hstep') as Hl'.
  destruct (ledger_step_mentions _ _ _ _ _ Hl' Ho') as [Hk4 Hknown].
  pose proof (ledger_step_keeps _ _ _ _ _ Hl' Hk3) as Hk4'. rewrite Hk4 in Hk4'. injection Hk4' as ->.
  apply Hknown. by exists id.
Qed.

(** Two operations never share a key, and an operation that is reported to
    exist is in memory under its identity, with that key. *)
Theorem operations_match_keys {json} {laws : OperationJSONLaws json} {Executor : Type} dir (p : process Executor) key id :
  reachable dir (Up p) ->
  keys_of p !! key = Some id <->
  exists op, ops_of p !! id = Some op /\ op_ID op = id /\ idempotencyKey (op_Request op) = key.
Proof.
  intros [Hp _]%reachable_up. rewrite (memory_ok_lookup _ _ _ _ (po_memory _ _ _ Hp)). split.
  - intros (op & Hop & Hk). exists op. split_and!; [done|by eapply (me_id _ _ (po_memory _ _ _ Hp))|done].
  - intros (op & Hop & _ & Hk). by exists op.
Qed.

Definition finished (op : Operation nat) : Prop := op_State op = StateSucceeded \/ op_State op = StateFailed.


Lemma finished_not_unfinished op : finished op -> unfinished op = false.
Proof. intros [H|H]; unfold unfinished; by rewrite H. Qed.

(** Persisting changes neither the manager nor the goroutines. *)
Lemma persistLocked_frame {json : OperationJSON} {Executor} os (p : process Executor) :
  pr_Manager (fst (persistLocked os p)) = pr_Manager p /\ pr_Threads (fst (persistLocked os p)) = pr_Threads p.
Proof. unfold persistLocked. destruct (json_encode _); [destruct (replace_via _ _ _ _ _ _)|]; done. Qed.

Lemma update_frame {json : OperationJSON} {Executor} os now id change (p : process Executor) :
  pr_Threads (update os now id change p) = pr_Threads p /\
  forall i, i <> id -> ops_of (update os now id change p) !! i = ops_of p !! i.
Proof.
  unfold update. destruct (ops_of p !! id) as [op|]; [|done]. destruct (change _ op) as [h op'].
  unfold ops_of. destruct (persistLocked_frame os (with_heap h (with_ops (<[id:=touch now op']> (mg_ops (pr_Manager p))) (keys_of p) p)))
    as [-> ->]. split; [done|]. intros i Hi. simpl. by apply lookup_insert_ne.
Qed.

(** A goroutine that moves leaves the other operations alone. *)
Lemma thread_step_frame {json : OperationJSON} {Executor} (p p' : process Executor) :
  thread_step p p' ->
  exists t, t ∈ pr_Threads p /\ forall i, i <> th_id t -> ops_of p' !! i = ops_of p !! i.
Proof.
  intros Hstep. destruct Hstep as [os now p before after id executor Hth|p p' before after id executor request Hth Hread
    |p before after id executor request outcome Hth|os now p before after id executor outcome Hth];
    (eexists; split; [rewrite Hth; apply elem_of_app; right; by left|]); simpl; intros i Hi.
  - by apply update_frame.
  - injection Hread as <- _. done.
  - done.
  - by apply update_frame.
Qed.

Lemma Submit_frame {json : OperationJSON} {Executor} os raw now request (p : process Executor) i op :
  (forall id, newID raw = Ok id -> ops_of p !! id = None) ->
  ops_of p !! i = Some op -> ops_of (fst (Submit os raw now request p)) !! i = Some op.
Proof.
  intros Hfresh Hop. unfold Submit.
  destruct (validateRequest request); [|done]. destruct (mg_executors _ !! _); [|done].
  simpl. destruct (_ != ""); [done|]. destruct (newID raw) as [id|]; [|done]. specialize (Hfresh _ eq_refl).
  set (p1 := with_heap _ _). pose proof (persistLocked_frame os p1) as [Hm _].
  destruct (persistLocked os p1) as [p2 res]. simpl in Hm.
  destruct res; simpl; unfold ops_of in *; simpl; rewrite Hm; simpl.
  - by rewrite lookup_insert_ne by congruence.
  - by rewrite delete_insert_id.
Qed.

(** A finished operation does not change while the process runs: what [Get]
    reported once, it reports for ever. *)
Theorem finished_stays {json} {laws : OperationJSONLaws json} {Executor : Type} dir (p p' : process Executor) o id op :
  reachable dir (Up p) -> process_step p o p' ->
  ops_of p !! id = Some op -> finished op -> ops_of p' !! id = Some op.
Proof.
  intros [_ Ht]%reachable_up Hstep Hop Hfin.
  destruct Hstep as [os raw now request p p' answer _ _ Hfresh Hs|p p' Hstep|h p]; [| |done].
  - assert (p' = fst (Submit os raw now request p)) as -> by (by rewrite Hs). by apply Submit_frame.
  - apply thread_step_frame in Hstep as (t & Hin & Hsame). rewrite Hsame; [done|]. intros ->.
    destruct Ht as [_ Hat _]. rewrite Forall_forall in Hat. destruct (Hat _ Hin) as (op' & Hop' & Hst & _).
    rewrite Hop in Hop'. injection Hop' as <-. apply finished_not_unfinished in Hfin.
    assert (unfinished op = true); [|congruence]. apply unfinished_iff. rewrite Hst.
    destruct (th_progress t); simpl; tauto.
Qed.

(** ** Termination *)






(** *** What cloning writes *)

Lemma clone_map_write {json : OperationJSON} (h : list json_map) m r v :
  h !! r = Some v ->
  exists n, clone_map h m !! r = Some (Nat.iter n json_refresh v) /\ (m = Some r -> 0 < n)%nat.
Proof.
  intros Hr. destruct m as [r'|]; simpl; [|by exists 0%nat]. destruct (decide (r' = r)) as [->|Hne].
  - exists 1%nat. rewrite list_lookup_alter_eq, Hr. split; [done|lia].
  - exists 0%nat. rewrite list_lookup_alter_ne by done. split; [done|congruence].
Qed.

Lemma cloneOperation_write {json : OperationJSON} (h : list json_map) op r v :
  h !! r = Some v ->
  exists n, fst (cloneOperation h op) !! r = Some (Nat.iter n json_refresh v) /\
    (rq_Parameters (op_Request op) = Some r -> 0 < n)%nat.
Proof.
  intros Hr. unfold cloneOperation. simpl.
  destruct (clone_map_write h (rq_Parameters (op_Request op)) r v Hr) as (n & Hn & Hn0).
  destruct (clone_map_write _ (rs_Binding (op_Result op)) r _ Hn) as (k & Hk & _).
  exists (k + n)%nat. rewrite Nat.iter_add. split; [exact Hk|]. intros H. specialize (Hn0 H). lia.
Qed.

Lemma clone_items_write {json : OperationJSON} (h : list json_map) ops r v :
  h !! r = Some v ->
  exists n, clone_items h ops !! r = Some (Nat.iter n json_refresh v) /\
    ((exists op, op ∈ ops /\ rq_Parameters (op_Request op) = Some r) -> 0 < n)%nat.
Proof.
  revert h v. induction ops as [|op ops IH]; intros h v Hr.
  - exists 0%nat. split; [done|]. intros (op & Hop & _). by apply not_elem_of_nil in Hop.
  - destruct (cloneOperation_write h op r v Hr) as (n & Hn & Hn0). destruct (IH _ _ Hn) as (k & Hk & Hk0).
    exists (k + n)%nat. rewrite Nat.iter_add. split; [exact Hk|]. intros (op' & Hop' & Hp).
    apply elem_of_cons in Hop' as [->|Hin]; [specialize (Hn0 Hp); lia|].
    assert (0 < k)%nat by (by apply Hk0; exists op'). lia.
Qed.












(** ** Sharing

    The executor reads the parameters of a stored operation: every persisting,
    of any operation, writes them. *)

(** The request an executor works on is not a copy: while it runs, every
    persisting of the manager writes the map of its parameters again. *)
Theorem persist_writes_executing_request {json} {laws : OperationJSONLaws json} {Executor : Type} dir os
    (p : process Executor) id executor request r v :
  reachable dir (Up p) -> mkThread id executor (Executing request) ∈ pr_Threads p ->
  rq_Parameters request = Some r -> pr_Heap p !! r = Some v ->
  exists n, (0 < n)%nat /\ pr_Heap (fst (persistLocked os p)) !! r = Some (Nat.iter n json_refresh v).
Proof.
  intros [_ [_ Hat _]]%reachable_up Hin Hparam Hr. rewrite Forall_forall in Hat.
  destruct (Hat _ Hin) as (op & Hop & _ & Hreq). specialize (Hreq request eq_refl). subst request. simpl in Hop.
  destruct (clone_items_write (pr_Heap p) (map snd (map_to_list (ops_of p))) r v Hr) as (n & Hn & Hn0).
  exists n. split.
  - apply Hn0. exists op. split; [|done]. apply (list_elem_of_fmap_2' snd _ (id, op)); [|done].
    by apply elem_of_map_to_list.
  - unfold persistLocked. destruct (json_encode _); [|exact Hn]. by destruct (replace_via _ _ _ _ _ _).
Qed.

(** ** The sample continued

    The goroutine runs to its end; the process is stopped and started again,
    and the request is submitted once more. *)
Definition sample_running : process unit :=
  with_threads [mkThread sample_id tt Reading] (update sample_os 4 sample_id to_running sample_submitted).
Definition sample_executing : process unit :=
  with_threads [mkThread sample_id tt (Executing sample_request)] (fst (read_request sample_id sample_running)).
Definition sample_outcome : result string (Result nat) := Ok (mkResult "bucket-1" None).
Definition sample_returned : process unit :=
  with_threads [mkThread sample_id tt (Returned sample_outcome)] sample_executing.
Definition sample_finished : process unit :=
  with_threads [] (update sample_os 5 sample_id (to_returned sample_outcome) sample_returned).
Definition sample_restart : disk * result error (process unit) :=
  boot sample_os sample_os sample_os (fun _ => 6%Z) (fun _ => 7%Z) "/state" sample_executors (dk_Files (pr_Disk sample_finished)).
Definition sample_restarted : process unit := match snd sample_restart with Ok p => p | Err _ => empty_process end.
Definition sample_again : process unit := fst (Submit sample_os (Ok []) 8 sample_request sample_restarted).

Lemma sample_step_1 : thread_step sample_submitted sample_running.
Proof.
  apply (step_start sample_os 4 sample_submitted [] [] sample_id tt).
  vm_compute. reflexivity.
Qed.

Lemma sample_step_2 : thread_step sample_running sample_executing.
Proof.
  apply (step_read sample_running _ [] [] sample_id tt sample_request).
  - reflexivity.
  - vm_compute. reflexivity.
Qed.

Lemma sample_step_3 : thread_step sample_executing sample_returned.
Proof. by apply (step_execute sample_executing [] [] sample_id tt sample_request). Qed.

Lemma sample_step_4 : thread_step sample_returned sample_finished.
Proof. by apply (step_return sample_os 5 sample_returned [] [] sample_id tt sample_outcome). Qed.

Lemma sample_reachable_executing : reachable "/state" (Up sample_executing).
Proof.
  eapply reachable_step; [|apply system_run, step_thread, sample_step_2].
  eapply reachable_step; [apply sample_reachable|apply system_run, step_thread, sample_step_1].
Qed.

Lemma sample_reachable_finished : reachable "/state" (Up sample_finished).
Proof.
  eapply reachable_step; [|apply system_run, step_thread, sample_step_4].
  eapply reachable_step; [apply sample_reachable_executing|apply system_run, step_thread, sample_step_3].
Qed.

Lemma sample_again_step : process_step sample_restarted (Known sample_key sample_id) sample_again.
Proof.
  assert (observe sample_request (snd (Submit sample_os (Ok []) 8 sample_request sample_restarted)) = Known sample_key sample_id)
    as <- by (vm_compute; reflexivity).
  apply (step_submit sample_os (Ok []) 8 sample_request sample_restarted); [by vm_compute| | |].
  - intros value Hv. injection Hv as <-. constructor.
  - intros id Hid. injection Hid as <-. vm_compute. reflexivity.
  - unfold sample_again. exact (surjective_pairing (Submit sample_os (Ok []) 8 sample_request sample_restarted)).
Qed.

Lemma sample_long_run :
  system_run_of (Executor := unit) "/state" (Up sample_started)
    ([] ++ Accepted sample_key sample_id :: [Silent; Silent; Silent; Silent; Silent; Silent] ++ Known sample_key sample_id :: [])
    (Up sample_again).
Proof.
  eapply run_cons; [apply system_run, sample_submit_step|].
  eapply run_cons; [apply system_run, step_thread, sample_step_1|].
  eapply run_cons; [apply system_run, step_thread, sample_step_2|].
  eapply run_cons; [apply system_run, step_thread, sample_step_3|].
  eapply run_cons; [apply system_run, step_thread, sample_step_4|].
  eapply run_cons; [apply system_stop|].
  eapply run_cons.
  { apply (system_boot "/state" sample_os sample_os sample_os (fun _ => 6%Z) (fun _ => 7%Z) sample_executors _ (fst sample_restart) sample_restarted).
    vm_compute. reflexivity. }
  eapply run_cons; [apply system_run, sample_again_step|]. constructor.
Qed.

Lemma Submit_idempotent_witness :
  sample_started <> sample_again /\ Known sample_key sample_id = Known sample_key sample_id.
Proof.
  split.
  - intros Heq. apply (f_equal (fun p => size (ops_of p))) in Heq. vm_compute in Heq. discriminate Heq.
  - apply (Submit_idempotent "/state" (Up sample_started) (Up sample_again) [] (Accepted sample_key sample_id)
      [Silent; Silent; Silent; Silent; Silent; Silent] (Known sample_key sample_id) [] sample_key sample_id sample_id).
    + apply sample_reachable_started.
    + apply sample_long_run.
    + vm_compute. reflexivity.
    + vm_compute. reflexivity.
Defined.

Lemma operations_match_keys_witness :
  exists op, ops_of sample_submitted !! sample_id = Some op /\ op_ID op = sample_id /\
    idempotencyKey (op_Request op) = sample_key.
Proof.
  apply (operations_match_keys "/state" sample_submitted sample_key sample_id).
  - apply sample_reachable.
  - vm_compute. reflexivity.
Defined.

Definition sample_done : Operation nat :=
  mkOperation sample_id sample_request StateSucceeded (mkResult "bucket-1" None) "" 3 5.

Lemma finished_stays_witness :
  finished sample_done /\ ops_of (with_heap [] sample_finished) !! sample_id = Some sample_done.
Proof.
  split; [by left|].
  apply (finished_stays "/state" sample_finished (with_heap [] sample_finished) Silent sample_id sample_done).
  - apply sample_reachable_finished.
  - apply step_heap.
  - vm_compute. reflexivity.
  - by left.
Defined.


Lemma persist_writes_executing_request_witness :
  exists n, (0 < n)%nat /\
    pr_Heap (fst (persistLocked sample_os sample_executing)) !! 0%nat = Some (Nat.iter n (fun m : string => m) "size=5").
Proof.
  apply (persist_writes_executing_request "/state" sample_os sample_executing sample_id tt sample_request 0%nat "size=5").
  - apply sample_reachable_executing.
  - by left.
  - reflexivity.
  - vm_compute. reflexivity.
Defined.
