(* ===== verification/Effects.v ===== *)
(** * Effectful Go functions

    A function that changes a state and returns [(A, error)], as a state and
    error monad; sequences of calls to an interface, recorded in a trace; and
    the rules by which properties of all runs are proved.  The state is kept
    when a function returns an error: what was done is not undone. *)

From S2P Require Import Prelude.

(** ** The monad *)

Definition M (S A : Type) : Type := S -> S * result error A.

Global Instance M_ret {S} : MRet (M S) := fun A a s => (s, Ok a).
Global Instance M_bind {S} : MBind (M S) := fun A B k m s =>
  match m s with
  | (s', Ok a) => k a s'
  | (s', Err err) => (s', Err err)
  end.

Section effects.
Context {S : Type}.

(** A value or an error computed without effects. *)
Definition pureM {A} (r : result error A) : M S A := fun s => (s, r).

(** [if err := m(); err != nil { return wrap(err) }] *)
Definition wrapM {A} (wrap : error -> error) (m : M S A) : M S A := fun s =>
  match m s with
  | (s', Ok a) => (s', Ok a)
  | (s', Err err) => (s', Err (wrap err))
  end.

(** [return err] and [if cond { return err }] *)
Definition fail {A} (text : string) : M S A := pureM (Err (errorsNew text)).
Definition checkM (cond : bool) (err : error) : M S unit := pureM (reject cond err).

(** [_ = m()] and [if err := m(); err != nil { handler; return err' }] *)
Definition ignoreM {A} (m : M S A) : M S unit := fun s => (fst (m s), Ok tt).

Definition onErrM {A B} (m : M S A) (handler : error -> M S B) (next : A -> M S B) : M S B := fun s =>
  match m s with
  | (s', Ok a) => next a s'
  | (s', Err err) => handler err s'
  end.

(** The error as a value. *)
Definition tryM {A} (m : M S A) : M S (result error A) := fun s => let '(s', r) := m s in (s', Ok r).

(** A [range] loop over a list, with a value carried along. *)
Fixpoint forM {A B} (body : B -> A -> M S B) (b : B) (l : list A) : M S B :=
  match l with
  | [] => mret b
  | x :: xs => b' ← body b x; forM body b' xs
  end.

(** A loop whose body only has effects. *)
Definition rangeM {A} (body : A -> M S unit) (l : list A) : M S unit := forM (fun _ => body) tt l.

(** A call of an operation that may be missing (a nil function). *)
Definition requireM {A} (f : option A) (err : error) : result error A :=
  match f with Some a => Ok a | None => Err err end.

(** A function on one component of a state. *)
Definition onFst {R A} (m : M S A) : M (S * R) A := fun st => let '(s, r) := m (fst st) in ((s, snd st), r).
Definition onSnd {R A} (m : M S A) : M (R * S) A := fun st => let '(s, r) := m (snd st) in ((fst st, s), r).

(** ** Proving properties of runs

    [run m s Q X]: from [s], [m] ends with a value and a state that satisfy
    [Q], or with an error in a state that satisfies [X]. *)
Definition run {A} (m : M S A) (s : S) (Q : A -> S -> Prop) (X : S -> Prop) : Prop :=
  match m s with
  | (s', Ok a) => Q a s'
  | (s', Err _) => X s'
  end.

Lemma run_intro {A} (m : M S A) s Q X s' r :
  run m s Q X -> m s = (s', r) -> match r with Ok a => Q a s' | Err _ => X s' end.
Proof. unfold run. intros H Heq. by rewrite Heq in H. Qed.

Lemma run_ret {A} (a : A) s (Q : A -> S -> Prop) X : Q a s -> run (mret a) s Q X.
Proof. done. Qed.

Lemma run_pure {A} (r : result error A) s (Q : A -> S -> Prop) (X : S -> Prop) :
  match r with Ok a => Q a s | Err _ => X s end -> run (pureM r) s Q X.
Proof. by destruct r. Qed.

Lemma run_bind {A B} (m : M S A) (k : A -> M S B) s Q X :
  run m s (fun a s' => run (k a) s' Q X) X -> run (m ≫= k) s Q X.
Proof. unfold run, mbind, M_bind. by destruct (m s) as [s' [a|e]]. Qed.

Lemma run_wrap {A} w (m : M S A) s Q X : run m s Q X -> run (wrapM w m) s Q X.
Proof. unfold run, wrapM. by destruct (m s) as [s' [a|e]]. Qed.

Lemma run_ignore {A} (m : M S A) s (Q : unit -> S -> Prop) X :
  run m s (fun _ => Q tt) (Q tt) -> run (ignoreM m) s Q X.
Proof. unfold run, ignoreM. by destruct (m s) as [s' [a|e]]. Qed.

Lemma run_onErr {A B} (m : M S A) (handler : error -> M S B) next s Q X :
  run m s (fun a s' => run (next a) s' Q X) (fun s' => forall e, run (handler e) s' Q X) ->
  run (onErrM m handler next) s Q X.
Proof. unfold run, onErrM. destruct (m s) as [s' [a|e]]; [done|]. intros H. exact (H e). Qed.

Lemma run_try {A} (m : M S A) s (Q : result error A -> S -> Prop) X :
  run m s (fun a => Q (Ok a)) (fun s' => forall e, Q (Err e) s') -> run (tryM m) s Q X.
Proof. unfold run, tryM. destruct (m s) as [s' [a|e]]; auto. Qed.

Lemma run_mono {A} (m : M S A) s (Q Q' : A -> S -> Prop) (X X' : S -> Prop) :
  (forall a s', Q a s' -> Q' a s') -> (forall s', X s' -> X' s') -> run m s Q X -> run m s Q' X'.
Proof. unfold run. destruct (m s) as [s' [a|e]]; auto. Qed.

(** The invariant of a loop relates the carried value, the state and the
    elements that remain. *)
Lemma run_for {A B} (I : B -> list A -> S -> Prop) (body : B -> A -> M S B) X b l s :
  I b l s ->
  (forall b x xs s, I b (x :: xs) s -> run (body b x) s (fun b' s' => I b' xs s') X) ->
  run (forM body b l) s (fun b' s' => I b' [] s') X.
Proof.
  intros HI Hbody. revert b s HI. induction l as [|x xs IH]; intros b s HI; [exact HI|].
  simpl. apply run_bind. eapply run_mono; [|done|by apply Hbody]. auto.
Qed.
End effects.

Lemma run_onFst {S R A} (m : M S A) (s : S * R) (Q : A -> S * R -> Prop) (X : S * R -> Prop) :
  run m (fst s) (fun a s' => Q a (s', snd s)) (fun s' => X (s', snd s)) -> run (onFst m) s Q X.
Proof. unfold run, onFst. by destruct (m (fst s)) as [s' [a|e]]. Qed.

Lemma run_onSnd {S R A} (m : M S A) (s : R * S) (Q : A -> R * S -> Prop) (X : R * S -> Prop) :
  run m (snd s) (fun a s' => Q a (fst s, s')) (fun s' => X (fst s, s')) -> run (onSnd m) s Q X.
Proof. unfold run, onSnd. by destruct (m (snd s)) as [s' [a|e]]. Qed.

(** ** What every run keeps

    An invariant that holds at the end of a run, however it ends. *)
Definition keeps {S A} (I : S -> Prop) (m : M S A) : Prop := forall s, I s -> run m s (fun _ => I) I.

Section keeps.
Context {S : Type} (I : S -> Prop).

Lemma keeps_pure {A} (r : result error A) : keeps I (pureM r).
Proof. intros s Hs. apply run_pure. by destruct r. Qed.

Lemma keeps_ret {A} (a : A) : keeps I (mret a).
Proof. by intros s Hs. Qed.

Lemma keeps_bind {A B} (m : M S A) (k : A -> M S B) : keeps I m -> (forall a, keeps I (k a)) -> keeps I (m ≫= k).
Proof. intros Hm Hk s Hs. apply run_bind. eapply run_mono; [|done|by apply Hm]. intros a s' Hs'. by apply Hk. Qed.

Lemma keeps_wrap {A} w (m : M S A) : keeps I m -> keeps I (wrapM w m).
Proof. intros Hm s Hs. by apply run_wrap, Hm. Qed.

Lemma keeps_ignore {A} (m : M S A) : keeps I m -> keeps I (ignoreM m).
Proof. intros Hm s Hs. by apply run_ignore, Hm. Qed.

Lemma keeps_onErr {A B} (m : M S A) (handler : error -> M S B) next :
  keeps I m -> (forall e, keeps I (handler e)) -> (forall a, keeps I (next a)) -> keeps I (onErrM m handler next).
Proof.
  intros Hm Hh Hn s Hs. apply run_onErr. eapply run_mono; [| |by apply Hm].
  - intros a s' Hs'. by apply Hn.
  - intros s' Hs' e. by apply Hh.
Qed.

Lemma keeps_for {A B} (body : B -> A -> M S B) b l : (forall b x, keeps I (body b x)) -> keeps I (forM body b l).
Proof. intros Hb s Hs. apply (run_for (fun _ _ => I)); [done|]. intros b' x xs s' Hs'. by apply Hb. Qed.

Lemma keeps_range {A} (body : A -> M S unit) l : (forall x, keeps I (body x)) -> keeps I (rangeM body l).
Proof. intros Hb. apply keeps_for. intros _. exact Hb. Qed.

Lemma keeps_if {A} (b : bool) (m k : M S A) : keeps I m -> keeps I k -> keeps I (if b then m else k).
Proof. by destruct b. Qed.
End keeps.

Create HintDb effects.
#[export] Hint Resolve keeps_pure keeps_ret keeps_bind keeps_wrap keeps_ignore keeps_onErr keeps_for keeps_range keeps_if : effects.

(** ** Traces

    The same operation, with the call and whether it succeeded recorded. *)
Section traces.
Context {S E : Type}.

Definition watch {A} (event : result error A -> E) (m : M S A) : M (S * list E) A := fun st =>
  let '(s', r) := m (fst st) in ((s', snd st ++ [event r]), r).

Lemma run_watch {A} (event : result error A -> E) (m : M S A) st (Q : A -> S * list E -> Prop) (X : S * list E -> Prop) :
  (forall s' a, m (fst st) = (s', Ok a) -> Q a (s', snd st ++ [event (Ok a)])) ->
  (forall s' e, m (fst st) = (s', Err e) -> X (s', snd st ++ [event (Err e)])) ->
  run (watch event m) st Q X.
Proof. unfold run, watch. destruct (m (fst st)) as [s' [a|e]] eqn:Hm; eauto. Qed.
End traces.

(** A trace in which every event was permitted after those before it. *)
Definition obeys {E} (permit : list E -> E -> Prop) (evs : list E) : Prop :=
  forall before e after, evs = before ++ e :: after -> permit before e.

Section obeys.
Context {S E : Type} (permit : list E -> E -> Prop).

Lemma obeys_nil : obeys permit [].
Proof. by intros [|? ?] ? ? ?. Qed.

Lemma obeys_snoc evs e : obeys permit evs -> permit evs e -> obeys permit (evs ++ [e]).
Proof.
  intros Ho He before e' after Heq. destruct after as [|a after] using rev_ind.
  - by apply app_inj_tail in Heq as [<- ->].
  - rewrite app_comm_cons, app_assoc in Heq. apply app_inj_tail in Heq as [-> _]. by eapply Ho.
Qed.

(** A recorded operation, with the trace before it. *)
Lemma run_watched {A} (event : result error A -> E) (m : M S A) (s : S * list E) evs (Q : A -> S * list E -> Prop) :
  snd s = evs -> obeys permit evs -> (forall r, permit evs (event r)) ->
  (forall a s', snd s' = evs ++ [event (Ok a)] -> obeys permit (evs ++ [event (Ok a)]) -> Q a s') ->
  run (watch event m) s Q (fun s' => obeys permit (snd s')).
Proof.
  intros <- Ho Hp HQ. apply run_watch; intros s' x _.
  - by apply HQ; [|apply obeys_snoc].
  - by apply obeys_snoc.
Qed.
End obeys.

Arguments M : simpl never.
