(* ===== verification/UpdatePlan.v ===== *)
(** * Core update plans (internal/coreupdate/plan.go)

    The plan that brings the installed Core providers to a release: what each
    of them needs is classified from pinned identities, every classification
    is checked again before anything is changed, and the plan is executed
    through hooks. *)

From S2P Require Import Prelude GoStrings Effects.

(** ** Data *)

Definition NoChange : string := "no_change".
Definition SafeReconcile : string := "safe_reconcile".
Definition BackupRequired : string := "backup_recovery_required".
Definition MigrationRequired : string := "migration_required".
Definition Unsupported : string := "unsupported".

Definition SQL : string := "sql".
Definition Secrets : string := "secrets".
Definition Identity : string := "identity".

Record Desired := mkDesired {
  ds_Kind : string;
  ds_Image : string;
  ds_Digest : string;
  ds_Version : string }.

Record Realization := mkRealization {
  rz_Kind : string;
  rz_Installation : string;
  rz_Scope : string;
  rz_Instance : string;
  rz_Owner : string;
  rz_Image : string;
  rz_Digest : string;
  rz_Version : string }.

Record Delta := mkDelta {
  dl_Installed : Realization;
  dl_Desired : Desired;
  dl_Classification : string;
  dl_Reason : string }.

Record Plan := mkPlan {
  pl_Release : string;
  pl_Deltas : list Delta }.

Global Instance Desired_eq_dec : EqDecision Desired.
Proof. solve_decision. Defined.
Global Instance Realization_eq_dec : EqDecision Realization.
Proof. solve_decision. Defined.
Global Instance Delta_eq_dec : EqDecision Delta.
Proof. solve_decision. Defined.
Global Instance Plan_eq_dec : EqDecision Plan.
Proof. solve_decision. Defined.

Definition zero_Desired : Desired := mkDesired "" "" "" "".

(** ** Identities *)

(** A byte [hex.DecodeString] accepts. *)
Definition is_hex (c : ascii) : bool :=
  let n := nat_of_ascii c in
  ((48 <=? n) && (n <=? 57) || (97 <=? n) && (n <=? 102) || (65 <=? n) && (n <=? 70))%nat.

Fixpoint all_bytes (f : ascii -> bool) (s : string) : bool :=
  match s with EmptyString => true | String c s' => f c && all_bytes f s' end.

(** [hex.DecodeString] succeeds on an even number of digits. *)
Definition hex_decodes (s : string) : bool := Nat.even (strlen s) && all_bytes is_hex s.

Definition validDigest (digest : string) : bool :=
  if negb (HasPrefix digest "sha256:") || (len digest != 71%Z) then false
  else hex_decodes (TrimPrefix digest "sha256:").

Definition validKind (kind : string) : bool := (kind == SQL) || (kind == Secrets) || (kind == Identity).

(** ** Versions *)

Definition max_uint64 : Z := 2 ^ 64 - 1.

Definition numError (reason s : string) : error :=
  Sprintf "strconv.ParseUint: parsing %q: %s" [AStr s; AStr reason].

(** [strconv.ParseUint(s, 10, 64)]: the digits are read from the left; the
    first byte that is none, or the first digit that leaves 64 bits, decides
    the error. *)
Fixpoint parse_uint (whole s : string) (n : Z) : result error Z :=
  match s with
  | EmptyString => Ok n
  | String c s' =>
      match digit_val c with
      | None => Err (numError "invalid syntax" whole)
      | Some d =>
          let n := (n * 10 + d)%Z in
          if (max_uint64 <? n)%Z then Err (numError "value out of range" whole) else parse_uint whole s' n
      end
  end.

Definition ParseUint (s : string) : result error Z :=
  if s == "" then Err (numError "invalid syntax" s) else parse_uint s s 0.

Definition parse_field (value field : string) : result error Z :=
  reject (field == "") (Errorf "unverifiable provider version %q" [AStr value]) ;;
  wrap_err (fun err => Errorf "unverifiable provider version %q: %w" [AStr value; ATxt err]) (ParseUint field).

Definition parse_version (value : string) : result error (list Z) :=
  reject (value == "") (errorsNew "empty version") ;;
  forE (fun numbers field => number ← parse_field value field; Ok (numbers ++ [number])) []
    (Split value "."%char).

(** The loop over the positions of the longer version; a missing number is 0. *)
Definition compare_step (a b rest : Z) : Z :=
  if (b <? a)%Z then 1%Z else if (a <? b)%Z then (-1)%Z else rest.

Fixpoint compare_numbers (xs ys : list Z) : Z :=
  match xs with
  | [] => foldr (compare_step 0) 0%Z ys
  | x :: xs' =>
      match ys with
      | [] => compare_step x 0 (compare_numbers xs' [])
      | y :: ys' => compare_step x y (compare_numbers xs' ys')
      end
  end.

Definition compareProviderVersions (current target : string) : result error Z :=
  left ← parse_version current;
  right ← parse_version target;
  Ok (compare_numbers left right).

Definition providerDowngrade (current target : string) : bool :=
  match compareProviderVersions current target with
  | Err _ => true
  | Ok comparison => (0 <? comparison)%Z
  end.

(** [strings.Split(version, ".")[0]] *)
Definition major (version : string) : string := hd "" (Split version "."%char).

(** ** Build *)

Definition add_reference (references : gmap string Desired) (item : Desired) : result error (gmap string Desired) :=
  reject (negb (validKind (ds_Kind item)) || (ds_Kind (default zero_Desired (references !! ds_Kind item)) != ""))
    (Errorf "invalid or duplicated Core release provider kind %q" [AStr (ds_Kind item)]) ;;
  reject ((ds_Version item == "") || (ds_Image item == "") || negb (validDigest (ds_Digest item)))
    (Errorf "Core release provider %s lacks immutable image/version identity" [AStr (ds_Kind item)]) ;;
  Ok (<[ds_Kind item := item]> references).

Definition realization_key (r : Realization) : string :=
  rz_Installation r +:+ "/" +:+ rz_Scope r +:+ "/" +:+ rz_Instance r +:+ "/" +:+ rz_Kind r.

(** The classification and the reason of a delta. *)
Definition classify (current : Realization) (target : Desired) : string * string :=
  if (rz_Digest current != "") && (rz_Digest current == ds_Digest target) &&
     (rz_Version current == ds_Version target) && (rz_Image current == ds_Image target) then (NoChange, "")
  else if (rz_Image current == "") || (rz_Version current == "") || negb (validDigest (rz_Digest current)) then
    (Unsupported, "installed provider image/version/digest identity is unverifiable")
  else if providerDowngrade (rz_Version current) (ds_Version target) then
    (Unsupported, "Core provider downgrade or unverifiable version requires explicit supported recovery/migration")
  else if (rz_Kind current == SQL) && (major (rz_Version current) != major (ds_Version target)) then
    (Unsupported, "PostgreSQL major upgrade requires an explicit supported migration")
  else if (rz_Kind current == SQL) || (rz_Kind current == Secrets) then (BackupRequired, "")
  else if rz_Kind current == Identity then (MigrationRequired, "")
  else (Unsupported, "").

Definition build_delta (references : gmap string Desired) (current : Realization) : Delta :=
  let target := default zero_Desired (references !! rz_Kind current) in
  let '(classification, reason) := classify current target in
  mkDelta current target classification reason.

Definition add_realization (references : gmap string Desired) (acc : gset string * list Delta) (current : Realization)
    : result error (gset string * list Delta) :=
  let '(seen, deltas) := acc in
  reject (negb (validKind (rz_Kind current)) || (rz_Installation current == "") || (rz_Scope current == "") ||
          (rz_Instance current == "")) (errorsNew "invalid Core realization identity") ;;
  let key := realization_key current in
  reject (bool_decide (key ∈ seen)) (Errorf "duplicate Core realization %s" [AStr key]) ;;
  let seen := {[key]} ∪ seen in
  if rz_Owner current != "baseharbor" then Ok (seen, deltas)
  else Ok (seen, deltas ++ [build_delta references current]).

Definition Build (release : string) (installed : list Realization) (desired : list Desired) : result error Plan :=
  reject (TrimSpace release == "") (errorsNew "Core update requires a pinned BaseHarbor release") ;;
  references ← forE add_reference ∅ desired;
  forE (fun _ kind =>
    reject (bool_decide (references !! kind = None)) (Errorf "Core release lacks mandatory %s provider" [AStr kind]))
    tt [SQL; Secrets; Identity] ;;
  '(_, deltas) ← forE (add_realization references) (∅, []) installed;
  Ok (mkPlan release deltas).

(** ** Validation before execution *)

(** The hooks; [None] is nil. *)
Record Hooks (S : Type) := mkHooks {
  hk_Preflight : option (Plan -> M S unit);
  hk_RecoveryPoint : option (Delta -> M S unit);
  hk_Recover : option (Delta -> string -> M S unit);
  hk_Apply : option (Delta -> M S unit);
  hk_Verify : option (Delta -> M S unit);
  hk_Record : option (Delta -> string -> M S unit) }.

Arguments mkHooks {S}.
Arguments hk_Preflight {S}.
Arguments hk_RecoveryPoint {S}.
Arguments hk_Recover {S}.
Arguments hk_Apply {S}.
Arguments hk_Verify {S}.
Arguments hk_Record {S}.

Definition changed (d : Delta) : bool :=
  let current := dl_Installed d in
  (rz_Image current != ds_Image (dl_Desired d)) || (rz_Version current != ds_Version (dl_Desired d)) ||
  (rz_Digest current != ds_Digest (dl_Desired d)).

Definition well_formed (d : Delta) : bool :=
  let current := dl_Installed d in
  negb (negb (validKind (rz_Kind current)) || (rz_Kind current != ds_Kind (dl_Desired d)) ||
        (rz_Owner current != "baseharbor") || (TrimSpace (rz_Installation current) == "") ||
        (TrimSpace (rz_Scope current) == "") || (TrimSpace (rz_Instance current) == "") ||
        (TrimSpace (ds_Image (dl_Desired d)) == "") || (TrimSpace (ds_Version (dl_Desired d)) == "") ||
        negb (validDigest (ds_Digest (dl_Desired d)))).

(** The checks of a step; the result is whether it needs a recovery point. *)
Definition validate_step (d : Delta) : result error bool :=
  let current := dl_Installed d in
  let key := realization_key current in
  let c := dl_Classification d in
  let fail format := Errorf format [AStr key] in
  reject ((c == NoChange) && changed d) (fail "Core no-change step %s does not match pinned desired identity") ;;
  reject ((c != NoChange) && providerDowngrade (rz_Version current) (ds_Version (dl_Desired d)))
    (fail "Core update step %s attempts unsupported downgrade or unverified version") ;;
  reject ((rz_Kind current == SQL) && (major (rz_Version current) != major (ds_Version (dl_Desired d))))
    (fail "Core update step %s requires explicit PostgreSQL major migration") ;;
  reject (negb (changed d) && (c != NoChange)) (fail "Core update step %s is unchanged and must not restart provider") ;;
  reject ((c == SafeReconcile) && changed d) (fail "Core update step %s cannot bypass durable data recovery") ;;
  reject (changed d && ((rz_Kind current == SQL) || (rz_Kind current == Secrets)) && (c != BackupRequired))
    (fail "Core update step %s requires a provider recovery point") ;;
  reject (changed d && (rz_Kind current == Identity) && (c != MigrationRequired))
    (fail "Core update step %s requires verified Keycloak migration") ;;
  if (c == NoChange) || (c == SafeReconcile) then Ok false
  else if (c == BackupRequired) || (c == MigrationRequired) then Ok true
  else Err (Errorf "Core provider %s update is unsupported: %s" [AStr (rz_Kind current); AStr (dl_Reason d)]).

Definition validate_delta (acc : gset string * bool) (d : Delta) : result error (gset string * bool) :=
  let '(seen, needsRecovery) := acc in
  reject (negb (well_formed d))
    (errorsNew "Core update plan contains an unowned, malformed or mismatched provider realization") ;;
  let key := realization_key (dl_Installed d) in
  reject (bool_decide (key ∈ seen)) (Errorf "duplicate Core update step %s" [AStr key]) ;;
  needed ← validate_step d;
  Ok ({[key]} ∪ seen, needsRecovery || needed).

Definition validateExecutionPlan {S} (plan : Plan) (hooks : Hooks S) : result error unit :=
  '(_, needsRecovery) ← forE validate_delta (∅, false) (pl_Deltas plan);
  reject (needsRecovery && bool_decide (hk_RecoveryPoint hooks = None))
    (errorsNew "Core provider update requires a verified recovery-point implementation").

(** ** Execution

    [ctx] is [ctx.Err()].  A missing recovery point is rejected by the
    validation when one is needed, so it is never called. *)
Definition needs_recovery (d : Delta) : bool :=
  (dl_Classification d == BackupRequired) || (dl_Classification d == MigrationRequired).

Definition instance_error (format : string) (d : Delta) (err : error) : error :=
  Errorf format [AStr (rz_Instance (dl_Installed d)); ATxt err].

Definition nil_call : error := errorsNew "invalid memory address or nil pointer dereference".

Definition execute_delta {S} (ctx : M S unit) (recoveryPoint : option (Delta -> M S unit))
    (apply verify : Delta -> M S unit) (record : Delta -> string -> M S unit) (d : Delta) : M S unit :=
  if dl_Classification d == NoChange then mret tt
  else
    ctx ;;
    (if needs_recovery d then
       recover ← pureM (requireM recoveryPoint nil_call);
       wrapM (instance_error "Core recovery point %s: %w" d) (recover d)
     else mret tt) ;;
    record d "applying" ;;
    onErrM (apply d)
      (fun err => ignoreM (record d "apply_failed") ;; pureM (Err (instance_error "Core update %s: %w" d err)))
      (fun _ =>
         onErrM (verify d)
           (fun err => ignoreM (record d "verify_failed") ;; pureM (Err (instance_error "Core verification %s: %w" d err)))
           (fun _ => record d "verified")).

Definition Execute {S} (ctx : M S unit) (plan : Plan) (hooks : Hooks S) : M S unit :=
  match hk_Preflight hooks, hk_Apply hooks, hk_Verify hooks, hk_Record hooks with
  | Some preflight, Some apply, Some verify, Some record =>
      pureM (validateExecutionPlan plan hooks) ;;
      wrapM (fun err => Errorf "Core update preflight: %w" [ATxt err]) (preflight plan) ;;
      rangeM (execute_delta ctx (hk_RecoveryPoint hooks) apply verify record) (pl_Deltas plan)
  | _, _, _, _ =>
      pureM (Err (errorsNew "Core update requires complete preflight, apply, verification and journal hooks"))
  end.

(** ** Calls

    The calls of a run, with whether they succeeded. *)
Inductive call : Type :=
| CallCtx
| CallPreflight (plan : Plan)
| CallRecoveryPoint (d : Delta)
| CallRecover (d : Delta) (state : string)
| CallApply (d : Delta)
| CallVerify (d : Delta)
| CallRecord (d : Delta) (state : string).

Global Instance call_eq_dec : EqDecision call.
Proof. solve_decision. Defined.

Abbreviation event := (call * bool)%type.

Section calls.
Context {S : Type}.
Abbreviation T := (S * list event)%type.

Definition watch_call (c : call) (m : M S unit) : M T unit := watch (fun r => (c, is_ok r)) m.

Definition watch_hooks (h : Hooks S) : Hooks T :=
  mkHooks ((fun f plan => watch_call (CallPreflight plan) (f plan)) <$> hk_Preflight h)
    ((fun f d => watch_call (CallRecoveryPoint d) (f d)) <$> hk_RecoveryPoint h)
    ((fun f d state => watch_call (CallRecover d state) (f d state)) <$> hk_Recover h)
    ((fun f d => watch_call (CallApply d) (f d)) <$> hk_Apply h)
    ((fun f d => watch_call (CallVerify d) (f d)) <$> hk_Verify h)
    ((fun f d state => watch_call (CallRecord d state) (f d state)) <$> hk_Record h).

(** The calls of a run without failures. *)
Definition step_script (d : Delta) : list call :=
  if dl_Classification d == NoChange then []
  else [CallCtx] ++ (if needs_recovery d then [CallRecoveryPoint d] else []) ++
       [CallRecord d "applying"; CallApply d; CallVerify d; CallRecord d "verified"].

Definition script (plan : Plan) : list call := CallPreflight plan :: flat_map step_script (pl_Deltas plan).

(** What is called after a call that failed. *)
Definition aftermath (c : call) : list call :=
  match c with
  | CallApply d => [CallRecord d "apply_failed"]
  | CallVerify d => [CallRecord d "verify_failed"]
  | _ => []
  end.

(** The events of a run that follows a script: all of it, or up to a call that
    failed and its aftermath. *)
Inductive performed (sc : list call) : list event -> bool -> Prop :=
| performed_all : performed sc (map (fun c => (c, true)) sc) true
| performed_until pre c rest after :
    sc = pre ++ c :: rest -> map fst after = aftermath c ->
    performed sc (map (fun c => (c, true)) pre ++ (c, false) :: after) false.

Definition follows {A} (m : M T A) (sc : list call) : Prop :=
  forall st, exists evs, snd (fst (m st)) = snd st ++ evs /\ performed sc evs (is_ok (snd (m st))).

Lemma performed_app sc sc' evs evs' o :
  performed sc evs true -> performed sc' evs' o -> performed (sc ++ sc') (evs ++ evs') o.
Proof.
  intros H1 H2. inversion H1; subst. inversion H2 as [|pre c rest after -> Ha]; subst.
  - rewrite <- map_app. constructor.
  - rewrite (app_assoc (map _ sc)), <- map_app. econstructor; [|done]. by rewrite <- app_assoc.
Qed.

Lemma performed_stop sc sc' evs : performed sc evs false -> performed (sc ++ sc') evs false.
Proof. intros H. inversion H; subst. econstructor; [|done]. by rewrite <- app_assoc. Qed.

Lemma follows_bind {A B} (m : M T A) (k : A -> M T B) sc sc' :
  follows m sc -> (forall a, follows (k a) sc') -> follows (m ≫= k) (sc ++ sc').
Proof.
  intros Hm Hk st. destruct (Hm st) as (evs & Hs & Hp). unfold mbind, M_bind.
  destruct (m st) as [st' [a|e]] eqn:Hst; simpl in *.
  - destruct (Hk a st') as (evs' & Hs' & Hp'). exists (evs ++ evs').
    rewrite Hs', Hs, app_assoc. split; [done|]. by apply performed_app.
  - exists evs. split; [done|]. by apply performed_stop.
Qed.

Lemma follows_ret {A} (a : A) : follows (mret a) [].
Proof. intros st. exists []. rewrite app_nil_r. split; [done|apply performed_all]. Qed.

Lemma follows_pure {A B} (a : A) (k : A -> M T B) sc : follows (k a) sc -> follows (pureM (Ok a) ≫= k) sc.
Proof. intros H. exact H. Qed.

Lemma follows_wrap {A} w (m : M T A) sc : follows m sc -> follows (wrapM w m) sc.
Proof. intros Hm st. destruct (Hm st) as (evs & Hs & Hp). unfold wrapM. destruct (m st) as [? []]; by exists evs. Qed.

Lemma follows_call c (m : M S unit) : aftermath c = [] -> follows (watch_call c m) [c].
Proof.
  intros Hc [s t]. unfold watch_call, watch. destruct (m s) as [s' [a|e]] eqn:Hm; simpl; rewrite Hm; simpl.
  - exists [(c, true)]. split; [done|apply performed_all].
  - exists [(c, false)]. split; [done|]. by apply (performed_until [c] [] c [] []).
Qed.

(** A call whose failure is recorded before it is returned. *)
Lemma follows_onErr c c' (m m' : M S unit) (e : error -> error) (next : unit -> M T unit) sc :
  aftermath c = [c'] -> (forall a, follows (next a) sc) ->
  follows (onErrM (watch_call c m) (fun err => ignoreM (watch_call c' m') ;; pureM (Err (e err))) next) (c :: sc).
Proof.
  intros Hc Hn [s t]. unfold onErrM, watch_call, watch. simpl. destruct (m s) as [s' [a|err]] eqn:Hm; simpl.
  - destruct (Hn a (s', t ++ [(c, true)])) as (evs & Hs & Hp). exists ((c, true) :: evs). rewrite Hs. simpl.
    rewrite <- app_assoc. split; [done|]. by apply (performed_app [c] sc [(c, true)] evs); [apply (performed_all [c])|].
  - unfold ignoreM, mbind, M_bind. simpl. destruct (m' s') as [s'' r']. simpl.
    exists [(c, false); (c', is_ok r')]. rewrite <- app_assoc. split; [done|].
    by apply (performed_until (c :: sc) [] c sc [(c', is_ok r')]).
Qed.

Lemma follows_range {A} (body : A -> M T unit) (f : A -> list call) l :
  (forall x, x ∈ l -> follows (body x) (f x)) -> follows (rangeM body l) (flat_map f l).
Proof.
  unfold rangeM. induction l as [|x l IH]; intros Hb; simpl; [apply follows_ret|].
  apply follows_bind; [apply Hb; left|]. intros []. apply IH. intros y Hy. apply Hb. by right.
Qed.
End calls.

(** ** Execution follows the script *)

Section execute.
Context {S : Type} (ctx : M S unit) (hooks : Hooks S).

Lemma execute_delta_follows apply verify record d :
  (needs_recovery d = true -> hk_RecoveryPoint hooks <> None) ->
  follows (execute_delta (watch_call CallCtx ctx) (hk_RecoveryPoint (watch_hooks hooks))
             (fun d => watch_call (CallApply d) (apply d)) (fun d => watch_call (CallVerify d) (verify d))
             (fun d state => watch_call (CallRecord d state) (record d state)) d) (step_script d).
Proof.
  intros Hr. unfold execute_delta, step_script. case_bool_decide; [apply follows_ret|].
  apply follows_bind; [by apply follows_call|]. intros [].
  apply (follows_bind _ _ (if needs_recovery d then [CallRecoveryPoint d] else [])
    [CallRecord d "applying"; CallApply d; CallVerify d; CallRecord d "verified"]).
  - destruct (needs_recovery d); [|apply follows_ret]. specialize (Hr eq_refl).
    destruct (hk_RecoveryPoint hooks) as [f|] eqn:Hf; [|done]. simpl. rewrite Hf.
    apply follows_pure, follows_wrap. by apply follows_call.
  - intros []. apply (follows_bind _ _ [CallRecord d "applying"] [CallApply d; CallVerify d; CallRecord d "verified"]);
      [by apply follows_call|]. intros [].
    apply follows_onErr; [done|]. intros []. apply follows_onErr; [done|]. intros []. by apply follows_call.
Qed.

Lemma validate_deltas_recovery ds acc out :
  forE validate_delta acc ds = Ok out ->
  (snd acc = true -> snd out = true) /\ forall d, d ∈ ds -> needs_recovery d = true -> snd out = true.
Proof.
  revert acc. induction ds as [|d ds IH]; intros acc.
  - intros [= ->]. split; [done|]. intros d Hd. by apply not_elem_of_nil in Hd.
  - rewrite forE_cons, bind_Ok. intros (acc' & Hv & Hds). destruct (IH _ Hds) as [Hacc Hin].
    destruct acc as [seen b]. unfold validate_delta in Hv. apply reject_seq_Ok in Hv as [_ Hv].
    apply reject_seq_Ok in Hv as [_ Hv]. apply bind_Ok in Hv as (n & Hn & [= <-]). simpl in *. split.
    + intros ->. by apply Hacc.
    + intros d' [->|Hd']%elem_of_cons Hneed; [|by eapply Hin]. apply Hacc.
      unfold validate_step in Hn. repeat apply reject_seq_Ok in Hn as [_ Hn].
      unfold needs_recovery in Hneed.
      destruct (_ || _) eqn:Hc in Hn; [|rewrite Hneed in Hn; injection Hn as <-; apply orb_true_r].
      exfalso. apply orb_true_iff in Hc, Hneed. rewrite !eqb_true in Hc, Hneed.
      destruct Hc as [Hc|Hc], Hneed as [Hd|Hd]; rewrite Hc in Hd; discriminate Hd.
Qed.

(** A validated plan has a recovery point when one of its steps needs it. *)
Lemma validated_recovery plan d :
  validateExecutionPlan plan hooks = Ok tt -> d ∈ pl_Deltas plan -> needs_recovery d = true ->
  hk_RecoveryPoint hooks <> None.
Proof.
  unfold validateExecutionPlan. rewrite bind_Ok. intros ([seen b] & Hv & Hr) Hd Hneed.
  apply validate_deltas_recovery in Hv as [_ Hv]. simpl in Hv. rewrite (Hv d Hd Hneed) in Hr.
  apply reject_Ok in Hr. intros Hnone. by rewrite Hnone in Hr.
Qed.

Lemma validate_watched plan : validateExecutionPlan plan (watch_hooks hooks) = validateExecutionPlan plan hooks.
Proof. unfold validateExecutionPlan, watch_hooks. simpl. by destruct (hk_RecoveryPoint hooks). Qed.

Lemma Execute_follows_ok plan :
  match validateExecutionPlan plan hooks with
  | Err _ => forall st, exists e, Execute (watch_call CallCtx ctx) plan (watch_hooks hooks) st = (st, Err e)
  | Ok _ =>
      if bool_decide (hk_Preflight hooks = None) || bool_decide (hk_Apply hooks = None) ||
         bool_decide (hk_Verify hooks = None) || bool_decide (hk_Record hooks = None)
      then forall st, exists e, Execute (watch_call CallCtx ctx) plan (watch_hooks hooks) st = (st, Err e)
      else follows (Execute (watch_call CallCtx ctx) plan (watch_hooks hooks)) (script plan)
  end.
Proof.
  unfold Execute. simpl.
  destruct (hk_Preflight hooks) as [preflight|], (hk_Apply hooks) as [apply|], (hk_Verify hooks) as [verify|],
    (hk_Record hooks) as [record|]; simpl;
    try (destruct (validateExecutionPlan plan hooks); intros st; by eexists).
  rewrite validate_watched.
  destruct (validateExecutionPlan plan hooks) as [[]|e] eqn:Hv; [|intros st; by eexists].
  apply follows_pure. apply (follows_bind _ _ [CallPreflight plan] (flat_map step_script (pl_Deltas plan))).
  - apply follows_wrap. by apply follows_call.
  - intros []. apply follows_range. intros d Hd. apply execute_delta_follows.
    intros Hneed. by eapply validated_recovery.
Qed.
End execute.

(** The hooks that every execution calls. *)
Definition complete_hooks {S} (hooks : Hooks S) : bool :=
  match hk_Preflight hooks, hk_Apply hooks, hk_Verify hooks, hk_Record hooks with
  | Some _, Some _, Some _, Some _ => true
  | _, _, _, _ => false
  end.

(** C33: The execution of a plan that validates, with all its hooks, calls them
    as the script of the plan says, and stops at the first call that fails,
    after recording the failure of an application or a verification: in
    particular nothing is applied before the preflight, its recovery point and
    the record that it is being applied succeeded, and nothing is recorded as
    verified that was not.  A plan that does not validate, or a missing hook
    (the recovery point among them, when a step of the plan needs one), leads to
    an error and to no call at all. *)
Theorem Execute_script {S} (ctx : M S unit) (hooks : Hooks S) plan st st' res :
  Execute (watch_call CallCtx ctx) plan (watch_hooks hooks) st = (st', res) ->
  if complete_hooks hooks && is_ok (validateExecutionPlan plan hooks) then
    (forall d, d ∈ pl_Deltas plan -> needs_recovery d = true -> hk_RecoveryPoint hooks <> None) /\
    exists evs, snd st' = snd st ++ evs /\ performed (script plan) evs (is_ok res)
  else st' = st /\ is_ok res = false.
Proof.
  intros Hex. pose proof (Execute_follows_ok ctx hooks plan) as H. unfold complete_hooks.
  assert (Hrefused : (forall st, exists e, Execute (watch_call CallCtx ctx) plan (watch_hooks hooks) st = (st, Err e)) -> st' = st /\ is_ok res = false).
  { intros Hr. destruct (Hr st) as [e He]. rewrite He in Hex. by injection Hex as <- <-. }
  destruct (validateExecutionPlan plan hooks) as [[]|e] eqn:Hv; [|rewrite andb_false_r; by apply Hrefused].
  destruct (hk_Preflight hooks), (hk_Apply hooks), (hk_Verify hooks), (hk_Record hooks); simpl in *; try by apply Hrefused.
  split; [intros d; by apply (validated_recovery hooks plan)|].
  destruct (H st) as (evs & Hs & Hp). rewrite Hex in Hs, Hp. by exists evs.
Qed.

(** ** Versions *)

Lemma digit_val_range c d : digit_val c = Some d -> (0 <= d < 10)%Z.
Proof.
  unfold digit_val. destruct (_ && _) eqn:H; [|done]. intros [= <-].
  apply andb_true_iff in H as [H1%Nat.leb_le H2%Nat.leb_le]. lia.
Qed.

Lemma atoi_digits_ge s n m : (0 <= n)%Z -> atoi_digits s n = Some m -> (n <= m)%Z.
Proof.
  revert n. induction s as [|c s IH]; intros n Hn; simpl; [intros [= ->]; lia|].
  destruct (digit_val c) as [d|] eqn:Hd; simpl; [|done]. apply digit_val_range in Hd.
  intros H%IH; lia.
Qed.

Lemma parse_uint_ok whole s n m :
  (0 <= n <= max_uint64)%Z -> parse_uint whole s n = Ok m <-> atoi_digits s n = Some m /\ (m <= max_uint64)%Z.
Proof.
  revert n. induction s as [|c s IH]; intros n Hn; simpl.
  - split; [intros [= ->]; split; [done|lia]|by intros [[= ->] _]].
  - destruct (digit_val c) as [d|] eqn:Hd; simpl; [|naive_solver]. apply digit_val_range in Hd.
    destruct (max_uint64 <? n * 10 + d)%Z eqn:Hm.
    + split; [done|]. intros [H%atoi_digits_ge ?]; lia.
    + apply IH. lia.
Qed.

Lemma ParseUint_ok s m : ParseUint s = Ok m <-> s <> "" /\ atoi_digits s 0 = Some m /\ (m <= max_uint64)%Z.
Proof.
  unfold ParseUint. case_bool_decide as Hs; [naive_solver|]. rewrite parse_uint_ok by (unfold max_uint64; lia). naive_solver.
Qed.

Definition field_number (field : string) (n : Z) : Prop :=
  field <> "" /\ atoi_digits field 0 = Some n /\ (0 <= n <= max_uint64)%Z.

Lemma parse_field_ok value field n : parse_field value field = Ok n <-> field_number field n.
Proof.
  unfold parse_field, field_number. rewrite reject_seq_Ok, wrap_err_Ok, ParseUint_ok, eqb_false. split.
  - intros (H1 & _ & H2 & H3). split_and!; [done..| |done]. apply atoi_digits_ge in H2; lia.
  - naive_solver.
Qed.

Lemma parse_fields_ok value fields numbers out :
  forE (fun numbers field => number ← parse_field value field; Ok (numbers ++ [number])) numbers fields = Ok out <->
  exists xs, out = numbers ++ xs /\ Forall2 field_number fields xs.
Proof.
  revert numbers. induction fields as [|f fs IH]; intros numbers.
  - simpl. split; [intros [= ->]; exists []; split; [by rewrite app_nil_r|constructor]|].
    intros (xs & -> & H). inversion H. by rewrite app_nil_r.
  - rewrite forE_cons, bind_Ok. split.
    + intros (acc & H1 & (xs & -> & Hxs)%IH). apply bind_Ok in H1 as (n & Hn%parse_field_ok & [= <-]).
      exists (n :: xs). rewrite <- app_assoc. split; [done|by constructor].
    + intros (xs & -> & H). inversion H as [|? n ? xs' Hn Hxs]; subst.
      exists (numbers ++ [n]). split; [apply bind_Ok; exists n; by rewrite parse_field_ok|].
      apply IH. exists xs'. by rewrite <- app_assoc.
Qed.

(** A version is accepted exactly when it consists of decimal fields that fit
    64 bits, and then its numbers are the values of the fields: a number too
    large is an error, it never wraps around. *)
Theorem parse_version_bounds value xs :
  parse_version value = Ok xs <->
  value <> "" /\ Forall2 (fun field n => field <> "" /\ atoi_digits field 0 = Some n /\ (0 <= n <= max_uint64)%Z)
                   (Split value "."%char) xs.
Proof.
  unfold parse_version. rewrite reject_seq_Ok, eqb_false, parse_fields_ok. naive_solver.
Qed.

(** Comparing numbers position by position, with zeros after the last one. *)
Definition number_at (xs : list Z) (i : nat) : Z := nth i xs 0%Z.

Definition equal_up_to (xs ys : list Z) (i : nat) : Prop := forall j, (j < i)%nat -> number_at xs j = number_at ys j.

Definition below (xs ys : list Z) : Prop := exists i, equal_up_to xs ys i /\ (number_at xs i < number_at ys i)%Z.

Lemma below_cons x y xs ys :
  below (x :: xs) (y :: ys) <-> (x < y)%Z \/ (x = y /\ below xs ys).
Proof.
  split.
  - intros ([|i] & He & Hl); [by left|]. right. split; [apply (He 0%nat); lia|].
    exists i. split; [|done]. intros j Hj. apply (He (S j)). lia.
  - intros [Hl|[-> (i & He & Hl)]]; [exists 0%nat; split; [intros j Hj; lia|done]|].
    exists (S i). split; [|done]. intros [|j] Hj; [done|]. apply He. lia.
Qed.

Lemma number_at_nil i : number_at [] i = 0%Z.
Proof. by destruct i. Qed.

Definition verdict (c : Z) (xs ys : list Z) : Prop :=
  (c = (-1)%Z <-> below xs ys) /\ (c = 1%Z <-> below ys xs) /\
  (c = 0%Z <-> forall i, number_at xs i = number_at ys i) /\ (c = (-1) \/ c = 0 \/ c = 1)%Z.

Lemma verdict_cons x y xs ys c : verdict c xs ys -> verdict (compare_step x y c) (x :: xs) (y :: ys).
Proof.
  intros (H1 & H2 & H3 & H4). unfold verdict. rewrite !below_cons.
  assert ((forall i, number_at (x :: xs) i = number_at (y :: ys) i) <-> x = y /\ forall i, number_at xs i = number_at ys i) as He.
  { split; [intros H; split; [apply (H 0%nat)|intros i; apply (H (S i))]|]. intros [-> H] [|i]; [done|apply H]. }
  rewrite He. unfold compare_step. destruct (y <? x)%Z eqn:Ha; [|destruct (x <? y)%Z eqn:Hb].
  - apply Z.ltb_lt in Ha. split_and!; [split; [lia|intros [?|[? _]]; lia]|split; [by left|done]|split; [lia|intros [? _]; lia]|lia].
  - apply Z.ltb_lt in Hb. split_and!; [split; [by left|done]|split; [lia|intros [?|[? _]]; lia]|split; [lia|intros [? _]; lia]|lia].
  - apply Z.ltb_ge in Ha, Hb. assert (x = y) as -> by lia.
    split_and!; [rewrite H1|rewrite H2|rewrite H3; naive_solver|done];
      (split; [by right|intros [?|[_ ?]]; [lia|done]]).
Qed.

Lemma verdict_ext c xs xs' ys ys' :
  (forall i, number_at xs i = number_at xs' i) -> (forall i, number_at ys i = number_at ys' i) ->
  verdict c xs ys -> verdict c xs' ys'.
Proof. intros Hx Hy. unfold verdict, below, equal_up_to. by setoid_rewrite Hx; setoid_rewrite Hy. Qed.

Lemma number_at_zero xs : xs = [] -> forall i, number_at [0%Z] i = number_at xs i.
Proof. intros -> [|[|i]]; done. Qed.

Lemma compare_numbers_verdict xs ys : verdict (compare_numbers xs ys) xs ys.
Proof.
  assert (verdict 0 [] []) as Hnil.
  { unfold verdict, below. setoid_rewrite number_at_nil. split_and!; [| |by split|lia];
      (split; [lia|intros (i & _ & H); lia]). }
  assert (forall ys, verdict (foldr (compare_step 0) 0%Z ys) [] ys) as Hl.
  { induction ys0 as [|y ys0 IH]; [done|]. simpl.
    apply (verdict_ext _ [0%Z] [] (y :: ys0)); [by apply number_at_zero|done|by apply verdict_cons]. }
  revert ys. induction xs as [|x xs IH]; intros ys; [apply Hl|]. destruct ys as [|y ys]; simpl; [|by apply verdict_cons].
  apply (verdict_ext _ (x :: xs) (x :: xs) [0%Z]); [done|by apply number_at_zero|]. by apply verdict_cons.
Qed.

(** Comparing versions is comparing their numbers position by position, a
    missing number counting as zero. *)
Theorem compareProviderVersions_spec current target c :
  compareProviderVersions current target = Ok c <->
  exists xs ys, parse_version current = Ok xs /\ parse_version target = Ok ys /\
    ((c = (-1)%Z /\ below xs ys) \/ (c = 1%Z /\ below ys xs) \/
     (c = 0%Z /\ forall i, number_at xs i = number_at ys i)).
Proof.
  unfold compareProviderVersions. split.
  - intros (xs & Hx & (ys & Hy & [= <-])%bind_Ok)%bind_Ok. exists xs, ys. split_and!; [done..|].
    destruct (compare_numbers_verdict xs ys) as (H1 & H2 & H3 & [H|[H|H]]).
    + left. by split; [|apply H1].
    + right; right. by split; [|apply H3].
    + right; left. by split; [|apply H2].
  - intros (xs & ys & Hx & Hy & H). rewrite Hx, Hy. simpl. f_equal.
    destruct (compare_numbers_verdict xs ys) as (H1 & H2 & H3 & _).
    destruct H as [[-> H]|[[-> H]|[-> H]]]; [by apply H1|by apply H2|by apply H3].
Qed.

(** ** Built plans can be executed *)

Definition owned (r : Realization) : bool := rz_Owner r == "baseharbor".

(** Identities that are more than white space. *)
Definition named (r : Realization) : Prop :=
  TrimSpace (rz_Installation r) <> "" /\ TrimSpace (rz_Scope r) <> "" /\ TrimSpace (rz_Instance r) <> "".
Definition pinned (d : Desired) : Prop := TrimSpace (ds_Image d) <> "" /\ TrimSpace (ds_Version d) <> "".

Definition references_ok (desired : list Desired) (references : gmap string Desired) : Prop :=
  forall kind item, references !! kind = Some item ->
    item ∈ desired /\ ds_Kind item = kind /\ validKind kind = true /\ validDigest (ds_Digest item) = true.

Lemma add_references_ok desired done references out :
  forE add_reference references desired = Ok out ->
  references_ok done references -> references_ok (done ++ desired) out.
Proof.
  revert done references. induction desired as [|item desired IH]; intros done references.
  - intros [= ->]. by rewrite app_nil_r.
  - rewrite forE_cons, bind_Ok. intros (refs & Hadd & Hout) Hok.
    replace (done ++ item :: desired) with ((done ++ [item]) ++ desired) by (by rewrite <- app_assoc).
    eapply IH; [exact Hout|]. unfold add_reference in Hadd. inv_ok Hadd. injection Hadd as <-.
    apply orb_false_iff in Hc as [Hk%negb_false_iff _]. apply orb_false_iff in Hc0 as [_ Hd%negb_false_iff].
    intros kind i. rewrite lookup_insert_Some. intros [[<- <-]|[_ Hi]].
    + split_and!; [set_solver|done..].
    + apply Hok in Hi as (Hi & ?). split; [set_solver|done].
Qed.

Lemma add_realizations_ok references installed seen deltas seen' deltas' :
  forE (add_realization references) (seen, deltas) installed = Ok (seen', deltas') ->
  Forall (fun r => validKind (rz_Kind r) = true) installed /\
  deltas' = deltas ++ map (build_delta references) (List.filter owned installed) /\
  NoDup (map realization_key installed) /\ (forall r, r ∈ installed -> realization_key r ∉ seen).
Proof.
  revert seen deltas. induction installed as [|r installed IH]; intros seen deltas.
  - intros [= -> ->]. rewrite app_nil_r. split_and!; [constructor|done|constructor|set_solver].
  - rewrite forE_cons, bind_Ok. intros ([seen1 deltas1] & Hadd & Hrest). unfold add_realization in Hadd. inv_ok Hadd.
    apply bool_decide_eq_false in Hc0.
    assert (seen1 = {[realization_key r]} ∪ seen /\
      deltas1 = deltas ++ map (build_delta references) (List.filter owned [r])) as [-> ->].
    { simpl. unfold owned. destruct (rz_Owner r == "baseharbor") eqn:Ho; simpl in Hadd; injection Hadd as <- <-;
        split; rewrite ?app_nil_r; done. }
    apply IH in Hrest as (Hk & -> & Hnd & Hnew).
    repeat apply orb_false_iff in Hc as [Hc _]. apply negb_false_iff in Hc. split_and!.
    + by constructor.
    + rewrite <- app_assoc, <- map_app. f_equal. f_equal. simpl. by destruct (owned r).
    + simpl. apply NoDup_cons. split; [|done]. intros (r' & Heq & Hr')%list_elem_of_fmap.
      apply (Hnew r' Hr'). rewrite <- Heq. set_solver.
    + intros r' [->|Hr']%elem_of_cons; [done|]. specialize (Hnew r' Hr'). set_solver.
Qed.

(** A step whose delta was classified by [classify] and is supported passes
    the checks. *)
Lemma classified_valid current target classification reason :
  validKind (rz_Kind current) = true -> classify current target = (classification, reason) ->
  classification <> Unsupported -> validDigest (ds_Digest target) = true ->
  is_ok (validate_step (mkDelta current target classification reason)) = true.
Proof.
  intros Hkind Hc Hsup Hdig. unfold classify in Hc. unfold validate_step, changed. simpl.
  destruct (_ && _ && _ && _) eqn:Heq in Hc.
  - injection Hc as <- <-. rewrite !andb_true_iff, !eqb_true in Heq. destruct Heq as (((_ & ->) & ->) & ->).
    rewrite !(proj2 (neqb_false _ _) eq_refl). simpl. rewrite !andb_false_r. done.
  - destruct (_ || _ || _) eqn:Hid in Hc; [by injection Hc as <- <-|].
    destruct (providerDowngrade _ _) eqn:Hdown; [by injection Hc as <- <-|].
    destruct (_ && _) eqn:Hmaj in Hc; [by injection Hc as <- <-|]. rewrite Hmaj.
    assert ((rz_Image current != ds_Image target) || (rz_Version current != ds_Version target) ||
            (rz_Digest current != ds_Digest target) = true) as Hch.
    { rewrite !orb_true_iff, !neqb_true. apply andb_false_iff in Heq. rewrite eqb_false in Heq.
      rewrite !andb_false_iff, !eqb_false in Heq. rewrite neqb_false in Heq.
      destruct Heq as [[[Hd|Hd]|Hd]|Hd]; [|tauto..]. right. rewrite Hd. intros Hx. by rewrite <- Hx in Hdig. }
    rewrite Hch. destruct (_ || _) eqn:Hk in Hc.
    + injection Hc as <- <-. simpl. rewrite Hk. simpl.
      assert ((rz_Kind current == Identity) = false) as ->; [|done].
      apply eqb_false. intros Hx. rewrite Hx in Hk. vm_compute in Hk. discriminate Hk.
    + destruct (rz_Kind current == Identity) eqn:Hi; [|by injection Hc as <- <-].
      injection Hc as <- <-. simpl. by rewrite Hk.
Qed.

Lemma build_delta_key references r : realization_key (dl_Installed (build_delta references r)) = realization_key r.
Proof. unfold build_delta. by destruct (classify _ _). Qed.

Lemma validate_deltas_ok ds seen b :
  Forall (fun d => well_formed d = true /\ is_ok (validate_step d) = true) ds ->
  NoDup (map (fun d => realization_key (dl_Installed d)) ds) ->
  (forall d, d ∈ ds -> realization_key (dl_Installed d) ∉ seen) ->
  exists out, forE validate_delta (seen, b) ds = Ok out.
Proof.
  revert seen b. induction ds as [|d ds IH]; intros seen b Hok Hnd Hseen; [by eexists|].
  apply Forall_cons in Hok as [[Hw Hs] Hok]. apply NoDup_cons in Hnd as [Hnew Hnd].
  rewrite forE_cons. unfold validate_delta at 2. rewrite Hw. simpl.
  rewrite bool_decide_eq_false_2 by (apply Hseen; left). simpl.
  destruct (validate_step d) as [n|]; [|done]. simpl. apply IH; [done..|].
  intros d' Hd' [Heq%elem_of_singleton|Hin]%elem_of_union.
  - apply Hnew. rewrite <- Heq. by apply (list_elem_of_fmap_2 (fun d => realization_key (dl_Installed d))).
  - apply (Hseen d'); [by right|done].
Qed.

Lemma mandatory_reference (references : gmap string Desired) kind u :
  forE (fun _ kind => reject (bool_decide (references !! kind = None)) (Errorf "Core release lacks mandatory %s provider" [AStr kind]))
    tt [SQL; Secrets; Identity] = Ok u ->
  validKind kind = true -> is_Some (references !! kind).
Proof.
  destruct u. rewrite forE_unit_Ok, !Forall_cons, !reject_Ok. intros (H1 & H2 & H3 & _) Hk.
  apply bool_decide_eq_false in H1, H2, H3.
  unfold validKind in Hk. rewrite !orb_true_iff, !eqb_true in Hk.
  destruct Hk as [[->| ->]| ->]; by apply not_eq_None_Some.
Qed.

Lemma build_delta_ok references desired r :
  references_ok desired references -> is_Some (references !! rz_Kind r) ->
  validKind (rz_Kind r) = true -> owned r = true -> named r -> Forall pinned desired ->
  dl_Classification (build_delta references r) <> Unsupported ->
  well_formed (build_delta references r) = true /\ is_ok (validate_step (build_delta references r)) = true.
Proof.
  intros Href [target Ht] Hkind Hown (Hn1 & Hn2 & Hn3) Hp. destruct (Href _ _ Ht) as (Hin & Hk & _ & Hd).
  rewrite Forall_forall in Hp. destruct (Hp _ Hin) as [Hp1 Hp2].
  unfold build_delta. rewrite Ht. simpl. destruct (classify r target) as [c reason] eqn:Hc. simpl. intros Hsup. split.
  - unfold well_formed. simpl. rewrite Hkind, Hk, Hd. unfold owned in Hown. apply bool_decide_eq_true in Hown. rewrite Hown.
    rewrite !(proj2 (neqb_false _ _) eq_refl), !(proj2 (eqb_false _ _)) by done. done.
  - by apply classified_valid.
Qed.

Lemma built_plan_valid release installed desired plan :
  Build release installed desired = Ok plan ->
  Forall (fun d => dl_Classification d <> Unsupported) (pl_Deltas plan) ->
  Forall named installed -> Forall pinned desired ->
  (exists out, forE validate_delta (∅, false) (pl_Deltas plan) = Ok out) /\
  map dl_Installed (pl_Deltas plan) = List.filter owned installed.
Proof.
  unfold Build. intros Hb Hsup Hn Hp. inv_ok Hb. rename x into references. destruct x1 as [seen deltas].
  injection Hb as <-. simpl in *.
  apply (add_references_ok desired [] ∅) in Hr as Href; [|done].
  apply add_realizations_ok in Hr1 as (Hkinds & -> & Hnd & _). simpl in *.
  rewrite Forall_forall in Hkinds, Hn. rewrite Forall_map, Forall_forall in Hsup. split.
  - apply validate_deltas_ok.
    + apply Forall_map, Forall_forall. intros r Hin. pose proof Hin as [Hown Hr']%elem_of_filter_true.
      apply (build_delta_ok references desired); auto. eapply mandatory_reference; [exact Hr0|auto].
    + rewrite map_map. erewrite map_ext; [|intros r; apply build_delta_key]. by apply NoDup_map_filter.
    + set_solver.
  - rewrite map_map. erewrite map_ext; [apply map_id|]. intros r. unfold build_delta. by destruct (classify _ _).
Qed.

(** A plan that [Build] makes, and in which nothing is unsupported, passes
    every check of the execution when it has a recovery point; its steps are
    the realizations BaseHarbor owns, in order: an external provider is never
    touched.  [Build] accepts identities of white space only, which the
    validation rejects, so the identities are assumed to be more than that. *)
Theorem Build_executable {S} release installed desired plan (hooks : Hooks S) :
  Build release installed desired = Ok plan ->
  Forall (fun d => dl_Classification d <> Unsupported) (pl_Deltas plan) ->
  Forall named installed -> Forall pinned desired -> hk_RecoveryPoint hooks <> None ->
  validateExecutionPlan plan hooks = Ok tt /\
  map dl_Installed (pl_Deltas plan) = List.filter owned installed.
Proof.
  intros Hb Hsup Hn Hp Hrec. destruct (built_plan_valid _ _ _ _ Hb Hsup Hn Hp) as [[[seen b] Hv] Hmap].
  split; [|done]. unfold validateExecutionPlan. rewrite Hv. simpl. apply reject_Ok.
  by rewrite bool_decide_eq_false_2, andb_false_r.
Qed.

(** ** A sample *)

Definition digest_of (c : string) : string := "sha256:" +:+ Join (repeat c 64) "".
Definition sample_desired : list Desired :=
  [mkDesired SQL "ghcr.io/zalando/spilo" (digest_of "a") "17.5";
   mkDesired Secrets "openbao/openbao" (digest_of "b") "2.7.0";
   mkDesired Identity "keycloak/keycloak" (digest_of "c") "26.8"].
Definition sample_installed : list Realization :=
  [mkRealization SQL "main" "core" "postgres" "baseharbor" "ghcr.io/zalando/spilo" (digest_of "d") "17.4";
   mkRealization Secrets "main" "core" "openbao" "baseharbor" "openbao/openbao" (digest_of "b") "2.7.0";
   mkRealization Identity "main" "core" "corporate" "external" "" "" ""].
Definition sample_plan : Plan :=
  match Build "0.9.0" sample_installed sample_desired with Ok plan => plan | Err _ => mkPlan "" [] end.

(** The environment of the sample: applying the first instance fails. *)
Definition sample_hooks : Hooks unit :=
  mkHooks (Some (fun _ s => (s, Ok tt))) (Some (fun _ s => (s, Ok tt))) (Some (fun _ _ s => (s, Ok tt)))
    (Some (fun d s => (s, if rz_Instance (dl_Installed d) == "postgres" then Err (errorsNew "no space left") else Ok tt)))
    (Some (fun _ s => (s, Ok tt))) (Some (fun _ _ s => (s, Ok tt))).
Definition sample_ctx : M unit unit := fun s => (s, Ok tt).

Example sample_classifications : map dl_Classification (pl_Deltas sample_plan) = [BackupRequired; NoChange].
Proof. vm_compute. reflexivity. Qed.

Lemma Build_executable_witness :
  validateExecutionPlan sample_plan sample_hooks = Ok tt /\
  map dl_Installed (pl_Deltas sample_plan) = take 2 sample_installed.
Proof.
  apply (Build_executable "0.9.0" sample_installed sample_desired sample_plan sample_hooks).
  - vm_compute. reflexivity.
  - apply (bool_decide_unpack _). vm_compute. exact I.
  - unfold named. apply (bool_decide_unpack _). vm_compute. exact I.
  - unfold pinned. apply (bool_decide_unpack _). vm_compute. exact I.
  - discriminate.
Defined.

Definition sample_execution : (unit * list event) * result error unit :=
  Execute (watch_call CallCtx sample_ctx) sample_plan (watch_hooks sample_hooks) (tt, []).

Lemma Execute_script_witness :
  is_ok (snd sample_execution) = false /\
  exists evs, snd (fst sample_execution) = [] ++ evs /\ performed (script sample_plan) evs false /\ length evs = 6%nat.
Proof.
  assert (Hr : snd sample_execution = Err (instance_error "Core update %s: %w" (hd (mkDelta (hd (mkRealization "" "" "" "" "" "" "" "") sample_installed) zero_Desired "" "") (pl_Deltas sample_plan)) (errorsNew "no space left")))
    by (vm_compute; reflexivity).
  split; [rewrite Hr; reflexivity|].
  assert (Hc : complete_hooks sample_hooks && is_ok (validateExecutionPlan sample_plan sample_hooks) = true) by (vm_compute; reflexivity).
  pose proof (Execute_script sample_ctx sample_hooks sample_plan (tt, []) (fst sample_execution) (snd sample_execution)
    (surjective_pairing sample_execution)) as Hx.
  rewrite Hc in Hx. destruct Hx as [_ (evs & Hs & Hp)].
  exists evs. split; [exact Hs|]. rewrite Hr in Hp. split; [exact Hp|].
  assert (Hl : length (snd (fst sample_execution)) = 6%nat) by (vm_compute; reflexivity).
  rewrite Hs in Hl. exact Hl.
Defined.
