(* ===== verification/UpdateJournal.v ===== *)
(** * The Core update journal (internal/coreupdate: journal.go,
    execution_journal.go, patroni_member_journal.go)

    The progress of every realization is kept in a file, and an update that was
    interrupted is resumed from it.  encoding/json enters as an interface. *)

From S2P Require Import Prelude GoStrings FileSystem Codec Effects UpdatePlan.

(** ** Interfaces *)

(** [journal_key] is the JSON array of seven texts.  [journal_decode] reads
    one object without unknown fields: the release, the steps ([None] when they
    are missing) and whether nothing follows the object. *)
Class JournalJSON := mkJournalJSON {
  journal_key : list string -> string;
  journal_encode : string -> gmap string string -> result error string;
  journal_decode : string -> result error (string * option (gmap string string) * bool) }.

(** ** The journal *)

(** [None] is a nil map. *)
Record Journal := mkJournal {
  jn_Release : string;
  jn_Steps : option (gmap string string) }.

Definition steps_of (j : Journal) : gmap string string := default ∅ (jn_Steps j).

Definition dir_of (path : string) : string :=
  match LastCut path "/" with
  | None => "."
  | Some (dir, _) => if dir == "" then "/" else Clean dir
  end.

(** The first [n] bytes of a file ([io.LimitReader]). *)
Fixpoint limit_bytes (n : Z) (s : string) : string :=
  match s with
  | EmptyString => EmptyString
  | String c s' => if (0 <? n)%Z then String c (limit_bytes (n - 1) s') else EmptyString
  end.

Definition validJournalState (value : string) : bool :=
  bool_decide (value ∈ ["applying"; "apply_failed"; "verify_failed"; "recovered"; "verified"]).

Section journal.
Context {os : OS} {dirs : Dirs} {names : TempNames} {json : JournalJSON}.

Definition JournalKey (d : Delta) : string :=
  let r := dl_Installed d in
  journal_key [rz_Installation r; rz_Scope r; rz_Instance r; rz_Kind r;
               ds_Image (dl_Desired d); ds_Version (dl_Desired d); ds_Digest (dl_Desired d)].

(** The state recorded for a delta; a missing entry is the empty text. *)
Definition step_state (j : Journal) (d : Delta) : string := default "" (steps_of j !! JournalKey d).

Definition valid_entries (steps : gmap string string) : bool :=
  bool_decide (map_Forall (fun key value => TrimSpace key <> "" /\ validJournalState value = true) steps).

Definition LoadJournal (fs : fsys) (path release : string) : result error Journal :=
  reject (TrimSpace release == "") (errorsNew "journal requires release") ;;
  match Lstat fs path with
  | Err err => if oe_NotExist err then Ok (mkJournal release (Some ∅)) else Err (oe_text err)
  | Ok info =>
      reject (negb (f_Regular info) || (Z.land (f_Perm info) shared_bits != 0)%Z)
        (errorsNew "unsafe Core update journal permissions") ;;
      data ← wrap_err oe_text (ReadFile fs path);
      '(stored, steps, last) ← journal_decode (limit_bytes (2 ^ 20) data);
      reject (negb last || (stored != release) || bool_decide (steps = None))
        (errorsNew "incompatible Core update journal") ;;
      reject (negb (valid_entries (default ∅ steps))) (errorsNew "invalid Core update journal state") ;;
      Ok (mkJournal stored steps)
  end.

(** The checks of [Record], and the steps it writes. *)
Definition next_steps (j : option Journal) (d : Delta) (state : string) : result error (Journal * gmap string string) :=
  match j with
  | None => Err (errorsNew "invalid Core update journal transition")
  | Some j =>
      reject ((TrimSpace (jn_Release j) == "") || negb (validJournalState state))
        (errorsNew "invalid Core update journal transition") ;;
      let r := dl_Installed d in
      reject ((TrimSpace (rz_Installation r) == "") || (TrimSpace (rz_Scope r) == "") ||
              (TrimSpace (rz_Instance r) == "") || negb (validKind (rz_Kind r)) ||
              negb (validDigest (ds_Digest (dl_Desired d))) || (TrimSpace (ds_Version (dl_Desired d)) == ""))
        (errorsNew "incomplete Core update journal key") ;;
      reject ((step_state j d == "verified") && (state != "verified"))
        (Errorf "verified Core provider %s cannot regress" [AStr (JournalKey d)]) ;;
      Ok (j, <[JournalKey d := state]> (steps_of j))
  end.

Definition private_dir (dir : string) (message : string) : result error unit :=
  match dir_info dir with
  | Err err => Err (oe_text err)
  | Ok (is_dir, perm) => reject (negb is_dir || (Z.land perm shared_bits != 0)%Z) (errorsNew message)
  end.

Definition newline : string := bytes [10].

(** The receiver keeps its steps when the writing fails; a nil map of steps is
    made before that, which no caller observes. *)
Definition Journal_Record (j : option Journal) (path : string) (d : Delta) (state : string) (dk : disk)
    : disk * (option Journal * result error unit) :=
  match next_steps j d state with
  | Err err => (dk, (j, Err err))
  | Ok (current, next) =>
      match journal_encode (jn_Release current) next with
      | Err err => (dk, (j, Err err))
      | Ok data =>
          let dir := dir_of path in
          match private_dir dir "Core update journal directory must be private" with
          | Err err => (dk, (j, Err err))
          | Ok _ =>
              let '(dk, written) := replace_synced dir (temp_name dir ".core-update-*") path (data +:+ newline) dk in
              match written with
              | Err err => (dk, (j, Err err))
              | Ok _ => (dk, (Some (mkJournal (jn_Release current) (Some next)), Ok tt))
              end
          end
      end
  end.

(** ** Journaled execution

    The hooks act on a state of their own; the journal is a variable of the
    function, and its file is on the disk. *)
Context {W : Type}.
Abbreviation state := (W * (disk * Journal))%type.

Definition record_journal (path : string) (d : Delta) (value : string) : M state unit := fun s =>
  let '(w, (dk, j)) := s in
  let '(dk, (j', r)) := Journal_Record (Some j) path d value dk in
  ((w, (dk, default j j')), r).

Definition interrupted (status : string) : bool :=
  (status == "applying") || (status == "apply_failed") || (status == "verify_failed").

(** Every incomplete step needs a recovery hook. *)
Definition admit_step (ctx : M W unit) (hooks : Hooks W) (j : Journal) (d : Delta) : M state unit :=
  onFst ctx ;;
  pureM (reject (interrupted (step_state j d) && bool_decide (hk_Recover hooks = None))
    (Errorf "incomplete Core provider %s requires explicit provider recovery before replay" [AStr (JournalKey d)])).

Definition recover_step (hooks : Hooks W) (j : Journal) (d : Delta) : M state unit :=
  if interrupted (step_state j d) then
    recover ← pureM (requireM (hk_Recover hooks) nil_call);
    wrapM (fun err => Errorf "restore interrupted Core provider %s: %w" [AStr (JournalKey d); ATxt err])
      (onFst (recover d (step_state j d)))
  else mret tt.

(** A verified step is verified again and left out of the remaining plan. *)
Definition reverify_step (ctx : M W unit) (verify : Delta -> M W unit) (j : Journal) (remaining : list Delta) (d : Delta)
    : M state (list Delta) :=
  onFst ctx ;;
  if (dl_Classification d != NoChange) && (step_state j d == "verified") then
    wrapM (fun err => Errorf "previously verified Core provider %s is no longer ready: %w" [AStr (JournalKey d); ATxt err])
      (onFst (verify d)) ;;
    mret remaining
  else mret (remaining ++ [d]).

Definition journaled_hooks (path : string) (hooks : Hooks W) (record : Delta -> string -> M W unit) : Hooks state :=
  mkHooks (Some (fun _ => mret tt)) ((fun f d => onFst (f d)) <$> hk_RecoveryPoint hooks)
    ((fun f d value => onFst (f d value)) <$> hk_Recover hooks) ((fun f d => onFst (f d)) <$> hk_Apply hooks)
    ((fun f d => onFst (f d)) <$> hk_Verify hooks)
    (Some (fun d value => onFst (record d value) ;; record_journal path d value)).

Definition execute_journaled (ctx : M W unit) (plan : Plan) (path : string) (hooks : Hooks W) (j : Journal) : M state unit :=
  match hk_Verify hooks, hk_Record hooks with
  | Some verify, Some record =>
      pureM (validateExecutionPlan plan hooks) ;;
      rangeM (admit_step ctx hooks j) (pl_Deltas plan) ;;
      preflight ← pureM (requireM (hk_Preflight hooks) nil_call);
      wrapM (fun err => Errorf "Core update preflight before recovery: %w" [ATxt err]) (onFst (preflight plan)) ;;
      rangeM (recover_step hooks j) (pl_Deltas plan) ;;
      remaining ← forM (reverify_step ctx verify j) [] (pl_Deltas plan);
      Execute (onFst ctx) (mkPlan (pl_Release plan) remaining) (journaled_hooks path hooks record)
  | _, _ => pureM (Err (errorsNew "journaled Core updates require live verification and journal hooks"))
  end.

Definition ExecuteJournaled (ctx : M W unit) (plan : Plan) (path : string) (hooks : Hooks W) : M (W * disk) unit := fun s =>
  let '(w, dk) := s in
  match LoadJournal (dk_Files dk) path (pl_Release plan) with
  | Err err => (s, Err err)
  | Ok journal =>
      let '((w, (dk, _)), r) := execute_journaled ctx plan path hooks journal (w, (dk, journal)) in ((w, dk), r)
  end.

(** ** The journal of the members (patroni_member_journal.go) *)

Record PatroniMemberJournal := mkMemberJournal {
  mj_Path : string;
  mj_Release : string;
  mj_Installation : string;
  mj_Scope : string;
  mj_Desired : Desired }.

Definition member_delta (j : PatroniMemberJournal) (name : string) : result error Delta :=
  reject ((mj_Path j == "") || (mj_Release j == "") || (mj_Installation j == "") || (mj_Scope j == "") ||
          negb (HasPrefix name "postgres-member-") || negb (validDigest (ds_Digest (mj_Desired j))) ||
          (ds_Kind (mj_Desired j) != SQL) || (ds_Image (mj_Desired j) == "") || (ds_Version (mj_Desired j) == ""))
    (errorsNew "incomplete or unsafe Patroni member journal identity") ;;
  reject (negb (bool_decide (name ∈ ["postgres-member-1"; "postgres-member-2"; "postgres-member-3"])))
    (Errorf "foreign Patroni member %q" [AStr name]) ;;
  Ok (mkDelta (mkRealization SQL (mj_Installation j) (mj_Scope j) name "baseharbor" "" "" "") (mj_Desired j) "" "").

(** [ctx] is [ctx.Err()]. *)
Definition member_StepState (ctx : result error unit) (j : PatroniMemberJournal) (name : string) : M disk string := fun dk =>
  (dk, ctx ;;
       delta ← member_delta j name;
       stored ← LoadJournal (dk_Files dk) (mj_Path j) (mj_Release j);
       Ok (step_state stored delta)).

Definition member_Record (ctx : result error unit) (j : PatroniMemberJournal) (name state : string) : M disk unit := fun dk =>
  match ctx ;; member_delta j name with
  | Err err => (dk, Err err)
  | Ok delta =>
      match LoadJournal (dk_Files dk) (mj_Path j) (mj_Release j) with
      | Err err => (dk, Err err)
      | Ok stored => let '(dk, (_, r)) := Journal_Record (Some stored) (mj_Path j) delta state dk in (dk, r)
      end
  end.
End journal.

(** ** Resuming an update *)

Section resume.
Context {os : OS} {dirs : Dirs} {names : TempNames} {json : JournalJSON} {W : Type}.
Abbreviation T := (W * list event)%type.
Abbreviation state := (T * (disk * Journal))%type.
Context (hooks : Hooks W) (ctx : M W unit) (plan : Plan) (path : string) (j : Journal).
Context (t0 : list event).

(** What has to be called before a delta may be applied. *)
Definition allowed (before : list event) (d : Delta) : Prop :=
  (CallPreflight plan, true) ∈ before /\ d ∈ pl_Deltas plan /\ step_state j d <> "verified" /\
  (interrupted (step_state j d) = true -> (CallRecover d (step_state j d), true) ∈ before).

Definition applies_allowed : list event -> Prop :=
  obeys (fun before e => forall d, fst e = CallApply d -> allowed before d).

(** What a successful run calls for a delta. *)
Definition completed (evs : list event) (d : Delta) : Prop :=
  dl_Classification d = NoChange \/
  ((CallVerify d, true) ∈ evs /\ (step_state j d = "verified" \/ (CallRecord d "verified", true) ∈ evs)).

Definition trace_of (s : state) : list event := snd (fst s).

(** The calls since the start are [evs], and the applications among them were
    allowed. *)
Definition safe (s : state) (evs : list event) : Prop := trace_of s = t0 ++ evs /\ applies_allowed evs.

Lemma allowed_mono before after d : allowed before d -> allowed (before ++ after) d.
Proof.
  intros (H1 & H2 & H3 & H4). split_and!; [by apply elem_of_app; left|done..|].
  intros H%H4. by apply elem_of_app; left.
Qed.

Lemma completed_mono evs evs' d : completed evs d -> completed (evs ++ evs') d.
Proof. intros [H|[H1 [H2|H2]]]; [by left|..]; right; (split; [by apply elem_of_app; left|]); [by left|right]. by apply elem_of_app; left. Qed.

Lemma applies_allowed_snoc evs c ok :
  applies_allowed evs -> (forall d, c = CallApply d -> allowed evs d) -> applies_allowed (evs ++ [(c, ok)]).
Proof. intros Ha Hc. by apply obeys_snoc. Qed.

(** A watched call appends its event. *)
Lemma run_call c (m : M W unit) s evs (Q : unit -> state -> Prop) (X : state -> Prop) :
  safe s evs -> (forall d, c = CallApply d -> allowed evs d) ->
  (forall s', snd s' = snd s -> safe s' (evs ++ [(c, true)]) -> Q tt s') ->
  (forall s', snd s' = snd s -> safe s' (evs ++ [(c, false)]) -> X s') ->
  run (onFst (watch_call c m)) s Q X.
Proof.
  intros [Ht Ha] Hc HQ HX. destruct s as [[w t] r]. unfold run, onFst, watch_call, watch. simpl in *.
  destruct (m w) as [w' [[]|e]]; simpl; [apply HQ|apply HX]; try done;
    (split; [unfold trace_of in *; simpl in *; by rewrite Ht, app_assoc|by apply applies_allowed_snoc]).
Qed.

Lemma run_record value d s evs (Q : unit -> state -> Prop) (X : state -> Prop) :
  safe s evs -> (forall s', safe s' evs -> Q tt s') -> (forall s', safe s' evs -> X s') ->
  run (record_journal path d value) s Q X.
Proof.
  intros [Ht Ha] HQ HX. destruct s as [[w t] [dk j']]. unfold run, record_journal.
  destruct (Journal_Record _ _ _ _ _) as [dk' [j'' [[]|e]]]; [apply HQ|apply HX]; by split.
Qed.

(** The invariant of the whole run: some events, all of whose applications were
    allowed. *)
Definition sound (s : state) : Prop := exists evs, safe s evs.

Lemma safe_sound s evs : safe s evs -> sound s.
Proof. by exists evs. Qed.

(** A step in the middle of a run that ends soundly when it fails. *)
Ltac step_call :=
  apply run_bind; eapply run_call; [eassumption|done| |intros; eapply safe_sound; eassumption].

Lemma run_recovery d s evs (Q : unit -> state -> Prop) record :
  safe s evs -> (forall s' evs', safe s' (evs ++ evs') -> Q tt s') ->
  run (if needs_recovery d then
         recover ← pureM (requireM (hk_RecoveryPoint (journaled_hooks path (watch_hooks hooks) record)) nil_call);
         wrapM (instance_error "Core recovery point %s: %w" d) (recover d)
       else mret tt) s Q sound.
Proof.
  intros Hs HQ. destruct (needs_recovery d).
  2:{ apply run_ret. apply (HQ _ []). by rewrite app_nil_r. }
  simpl. destruct (hk_RecoveryPoint hooks) as [f|]; simpl.
  - apply run_wrap. eapply run_call; [exact Hs|done| |intros; by eapply safe_sound].
    intros s' _ Hs'. by eapply HQ.
  - apply run_bind, run_pure. by eapply safe_sound.
Qed.

Lemma run_recorded value d record s evs (Q : unit -> state -> Prop) :
  safe s evs ->
  (forall s', safe s' (evs ++ [(CallRecord d value, true)]) -> Q tt s') ->
  run (onFst (watch_call (CallRecord d value) (record d value)) ;; record_journal path d value) s Q sound.
Proof.
  intros Hs HQ. apply run_bind. eapply run_call; [exact Hs|done| |intros; by eapply safe_sound].
  intros s' _ Hs'. eapply run_record; [exact Hs'|exact HQ|intros; by eapply safe_sound].
Qed.

Lemma run_ignored value d record s evs (e : error) (Q : unit -> state -> Prop) :
  safe s evs ->
  run (ignoreM (onFst (watch_call (CallRecord d value) (record d value)) ;; record_journal path d value) ;;
       pureM (Err e)) s Q sound.
Proof.
  intros Hs. apply run_bind, run_ignore.
  assert (forall s' : state, sound s' -> run (pureM (A := unit) (Err e)) s' Q sound) as He by (intros; by apply run_pure).
  apply (run_mono _ _ (fun _ => sound) _ sound); [by intros [] s' Hs'; apply He|exact He|].
  eapply run_recorded; [exact Hs|]. intros; by eapply safe_sound.
Qed.

Lemma run_execute_delta apply verify record d s evs :
  safe s evs -> (dl_Classification d <> NoChange -> allowed evs d) ->
  run (execute_delta (onFst (watch_call CallCtx ctx))
         (hk_RecoveryPoint (journaled_hooks path (watch_hooks hooks) (fun d value => watch_call (CallRecord d value) (record d value))))
         (fun d => onFst (watch_call (CallApply d) (apply d))) (fun d => onFst (watch_call (CallVerify d) (verify d)))
         (fun d value => onFst (watch_call (CallRecord d value) (record d value)) ;; record_journal path d value) d)
    s (fun _ s' => exists evs', safe s' (evs ++ evs') /\ completed (evs ++ evs') d) sound.
Proof.
  intros Hs Hal. unfold execute_delta. case_bool_decide as Hc.
  { apply run_ret. exists []. rewrite app_nil_r. split; [exact Hs|by left]. }
  specialize (Hal Hc).
  step_call. intros s1 _ Hs1.
  apply run_bind. eapply run_recovery; [exact Hs1|]. intros s2 evs2 Hs2.
  apply run_bind. eapply run_recorded; [exact Hs2|]. intros s3 Hs3.
  apply run_onErr. eapply run_call; [exact Hs3| | |].
  { intros d' [= <-]. rewrite <- !app_assoc. by apply allowed_mono. }
  2:{ intros s4 _ Hs4 err. by eapply run_ignored. }
  intros s4 _ Hs4. apply run_onErr. eapply run_call; [exact Hs4|done| |].
  2:{ intros s5 _ Hs5 err. by eapply run_ignored. }
  intros s5 _ Hs5. eapply run_recorded; [exact Hs5|]. intros s6 Hs6. rewrite <- !app_assoc in Hs6.
  eexists. split; [exact Hs6|]. right. split; [|right]; rewrite !elem_of_app, !list_elem_of_singleton; tauto.
Qed.

Lemma run_remaining apply verify record remaining s evs :
  safe s evs -> (forall d, d ∈ remaining -> dl_Classification d <> NoChange -> allowed evs d) ->
  run (rangeM (execute_delta (onFst (watch_call CallCtx ctx))
         (hk_RecoveryPoint (journaled_hooks path (watch_hooks hooks) (fun d value => watch_call (CallRecord d value) (record d value))))
         (fun d => onFst (watch_call (CallApply d) (apply d))) (fun d => onFst (watch_call (CallVerify d) (verify d)))
         (fun d value => onFst (watch_call (CallRecord d value) (record d value)) ;; record_journal path d value)) remaining)
    s (fun _ s' => exists evs', safe s' (evs ++ evs') /\ forall d, d ∈ remaining -> completed (evs ++ evs') d) sound.
Proof.
  intros Hs Hal.
  apply (run_mono _ _ (fun _ s' => exists evs', safe s' (evs ++ evs') /\ (forall d, d ∈ [] -> d ∈ remaining) /\
    forall d, d ∈ remaining -> d ∈ [] \/ completed (evs ++ evs') d) _ sound); [|done|].
  { intros [] s' (evs' & Hs' & _ & Hc). exists evs'. split; [done|]. intros d Hd.
    destruct (Hc d Hd) as [H|H]; [by apply not_elem_of_nil in H|done]. }
  apply (run_for (fun _ l s' => exists evs', safe s' (evs ++ evs') /\ (forall d, d ∈ l -> d ∈ remaining) /\
    forall d, d ∈ remaining -> d ∈ l \/ completed (evs ++ evs') d)).
  { exists []. rewrite app_nil_r. split_and!; [done|done|]. intros d Hd. by left. }
  intros [] d l s1 (evs1 & Hs1 & Hin & Hc).
  eapply run_mono; [|done|apply run_execute_delta; [exact Hs1|]].
  2:{ intros Hn. apply allowed_mono, Hal; [|done]. apply Hin. by left. }
  intros [] s2 (evs2 & Hs2 & Hd). rewrite <- !app_assoc in Hs2, Hd. exists (evs1 ++ evs2). split_and!.
  - exact Hs2.
  - intros d' Hd'. apply Hin. by right.
  - intros d' Hd'. destruct (Hc d' Hd') as [[->|Hl]%elem_of_cons|Hcd]; [by right|by left|].
    right. rewrite app_assoc. by apply completed_mono.
Qed.

Lemma run_Execute_journaled verify record remaining s evs :
  hk_Verify hooks = Some verify -> safe s evs ->
  (forall d, d ∈ remaining -> dl_Classification d <> NoChange -> allowed evs d) ->
  run (Execute (onFst (watch_call CallCtx ctx)) (mkPlan (pl_Release plan) remaining)
         (journaled_hooks path (watch_hooks hooks) (fun d value => watch_call (CallRecord d value) (record d value))))
    s (fun _ s' => exists evs', safe s' (evs ++ evs') /\ forall d, d ∈ remaining -> completed (evs ++ evs') d) sound.
Proof.
  intros Hv Hs Hal. unfold Execute. simpl. rewrite Hv. simpl.
  destruct (hk_Apply hooks) as [apply|]; simpl; [|apply run_pure; by eapply safe_sound].
  apply run_bind, run_pure.
  destruct (validateExecutionPlan _ _) as [[]|e]; [|by eapply safe_sound].
  apply run_bind, run_wrap, run_ret. by apply (run_remaining apply verify record).
Qed.

(** Admission only checks the context. *)
Lemma run_admit s evs :
  safe s evs ->
  run (rangeM (admit_step (watch_call CallCtx ctx) (watch_hooks hooks) j) (pl_Deltas plan)) s
    (fun _ s' => exists evs', safe s' (evs ++ evs')) sound.
Proof.
  intros Hs. apply (run_for (fun _ _ s' => exists evs', safe s' (evs ++ evs'))).
  { exists []. by rewrite app_nil_r. }
  intros [] d l s1 (evs1 & Hs1). unfold admit_step. step_call. intros s2 _ Hs2. rewrite <- app_assoc in Hs2.
  apply run_pure. destruct (reject _ _); [by eexists|by eapply safe_sound].
Qed.

(** After the recovery every interrupted step is recovered. *)
Lemma run_recover s evs :
  safe s evs ->
  run (rangeM (recover_step (watch_hooks hooks) j) (pl_Deltas plan)) s
    (fun _ s' => exists evs', safe s' (evs ++ evs') /\
       forall d, d ∈ pl_Deltas plan -> interrupted (step_state j d) = true ->
         (CallRecover d (step_state j d), true) ∈ evs ++ evs') sound.
Proof.
  intros Hs.
  apply (run_mono _ _ (fun _ s' => exists evs', safe s' (evs ++ evs') /\
    forall d, d ∈ pl_Deltas plan -> d ∈ [] \/ (interrupted (step_state j d) = true ->
      (CallRecover d (step_state j d), true) ∈ evs ++ evs')) _ sound); [|done|].
  { intros [] s' (evs' & Hs' & Hr). exists evs'. split; [done|]. intros d Hd.
    destruct (Hr d Hd) as [H|H]; [by apply not_elem_of_nil in H|done]. }
  apply (run_for (fun _ l s' => exists evs', safe s' (evs ++ evs') /\
    forall d, d ∈ pl_Deltas plan -> d ∈ l \/ (interrupted (step_state j d) = true ->
      (CallRecover d (step_state j d), true) ∈ evs ++ evs'))).
  { exists []. rewrite app_nil_r. split; [done|]. intros d Hd. by left. }
  intros [] d l s1 (evs1 & Hs1 & Hr). unfold recover_step.
  destruct (interrupted (step_state j d)) eqn:Hi.
  - simpl. destruct (hk_Recover hooks) as [f|]; simpl; [|apply run_bind, run_pure; by eapply safe_sound].
    apply run_bind, run_pure, run_wrap. eapply run_call; [exact Hs1|done| |intros; by eapply safe_sound].
    intros s2 _ Hs2. rewrite <- app_assoc in Hs2. eexists. split; [exact Hs2|].
    intros d' Hd'. destruct (Hr d' Hd') as [[->|Hl]%elem_of_cons|Hc]; [|by left|].
    + right. intros _. rewrite !elem_of_app, list_elem_of_singleton. tauto.
    + right. intros H%Hc. rewrite app_assoc, elem_of_app. by left.
  - apply run_ret. exists evs1. split; [done|]. intros d' Hd'.
    destruct (Hr d' Hd') as [[->|Hl]%elem_of_cons|Hc]; [right; congruence|by left|by right].
Qed.

(** The second pass verifies the verified steps again and keeps the others. *)
Lemma run_reverify verify s evs :
  safe s evs ->
  run (forM (reverify_step (watch_call CallCtx ctx) (fun d => watch_call (CallVerify d) (verify d)) j) [] (pl_Deltas plan)) s
    (fun remaining s' => exists evs', safe s' (evs ++ evs') /\
       (forall d, d ∈ remaining -> d ∈ pl_Deltas plan /\ (dl_Classification d = NoChange \/ step_state j d <> "verified")) /\
       forall d, d ∈ pl_Deltas plan -> d ∈ remaining \/ completed (evs ++ evs') d) sound.
Proof.
  intros Hs.
  apply (run_mono _ _ (fun remaining s' => exists evs', safe s' (evs ++ evs') /\
    (forall d, d ∈ remaining -> d ∈ pl_Deltas plan /\ (dl_Classification d = NoChange \/ step_state j d <> "verified")) /\
    (forall d, d ∈ [] -> d ∈ pl_Deltas plan) /\
    forall d, d ∈ pl_Deltas plan -> d ∈ [] \/ d ∈ remaining \/ completed (evs ++ evs') d) _ sound); [|done|].
  { intros rem s' (evs' & Hs' & Hrem & _ & Hr). exists evs'. split_and!; [done..|]. intros d Hd.
    destruct (Hr d Hd) as [H|H]; [by apply not_elem_of_nil in H|done]. }
  apply (run_for (fun remaining l s' => exists evs', safe s' (evs ++ evs') /\
    (forall d, d ∈ remaining -> d ∈ pl_Deltas plan /\ (dl_Classification d = NoChange \/ step_state j d <> "verified")) /\
    (forall d, d ∈ l -> d ∈ pl_Deltas plan) /\
    forall d, d ∈ pl_Deltas plan -> d ∈ l \/ d ∈ remaining \/ completed (evs ++ evs') d)).
  { exists []. rewrite app_nil_r. split_and!; [done|set_solver|done|]. intros d Hd. by left. }
  intros rem d l s1 (evs1 & Hs1 & Hrem & Hl & Hr). unfold reverify_step.
  step_call. intros s2 _ Hs2. rewrite <- app_assoc in Hs2.
  destruct (_ && _) eqn:Hc.
  - apply run_bind, run_wrap. eapply run_call; [exact Hs2|done| |intros; by eapply safe_sound].
    intros s3 _ Hs3. apply run_ret. rewrite <- !app_assoc in Hs3. eexists. split_and!; [exact Hs3|done|set_solver|].
    intros d' Hd'. apply andb_true_iff in Hc as [_ Hver%bool_decide_eq_true].
    destruct (Hr d' Hd') as [[->|Hin]%elem_of_cons|[Hin|Hcd]]; [right; right|by left|by right; left|right; right].
    + right. rewrite !elem_of_app, !list_elem_of_singleton. split; [tauto|by left].
    + rewrite app_assoc. by apply completed_mono.
  - apply run_ret. eexists. split_and!; [exact Hs2| |set_solver|].
    + intros d' [Hin|Heq%list_elem_of_singleton]%elem_of_app; [by apply Hrem|]. subst d'. split; [set_solver|].
      apply andb_false_iff in Hc. rewrite neqb_false, eqb_false in Hc. done.
    + intros d' Hd'. destruct (Hr d' Hd') as [[->|Hin]%elem_of_cons|[Hin|Hcd]].
      * right; left. set_solver.
      * by left.
      * right; left. set_solver.
      * right; right. rewrite app_assoc. by apply completed_mono.
Qed.
End resume.

Section resume_theorem.
Context {os : OS} {dirs : Dirs} {names : TempNames} {json : JournalJSON} {W : Type}.

Lemma execute_journaled_sound (hooks : Hooks W) ctx plan path j t0 s :
  trace_of s = t0 ->
  run (execute_journaled (watch_call CallCtx ctx) plan path (watch_hooks hooks) j) s
    (fun _ s' => exists evs, safe plan j t0 s' evs /\ forall d, d ∈ pl_Deltas plan -> completed j evs d)
    (sound plan j t0).
Proof.
  intros Ht.
  assert (Hs : safe plan j t0 s []).
  { split; [by rewrite app_nil_r|]. intros before d ok after Heq. by destruct before. }
  assert (sound plan j t0 s) as Hs0 by by exists [].
  unfold execute_journaled. simpl.
  destruct (hk_Verify hooks) as [verify|] eqn:Hv; simpl; [|by apply run_pure].
  destruct (hk_Record hooks) as [record|]; simpl; [|by apply run_pure].
  apply run_bind, run_pure. destruct (validateExecutionPlan _ _); [|done].
  apply run_bind. eapply run_mono; [|done|by apply (run_admit hooks)]. intros [] s1 (e1 & Hs1).
  destruct (hk_Preflight hooks) as [preflight|]; simpl; [|apply run_bind, run_pure; by eapply safe_sound].
  apply run_bind, run_pure. apply run_bind, run_wrap.
  eapply run_call; [exact Hs1|done| |intros; by eapply safe_sound]. intros s2 _ Hs2.
  apply run_bind. eapply run_mono; [|done|by apply (run_recover hooks)]. intros [] s3 (e3 & Hs3 & Hrec).
  apply run_bind. eapply run_mono; [|done|by apply (run_reverify ctx)].
  intros remaining s4 (e4 & Hs4 & Hrem & Hdone).
  eapply run_mono; [|done|apply (run_Execute_journaled hooks ctx plan path j t0 verify record); [done|exact Hs4|]].
  - intros [] s5 (e5 & Hs5 & Hc). eexists. split; [exact Hs5|]. intros d Hd.
    destruct (Hdone d Hd) as [Hin|H]; [by apply Hc|by apply completed_mono].
  - intros d Hin Hn. destruct (Hrem d Hin) as [Hd [Hno|Hver]]; [done|]. split_and!; [|done|done|].
    + rewrite !elem_of_app, list_elem_of_singleton. tauto.
    + intros Hi. apply elem_of_app. left. by apply Hrec.
Qed.
End resume_theorem.

(** C5: Resuming an update from its journal: nothing is applied before the
    preflight, nothing that the journal has as verified is applied again, and
    an interrupted step is applied only after its recovery.  When the update
    reports success, every step that changes something was verified in this
    very run, and recorded as verified in it unless the journal had it. *)
Theorem ExecuteJournaled_resume `{OS} `{Dirs} `{TempNames} `{JournalJSON} {W} (hooks : Hooks W) ctx plan path j w t dk w' t' dk' res :
  LoadJournal (dk_Files dk) path (pl_Release plan) = Ok j ->
  ExecuteJournaled (watch_call CallCtx ctx) plan path (watch_hooks hooks) ((w, t), dk) = (((w', t'), dk'), res) ->
  exists evs, t' = t ++ evs /\ applies_allowed plan j evs /\
    (res = Ok tt -> forall d, d ∈ pl_Deltas plan -> completed j evs d).
Proof.
  intros Hload Hex. unfold ExecuteJournaled in Hex. rewrite Hload in Hex.
  pose proof (execute_journaled_sound hooks ctx plan path j t ((w, t), (dk, j)) eq_refl) as Hr.
  destruct (execute_journaled _ _ _ _ _ _) as [[[w1 t1] [dk1 j1]] r] eqn:He. injection Hex as <- <- <- <-.
  apply (run_intro _ _ _ _ _ _ Hr) in He. destruct r as [[]|e].
  - destruct He as (evs & [Ht Ha] & Hc). by exists evs.
  - destruct He as (evs & [Ht Ha]). by exists evs.
Qed.

(** ** Durability of the journal *)

(** What encoding/json guarantees: texts it decodes are valid UTF-8
    ([journal_text], the identity on ASCII), the key is an array, it reads back
    what it wrote of valid texts, with or without the newline after it, and a
    part of an object is not a document. *)
Class JournalLaws (json : JournalJSON) := mkJournalLaws {
  journal_text : string -> string;
  journal_text_ascii : forall s, is_ascii s = true -> journal_text s = s;
  journal_key_array : forall xs, has_byte "["%char (journal_key xs) = true;
  journal_key_text : forall xs, journal_text (journal_key xs) = journal_key xs;
  journal_decoded : forall data release steps last, journal_decode data = Ok (release, Some steps, last) ->
    map_Forall (fun key value => journal_text key = key /\ journal_text value = value) steps;
  journal_roundtrip : forall release steps data tail, journal_text release = release ->
    map_Forall (fun key value => journal_text key = key /\ journal_text value = value) steps ->
    journal_encode release steps = Ok data -> tail ∈ [""; newline] ->
    journal_decode (data +:+ tail) = Ok (release, Some steps, true);
  journal_truncated : forall release steps data n, journal_encode release steps = Ok data -> (0 <= n < len data)%Z ->
    is_err (journal_decode (limit_bytes n data)) = true }.

Lemma limit_bytes_all n s : (len s <= n)%Z -> limit_bytes n s = s.
Proof.
  revert n. induction s as [|c s IH]; intros n; [done|]. unfold len, strlen in *. simpl. intros Hn.
  destruct (0 <? n)%Z eqn:H0; [|lia]. f_equal. apply IH. lia.
Qed.

Lemma len_app s t : len (s +:+ t) = (len s + len t)%Z.
Proof. unfold len. rewrite strlen_app. lia. Qed.

(** A limit below the length cuts the first part, one at its length the rest. *)
Lemma limit_bytes_app n s t : (0 <= n)%Z ->
  limit_bytes n (s +:+ t) = if (n <? len s)%Z then limit_bytes n s else s +:+ limit_bytes (n - len s) t.
Proof.
  revert n. induction s as [|c s IH]; intros n Hn.
  - change (len "") with 0%Z. rewrite Z.sub_0_r. by destruct (Z.ltb_spec n 0); [lia|].
  - change (len (String c s)) with (len (String c "" +:+ s)). rewrite len_app. change (len (String c "")) with 1%Z. simpl.
    destruct (Z.ltb_spec 0 n); [|by destruct (Z.ltb_spec n (1 + len s)); [|unfold len in *; lia]].
    rewrite IH by lia. destruct (Z.ltb_spec (n - 1) (len s)), (Z.ltb_spec n (1 + len s)); try lia; [done|].
    by rewrite (Z.sub_add_distr n 1).
Qed.

Section durable.
Context {os : OS} {json : JournalJSON} {laws : JournalLaws json}.
Context (path release : string) (release_text : journal_text release = release).
Context (readable : os_fault (OpLstat path) = None /\ os_fault (OpRead path) = None).

Definition journal_ok (steps : gmap string string) : Prop :=
  valid_entries steps = true /\ map_Forall (fun key value => journal_text key = key /\ journal_text value = value) steps.

Lemma LoadJournal_ok fs j :
  LoadJournal fs path release = Ok j ->
  TrimSpace release <> "" /\ jn_Release j = release /\ exists steps, jn_Steps j = Some steps /\ journal_ok steps.
Proof.
  unfold LoadJournal. rewrite reject_seq_Ok, eqb_false. intros [Hrel H]. split; [done|].
  destruct (Lstat fs path) as [info|err]; [|destruct (oe_NotExist err); [|done]].
  - apply reject_seq_Ok in H as [_ H]. apply bind_Ok in H as (data & _ & H).
    apply bind_Ok in H as ([[stored steps] last] & Hd & H).
    apply reject_seq_Ok in H as [Hc H]. apply reject_seq_Ok in H as [Hv H]. injection H as <-.
    apply orb_false_iff in Hc as [Hc Hs%bool_decide_eq_false]. apply orb_false_iff in Hc as [_ Hc].
    rewrite neqb_false in Hc. simpl. split; [done|]. destruct steps as [steps|]; [|done]. exists steps. split; [done|].
    split; [by apply negb_false_iff in Hv|]. by eapply journal_decoded.
  - injection H as <-. simpl. split; [done|]. exists ∅. split; [done|]. split; [|apply map_Forall_empty].
    unfold valid_entries. by rewrite bool_decide_eq_true_2 by apply map_Forall_empty.
Qed.

Lemma LoadJournal_same fs fs' : fs !! path = fs' !! path -> LoadJournal fs path release = LoadJournal fs' path release.
Proof. intros Hf. unfold LoadJournal, Lstat, ReadFile. by rewrite Hf. Qed.

(** A file that was written is read back when its text is not longer than what
    is read of it, and refused otherwise. *)
Lemma LoadJournal_written fs steps data :
  TrimSpace release <> "" -> journal_ok steps -> journal_encode release steps = Ok data ->
  fs !! path = Some (mkFile (data +:+ newline) true owner_only) ->
  if (len data <=? 2 ^ 20)%Z then LoadJournal fs path release = Ok (mkJournal release (Some steps))
  else is_err (LoadJournal fs path release) = true.
Proof.
  intros Hrel [Hv Ht] Hd Hf. unfold LoadJournal, Lstat, ReadFile. destruct readable as [-> ->]. rewrite Hf. simpl.
  rewrite (proj2 (eqb_false _ _) Hrel). simpl. rewrite limit_bytes_app by lia.
  destruct (Z.leb_spec (len data) (2 ^ 20)) as [Hl|Hl], (Z.ltb_spec (2 ^ 20) (len data)); try lia.
  - rewrite (journal_roundtrip release steps data _ release_text Ht Hd).
    + simpl. rewrite (proj2 (neqb_false release release) eq_refl), Hv. done.
    + simpl. destruct (_ <? _)%Z; [right; left|left].
  - pose proof (journal_truncated release steps data (2 ^ 20) Hd ltac:(lia)) as He.
    by destruct (journal_decode _).
Qed.

Lemma known_entry steps d state :
  journal_ok steps -> validJournalState state = true -> journal_ok (<[JournalKey d := state]> steps).
Proof.
  intros [Hv Ht] Hs. unfold valid_entries in *. apply bool_decide_eq_true in Hv. split.
  - apply bool_decide_eq_true. apply map_Forall_insert_2; [|done]. split; [|done].
    apply (TrimSpace_nonempty "["%char); [by vm_compute|apply journal_key_array].
  - apply map_Forall_insert_2; [|done]. split; [apply journal_key_text|]. apply journal_text_ascii.
    unfold validJournalState in Hs. apply bool_decide_eq_true in Hs.
    rewrite !elem_of_cons, elem_of_nil in Hs. destruct_or!; subst; done.
Qed.
End durable.

(** The file at [path] is the complete encoding of [steps], which loads when
    [LoadJournal] reads all of it. *)
Definition recorded `{OS} `{JournalJSON} (path release : string) (steps : gmap string string) (fs : fsys) : Prop :=
  exists data, journal_encode release steps = Ok data /\ fs !! path = Some (mkFile (data +:+ newline) true owner_only) /\
    if (len data <=? 2 ^ 20)%Z then LoadJournal fs path release = Ok (mkJournal release (Some steps))
    else is_err (LoadJournal fs path release) = true.

(** C17: Recording a state is atomic and loses nothing, whatever fails and
    wherever the process stops: at every moment the file is the one before,
    which loads as the journal before, or the complete new one, in which every
    entry that was verified still is.  When no error is reported the new one is
    there and the journal in memory has the entry; otherwise the journal in
    memory is as before.  For a reader that can read the file, and a release
    whose text JSON preserves, the new file loads as the journal with the entry
    when its encoding has at most 2^20 bytes; a longer one is written all the
    same, and refused by [LoadJournal].  (The temporary file is not the journal
    itself.) *)
Theorem Journal_Record_durable {os reader : OS} `{Dirs} `{TempNames} {json : JournalJSON} {laws : JournalLaws json}
  path release j d state dk dk' j' res :
  journal_text release = release ->
  @os_fault reader (OpLstat path) = None /\ @os_fault reader (OpRead path) = None ->
  temp_name (dir_of path) ".core-update-*" <> path ->
  LoadJournal (os := reader) (dk_Files dk) path release = Ok j ->
  Journal_Record (os := os) (Some j) path d state dk = (dk', (j', res)) ->
  let steps := <[JournalKey d := state]> (steps_of j) in
  exists visited, dk_History dk' = visited ++ dk_History dk /\ dk_Files dk' ∈ dk_Files dk :: visited /\
    Forall (fun fs => fs !! path = dk_Files dk !! path /\ LoadJournal (os := reader) fs path release = Ok j \/
      (recorded (H := reader) path release steps fs /\
       forall key, steps_of j !! key = Some "verified" -> steps !! key = Some "verified")) visited /\
    if is_ok res then recorded (H := reader) path release steps (dk_Files dk') /\ j' = Some (mkJournal release (Some steps))
    else j' = Some j.
Proof.
  intros Htext Hread Hname Hload Hrec steps.
  destruct (LoadJournal_ok (os := reader) path release _ _ Hload) as (Hrel & Hjr & old & Hold & Hok).
  assert (steps_of j = old) as Hst by (unfold steps_of; by rewrite Hold).
  unfold Journal_Record in Hrec. destruct (next_steps (Some j) d state) as [[current next]|e] eqn:Hn;
    [|injection Hrec as <- <- <-; exists []; split_and!; [done|left|constructor|done]].
  unfold next_steps in Hn. inv_ok Hn. injection Hn as <- <-. rewrite Hjr in Hrec.
  apply orb_false_iff in Hc as [_ Hvalid%negb_false_iff].
  assert (forall key, steps_of j !! key = Some "verified" -> steps !! key = Some "verified") as Hkeep.
  { intros key Hkey. unfold steps. destruct (decide (key = JournalKey d)) as [->|Hne]; [|by rewrite lookup_insert_ne].
    rewrite lookup_insert_eq. unfold step_state in Hc1. rewrite Hkey in Hc1. simpl in Hc1.
    rewrite neqb_false in Hc1. by rewrite Hc1. }
  destruct (journal_encode release _) as [data|e] eqn:Hd;
    [|injection Hrec as <- <- <-; exists []; split_and!; [done|left|constructor|done]].
  destruct (private_dir _ _) as [[]|e]; [|injection Hrec as <- <- <-; exists []; split_and!; [done|left|constructor|done]].
  destruct (replace_synced _ _ _ _ _) as [dk1 written] eqn:Hw.
  apply replace_synced_atomic in Hw as [(v & Hv & Hin & Hp & _) Hf]; [|done].
  assert (forall fs, fs !! path = Some (mkFile (data +:+ newline) true owner_only) -> recorded (H := reader) path release steps fs) as Hnew.
  { intros fs Hfs. exists data. split_and!; [done|done|]. apply (LoadJournal_written (os := reader) path release Htext Hread); [done| |done|done].
    unfold steps. rewrite Hst. by apply known_entry. }
  assert (Forall (fun fs => fs !! path = dk_Files dk !! path /\ LoadJournal (os := reader) fs path release = Ok j \/
      (recorded (H := reader) path release steps fs /\
       forall key, steps_of j !! key = Some "verified" -> steps !! key = Some "verified")) v) as Hall.
  { eapply Forall_impl; [exact Hp|]. intros fs [Hfs|[_ Hfs]]; [left|right; by auto]. split; [done|].
    rewrite <- Hload. by apply (LoadJournal_same (os := reader)). }
  destruct written as [[]|e]; injection Hrec as <- <- <-; exists v; (split; [done|]; split; [done|]; split; [done|]); [split; [by apply Hnew, Hf|done]|done].
Qed.

(** ** A sample *)

(** The end of a text is marked. *)
Definition marked (s : string) : string := s +:+ "}".

Lemma text_bits_marked p s : text_bits (marked (bits_text p) +:+ s) = p.
Proof. unfold marked. induction p as [p IH|p IH|]; simpl; by rewrite ?IH. Qed.

Lemma limit_bytes_marked p n : (n < len (marked (bits_text p)))%Z -> has_byte "}"%char (limit_bytes n (marked (bits_text p))) = false.
Proof.
  unfold marked, len, strlen. revert n. induction p as [p IH|p IH|]; intros n; simpl; intros Hn;
    (destruct (0 <? n)%Z eqn:H0; [|done]); simpl; [apply IH; lia|apply IH; lia|lia].
Qed.

Definition sample_journal_json : JournalJSON :=
  mkJournalJSON (fun xs => "[" +:+ Join xs ",") (fun release steps => Ok (marked (encode_text (release, map_to_list steps))))
    (fun data => match (if has_byte "}"%char data then decode_text data else None) with
                 | Some (release, steps) => Ok (release, Some (list_to_map steps), true)
                 | None => Err (errorsNew "unexpected end of JSON input")
                 end).

Definition sample_journal_laws : JournalLaws sample_journal_json.
Proof.
  refine (mkJournalLaws sample_journal_json (fun s => s) _ _ _ _ _ _).
  - done.
  - done.
  - done.
  - intros data release steps last _ key value _. done.
  - intros release steps data tail _ _ Hd _. injection Hd as <-. unfold journal_decode, sample_journal_json.
    replace (has_byte "}"%char (marked _ +:+ tail)) with true by (unfold marked; by rewrite !has_byte_app, orb_true_r).
    unfold decode_text, encode_text. rewrite text_bits_marked, decode_encode. by rewrite list_to_map_to_list.
  - intros release steps data n Hd Hn. injection Hd as <-. unfold journal_decode, sample_journal_json.
    unfold encode_text in *. rewrite limit_bytes_marked by apply Hn. done.
Defined.

Definition sample_journal_os : OS := mkOS (fun _ => None) (fun _ f => f).
Definition sample_dirs : Dirs := fun _ => Ok (true, 448%Z).
Definition sample_names : TempNames := fun dir _ => dir +:+ "/.core-update-1".
Definition sample_journal_path : string := "/core/update.json".
Definition sample_sql : Delta := hd (mkDelta (mkRealization "" "" "" "" "" "" "" "") zero_Desired "" "") (pl_Deltas sample_plan).
Definition sample_journal : Journal := mkJournal "0.9.0" (Some ∅).
Definition sample_record : disk * (option Journal * result error unit) :=
  Journal_Record (os := sample_journal_os) (dirs := sample_dirs) (names := sample_names) (json := sample_journal_json)
    (Some sample_journal) sample_journal_path sample_sql "applying" (mkDisk ∅ []).

Lemma encoded_size (r : result error string) n :
  match r with Ok data => (len data < n)%Z | Err _ => False end -> forall data, r = Ok data -> (len data < n)%Z.
Proof. intros H data ->. exact H. Qed.

Lemma Journal_Record_durable_witness :
  snd (snd sample_record) = Ok tt /\
  recorded (H := sample_journal_os) (H0 := sample_journal_json) sample_journal_path "0.9.0"
    {[JournalKey (json := sample_journal_json) sample_sql := "applying"]} (dk_Files (fst sample_record)).
Proof.
  assert (Hr : snd (snd sample_record) = Ok tt) by (vm_compute; reflexivity). split; [exact Hr|].
  destruct (Journal_Record_durable (os := sample_journal_os) (reader := sample_journal_os) (H := sample_dirs) (H0 := sample_names)
    (laws := sample_journal_laws) sample_journal_path "0.9.0" sample_journal sample_sql "applying" (mkDisk ∅ [])
    (fst sample_record) (fst (snd sample_record)) (snd (snd sample_record))) as (visited & _ & _ & _ & Hok).
  - reflexivity.
  - split; reflexivity.
  - discriminate.
  - vm_compute. reflexivity.
  - unfold sample_record. destruct (Journal_Record _ _ _ _ _) as [? [? ?]]. reflexivity.
  - rewrite Hr in Hok. exact (proj1 Hok).
Defined.

Definition sample_resume_hooks : Hooks unit :=
  mkHooks (Some (fun _ s => (s, Ok tt))) (Some (fun _ s => (s, Ok tt))) (Some (fun _ _ s => (s, Ok tt)))
    (Some (fun _ s => (s, Ok tt))) (Some (fun _ s => (s, Ok tt))) (Some (fun _ _ s => (s, Ok tt))).

(** The update of the sample plan is resumed after its first step was
    interrupted while it was applied. *)
Definition sample_resumed : (unit * list event * disk) * result error unit :=
  ExecuteJournaled (os := sample_journal_os) (dirs := sample_dirs) (names := sample_names) (json := sample_journal_json)
    (watch_call CallCtx sample_ctx) sample_plan sample_journal_path (watch_hooks sample_resume_hooks)
    ((tt, []), fst sample_record).

Definition sample_interrupted : Journal :=
  mkJournal "0.9.0" (Some {[JournalKey (json := sample_journal_json) sample_sql := "applying"]}).

Lemma ExecuteJournaled_resume_witness :
  exists evs, snd (fst (fst sample_resumed)) = [] ++ evs /\
    (CallApply sample_sql, true) ∈ evs /\
    applies_allowed (json := sample_journal_json) sample_plan sample_interrupted evs.
Proof.
  assert (Hin : (CallApply sample_sql, true) ∈ snd (fst (fst sample_resumed))).
  { apply (bool_decide_unpack _). vm_compute. exact I. }
  destruct (ExecuteJournaled_resume (H := sample_journal_os) (H0 := sample_dirs) (H1 := sample_names) (H2 := sample_journal_json)
    sample_resume_hooks sample_ctx sample_plan sample_journal_path sample_interrupted tt [] (fst sample_record)
    (fst (fst (fst sample_resumed))) (snd (fst (fst sample_resumed))) (snd (fst sample_resumed)) (snd sample_resumed))
    as (evs & Hevs & Ha & _).
  - vm_compute. reflexivity.
  - unfold sample_resumed. destruct (ExecuteJournaled _ _ _ _ _) as [[[? ?] ?] ?]. reflexivity.
  - exists evs. split; [exact Hevs|]. split; [|exact Ha]. rewrite Hevs in Hin. exact Hin.
Defined.
