(* ===== verification/Patroni.v ===== *)
(** * Rolling a Patroni cluster (internal/coreupdate: patroni_quorum.go,
    patroni_readiness.go, patroni_wait.go, patroni_rolling.go, patroni_resume.go,
    patroni_cluster_roll.go, dcs_recovery_contract.go)

    The three members of a PostgreSQL cluster are replaced one by one, replicas
    first, and leadership is switched over before the old primary is replaced.
    The cluster is reached through a gate, an interface whose operations act on
    an arbitrary state. *)

From S2P Require Import Prelude GoStrings Effects UpdatePlan.

(** ** Quorum *)

Record PatroniMemberState := mkMember {
  pm_Name : string;
  pm_Primary : bool;
  pm_Replica : bool;
  pm_ReplayLag : Z;
  pm_Healthy : bool }.

Global Instance PatroniMemberState_eq_dec : EqDecision PatroniMemberState.
Proof. solve_decision. Defined.

Record tally := mkTally {
  ta_seen : gset string;
  ta_primary : string;
  ta_replicas : list string }.

Definition count_member (maxReplayLag : Z) (t : tally) (member : PatroniMemberState) : result error tally :=
  reject ((pm_Name member == "") || bool_decide (pm_Name member ∈ ta_seen t) || negb (pm_Healthy member) ||
          (pm_Primary member == pm_Replica member) || (pm_ReplayLag member <? 0)%Z)
    (Errorf "Patroni member %q has unknown, duplicate or unsafe state" [AStr (pm_Name member)]) ;;
  let seen := {[pm_Name member]} ∪ ta_seen t in
  if pm_Primary member then
    reject (ta_primary t != "") (errorsNew "Patroni split brain: multiple primaries") ;;
    Ok (mkTally seen (pm_Name member) (ta_replicas t))
  else
    reject (maxReplayLag <? pm_ReplayLag member)%Z
      (Errorf "Patroni replica %s exceeds permitted replay lag" [AStr (pm_Name member)]) ;;
    Ok (mkTally seen (ta_primary t) (ta_replicas t ++ [pm_Name member])).

(** The check of a snapshot: the primary and the sorted replicas. *)
Definition quorum_of (members : list PatroniMemberState) (maxReplayLag : Z) : result error (string * list string) :=
  reject ((maxReplayLag <? 0)%Z || (length members != 3%nat))
    (errorsNew "Patroni HA requires three verified members and a nonnegative replay-lag budget") ;;
  t ← forE (count_member maxReplayLag) (mkTally ∅ "" []) members;
  reject ((ta_primary t == "") || (length (ta_replicas t) != 2%nat))
    (errorsNew "Patroni leader or two healthy replicas missing") ;;
  Ok (ta_primary t, sort_strings (ta_replicas t)).

(** ** The interfaces *)

Record DCSRecoveryEvidence := mkEvidence {
  ev_Installation : string;
  ev_Target : string;
  ev_Cluster : string;
  ev_Release : string;
  ev_SnapshotID : string;
  ev_SHA256 : string }.

(** PatroniRollingGate, PatroniRollingResume and PatroniSwitchoverGate. *)
Record Gate (S : Type) := mkGate {
  gt_VerifyRecovery : M S unit;
  gt_Inspect : M S (list PatroniMemberState);
  gt_Recreate : string -> M S unit;
  gt_VerifyMemberImage : string -> M S unit;
  gt_Record : string -> string -> M S unit;
  gt_StepState : string -> M S string;
  gt_RecoverInterrupted : string -> string -> M S unit;
  gt_Switchover : string -> string -> M S unit }.

Record DCSRecoveryAdapter (S : Type) := mkAdapter {
  da_Snapshot : M S DCSRecoveryEvidence;
  da_Validate : DCSRecoveryEvidence -> M S unit;
  da_VerifyRestorable : DCSRecoveryEvidence -> M S unit;
  da_Restore : DCSRecoveryEvidence -> M S unit }.

(** A context: [ctx.Err()], and of a context bounded by a timeout its [Err()],
    how many ticks a waiting loop receives before the end of the context is
    selected, and the error it then reports. *)
Record Ctx (S : Type) := mkCtx {
  cx_Err : M S unit;
  cx_BoundedErr : M S unit;
  cx_Ticks : S -> nat;
  cx_Done : S -> error }.

Arguments mkGate {S}.
Arguments gt_VerifyRecovery {S}.
Arguments gt_Inspect {S}.
Arguments gt_Recreate {S}.
Arguments gt_VerifyMemberImage {S}.
Arguments gt_Record {S}.
Arguments gt_StepState {S}.
Arguments gt_RecoverInterrupted {S}.
Arguments gt_Switchover {S}.
Arguments mkAdapter {S}.
Arguments da_Snapshot {S}.
Arguments da_Validate {S}.
Arguments da_VerifyRestorable {S}.
Arguments da_Restore {S}.
Arguments mkCtx {S}.
Arguments cx_Err {S}.
Arguments cx_BoundedErr {S}.
Arguments cx_Ticks {S}.
Arguments cx_Done {S}.

Section roll.
Context {S : Type} (ctx : Ctx S).

Definition VerifyPatroniQuorum (err : M S unit) (members : list PatroniMemberState) (maxReplayLag : Z)
    : M S (string * list string) :=
  err ;; pureM (quorum_of members maxReplayLag).

(** ** Recovery evidence (dcs_recovery_contract.go) *)

Definition ErrDCSUnsupported : error :=
  errorsNew "UNSUPPORTED: durable etcd DCS snapshot and verified restore adapter unavailable".
Definition ErrDCSInvalidEvidence : error := errorsNew "invalid etcd DCS recovery evidence".

(** Installation, target, cluster and release of an update. *)
Record identity := mkIdentity {
  id_installation : string;
  id_target : string;
  id_cluster : string;
  id_release : string }.

Definition evidence_matches (evidence : DCSRecoveryEvidence) (i : identity) : bool :=
  negb ((id_installation i == "") || (id_target i == "") || (id_cluster i == "") || (id_release i == "") ||
        (ev_Installation evidence != id_installation i) || (ev_Target evidence != id_target i) ||
        (ev_Cluster evidence != id_cluster i) || (ev_Release evidence != id_release i) ||
        (ev_SnapshotID evidence == "") || negb (validDigest ("sha256:" +:+ ev_SHA256 evidence))).

Definition validateDCSEvidence (adapter : option (DCSRecoveryAdapter S)) (evidence : DCSRecoveryEvidence) (i : identity)
    : M S (DCSRecoveryAdapter S) :=
  cx_Err ctx ;;
  adapter ← pureM (requireM adapter ErrDCSUnsupported);
  checkM (negb (evidence_matches evidence i)) ErrDCSInvalidEvidence ;;
  wrapM (fun err => Errorf "etcd snapshot validation failed: %w" [ATxt err]) (da_Validate adapter evidence) ;;
  mret adapter.

Definition VerifyDCSEvidence (adapter : option (DCSRecoveryAdapter S)) (evidence : DCSRecoveryEvidence) (i : identity)
    : M S unit :=
  adapter ← validateDCSEvidence adapter evidence i;
  wrapM (fun err => Errorf "etcd snapshot recovery verification failed: %w" [ATxt err]) (da_VerifyRestorable adapter evidence).

Definition CaptureAndVerifyDCS (adapter : option (DCSRecoveryAdapter S)) (i : identity) : M S DCSRecoveryEvidence :=
  present ← pureM (requireM adapter ErrDCSUnsupported);
  evidence ← wrapM (fun err => Errorf "etcd DCS snapshot creation failed: %w" [ATxt err]) (da_Snapshot present);
  VerifyDCSEvidence adapter evidence i ;;
  mret evidence.

(** ** Waiting (patroni_readiness.go, patroni_wait.go) *)

(** One turn of the loop: the leader, or why there is none. *)
Definition poll_quorum (gate : Gate S) (maxLag : Z) : M S (result error string) :=
  tryM (members ← gt_Inspect gate;
        '(leader, _) ← VerifyPatroniQuorum (cx_BoundedErr ctx) members maxLag;
        mret leader).

Fixpoint wait_quorum (gate : Gate S) (expectedLeader : string) (maxLag : Z) (done : error) (ticks : nat) : M S unit :=
  polled ← poll_quorum gate maxLag;
  match polled with
  | Ok leader =>
      checkM (leader != expectedLeader)
        (Errorf "Patroni unexpected leader %s (wanted %s)" [AStr leader; AStr expectedLeader])
  | Err lastErr =>
      match ticks with
      | O => pureM (Err (Errorf "Patroni quorum readiness not restored: %v: %w" [ATxt lastErr; ATxt done]))
      | Datatypes.S ticks => wait_quorum gate expectedLeader maxLag done ticks
      end
  end.

Definition WaitForPatroniQuorum (gate : Gate S) (expectedLeader : string) (maxLag timeout : Z) : M S unit := fun s =>
  (checkM ((expectedLeader == "") || (timeout <=? 0)%Z) (errorsNew "invalid Patroni readiness contract") ;;
   wait_quorum gate expectedLeader maxLag (cx_Done ctx s) (cx_Ticks ctx s)) s.

(** [math.MaxInt64] *)
Definition max_int64 : Z := 2 ^ 63 - 1.

Fixpoint await_quorum (inspect : M S (list PatroniMemberState)) (expectedLeader : string) (done : error) (ticks : nat)
    : M S string :=
  cx_Err ctx ;;
  members ← inspect;
  '(leader, _) ← VerifyPatroniQuorum (cx_Err ctx) members max_int64;
  checkM ((expectedLeader != "") && (leader != expectedLeader))
    (Errorf "Patroni leader changed while establishing recovery evidence; replan required" []) ;;
  caught_up ← tryM (VerifyPatroniQuorum (cx_Err ctx) members 0);
  if is_ok caught_up then mret leader
  else match ticks with
  | O => pureM (Err (Errorf "Patroni standbys did not reach verified zero replay lag: %w" [ATxt done]))
  | Datatypes.S ticks => await_quorum inspect leader done ticks
  end.

Definition AwaitPatroniQuorum (expectedLeader : string) (interval : Z) (inspect : option (M S (list PatroniMemberState)))
    : M S string := fun s =>
  match inspect with
  | None => (s, Err (Errorf "Patroni quorum requires an inspector and nonnegative poll interval" []))
  | Some inspect =>
      if (interval <? 0)%Z then (s, Err (Errorf "Patroni quorum requires an inspector and nonnegative poll interval" []))
      else await_quorum inspect expectedLeader (cx_Done ctx s) (cx_Ticks ctx s) s
  end.

(** ** Rolling the replicas (patroni_rolling.go, patroni_resume.go) *)

Definition verifiedPatroniSnapshot (gate : Gate S) (maxLag : Z) : M S (string * list string) :=
  snapshot ← gt_Inspect gate;
  VerifyPatroniQuorum (cx_Err ctx) snapshot maxLag.

Definition same_leader (gate : Gate S) (maxLag : Z) (leader message : string) : M S unit :=
  '(current, _) ← verifiedPatroniSnapshot gate maxLag;
  checkM (current != leader) (errorsNew message).

Definition roll_replica (gate : Gate S) (maxLag : Z) (leader replica : string) : M S unit :=
  cx_Err ctx ;;
  same_leader gate maxLag leader "Patroni primary changed during rolling update; stop and replan" ;;
  gt_VerifyRecovery gate ;;
  gt_Record gate replica "applying" ;;
  wrapM (fun err => Errorf "recreate Patroni replica %s: %w" [AStr replica; ATxt err]) (gt_Recreate gate replica) ;;
  gt_VerifyMemberImage gate replica ;;
  same_leader gate maxLag leader "Patroni leader changed during replica verification" ;;
  gt_Record gate replica "verified".

Definition RollPatroniMembers (gate : option (Gate S)) (maxLag : Z) : M S unit :=
  gate ← pureM (requireM gate (errorsNew "Patroni rolling update requires recovery and runtime gates"));
  wrapM (fun err => Errorf "Patroni rolling recovery preflight: %w" [ATxt err]) (gt_VerifyRecovery gate) ;;
  '(leader, replicas) ← verifiedPatroniSnapshot gate maxLag;
  rangeM (roll_replica gate maxLag leader) replicas ;;
  pureM (Err (Errorf "UNSUPPORTED: Patroni primary %s requires an explicit controlled switchover and verified journal resume"
    [AStr leader])).

Definition interrupted_state (state : string) : bool :=
  bool_decide (state ∈ ["applying"; "apply_failed"; "verify_failed"]).

Definition resume_replica (gate : Gate S) (maxLag : Z) (leader replica : string) : M S unit :=
  cx_Err ctx ;;
  state ← gt_StepState gate replica;
  (if state == "verified" then
     wrapM (fun err => Errorf "previously verified replica %s changed: %w" [AStr replica; ATxt err])
       (gt_VerifyMemberImage gate replica)
   else if interrupted_state state then
     wrapM (fun err => Errorf "interrupted replica %s must be recovered: %w" [AStr replica; ATxt err])
       (gt_RecoverInterrupted gate replica state) ;;
     gt_VerifyMemberImage gate replica ;;
     gt_Record gate replica "verified"
   else if state == "" then
     same_leader gate maxLag leader "Patroni primary changed during resume" ;;
     gt_VerifyRecovery gate ;;
     gt_Record gate replica "applying" ;;
     wrapM (fun err => Errorf "replica %s mutation interrupted: %w" [AStr replica; ATxt err]) (gt_Recreate gate replica) ;;
     gt_VerifyMemberImage gate replica ;;
     gt_Record gate replica "verified"
   else pureM (Err (Errorf "unsupported Patroni journal state for %s" [AStr replica]))) ;;
  same_leader gate maxLag leader "Patroni leader changed during replica resume".

Definition RollPatroniMembersResumable (gate : option (Gate S)) (maxLag : Z) : M S unit :=
  gate ← pureM (requireM gate (errorsNew "Patroni resume requires durable recovery and journal"));
  wrapM (fun err => Errorf "Patroni recovery preflight: %w" [ATxt err]) (gt_VerifyRecovery gate) ;;
  '(leader, replicas) ← verifiedPatroniSnapshot gate maxLag;
  rangeM (resume_replica gate maxLag leader) replicas ;;
  pureM (Err (Errorf "UNSUPPORTED: Patroni primary %s requires controlled switchover" [AStr leader])).
(** ** Rolling the cluster (patroni_cluster_roll.go) *)

(** 30 * time.Second in nanoseconds *)
Definition thirty_seconds : Z := 30000000000.

Definition wait (gate : Gate S) (leader : string) (maxLag : Z) : M S unit :=
  WaitForPatroniQuorum gate leader maxLag thirty_seconds.

(** The former primary among the replicas: the one whose step was interrupted. *)
Definition find_former (gate : Gate S) (former replica : string) : M S string :=
  state ← gt_StepState gate replica;
  if state == "verified" then
    gt_VerifyMemberImage gate replica ;; mret former
  else if interrupted_state state then
    checkM (former != "") (errorsNew "UNSUPPORTED: multiple interrupted Patroni replicas; manual reconciliation required") ;;
    mret replica
  else fail "UNSUPPORTED: interrupted Patroni leader timeline is ambiguous".

Definition resumePatroniAfterSwitchover (gate : Gate S) (leader : string) (replicas : list string) (leaderState : string)
    (maxLag : Z) : M S unit :=
  checkM ((leaderState != "verified") || (length replicas != 2%nat))
    (errorsNew "UNSUPPORTED: current leader already has upgrade journal state; reconcile original switchover before resume") ;;
  gt_VerifyMemberImage gate leader ;;
  former ← forM (find_former gate) "" replicas;
  if former == "" then wait gate leader maxLag
  else
    gt_VerifyRecovery gate ;;
    wrapM (fun err => Errorf "promoted Patroni leader is unverified: %w" [ATxt err]) (wait gate leader maxLag) ;;
    onErrM (gt_VerifyMemberImage gate former)
      (fun _ => wrapM (fun err => Errorf "recreate verified old-primary replica %s: %w" [AStr former; ATxt err])
                  (gt_Recreate gate former))
      (fun _ => mret tt) ;;
    gt_VerifyMemberImage gate former ;;
    wrapM (fun err => Errorf "leader drift on interrupted Patroni recovery: %w" [ATxt err]) (wait gate leader maxLag) ;;
    gt_Record gate former "verified".

Definition cluster_replica (gate : Gate S) (dcs : option (DCSRecoveryAdapter S)) (evidence : DCSRecoveryEvidence)
    (i : identity) (maxLag : Z) (leader replica : string) : M S unit :=
  state ← gt_StepState gate replica;
  (if state == "verified" then gt_VerifyMemberImage gate replica
   else if interrupted_state state then
     gt_RecoverInterrupted gate replica state ;;
     gt_VerifyMemberImage gate replica
   else if state == "" then
     VerifyDCSEvidence dcs evidence i ;;
     gt_VerifyRecovery gate ;;
     same_leader gate maxLag leader "Patroni leader changed before replica mutation" ;;
     gt_Record gate replica "applying" ;;
     wrapM (fun err => Errorf "rolling replica %s: %w" [AStr replica; ATxt err]) (gt_Recreate gate replica) ;;
     gt_VerifyMemberImage gate replica
   else pureM (Err (Errorf "unsupported Patroni journal state %s" [AStr state]))) ;;
  wait gate leader maxLag ;;
  if state != "verified" then gt_Record gate replica "verified" else mret tt.

(** Leadership goes to [candidate]; then the old primary is replaced. *)
Definition cluster_primary (gate : Gate S) (dcs : option (DCSRecoveryAdapter S)) (evidence : DCSRecoveryEvidence)
    (i : identity) (maxLag : Z) (leader candidate : string) : M S unit :=
  state ← gt_StepState gate leader;
  checkM (state == "verified")
    (errorsNew "old-primary journal contradicts current leader identity; manual reconciliation required") ;;
  VerifyDCSEvidence dcs evidence i ;;
  gt_VerifyRecovery gate ;;
  (if state == "" then
     gt_Record gate leader "applying" ;;
     wrapM (fun err => Errorf "Patroni switchover outcome must be inspected before resume: %w" [ATxt err])
       (gt_Switchover gate leader candidate)
   else checkM (negb (interrupted_state state)) (Errorf "unsupported old-primary journal state %q" [AStr state])) ;;
  wrapM (fun err => Errorf "Patroni switchover not proven; refusing old primary mutation: %w" [ATxt err])
    (wait gate candidate maxLag) ;;
  (if state != "" then gt_RecoverInterrupted gate leader state else gt_Recreate gate leader) ;;
  gt_VerifyMemberImage gate leader ;;
  wrapM (fun err => Errorf "Patroni leader drift after old primary reconciliation: %w" [ATxt err])
    (wait gate candidate maxLag) ;;
  gt_Record gate leader "verified".

Definition RollPatroniCluster (gate : option (Gate S)) (dcs : option (DCSRecoveryAdapter S)) (evidence : DCSRecoveryEvidence)
    (i : identity) (maxLag : Z) : M S unit :=
  gate ← pureM (requireM gate (errorsNew "native Patroni rolling provider is unavailable"));
  VerifyDCSEvidence dcs evidence i ;;
  wrapM (fun err => Errorf "PostgreSQL physical recovery proof: %w" [ATxt err]) (gt_VerifyRecovery gate) ;;
  '(leader, replicas) ← verifiedPatroniSnapshot gate maxLag;
  leaderState ← gt_StepState gate leader;
  if leaderState != "" then resumePatroniAfterSwitchover gate leader replicas leaderState maxLag
  else
    rangeM (cluster_replica gate dcs evidence i maxLag leader) replicas ;;
    cluster_primary gate dcs evidence i maxLag leader (hd "" replicas).

Definition PrepareAndRollPatroniCluster (gate : option (Gate S)) (dcs : option (DCSRecoveryAdapter S)) (i : identity)
    (maxLag : Z) : M S unit :=
  present ← pureM (requireM gate (errorsNew "native Patroni rolling provider is unavailable"));
  wrapM (fun err => Errorf "PostgreSQL physical recovery proof: %w" [ATxt err]) (gt_VerifyRecovery present) ;;
  evidence ← CaptureAndVerifyDCS dcs i;
  RollPatroniCluster gate dcs evidence i maxLag.
End roll.

(** ** Calls *)

Inductive gate_event : Type :=
| EvVerifyRecovery (ok : bool)
| EvInspect (answer : option (list PatroniMemberState))
| EvRecreate (name : string) (ok : bool)
| EvVerifyMemberImage (name : string) (ok : bool)
| EvRecord (name state : string) (ok : bool)
| EvStepState (name : string) (answer : option string)
| EvRecover (name state : string) (ok : bool)
| EvSwitchover (leader candidate : string) (ok : bool).

Global Instance gate_event_eq_dec : EqDecision gate_event.
Proof. solve_decision. Defined.

Definition answer_of {A} (r : result error A) : option A := match r with Ok a => Some a | Err _ => None end.

Section watched.
Context {S : Type}.
Abbreviation T := (S * list gate_event)%type.

Definition watch_gate (g : Gate S) : Gate T :=
  mkGate (watch (fun r => EvVerifyRecovery (is_ok r)) (gt_VerifyRecovery g))
    (watch (fun r => EvInspect (answer_of r)) (gt_Inspect g))
    (fun name => watch (fun r => EvRecreate name (is_ok r)) (gt_Recreate g name))
    (fun name => watch (fun r => EvVerifyMemberImage name (is_ok r)) (gt_VerifyMemberImage g name))
    (fun name state => watch (fun r => EvRecord name state (is_ok r)) (gt_Record g name state))
    (fun name => watch (fun r => EvStepState name (answer_of r)) (gt_StepState g name))
    (fun name state => watch (fun r => EvRecover name state (is_ok r)) (gt_RecoverInterrupted g name state))
    (fun leader candidate => watch (fun r => EvSwitchover leader candidate (is_ok r)) (gt_Switchover g leader candidate)).

End watched.

(** The operations of the other interfaces are not watched. *)
Section unwatched.
Context {S R : Type}.
Abbreviation T := (S * R)%type.

Definition beside_ctx (c : Ctx S) : Ctx T :=
  mkCtx (onFst (cx_Err c)) (onFst (cx_BoundedErr c)) (fun s => cx_Ticks c (fst s)) (fun s => cx_Done c (fst s)).

Definition beside_adapter (a : DCSRecoveryAdapter S) : DCSRecoveryAdapter T :=
  mkAdapter (onFst (da_Snapshot a)) (fun e => onFst (da_Validate a e)) (fun e => onFst (da_VerifyRestorable a e))
    (fun e => onFst (da_Restore a e)).
End unwatched.

(** ** What the calls must respect *)

Section discipline.
Context (maxLag : Z).

(** What is known of the cluster: the leader of the last inspection, if it
    showed a quorum and no member was touched since. *)
Definition known_leader (known : option string) (e : gate_event) : option string :=
  match e with
  | EvInspect (Some members) => match quorum_of members maxLag with Ok (leader, _) => Some leader | Err _ => None end
  | EvInspect None | EvRecreate _ _ | EvRecover _ _ _ | EvSwitchover _ _ _ => None
  | _ => known
  end.

Definition view (evs : list gate_event) : option string := foldl known_leader None evs.

(** The journal says that the member is being worked on. *)
Definition journaled (evs : list gate_event) (name : string) : Prop :=
  EvRecord name "applying" true ∈ evs \/
  exists state, interrupted_state state = true /\ EvStepState name (Some state) ∈ evs.

(** A member is only touched while the cluster is known to have a quorum whose
    leader is another member, after the recovery point was verified and the
    journal has it; the leader is switched over at most once. *)
Definition permitted (before : list gate_event) (e : gate_event) : Prop :=
  match e with
  | EvRecreate name _ | EvRecover name _ _ =>
      exists leader, view before = Some leader /\ name <> leader /\ journaled before name /\
        EvVerifyRecovery true ∈ before
  | EvSwitchover leader candidate _ =>
      view before = Some leader /\ candidate <> leader /\ EvVerifyRecovery true ∈ before /\
      EvStepState leader (Some "") ∈ before /\ EvRecord leader "applying" true ∈ before /\
      forall l c ok, EvSwitchover l c ok ∉ before
  | _ => True
  end.

Definition disciplined : list gate_event -> Prop := obeys permitted.
End discipline.
