(* ===== verification/Sha256.v ===== *)
(** * SHA-256 (crypto/sha256)

    The hash of the standard library that the code binds its receipts with, on
    32-bit words with their wrap-around, and its hexadecimal text. *)

From Stdlib Require Import Strings.String.
From S2P Require Import Prelude GoStrings StableId.

Local Open Scope Z_scope.

(** ** Words *)

Definition word (z : Z) : Z := z mod 2 ^ 32.
Definition add32 (a b : Z) : Z := word (a + b).
Definition not32 (a : Z) : Z := Z.lxor a (2 ^ 32 - 1).
Definition rotr (n a : Z) : Z := Z.lor (Z.shiftr a n) (word (Z.shiftl a (32 - n))).

Definition bsig0 (x : Z) : Z := Z.lxor (Z.lxor (rotr 2 x) (rotr 13 x)) (rotr 22 x).
Definition bsig1 (x : Z) : Z := Z.lxor (Z.lxor (rotr 6 x) (rotr 11 x)) (rotr 25 x).
Definition ssig0 (x : Z) : Z := Z.lxor (Z.lxor (rotr 7 x) (rotr 18 x)) (Z.shiftr x 3).
Definition ssig1 (x : Z) : Z := Z.lxor (Z.lxor (rotr 17 x) (rotr 19 x)) (Z.shiftr x 10).
Definition ch (x y z : Z) : Z := Z.lxor (Z.land x y) (Z.land (not32 x) z).
Definition maj (x y z : Z) : Z := Z.lxor (Z.lxor (Z.land x y) (Z.land x z)) (Z.land y z).

(** The constants of the standard: the first 32 bits of the fractional parts of
    the cube roots of the first 64 primes, and of the square roots of the first
    eight. *)
Definition prime (n : nat) : bool := (2 <=? n)%nat && forallb (fun d => negb (n mod d =? 0)%nat) (seq 2 (n - 2)).

Definition primes (n : nat) : list Z := take n (map Z.of_nat (List.filter prime (seq 2 310))).

(** The cube root of [z], bit by bit. *)
Fixpoint cube_root (bits : nat) (z root : Z) : Z :=
  match bits with
  | O => root
  | S bits =>
      let next := root + 2 ^ Z.of_nat bits in
      cube_root bits z (if next ^ 3 <=? z then next else root)
  end.

Definition round_constants : list Z :=
  Eval vm_compute in map (fun p => word (cube_root 40 (p * 2 ^ 96) 0)) (primes 64).

Definition initial_hash : list Z :=
  Eval vm_compute in map (fun p => word (Z.sqrt (p * 2 ^ 64))) (primes 8).

(** ** Blocks *)

Fixpoint be_bytes (n : nat) (v : Z) : list Z :=
  match n with
  | O => []
  | S n => Z.land (Z.shiftr v (8 * Z.of_nat n)) 255 :: be_bytes n v
  end.

Definition string_bytes (s : string) : list Z := map (fun c => Z.of_nat (nat_of_ascii c)) (list_ascii_of_string s).

Definition padded (msg : list Z) : list Z :=
  let n := Z.of_nat (length msg) in
  msg ++ [128] ++ repeat 0 (Z.to_nat ((55 - n) mod 64)) ++ be_bytes 8 (n * 8).

Definition be_word (l : list Z) : Z := foldl (fun acc b => acc * 256 + b) 0 l.

Fixpoint words (n : nat) (l : list Z) : list Z :=
  match n with O => [] | S n => be_word (take 4 l) :: words n (drop 4 l) end.

(** The schedule, the last word first. *)
Fixpoint extend (n : nat) (w : list Z) : list Z :=
  match n with
  | O => w
  | S n =>
      extend n (add32 (add32 (ssig1 (nth 1 w 0)) (nth 6 w 0)) (add32 (ssig0 (nth 14 w 0)) (nth 15 w 0)) :: w)
  end.

Definition round (h : list Z) (kw : Z * Z) : list Z :=
  match h with
  | [a; b; c; d; e; f; g; h] =>
      let t1 := add32 (add32 (add32 h (bsig1 e)) (add32 (ch e f g) (fst kw))) (snd kw) in
      let t2 := add32 (bsig0 a) (maj a b c) in
      [add32 t1 t2; a; b; c; add32 d t1; e; f; g]
  | _ => h
  end.

Definition compress (h block : list Z) : list Z :=
  let schedule := rev (extend 48 (rev (words 16 block))) in
  zip_with add32 h (foldl round h (zip round_constants schedule)).

Fixpoint blocks (n : nat) (h l : list Z) : list Z :=
  match n with O => h | S n => blocks n (compress h (take 64 l)) (drop 64 l) end.

(** [sha256.Sum256] *)
Definition Sum256 (s : string) : list Z :=
  let l := padded (string_bytes s) in
  concat (map (be_bytes 4) (blocks (length l / 64) initial_hash l)).

(** [hex.EncodeToString(digest[:])] *)
Definition digest_text (s : string) : string := hex_bytes (Sum256 s).

Example digest_abc : digest_text "abc" = "ba7816bf8f01cfea414140de5dae2223b00361a396177a9cb410ff61f20015ad".
Proof. vm_compute. reflexivity. Qed.

(** ** The shape of the digest *)

Lemma round_length h kw : length h = 8%nat -> length (round h kw) = 8%nat.
Proof. destruct h as [|a [|b [|c [|d [|e [|f [|g [|x [|]]]]]]]]]; done. Qed.

Lemma compress_length h block : length h = 8%nat -> length (compress h block) = 8%nat.
Proof.
  intros Hh. unfold compress. rewrite length_zip_with.
  assert (length (foldl round h (zip round_constants (rev (extend 48 (rev (words 16 block)))))) = 8%nat) as ->.
  { generalize (zip round_constants (rev (extend 48 (rev (words 16 block))))) as l. intros l. revert h Hh.
    induction l as [|kw l IH]; intros h Hh; [done|]. by apply IH, round_length. }
  by rewrite Hh.
Qed.

Lemma blocks_length n h l : length h = 8%nat -> length (blocks n h l) = 8%nat.
Proof. revert h l. induction n as [|n IH]; intros h l Hh; [done|]. by apply IH, compress_length. Qed.

Lemma be_bytes_range n v : Forall (fun b => 0 <= b < 256) (be_bytes n v).
Proof.
  induction n as [|n IH]; simpl; constructor; [|done].
  change 255 with (Z.ones 8). rewrite Z.land_ones by done. by apply Z.mod_pos_bound.
Qed.

Lemma be_bytes_length n v : length (be_bytes n v) = n.
Proof. induction n; simpl; congruence. Qed.

Lemma Sum256_length s : length (Sum256 s) = 32%nat.
Proof.
  unfold Sum256. set (n := (_ / 64)%nat). clearbody n. pose proof (blocks_length n initial_hash (padded (string_bytes s)) eq_refl) as H.
  destruct (blocks _ _ _) as [|a [|b [|c [|d [|e [|f [|g [|x [|]]]]]]]]]; done.
Qed.

Lemma Sum256_range s : Forall (fun b => 0 <= b < 256) (Sum256 s).
Proof. unfold Sum256. apply Forall_concat, Forall_map, Forall_true. intros v. apply be_bytes_range. Qed.

Lemma hex_bytes_length l : strlen (hex_bytes l) = (2 * length l)%nat.
Proof. induction l as [|b l IH]; [done|]. unfold strlen in *. simpl. lia. Qed.

(** 64 lowercase hexadecimal digits. *)
Lemma digest_text_spec s :
  strlen (digest_text s) = 64%nat /\ forall c, has_byte c (digest_text s) = true -> is_lower_hex c = true.
Proof.
  unfold digest_text. split; [by rewrite hex_bytes_length, Sum256_length|].
  intros c. apply hex_bytes_has_byte, Sum256_range.
Qed.

Lemma digest_text_trim s : TrimSpace (digest_text s) = digest_text s.
Proof.
  destruct (digest_text_spec s) as [Hlen Hhex]. apply trimmed_TrimSpace.
  assert (strlen (String.rev (digest_text s)) = 64%nat) as Hrev by (by rewrite strlen_rev).
  destruct (digest_text s) as [|c r] eqn:Hs; [done|]. destruct (String.rev (String c r)) as [|d' r'] eqn:Hr; [done|].
  eapply hex_ends_trimmed; [reflexivity|exact Hr|apply Hhex|apply Hhex].
  - simpl. by rewrite bool_decide_true.
  - rewrite <- has_byte_rev, Hr. simpl. by rewrite bool_decide_true.
Qed.
