(* ===== verification/PatroniFacts.v ===== *)
(** * Properties of the Patroni roll

    When a snapshot shows a quorum, and what a roll of the cluster may do to
    its members. *)

From S2P Require Import Prelude GoStrings Effects UpdatePlan Patroni.

(** ** Quorum *)

Definition standby (m : PatroniMemberState) : bool := negb (pm_Primary m).

(** What is asked of each member. *)
Definition sound_member (maxLag : Z) (m : PatroniMemberState) : Prop :=
  pm_Name m <> "" /\ pm_Healthy m = true /\ pm_Primary m <> pm_Replica m /\ (0 <= pm_ReplayLag m)%Z /\
  (pm_Primary m = false -> (pm_ReplayLag m <= maxLag)%Z).

Section quorum.
Context (maxLag : Z).
Local Open Scope Z_scope.

(** One more member: it is sound and new, and either it is the first primary
    or one more replica. *)
Lemma count_member_Ok t m t' :
  count_member maxLag t m = Ok t' <->
  sound_member maxLag m /\ pm_Name m ∉ ta_seen t /\
  t' = (if pm_Primary m then mkTally ({[pm_Name m]} ∪ ta_seen t) (pm_Name m) (ta_replicas t)
        else mkTally ({[pm_Name m]} ∪ ta_seen t) (ta_primary t) (ta_replicas t ++ [pm_Name m])) /\
  (pm_Primary m = true -> ta_primary t = "").
Proof.
  unfold count_member, sound_member.
  rewrite reject_seq_Ok, !orb_false_iff, eqb_false, bool_decide_eq_false, negb_false_iff, eqb_false, Z.ltb_ge.
  destruct (pm_Primary m).
  - rewrite reject_seq_Ok, neqb_false. naive_solver.
  - rewrite reject_seq_Ok, Z.ltb_ge. naive_solver.
Qed.

Lemma count_members_Ok l t t' :
  forE (count_member maxLag) t l = Ok t' <->
  Forall (sound_member maxLag) l /\ NoDup (map pm_Name l) /\ (forall m, m ∈ l -> pm_Name m ∉ ta_seen t) /\
  ta_seen t' = list_to_set (map pm_Name l) ∪ ta_seen t /\
  ta_replicas t' = ta_replicas t ++ map pm_Name (List.filter standby l) /\
  ((map pm_Name (List.filter pm_Primary l) = [] /\ ta_primary t' = ta_primary t) \/
   (ta_primary t = "" /\ map pm_Name (List.filter pm_Primary l) = [ta_primary t'])).
Proof.
  revert t. induction l as [|m l IH]; intros t.
  - simpl. split.
    + intros [= ->]. split_and!; [done|constructor|set_solver|set_solver|by rewrite app_nil_r|by left].
    + intros (_ & _ & _ & Hs & Hr & Hp). f_equal. destruct t, t'; simpl in *. rewrite app_nil_r in Hr.
      destruct Hp as [[_ ->]|[_ Hp]]; [|done]. f_equal; [set_solver|done].
  - rewrite forE_cons, bind_Ok. setoid_rewrite count_member_Ok. setoid_rewrite IH.
    simpl. rewrite Forall_cons, NoDup_cons. split.
    + intros (u & (Hm & Hnew & -> & Hfirst) & Hl & Hnd & Hfresh & Hs & Hr & Hp).
      assert (pm_Name m ∉ map pm_Name l) as Hn.
      { intros (x & Hx & Hin)%list_elem_of_fmap. apply (Hfresh x Hin). destruct (pm_Primary m); set_solver. }
      split_and!; [done..| |destruct (pm_Primary m); set_solver| |].
      * intros x [->|Hx]%elem_of_cons; [done|]. specialize (Hfresh x Hx). destruct (pm_Primary m); set_solver.
      * rewrite Hr. unfold standby at 2. destruct (pm_Primary m); simpl; [done|by rewrite <- app_assoc].
      * destruct (pm_Primary m); simpl in *; [|exact Hp]. right. split; [auto|].
        destruct Hp as [[-> ->]|[He _]]; [done|]. by destruct Hm as [? _].
    + intros ((Hm & Hl) & (Hn & Hnd) & Hfresh & Hs & Hr & Hp). eexists. split_and!; [done|apply Hfresh; by left|done| |done|done|..].
      * intros Hprim. rewrite Hprim in Hp. destruct Hp as [[? _]|[? _]]; done.
      * intros x Hx Hin. assert (pm_Name x <> pm_Name m) by (intros Heq; apply Hn; rewrite <- Heq; by apply list_elem_of_fmap_2).
        apply (Hfresh x); [by right|]. destruct (pm_Primary m); set_solver.
      * destruct (pm_Primary m); set_solver.
      * rewrite Hr. unfold standby at 1. destruct (pm_Primary m); simpl; [done|by rewrite <- app_assoc].
      * destruct (pm_Primary m); simpl in *; [|exact Hp]. left.
        destruct Hp as [[? _]|[_ [= -> ?]]]; [done|]. done.
Qed.

Lemma sound_leader l leader :
  Forall (sound_member maxLag) l -> map pm_Name (List.filter pm_Primary l) = [leader] -> leader <> "".
Proof.
  intros Hl Hf. assert (leader ∈ map pm_Name (List.filter pm_Primary l)) as Hin by (rewrite Hf; by left).
  apply list_elem_of_fmap in Hin as (m & -> & Hm). apply elem_of_filter_true in Hm as [_ Hm].
  rewrite Forall_forall in Hl. by apply Hl.
Qed.

Lemma filter_lengths l : (length (List.filter pm_Primary l) + length (List.filter standby l) = length l)%nat.
Proof. induction l as [|m l IH]; simpl; [done|]. unfold standby at 1. destruct (pm_Primary m); simpl; lia. Qed.

Lemma quorum_of_Ok members leader replicas :
  quorum_of members maxLag = Ok (leader, replicas) <->
  0 <= maxLag /\ length members = 3%nat /\ Forall (sound_member maxLag) members /\ NoDup (map pm_Name members) /\
  map pm_Name (List.filter pm_Primary members) = [leader] /\
  replicas = sort_strings (map pm_Name (List.filter standby members)).
Proof.
  unfold quorum_of. rewrite reject_seq_Ok, orb_false_iff, Z.ltb_ge, neqb_false, bind_Ok.
  setoid_rewrite reject_seq_Ok. setoid_rewrite orb_false_iff. setoid_rewrite eqb_false. setoid_rewrite neqb_false.
  setoid_rewrite count_members_Ok. split.
  - intros ([H0 Hlen] & t & (Hl & Hnd & _ & _ & Hr & Hp) & [Hprim Hrep] & [= <- <-]). simpl in *.
    destruct Hp as [[_ Hp]|[_ Hp]]; [done|]. split_and!; try done. by rewrite Hr.
  - intros (H0 & Hlen & Hl & Hnd & Hp & ->). split; [done|].
    exists (mkTally (list_to_set (map pm_Name members) ∪ ∅) leader (map pm_Name (List.filter standby members))). simpl.
    pose proof (filter_lengths members) as Hs. apply (f_equal length) in Hp as Hp1. rewrite length_map in Hp1. simpl in Hp1.
    split_and!; try done; first [set_solver|by right|by eapply sound_leader|rewrite length_map; lia].
Qed.

(** The leader and the replicas are distinct members. *)
Lemma quorum_distinct members leader replicas :
  quorum_of members maxLag = Ok (leader, replicas) -> leader <> "" /\ NoDup (leader :: replicas) /\ length replicas = 2%nat.
Proof.
  intros (_ & Hlen & Hl & Hnd & Hp & ->)%quorum_of_Ok. split_and!; [by eapply sound_leader| |].
  - rewrite sort_strings_Permutation. apply NoDup_cons. split; [|by apply NoDup_map_filter].
    intros (m & Hm & Hin)%list_elem_of_fmap. apply elem_of_filter_true in Hin as [Hs Hin].
    assert (leader ∈ map pm_Name (List.filter pm_Primary members)) as Hle by (rewrite Hp; by left).
    apply list_elem_of_fmap in Hle as (m' & Hm' & Hin'). apply elem_of_filter_true in Hin' as [Hs' Hin'].
    assert (m' = m) as -> by (eapply NoDup_map_inj; [exact Hnd|done..|congruence]).
    unfold standby in Hs. by rewrite Hs' in Hs.
  - rewrite sort_strings_Permutation, length_map. pose proof (filter_lengths members) as Hs.
    apply (f_equal length) in Hp. rewrite length_map in Hp. simpl in Hp. lia.
Qed.
End quorum.

(** ** Traces of a roll *)

Definition is_switchover (e : gate_event) : bool := match e with EvSwitchover _ _ _ => true | _ => false end.
Definition switched (evs : list gate_event) : bool := existsb is_switchover evs.

(** Whether the image of a member was verified since it was last touched. *)
Definition image_known (name : string) (known : bool) (e : gate_event) : bool :=
  match e with
  | EvVerifyMemberImage n true => known || (n == name)
  | EvRecreate n _ | EvRecover n _ _ => known && (n != name)
  | _ => known
  end.

Definition image_verified (evs : list gate_event) (name : string) : bool := foldl (image_known name) false evs.

Definition inspections (evs : list gate_event) : Prop := Forall (fun e => exists answer, e = EvInspect answer) evs.

Section traces.
Context (maxLag : Z).

Lemma view_snoc evs e : view maxLag (evs ++ [e]) = known_leader maxLag (view maxLag evs) e.
Proof. unfold view. by rewrite foldl_app. Qed.

Lemma image_verified_snoc evs e name : image_verified (evs ++ [e]) name = image_known name (image_verified evs name) e.
Proof. unfold image_verified. by rewrite foldl_app. Qed.

Lemma image_verified_inspections evs new name :
  inspections new -> image_verified (evs ++ new) name = image_verified evs name.
Proof.
  intros Hnew. unfold image_verified. rewrite foldl_app. generalize (foldl (image_known name) false evs).
  induction Hnew as [|e l [answer ->] _ IH]; [done|apply IH].
Qed.

Lemma switched_snoc evs e : switched (evs ++ [e]) = switched evs || is_switchover e.
Proof. unfold switched. by rewrite existsb_app; simpl; rewrite orb_false_r. Qed.

Lemma switched_inspections evs new : inspections new -> switched (evs ++ new) = switched evs.
Proof.
  intros H. unfold switched. rewrite existsb_app.
  assert (existsb is_switchover new = false) as -> by (induction H as [|e l [answer ->] _ IH]; done).
  apply orb_false_r.
Qed.

Lemma switched_false evs l c ok : switched evs = false -> EvSwitchover l c ok ∉ evs.
Proof.
  intros H Hin%list_elem_of_In. assert (switched evs = true) as Ht by (apply existsb_exists; by eexists).
  by rewrite Ht in H.
Qed.

Lemma disciplined_snoc evs e :
  disciplined maxLag evs -> permitted maxLag evs e -> disciplined maxLag (evs ++ [e]).
Proof. apply obeys_snoc. Qed.

(** During the roll: the recovery point was verified, there was the inspection
    that showed the members, [sw] says whether leadership was switched over, and
    the image of some members is known. *)
Definition progress (first : gate_event) (sw : bool) (done : list string) (evs : list gate_event) : Prop :=
  EvVerifyRecovery true ∈ evs /\ first ∈ evs /\ switched evs = sw /\
  forall name, name ∈ done -> image_verified evs name = true.

(** What touches no other member keeps the progress. *)
Definition harmless (replica : string) (e : gate_event) : Prop :=
  match e with
  | EvRecreate name _ | EvRecover name _ _ => name = replica
  | EvSwitchover _ _ _ => False
  | _ => True
  end.

Lemma progress_app first sw done evs new replica :
  progress first sw done evs -> Forall (harmless replica) new -> replica ∉ done -> progress first sw done (evs ++ new).
Proof.
  intros Hp Hnew Hn. induction new as [|e new IH] using rev_ind; [by rewrite app_nil_r|].
  apply Forall_app in Hnew as [Hnew [He _]%Forall_cons_1]. destruct (IH Hnew) as (H1 & H2 & H3 & H4).
  rewrite app_assoc. split_and!; [apply elem_of_app; by left..| |].
  - rewrite switched_snoc, H3. destruct e; simpl; try done; by rewrite orb_false_r.
  - intros name Hname. rewrite image_verified_snoc, (H4 name Hname).
    assert (name <> replica) by (by intros ->).
    destruct e as [| |n ?|n []| | |n ? ?|]; simpl in He |- *; try done; subst; by rewrite neqb_true.
Qed.

Lemma progress_inspections first sw done evs new :
  progress first sw done evs -> inspections new -> progress first sw done (evs ++ new).
Proof.
  intros (H1 & H2 & H3 & H4) Hn. split_and!; [apply elem_of_app; by left..|by rewrite switched_inspections|].
  intros name Hname. by rewrite image_verified_inspections by done; apply H4.
Qed.

(** One more member whose image was just verified. *)
Lemma progress_verified first sw done evs name :
  progress first sw done evs -> progress first sw (done ++ [name]) (evs ++ [EvVerifyMemberImage name true]).
Proof.
  intros (H1 & H2 & H3 & H4). split_and!; [apply elem_of_app; by left..|by rewrite switched_snoc, H3; simpl; rewrite orb_false_r|].
  intros n [Hn|Hn]%elem_of_app; [|apply list_elem_of_singleton in Hn as ->]; rewrite image_verified_snoc; simpl.
  - by rewrite H4.
  - rewrite (proj2 (eqb_true name name)) by done. by rewrite orb_true_r.
Qed.
End traces.

(** Decides facts about a trace that grew by single events. *)
Ltac in_trace := simpl; rewrite ?elem_of_app, ?list_elem_of_singleton; tauto.
Ltac trace_step :=
  repeat first
    [ rewrite view_snoc | rewrite image_verified_snoc | rewrite switched_snoc
    | rewrite image_verified_inspections by assumption | rewrite switched_inspections by assumption
    | progress simpl ].

(** ** Rules for the calls *)

Section rules.
Context {S : Type} (maxLag : Z) (ctx : Ctx S).
Abbreviation T := (S * list gate_event)%type.

(** How every run ends that fails. *)
Definition stopped (s : T) : Prop := disciplined maxLag (snd s).

(** A call of the gate, with the trace before it. *)
Lemma run_gate {A} (event : result error A -> gate_event) (m : M S A) (s : T) evs (Q : A -> T -> Prop) :
  snd s = evs -> disciplined maxLag evs -> (forall r, permitted maxLag evs (event r)) ->
  (forall a s', snd s' = evs ++ [event (Ok a)] -> disciplined maxLag (evs ++ [event (Ok a)]) -> Q a s') ->
  run (watch event m) s Q stopped.
Proof. apply run_watched. Qed.

(** A call of another interface leaves the trace. *)
Lemma run_beside {A} (m : M S A) (s : T) evs (Q : A -> T -> Prop) :
  snd s = evs -> disciplined maxLag evs -> (forall a s', snd s' = evs -> Q a s') -> run (onFst m) s Q stopped.
Proof.
  intros <- Hd HQ. unfold run, onFst. destruct (m (fst s)) as [s' [a|e]]; [by apply HQ|exact Hd].
Qed.

Lemma run_check (cond : bool) err (s : T) evs (Q : unit -> T -> Prop) :
  snd s = evs -> disciplined maxLag evs -> (cond = false -> Q tt s) -> run (checkM cond err) s Q stopped.
Proof. intros <- Hd HQ. apply run_pure. destruct cond; [exact Hd|by apply HQ]. Qed.

Lemma run_fail {A} err (s : T) evs (Q : A -> T -> Prop) :
  snd s = evs -> disciplined maxLag evs -> run (pureM (Err err)) s Q stopped.
Proof. intros <- Hd. by apply run_pure. Qed.

Lemma run_VerifyDCSEvidence dcs evidence i (s : T) evs (Q : unit -> T -> Prop) :
  snd s = evs -> disciplined maxLag evs -> (forall s', snd s' = evs -> Q tt s') ->
  run (VerifyDCSEvidence (beside_ctx ctx) (beside_adapter <$> dcs) evidence i) s Q stopped.
Proof.
  intros Hs Hd HQ. unfold VerifyDCSEvidence, validateDCSEvidence. apply run_bind, run_bind. simpl.
  eapply run_beside; [exact Hs|exact Hd|]. intros [] s1 Hs1. apply run_bind, run_pure.
  destruct dcs as [dcs|]; simpl; [|unfold stopped; by rewrite Hs1].
  apply run_bind. eapply run_check; [exact Hs1|exact Hd|]. intros _. apply run_bind, run_wrap.
  eapply run_beside; [exact Hs1|exact Hd|]. intros [] s2 Hs2. apply run_ret, run_wrap.
  eapply run_beside; [exact Hs2|exact Hd|]. intros []. apply HQ.
Qed.

(** An inspection that shows a quorum. *)
Lemma run_snapshot g (s : T) evs (Q : string * list string -> T -> Prop) :
  snd s = evs -> disciplined maxLag evs ->
  (forall members leader replicas s', quorum_of members maxLag = Ok (leader, replicas) ->
     snd s' = evs ++ [EvInspect (Some members)] -> disciplined maxLag (evs ++ [EvInspect (Some members)]) ->
     Q (leader, replicas) s') ->
  run (verifiedPatroniSnapshot (beside_ctx ctx) (watch_gate g) maxLag) s Q stopped.
Proof.
  intros Hs Hd HQ. unfold verifiedPatroniSnapshot, VerifyPatroniQuorum. apply run_bind. simpl.
  eapply run_gate; [exact Hs|exact Hd|done|]. intros members s1 Hs1 Hd1. apply run_bind. simpl.
  eapply run_beside; [exact Hs1|exact Hd1|]. intros [] s2 Hs2. apply run_pure.
  destruct (quorum_of members maxLag) as [[leader replicas]|e] eqn:Hq; [by eapply HQ|unfold stopped; by rewrite Hs2].
Qed.

Lemma run_same_leader g leader message (s : T) evs (Q : unit -> T -> Prop) :
  snd s = evs -> disciplined maxLag evs ->
  (forall members s' , view maxLag (evs ++ [EvInspect (Some members)]) = Some leader ->
     snd s' = evs ++ [EvInspect (Some members)] -> disciplined maxLag (evs ++ [EvInspect (Some members)]) -> Q tt s') ->
  run (same_leader (beside_ctx ctx) (watch_gate g) maxLag leader message) s Q stopped.
Proof.
  intros Hs Hd HQ. unfold same_leader. apply run_bind. eapply run_snapshot; [exact Hs|exact Hd|].
  intros members l replicas s1 Hq Hs1 Hd1. simpl. eapply run_check; [exact Hs1|exact Hd1|].
  intros ->%neqb_false. eapply HQ; [|exact Hs1|exact Hd1]. rewrite view_snoc. simpl. by rewrite Hq.
Qed.

(** One poll inspects once. *)
Lemma run_poll g (s : T) evs :
  snd s = evs -> disciplined maxLag evs ->
  run (poll_quorum (beside_ctx ctx) (watch_gate g) maxLag) s
    (fun polled s' => exists answer, snd s' = evs ++ [EvInspect answer] /\
       match polled with Ok leader => view maxLag (evs ++ [EvInspect answer]) = Some leader | Err _ => True end) stopped.
Proof.
  intros <- Hd. unfold poll_quorum, VerifyPatroniQuorum, tryM, run, mbind, M_bind, beside_ctx, watch_gate, watch, onFst, pureM.
  simpl. destruct (gt_Inspect g (fst s)) as [w [members|e]]; simpl; [|by eexists].
  destruct (cx_BoundedErr ctx w) as [w' [[]|e]]; simpl; [|by eexists].
  destruct (quorum_of members maxLag) as [[leader replicas]|e] eqn:Hq; simpl; [|by eexists].
  eexists. split; [done|]. rewrite view_snoc. simpl. by rewrite Hq.
Qed.

(** Waiting only inspects, and ends when the expected leader has its quorum. *)
Lemma run_wait_quorum g leader err ticks (s : T) evs (Q : unit -> T -> Prop) :
  snd s = evs -> disciplined maxLag evs ->
  (forall new s', inspections new -> view maxLag (evs ++ new) = Some leader -> snd s' = evs ++ new ->
     disciplined maxLag (evs ++ new) -> Q tt s') ->
  run (wait_quorum (beside_ctx ctx) (watch_gate g) leader maxLag err ticks) s Q stopped.
Proof.
  revert s evs. induction ticks as [|ticks IH]; intros s evs Hs Hd HQ; simpl;
    apply run_bind; (eapply run_mono; [|intros ? H; exact H|by apply run_poll]);
    intros [l|e] s1 (answer & Hs1 & Hv);
    assert (disciplined maxLag (evs ++ [EvInspect answer])) as Hd1 by (by apply disciplined_snoc).
  1, 3: eapply run_check; [exact Hs1|exact Hd1|]; intros ->%neqb_false; eapply HQ; [|done..]; by repeat econstructor.
  - eapply run_fail; [exact Hs1|exact Hd1].
  - eapply IH; [exact Hs1|exact Hd1|]. intros new s2 Hnew Hv2 Hs2 Hd2. rewrite <- app_assoc in *.
    eapply HQ; [|done..]. by constructor; [eexists|].
Qed.

Lemma run_wait g leader (s : T) evs (Q : unit -> T -> Prop) :
  snd s = evs -> disciplined maxLag evs ->
  (forall new s', inspections new -> view maxLag (evs ++ new) = Some leader -> snd s' = evs ++ new ->
     disciplined maxLag (evs ++ new) -> Q tt s') ->
  run (wait (beside_ctx ctx) (watch_gate g) leader maxLag) s Q stopped.
Proof.
  intros Hs Hd HQ. unfold wait, WaitForPatroniQuorum, run.
  apply (run_bind (checkM ((leader == "") || (thirty_seconds <=? 0)%Z) (errorsNew "invalid Patroni readiness contract"))
    (fun _ => wait_quorum (beside_ctx ctx) (watch_gate g) leader maxLag (cx_Done (beside_ctx ctx) s) (cx_Ticks (beside_ctx ctx) s))).
  eapply run_check; [exact Hs|exact Hd|]. intros _. by eapply run_wait_quorum.
Qed.
End rules.

(** ** The steps of the roll *)

Section steps.
Context {S : Type} (maxLag : Z) (ctx : Ctx S) (g : Gate S) (dcs : option (DCSRecoveryAdapter S)).
Context (evidence : DCSRecoveryEvidence) (i : identity) (first : gate_event).
Abbreviation T := (S * list gate_event)%type.
Abbreviation W := (watch_gate g).
Abbreviation C := (beside_ctx ctx).
Abbreviation D := (beside_adapter <$> dcs).

Definition underway (sw : bool) (done : list string) (s : T) : Prop :=
  disciplined maxLag (snd s) /\ progress first sw done (snd s).
Definition settled (sw : bool) (leader : string) (done : list string) (s : T) : Prop :=
  underway sw done s /\ view maxLag (snd s) = Some leader.

(** The check of its image ends the work on a member. *)
Lemma run_image_check sw replica done (s : T) evs new :
  snd s = evs ++ new -> disciplined maxLag (evs ++ new) -> progress first sw done evs ->
  Forall (harmless replica) new -> replica ∉ done ->
  run (gt_VerifyMemberImage W replica) s (fun _ => underway sw (done ++ [replica])) (stopped maxLag).
Proof.
  intros Hs Hd Hp Hnew Hn. simpl. eapply run_gate; [exact Hs|exact Hd|done|]. intros [] s1 Hs1 Hd1.
  unfold underway. rewrite Hs1. split; [exact Hd1|]. by apply progress_verified, (progress_app _ _ _ _ _ replica).
Qed.

(** The work on one replica, before the cluster is waited for. *)
Lemma run_replica_work sw leader replica done state (s : T) evs :
  snd s = evs ++ [EvStepState replica (Some state)] -> disciplined maxLag (snd s) ->
  progress first sw done evs -> view maxLag evs = Some leader -> replica <> leader -> replica ∉ done ->
  run (if state == "verified" then gt_VerifyMemberImage W replica
       else if interrupted_state state then
         gt_RecoverInterrupted W replica state ;;
         gt_VerifyMemberImage W replica
       else if state == "" then
         VerifyDCSEvidence C D evidence i ;;
         gt_VerifyRecovery W ;;
         same_leader C W maxLag leader "Patroni leader changed before replica mutation" ;;
         gt_Record W replica "applying" ;;
         wrapM (fun err => Errorf "rolling replica %s: %w" [AStr replica; ATxt err]) (gt_Recreate W replica) ;;
         gt_VerifyMemberImage W replica
       else pureM (Err (Errorf "unsupported Patroni journal state %s" [AStr state]))) s
    (fun _ => underway sw (done ++ [replica])) (stopped maxLag).
Proof.
  intros Hs Hd Hp Hv Hne Hnew. rewrite Hs in Hd. pose proof Hp as (Hrec & _).
  case_bool_decide as H1; [|destruct (interrupted_state state) eqn:H2; [|case_bool_decide as H3]].
  - eapply run_image_check; [exact Hs|exact Hd|exact Hp|by repeat constructor|done].
  - apply run_bind. simpl. eapply run_gate; [exact Hs|exact Hd| |].
    { intros r. exists leader. split_and!; [by trace_step|done| |in_trace]. right. exists state. split; [done|in_trace]. }
    intros [] s1 Hs1 Hd1. rewrite <- app_assoc in *.
    eapply run_image_check; [exact Hs1|exact Hd1|exact Hp|by repeat constructor|done].
  - apply run_bind. eapply run_VerifyDCSEvidence; [exact Hs|exact Hd|]. intros s1 Hs1.
    apply run_bind. simpl. eapply run_gate; [exact Hs1|exact Hd|done|]. intros [] s2 Hs2 Hd2.
    apply run_bind. eapply run_same_leader; [exact Hs2|exact Hd2|]. intros members s3 Hview Hs3 Hd3.
    apply run_bind. eapply run_gate; [exact Hs3|exact Hd3|done|]. intros [] s4 Hs4 Hd4.
    apply run_bind, run_wrap. eapply run_gate; [exact Hs4|exact Hd4| |].
    { intros r. exists leader. split_and!; [|done|left; in_trace|in_trace]. by rewrite view_snoc, Hview. }
    intros [] s5 Hs5 Hd5. rewrite <- !app_assoc in *.
    eapply run_image_check; [exact Hs5|exact Hd5|exact Hp|by repeat constructor|done].
  - eapply run_fail; [exact Hs|exact Hd].
Qed.

(** Waiting restores what is known of the leader. *)
Lemma run_settle sw leader done (s : T) (Q : unit -> T -> Prop) :
  underway sw done s -> (forall s', settled sw leader done s' -> Q tt s') ->
  run (wait C W leader maxLag) s Q (stopped maxLag).
Proof.
  intros [Hd Hp] HQ. eapply run_wait; [done|exact Hd|]. intros new s' Hnew Hv Hs' Hd'. apply HQ.
  unfold settled, underway. rewrite Hs'. split_and!; [done|by apply progress_inspections|done].
Qed.

(** A call that touches no member keeps everything. *)
Lemma settled_snoc sw leader done (s s' : T) e :
  settled sw leader done s -> snd s' = snd s ++ [e] -> disciplined maxLag (snd s') ->
  (forall p, known_leader maxLag p e = p) -> (forall p name, image_known name p e = p) -> is_switchover e = false ->
  settled sw leader done s'.
Proof.
  intros [[Hd (H1 & H2 & H3 & H4)] Hv] Hs' Hd' Hk Hi Hsw. unfold settled, underway, progress. rewrite Hs' in *.
  split_and!; [done|apply elem_of_app; by left..|by rewrite switched_snoc, H3, Hsw, orb_false_r| |by rewrite view_snoc, Hk].
  intros name Hname. rewrite image_verified_snoc, Hi. by apply H4.
Qed.

Lemma run_settled_gate {A} (event : result error A -> gate_event) (m : M S A) sw leader done (s : T) (Q : A -> T -> Prop) :
  settled sw leader done s ->
  (forall r p, known_leader maxLag p (event r) = p) -> (forall r p name, image_known name p (event r) = p) ->
  (forall r, is_switchover (event r) = false) -> (forall r before, permitted maxLag before (event r)) ->
  (forall a s', settled sw leader done s' -> snd s' = snd s ++ [event (Ok a)] -> Q a s') ->
  run (watch event m) s Q (stopped maxLag).
Proof.
  intros Hset Hk Hi Hsw Hperm HQ. pose proof Hset as [[Hd _] _].
  eapply run_gate; [done|exact Hd|intros r; apply Hperm|]. intros a s' Hs' Hd'. rewrite <- Hs' in Hd'.
  apply HQ; [|done]. by eapply settled_snoc; [exact Hset|exact Hs'|..].
Qed.

Lemma run_cluster_replica sw leader replica done (s : T) :
  settled sw leader done s -> replica <> leader -> replica ∉ done ->
  run (cluster_replica C W D evidence i maxLag leader replica) s
    (fun _ => settled sw leader (done ++ [replica])) (stopped maxLag).
Proof.
  intros [[Hd Hp] Hv] Hne Hnew. unfold cluster_replica. apply run_bind. simpl.
  eapply run_gate; [done|exact Hd|done|]. intros state s1 Hs1 Hd1. rewrite <- Hs1 in Hd1. apply run_bind.
  eapply run_mono; [|intros ? H; exact H|by eapply run_replica_work].
  intros [] s2 Hs2. apply run_bind. eapply run_settle; [exact Hs2|]. intros s3 Hs3.
  case_match; [|by apply run_ret]. by eapply run_settled_gate; [exact Hs3|..].
Qed.

Lemma run_cluster_replicas sw leader replicas (s : T) :
  settled sw leader [] s -> NoDup (leader :: replicas) ->
  run (rangeM (cluster_replica C W D evidence i maxLag leader) replicas) s
    (fun _ => settled sw leader replicas) (stopped maxLag).
Proof.
  intros Hs [Hl Hnd]%NoDup_cons.
  eapply run_mono; [| |eapply (run_for (fun _ rest s' => exists done, replicas = done ++ rest /\ settled sw leader done s')
    _ (stopped maxLag) tt replicas s)].
  - intros [] s' (done & -> & Hs'). by rewrite app_nil_r.
  - done.
  - by exists [].
  - intros [] replica rest s' (done & -> & Hs'). eapply run_mono; [| |apply run_cluster_replica].
    + intros [] s2 Hs2. exists (done ++ [replica]). by rewrite <- app_assoc.
    + done.
    + exact Hs'.
    + intros ->. apply Hl, elem_of_app. right. by left.
    + apply NoDup_app in Hnd as (_ & Hnd & _). intros Hin. apply (Hnd replica Hin). by left.
Qed.

(** The journal of a member is not lost. *)
Lemma journaled_app evs new name : journaled evs name -> journaled (evs ++ new) name.
Proof.
  intros [H|(state & H1 & H2)]; [left|right; exists state; split; [done|]]; apply elem_of_app; by left.
Qed.

(** The leadership was handed over, or it was before. *)
Lemma run_handover leader candidate done state (s : T) evs :
  snd s = evs ++ [EvStepState leader (Some state); EvVerifyRecovery true] -> disciplined maxLag (snd s) ->
  progress first false done evs -> view maxLag evs = Some leader -> candidate <> leader ->
  run (if state == "" then
         gt_Record W leader "applying" ;;
         wrapM (fun err => Errorf "Patroni switchover outcome must be inspected before resume: %w" [ATxt err])
           (gt_Switchover W leader candidate)
       else checkM (negb (interrupted_state state)) (Errorf "unsupported old-primary journal state %q" [AStr state])) s
    (fun _ s' => exists sw, underway sw done s' /\ journaled (snd s') leader) (stopped maxLag).
Proof.
  intros Hs Hd (H1 & H2 & H3 & H4) Hv Hne. rewrite Hs in Hd.
  assert (view maxLag (evs ++ [EvStepState leader (Some state); EvVerifyRecovery true]) = Some leader) as Hv'
    by (by rewrite cons_middle, app_assoc, !view_snoc).
  assert (progress first false done (evs ++ [EvStepState leader (Some state); EvVerifyRecovery true])) as (H1' & H2' & H3' & H4').
  { split_and!; [apply elem_of_app; by left..| |]; rewrite cons_middle, app_assoc.
    - by rewrite !switched_snoc, H3.
    - intros name Hname. rewrite !image_verified_snoc. by apply H4. }
  case_bool_decide as Hstate.
  - subst state. apply run_bind. simpl. eapply run_gate; [exact Hs|exact Hd|done|]. intros [] s1 Hs1 Hd1.
    apply run_wrap. eapply run_gate; [exact Hs1|exact Hd1| |].
    + intros r. simpl. split_and!; [by rewrite view_snoc|done|in_trace| |in_trace|].
      * rewrite !elem_of_app. left. right. by left.
      * intros l c ok. apply switched_false. by rewrite switched_snoc, H3'.
    + intros [] s2 Hs2 Hd2. exists true. unfold underway. rewrite Hs2. split; [split; [done|]|left; in_trace].
      split_and!; [in_trace..|by rewrite !switched_snoc, H3'|].
      intros name Hname. rewrite !image_verified_snoc. by apply H4'.
  - eapply run_check; [exact Hs|exact Hd|]. intros Hint%negb_false_iff. exists false. unfold underway. rewrite Hs.
    split; [by split|]. right. exists state. split; [done|]. rewrite elem_of_app. right. by left.
Qed.

(** The end of the work on the old primary. *)
Lemma run_primary_end sw leader candidate replicas (s : T) evs e :
  snd s = evs ++ [e] -> disciplined maxLag (evs ++ [e]) -> progress first sw replicas evs -> harmless leader e ->
  leader ∉ replicas ->
  run (gt_VerifyMemberImage W leader ;;
       wrapM (fun err => Errorf "Patroni leader drift after old primary reconciliation: %w" [ATxt err])
         (wait C W candidate maxLag) ;;
       gt_Record W leader "verified") s
    (fun _ s' => exists sw, settled sw candidate (replicas ++ [leader]) s') (stopped maxLag).
Proof.
  intros Hs Hd Hp He Hnew. apply run_bind. eapply run_mono; [|intros ? H; exact H|].
  2:{ eapply run_image_check; [exact Hs|exact Hd|exact Hp|by constructor|done]. }
  intros [] s1 Hs1. apply run_bind, run_wrap. eapply run_settle; [exact Hs1|]. intros s2 Hs2.
  eapply run_settled_gate; [exact Hs2|done..|]. intros [] s3 Hs3 _. by exists sw.
Qed.

Lemma run_cluster_primary leader candidate replicas (s : T) :
  settled false leader replicas s -> candidate <> leader -> leader ∉ replicas ->
  run (cluster_primary C W D evidence i maxLag leader candidate) s
    (fun _ s' => exists sw, settled sw candidate (replicas ++ [leader]) s') (stopped maxLag).
Proof.
  intros [[Hd Hp] Hv] Hne Hnew. unfold cluster_primary. apply run_bind. simpl.
  eapply run_gate; [done|exact Hd|done|]. intros state s1 Hs1 Hd1.
  apply run_bind. eapply run_check; [exact Hs1|exact Hd1|]. intros _.
  apply run_bind. eapply run_VerifyDCSEvidence; [exact Hs1|exact Hd1|]. intros s2 Hs2.
  apply run_bind. eapply run_gate; [exact Hs2|exact Hd1|done|]. intros [] s3 Hs3 Hd3.
  rewrite <- Hs3 in Hd3. rewrite <- app_assoc in Hs3. apply run_bind.
  eapply run_mono; [|intros ? H; exact H|by eapply run_handover].
  intros [] s4 (sw & Hs4 & Hj4). apply run_bind, run_wrap. destruct Hs4 as [Hd4 Hp4].
  eapply run_wait; [done|exact Hd4|]. intros new s5 Hn5 Hv5 Hs5 Hd5.
  assert (progress first sw replicas (snd s4 ++ new)) as Hp5 by (by apply progress_inspections).
  assert (forall ok, permitted maxLag (snd s4 ++ new) (EvRecreate leader ok)) as Hperm.
  { intros ok. exists candidate. destruct Hp5 as (? & _). split_and!; [done..|by apply journaled_app|done]. }
  apply run_bind. case_match.
  - eapply run_gate; [exact Hs5|exact Hd5|intros r; apply (Hperm true)|].
    intros [] s6 Hs6 Hd6. by eapply run_primary_end; [exact Hs6|exact Hd6|..].
  - eapply run_gate; [exact Hs5|exact Hd5|intros r; apply Hperm|].
    intros [] s6 Hs6 Hd6. by eapply run_primary_end; [exact Hs6|exact Hd6|..].
Qed.

(** What the search for the old primary knows after some replicas: the images
    of the others are known, and its own step was interrupted. *)
Definition searched (sw : bool) (leader : string) (checked : list string) (former : string) (s : T) : Prop :=
  exists done, underway sw done s /\ "" ∉ leader :: checked /\
    (forall name, name ∈ done <-> name ∈ leader :: checked /\ name <> former) /\
    (former = "" \/ (former ∈ checked /\ journaled (snd s) former)).

Lemma run_find_former sw leader checked former replica (s : T) :
  searched sw leader checked former s -> replica ∉ leader :: checked -> replica <> "" ->
  run (find_former W former replica) s
    (fun former' => searched sw leader (checked ++ [replica]) former') (stopped maxLag).
Proof.
  intros (done & [Hd Hp] & Hempty & Hdone & Hj) Hnew Hne.
  assert (replica <> former) as Hrf by (intros ->; destruct Hj as [?|[? _]]; [done|apply Hnew; by right]).
  assert ("" ∉ leader :: checked ++ [replica]) as Hempty'
    by (rewrite app_comm_cons, elem_of_app, list_elem_of_singleton; naive_solver).
  unfold find_former. apply run_bind. simpl.
  eapply run_gate; [reflexivity|exact Hd|done|]. intros state s1 Hs1 Hd1.
  assert (progress first sw done (snd s1)) as Hp1.
  { rewrite Hs1. eapply (progress_app _ _ _ _ _ former); [done|by repeat constructor|]. rewrite Hdone. tauto. }
  rewrite <- Hs1 in Hd1.
  case_match; [|destruct (interrupted_state state) eqn:Hi].
  - apply run_bind. eapply run_gate; [reflexivity|exact Hd1|done|]. intros [] s2 Hs2 Hd2. apply run_ret.
    exists (done ++ [replica]). unfold underway. rewrite Hs2. split_and!; [done|by apply progress_verified|done| |].
    + intros name. rewrite app_comm_cons, !elem_of_app, Hdone, list_elem_of_singleton. naive_solver.
    + rewrite elem_of_app. destruct Hj as [|[? Hj]]; [by left|right; split; [by left|]].
      rewrite Hs1. by apply journaled_app, journaled_app.
  - apply run_bind. eapply run_check; [reflexivity|exact Hd1|]. intros ->%neqb_false. apply run_ret.
    exists done. split_and!; [done..| |].
    + intros name. rewrite app_comm_cons, elem_of_app, Hdone, list_elem_of_singleton.
      split; [intros [? ?]; split; [tauto|]; by intros ->|]. intros [[?| ->] ?]; [|done]. split; [done|]. by intros ->.
    + right. split; [apply elem_of_app; right; by left|]. right. exists state. split; [done|]. rewrite Hs1. in_trace.
  - eapply run_fail; [reflexivity|exact Hd1].
Qed.

Lemma run_find_formers sw leader checked replicas former (s : T) :
  searched sw leader checked former s -> NoDup (leader :: checked ++ replicas) -> "" ∉ replicas ->
  run (forM (find_former W) former replicas) s
    (fun former' => searched sw leader (checked ++ replicas) former') (stopped maxLag).
Proof.
  intros Hs Hnd Hne. revert checked former s Hs Hnd.
  induction replicas as [|replica rest IH]; intros checked former s Hs Hnd; simpl.
  { apply run_ret. by rewrite app_nil_r. }
  apply run_bind. eapply run_mono; [|intros ? H; exact H|eapply run_find_former; [exact Hs|..]].
  - intros former' s' Hs'. rewrite cons_middle, app_assoc. apply IH; [set_solver|done|].
    by rewrite <- app_assoc.
  - rewrite app_comm_cons in Hnd. apply NoDup_app in Hnd as (_ & Hnd & _). intros Hin. apply (Hnd _ Hin). by left.
  - intros ->. apply Hne. by left.
Qed.

(** The state in which the roll ends: one leader is left, and every image is
    known. *)
Definition finished (names : list string) (s : T) : Prop :=
  exists sw leader done, settled sw leader done s /\ leader ∈ names /\ forall name, name ∈ names -> name ∈ done.

Lemma run_reconcile sw leader former replicas (s : T) :
  searched sw leader replicas former s -> former <> "" -> leader ∉ replicas ->
  run (gt_VerifyRecovery W ;;
       wrapM (fun err => Errorf "promoted Patroni leader is unverified: %w" [ATxt err]) (wait C W leader maxLag) ;;
       onErrM (gt_VerifyMemberImage W former)
         (fun _ => wrapM (fun err => Errorf "recreate verified old-primary replica %s: %w" [AStr former; ATxt err])
                     (gt_Recreate W former))
         (fun _ => mret tt) ;;
       gt_VerifyMemberImage W former ;;
       wrapM (fun err => Errorf "leader drift on interrupted Patroni recovery: %w" [ATxt err]) (wait C W leader maxLag) ;;
       gt_Record W former "verified") s
    (fun _ => finished (leader :: replicas)) (stopped maxLag).
Proof.
  intros (done & [Hd Hp] & _ & Hdone & Hj) Hne Hl. destruct Hj as [?|[Hin Hj]]; [done|].
  assert (former ∉ done) as Hf by (rewrite Hdone; tauto).
  assert (former <> leader) as Hfl by by intros ->.
  apply run_bind. simpl. eapply run_gate; [reflexivity|exact Hd|done|]. intros [] s1 Hs1 Hd1.
  rewrite <- Hs1 in Hd1. assert (progress first sw done (snd s1)) as Hp1
    by (rewrite Hs1; eapply (progress_app _ _ _ _ _ former); [done|by repeat constructor|done]).
  assert (journaled (snd s1) former) as Hj1 by (rewrite Hs1; by apply journaled_app).
  apply run_bind, run_wrap. eapply run_wait; [reflexivity|exact Hd1|]. intros new s2 Hn2 Hv2 Hs2 Hd2.
  apply (progress_inspections _ _ _ _ new) in Hp1; [|done]. apply (journaled_app _ new) in Hj1.
  rewrite <- Hs2 in Hd2, Hp1, Hj1, Hv2. apply run_bind.
  apply (run_mono _ _ (fun _ s' => disciplined maxLag (snd s') /\
    exists more, snd s' = snd s2 ++ more /\ Forall (harmless former) more) _ (stopped maxLag)); [|done|].
  - intros [] s3 (Hd3 & more & Hs3 & Hm). rewrite Hs3 in Hd3. apply run_bind.
    eapply run_mono; [|intros ? H; exact H|eapply run_image_check; [exact Hs3|exact Hd3|exact Hp1|exact Hm|exact Hf]].
    intros [] s4 Hs4. apply run_bind, run_wrap. eapply run_settle; [exact Hs4|]. intros s5 Hs5.
    eapply run_settled_gate; [exact Hs5|done..|]. intros [] s6 Hs6 _.
    exists sw, leader, (done ++ [former]). split_and!; [done|by left|].
    intros name Hname. rewrite elem_of_app, Hdone, list_elem_of_singleton. destruct (decide (name = former)); tauto.
  - apply run_onErr, run_watch; intros s3 r _.
    + apply run_ret. split; [by apply disciplined_snoc|]. eexists. split; [done|by repeat constructor].
    + intros e. apply run_wrap. eapply run_gate; [reflexivity|by apply disciplined_snoc| |].
      { intros ok. exists leader. destruct Hp1 as (Hr & _). simpl. split_and!; [by rewrite view_snoc|done|by apply journaled_app|].
        apply elem_of_app. by left. }
      intros [] s4 Hs4 Hd4. simpl in Hs4. rewrite Hs4. split; [done|]. rewrite <- app_assoc.
      eexists. split; [done|by repeat constructor].
Qed.

Lemma run_resume leader replicas leaderState (s : T) :
  settled false leader [] s -> NoDup (leader :: replicas) -> "" ∉ leader :: replicas ->
  run (resumePatroniAfterSwitchover C W leader replicas leaderState maxLag) s
    (fun _ => finished (leader :: replicas)) (stopped maxLag).
Proof.
  intros [[Hd Hp] Hv] Hnd Hne. unfold resumePatroniAfterSwitchover. pose proof Hnd as [Hl _]%NoDup_cons.
  apply run_bind. eapply run_check; [reflexivity|exact Hd|]. intros _. apply run_bind.
  eapply run_mono; [|intros ? H; exact H|].
  2:{ eapply (run_image_check _ _ [] _ (snd s) []); rewrite ?app_nil_r; [done|exact Hd|exact Hp|by constructor|set_solver]. }
  intros [] s1 Hs1. apply run_bind. eapply run_mono; [|intros ? H; exact H|].
  2:{ apply (run_find_formers false leader [] replicas); [|done|set_solver].
      exists ([] ++ [leader]). split_and!; [done|set_solver| |by left].
      intros name. simpl. rewrite list_elem_of_singleton. set_solver. }
  intros former s2 Hs2. simpl in Hs2. case_bool_decide as Hf; [|by eapply run_reconcile].
  subst former. destruct Hs2 as (done & Hs2 & _ & Hdone & _). eapply run_settle; [exact Hs2|]. intros s3 Hs3.
  exists false, leader, done. split_and!; [done|by left|]. intros name Hname. apply Hdone. split; [done|]. by intros ->.
Qed.

Lemma run_cluster leader replicas (s : T) :
  settled false leader [] s -> NoDup (leader :: replicas) -> "" ∉ leader :: replicas -> replicas <> [] ->
  run (leaderState ← gt_StepState W leader;
       if leaderState != "" then resumePatroniAfterSwitchover C W leader replicas leaderState maxLag
       else
         rangeM (cluster_replica C W D evidence i maxLag leader) replicas ;;
         cluster_primary C W D evidence i maxLag leader (hd "" replicas)) s
    (fun _ => finished (leader :: replicas)) (stopped maxLag).
Proof.
  intros Hs Hnd Hne Hnil. apply run_bind. eapply run_settled_gate; [exact Hs|done..|]. intros state s1 Hs1 _.
  case_match; [by apply run_resume|]. pose proof Hnd as [Hl _]%NoDup_cons.
  apply run_bind. eapply run_mono; [|intros ? H'; exact H'|by apply run_cluster_replicas].
  intros [] s2 Hs2. assert (hd "" replicas ∈ replicas) as Hhd by (destruct replicas; [done|by left]).
  eapply run_mono; [|intros ? H'; exact H'|apply run_cluster_primary; [exact Hs2| |done]].
  - intros [] s3 (sw & Hs3). exists sw, (hd "" replicas), (replicas ++ [leader]). split_and!; [done|by right|].
    intros name. rewrite elem_of_cons, elem_of_app, list_elem_of_singleton. tauto.
  - intros Heq. by rewrite Heq in Hhd.
Qed.
End steps.

(** ** The roll of a cluster *)

Section cluster.
Context {S : Type} (maxLag : Z) (ctx : Ctx S) (gate : option (Gate S)) (dcs : option (DCSRecoveryAdapter S)).
Abbreviation T := (S * list gate_event)%type.

(** What a roll leaves that succeeded: the image of every member that the
    cluster had was verified since the member was last touched, and one of the
    members leads a quorum. *)
Definition rolled (evs : list gate_event) : Prop :=
  exists members leader replicas last,
    EvInspect (Some members) ∈ evs /\ quorum_of members maxLag = Ok (leader, replicas) /\
    view maxLag evs = Some last /\ last ∈ leader :: replicas /\
    forall name, name ∈ leader :: replicas -> image_verified evs name = true.

Lemma quorum_nonempty members leader replicas :
  quorum_of members maxLag = Ok (leader, replicas) -> "" ∉ leader :: replicas.
Proof.
  intros (_ & _ & Hm & _ & Hl & ->)%quorum_of_Ok. rewrite elem_of_cons, sort_strings_Permutation.
  intros [He|(m & He & [_ Hin]%elem_of_filter_true)%list_elem_of_fmap].
  - by eapply sound_leader; [exact Hm|exact Hl|].
  - rewrite Forall_forall in Hm. by destruct (Hm m Hin).
Qed.

Lemma run_RollPatroniCluster evidence i (s : T) :
  disciplined maxLag (snd s) -> switched (snd s) = false ->
  run (RollPatroniCluster (beside_ctx ctx) (watch_gate <$> gate) (beside_adapter <$> dcs) evidence i maxLag) s
    (fun _ s' => disciplined maxLag (snd s') /\ rolled (snd s')) (stopped maxLag).
Proof.
  intros Hd Hsw. unfold RollPatroniCluster. apply run_bind, run_pure. destruct gate as [g|]; [|exact Hd]. simpl.
  apply run_bind. eapply run_VerifyDCSEvidence; [reflexivity|exact Hd|]. intros s1 Hs1.
  apply run_bind, run_wrap. eapply run_gate; [exact Hs1|exact Hd|done|]. intros [] s2 Hs2 Hd2.
  apply run_bind. eapply run_snapshot; [exact Hs2|exact Hd2|]. intros members leader replicas s3 Hq Hs3 Hd3.
  destruct (quorum_distinct _ _ _ _ Hq) as (_ & Hnd & Hlen).
  eapply run_mono; [|intros ? H; exact H|apply (run_cluster maxLag ctx g dcs evidence i (EvInspect (Some members)))].
  - intros [] s4 (sw & last & done & [[Hd4 (_ & Hin & _ & Him)] Hv] & Hlast & Hdone). split; [done|].
    exists members, leader, replicas, last. split_and!; [done..|]. intros name Hname. by apply Him, Hdone.
  - unfold settled, underway. rewrite Hs3. unfold progress; split_and!; [done|in_trace|in_trace|by rewrite !switched_snoc, Hsw| |].
    + intros name Hname. by apply not_elem_of_nil in Hname.
    + rewrite view_snoc. simpl. by rewrite Hq.
  - done.
  - by eapply quorum_nonempty.
  - by intros ->.
Qed.

Lemma run_CaptureAndVerifyDCS i (s : T) evs (Q : DCSRecoveryEvidence -> T -> Prop) :
  snd s = evs -> disciplined maxLag evs -> (forall evidence s', snd s' = evs -> Q evidence s') ->
  run (CaptureAndVerifyDCS (beside_ctx ctx) (beside_adapter <$> dcs) i) s Q (stopped maxLag).
Proof.
  intros Hs Hd HQ. unfold CaptureAndVerifyDCS. apply run_bind, run_pure.
  destruct dcs as [d|] eqn:Hdcs; simpl; [|by unfold stopped; rewrite Hs].
  apply run_bind, run_wrap. eapply run_beside; [exact Hs|exact Hd|]. intros evidence s1 Hs1.
  apply run_bind. eapply (run_VerifyDCSEvidence maxLag ctx (Some d)); [exact Hs1|exact Hd|]. intros s2 Hs2.
  apply run_ret. by apply HQ.
Qed.

Lemma run_PrepareAndRollPatroniCluster i (s : T) :
  disciplined maxLag (snd s) -> switched (snd s) = false ->
  run (PrepareAndRollPatroniCluster (beside_ctx ctx) (watch_gate <$> gate) (beside_adapter <$> dcs) i maxLag) s
    (fun _ s' => disciplined maxLag (snd s') /\ rolled (snd s')) (stopped maxLag).
Proof.
  intros Hd Hsw. unfold PrepareAndRollPatroniCluster. apply run_bind, run_pure.
  destruct gate as [g|] eqn:Hg; [|exact Hd]. simpl.
  apply run_bind, run_wrap. eapply run_gate; [reflexivity|exact Hd|done|]. intros [] s1 Hs1 Hd1.
  apply run_bind. eapply run_CaptureAndVerifyDCS; [exact Hs1|exact Hd1|]. intros evidence s2 Hs2.
  change (Some (watch_gate g)) with (watch_gate <$> Some g). rewrite <- Hg.
  apply run_RollPatroniCluster; rewrite Hs2; [done|by rewrite switched_snoc, Hsw].
Qed.
End cluster.

(** ** Theorems *)

(** A quorum is exactly three sound members with distinct names, one of them the
    primary and the others replicas within the permitted replay lag; it is
    reported as the primary and the sorted names of the replicas. *)
Theorem VerifyPatroniQuorum_spec maxLag members leader replicas :
  quorum_of members maxLag = Ok (leader, replicas) <->
  (0 <= maxLag)%Z /\ length members = 3%nat /\ Forall (sound_member maxLag) members /\ NoDup (map pm_Name members) /\
  map pm_Name (List.filter pm_Primary members) = [leader] /\
  replicas = sort_strings (map pm_Name (List.filter standby members)).
Proof. apply quorum_of_Ok. Qed.

(** C3: Whatever the cluster, the recovery adapter and the context answer, a roll
    touches a member only while the last inspection, after which no member was
    touched, showed a quorum led by another member, after the recovery of the
    data was verified, and when the journal names the member; leadership is
    switched over at most once, away from the observed leader, after a fresh
    journal entry.  This holds of every call, also of the calls of a roll that
    fails. *)
Theorem PrepareAndRollPatroniCluster_disciplined {S} (ctx : Ctx S) (gate : option (Gate S))
    (dcs : option (DCSRecoveryAdapter S)) i maxLag (w : S) :
  disciplined maxLag (snd (fst (PrepareAndRollPatroniCluster (beside_ctx ctx) (watch_gate <$> gate) (beside_adapter <$> dcs)
    i maxLag (w, [])))).
Proof.
  pose proof (run_PrepareAndRollPatroniCluster maxLag ctx gate dcs i (w, [])) as H. unfold run, stopped in H.
  destruct (PrepareAndRollPatroniCluster _ _ _ _ _ _) as [s' [[]|e]]; simpl in *; by apply H; [apply obeys_nil|].
Qed.

(** A roll that succeeds has verified the image of every member of the cluster
    after the last time it touched the member, and its last inspection shows a
    quorum led by one of these members. *)
Theorem RollPatroniCluster_rolled {S} (ctx : Ctx S) (gate : option (Gate S)) (dcs : option (DCSRecoveryAdapter S))
    evidence i maxLag (w w' : S) evs :
  RollPatroniCluster (beside_ctx ctx) (watch_gate <$> gate) (beside_adapter <$> dcs) evidence i maxLag (w, []) =
    ((w', evs), Ok tt) ->
  rolled maxLag evs.
Proof.
  intros Heq. pose proof (run_RollPatroniCluster maxLag ctx gate dcs evidence i (w, [])) as H.
  unfold run in H. rewrite Heq in H. by apply H; [apply obeys_nil|].
Qed.

(** ** A concrete cluster

    The state is the name of the leader and the names of the members that were
    recreated; one member stayed on the old image. *)
Module Example_cluster.
Definition member (leader name : string) : PatroniMemberState :=
  mkMember name (name == leader) (name != leader) 0 true.

Definition cluster : Type := string * list string.

Definition gate : Gate cluster :=
  mkGate (mret tt) (fun w => (w, Ok (member (fst w) <$> ["a"; "b"; "c"])))
    (fun name w => ((fst w, name :: snd w), Ok tt))
    (fun name w => (w, reject (negb (bool_decide (name ∈ snd w))) (errorsNew "old image")))
    (fun _ _ => mret tt) (fun _ => mret "") (fun _ _ => mret tt)
    (fun _ candidate w => ((candidate, snd w), Ok tt)).

Definition adapter : DCSRecoveryAdapter cluster :=
  mkAdapter (mret (mkEvidence "" "" "" "" "" "")) (fun _ => mret tt) (fun _ => mret tt) (fun _ => mret tt).

Definition background : Ctx cluster := mkCtx (mret tt) (mret tt) (fun _ => O) (fun _ => errorsNew "deadline").

Definition ids : identity := mkIdentity "i" "t" "c" "r".
Definition proof : DCSRecoveryEvidence := mkEvidence "i" "t" "c" "r" "s" (Join (repeat "0" 64) "").

Definition run_cluster_roll :=
  RollPatroniCluster (beside_ctx background) (watch_gate <$> Some gate) (beside_adapter <$> Some adapter) proof ids 0
    (("a", []), []).
End Example_cluster.

Lemma RollPatroniCluster_rolled_witness :
  rolled 0 (snd (fst Example_cluster.run_cluster_roll)) /\
  fst (fst Example_cluster.run_cluster_roll) = ("b", ["a"; "c"; "b"]).
Proof.
  split.
  - apply (RollPatroniCluster_rolled Example_cluster.background (Some Example_cluster.gate) (Some Example_cluster.adapter)
      Example_cluster.proof Example_cluster.ids 0 ("a", []) ("b", ["a"; "c"; "b"])).
    vm_compute. reflexivity.
  - vm_compute. reflexivity.
Defined.
