(* ===== verification/UpgradeContract.v ===== *)
(** * The contract of provider upgrades (internal/providerupgrade: version.go,
    contract.go)

    Versions of upstream providers and their order, upgrade requests, backup
    references and classified errors. *)

From S2P Require Import Prelude GoStrings UpdatePlan.

(** ** Versions *)

Record Version := mkVersion {
  vr_Major : Z;
  vr_Minor : Z;
  vr_Patch : Z }.

(** The text before the first [-] or [+] ([strings.IndexAny]). *)
Fixpoint before_suffix (s : string) : string :=
  match s with
  | EmptyString => EmptyString
  | String c s' => if bool_decide (c ∈ ["-"; "+"]%char) then EmptyString else String c (before_suffix s')
  end.

Definition version_core (value : string) : string := before_suffix (TrimSpace (TrimPrefix (TrimSpace value) "v")).

Definition parse_part (value part : string) : result error Z :=
  let unsupported := Errorf "unsupported version %q" [AStr value] in
  reject (part == "") unsupported ;;
  match Atoi part with
  | None => Err unsupported
  | Some n => reject (n <? 0)%Z unsupported ;; Ok n
  end.

Definition ParseVersion (value : string) : result error Version :=
  let value := version_core value in
  let parts := Split value "."%char in
  reject ((length parts <? 2)%nat || (3 <? length parts)%nat) (Errorf "unsupported version %q" [AStr value]) ;;
  numbers ← forE (fun numbers part => n ← parse_part value part; Ok (numbers ++ [n])) [] parts;
  Ok (mkVersion (nth 0 numbers 0%Z) (nth 1 numbers 0%Z) (nth 2 numbers 0%Z)).

(** Minus one, zero or one. *)
Definition Version_Compare (v other : Version) : Z :=
  if vr_Major v != vr_Major other then (if (vr_Major v <? vr_Major other)%Z then -1 else 1)%Z
  else if vr_Minor v != vr_Minor other then (if (vr_Minor v <? vr_Minor other)%Z then -1 else 1)%Z
  else if vr_Patch v != vr_Patch other then (if (vr_Patch v <? vr_Patch other)%Z then -1 else 1)%Z
  else 0%Z.

Definition Version_SameMinor (v other : Version) : bool :=
  (vr_Major v == vr_Major other) && (vr_Minor v == vr_Minor other).

(** ** Providers, classifications, requests *)

Definition ProviderOpenBao : string := "openbao".
Definition ProviderKeycloak : string := "keycloak".

Definition ClassificationNoChange : string := "NO_CHANGE".
Definition ClassificationSupported : string := "SUPPORTED".
Definition ClassificationUnsupported : string := "UNSUPPORTED".

Record Request := mkRequest {
  rq_CurrentVersion : string;
  rq_TargetVersion : string;
  rq_TargetImage : string;
  rq_TargetDigest : string }.

Definition Request_Validate (r : Request) : result error unit :=
  reject ((TrimSpace (rq_CurrentVersion r) == "") || (TrimSpace (rq_TargetVersion r) == ""))
    (errorsNew "current and target versions are required") ;;
  reject ((TrimSpace (rq_TargetImage r) == "") || (TrimSpace (rq_TargetDigest r) == ""))
    (errorsNew "target image and immutable digest are required") ;;
  reject (negb (HasPrefix (rq_TargetDigest r) "sha256:") || (len (rq_TargetDigest r) != len "sha256:" + 64)%Z)
    (errorsNew "target digest must be sha256") ;;
  reject (negb (hex_decodes (TrimPrefix (rq_TargetDigest r) "sha256:")))
    (errorsNew "target digest must contain 64 hexadecimal characters").

Record Assessment := mkAssessment {
  as_Classification : string;
  as_Reason : string;
  as_BackupRequired : bool }.

(** [bu_CreatedAt] is the instant; [None] is a nil map. *)
Record BackupRef := mkBackup {
  bu_Provider : string;
  bu_ID : string;
  bu_Version : string;
  bu_CreatedAt : Z;
  bu_Verified : bool;
  bu_Metadata : option (gmap string string) }.

Definition BackupRef_Validate (b : BackupRef) (provider version : string) : result error unit :=
  reject (bu_Provider b != provider)
    (Errorf "backup provider %q does not match %q" [AStr (bu_Provider b); AStr provider]) ;;
  reject (TrimSpace (bu_ID b) == "") (errorsNew "backup id is required") ;;
  reject (bu_Version b != version)
    (Errorf "backup version %q does not match installed %q" [AStr (bu_Version b); AStr version]) ;;
  reject (negb (bu_Verified b)) (errorsNew "backup is not verified").

(** ** Classified errors

    [&Error{Class, Op, Err}]; its text is [Class Op: Err].  [errors.As] walks the
    chain of wrapped errors, here the texts inside a text. *)
Definition upgrade_error_format : string := "%class %op: %w".

Definition Error_of (class op : string) (err : error) : error := Sprintf upgrade_error_format [AStr class; AStr op; ATxt err].

Fixpoint error_class (err : text) : option string :=
  match err with
  | Lit _ => None
  | Sprintf format args =>
      match format == upgrade_error_format, args with
      | true, AStr class :: _ => Some class
      | _, _ =>
          (fix first (args : list arg) : option string :=
             match args with
             | [] => None
             | ATxt err :: args => match error_class err with Some class => Some class | None => first args end
             | _ :: args => first args
             end) args
      end
  end.

(** [None] is nil. *)
Definition ClassOf (err : option error) : string := default "" (err ≫= error_class).

Definition classify_error (class op : string) (err : error) : error :=
  match error_class err with Some _ => err | None => Error_of class op err end.

Definition Wrap (class op : string) (err : option error) : option error := classify_error class op <$> err.

Definition ErrorInvalidState : string := "INVALID_STATE".
Definition ErrorUnsupportedPath : string := "UNSUPPORTED".
Definition ErrorBackupRequired : string := "BACKUP_REQUIRED".
Definition ErrorBackupInvalid : string := "BACKUP_INVALID".
Definition ErrorApplyFailed : string := "APPLY_FAILED".
Definition ErrorVerifyFailed : string := "VERIFY_FAILED".
Definition ErrorRecoveryFailed : string := "RECOVERY_FAILED".

Record Inventory := mkInventory {
  iv_Provider : string;
  iv_Version : string;
  iv_Topology : string;
  iv_Owner : string;
  iv_Healthy : bool;
  iv_Details : list (string * text) }.

(** ** Checks that the adapters share

    The preflight of both adapters after the inventory: [name] and [title] are
    the names of the provider in the errors. *)
Definition preflight_checks (name title unhealthy : string) (req : Request) (inventory : Inventory)
    : result error (Version * Version) :=
  let op := name +:+ " preflight" in
  reject (iv_Owner inventory != "baseharbor")
    (classify_error ErrorUnsupportedPath op (errorsNew ("foreign " +:+ title +:+ " realization must not be mutated"))) ;;
  reject (iv_Version inventory != rq_CurrentVersion req)
    (classify_error ErrorInvalidState op
       (Errorf "observed version %q differs from planned %q" [AStr (iv_Version inventory); AStr (rq_CurrentVersion req)])) ;;
  reject (negb (iv_Healthy inventory)) (classify_error ErrorInvalidState op (errorsNew unhealthy)) ;;
  current ← wrap_err (classify_error ErrorUnsupportedPath (name +:+ " version")) (ParseVersion (rq_CurrentVersion req));
  target ← wrap_err (classify_error ErrorUnsupportedPath (name +:+ " version")) (ParseVersion (rq_TargetVersion req));
  reject (Version_Compare current target == 1%Z)
    (classify_error ErrorUnsupportedPath op (errorsNew "downgrade is not supported")) ;;
  Ok (current, target).

(** The provider and the version a created backup does not name are filled in. *)
Definition complete_backup (provider version : string) (b : BackupRef) : BackupRef :=
  mkBackup (if bu_Provider b == "" then provider else bu_Provider b) (bu_ID b)
    (if bu_Version b == "" then version else bu_Version b) (bu_CreatedAt b) (bu_Verified b) (bu_Metadata b).

(** ** Facts *)

Lemma preflight_checks_Ok name title unhealthy req inventory current target :
  preflight_checks name title unhealthy req inventory = Ok (current, target) ->
  iv_Owner inventory = "baseharbor" /\ iv_Version inventory = rq_CurrentVersion req /\ iv_Healthy inventory = true /\
  ParseVersion (rq_CurrentVersion req) = Ok current /\ ParseVersion (rq_TargetVersion req) = Ok target /\
  (Version_Compare current target <> 1)%Z.
Proof.
  unfold preflight_checks. intros H. inv_ok H. injection H as <- <-.
  rewrite neqb_false in Hc, Hc0. apply negb_false_iff in Hc1. apply wrap_err_Ok in Hr, Hr0. apply bool_decide_eq_false in Hc2.
  done.
Qed.

(** The lexicographic order of the three numbers. *)
Definition version_lt (v w : Version) : Prop :=
  (vr_Major v < vr_Major w \/
   (vr_Major v = vr_Major w /\ (vr_Minor v < vr_Minor w \/ (vr_Minor v = vr_Minor w /\ vr_Patch v < vr_Patch w))))%Z.

Lemma Version_Compare_cases v w :
  (Version_Compare v w = -1 /\ version_lt v w)%Z \/ (Version_Compare v w = 0%Z /\ v = w) \/
  (Version_Compare v w = 1%Z /\ version_lt w v).
Proof.
  unfold Version_Compare, version_lt. destruct v as [a b c], w as [a' b' c']. simpl.
  repeat (case_bool_decide; simpl); repeat match goal with |- context [(?x <? ?y)%Z] => destruct (Z.ltb_spec x y) end;
    subst; first [left; split; [done|lia] | right; right; split; [done|lia] | right; left; done].
Qed.

Lemma version_lt_irrefl v : ~ version_lt v v.
Proof. unfold version_lt. lia. Qed.

Lemma version_lt_trans u v w : version_lt u v -> version_lt v w -> version_lt u w.
Proof. unfold version_lt. lia. Qed.

Lemma Version_Compare_lt v w : Version_Compare v w = (-1)%Z <-> version_lt v w.
Proof.
  destruct (Version_Compare_cases v w) as [[-> H]|[[-> ->]|[-> H]]]; (split; intros Hx; try done).
  - by apply version_lt_irrefl in Hx.
  - exfalso. by apply (version_lt_irrefl v), (version_lt_trans v w v).
Qed.

Lemma Version_Compare_eq v w : Version_Compare v w = 0%Z <-> v = w.
Proof.
  destruct (Version_Compare_cases v w) as [[-> H]|[[-> ->]|[-> H]]]; (split; intros Hx; try done); subst;
    by apply version_lt_irrefl in H.
Qed.

Lemma Version_Compare_opp v w : Version_Compare w v = (- Version_Compare v w)%Z.
Proof.
  destruct (Version_Compare_cases v w) as [[-> H]|[[-> ->]|[-> H]]].
  - destruct (Version_Compare_cases w v) as [[_ H']|[[_ ->]|[-> _]]]; [|by apply version_lt_irrefl in H|done].
    exfalso. by apply (version_lt_irrefl v), (version_lt_trans v w v).
  - by apply Version_Compare_eq.
  - by apply Version_Compare_lt.
Qed.

(** The comparison of versions is a total order, the lexicographic one: it is
    antisymmetric, zero only on equal versions, and transitive. *)
Theorem Version_Compare_order u v w :
  ((Version_Compare u v = -1)%Z <-> version_lt u v) /\ (Version_Compare u v = 0%Z <-> u = v) /\
  Version_Compare v u = (- Version_Compare u v)%Z /\
  ((Version_Compare u v <= 0)%Z -> (Version_Compare v w <= 0)%Z -> (Version_Compare u w <= 0)%Z).
Proof.
  split_and!; [apply Version_Compare_lt|apply Version_Compare_eq|apply Version_Compare_opp|].
  destruct (Version_Compare_cases u v) as [[-> Huv]|[[_ ->]|[-> _]]]; [|done|lia]. intros _.
  destruct (Version_Compare_cases v w) as [[-> Hvw]|[[_ <-]|[-> _]]]; [| |lia].
  - intros _. by rewrite (proj2 (Version_Compare_lt u w)) by (by eapply version_lt_trans).
  - by rewrite (proj2 (Version_Compare_lt u v) Huv).
Qed.

(** A classified error keeps its first class however often it is wrapped, and
    only an error that is not nil has one. *)
Lemma ClassOf_Wrap class op err :
  ClassOf (Wrap class op err) = match err with None => "" | Some e => default class (error_class e) end.
Proof.
  destruct err as [e|]; [|done]. unfold ClassOf, Wrap, classify_error. simpl. destruct (error_class e) eqn:He; [|done].
  simpl. by rewrite He.
Qed.
