(* ===== verification/Release.v ===== *)
(** * The release catalogue (internal/coreupdate/catalog.go)

    The provider set of a release is read from the files compiled into the
    program; embed and encoding/json enter as an interface. *)

From S2P Require Import Prelude GoStrings UpdatePlan.

(** ** Data *)

Record BackingPin := mkBackingPin {
  bk_Role : string;
  bk_Version : string;
  bk_Image : string;
  bk_Digest : string }.

Record ReleaseManifest := mkRelease {
  rm_Release : string;
  rm_Providers : list Desired;
  rm_Backing : list BackingPin }.

(** [release_file] is the embedded directory; [release_decode] reads one object
    without unknown fields, and says whether the file ends after it. *)
Class ReleaseCatalog := mkReleaseCatalog {
  release_file : string -> result error string;
  release_decode : string -> result error (ReleaseManifest * bool) }.

(** ** Loading *)

Definition is_digit (c : ascii) : bool := bool_decide (is_Some (digit_val c)).

(** The pattern [^[0-9]+\.[0-9]+\.[0-9]+$]. *)
Definition releaseVersionPattern (version : string) : bool :=
  match Split version "."%char with
  | [a; b; c] => forallb (fun part => (part != "") && all_bytes is_digit part) [a; b; c]
  | _ => false
  end.

Definition normalized_version (version : string) : string := TrimPrefix (TrimSpace version) "v".

Definition pin_complete (backing : BackingPin) : bool :=
  negb ((bk_Role backing == "") || (bk_Version backing == "") || (bk_Image backing == "") ||
        negb (validDigest (bk_Digest backing))).

Definition add_backing (seen : gset string) (backing : BackingPin) : result error (gset string) :=
  reject (bool_decide (bk_Role backing ∈ seen) || negb (pin_complete backing))
    (Errorf "invalid/duplicate Core backing image role %q" [AStr (bk_Role backing)]) ;;
  Ok ({[bk_Role backing]} ∪ seen).

Definition required_roles : list string := ["keycloak-single-postgresql"; "keycloak-ha-postgresql"].

Definition LoadRelease {catalog : ReleaseCatalog} (version : string) : result error ReleaseManifest :=
  let normalized := normalized_version version in
  reject (negb (releaseVersionPattern normalized)) (Errorf "invalid Core release version %q" [AStr version]) ;;
  payload ← wrap_err (fun err => Errorf "no immutable Core provider set for release %s: %w" [AStr normalized; ATxt err])
    (release_file ("releases/v" +:+ normalized +:+ ".json"));
  '(release, last) ← wrap_err (fun err => Errorf "invalid Core release manifest: %w" [ATxt err]) (release_decode payload);
  reject (negb last) (errorsNew "Core release manifest contains trailing data") ;;
  reject (rm_Release release != normalized) (errorsNew "Core release manifest version mismatch") ;;
  Build normalized [] (rm_Providers release) ;;
  seen ← forE add_backing ∅ (rm_Backing release);
  forE (fun _ required =>
    reject (negb (bool_decide (required ∈ seen))) (Errorf "Core release lacks backing role %s" [AStr required]))
    tt required_roles ;;
  Ok release.

(** ** Facts *)

(** A provider that is pinned. *)
Definition provider_pinned (d : Desired) : Prop :=
  validKind (ds_Kind d) = true /\ ds_Version d <> "" /\ ds_Image d <> "" /\ validDigest (ds_Digest d) = true.

(** The references are the items seen so far, of distinct kinds. *)
Lemma add_references_distinct items references out :
  forE add_reference references items = Ok out ->
  (forall kind item, references !! kind = Some item -> ds_Kind item = kind /\ kind <> "") ->
  Forall provider_pinned items /\ NoDup (map ds_Kind items) /\
  (forall item, item ∈ items -> references !! ds_Kind item = None) /\
  (forall kind, is_Some (out !! kind) -> is_Some (references !! kind) \/ kind ∈ map ds_Kind items).
Proof.
  revert references. induction items as [|item items IH]; intros references.
  - intros [= ->] _. split_and!; [constructor|constructor|by intros ? ?%not_elem_of_nil|by left].
  - rewrite forE_cons, bind_Ok. intros (refs & Hadd & Hout) Hok. unfold add_reference in Hadd. inv_ok Hadd. injection Hadd as <-.
    apply orb_false_iff in Hc as [Hk%negb_false_iff Hdup]. rewrite neqb_false in Hdup.
    apply orb_false_iff in Hc0 as [Hc0 Hd%negb_false_iff]. apply orb_false_iff in Hc0 as [Hv%eqb_false Hi%eqb_false].
    assert (references !! ds_Kind item = None) as Hnew.
    { destruct (references !! ds_Kind item) as [old|] eqn:Hold; [|done]. simpl in Hdup.
      destruct (Hok _ _ Hold) as [Heq Hne]. by rewrite Heq in Hdup. }
    assert (ds_Kind item <> "") as Hne by (intros Hx; rewrite Hx in Hk; by vm_compute in Hk).
    apply IH in Hout as (Hall & Hnd & Hfresh & Hdom).
    2:{ intros kind x. rewrite lookup_insert_Some. intros [[H1 H2]|[_ Hx]]; [by subst|by apply Hok]. }
    split_and!.
    + by constructor.
    + simpl. apply NoDup_cons. split; [|done]. intros (x & Heq & Hx)%list_elem_of_fmap.
      specialize (Hfresh x Hx). rewrite <- Heq in Hfresh. by rewrite lookup_insert_eq in Hfresh.
    + intros x [->|Hx]%elem_of_cons; [done|]. specialize (Hfresh x Hx). by apply lookup_insert_None in Hfresh as [? _].
    + intros kind [H|H]%Hdom; [|right; by right].
      destruct (decide (ds_Kind item = kind)) as [<-|Hk']; [right; by left|]. rewrite lookup_insert_ne in H by done. by left.
Qed.

Lemma all_kinds kinds :
  NoDup kinds -> Forall (fun kind => validKind kind = true) kinds -> (forall kind, kind ∈ [SQL; Secrets; Identity] -> kind ∈ kinds) ->
  kinds ≡ₚ [SQL; Secrets; Identity].
Proof.
  intros Hnd Hv Hin. apply NoDup_Permutation; [done|by apply (bool_decide_unpack _); vm_compute|].
  intros kind. split; [|apply Hin]. intros Hk. rewrite Forall_forall in Hv. specialize (Hv _ Hk).
  unfold validKind in Hv. rewrite !orb_true_iff, !bool_decide_eq_true in Hv. set_solver.
Qed.

Lemma Build_providers release providers plan :
  Build release [] providers = Ok plan ->
  Forall provider_pinned providers /\ map ds_Kind providers ≡ₚ [SQL; Secrets; Identity].
Proof.
  unfold Build. intros Hb. inv_ok Hb. apply add_references_distinct in Hr as (Hall & Hnd & _ & Hdom); [|done].
  split; [done|]. apply all_kinds; [done| |].
  - apply Forall_map. eapply Forall_impl; [exact Hall|]. by intros d [? _].
  - intros kind Hk. assert (is_Some (x !! kind)) as Hx.
    { eapply mandatory_reference; [exact Hr0|]. rewrite !elem_of_cons, elem_of_nil in Hk. by destruct_or!; subst. }
    destruct (Hdom kind Hx) as [[? H]|H]; [by rewrite lookup_empty in H|done].
Qed.

Lemma add_backing_Ok seen backing out :
  add_backing seen backing = Ok out <->
  pin_complete backing = true /\ bk_Role backing ∉ seen /\ out = {[bk_Role backing]} ∪ seen.
Proof.
  unfold add_backing. rewrite reject_seq_Ok, orb_false_iff, bool_decide_eq_false, negb_false_iff. naive_solver.
Qed.

(** C38: A release that loads is well formed: it is the release that was asked for,
    it has exactly one provider of each kind, all of them pinned to a digest,
    and backing images of distinct roles, pinned too, among them the mandatory
    ones. *)
Theorem LoadRelease_well_formed `{ReleaseCatalog} version release :
  LoadRelease version = Ok release ->
  rm_Release release = normalized_version version /\ releaseVersionPattern (rm_Release release) = true /\
  map ds_Kind (rm_Providers release) ≡ₚ [SQL; Secrets; Identity] /\ Forall provider_pinned (rm_Providers release) /\
  NoDup (map bk_Role (rm_Backing release)) /\ Forall (fun b => pin_complete b = true) (rm_Backing release) /\
  required_roles ⊆ map bk_Role (rm_Backing release).
Proof.
  unfold LoadRelease. intros Hl. inv_ok Hl. destruct x0 as [rel last]. inv_ok Hl. injection Hl as <-.
  apply negb_false_iff in Hc. rewrite neqb_false in Hc1. apply Build_providers in Hr1 as [Hp Hk].
  apply (forE_seen_empty _ _ _ add_backing_Ok) in Hr2 as (Hb & Hnd & ->).
  split_and!; try done; [by rewrite Hc1|]. destruct x2. rewrite forE_unit_Ok, Forall_forall in Hr3.
  intros role Hrole. specialize (Hr3 role Hrole). rewrite reject_Ok, negb_false_iff, bool_decide_eq_true in Hr3.
  by apply elem_of_list_to_set in Hr3.
Qed.

(** The shipped catalogue (releases/v0.4.24.json). *)
Definition shipped_release : ReleaseManifest :=
  mkRelease "0.4.24"
    [mkDesired SQL "docker.io/library/postgres:18-alpine" "sha256:77f585114c32fbca283dc835b0596f4e52b51b4c6662d7810b2f4084f60a1873" "18";
     mkDesired Secrets "docker.io/openbao/openbao:2.7.1" "sha256:6d2b93856e3fcf7b18ad855a0b51eaba474dc8b79cf554379ea32034797d2acf" "2.7.1";
     mkDesired Identity "quay.io/keycloak/keycloak:26.8.0" "sha256:b0f60d489d51c5d113390bdf5461d4c06e6051be026c05549f2e1e10ec352bcc" "26.8.0"]
    [mkBackingPin "keycloak-ha-postgresql" "18-spilo-4.1-p2" "ghcr.io/zalando/spilo-18:4.1-p2"
       "sha256:258a87d34699387f3b6b45d30874c21c6b838ed51c9371ae2a70151d57137990";
     mkBackingPin "keycloak-single-postgresql" "18" "docker.io/library/postgres:18-alpine"
       "sha256:77f585114c32fbca283dc835b0596f4e52b51b4c6662d7810b2f4084f60a1873";
     mkBackingPin "core-ha-postgresql" "18-spilo-4.1-p2" "ghcr.io/zalando/spilo-18:4.1-p2"
       "sha256:258a87d34699387f3b6b45d30874c21c6b838ed51c9371ae2a70151d57137990"].

Definition shipped_catalog : ReleaseCatalog :=
  mkReleaseCatalog (fun path => if path == "releases/v0.4.24.json" then Ok "{}" else Err (errorsNew "file does not exist"))
    (fun _ => Ok (shipped_release, true)).

Lemma LoadRelease_well_formed_witness :
  LoadRelease (catalog := shipped_catalog) " v0.4.24" = Ok shipped_release /\
  map ds_Kind (rm_Providers shipped_release) ≡ₚ [SQL; Secrets; Identity] /\
  NoDup (map bk_Role (rm_Backing shipped_release)).
Proof.
  assert (Hl : LoadRelease (catalog := shipped_catalog) " v0.4.24" = Ok shipped_release) by (vm_compute; reflexivity).
  destruct (LoadRelease_well_formed (H := shipped_catalog) " v0.4.24" shipped_release Hl) as (_ & _ & Hk & _ & Hr & _).
  split; [exact Hl|]. split; [exact Hk|exact Hr].
Defined.
