(* ===== verification/Checkpoint.v ===== *)
(** * The checkpoint of the cluster store (internal/coreupdate:
    dcs_checkpoint.go, patroni_cluster_roll.go)

    The recovery evidence of an update is kept in a receipt that is written
    once; a resumed update verifies that evidence again and takes no other
    snapshot.  encoding/json enters as an interface. *)

From S2P Require Import Prelude GoStrings FileSystem Codec Effects UpdatePlan UpdateJournal Patroni.

(** [evidence_decode] reads one object without unknown fields, and says whether
    nothing follows it. *)
Class EvidenceJSON := mkEvidenceJSON {
  evidence_encode : DCSRecoveryEvidence -> result error string;
  evidence_decode : string -> result error (DCSRecoveryEvidence * bool) }.

Section checkpoint.
Context {os : OS} {dirs : Dirs} {json : EvidenceJSON} {S : Type} (ctx : Ctx S).
Abbreviation state := (S * disk)%type.

(** The receipt that is there. *)
Definition read_receipt (path : string) (fs : fsys) : result error DCSRecoveryEvidence :=
  attempt (OpOpen path) ;;
  wrap_err (fun err => Errorf "corrupt DCS receipt: %w" [ATxt err])
    (data ← wrap_err oe_text (ReadFile fs path);
     '(evidence, last) ← evidence_decode (limit_bytes 4096 data);
     reject (negb last) (errorsNew "trailing DCS receipt data") ;;
     Ok evidence).

Definition resume_receipt (path : string) (existing : file) (adapter : option (DCSRecoveryAdapter S)) (i : identity)
    : M state DCSRecoveryEvidence := fun s =>
  (checkM (negb (f_Regular existing) || (Z.land (f_Perm existing) shared_bits != 0)%Z) (errorsNew "unsafe DCS receipt file") ;;
   evidence ← pureM (read_receipt path (dk_Files (snd s)));
   onFst (VerifyDCSEvidence ctx adapter evidence i) ;;
   mret evidence) s.

Definition new_receipt (path : string) (adapter : option (DCSRecoveryAdapter S)) (i : identity) : M state DCSRecoveryEvidence :=
  evidence ← onFst (CaptureAndVerifyDCS ctx adapter i);
  data ← pureM (evidence_encode evidence);
  onSnd (create_synced (dir_of path) path (data +:+ newline)) ;;
  mret evidence.

(** [DCSCheckpoint{path}.Acquire] *)
Definition Acquire (path : string) (adapter : option (DCSRecoveryAdapter S)) (i : identity) : M state DCSRecoveryEvidence := fun s =>
  (checkM (path == "") (errorsNew "durable DCS recovery receipt path required") ;;
   pureM (requireM adapter ErrDCSUnsupported) ;;
   pureM (private_dir (dir_of path) "DCS receipt directory must be owner-only") ;;
   match Lstat (dk_Files (snd s)) path with
   | Ok existing => resume_receipt path existing adapter i
   | Err err => if oe_NotExist err then new_receipt path adapter i else pureM (Err (oe_text err))
   end) s.

(** Everything that can be lost is recoverable before anything changes: the
    data, then the evidence, then the inspection of the untouched cluster, then
    the images ([stage]), then the members. *)
Definition StageAndRollPatroniCluster (gate : option (Gate S)) (dcs : option (DCSRecoveryAdapter S)) (checkpoint : string)
    (stage : M S unit) (i : identity) (maxLag : Z) : M state unit :=
  present ← pureM (requireM gate (errorsNew "native Patroni rolling provider is unavailable"));
  wrapM (fun err => Errorf "PostgreSQL physical backup verification failed: %w" [ATxt err]) (onFst (gt_VerifyRecovery present)) ;;
  evidence ← Acquire checkpoint dcs i;
  onFst (gt_VerifyRecovery present) ;;
  onFst (VerifyDCSEvidence ctx dcs evidence i) ;;
  members ← wrapM (fun err => Errorf "inspect Patroni before immutable image staging: %w" [ATxt err]) (onFst (gt_Inspect present));
  wrapM (fun err => Errorf "Patroni pre-stage quorum: %w" [ATxt err]) (onFst (VerifyPatroniQuorum (cx_Err ctx) members maxLag)) ;;
  wrapM (fun err => Errorf "stage owned immutable Spilo images: %w" [ATxt err]) (onFst stage) ;;
  onFst (RollPatroniCluster ctx gate dcs evidence i maxLag).
End checkpoint.

(** ** The evidence of an update is captured once *)

(** The evidence is read back from the receipt that is written of it. *)
Definition evidence_kept {json : EvidenceJSON} (evidence : DCSRecoveryEvidence) : Prop :=
  forall data, evidence_encode evidence = Ok data ->
    (len data < 4096)%Z /\ evidence_decode (data +:+ newline) = Ok (evidence, true).

Section captured.
Context {os : OS} {dirs : Dirs} {json : EvidenceJSON} {S : Type} (ctx : Ctx S) (path : string) (i : identity).
Context (adapter : option (DCSRecoveryAdapter S)).

(** A receipt from which the evidence is read. *)
Definition receipt_of (evidence : DCSRecoveryEvidence) (f : file) : Prop :=
  f_Regular f = true /\ Z.land (f_Perm f) shared_bits = 0%Z /\
  evidence_decode (limit_bytes 4096 (f_Data f)) = Ok (evidence, true).

Lemma read_receipt_Ok fs f evidence :
  fs !! path = Some f -> read_receipt path fs = Ok evidence ->
  evidence_decode (limit_bytes 4096 (f_Data f)) = Ok (evidence, true).
Proof.
  unfold read_receipt, ReadFile. intros Hf. rewrite seq_Ok, wrap_err_Ok. intros [_ H]. apply bind_Ok in H as (data & Hd & H).
  apply wrap_err_Ok in Hd. destruct (os_fault (OpRead path)); [done|]. rewrite Hf in Hd. injection Hd as <-.
  apply bind_Ok in H as ([ev last] & Hd & H). apply reject_seq_Ok in H as [Hl [= <-]].
  by destruct last.
Qed.

Lemma evidence_kept_receipt evidence data :
  evidence_kept evidence -> evidence_encode evidence = Ok data ->
  receipt_of evidence (mkFile (data +:+ newline) true owner_only).
Proof.
  intros Hk He. destruct (Hk data He) as [Hlen Hd]. split_and!; [done|done|]. simpl. rewrite limit_bytes_all; [done|].
  unfold len in *. rewrite strlen_app. change (strlen newline) with 1%nat. lia.
Qed.

(** A successful acquisition leaves a receipt of the evidence it returns. *)
Lemma Acquire_receipt w dk w' dk' evidence :
  evidence_kept evidence -> Acquire ctx path adapter i (w, dk) = ((w', dk'), Ok evidence) ->
  path <> "" /\ exists f, dk_Files dk' !! path = Some f /\ receipt_of evidence f.
Proof.
  intros Hkept Ha. unfold Acquire in Ha.
  assert (run (fun s => Acquire ctx path adapter i s) (w, dk) (fun evidence s' => evidence_kept evidence ->
    path <> "" /\ exists f, dk_Files (snd s') !! path = Some f /\ receipt_of evidence f) (fun _ => True)) as Hrun.
  2:{ unfold run in Hrun. unfold Acquire in Hrun. rewrite Ha in Hrun. by apply Hrun. }
  clear Ha Hkept evidence w' dk'. unfold run, Acquire. simpl snd.
  apply run_bind, run_pure. destruct (path == "") eqn:Hp; [done|]. apply bool_decide_eq_false in Hp. simpl.
  apply run_bind, run_pure. destruct (requireM adapter ErrDCSUnsupported); [|done].
  apply run_bind, run_pure. destruct (private_dir _ _) as [[]|]; [|done].
  unfold Lstat. destruct (os_fault (OpLstat path)); [done|]. destruct (dk_Files dk !! path) as [f|] eqn:Hf; simpl.
  - unfold resume_receipt. simpl snd. apply (run_bind _ _ (w, dk)), run_pure.
    destruct (negb _ || _) eqn:Hsafe; [done|]. simpl. apply orb_false_iff in Hsafe as [Hreg%negb_false_iff Hperm].
    rewrite neqb_false in Hperm. apply run_bind, run_pure.
    destruct (read_receipt path (dk_Files dk)) as [evidence|] eqn:Hr; [|done]. eapply read_receipt_Ok in Hr; [|done].
    apply run_bind, run_onFst. unfold run. destruct (VerifyDCSEvidence _ _ _ _ _) as [w1 [[]|]]; [|done].
    intros _. split; [done|]. by exists f.
  - unfold new_receipt. apply run_bind, run_onFst. unfold run.
    destruct (CaptureAndVerifyDCS _ _ _ _) as [w1 [evidence|]]; [|done]. simpl.
    apply (run_bind _ _ (w1, dk)), run_pure. destruct (evidence_encode evidence) as [data|] eqn:Hd; [|done].
    apply run_bind, run_onSnd. simpl. unfold run. destruct (create_synced _ _ _ dk) as [dk1 [[]|]] eqn:Hc; [|done].
    apply create_synced_spec in Hc as [_ Hc]. intros Hkept. split; [done|]. simpl. rewrite (proj2 (Hc eq_refl)).
    eexists. split; [done|]. by apply evidence_kept_receipt.
Qed.
End captured.

(** What a resumed update does with evidence: it verifies it. *)
Definition verified_again {S} (ctx : Ctx S) adapter evidence i (w : S) (dk : disk) : (S * disk) * result error DCSRecoveryEvidence :=
  match VerifyDCSEvidence ctx adapter evidence i w with
  | (w', Ok _) => ((w', dk), Ok evidence)
  | (w', Err err) => ((w', dk), Err err)
  end.

(** The evidence of an update is captured once: after a successful acquisition,
    any later one, whatever the adapter, the identity and the context are then,
    returns the same evidence or an error, takes no snapshot and writes nothing,
    as long as the receipt is there and can be read. *)
Theorem Acquire_once `{json : EvidenceJSON} {S} (os os' : OS) (dirs dirs' : Dirs) (ctx ctx' : Ctx S) path
    adapter adapter' i i' w w' w1 dk dk' dk1 evidence :
  evidence_kept evidence ->
  Acquire (os := os) (dirs := dirs) ctx path adapter i (w, dk) = ((w', dk'), Ok evidence) ->
  dk_Files dk1 !! path = dk_Files dk' !! path -> adapter' <> None ->
  @os_fault os' (OpLstat path) = None -> @os_fault os' (OpOpen path) = None -> @os_fault os' (OpRead path) = None ->
  private_dir (dirs := dirs') (dir_of path) "DCS receipt directory must be owner-only" = Ok tt ->
  Acquire (os := os') (dirs := dirs') ctx' path adapter' i' (w1, dk1) = verified_again ctx' adapter' evidence i' w1 dk1.
Proof.
  intros Hk Ha Hsame Had H1 H2 H3 Hdir.
  destruct (Acquire_receipt ctx path i adapter w dk w' dk' evidence Hk Ha) as (Hp & f & Hf & Hreg & Hperm & Hd).
  rewrite Hf in Hsame. destruct adapter' as [a|]; [|done].
  unfold Acquire, mbind, M_bind, pureM, checkM, requireM. simpl. rewrite (proj2 (eqb_false path "") Hp), Hdir. simpl.
  unfold Lstat. rewrite H1, Hsame. unfold resume_receipt, mbind, M_bind, pureM, checkM. simpl. rewrite Hreg, Hperm. simpl.
  unfold read_receipt, attempt, ReadFile. rewrite H2, H3, Hsame. simpl. rewrite Hd. simpl.
  unfold verified_again, onFst. simpl. by destruct (VerifyDCSEvidence _ _ _ _ _) as [w2 [[]|]].
Qed.

(** ** A sample: the state counts the snapshots *)
Module Example_checkpoint.
Definition fields_of (e : DCSRecoveryEvidence) : list string :=
  [ev_Installation e; ev_Target e; ev_Cluster e; ev_Release e; ev_SnapshotID e; ev_SHA256 e].

Definition json : EvidenceJSON :=
  mkEvidenceJSON (fun e => Ok (encode_text (fields_of e)))
    (fun data => match decode_text data with
                 | Some [a; b; c; d; e; f] => Ok (mkEvidence a b c d e f, true)
                 | _ => Err (errorsNew "unexpected end of JSON input")
                 end).

Definition evidence : DCSRecoveryEvidence := mkEvidence "i" "t" "c" "r" "s" (Join (repeat "0" 64) "").

Definition adapter : DCSRecoveryAdapter nat :=
  mkAdapter (fun n => (S n, Ok evidence)) (fun _ => mret tt) (fun _ => mret tt) (fun _ => mret tt).

Definition background : Ctx nat := mkCtx (mret tt) (mret tt) (fun _ => O) (fun _ => errorsNew "deadline").
Definition ids : identity := mkIdentity "i" "t" "c" "r".

Definition acquire (s : nat * disk) :=
  Acquire (os := sample_journal_os) (dirs := sample_dirs) (json := json) background "/core/dcs.json" (Some adapter) ids s.

Definition first := acquire (O, mkDisk ∅ []).
End Example_checkpoint.

Lemma Acquire_once_witness :
  fst (fst Example_checkpoint.first) = 1%nat /\
  Example_checkpoint.acquire (fst Example_checkpoint.first) =
    verified_again Example_checkpoint.background (Some Example_checkpoint.adapter) Example_checkpoint.evidence Example_checkpoint.ids
      1%nat (snd (fst Example_checkpoint.first)).
Proof.
  split; [vm_compute; reflexivity|].
  assert (Hpair : fst Example_checkpoint.first = (1%nat, snd (fst Example_checkpoint.first))) by (vm_compute; reflexivity).
  rewrite Hpair.
  apply (Acquire_once (json := Example_checkpoint.json) sample_journal_os sample_journal_os sample_dirs sample_dirs
    Example_checkpoint.background Example_checkpoint.background "/core/dcs.json" (Some Example_checkpoint.adapter)
    (Some Example_checkpoint.adapter) Example_checkpoint.ids Example_checkpoint.ids O 1%nat 1%nat (mkDisk ∅ [])
    (snd (fst Example_checkpoint.first)) (snd (fst Example_checkpoint.first)) Example_checkpoint.evidence).
  - intros data Hd. split.
    + revert data Hd. apply encoded_size. vm_compute. reflexivity.
    + injection Hd as <-. unfold evidence_decode, Example_checkpoint.json. by rewrite decode_encode_text.
  - vm_compute. reflexivity.
  - reflexivity.
  - discriminate.
  - reflexivity.
  - reflexivity.
  - reflexivity.
  - vm_compute. reflexivity.
Defined.
