(* ===== verification/BoundProvider.v ===== *)
(** * Provider transactions (internal/coreupdate/provider_binding_transaction.go)

    The hooks that connect the provider adapters to the journaled execution of
    an update.  The reference of a backup is kept in a receipt that is written
    once per step; encoding/json enters as an interface. *)

From S2P Require Import Prelude GoStrings FileSystem Codec Effects Sha256 UpdatePlan UpdateJournal UpgradeContract.

(** ** Interfaces *)

(** The methods of [providerupgrade.Adapter] that the hooks call. *)
Record Adapter (S : Type) := mkProviderAdapter {
  ad_Backup : Request -> M S BackupRef;
  ad_Execute : Request -> BackupRef -> M S unit;
  ad_Verify : Request -> M S unit;
  ad_Recover : Request -> BackupRef -> M S unit }.

(** [br_ResolveRecovery] is a method that some registries have. *)
Record BoundProviderRegistry (S : Type) := mkBoundRegistry {
  br_Resolve : string -> M S (Adapter S);
  br_Preflight : string -> Request -> M S (Adapter S * Assessment);
  br_ResolveRecovery : option (string -> Request -> M S (Adapter S)) }.

Record BoundProviderTransaction (S : Type) := mkTransaction {
  bt_Registry : option (BoundProviderRegistry S);
  bt_BackupDirectory : string;
  bt_RecordExternal : option (Delta -> string -> M S unit) }.

Arguments mkProviderAdapter {S}.
Arguments ad_Backup {S}.
Arguments ad_Execute {S}.
Arguments ad_Verify {S}.
Arguments ad_Recover {S}.
Arguments mkBoundRegistry {S}.
Arguments br_Resolve {S}.
Arguments br_Preflight {S}.
Arguments br_ResolveRecovery {S}.
Arguments mkTransaction {S}.
Arguments bt_Registry {S}.
Arguments bt_BackupDirectory {S}.
Arguments bt_RecordExternal {S}.

(** [backup_decode] reads one object without unknown fields, and says whether
    nothing follows it. *)
Class BackupJSON := mkBackupJSON {
  backup_encode : BackupRef -> result error string;
  backup_decode : string -> result error (BackupRef * bool) }.

(** ** The step of a provider *)

Definition boundProvider (d : Delta) : result error (string * Request) :=
  let kind := rz_Kind (dl_Installed d) in
  provider ← (if kind == Secrets then Ok ProviderOpenBao
              else if kind == Identity then Ok ProviderKeycloak
              else Err (errorsNew "UNSUPPORTED: no native adapter for this provider kind"));
  Ok (provider, mkRequest (rz_Version (dl_Installed d)) (ds_Version (dl_Desired d)) (ds_Image (dl_Desired d)) (ds_Digest (dl_Desired d))).

Section transaction.
Context {os : OS} {dirs : Dirs} {keys : JournalJSON} {json : BackupJSON} {S : Type}.
Context (t : BoundProviderTransaction S).
Abbreviation state := (S * disk)%type.

Definition backupPath (d : Delta) : result error string :=
  reject (bt_BackupDirectory t == "") (errorsNew "durable provider backup receipt directory required") ;;
  Ok (filepath_Join [bt_BackupDirectory t; digest_text (JournalKey d) +:+ ".backup.json"]).

Definition loadBackup (d : Delta) (fs : fsys) : result error BackupRef :=
  path ← backupPath d;
  st ← wrap_err oe_text (Lstat fs path);
  reject (negb (f_Regular st) || (Z.land (f_Perm st) shared_bits != 0)%Z || (65536 <? len (f_Data st))%Z)
    (errorsNew "unsafe native provider backup receipt") ;;
  data ← wrap_err oe_text (ReadFile fs path);
  '(backup, last) ← backup_decode (limit_bytes 65537 data);
  reject (negb last) (errorsNew "provider backup receipt trailing data") ;;
  '(provider, req) ← boundProvider d;
  BackupRef_Validate backup provider (rq_CurrentVersion req) ;;
  Ok backup.

(** A receipt that is there must be of the same backup. *)
Definition same_backup (prior backup : BackupRef) : result error unit :=
  reject ((bu_ID prior != bu_ID backup) || (bu_Provider prior != bu_Provider backup) || (bu_Version prior != bu_Version backup))
    (errorsNew "provider recovery receipt identity changed on retry").

Definition persistBackup (d : Delta) (backup : BackupRef) : M disk unit := fun dk =>
  match path ← backupPath d; private_dir (dir_of path) "provider backup receipt directory must be private" ;; Ok path with
  | Err err => (dk, Err err)
  | Ok path =>
      match Lstat (dk_Files dk) path with
      | Ok _ => (dk, prior ← loadBackup d (dk_Files dk); same_backup prior backup)
      | Err err =>
          if oe_NotExist err then
            match backup_encode backup with
            | Err err => (dk, Err err)
            | Ok body => create_synced (dir_of path) path (body +:+ newline) dk
            end
          else (dk, Err (oe_text err))
      end
  end.

(** ** The hooks *)

Definition bound_registry : result error (BoundProviderRegistry S) := requireM (bt_Registry t) nil_call.

Definition preflight_delta (registry : BoundProviderRegistry S) (d : Delta) : M state unit :=
  if dl_Classification d == NoChange then mret tt
  else
    '(provider, req) ← pureM (boundProvider d);
    '(_, assessment) ← onFst (br_Preflight registry provider req);
    pureM (reject ((as_Classification assessment != ClassificationSupported) || negb (as_BackupRequired assessment))
      (Errorf "UNSUPPORTED: provider %s is not backup-safe for mutation" [AStr provider])).

Definition bound_Preflight (plan : Plan) : M state unit :=
  match bt_Registry t, bt_RecordExternal t with
  | Some registry, Some _ =>
      pureM (reject (bt_BackupDirectory t == "")
        (errorsNew "native provider registry, durable receipts and external evidence publisher required")) ;;
      rangeM (preflight_delta registry) (pl_Deltas plan)
  | _, _ => pureM (Err (errorsNew "native provider registry, durable receipts and external evidence publisher required"))
  end.

(** The backup that is taken when there is no receipt. *)
Definition take_backup (d : Delta) : M state unit :=
  '(provider, req) ← pureM (boundProvider d);
  registry ← pureM bound_registry;
  '(adapter, _) ← onFst (br_Preflight registry provider req);
  ref ← onFst (ad_Backup adapter req);
  pureM (BackupRef_Validate ref provider (rq_CurrentVersion req)) ;;
  onSnd (persistBackup d ref).

Definition bound_RecoveryPoint (d : Delta) : M state unit := fun s =>
  (path ← pureM (backupPath d);
   match Lstat (dk_Files (snd s)) path with
   | Ok _ => pureM (backup ← loadBackup d (dk_Files (snd s)); Ok tt)
   | Err err => if oe_NotExist err then take_backup d else pureM (Err (oe_text err))
   end) s.

Definition bound_Apply (d : Delta) : M state unit := fun s =>
  ('(provider, req) ← pureM (boundProvider d);
   backup ← pureM (loadBackup d (dk_Files (snd s)));
   registry ← pureM bound_registry;
   adapter ← onFst (br_Resolve registry provider);
   onFst (ad_Execute adapter req backup)) s.

Definition bound_Verify (d : Delta) : M state unit :=
  '(provider, req) ← pureM (boundProvider d);
  registry ← pureM bound_registry;
  adapter ← onFst (br_Resolve registry provider);
  onFst (ad_Verify adapter req).

Definition bound_Recover (d : Delta) (_ : string) : M state unit := fun s =>
  ('(provider, req) ← pureM (boundProvider d);
   backup ← pureM (loadBackup d (dk_Files (snd s)));
   registry ← pureM bound_registry;
   adapter ← onFst (match br_ResolveRecovery registry with
                    | Some resolve => resolve provider req
                    | None => br_Resolve registry provider
                    end);
   onFst (ad_Recover adapter req backup)) s.

(** [BoundProviderTransaction.Hooks] *)
Definition bound_Hooks : Hooks state :=
  mkHooks (Some bound_Preflight) (Some bound_RecoveryPoint) (Some bound_Recover) (Some bound_Apply) (Some bound_Verify)
    ((fun f d value => onFst (f d value)) <$> bt_RecordExternal t).
End transaction.

(** ** One backup per step *)

Section receipts.
Context {dirs : Dirs} {keys : JournalJSON} {json : BackupJSON} {S : Type} (t : BoundProviderTransaction S) (d : Delta).
Context (path : string) (path_ok : backupPath t d = Ok path).

(** A backup is read back from the receipt that is written of it. *)
Definition backup_kept (backup : BackupRef) : Prop :=
  forall data, backup_encode backup = Ok data -> (len data < 65536)%Z /\ backup_decode (data +:+ newline) = Ok (backup, true).

(** A receipt of a backup that fits the step. *)
Definition receipt_for (backup : BackupRef) (f : file) : Prop :=
  f_Regular f = true /\ Z.land (f_Perm f) shared_bits = 0%Z /\ (len (f_Data f) <= 65536)%Z /\
  backup_decode (limit_bytes 65537 (f_Data f)) = Ok (backup, true) /\
  exists provider req, boundProvider d = Ok (provider, req) /\ BackupRef_Validate backup provider (rq_CurrentVersion req) = Ok tt.

Lemma loadBackup_Ok `{OS} fs backup :
  loadBackup t d fs = Ok backup -> exists f, fs !! path = Some f /\ receipt_for backup f.
Proof.
  unfold loadBackup. rewrite path_ok. simpl. unfold Lstat, ReadFile. intros Hl. apply bind_Ok in Hl as (st & Hs & Hl).
  apply wrap_err_Ok in Hs. destruct (os_fault (OpLstat path)); [done|]. destruct (fs !! path) as [f|] eqn:Hf; [|done].
  injection Hs as <-. exists f. split; [done|]. apply reject_seq_Ok in Hl as [Hc Hl].
  apply bind_Ok in Hl as (data & Hd & Hl). apply wrap_err_Ok in Hd. destruct (os_fault (OpRead path)); [done|].
  injection Hd as <-. apply bind_Ok in Hl as ([backup' last] & Hd & Hl). apply reject_seq_Ok in Hl as [Hlast Hl].
  apply bind_Ok in Hl as ([provider req] & Hb & Hl). apply seq_Ok in Hl as [[[] Hv] [= <-]].
  rewrite !orb_false_iff, negb_false_iff, neqb_false, Z.ltb_ge in Hc. destruct last; [|done].
  destruct Hc as [[Hreg Hperm] Hlen]. split_and!; try done. by exists provider, req.
Qed.

Lemma loadBackup_receipt `{OS} fs f backup :
  fs !! path = Some f -> receipt_for backup f -> os_fault (OpLstat path) = None -> os_fault (OpRead path) = None ->
  loadBackup t d fs = Ok backup.
Proof.
  intros Hf (Hreg & Hperm & Hlen & Hd & provider & req & Hb & Hv) H1 H2. unfold loadBackup, Lstat, ReadFile.
  rewrite path_ok. simpl. rewrite H1, H2, Hf. simpl. rewrite Hreg, Hperm. simpl.
  apply Z.ltb_ge in Hlen. rewrite Hlen. simpl. rewrite Hd. simpl. rewrite Hb. simpl. by rewrite Hv.
Qed.

Lemma backup_kept_receipt backup data provider req :
  backup_kept backup -> backup_encode backup = Ok data -> boundProvider d = Ok (provider, req) ->
  BackupRef_Validate backup provider (rq_CurrentVersion req) = Ok tt -> receipt_for backup (mkFile (data +:+ newline) true owner_only).
Proof.
  intros Hk He Hb Hv. destruct (Hk data He) as [Hlen Hd].
  assert (len (data +:+ newline) <= 65536)%Z as Hn.
  { unfold len in *. rewrite strlen_app. change (strlen newline) with 1%nat. lia. }
  split_and!; [done|done|done| |by exists provider, req]. simpl. rewrite limit_bytes_all; [done|lia].
Qed.

(** A recovery point that succeeds leaves the receipt of a backup that fits. *)
Lemma bound_RecoveryPoint_receipt `{OS} w dk w' dk' :
  (forall backup data, backup_encode backup = Ok data -> dk_Files dk' !! path = Some (mkFile (data +:+ newline) true owner_only) ->
     backup_kept backup) ->
  bound_RecoveryPoint t d (w, dk) = ((w', dk'), Ok tt) ->
  exists backup f, dk_Files dk' !! path = Some f /\ receipt_for backup f.
Proof.
  intros Hkept. unfold bound_RecoveryPoint, pureM. unfold mbind at 1, M_bind at 1. rewrite path_ok. simpl.
  destruct (Lstat (dk_Files dk) path) as [st|err] eqn:Hl.
  { intros [= <- <- Hb]. apply bind_Ok in Hb as (backup & Hb & _).
    apply loadBackup_Ok in Hb as (f & Hf & Hr). by exists backup, f. }
  destruct (oe_NotExist err) eqn:Hne; [|done]. unfold take_backup, mbind, M_bind, pureM.
  destruct (boundProvider d) as [[provider req]|] eqn:Hb; [|done].
  destruct (bound_registry t) as [registry|]; [|done]. unfold onFst, onSnd. simpl.
  destruct (br_Preflight registry provider req w) as [w1 [[adapter assessment]|]]; [|done]. simpl.
  destruct (ad_Backup adapter req w1) as [w2 [backup|]]; [|done]. simpl.
  destruct (BackupRef_Validate backup provider (rq_CurrentVersion req)) as [[]|] eqn:Hv; [|done]. simpl.
  unfold persistBackup. rewrite path_ok. simpl.
  destruct (private_dir _ _) as [[]|]; [|done]. simpl. rewrite Hl, Hne.
  destruct (backup_encode backup) as [data|] eqn:He; [|done].
  destruct (create_synced _ _ _ dk) as [dk1 [[]|]] eqn:Hc; [|done]. intros [= <- <-].
  apply create_synced_spec in Hc as [_ Hc]. destruct (Hc eq_refl) as [_ Hf]. exists backup. eexists. split; [exact Hf|].
  eapply backup_kept_receipt; [by eapply Hkept|done..].
Qed.
End receipts.

(** The calls of [Apply] and [Recover] once the backup is known. *)
Definition execute_with {S} (t : BoundProviderTransaction S) (d : Delta) (backup : BackupRef) : M (S * disk) unit :=
  '(provider, req) ← pureM (boundProvider d);
  registry ← pureM (bound_registry t);
  adapter ← onFst (br_Resolve registry provider);
  onFst (ad_Execute adapter req backup).

(** C18: Each step has one backup: after a recovery point succeeded, and as long as
    its receipt is there and can be read, another recovery point of the step
    calls nothing, and the step is applied with exactly the backup of the
    receipt, which is verified and of the installed version. *)
Theorem RecoveryPoint_once `{Dirs} `{JournalJSON} `{BackupJSON} {S} (os os' : OS) (t : BoundProviderTransaction S) d path
    w w' dk dk' :
  backupPath t d = Ok path ->
  (forall backup data, backup_encode backup = Ok data -> dk_Files dk' !! path = Some (mkFile (data +:+ newline) true owner_only) ->
     backup_kept backup) ->
  bound_RecoveryPoint (os := os) t d (w, dk) = ((w', dk'), Ok tt) ->
  @os_fault os' (OpLstat path) = None -> @os_fault os' (OpRead path) = None ->
  exists backup, bu_Verified backup = true /\ bu_Version backup = rz_Version (dl_Installed d) /\
    forall w1 dk1, dk_Files dk1 !! path = dk_Files dk' !! path ->
      bound_RecoveryPoint (os := os') t d (w1, dk1) = ((w1, dk1), Ok tt) /\
      bound_Apply (os := os') t d (w1, dk1) = execute_with t d backup (w1, dk1).
Proof.
  intros Hp Hkept Hr H1' H2'.
  destruct (bound_RecoveryPoint_receipt t d path Hp w dk w' dk' Hkept Hr) as (backup & f & Hf & Hrec).
  pose proof Hrec as (_ & _ & _ & _ & provider & req & Hb & Hv).
  exists backup. unfold BackupRef_Validate in Hv. rewrite !reject_seq_Ok, reject_Ok in Hv. destruct Hv as (_ & _ & Hver & Hok).
  rewrite neqb_false in Hver. apply negb_false_iff in Hok.
  assert (rq_CurrentVersion req = rz_Version (dl_Installed d)) as Hreq.
  { unfold boundProvider in Hb. apply bind_Ok in Hb as (p & _ & [= _ <-]). done. }
  split; [done|]. split; [congruence|]. intros w1 dk1 Hsame. rewrite Hf in Hsame.
  pose proof (loadBackup_receipt (H := os') t d path Hp _ _ _ Hsame Hrec H1' H2') as Hload. split.
  - unfold bound_RecoveryPoint, mbind, M_bind, pureM. simpl. rewrite Hp. unfold Lstat. by rewrite H1', Hsame, Hload.
  - unfold bound_Apply, execute_with, mbind, M_bind, pureM. simpl. by rewrite Hb, Hload.
Qed.

(** ** A sample: the state counts the backups *)
Module Example_bound.
Definition json : BackupJSON :=
  mkBackupJSON
    (fun b => Ok (encode_text (bu_Provider b, bu_ID b, bu_Version b, bu_CreatedAt b, bu_Verified b, bu_Metadata b)))
    (fun data => match decode_text data with
                 | Some (a, b, c, e, f, g) => Ok (mkBackup a b c e f g, true)
                 | None => Err (errorsNew "unexpected end of JSON input")
                 end).

Definition backup : BackupRef := mkBackup ProviderOpenBao "b1" "2.7.0" 0 true None.

Definition adapter : Adapter nat :=
  mkProviderAdapter (fun _ n => (S n, Ok backup)) (fun _ _ => mret tt) (fun _ => mret tt) (fun _ _ => mret tt).

Definition registry : BoundProviderRegistry nat :=
  mkBoundRegistry (fun _ => mret adapter) (fun _ _ => mret (adapter, mkAssessment ClassificationSupported "" true)) None.

Definition transaction : BoundProviderTransaction nat := mkTransaction (Some registry) "/b" (Some (fun _ _ => mret tt)).

Definition delta : Delta :=
  mkDelta (mkRealization Secrets "i" "s" "openbao" "baseharbor" "openbao:2.7.0" (digest_of "1") "2.7.0")
    (mkDesired Secrets "openbao:2.7.1" (digest_of "2") "2.7.1") BackupRequired "".

Definition path : string := "/b/" +:+ digest_text (JournalKey (json := sample_journal_json) delta) +:+ ".backup.json".

Definition recovery (s : nat * disk) :=
  bound_RecoveryPoint (os := sample_journal_os) (dirs := sample_dirs) (keys := sample_journal_json) (json := json) transaction delta s.

Definition first := recovery (O, mkDisk ∅ []).

Lemma json_kept b data :
  backup_encode (BackupJSON := json) b = Ok data -> (len data < 65536)%Z -> backup_kept (json := json) b.
Proof.
  intros Hd Hlen data' Hd'. rewrite Hd in Hd'. injection Hd' as <-. split; [done|].
  injection Hd as <-. unfold backup_decode, json. rewrite decode_encode_text. by destruct b.
Qed.
End Example_bound.

Lemma RecoveryPoint_once_witness :
  fst (fst Example_bound.first) = 1%nat /\
  Example_bound.recovery (fst Example_bound.first) = (fst Example_bound.first, Ok tt).
Proof.
  split; [vm_compute; reflexivity|].
  assert (Hpair : Example_bound.first = ((1%nat, snd (fst Example_bound.first)), Ok tt)) by (vm_compute; reflexivity).
  destruct (RecoveryPoint_once (H := sample_dirs) (H0 := sample_journal_json) (H1 := Example_bound.json) sample_journal_os
    sample_journal_os Example_bound.transaction Example_bound.delta Example_bound.path O 1%nat (mkDisk ∅ [])
    (snd (fst Example_bound.first))) as (backup & _ & _ & Honce).
  - vm_compute. reflexivity.
  - intros backup data Hd Hf.
    assert (Hsize : match dk_Files (snd (fst Example_bound.first)) !! Example_bound.path with
                    | Some f => (len (f_Data f) < 65536)%Z | None => False end) by (vm_compute; reflexivity).
    apply (Example_bound.json_kept backup data Hd). rewrite Hf in Hsize. simpl in Hsize.
    unfold len in *. rewrite strlen_app in Hsize. lia.
  - exact Hpair.
  - reflexivity.
  - reflexivity.
  - rewrite Hpair. exact (proj1 (Honce 1%nat (snd (fst Example_bound.first)) eq_refl)).
Defined.
