(* ===== verification/Keycloak.v ===== *)
(** * Upgrading Keycloak (internal/providerupgrade/keycloak/adapter.go)

    The adapter decides whether an upgrade is possible, takes the backup, and
    replaces the members one by one or all at once, over operations that act on
    an arbitrary state. *)

From S2P Require Import Prelude GoStrings Effects UpdatePlan UpgradeContract BoundProvider.

Definition TopologySingle : string := "single".
Definition TopologyHA : string := "ha".

Record Member := mkMember {
  mb_Name : string;
  mb_Version : string;
  mb_Ready : bool }.

Record State := mkState {
  ks_Version : string;
  ks_Owner : string;
  ks_Topology : string;
  ks_Healthy : bool;
  ks_DatabaseType : string;
  ks_Members : list Member }.

Record Ops (S : Type) := mkOps {
  ko_Inspect : M S State;
  ko_CheckUpgradePath : string -> string -> M S unit;
  ko_CreateBackup : string -> M S BackupRef;
  ko_VerifyBackup : BackupRef -> M S unit;
  ko_ApplySingle : string -> string -> string -> M S unit;
  ko_StopAllMembers : M S unit;
  ko_ApplyAllMembers : string -> string -> string -> M S unit;
  ko_ReplaceMember : string -> string -> string -> string -> M S unit;
  ko_WaitMemberReady : string -> M S unit;
  ko_WaitAllReady : M S unit;
  ko_VerifyDatabase : M S unit;
  ko_VerifyRealmState : M S unit;
  ko_VerifyOIDCDiscovery : M S unit;
  ko_VerifyTokenFlow : M S unit;
  ko_RestoreBackup : BackupRef -> string -> M S unit }.

Arguments mkOps {S}.
Arguments ko_Inspect {S}.
Arguments ko_CheckUpgradePath {S}.
Arguments ko_CreateBackup {S}.
Arguments ko_VerifyBackup {S}.
Arguments ko_ApplySingle {S}.
Arguments ko_StopAllMembers {S}.
Arguments ko_ApplyAllMembers {S}.
Arguments ko_ReplaceMember {S}.
Arguments ko_WaitMemberReady {S}.
Arguments ko_WaitAllReady {S}.
Arguments ko_VerifyDatabase {S}.
Arguments ko_VerifyRealmState {S}.
Arguments ko_VerifyOIDCDiscovery {S}.
Arguments ko_VerifyTokenFlow {S}.
Arguments ko_RestoreBackup {S}.

(** ** Inventory *)

Definition allMembersReady (state : State) : bool :=
  if ks_Topology state == TopologySingle then
    match ks_Members state with [] => ks_Healthy state | member :: _ => mb_Ready member end
  else match ks_Members state with [] => false | members => forallb mb_Ready members end.

Definition quorumReady (state : State) : bool :=
  if (ks_Topology state != TopologyHA) || (length (ks_Members state) <? 2)%nat then false
  else (length (ks_Members state) / 2 + 1 <=? length (List.filter mb_Ready (ks_Members state)))%nat.

Definition invalid (op message : string) : error := classify_error ErrorInvalidState op (errorsNew message).

Definition check_member (version : string) (seen : gset string) (member : Member) : result error (gset string) :=
  reject (TrimSpace (mb_Name member) == "") (invalid "keycloak topology" "member name must not be empty") ;;
  reject (bool_decide (mb_Name member ∈ seen)) (invalid "keycloak topology" "duplicate member in inventory") ;;
  reject (mb_Version member != version)
    (invalid "keycloak topology" "inconsistent member versions require recovery before upgrade") ;;
  Ok ({[mb_Name member]} ∪ seen).

Definition inventory_of (state : State) : result error Inventory :=
  reject (TrimSpace (ks_Version state) == "") (invalid "keycloak inspect" "version is not observable") ;;
  reject ((ks_Topology state != TopologySingle) && (ks_Topology state != TopologyHA))
    (classify_error ErrorInvalidState "keycloak topology" (Errorf "unsupported topology %q" [AStr (ks_Topology state)])) ;;
  reject (ks_DatabaseType state == "") (invalid "keycloak database" "database realization is not observable") ;;
  reject ((ks_Topology state == TopologyHA) && (length (ks_Members state) <? 3)%nat)
    (invalid "keycloak topology" "HA topology requires at least three members") ;;
  reject ((ks_Topology state == TopologySingle) && (length (ks_Members state) != 1%nat))
    (invalid "keycloak topology" "single topology requires exactly one member") ;;
  forE (check_member (ks_Version state)) ∅ (ks_Members state) ;;
  Ok (mkInventory ProviderKeycloak (ks_Version state) (ks_Topology state) (ks_Owner state)
        (ks_Healthy state && allMembersReady state)
        [("database_type", Lit (ks_DatabaseType state)); ("members", Lit (Itoa (Z.of_nat (length (ks_Members state)))))]).

Definition rollingPatchSupported (current target : Version) : bool :=
  let min := mkVersion 26 6 0 in
  (0 <=? Version_Compare current min)%Z && Version_SameMinor current target && (Version_Compare current target <? 0)%Z.

(** [backup.Metadata[key]] *)
Definition metadata (b : BackupRef) (key : string) : string := default "" (bu_Metadata b ≫= (.!! key)).

(** ** The adapter *)

Section adapter.
Context {S : Type} (ops : option (Ops S)).

Definition classM {A} (class op : string) (m : M S A) : M S A := wrapM (classify_error class op) m.

(** The operations; calling them on a nil interface panics. *)
Definition with_ops {A} (f : Ops S -> M S A) : M S A :=
  ops ← pureM (requireM ops nil_call);
  f ops.

Definition keycloak_Inventory : M S Inventory :=
  ops ← pureM (requireM ops (invalid "keycloak inventory" "operations are required"));
  state ← classM ErrorInvalidState "keycloak inspect" (ko_Inspect ops);
  pureM (inventory_of state).

Definition keycloak_Preflight (req : Request) : M S Assessment :=
  classM ErrorInvalidState "keycloak preflight" (pureM (Request_Validate req)) ;;
  inventory ← keycloak_Inventory;
  '(current, target) ← pureM (preflight_checks "keycloak" "Keycloak" "Keycloak must be healthy before upgrade" req inventory);
  if Version_Compare current target == 0%Z then
    mret (mkAssessment ClassificationNoChange "Keycloak version unchanged" false)
  else
    classM ErrorUnsupportedPath "keycloak compatibility"
      (with_ops (fun ops => ko_CheckUpgradePath ops (rq_CurrentVersion req) (rq_TargetVersion req))) ;;
    let strategy :=
      if (iv_Topology inventory == TopologyHA) && rollingPatchSupported current target then "rolling" else "recreate" in
    mret (mkAssessment ClassificationSupported
            (strategy +:+ " Keycloak upgrade with verified database/configuration backup") true).

Definition keycloak_Backup (req : Request) : M S BackupRef :=
  assessment ← keycloak_Preflight req;
  checkM (as_Classification assessment == ClassificationNoChange)
    (classify_error ErrorBackupRequired "keycloak backup" (errorsNew "backup is not required for an unchanged provider")) ;;
  created ← classM ErrorBackupInvalid "keycloak create backup" (with_ops (fun ops => ko_CreateBackup ops (rq_CurrentVersion req)));
  let backup := complete_backup ProviderKeycloak (rq_CurrentVersion req) created in
  classM ErrorBackupInvalid "keycloak backup" (pureM (BackupRef_Validate backup ProviderKeycloak (rq_CurrentVersion req))) ;;
  checkM (metadata backup "database_verified" != "true")
    (classify_error ErrorBackupInvalid "keycloak backup" (errorsNew "verified database backup is required")) ;;
  checkM (metadata backup "configuration_verified" != "true")
    (classify_error ErrorBackupInvalid "keycloak backup" (errorsNew "verified configuration backup is required")) ;;
  classM ErrorBackupInvalid "keycloak verify backup" (with_ops (fun ops => ko_VerifyBackup ops backup)) ;;
  mret backup.

(** The replacement of one member. *)
Definition roll_member (ops : Ops S) (req : Request) (member : Member) : M S unit :=
  checkM (negb (mb_Ready member))
    (classify_error ErrorApplyFailed "keycloak rolling precondition" (Errorf "member %s is not ready" [AStr (mb_Name member)])) ;;
  classM ErrorApplyFailed ("keycloak rolling replace " +:+ mb_Name member)
    (ko_ReplaceMember ops (mb_Name member) (rq_TargetVersion req) (rq_TargetImage req) (rq_TargetDigest req)) ;;
  classM ErrorApplyFailed ("keycloak rolling readiness " +:+ mb_Name member) (ko_WaitMemberReady ops (mb_Name member)) ;;
  observed ← classM ErrorApplyFailed "keycloak rolling inspect" (ko_Inspect ops);
  checkM (negb (quorumReady observed))
    (classify_error ErrorApplyFailed "keycloak rolling quorum" (errorsNew "cluster lost ready quorum")).

Definition apply_topology (ops : Ops S) (req : Request) (current target : Version) (state : State) : M S unit :=
  if ks_Topology state == TopologySingle then
    classM ErrorApplyFailed "keycloak single apply"
      (ko_ApplySingle ops (rq_TargetVersion req) (rq_TargetImage req) (rq_TargetDigest req)) ;;
    classM ErrorApplyFailed "keycloak single readiness" (ko_WaitAllReady ops)
  else if ks_Topology state == TopologyHA then
    if rollingPatchSupported current target then rangeM (roll_member ops req) (ks_Members state)
    else
      classM ErrorApplyFailed "keycloak recreate stop" (ko_StopAllMembers ops) ;;
      classM ErrorApplyFailed "keycloak recreate apply"
        (ko_ApplyAllMembers ops (rq_TargetVersion req) (rq_TargetImage req) (rq_TargetDigest req)) ;;
      classM ErrorApplyFailed "keycloak recreate readiness" (ko_WaitAllReady ops)
  else pureM (Err (classify_error ErrorUnsupportedPath "keycloak execute"
                     (Errorf "unsupported topology %q" [AStr (ks_Topology state)]))).

Definition both_verified (backup : BackupRef) : bool :=
  (metadata backup "database_verified" == "true") && (metadata backup "configuration_verified" == "true").

Definition keycloak_Execute (req : Request) (backup : BackupRef) : M S unit :=
  assessment ← keycloak_Preflight req;
  if as_Classification assessment == ClassificationNoChange then mret tt
  else
    classM ErrorBackupRequired "keycloak execute" (pureM (BackupRef_Validate backup ProviderKeycloak (rq_CurrentVersion req))) ;;
    checkM (negb (both_verified backup))
      (classify_error ErrorBackupRequired "keycloak execute" (errorsNew "database and configuration backups must be verified")) ;;
    with_ops (fun ops =>
      classM ErrorBackupInvalid "keycloak execute" (ko_VerifyBackup ops backup) ;;
      state ← classM ErrorInvalidState "keycloak execute inspect" (ko_Inspect ops);
      current ← classM ErrorUnsupportedPath "keycloak execute version" (pureM (ParseVersion (rq_CurrentVersion req)));
      target ← classM ErrorUnsupportedPath "keycloak execute version" (pureM (ParseVersion (rq_TargetVersion req)));
      apply_topology ops req current target state).

Definition verify_failed (op message : string) : error := classify_error ErrorVerifyFailed op (errorsNew message).

Definition verify_member (req : Request) (seen : gset string) (member : Member) : result error (gset string) :=
  reject ((TrimSpace (mb_Name member) == "") || bool_decide (mb_Name member ∈ seen) || (mb_Version member != rq_TargetVersion req))
    (verify_failed "keycloak member version" "provider member inventory is inconsistent with target") ;;
  Ok ({[mb_Name member]} ∪ seen).

Definition verify_state (req : Request) (state : State) : result error unit :=
  reject (ks_Version state != rq_TargetVersion req)
    (classify_error ErrorVerifyFailed "keycloak version"
       (Errorf "running %q, expected %q" [AStr (ks_Version state); AStr (rq_TargetVersion req)])) ;;
  reject (negb (ks_Healthy state) || negb (allMembersReady state)) (verify_failed "keycloak readiness" "Keycloak is not fully ready") ;;
  reject ((ks_Owner state != "baseharbor") || ((ks_Topology state != TopologySingle) && (ks_Topology state != TopologyHA)))
    (verify_failed "keycloak ownership" "provider ownership or topology changed") ;;
  reject (((ks_Topology state == TopologySingle) && (length (ks_Members state) != 1%nat)) ||
          ((ks_Topology state == TopologyHA) && (length (ks_Members state) <? 3)%nat))
    (verify_failed "keycloak topology" "provider member count changed") ;;
  forE (verify_member req) ∅ (ks_Members state) ;;
  Ok tt.

Definition keycloak_Verify (req : Request) : M S unit :=
  with_ops (fun ops =>
    state ← classM ErrorVerifyFailed "keycloak inspect" (ko_Inspect ops);
    pureM (verify_state req state) ;;
    classM ErrorVerifyFailed "keycloak database" (ko_VerifyDatabase ops) ;;
    classM ErrorVerifyFailed "keycloak realms/clients/roles/users" (ko_VerifyRealmState ops) ;;
    classM ErrorVerifyFailed "keycloak oidc discovery" (ko_VerifyOIDCDiscovery ops) ;;
    classM ErrorVerifyFailed "keycloak token flow" (ko_VerifyTokenFlow ops)).

Definition keycloak_Recover (req : Request) (backup : BackupRef) : M S unit :=
  classM ErrorRecoveryFailed "keycloak recover" (pureM (BackupRef_Validate backup ProviderKeycloak (rq_CurrentVersion req))) ;;
  checkM (negb (both_verified backup))
    (classify_error ErrorRecoveryFailed "keycloak recover" (errorsNew "verified database and configuration backups are required")) ;;
  with_ops (fun ops =>
    classM ErrorRecoveryFailed "keycloak recover" (ko_VerifyBackup ops backup) ;;
    classM ErrorRecoveryFailed "keycloak restore old installation and database" (ko_RestoreBackup ops backup (rq_CurrentVersion req)) ;;
    state ← classM ErrorRecoveryFailed "keycloak recovered inspect" (ko_Inspect ops);
    checkM ((ks_Version state != rq_CurrentVersion req) || negb (ks_Healthy state) || negb (allMembersReady state))
      (classify_error ErrorRecoveryFailed "keycloak recovered state" (errorsNew "recovered Keycloak is not healthy on original version")) ;;
    classM ErrorRecoveryFailed "keycloak recovered realm state" (ko_VerifyRealmState ops) ;;
    classM ErrorRecoveryFailed "keycloak recovered oidc" (ko_VerifyOIDCDiscovery ops) ;;
    classM ErrorRecoveryFailed "keycloak recovered token flow" (ko_VerifyTokenFlow ops)).

(** The adapter as the provider transactions see it. *)
Definition keycloak_Adapter : Adapter S :=
  mkProviderAdapter keycloak_Backup keycloak_Execute keycloak_Verify keycloak_Recover.
End adapter.

(** ** Calls *)

Inductive mutation : Type :=
| MApplySingle (version image digest : string)
| MStopAll
| MApplyAll (version image digest : string)
| MReplace (name version image digest : string)
| MRestore.

Inductive keycloak_event : Type :=
| KInspect (answer : option State)
| KVerifyBackup (backup : BackupRef) (ok : bool)
| KMutation (m : mutation) (ok : bool)
| KWaitReady (name : string) (ok : bool)
| KOther (ok : bool).

Section watched.
Context {S : Type}.
Abbreviation T := (S * list keycloak_event)%type.

Definition seen_as {A} (event : bool -> keycloak_event) (m : M S A) : M T A := watch (fun r => event (is_ok r)) m.

Definition watch_keycloak (o : Ops S) : Ops T :=
  mkOps (watch (fun r => KInspect (match r with Ok state => Some state | Err _ => None end)) (ko_Inspect o))
    (fun from to => seen_as KOther (ko_CheckUpgradePath o from to))
    (fun version => seen_as KOther (ko_CreateBackup o version))
    (fun backup => seen_as (KVerifyBackup backup) (ko_VerifyBackup o backup))
    (fun version image digest => seen_as (KMutation (MApplySingle version image digest)) (ko_ApplySingle o version image digest))
    (seen_as (KMutation MStopAll) (ko_StopAllMembers o))
    (fun version image digest => seen_as (KMutation (MApplyAll version image digest)) (ko_ApplyAllMembers o version image digest))
    (fun name version image digest =>
       seen_as (KMutation (MReplace name version image digest)) (ko_ReplaceMember o name version image digest))
    (fun name => seen_as (KWaitReady name) (ko_WaitMemberReady o name)) (seen_as KOther (ko_WaitAllReady o))
    (seen_as KOther (ko_VerifyDatabase o)) (seen_as KOther (ko_VerifyRealmState o))
    (seen_as KOther (ko_VerifyOIDCDiscovery o)) (seen_as KOther (ko_VerifyTokenFlow o))
    (fun backup version => seen_as (KMutation MRestore) (ko_RestoreBackup o backup version)).
End watched.

Definition is_mutation (e : keycloak_event) : bool := match e with KMutation _ _ => true | _ => false end.
Definition mutated (evs : list keycloak_event) : bool := existsb is_mutation evs.

Section guarded.
Context (req : Request) (backup : BackupRef).

(** The installation that is upgraded was seen owned, healthy and on the
    current version. *)
Definition upgradable (evs : list keycloak_event) : Prop :=
  exists state inventory, KInspect (Some state) ∈ evs /\ inventory_of state = Ok inventory /\
    iv_Owner inventory = "baseharbor" /\ iv_Version inventory = rq_CurrentVersion req /\ iv_Healthy inventory = true.

Definition backup_proven (evs : list keycloak_event) : Prop :=
  KVerifyBackup backup true ∈ evs /\ both_verified backup = true /\
  BackupRef_Validate backup ProviderKeycloak (rq_CurrentVersion req) = Ok tt.

Definition newer (current target : Version) : Prop :=
  ParseVersion (rq_CurrentVersion req) = Ok current /\ ParseVersion (rq_TargetVersion req) = Ok target /\
  version_lt current target.

(** Before the first change, the installation was found to be [planned]; [evs]
    came after that. *)
Definition planned_then (planned : State) (evs before : list keycloak_event) : Prop :=
  exists earlier, before = earlier ++ KInspect (Some planned) :: evs /\ mutated earlier = false.

Definition replacement (member : Member) : mutation :=
  MReplace (mb_Name member) (rq_TargetVersion req) (rq_TargetImage req) (rq_TargetDigest req).

(** The members [replaced] one after the other, the first one first: each was
    ready in the plan, its replacement succeeded, it got ready, and the cluster
    was then inspected and had a quorum. *)
Inductive rolled : list Member -> list keycloak_event -> Prop :=
| rolled_nil : rolled [] []
| rolled_snoc replaced evs member state :
    rolled replaced evs -> mb_Ready member = true -> quorumReady state = true ->
    rolled (replaced ++ [member])
      (evs ++ [KMutation (replacement member) true; KWaitReady (mb_Name member) true; KInspect (Some state)]).

(** What an upgrade may change, and when.  A single member is changed at once.
    Members of a cluster are replaced one by one within a minor version, in the
    order of the last inspection before the first change, in which they were
    ready; otherwise all of them are stopped and changed together. *)
Definition guarded (before : list keycloak_event) (e : keycloak_event) : Prop :=
  match e with
  | KMutation m _ =>
      upgradable before /\ backup_proven before /\
      exists current target planned evs, newer current target /\ planned_then planned evs before /\
        match m with
        | MApplySingle version image digest =>
            (version, image, digest) = (rq_TargetVersion req, rq_TargetImage req, rq_TargetDigest req) /\
            ks_Topology planned = TopologySingle /\ evs = []
        | MStopAll => ks_Topology planned = TopologyHA /\ rollingPatchSupported current target = false /\ evs = []
        | MApplyAll version image digest =>
            (version, image, digest) = (rq_TargetVersion req, rq_TargetImage req, rq_TargetDigest req) /\
            ks_Topology planned = TopologyHA /\ rollingPatchSupported current target = false /\ evs = [KMutation MStopAll true]
        | MReplace _ _ _ _ =>
            ks_Topology planned = TopologyHA /\ rollingPatchSupported current target = true /\
            exists replaced member rest, ks_Members planned = replaced ++ member :: rest /\
              m = replacement member /\ mb_Ready member = true /\ rolled replaced evs
        | MRestore => False
        end
  | _ => True
  end.

Definition upgrade_trace : list keycloak_event -> Prop := obeys guarded.

Lemma mutated_snoc evs e : mutated (evs ++ [e]) = mutated evs || is_mutation e.
Proof. unfold mutated. rewrite existsb_app. simpl. by rewrite orb_false_r. Qed.

Lemma upgradable_app evs new : upgradable evs -> upgradable (evs ++ new).
Proof. intros (st & inv & Hin & H). exists st, inv. split; [|exact H]. apply elem_of_app. by left. Qed.

Lemma backup_proven_app evs new : backup_proven evs -> backup_proven (evs ++ new).
Proof. intros [Hin H]. split; [|exact H]. apply elem_of_app. by left. Qed.

Section runs.
Context {S : Type} (o : Ops S).
Abbreviation T := (S * list keycloak_event)%type.
Abbreviation O := (watch_keycloak o).

(** How every run ends. *)
Definition kept (s : T) : Prop := upgrade_trace (snd s).

Lemma run_other {A} (m : M S A) class op (s : T) evs (Q : A -> T -> Prop) :
  snd s = evs -> upgrade_trace evs -> (forall a s', snd s' = evs ++ [KOther true] -> upgrade_trace (evs ++ [KOther true]) -> Q a s') ->
  run (classM class op (seen_as KOther m)) s Q kept.
Proof. intros Hs Ht HQ. apply run_wrap. by eapply run_watched. Qed.

Lemma run_wait_ready name class op (s : T) evs (Q : unit -> T -> Prop) :
  snd s = evs -> upgrade_trace evs ->
  (forall s', snd s' = evs ++ [KWaitReady name true] -> upgrade_trace (evs ++ [KWaitReady name true]) -> Q tt s') ->
  run (classM class op (ko_WaitMemberReady O name)) s Q kept.
Proof. intros Hs Ht HQ. apply run_wrap. eapply run_watched; [done..|]. intros []. apply HQ. Qed.

Lemma run_inspect class op (s : T) evs (Q : State -> T -> Prop) :
  snd s = evs -> upgrade_trace evs ->
  (forall state s', snd s' = evs ++ [KInspect (Some state)] -> upgrade_trace (evs ++ [KInspect (Some state)]) -> Q state s') ->
  run (classM class op (ko_Inspect O)) s Q kept.
Proof. intros Hs Ht HQ. apply run_wrap. by eapply run_watched. Qed.

Lemma run_mutation {A} (m : M S A) mu class op (s : T) evs (Q : A -> T -> Prop) :
  snd s = evs -> upgrade_trace evs -> (forall ok, guarded evs (KMutation mu ok)) ->
  (forall a s', snd s' = evs ++ [KMutation mu true] -> upgrade_trace (evs ++ [KMutation mu true]) -> Q a s') ->
  run (classM class op (seen_as (KMutation mu) m)) s Q kept.
Proof. intros Hs Ht Hg HQ. apply run_wrap. eapply run_watched; [exact Hs|exact Ht|intros r; apply Hg|exact HQ]. Qed.

Lemma run_value {A} class op (r : result error A) (s : T) evs (Q : A -> T -> Prop) :
  snd s = evs -> upgrade_trace evs -> (forall a, r = Ok a -> Q a s) -> run (classM class op (pureM r)) s Q kept.
Proof. intros Hs Ht HQ. apply run_wrap, run_pure. destruct r as [a|e]; [by apply HQ|]. unfold kept. by rewrite Hs. Qed.

Lemma run_require (cond : bool) e (s : T) evs (Q : unit -> T -> Prop) :
  snd s = evs -> upgrade_trace evs -> (cond = false -> Q tt s) -> run (checkM cond e) s Q kept.
Proof. intros Hs Ht HQ. apply run_pure. destruct cond; [unfold kept; by rewrite Hs|by apply HQ]. Qed.

(** What a preflight that finds an upgrade has seen; it changes nothing. *)
Lemma run_preflight (s : T) (Q : Assessment -> T -> Prop) :
  upgrade_trace (snd s) -> mutated (snd s) = false ->
  (forall assessment s', upgrade_trace (snd s') -> mutated (snd s') = false ->
     (as_Classification assessment <> ClassificationNoChange ->
      upgradable (snd s') /\ exists current target, newer current target) -> Q assessment s') ->
  run (keycloak_Preflight (Some O) req) s Q kept.
Proof.
  intros Ht Hm HQ. unfold keycloak_Preflight. apply run_bind. eapply run_value; [reflexivity|exact Ht|]. intros _ _.
  apply run_bind. unfold keycloak_Inventory. apply run_bind, run_pure, run_bind.
  eapply run_inspect; [reflexivity|exact Ht|]. intros state s1 Hs1 Ht1.
  apply run_pure. destruct (inventory_of state) as [inventory|e] eqn:Hi; [|unfold kept; by rewrite Hs1].
  apply run_bind, run_pure. destruct (preflight_checks _ _ _ _ _) as [[current target]|e] eqn:Hc; [|unfold kept; by rewrite Hs1].
  apply preflight_checks_Ok in Hc as (Ho & Hv & Hh & Hcur & Htar & Hne).
  assert (mutated (snd s1) = false) as Hm1 by (rewrite Hs1, mutated_snoc, Hm; done).
  case_bool_decide as Heq; [apply run_ret; apply HQ; [by rewrite Hs1|done|by intros []]|].
  apply run_bind. unfold with_ops. apply (run_wrap (classify_error ErrorUnsupportedPath "keycloak compatibility")).
  apply run_bind, run_pure. eapply run_watched; [exact Hs1|exact Ht1|done|]. intros [] s2 Hs2 Ht2. apply run_ret. apply HQ.
  - by rewrite Hs2.
  - by rewrite Hs2, mutated_snoc, <- Hs1, Hm1.
  - intros _. split.
    + exists state, inventory. rewrite Hs2. split_and!; [|done..]. rewrite !elem_of_app, !list_elem_of_singleton. tauto.
    + exists current, target. split_and!; [done|done|]. apply Version_Compare_lt.
      destruct (Version_Compare_cases current target) as [[? _]|[[? _]|[? _]]]; done.
Qed.

(** Everything an upgrade needs is known. *)
Definition armed (evs : list keycloak_event) : Prop :=
  upgrade_trace evs /\ upgradable evs /\ backup_proven evs.

Lemma armed_app evs new : armed evs -> upgrade_trace (evs ++ new) -> armed (evs ++ new).
Proof. intros (_ & Hu & Hb) Ht. split_and!; [done|by apply upgradable_app|by apply backup_proven_app]. Qed.

Lemma planned_app planned evs before new : planned_then planned evs before -> planned_then planned (evs ++ new) (before ++ new).
Proof. intros (earlier & -> & Hm). exists earlier. split; [by rewrite <- app_assoc|done]. Qed.

(** Within the loop over the members of [planned], before those of [rest]. *)
Definition rolling (planned : State) (rest : list Member) (before : list keycloak_event) : Prop :=
  armed before /\ exists replaced evs, ks_Members planned = replaced ++ rest /\ planned_then planned evs before /\ rolled replaced evs.

Lemma run_roll_member current target planned member rest (s : T) :
  newer current target -> rollingPatchSupported current target = true -> ks_Topology planned = TopologyHA ->
  rolling planned (member :: rest) (snd s) ->
  run (roll_member O req member) s (fun _ s' => rolling planned rest (snd s')) kept.
Proof.
  intros Hn Hroll Htop (Ha & replaced & evs & Hm & Hp & Hr). pose proof Ha as (Ht & Hu & Hb). unfold roll_member.
  apply run_bind. eapply run_require; [reflexivity|exact Ht|]. intros Hready%negb_false_iff.
  apply run_bind. eapply (run_mutation _ (replacement member)); [reflexivity|exact Ht| |].
  { intros ok. split; [done|]. split; [done|]. exists current, target, planned, evs. split; [done|]. split; [done|].
    split; [done|]. split; [done|]. by exists replaced, member, rest. }
  intros [] s1 Hs1 Ht1.
  apply run_bind. eapply run_wait_ready; [exact Hs1|exact Ht1|]. intros s2 Hs2 Ht2.
  apply run_bind. eapply run_inspect; [exact Hs2|exact Ht2|]. intros state s3 Hs3 Ht3.
  eapply run_require; [exact Hs3|exact Ht3|]. intros Hq%negb_false_iff. rewrite Hs3.
  rewrite <- !app_assoc in *. simpl in *. split; [by apply armed_app|].
  exists (replaced ++ [member]), (evs ++ [KMutation (replacement member) true; KWaitReady (mb_Name member) true; KInspect (Some state)]).
  split; [by rewrite <- app_assoc|]. split; [by apply planned_app|by constructor].
Qed.

Lemma run_apply_topology current target planned (s : T) :
  newer current target -> armed (snd s) -> planned_then planned [] (snd s) ->
  run (apply_topology O req current target planned) s (fun _ s' => upgrade_trace (snd s')) kept.
Proof.
  intros Hn Ha Hp. pose proof Ha as (Ht & Hu & Hb). unfold apply_topology. case_bool_decide as Hone; [|case_bool_decide as Hmany].
  - apply run_bind. eapply run_mutation; [reflexivity|exact Ht| |].
    { intros ok. split; [done|]. split; [done|]. by exists current, target, planned, []. }
    intros [] s1 Hs1 Ht1. eapply run_other; [exact Hs1|exact Ht1|]. intros [] s2 Hs2 Ht2. by rewrite Hs2.
  - destruct (rollingPatchSupported current target) eqn:Hroll.
    + eapply run_mono; [| |eapply (run_for (fun _ rest s' => rolling planned rest (snd s')) _ kept)].
      * by intros [] s' [(Ht' & _) _].
      * done.
      * split; [done|]. exists [], []. split; [done|]. split; [done|constructor].
      * intros [] member rest s' Hr. by eapply run_roll_member.
    + apply run_bind. eapply run_mutation; [reflexivity|exact Ht| |].
      { intros ok. split; [done|]. split; [done|]. by exists current, target, planned, []. }
      intros [] s1 Hs1 Ht1. apply run_bind. eapply run_mutation; [exact Hs1|exact Ht1| |].
      { intros ok. split; [by apply upgradable_app|]. split; [by apply backup_proven_app|].
        exists current, target, planned, [KMutation MStopAll true]. split; [done|]. split; [by apply (planned_app planned [])|done]. }
      intros [] s2 Hs2 Ht2. eapply run_other; [exact Hs2|exact Ht2|]. intros [] s3 Hs3 Ht3. by rewrite Hs3.
  - apply run_pure. exact Ht.
Qed.

Lemma run_Execute (s : T) :
  upgrade_trace (snd s) -> mutated (snd s) = false ->
  run (keycloak_Execute (Some O) req backup) s (fun _ s' => upgrade_trace (snd s')) kept.
Proof.
  intros Ht Hm. unfold keycloak_Execute. apply run_bind. apply run_preflight; [done|done|].
  intros assessment s1 Ht1 Hm1 Hup. case_bool_decide as Hc; [by apply run_ret|]. destruct (Hup Hc) as (Hu & current & target & Hn).
  apply run_bind. eapply run_value; [reflexivity|exact Ht1|]. intros [] Hv.
  apply run_bind. eapply run_require; [reflexivity|exact Ht1|]. intros Hb%negb_false_iff.
  unfold with_ops. apply run_bind, run_pure. simpl requireM. cbv iota beta.
  apply run_bind, run_wrap. eapply run_watched; [reflexivity|exact Ht1|done|]. intros [] s2 Hs2 Ht2.
  apply run_bind. eapply run_inspect; [exact Hs2|exact Ht2|]. intros state s3 Hs3 Ht3.
  pose proof Hn as (Hcur & Htar & _).
  apply run_bind. eapply run_value; [exact Hs3|exact Ht3|]. intros current' Hcur'. rewrite Hcur in Hcur'. injection Hcur' as <-.
  apply run_bind. eapply run_value; [exact Hs3|exact Ht3|]. intros target' Htar'. rewrite Htar in Htar'. injection Htar' as <-.
  apply run_apply_topology; [done|..]; rewrite Hs3.
  - split_and!; [done|by apply upgradable_app, upgradable_app|]. split_and!; [|done|done].
    rewrite !elem_of_app, !list_elem_of_singleton. tauto.
  - exists (snd s1 ++ [KVerifyBackup backup true]). by rewrite mutated_snoc, Hm1.
Qed.
End runs.
End guarded.

(** C20: Whatever the installation answers, executing an upgrade changes it only
    after it was seen owned by BaseHarbor, healthy and on the current version,
    after the backup was verified in this very run, and only to the target of
    the request, which is a newer version; it never restores.  What is changed
    follows the last inspection before the first change.  A single instance is
    changed at once.  The members of a cluster are replaced one by one, in the
    order of that inspection, only within a minor version that supports it:
    each member was ready in that inspection, and each but the first is replaced
    only after the replacement before it succeeded, that member got ready, and a
    new inspection showed a quorum (for the first one no quorum is checked).
    Otherwise all members are stopped and, when that succeeded, changed
    together. *)
Theorem keycloak_Execute_guarded {S} (ops : option (Ops S)) req backup (w : S) :
  upgrade_trace req backup (snd (fst (keycloak_Execute (watch_keycloak <$> ops) req backup (w, [])))).
Proof.
  destruct ops as [o|].
  - pose proof (run_Execute req backup o (w, []) (obeys_nil _) eq_refl) as H. unfold run, kept in H. simpl fmap.
    by destruct (keycloak_Execute _ _ _ _) as [s' [[]|e]].
  - unfold keycloak_Execute, keycloak_Preflight, keycloak_Inventory, mbind, M_bind, classM, wrapM, pureM. simpl.
    destruct (Request_Validate req); apply obeys_nil.
Qed.

(** A backup the adapter hands out fits the request: the provider transaction
    that asked for it never rejects it. *)
Lemma keycloak_Backup_fits {S} (ops : option (Ops S)) req (w w' : S) b :
  keycloak_Backup ops req w = (w', Ok b) ->
  BackupRef_Validate b ProviderKeycloak (rq_CurrentVersion req) = Ok tt /\ both_verified b = true.
Proof.
  intros Hb.
  assert (run (keycloak_Backup ops req) w (fun b _ => BackupRef_Validate b ProviderKeycloak (rq_CurrentVersion req) = Ok tt /\
    both_verified b = true) (fun _ => True)) as Hrun; [|unfold run in Hrun; by rewrite Hb in Hrun].
  clear. unfold keycloak_Backup. apply run_bind. unfold run at 1. destruct (keycloak_Preflight _ _ _) as [w1 [a|]]; [|done].
  apply run_bind, run_pure. destruct (as_Classification a == _); simpl; [done|].
  apply run_bind. unfold run at 1. destruct (classM _ _ _ w1) as [w2 [created|]]; [|done].
  set (b := complete_backup _ _ _). apply run_bind, run_wrap, run_pure. destruct (BackupRef_Validate b _ _) as [[]|] eqn:Hv; [|done].
  apply run_bind, run_pure. destruct (metadata b "database_verified" != "true") eqn:H1; simpl; [done|].
  apply run_bind, run_pure. destruct (metadata b "configuration_verified" != "true") eqn:H2; simpl; [done|].
  apply run_bind. unfold run at 1. destruct (classM _ _ _ w2) as [w3 [[]|]]; [|done].
  apply run_ret. split; [done|]. unfold both_verified. apply negb_false_iff in H1, H2. by rewrite H1, H2.
Qed.
