(* ===== verification/OpenBao.v ===== *)
(** * Upgrading OpenBao (internal/providerupgrade/openbao/adapter.go)

    The adapter of the secrets provider, over operations that act on an
    arbitrary state, and the contract that both adapters give to the provider
    transactions. *)

From S2P Require Import Prelude GoStrings FileSystem Effects UpdatePlan UpdateJournal UpgradeContract BoundProvider Keycloak.

Record OpenBaoState := mkOpenBaoState {
  os_Version : string;
  os_Initialized : bool;
  os_Sealed : bool;
  os_Healthy : bool;
  os_Owner : string;
  os_Topology : string }.

Record OpenBaoOps (S : Type) := mkOpenBaoOps {
  oo_Inspect : M S OpenBaoState;
  oo_CheckUpgradePath : string -> string -> M S unit;
  oo_CreateBackup : string -> M S BackupRef;
  oo_VerifyBackup : BackupRef -> M S unit;
  oo_ApplyTarget : string -> string -> string -> M S unit;
  oo_WaitHealthy : M S unit;
  oo_EnsureUnsealed : M S unit;
  oo_VerifyManagerAuth : M S unit;
  oo_VerifyAuthConfiguration : M S unit;
  oo_VerifyApplicationAccess : M S unit;
  oo_RestoreBackup : BackupRef -> string -> M S unit }.

Arguments mkOpenBaoOps {S}.
Arguments oo_Inspect {S}.
Arguments oo_CheckUpgradePath {S}.
Arguments oo_CreateBackup {S}.
Arguments oo_VerifyBackup {S}.
Arguments oo_ApplyTarget {S}.
Arguments oo_WaitHealthy {S}.
Arguments oo_EnsureUnsealed {S}.
Arguments oo_VerifyManagerAuth {S}.
Arguments oo_VerifyAuthConfiguration {S}.
Arguments oo_VerifyApplicationAccess {S}.
Arguments oo_RestoreBackup {S}.

(** ** The adapter *)

Definition openbao_inventory_of (state : OpenBaoState) : result error Inventory :=
  reject (TrimSpace (os_Version state) == "")
    (classify_error ErrorInvalidState "openbao inspect" (errorsNew "version is not observable")) ;;
  Ok (mkInventory ProviderOpenBao (os_Version state) (os_Topology state) (os_Owner state)
        (os_Healthy state && os_Initialized state && negb (os_Sealed state))
        [("initialized", Sprintf "%t" [ABool (os_Initialized state)]); ("sealed", Sprintf "%t" [ABool (os_Sealed state)])]).

Section adapter.
Context {S : Type} (ops : option (OpenBaoOps S)).

Definition with_openbao {A} (f : OpenBaoOps S -> M S A) : M S A :=
  ops ← pureM (requireM ops nil_call);
  f ops.

Definition openbao_Inventory : M S Inventory :=
  ops ← pureM (requireM ops (classify_error ErrorInvalidState "openbao inventory" (errorsNew "operations are required")));
  state ← classM ErrorInvalidState "openbao inspect" (oo_Inspect ops);
  pureM (openbao_inventory_of state).

Definition openbao_Preflight (req : Request) : M S Assessment :=
  classM ErrorInvalidState "openbao preflight" (pureM (Request_Validate req)) ;;
  inventory ← openbao_Inventory;
  '(current, target) ← pureM (preflight_checks "openbao" "OpenBao"
    "OpenBao must be initialized, healthy and unsealed before upgrade" req inventory);
  if Version_Compare current target == 0%Z then
    mret (mkAssessment ClassificationNoChange "OpenBao version unchanged" false)
  else
    classM ErrorUnsupportedPath "openbao compatibility"
      (with_openbao (fun ops => oo_CheckUpgradePath ops (rq_CurrentVersion req) (rq_TargetVersion req))) ;;
    mret (mkAssessment ClassificationSupported "provider compatibility accepted; verified backup required" true).

Definition openbao_Backup (req : Request) : M S BackupRef :=
  assessment ← openbao_Preflight req;
  checkM (as_Classification assessment == ClassificationNoChange)
    (classify_error ErrorBackupRequired "openbao backup" (errorsNew "backup is not required for an unchanged provider")) ;;
  created ← classM ErrorBackupInvalid "openbao create backup" (with_openbao (fun ops => oo_CreateBackup ops (rq_CurrentVersion req)));
  let backup := complete_backup ProviderOpenBao (rq_CurrentVersion req) created in
  classM ErrorBackupInvalid "openbao backup" (pureM (BackupRef_Validate backup ProviderOpenBao (rq_CurrentVersion req))) ;;
  classM ErrorBackupInvalid "openbao verify backup" (with_openbao (fun ops => oo_VerifyBackup ops backup)) ;;
  mret backup.

(** A restarted provider may be sealed: it is unsealed before it is waited for. *)
Definition openbao_Execute (req : Request) (backup : BackupRef) : M S unit :=
  assessment ← openbao_Preflight req;
  if as_Classification assessment == ClassificationNoChange then mret tt
  else
    classM ErrorBackupRequired "openbao execute" (pureM (BackupRef_Validate backup ProviderOpenBao (rq_CurrentVersion req))) ;;
    with_openbao (fun ops =>
      classM ErrorBackupInvalid "openbao execute" (oo_VerifyBackup ops backup) ;;
      classM ErrorApplyFailed "openbao apply" (oo_ApplyTarget ops (rq_TargetVersion req) (rq_TargetImage req) (rq_TargetDigest req)) ;;
      classM ErrorApplyFailed "openbao unseal" (oo_EnsureUnsealed ops) ;;
      classM ErrorApplyFailed "openbao health" (oo_WaitHealthy ops)).

Definition openbao_Verify (req : Request) : M S unit :=
  with_openbao (fun ops =>
    state ← classM ErrorVerifyFailed "openbao inspect" (oo_Inspect ops);
    checkM (os_Version state != rq_TargetVersion req)
      (classify_error ErrorVerifyFailed "openbao version"
         (Errorf "running %q, expected %q" [AStr (os_Version state); AStr (rq_TargetVersion req)])) ;;
    checkM (negb (os_Initialized state) || os_Sealed state || negb (os_Healthy state))
      (classify_error ErrorVerifyFailed "openbao state" (errorsNew "OpenBao is not healthy, initialized and unsealed")) ;;
    classM ErrorVerifyFailed "openbao manager auth" (oo_VerifyManagerAuth ops) ;;
    classM ErrorVerifyFailed "openbao auth configuration" (oo_VerifyAuthConfiguration ops) ;;
    classM ErrorVerifyFailed "openbao application secret access" (oo_VerifyApplicationAccess ops)).

Definition openbao_Recover (req : Request) (backup : BackupRef) : M S unit :=
  classM ErrorRecoveryFailed "openbao recover" (pureM (BackupRef_Validate backup ProviderOpenBao (rq_CurrentVersion req))) ;;
  with_openbao (fun ops =>
    classM ErrorRecoveryFailed "openbao recover" (oo_VerifyBackup ops backup) ;;
    classM ErrorRecoveryFailed "openbao restore backup and prior image" (oo_RestoreBackup ops backup (rq_CurrentVersion req)) ;;
    state ← classM ErrorRecoveryFailed "openbao recovered inspect" (oo_Inspect ops);
    checkM ((os_Version state != rq_CurrentVersion req) || negb (os_Initialized state) || os_Sealed state || negb (os_Healthy state))
      (classify_error ErrorRecoveryFailed "openbao recovered state" (errorsNew "recovered OpenBao is not healthy on the original version")) ;;
    classM ErrorRecoveryFailed "openbao recovered auth" (oo_VerifyManagerAuth ops) ;;
    classM ErrorRecoveryFailed "openbao recovered AppRole/policies" (oo_VerifyAuthConfiguration ops) ;;
    classM ErrorRecoveryFailed "openbao recovered application access" (oo_VerifyApplicationAccess ops)).

Definition openbao_Adapter : Adapter S :=
  mkProviderAdapter openbao_Backup openbao_Execute openbao_Verify openbao_Recover.
End adapter.

Lemma openbao_Backup_fits {S} (ops : option (OpenBaoOps S)) req (w w' : S) b :
  openbao_Backup ops req w = (w', Ok b) -> BackupRef_Validate b ProviderOpenBao (rq_CurrentVersion req) = Ok tt.
Proof.
  intros Hb.
  assert (run (openbao_Backup ops req) w (fun b _ => BackupRef_Validate b ProviderOpenBao (rq_CurrentVersion req) = Ok tt)
    (fun _ => True)) as Hrun; [|unfold run in Hrun; by rewrite Hb in Hrun].
  clear. unfold openbao_Backup. apply run_bind. unfold run at 1. destruct (openbao_Preflight _ _ _) as [w1 [a|]]; [|done].
  apply run_bind, run_pure. destruct (as_Classification a == _); simpl; [done|].
  apply run_bind. unfold run at 1. destruct (classM _ _ _ w1) as [w2 [created|]]; [|done].
  set (b := complete_backup _ _ _). apply run_bind, run_wrap, run_pure. destruct (BackupRef_Validate b _ _) as [[]|] eqn:Hv; [|done].
  apply run_bind. unfold run at 1. destruct (classM _ _ _ w2) as [w3 [[]|]]; [|done]. by apply run_ret.
Qed.

(** ** The contract of an adapter

    What an adapter promises to the transactions: the backups it hands out are
    of the provider and the version that were asked for, and verified. *)
Class BackupsFit {S} (provider : string) (adapter : Adapter S) : Prop :=
  backups_fit : forall req w w' b,
    ad_Backup adapter req w = (w', Ok b) -> BackupRef_Validate b provider (rq_CurrentVersion req) = Ok tt.

Global Instance keycloak_fits {S} (ops : option (Ops S)) : BackupsFit ProviderKeycloak (keycloak_Adapter ops).
Proof. intros req w w' b Hb. exact (proj1 (keycloak_Backup_fits ops req w w' b Hb)). Qed.

Global Instance openbao_fits {S} (ops : option (OpenBaoOps S)) : BackupsFit ProviderOpenBao (openbao_Adapter ops).
Proof. intros req w w' b. exact (openbao_Backup_fits ops req w w' b). Qed.

Section client.
Context {os : OS} {dirs : Dirs} {keys : JournalJSON} {json : BackupJSON} {S : Type}.
Context (t : BoundProviderTransaction S) (d : Delta).

(** The adapters of the registry keep the contract of their provider. *)
Definition registry_fits (registry : BoundProviderRegistry S) : Prop :=
  forall provider req w w' adapter assessment,
    br_Preflight registry provider req w = (w', Ok (adapter, assessment)) -> BackupsFit provider adapter.

(** Taking a backup without checking it. *)
Definition take_unchecked (registry : BoundProviderRegistry S) : M (S * disk) unit :=
  '(provider, req) ← pureM (boundProvider d);
  '(adapter, _) ← onFst (br_Preflight registry provider req);
  ref ← onFst (ad_Backup adapter req);
  onSnd (persistBackup t d ref).

Lemma take_backup_fits registry s :
  bt_Registry t = Some registry -> registry_fits registry -> take_backup t d s = take_unchecked registry s.
Proof.
  intros Hr Hfit. destruct s as [w dk]. unfold take_backup, take_unchecked, bound_registry, mbind, M_bind, pureM. rewrite Hr. simpl.
  destruct (boundProvider d) as [[provider req]|]; [|done]. unfold onFst. simpl.
  destruct (br_Preflight registry provider req w) as [w1 [[adapter assessment]|]] eqn:Hp; [|done]. simpl.
  destruct (ad_Backup adapter req w1) as [w2 [b|]] eqn:Hb; [|done]. simpl.
  by rewrite (Hfit _ _ _ _ _ _ Hp _ _ _ _ Hb).
Qed.
End client.
