(* ===== verification/Compose.v ===== *)
(** * Reversible image updates (internal/coreupdate: compose_images.go,
    compose_transaction.go)

    An update pins the images of the owned services in the Compose file; the
    original file is kept in a checkpoint that is written once.  The YAML
    package is third-party code and enters as an interface. *)

From S2P Require Import Prelude GoStrings FileSystem Effects Sha256 UpdatePlan UpdateJournal.

(** ** Documents *)

Inductive node_kind : Type :=
| DocumentNode
| SequenceNode
| MappingNode
| ScalarNode
| AliasNode.

Global Instance node_kind_eq_dec : EqDecision node_kind.
Proof. solve_decision. Defined.

(** [yaml.Node]; [nd_Rest] stands for the fields the code does not look at
    (style, anchor, comments, position). *)
Inductive Node : Type := mkNode {
  nd_Kind : node_kind;
  nd_Tag : string;
  nd_Value : string;
  nd_Content : list Node;
  nd_Rest : string }.

(** [yaml.Unmarshal] into a node, and an encoder with indent 2. *)
Class ComposeYAML := mkComposeYAML {
  node_parse : string -> result error Node;
  node_render : Node -> result error string }.

Definition set_content (n : Node) (content : list Node) : Node :=
  mkNode (nd_Kind n) (nd_Tag n) (nd_Value n) content (nd_Rest n).

(** ** Pinning the images (RewriteOwnedComposeImages) *)

Definition pinned_image (d : Delta) : string := ds_Image (dl_Desired d) +:+ "@" +:+ ds_Digest (dl_Desired d).

(** The changes that are refused for the service [name]. *)
Definition image_refused (name : string) (d : Delta) : bool :=
  let installed := dl_Installed d in
  let desired := dl_Desired d in
  (rz_Owner installed != "baseharbor") || (rz_Instance installed != name) || (rz_Kind installed != ds_Kind desired) ||
  negb (validDigest (ds_Digest desired)) || (TrimSpace (ds_Image desired) == "") ||
  providerDowngrade (rz_Version installed) (ds_Version desired) ||
  ((rz_Kind installed == SQL) && (major (rz_Version installed) != major (ds_Version desired))) ||
  (((rz_Kind installed == SQL) || (rz_Kind installed == Secrets)) && (dl_Classification d != BackupRequired)) ||
  ((rz_Kind installed == Identity) && (dl_Classification d != MigrationRequired)).

(** The image of the inventory, with or without its digest. *)
Definition inventoried (d : Delta) (img : Node) : bool :=
  (nd_Kind img == ScalarNode) &&
  ((nd_Value img == rz_Image (dl_Installed d)) ||
   (nd_Value img == rz_Image (dl_Installed d) +:+ "@" +:+ rz_Digest (dl_Installed d))).

Definition pin_node (d : Delta) (img : Node) : Node :=
  mkNode (nd_Kind img) "!!str" (pinned_image d) (nd_Content img) (nd_Rest img).

(** The fields of a service: keys and values by turns. *)
Fixpoint rewrite_image (name : string) (d : Delta) (fields : list Node) : result error (list Node) :=
  match fields with
  | key :: img :: rest =>
      if nd_Value key == "image" then
        reject (negb (inventoried d img)) (Errorf "Compose service %s image differs from inventoried provider" [AStr name]) ;;
        Ok (key :: pin_node d img :: rest)
      else
        rest ← rewrite_image name d rest;
        Ok (key :: img :: rest)
  | _ => Err (Errorf "Core service %s has no image field" [AStr name])
  end.

Definition rewrite_service (name : string) (d : Delta) (service : Node) : result error Node :=
  reject (image_refused name d) (Errorf "unowned, unchanged or unsafe provider image change for %s" [AStr name]) ;;
  reject (nd_Kind service != MappingNode) (Errorf "service %s is not a mapping" [AStr name]) ;;
  fields ← rewrite_image name d (nd_Content service);
  Ok (set_content service fields).

Fixpoint rewrite_services (mutations : gmap string Delta) (visited : gset string) (services : list Node)
    : result error (gset string * list Node) :=
  match services with
  | key :: service :: rest =>
      let name := nd_Value key in
      match mutations !! name with
      | None =>
          '(visited, rest) ← rewrite_services mutations visited rest;
          Ok (visited, key :: service :: rest)
      | Some d =>
          reject (bool_decide (name ∈ visited)) (Errorf "duplicate Compose service %s" [AStr name]) ;;
          service ← rewrite_service name d service;
          '(visited, rest) ← rewrite_services mutations ({[name]} ∪ visited) rest;
          Ok (visited, key :: service :: rest)
      end
  | _ => Ok (visited, services)
  end.

(** The first field [services] of the root. *)
Fixpoint rewrite_root (mutations : gmap string Delta) (fields : list Node) : result error (gset string * list Node) :=
  match fields with
  | key :: value :: rest =>
      if nd_Value key == "services" then
        reject (nd_Kind value != MappingNode) (errorsNew "Compose has no service mapping") ;;
        '(visited, services) ← rewrite_services mutations ∅ (nd_Content value);
        Ok (visited, key :: set_content value services :: rest)
      else
        '(visited, rest) ← rewrite_root mutations rest;
        Ok (visited, key :: value :: rest)
  | _ => Err (errorsNew "Compose has no service mapping")
  end.

Definition root_of (doc : Node) : result error Node :=
  match nd_Content doc with
  | [root] => reject (nd_Kind root != MappingNode) (errorsNew "invalid Compose root") ;; Ok root
  | _ => Err (errorsNew "invalid Compose root")
  end.

(** The services that are requested have all been visited. *)
Definition all_visited (mutations : gmap string Delta) (visited : gset string) : result error unit :=
  forE (fun _ service => reject (bool_decide (service ∉ visited))
    (Errorf "requested provider %s missing from Compose" [AStr service])) tt (map fst (map_to_list mutations)).

Definition rewrite_doc (mutations : gmap string Delta) (doc : Node) : result error Node :=
  root ← root_of doc;
  '(visited, fields) ← rewrite_root mutations (nd_Content root);
  all_visited mutations visited ;;
  Ok (set_content doc [set_content root fields]).

Definition RewriteOwnedComposeImages `{ComposeYAML} (source : string) (mutations : gmap string Delta) : result error string :=
  reject (bool_decide (mutations = ∅)) (errorsNew "no Core provider image mutation requested") ;;
  doc ← wrap_err (fun err => Errorf "parse Core provider Compose: %w" [ATxt err]) (node_parse source);
  doc ← rewrite_doc mutations doc;
  node_render doc.

(** ** What pinning changes *)

(** The fields of a mapping. *)
Fixpoint pairs (l : list Node) : list (Node * Node) :=
  match l with
  | key :: value :: rest => (key, value) :: pairs rest
  | _ => []
  end.

Definition keys (l : list Node) : list string := map (fun field => nd_Value (fst field)) (pairs l).

(** The first field [name] of a mapping, between the fields [pre] and [post]. *)
Definition first_field (name : string) (l pre : list Node) (key value : Node) (post : list Node) : Prop :=
  l = pre ++ key :: value :: post /\ Nat.Even (length pre) /\ nd_Value key = name /\ name ∉ keys pre.

(** The image of a service is replaced, and nothing else. *)
Definition image_pinned (d : Delta) (service service' : Node) : Prop :=
  nd_Kind service = MappingNode /\
  exists pre key img post, first_field "image" (nd_Content service) pre key img post /\ inventoried d img = true /\
    service' = set_content service (pre ++ key :: pin_node d img :: post).

Definition service_change (mutations : gmap string Delta) (key service service' : Node) : Prop :=
  match mutations !! nd_Value key with
  | None => service' = service
  | Some d => image_refused (nd_Value key) d = false /\ image_pinned d service service'
  end.

Inductive services_pinned (mutations : gmap string Delta) : list Node -> list Node -> Prop :=
| pinned_nil : services_pinned mutations [] []
| pinned_odd n : services_pinned mutations [n] [n]
| pinned_cons key service service' rest rest' :
    service_change mutations key service service' -> services_pinned mutations rest rest' ->
    services_pinned mutations (key :: service :: rest) (key :: service' :: rest').

(** The names of the services that are changed. *)
Definition selected (mutations : gmap string Delta) (services : list Node) : list string :=
  List.filter (fun name => bool_decide (is_Some (mutations !! name))) (keys services).

Definition doc_pinned (mutations : gmap string Delta) (doc doc' : Node) : Prop :=
  exists root pre key value post services',
    nd_Content doc = [root] /\ nd_Kind root = MappingNode /\
    first_field "services" (nd_Content root) pre key value post /\ nd_Kind value = MappingNode /\
    services_pinned mutations (nd_Content value) services' /\
    selected mutations (nd_Content value) ≡ₚ map fst (map_to_list mutations) /\
    doc' = set_content doc [set_content root (pre ++ key :: set_content value services' :: post)].

Lemma pairs_ind (P : list Node -> Prop) :
  P [] -> (forall n, P [n]) -> (forall key value rest, P rest -> P (key :: value :: rest)) -> forall l, P l.
Proof.
  intros H0 H1 H2. fix IH 1. intros [|a [|b l]]; [exact H0|apply H1|apply H2, IH].
Qed.

Lemma first_field_here name key value post :
  nd_Value key = name -> first_field name (key :: value :: post) [] key value post.
Proof. intros Hk. split_and!; [done|by exists 0%nat|done|by apply not_elem_of_nil]. Qed.

Lemma first_field_there name k v l pre key value post :
  nd_Value k <> name -> first_field name l pre key value post ->
  first_field name (k :: v :: l) (k :: v :: pre) key value post.
Proof.
  intros Hk (-> & [m Hm] & Hkey & Hin). split_and!; [done| |done|].
  - exists (S m). simpl. lia.
  - unfold keys in *. simpl. intros [?|?]%elem_of_cons; [by subst|done].
Qed.

(** The three shapes of a list that has a first field. *)
Lemma first_field_inv name l pre key value post :
  first_field name l pre key value post ->
  (pre = [] /\ l = key :: value :: post /\ nd_Value key = name) \/
  exists k v l' pre', l = k :: v :: l' /\ pre = k :: v :: pre' /\ nd_Value k <> name /\ first_field name l' pre' key value post.
Proof.
  intros (-> & [m Hm] & Hkey & Hin). destruct pre as [|k [|v pre]]; [by left|simpl in Hm; lia|right].
  unfold keys in Hin. simpl in Hin. apply not_elem_of_cons in Hin as [Hne Hin].
  exists k, v, (pre ++ key :: value :: post), pre. split_and!; [done|done|congruence|].
  split_and!; [done| |done|done]. exists (m - 1)%nat. simpl in Hm. lia.
Qed.

Lemma rewrite_image_Ok name d fields fields' :
  rewrite_image name d fields = Ok fields' <->
  exists pre key img post, first_field "image" fields pre key img post /\ inventoried d img = true /\
    fields' = pre ++ key :: pin_node d img :: post.
Proof.
  split.
  - revert fields'. induction fields as [|n|key img rest IH] using pairs_ind; intros fields'; [done..|].
    simpl. case_bool_decide as Hk.
    + rewrite reject_seq_Ok. intros [Hinv [= <-]]. apply negb_false_iff in Hinv.
      exists [], key, img, rest. split_and!; [by apply first_field_here|done|done].
    + intros H. apply bind_Ok in H as (rest' & Hr & [= <-]).
      destruct (IH _ Hr) as (pre & k & i & post & Hf & Hinv & ->).
      exists (key :: img :: pre), k, i, post. split_and!; [by apply first_field_there|done|done].
  - intros (pre & key & img & post & Hf & Hinv & ->). revert pre Hf.
    induction fields as [|n|k v rest IH] using pairs_ind; intros pre Hf;
      (destruct (first_field_inv _ _ _ _ _ _ Hf) as [(-> & Heq & Hk)|(k' & v' & l & pre' & Heq & -> & Hk & Hf')]; [|]);
      try done; simpl; injection Heq; intros; subst.
    + by rewrite bool_decide_true, Hinv.
    + rewrite bool_decide_false by done. by rewrite (IH _ Hf').
Qed.

Lemma rewrite_service_Ok name d service service' :
  rewrite_service name d service = Ok service' <-> image_refused name d = false /\ image_pinned d service service'.
Proof.
  unfold rewrite_service, image_pinned. rewrite !reject_seq_Ok, neqb_false. split.
  - intros (Hr & Hk & H). apply bind_Ok in H as (fields & Hf & [= <-]).
    apply rewrite_image_Ok in Hf as (pre & key & img & post & Hf & Hi & ->). split_and!; [done..|]. by exists pre, key, img, post.
  - intros (Hr & Hk & pre & key & img & post & Hf & Hi & ->). split_and!; [done..|].
    rewrite (proj2 (rewrite_image_Ok name d (nd_Content service) (pre ++ key :: pin_node d img :: post))); [done|].
    by exists pre, key, img, post.
Qed.

Lemma selected_cons mutations key service rest :
  selected mutations (key :: service :: rest) =
  match mutations !! nd_Value key with
  | None => selected mutations rest
  | Some _ => nd_Value key :: selected mutations rest
  end.
Proof. unfold selected, keys. simpl. by destruct (mutations !! nd_Value key). Qed.

Lemma elem_of_selected mutations services name :
  name ∈ selected mutations services <-> is_Some (mutations !! name) /\ name ∈ keys services.
Proof. unfold selected. by rewrite elem_of_filter_true, bool_decide_eq_true. Qed.

Lemma union_shift (k : string) (x y : gset string) : x ∪ ({[k]} ∪ y) = {[k]} ∪ x ∪ y.
Proof. set_solver. Qed.

Lemma rewrite_services_Ok mutations services : forall visited visited' services',
  rewrite_services mutations visited services = Ok (visited', services') <->
  services_pinned mutations services services' /\ NoDup (selected mutations services) /\
  (forall name, name ∈ selected mutations services -> name ∉ visited) /\
  visited' = list_to_set (selected mutations services) ∪ visited.
Proof.
  induction services as [|n|key service rest IH] using pairs_ind; intros visited visited' services'.
  - simpl. split.
    + intros [= <- <-]. split_and!; [constructor|constructor|by intros ? ?%elem_of_nil|symmetry; apply union_empty_l_L].
    + intros (Hp & _ & _ & ->). inversion Hp; subst. simpl. by rewrite union_empty_l_L.
  - simpl. split.
    + intros [= <- <-]. split_and!; [constructor|constructor|by intros ? ?%elem_of_nil|symmetry; apply union_empty_l_L].
    + intros (Hp & _ & _ & ->). inversion Hp; subst. simpl. by rewrite union_empty_l_L.
  - rewrite selected_cons. simpl. destruct (mutations !! nd_Value key) as [d|] eqn:Hm.
    + rewrite reject_seq_Ok, bool_decide_eq_false. split.
      * intros (Hv & H). apply bind_Ok in H as (service1 & Hs & H). apply bind_Ok in H as ([visited1 rest1] & Hr & [= <- <-]).
        apply rewrite_service_Ok in Hs. apply IH in Hr as (Hp & Hn & Hd & ->). split_and!.
        -- constructor; [unfold service_change; by rewrite Hm|done].
        -- apply NoDup_cons. split; [|done]. intros Hin%Hd. by apply Hin, elem_of_union_l, elem_of_singleton.
        -- intros name [->|Hin]%elem_of_cons; [done|]. apply Hd in Hin. rewrite not_elem_of_union in Hin. tauto.
        -- apply union_shift.
      * intros (Hp & [Hk Hn]%NoDup_cons & Hd & ->). inversion Hp as [| |? ? service1 ? rest1 Hc Hr]; subst.
        unfold service_change in Hc. rewrite Hm in Hc. split; [apply Hd; left|].
        rewrite (proj2 (rewrite_service_Ok _ _ _ _) Hc). simpl.
        erewrite (proj2 (IH _ _ _)); [|split_and!; [exact Hr|exact Hn| |reflexivity]].
        -- simpl. by rewrite union_shift.
        -- intros name Hin. rewrite not_elem_of_union, not_elem_of_singleton. split; [by intros ->|]. apply Hd. by right.
    + split.
      * intros H. apply bind_Ok in H as ([visited1 rest1] & Hr & [= <- <-]). apply IH in Hr as (Hp & Hn & Hd & ->).
        split_and!; [|done..]. constructor; [unfold service_change; by rewrite Hm|done].
      * intros (Hp & Hn & Hd & ->). inversion Hp as [| |? ? service1 ? rest1 Hc Hr]; subst.
        unfold service_change in Hc. rewrite Hm in Hc. subst service1.
        erewrite (proj2 (IH _ _ _)); [|split_and!; [exact Hr|exact Hn|exact Hd|reflexivity]]. done.
Qed.

Lemma rewrite_root_Ok mutations fields visited fields' :
  rewrite_root mutations fields = Ok (visited, fields') <->
  exists pre key value post services', first_field "services" fields pre key value post /\ nd_Kind value = MappingNode /\
    rewrite_services mutations ∅ (nd_Content value) = Ok (visited, services') /\
    fields' = pre ++ key :: set_content value services' :: post.
Proof.
  split.
  - revert fields'. induction fields as [|n|key value rest IH] using pairs_ind; intros fields'; [done..|].
    simpl. case_bool_decide as Hk.
    + rewrite reject_seq_Ok, neqb_false. intros [Hkind H]. apply bind_Ok in H as ([visited1 services1] & Hs & [= -> <-]).
      exists [], key, value, rest, services1. split_and!; [by apply first_field_here|done..].
    + intros H. apply bind_Ok in H as ([visited1 rest'] & Hr & [= -> <-]).
      destruct (IH _ Hr) as (pre & k & v & post & services' & Hf & Hrest & Hs & ->).
      exists (key :: value :: pre), k, v, post, services'. split_and!; [by apply first_field_there|done..].
  - intros (pre & key & value & post & services' & Hf & Hkind & Hs & ->). revert pre Hf.
    induction fields as [|n|k v rest IH] using pairs_ind; intros pre Hf;
      (destruct (first_field_inv _ _ _ _ _ _ Hf) as [(-> & Heq & Hk)|(k' & v' & l & pre' & Heq & -> & Hk & Hf')]; [|]);
      try done; simpl; injection Heq; intros; subst.
    + rewrite bool_decide_true by done. rewrite Hkind, bool_decide_true by done. simpl. by rewrite Hs.
    + rewrite bool_decide_false by done. by rewrite (IH _ Hf').
Qed.

Lemma all_visited_Ok mutations visited :
  all_visited mutations visited = Ok tt <-> forall name, is_Some (mutations !! name) -> name ∈ visited.
Proof.
  unfold all_visited. rewrite forE_unit_Ok, Forall_forall. setoid_rewrite reject_Ok. setoid_rewrite bool_decide_eq_false.
  split.
  - intros H name [d Hd]. destruct (decide (name ∈ visited)) as [|Hn]; [done|]. exfalso. apply (H name); [|done].
    apply list_elem_of_fmap. exists (name, d). split; [done|]. by apply elem_of_map_to_list.
  - intros H name ([n d] & -> & Hd%elem_of_map_to_list)%list_elem_of_fmap Hn. apply Hn, H. by exists d.
Qed.

(** What pinning does to a document, and when: the first image of each service
    that is requested is replaced, everything else is left as it is; it is
    refused unless each requested service is there once, with an owned and
    admissible change and the image of the inventory. *)
Theorem rewrite_doc_spec mutations doc doc' :
  rewrite_doc mutations doc = Ok doc' <-> doc_pinned mutations doc doc'.
Proof.
  unfold rewrite_doc, doc_pinned. split.
  - intros H. apply bind_Ok in H as (root & Hroot & H). apply bind_Ok in H as ([visited fields] & Hr & H).
    apply bind_Ok in H as ([] & Hall & [= <-]).
    apply rewrite_root_Ok in Hr as (pre & key & value & post & services' & Hf & Hk & Hs & ->).
    apply rewrite_services_Ok in Hs as (Hp & Hn & _ & ->). rewrite union_empty_r_L in Hall.
    unfold root_of in Hroot. destruct (nd_Content doc) as [|r [|]]; [done| |done].
    rewrite reject_seq_Ok, neqb_false in Hroot. destruct Hroot as [Hroot [= ->]].
    exists root, pre, key, value, post, services'. split_and!; [done..| |done].
    apply NoDup_Permutation; [done|apply NoDup_fst_map_to_list|]. intros name. rewrite all_visited_Ok in Hall. split.
    + intros [[d Hd] _]%elem_of_selected. apply list_elem_of_fmap. exists (name, d). split; [done|]. by apply elem_of_map_to_list.
    + intros ([n d] & -> & Hd%elem_of_map_to_list)%list_elem_of_fmap. apply (elem_of_list_to_set (C := gset string)), Hall. by exists d.
  - intros (root & pre & key & value & post & services' & Hdoc & Hroot & Hf & Hk & Hp & Hsel & ->).
    unfold root_of. rewrite Hdoc, Hroot, bool_decide_true by done. simpl.
    rewrite (proj2 (rewrite_root_Ok mutations (nd_Content root) (list_to_set (selected mutations (nd_Content value)) ∪ ∅)
      (pre ++ key :: set_content value services' :: post))).
    + simpl. rewrite (proj2 (all_visited_Ok _ _)); [done|]. intros name [d Hd].
      apply elem_of_union_l, elem_of_list_to_set. rewrite Hsel. apply list_elem_of_fmap. exists (name, d). split; [done|].
      by apply elem_of_map_to_list.
    + exists pre, key, value, post, services'. split_and!; [done..| |done].
      apply rewrite_services_Ok. split_and!; [done| |by intros ? ?; apply not_elem_of_empty|done].
      rewrite Hsel. apply NoDup_fst_map_to_list.
Qed.

(** A step that passed the validation of its plan, and that needs a recovery
    point, is never refused for what it changes. *)
Lemma validated_not_refused acc acc' d :
  validate_delta acc d = Ok acc' -> needs_recovery d = true -> image_refused (rz_Instance (dl_Installed d)) d = false.
Proof.
  destruct acc as [seen needed]. unfold validate_delta. intros H Hneeds. inv_ok H. unfold validate_step in *. inv_ok Hr.
  unfold well_formed, changed, needs_recovery, image_refused in *. go_simpl. clear Hc0 Hc1 Hc5 Hr H.
  assert (dl_Classification d <> NoChange) by (by destruct Hneeds as [->| ->]). split_and!; tauto.
Qed.

(** ** The checkpoint (ComposeCheckpoint) *)

Record ComposeCheckpoint := mkComposeCheckpoint {
  cc_Path : string;
  cc_Directory : string }.

Section checkpoint.
Context {os : OS} {names : TempNames} {json : JournalJSON} {yaml : ComposeYAML}.

Definition nul : string := bytes [0].

Definition checkpoint_key (mutations : gmap string Delta) : string :=
  String.concat "" (map (fun name => name +:+ nul +:+ default "" (JournalKey <$> mutations !! name) +:+ nul)
    (sort_strings (map fst (map_to_list mutations)))).

Definition checkpointName (c : ComposeCheckpoint) (mutations : gmap string Delta) : result error string :=
  reject ((cc_Path c == "") || (cc_Directory c == "") || bool_decide (mutations = ∅))
    (errorsNew "Compose checkpoint requires a file, directory and provider deltas") ;;
  Ok (filepath_Join [cc_Directory c; digest_text (checkpoint_key mutations) +:+ ".compose"]).

Definition readVerifiedCompose (fs : fsys) (path : string) : result os_error string :=
  st ← Lstat fs path;
  reject (negb (f_Regular st) || (Z.land (f_Perm st) shared_bits != 0)%Z)
    (mkOsError (Errorf "Compose %s not an owner-only regular file" [AStr path]) false) ;;
  ReadFile fs path.

Definition read_compose (fs : fsys) (path : string) : result error string := wrap_err oe_text (readVerifiedCompose fs path).

Definition writeExclusive : string -> string -> disk -> disk * result error unit := create_filled.

Definition atomicReplaceOwnerFile (path data : string) (d : disk) : disk * result error unit :=
  let dir := dir_of path in
  replace_checked (fun fs => read_compose fs path ;; Ok tt) dir (temp_name dir ".core-image-*") path data d.

(** What [Capture] and [Stage] begin with: the paths, the current file and the
    directory of the checkpoints. *)
Definition open_checkpoint (c : ComposeCheckpoint) (mutations : gmap string Delta) (fs : fsys) : result error (string * string) :=
  checkpoint ← checkpointName c mutations;
  current ← read_compose fs (cc_Path c);
  attempt (OpMkdirAll (cc_Directory c)) ;;
  attempt (OpChmod (cc_Directory c)) ;;
  Ok (checkpoint, current).

Definition compose_Capture (c : ComposeCheckpoint) (mutations : gmap string Delta) : M disk unit := fun dk =>
  match open_checkpoint c mutations (dk_Files dk) with
  | Err err => (dk, Err err)
  | Ok (checkpoint, current) =>
      match readVerifiedCompose (dk_Files dk) checkpoint with
      | Err err =>
          if oe_NotExist err then
            match RewriteOwnedComposeImages current mutations with
            | Err err => (dk, Err err)
            | Ok _ => writeExclusive checkpoint current dk
            end
          else (dk, Err (oe_text err))
      | Ok original =>
          (dk, pinned ← RewriteOwnedComposeImages original mutations;
               reject ((current != original) && (current != pinned))
                 (errorsNew "Compose differs from both pre-upgrade and pinned state; refusing backup overwrite"))
      end
  end.

Definition Stage (c : ComposeCheckpoint) (mutations : gmap string Delta) : M disk unit := fun dk =>
  match open_checkpoint c mutations (dk_Files dk) with
  | Err err => (dk, Err err)
  | Ok (checkpoint, current) =>
      match readVerifiedCompose (dk_Files dk) checkpoint with
      | Err err =>
          if oe_NotExist err then
            match RewriteOwnedComposeImages current mutations with
            | Err err => (dk, Err err)
            | Ok pinned =>
                let '(dk, written) := writeExclusive checkpoint current dk in
                match written with
                | Err err => (dk, Err err)
                | Ok _ => atomicReplaceOwnerFile (cc_Path c) pinned dk
                end
            end
          else (dk, Err (Errorf "unsafe existing Compose checkpoint: %w" [ATxt (oe_text err)]))
      | Ok original =>
          match RewriteOwnedComposeImages original mutations with
          | Err err => (dk, Err err)
          | Ok pinned =>
              if current == pinned then (dk, Ok tt)
              else if current == original then atomicReplaceOwnerFile (cc_Path c) pinned dk
              else (dk, Err (errorsNew "Compose differs from both pre-upgrade and pinned state; refusing overwrite"))
          end
      end
  end.

Definition Restore (c : ComposeCheckpoint) (mutations : gmap string Delta) : M disk unit := fun dk =>
  match checkpoint ← checkpointName c mutations;
        original ← read_compose (dk_Files dk) checkpoint;
        current ← read_compose (dk_Files dk) (cc_Path c);
        pinned ← RewriteOwnedComposeImages original mutations;
        Ok (original, current, pinned) with
  | Err err => (dk, Err err)
  | Ok (original, current, pinned) =>
      if (current != original) && (current != pinned) then
        (dk, Err (errorsNew "cannot restore Compose modified by another owner"))
      else if current == original then (dk, Ok tt)
      else atomicReplaceOwnerFile (cc_Path c) original dk
  end.
End checkpoint.

(** ** Going back *)

(** A call of one of the operations, with the faults it meets and the names of
    the temporary files. *)
Inductive checkpoint_op : Type :=
| DoCapture
| DoStage
| DoRestore.

Record checkpoint_call := mkCheckpointCall {
  cl_OS : OS;
  cl_Names : TempNames;
  cl_Op : checkpoint_op }.

(** A regular file that only its owner can read. *)
Definition holds (path data : string) (fs : fsys) : Prop :=
  exists f, fs !! path = Some f /\ f_Data f = data /\ f_Regular f = true /\ Z.land (f_Perm f) shared_bits = 0%Z.

Lemma holds_written path data fs : fs !! path = Some (mkFile data true owner_only) -> holds path data fs.
Proof. intros Hf. eexists. by split. Qed.

(** The files of [d'] and of every state since [d] satisfy [P]. *)
Definition stays (P : fsys -> Prop) (d d' : disk) : Prop :=
  P (dk_Files d') /\ exists visited, dk_History d' = visited ++ dk_History d /\ Forall P visited.

Lemma stays_refl (P : fsys -> Prop) d : P (dk_Files d) -> stays P d d.
Proof. intros H. split; [done|]. by exists []. Qed.

Lemma stays_trans (P : fsys -> Prop) d d' d'' : stays P d d' -> stays P d' d'' -> stays P d d''.
Proof.
  intros (_ & v & Hv & Hpv) (H & w & Hw & Hpw). split; [done|]. exists (w ++ v).
  by rewrite Hw, Hv, app_assoc, Forall_app.
Qed.

Lemma stays_atomic (P : fsys -> Prop) path side new d d' :
  P (dk_Files d) -> atomic path side new d d' ->
  (forall fs, (fs !! path = dk_Files d !! path \/ (is_Some new /\ fs !! path = new)) ->
     (forall p, p ∉ path :: side -> fs !! p = dk_Files d !! p) -> P fs) ->
  stays P d d'.
Proof.
  intros Hd (v & Hv & Hin & Hp & Ho) Himp.
  assert (Forall P v) as Hall.
  { rewrite Forall_forall in Hp, Ho |- *. intros fs Hfs. apply Himp; [by apply Hp|by apply Ho]. }
  split; [|by exists v]. apply elem_of_cons in Hin as [->|Hin]; [done|]. rewrite Forall_forall in Hall. by apply Hall.
Qed.

Section reading.
Context `{OS}.

Lemma readVerifiedCompose_Ok fs path data : readVerifiedCompose fs path = Ok data -> holds path data fs.
Proof.
  unfold readVerifiedCompose, Lstat, ReadFile. destruct (os_fault (OpLstat path)); [done|].
  destruct (fs !! path) as [f|] eqn:Hf; [|done]. simpl. destruct (_ || _) eqn:Hs; [done|]. simpl.
  apply orb_false_iff in Hs as [Hreg%negb_false_iff Hperm]. rewrite neqb_false in Hperm.
  destruct (os_fault (OpRead path)); [done|]. intros [= <-]. by exists f.
Qed.

Lemma readVerifiedCompose_holds fs path data :
  os_fault (OpLstat path) = None -> os_fault (OpRead path) = None -> holds path data fs -> readVerifiedCompose fs path = Ok data.
Proof.
  intros H1 H2 (f & Hf & <- & Hreg & Hperm). unfold readVerifiedCompose, Lstat, ReadFile. rewrite H1, H2, Hf. simpl.
  by rewrite Hreg, Hperm.
Qed.

Lemma readVerifiedCompose_present fs path data r :
  holds path data fs -> readVerifiedCompose fs path = r -> match r with Ok d => d = data | Err err => oe_NotExist err = false end.
Proof.
  intros (f & Hf & Hd & _). unfold readVerifiedCompose, Lstat, ReadFile. rewrite Hf. intros <-. destruct (os_fault (OpLstat path)); [done|]. simpl.
  destruct (_ || _); simpl; [done|]. by destruct (os_fault (OpRead path)).
Qed.

Lemma readVerifiedCompose_absent fs path : fs !! path = None -> is_err (readVerifiedCompose fs path) = true.
Proof.
  intros Hf. destruct (readVerifiedCompose fs path) as [data|] eqn:Hr; [|done].
  apply readVerifiedCompose_Ok in Hr as (f & Hf' & _). congruence.
Qed.

Lemma read_compose_Ok fs path data : read_compose fs path = Ok data -> holds path data fs.
Proof. unfold read_compose. rewrite wrap_err_Ok. apply readVerifiedCompose_Ok. Qed.
End reading.

Lemma holds_unique path a b fs : holds path a fs -> holds path b fs -> a = b.
Proof. intros (f & Hf & <- & _) (g & Hg & <- & _). congruence. Qed.

Section reversible.
Context {json : JournalJSON} {yaml : ComposeYAML}.
Context (c : ComposeCheckpoint) (mutations : gmap string Delta).

Definition perform (call : checkpoint_call) : M disk unit :=
  let '(mkCheckpointCall os names op) := call in
  match op with
  | DoCapture => compose_Capture c mutations
  | DoStage => Stage c mutations
  | DoRestore => Restore c mutations
  end.

Definition performed_all (calls : list checkpoint_call) (dk : disk) : disk := foldl (fun dk call => fst (perform call dk)) dk calls.

Context (checkpoint : string) (named : checkpointName c mutations = Ok checkpoint) (apart : checkpoint <> cc_Path c).

(** The temporary file is neither of the two. *)
Definition fresh (call : checkpoint_call) : Prop :=
  let tmp := @temp_name (cl_Names call) (dir_of (cc_Path c)) ".core-image-*" in
  tmp <> cc_Path c /\ tmp <> checkpoint.

(** The original is kept, and the file is the original or the pinned one. *)
Definition reversible (original pinned : string) (fs : fsys) : Prop :=
  holds checkpoint original fs /\ (holds (cc_Path c) original fs \/ holds (cc_Path c) pinned fs).

Lemma atomicReplaceOwnerFile_spec `{OS} `{TempNames} original pinned data d d' r :
  temp_name (dir_of (cc_Path c)) ".core-image-*" <> cc_Path c ->
  temp_name (dir_of (cc_Path c)) ".core-image-*" <> checkpoint ->
  data = original \/ data = pinned -> reversible original pinned (dk_Files d) ->
  atomicReplaceOwnerFile (cc_Path c) data d = (d', r) ->
  stays (reversible original pinned) d d' /\ (r = Ok tt -> holds (cc_Path c) data (dk_Files d')).
Proof.
  intros Hp Hc Hdata Hrev Hr. apply replace_checked_atomic in Hr as (Ha & _ & Hok); [|done]. split.
  - eapply stays_atomic; [exact Hrev|exact Ha|]. intros fs Hfs Ho. destruct Hrev as [Hck Hfile]. unfold reversible, holds in *.
    rewrite (Ho checkpoint) by (rewrite !not_elem_of_cons; split_and!; [done|done|apply not_elem_of_nil]). split; [done|].
    destruct Hfs as [->|[_ ->]]; [done|]. destruct Hdata as [-> | ->]; [left|right]; eexists; by split.
  - intros Hr. by apply holds_written, Hok.
Qed.

Lemma open_checkpoint_Ok `{OS} fs ck current :
  open_checkpoint c mutations fs = Ok (ck, current) -> ck = checkpoint /\ holds (cc_Path c) current fs.
Proof.
  unfold open_checkpoint. rewrite named. simpl. intros Hr. apply bind_Ok in Hr as (data & Hd & Hr). inv_ok Hr.
  injection Hr as <- <-. split; [done|]. by eapply read_compose_Ok.
Qed.

(** Every later call keeps what is reversible. *)
Lemma perform_reversible original pinned call d d' r :
  RewriteOwnedComposeImages original mutations = Ok pinned -> fresh call -> reversible original pinned (dk_Files d) ->
  perform call d = (d', r) ->
  stays (reversible original pinned) d d' /\
  (r = Ok tt ->
   match cl_Op call with
   | DoCapture => d' = d
   | DoStage => holds (cc_Path c) pinned (dk_Files d')
   | DoRestore => holds (cc_Path c) original (dk_Files d')
   end).
Proof.
  intros Hpin [Hf1 Hf2] Hrev. pose proof Hrev as [Hck Hfile]. destruct call as [os names op]. simpl in Hf1, Hf2 |- *.
  pose proof (stays_refl _ d Hrev) as Hstay. destruct op.
  - unfold compose_Capture. destruct (open_checkpoint c mutations (dk_Files d)) as [[ck current]|e] eqn:Ho; [|by intros [= <- <-]].
    apply open_checkpoint_Ok in Ho as [-> Hcur].
    destruct (readVerifiedCompose (dk_Files d) checkpoint) as [orig|e] eqn:Hr; [by intros [= <- <-]|].
    apply (readVerifiedCompose_present _ _ _ _ Hck) in Hr. rewrite Hr. by intros [= <- <-].
  - unfold Stage. destruct (open_checkpoint c mutations (dk_Files d)) as [[ck current]|e] eqn:Ho; [|by intros [= <- <-]].
    apply open_checkpoint_Ok in Ho as [-> Hcur].
    destruct (readVerifiedCompose (dk_Files d) checkpoint) as [orig|e] eqn:Hr.
    2:{ apply (readVerifiedCompose_present _ _ _ _ Hck) in Hr. rewrite Hr. by intros [= <- <-]. }
    apply (readVerifiedCompose_present _ _ _ _ Hck) in Hr as ->. rewrite Hpin.
    case_bool_decide as Hp; [intros [= <- <-]; by rewrite Hp in Hcur|].
    case_bool_decide; [|by intros [= <- <-]].
    apply atomicReplaceOwnerFile_spec; [done|done|by right|done].
  - unfold Restore. rewrite named. simpl.
    destruct (read_compose (dk_Files d) checkpoint) as [orig|e] eqn:Hr; [|by intros [= <- <-]].
    apply read_compose_Ok in Hr. rewrite (holds_unique _ _ _ _ Hr Hck). simpl.
    destruct (read_compose (dk_Files d) (cc_Path c)) as [current|e] eqn:Hc; [|by intros [= <- <-]].
    apply read_compose_Ok in Hc. simpl. rewrite Hpin. simpl. destruct (_ && _); [by intros [= <- <-]|].
    case_bool_decide as Ho; [intros [= <- <-]; by rewrite Ho in Hc|].
    apply atomicReplaceOwnerFile_spec; [done|done|by left|done].
Qed.

Lemma performed_all_reversible original pinned calls d :
  RewriteOwnedComposeImages original mutations = Ok pinned -> Forall fresh calls -> reversible original pinned (dk_Files d) ->
  stays (reversible original pinned) d (performed_all calls d).
Proof.
  intros Hpin Hf. revert d. induction Hf as [|call calls Hf _ IH]; intros d Hrev; [by apply stays_refl|].
  unfold performed_all. simpl. destruct (perform call d) as [d1 r] eqn:Hp.
  destruct (perform_reversible _ _ _ _ _ _ Hpin Hf Hrev Hp) as [Hs _].
  eapply stays_trans; [exact Hs|]. apply IH, Hs.
Qed.

(** A restoration in which nothing fails succeeds. *)
Lemma Restore_done original pinned call d :
  RewriteOwnedComposeImages original mutations = Ok pinned -> fresh call -> reversible original pinned (dk_Files d) ->
  cl_Op call = DoRestore -> (forall op, @os_fault (cl_OS call) op = None) -> snd (perform call d) = Ok tt.
Proof.
  intros Hpin [Hf1 Hf2] [Hck Hfile] Hop Hno. destruct call as [os names op]. simpl in *. subst op.
  assert (forall path data fs, holds path data fs -> read_compose fs path = Ok data) as Hread.
  { intros path data fs Hh. unfold read_compose. by rewrite (readVerifiedCompose_holds fs path data). }
  unfold Restore. rewrite named. simpl. rewrite (Hread checkpoint original) by exact Hck. simpl.
  assert (exists current, holds (cc_Path c) current (dk_Files d) /\ (current = original \/ current = pinned)) as (current & Hcur & Hwhich)
    by (destruct Hfile; eauto).
  rewrite (Hread (cc_Path c) current) by exact Hcur. simpl. rewrite Hpin. simpl.
  destruct (_ && _) eqn:Hother.
  { apply andb_true_iff in Hother as [H1 H2]. rewrite neqb_true in H1, H2. by destruct Hwhich. }
  case_bool_decide; [done|]. unfold atomicReplaceOwnerFile. apply replace_checked_done; [done|done|].
  intros fs Hfs. rewrite (Hread (cc_Path c) current); [done|]. unfold holds in *. by rewrite (Hfs (cc_Path c)).
Qed.

(** The call that writes the checkpoint: one that succeeds, or one after which
    it is complete. *)
Lemma perform_first call d d' r :
  fresh call -> dk_Files d !! checkpoint = None -> perform call d = (d', r) ->
  (r = Ok tt \/ exists data, holds (cc_Path c) data (dk_Files d) /\ holds checkpoint data (dk_Files d')) ->
  exists original pinned, holds (cc_Path c) original (dk_Files d) /\
    RewriteOwnedComposeImages original mutations = Ok pinned /\ reversible original pinned (dk_Files d').
Proof.
  intros [Hf1 Hf2] Hnone Hcall Hwritten. destruct call as [os names op]. simpl in Hf1, Hf2, Hcall.
  pose proof (readVerifiedCompose_absent (dk_Files d) checkpoint Hnone) as Habs.
  assert (forall e : error, (d, Err e) = (d', r) -> False) as Hfailed.
  { intros e [= <- <-]. destruct Hwritten as [?|(data & _ & f & Hf & _)]; [done|congruence]. }
  assert (forall current pinned d1 r1, holds (cc_Path c) current (dk_Files d) -> writeExclusive checkpoint current d = (d1, r1) ->
    (r1 = Ok tt \/ exists data, holds (cc_Path c) data (dk_Files d) /\ holds checkpoint data (dk_Files d1)) ->
    reversible current pinned (dk_Files d1)) as Hrev.
  { intros current pinned d1 r1 Hcur Hw Hr1. apply create_filled_spec in Hw as [Hother Hnew]. split.
    - destruct Hr1 as [Hr1|(data & Hd & Hck)]; [by apply holds_written, Hnew|by rewrite (holds_unique _ _ _ _ Hcur Hd)].
    - left. unfold holds in *. by rewrite Hother. }
  destruct op; unfold compose_Capture, Stage, Restore in Hcall.
  3:{ destruct (Hfailed (errorsNew "")). revert Hcall. rewrite named. simpl. unfold read_compose.
      destruct (readVerifiedCompose (dk_Files d) checkpoint); [done|]. intros [= <- <-].
      destruct Hwritten as [?|(data & _ & f & Hf & _)]; [done|congruence]. }
  all: destruct (open_checkpoint c mutations (dk_Files d)) as [[ck current]|e] eqn:Ho; [|by apply Hfailed in Hcall].
  all: apply open_checkpoint_Ok in Ho as [-> Hcur].
  all: destruct (readVerifiedCompose (dk_Files d) checkpoint) as [orig|e]; [done|].
  all: destruct (oe_NotExist e); [|by apply Hfailed in Hcall].
  all: destruct (RewriteOwnedComposeImages current mutations) as [pinned|] eqn:Hpin; [|by apply Hfailed in Hcall].
  all: exists current, pinned; split; [done|split; [done|]].
  - by eapply Hrev.
  - destruct (writeExclusive checkpoint current d) as [d1 [[]|e1]] eqn:Hw; [|injection Hcall as <- <-; by eapply Hrev].
    apply (atomicReplaceOwnerFile_spec current pinned) in Hcall as [[Hs _] _]; [done|done|done|by right|]. eapply Hrev; [done|exact Hw|by left].
Qed.
End reversible.

(** C21: Once a checkpoint was written, by a call that succeeded or by one that
    failed later, the update of the images can be taken back: whatever is called
    then, and whatever of it fails, the file is the original or the pinned one
    in every state it goes through, and the original is kept.  After that a
    restoration that reports no error leaves exactly the original, a staging the
    pinned one, and a capture changes nothing; and a restoration in which
    nothing fails reports no error.  (The checkpoint was not there before the
    first call and is not the file itself, and the temporary files have names of
    their own.) *)
Theorem update_reversible `{JournalJSON} `{ComposeYAML} c mutations checkpoint first calls d d1 r1 :
  checkpointName c mutations = Ok checkpoint -> checkpoint <> cc_Path c ->
  dk_Files d !! checkpoint = None -> Forall (fresh c checkpoint) (first :: calls) ->
  perform c mutations first d = (d1, r1) ->
  (r1 = Ok tt \/ exists data, holds (cc_Path c) data (dk_Files d) /\ holds checkpoint data (dk_Files d1)) ->
  exists original pinned,
    holds (cc_Path c) original (dk_Files d) /\ RewriteOwnedComposeImages original mutations = Ok pinned /\
    stays (reversible c checkpoint original pinned) d1 (performed_all c mutations calls d1) /\
    forall next d' r, fresh c checkpoint next -> perform c mutations next (performed_all c mutations calls d1) = (d', r) ->
      stays (reversible c checkpoint original pinned) d1 d' /\
      (r = Ok tt ->
       match cl_Op next with
       | DoCapture => d' = performed_all c mutations calls d1
       | DoStage => holds (cc_Path c) pinned (dk_Files d')
       | DoRestore => holds (cc_Path c) original (dk_Files d')
       end) /\
      (cl_Op next = DoRestore -> (forall op, @os_fault (cl_OS next) op = None) -> r = Ok tt).
Proof.
  intros Hn Hne Hnone [Hf1 Hf]%Forall_cons Hfirst Hwritten.
  destruct (perform_first c mutations checkpoint Hn Hne first d d1 r1 Hf1 Hnone Hfirst Hwritten) as (original & pinned & Ho & Hp & Hrev).
  exists original, pinned. split; [done|]. split; [done|].
  pose proof (performed_all_reversible c mutations checkpoint Hn Hne original pinned calls d1 Hp Hf Hrev) as Hs.
  split; [done|]. intros next d' r Hnext Hcall.
  destruct (perform_reversible c mutations checkpoint Hn Hne original pinned next _ d' r Hp Hnext (proj1 Hs) Hcall) as [Hs' Hok].
  split; [by eapply stays_trans|]. split; [done|]. intros Hop Hno.
  pose proof (Restore_done c mutations checkpoint Hn original pinned next _ Hp Hnext (proj1 Hs) Hop Hno) as Hd. by rewrite Hcall in Hd.
Qed.

(** ** A sample: one service *)
Module Example_compose.
Definition scalar (value : string) : Node := mkNode ScalarNode "!!str" value [] "".
Definition mapping (fields : list Node) : Node := mkNode MappingNode "!!map" "" fields "".

Definition document (image : string) : Node :=
  mkNode DocumentNode "" ""
    [mapping [scalar "services";
              mapping [scalar "openbao"; mapping [scalar "restart"; scalar "always"; scalar "image"; scalar image]]]] "".

(** The text of a document is its image. *)
Definition image_of (doc : Node) : string :=
  match nd_Content doc with
  | [root] =>
      match pairs (nd_Content root) with
      | [(_, services)] =>
          match pairs (nd_Content services) with
          | [(_, service)] => match pairs (nd_Content service) with [_; (_, image)] => nd_Value image | _ => "" end
          | _ => ""
          end
      | _ => ""
      end
  | _ => ""
  end.

Definition yaml : ComposeYAML := mkComposeYAML (fun source => Ok (document source)) (fun doc => Ok (image_of doc)).

Definition delta : Delta :=
  mkDelta (mkRealization Secrets "i" "s" "openbao" "baseharbor" "openbao:2.6.0" "" "2.6.0")
    (mkDesired Secrets "openbao:2.7.0" "sha256:0000000000000000000000000000000000000000000000000000000000000000" "2.7.0")
    BackupRequired "".

Definition mutations : gmap string Delta := {["openbao" := delta]}.
Definition paths : ComposeCheckpoint := mkComposeCheckpoint "/c/compose.yaml" "/c/checkpoints".
Definition checkpoint : string :=
  "/c/checkpoints/" +:+ digest_text (checkpoint_key (json := sample_journal_json) mutations) +:+ ".compose".
Definition start : disk := mkDisk {["/c/compose.yaml" := mkFile "openbao:2.6.0" true owner_only]} [].

Definition call (op : checkpoint_op) : checkpoint_call := mkCheckpointCall sample_journal_os sample_names op.
Definition act (op : checkpoint_op) (dk : disk) : disk * result error unit :=
  perform (json := sample_journal_json) (yaml := yaml) paths mutations (call op) dk.

Definition staged : disk := fst (act DoStage start).
Definition restored : disk := fst (act DoRestore staged).
End Example_compose.

Lemma update_reversible_witness :
  holds "/c/compose.yaml" (pinned_image Example_compose.delta) (dk_Files Example_compose.staged) /\
  holds "/c/compose.yaml" "openbao:2.6.0" (dk_Files Example_compose.restored).
Proof.
  split; [eexists; split_and!; vm_compute; reflexivity|].
  destruct (update_reversible (H := sample_journal_json) (H0 := Example_compose.yaml) Example_compose.paths
    Example_compose.mutations Example_compose.checkpoint (Example_compose.call DoStage) []
    Example_compose.start Example_compose.staged (Ok tt)) as (original & pinned & Ho & _ & _ & Hr).
  - vm_compute. reflexivity.
  - vm_compute. discriminate.
  - vm_compute. reflexivity.
  - repeat constructor; vm_compute; discriminate.
  - vm_compute. reflexivity.
  - left. reflexivity.
  - destruct (Hr (Example_compose.call DoRestore) Example_compose.restored (Ok tt)) as (_ & Hrestored & _).
    + split; vm_compute; discriminate.
    + vm_compute. reflexivity.
    + destruct Ho as (f & Hf & Hd & _). replace original with "openbao:2.6.0" in Hrestored; [exact (Hrestored eq_refl)|].
      rewrite <- Hd. vm_compute in Hf. by injection Hf as <-.
Defined.
