(* ===== verification/Volume.v ===== *)
(** * Recovery points of volumes (internal/coreupdate/volume_recovery.go)

    The archive of an owned volume and its checksum, which are written once per
    step; the volume is restored from an archive that was checked.  The
    container runtime is an argument. *)

From S2P Require Import Prelude GoStrings StableId FileSystem Effects Sha256 UpdatePlan UpdateJournal Compose.

Record VolumeSnapshotRuntime (S : Type) := mkVolumeRuntime {
  vr_ExportOwnedVolume : string -> string -> M S string;
  vr_RestoreOwnedVolume : string -> string -> string -> M S unit }.

Arguments mkVolumeRuntime {S}.
Arguments vr_ExportOwnedVolume {S}.
Arguments vr_RestoreOwnedVolume {S}.

(** [None] is a nil interface or function. *)
Record VolumeRecovery (S : Type) := mkVolumeRecovery {
  vl_Runtime : option (VolumeSnapshotRuntime S);
  vl_Directory : string;
  vl_Project : string;
  vl_Volume : string;
  vl_VerifyQuiesced : option (string -> string -> M S unit) }.

Arguments mkVolumeRecovery {S}.
Arguments vl_Runtime {S}.
Arguments vl_Directory {S}.
Arguments vl_Project {S}.
Arguments vl_Volume {S}.
Arguments vl_VerifyQuiesced {S}.

Section volume.
Context {os : OS} {names : TempNames} {json : JournalJSON} {S : Type} (v : VolumeRecovery S).
Abbreviation state := (S * disk)%type.

Definition archivePath (d : Delta) : result error string :=
  let r := dl_Installed d in
  reject ((vl_Directory v == "") || (vl_Project v == "") || (vl_Volume v == ""))
    (errorsNew "volume recovery requires directory/project/volume") ;;
  reject ((rz_Owner r != "baseharbor") || (rz_Installation r == "") || (rz_Scope r == "") || (rz_Instance r == "") ||
          negb (validDigest (ds_Digest (dl_Desired d))))
    (errorsNew "volume recovery refuses unowned or unpinned realization") ;;
  Ok (filepath_Join [vl_Directory v;
        digest_text (JournalKey d +:+ nul +:+ vl_Project v +:+ nul +:+ vl_Volume v) +:+ ".tar"]).

Definition checksum_path (path : string) : string := path +:+ ".sha256".

(** A file of the recovery point. *)
Definition safe_artifact (fs : fsys) (path : string) : result error unit :=
  st ← wrap_err oe_text (Lstat fs path);
  reject (negb (f_Regular st) || (Z.land (f_Perm st) shared_bits != 0)%Z) (Errorf "unsafe recovery artifact %s" [AStr path]).

Definition readVerifiedArchive (d : Delta) (fs : fsys) : result error string :=
  path ← archivePath d;
  safe_artifact fs path ;;
  safe_artifact fs (checksum_path path) ;;
  data ← wrap_err oe_text (ReadFile fs path);
  expected ← wrap_err oe_text (ReadFile fs (checksum_path path));
  reject ((data == "") || (TrimSpace expected != digest_text data))
    (errorsNew "provider recovery archive checksum mismatch") ;;
  Ok data.

Definition verifyArchive (d : Delta) (fs : fsys) : result error unit := readVerifiedArchive d fs ;; Ok tt.

Definition quiesced : M S unit :=
  verify ← pureM (requireM (vl_VerifyQuiesced v) (errorsNew "provider volume recovery requires quiescence verification"));
  wrapM (fun err => Errorf "provider volume is not quiesced: %w" [ATxt err]) (verify (vl_Project v) (vl_Volume v)).

(** The archive is replaced through a temporary file, the checksum is written
    after it, and the directory is synced. *)
Definition write_archive (path data : string) : M disk unit := fun dk =>
  let dir := vl_Directory v in
  let '(dk, renamed) := rename_filled (fun _ => Ok tt) dir (temp_name dir ".recovery-*") path data dk in
  match renamed with
  | Err err => (dk, Err err)
  | Ok _ =>
      let '(fs, written) := WriteFile (dk_Files dk) (checksum_path path) (digest_text data) owner_only in
      (visit dk fs, written ;; attempt (OpOpen dir) ;; attempt (OpSync dir))
  end.

Definition capture_new (runtime : VolumeSnapshotRuntime S) (path : string) : M state unit :=
  data ← wrapM (fun err => Errorf "export owned volume: %w" [ATxt err])
           (onFst (vr_ExportOwnedVolume runtime (vl_Project v) (vl_Volume v)));
  checkM (data == "") (errorsNew "empty provider recovery archive") ;;
  onSnd (write_archive path data).

Definition open_archive (d : Delta) (runtime : VolumeSnapshotRuntime S) (path : string) : M state unit := fun s =>
  match Lstat (dk_Files (snd s)) path with
  | Ok _ => pureM (wrap_err (fun err => Errorf "existing recovery point is unsafe: %w" [ATxt err]) (verifyArchive d (dk_Files (snd s)))) s
  | Err err => if oe_NotExist err then capture_new runtime path s else pureM (Err (oe_text err)) s
  end.

Definition volume_Capture (d : Delta) : M state unit :=
  runtime ← pureM (requireM (vl_Runtime v) (errorsNew "no owned-volume runtime"));
  path ← pureM (archivePath d);
  onFst quiesced ;;
  pureM (attempt (OpMkdirAll (vl_Directory v))) ;;
  pureM (attempt (OpChmod (vl_Directory v))) ;;
  open_archive d runtime path.

Definition restore_archive (d : Delta) (runtime : VolumeSnapshotRuntime S) : M state unit := fun s =>
  (data ← pureM (readVerifiedArchive d (dk_Files (snd s)));
   onFst (vr_RestoreOwnedVolume runtime (vl_Project v) (vl_Volume v) data)) s.

Definition volume_Recover (d : Delta) : M state unit :=
  runtime ← pureM (requireM (vl_Runtime v) (errorsNew "no owned-volume runtime"));
  onFst quiesced ;;
  restore_archive d runtime.
End volume.

(** ** The volume is restored exactly *)

Section recovery.
Context {json : JournalJSON} {S : Type} (v : VolumeRecovery S) (d : Delta).
Context (path : string) (path_ok : archivePath v d = Ok path).

Definition private_file (f : file) : Prop := f_Regular f = true /\ Z.land (f_Perm f) shared_bits = 0%Z.

(** The files of a complete recovery point of [data]. *)
Definition recovery_point (data : string) (archive checksum : option file) : Prop :=
  data <> "" /\
  (exists f, archive = Some f /\ private_file f /\ f_Data f = data) /\
  (exists f, checksum = Some f /\ private_file f /\ TrimSpace (f_Data f) = digest_text data).

Definition point_of (fs : fsys) (data : string) : Prop := recovery_point data (fs !! path) (fs !! checksum_path path).

(** The operations on the two files that must not fail for them to be read. *)
Definition readable (os : OS) : Prop :=
  forall p, p = path \/ p = checksum_path path -> @os_fault os (OpLstat p) = None /\ @os_fault os (OpRead p) = None.

Lemma safe_artifact_private `{OS} fs p f :
  os_fault (OpLstat p) = None -> fs !! p = Some f -> private_file f -> safe_artifact fs p = Ok tt.
Proof. intros Ho Hf [Hr Hp]. unfold safe_artifact, Lstat. rewrite Ho, Hf. simpl. by rewrite Hr, Hp. Qed.

Lemma readVerifiedArchive_point (os : OS) fs data :
  readable os -> point_of fs data -> readVerifiedArchive v d fs = Ok data.
Proof.
  intros Hos (Hne & (f & Hf & Hpf & Hdf) & (g & Hg & Hpg & Hdg)). unfold readVerifiedArchive. rewrite path_ok. simpl.
  destruct (Hos path (or_introl eq_refl)) as [H1 H2]. destruct (Hos _ (or_intror eq_refl)) as [H3 H4].
  rewrite (safe_artifact_private _ _ _ H1 Hf Hpf). simpl. rewrite (safe_artifact_private _ _ _ H3 Hg Hpg). simpl.
  unfold ReadFile. rewrite H2, H4, Hf, Hg. simpl. by rewrite Hdf, Hdg, bool_decide_false, bool_decide_true.
Qed.

(** What is read is the archive, whatever fails. *)
Lemma readVerifiedArchive_data (os : OS) fs data data' :
  point_of fs data -> readVerifiedArchive v d fs = Ok data' -> data' = data.
Proof.
  intros (_ & (f & Hf & _ & Hdf) & _). unfold readVerifiedArchive. rewrite path_ok. simpl. intros Hr.
  apply seq_Ok in Hr as [_ Hr]. apply seq_Ok in Hr as [_ Hr]. apply bind_Ok in Hr as (x & Hx & Hr). apply wrap_err_Ok in Hx.
  apply bind_Ok in Hr as (y & _ & Hr). apply reject_seq_Ok in Hr as [_ [= <-]].
  unfold ReadFile in Hx. destruct (os_fault _); [done|]. rewrite Hf in Hx. by injection Hx as <-.
Qed.

Lemma checksum_apart : path <> checksum_path path.
Proof. by apply suffix_neq. Qed.

Lemma write_archive_point `{OS} `{TempNames} data dk dk' :
  temp_name (vl_Directory v) ".recovery-*" <> path -> temp_name (vl_Directory v) ".recovery-*" <> checksum_path path ->
  data <> "" -> dk_Files dk !! checksum_path path = None ->
  write_archive v path data dk = (dk', Ok tt) -> point_of (dk_Files dk') data.
Proof.
  intros Ht1 Ht2 Hne Hnone. unfold write_archive.
  destruct (rename_filled _ _ _ path data dk) as [dk1 [[]|]] eqn:Hr; [|done].
  apply rename_filled_atomic in Hr as [(visited & _ & Hin & _ & Ho) [Hp _]]; [|done].
  assert (dk_Files dk1 !! checksum_path path = None) as Hn1.
  { apply elem_of_cons in Hin as [->|Hin]; [done|]. rewrite Forall_forall in Ho. rewrite (Ho _ Hin); [done|].
    rewrite !not_elem_of_cons. split_and!; [by apply not_eq_sym, checksum_apart|done|apply not_elem_of_nil]. }
  unfold WriteFile. rewrite Hn1. destruct (os_fault _); [done|]. simpl. intros [= <- _]. unfold point_of. simpl.
  rewrite lookup_insert_ne by apply not_eq_sym, checksum_apart. rewrite Hp, lookup_insert_eq.
  split_and!; [done| |]; (eexists; split_and!; [done|done|]); [done|]. apply digest_text_trim.
Qed.

(** A capture that writes a recovery point. *)
Lemma volume_Capture_point `{OS} `{TempNames} w dk w' dk' :
  temp_name (vl_Directory v) ".recovery-*" <> path -> temp_name (vl_Directory v) ".recovery-*" <> checksum_path path ->
  dk_Files dk !! path = None -> dk_Files dk !! checksum_path path = None ->
  volume_Capture v d (w, dk) = ((w', dk'), Ok tt) ->
  exists runtime w1 data, vl_Runtime v = Some runtime /\ quiesced v w = (w1, Ok tt) /\
    vr_ExportOwnedVolume runtime (vl_Project v) (vl_Volume v) w1 = (w', Ok data) /\ point_of (dk_Files dk') data.
Proof.
  intros Ht1 Ht2 Hn1 Hn2. unfold volume_Capture, mbind, M_bind, pureM. simpl.
  destruct (vl_Runtime v) as [runtime|]; [|done]. simpl. rewrite path_ok. unfold onFst. simpl.
  destruct (quiesced v w) as [w1 [[]|]] eqn:Hq; [|done]. simpl.
  destruct (attempt (OpMkdirAll _)); [|done]. destruct (attempt (OpChmod _)); [|done].
  unfold open_archive. simpl. destruct (Lstat (dk_Files dk) path) as [st|e] eqn:Hl.
  { unfold Lstat in Hl. rewrite Hn1 in Hl. by destruct (os_fault _). }
  destruct (oe_NotExist e); [|done]. unfold capture_new, mbind, M_bind, wrapM, checkM, pureM, onFst, onSnd. simpl.
  destruct (vr_ExportOwnedVolume runtime (vl_Project v) (vl_Volume v) w1) as [w2 [data|]] eqn:He; [|done]. simpl.
  case_bool_decide as Hd; [done|]. simpl. destruct (write_archive v path data dk) as [dk1 r] eqn:Hw. intros [= <- <- ->].
  exists runtime, w1, data. split_and!; [done|done|done|]. by eapply write_archive_point.
Qed.

(** An archive without its checksum, which a stop between the two leaves, can
    neither be used nor be taken again. *)
Lemma volume_Capture_without_checksum `{OS} `{TempNames} w dk f :
  dk_Files dk !! path = Some f -> dk_Files dk !! checksum_path path = None ->
  is_err (snd (volume_Capture v d (w, dk))) = true.
Proof.
  intros Hf Hn. unfold volume_Capture, mbind, M_bind, pureM, onFst. simpl.
  destruct (vl_Runtime v) as [runtime|]; [|done]. simpl. rewrite path_ok.
  destruct (quiesced v w) as [w1 [[]|]]; [|done]. simpl.
  destruct (attempt (OpMkdirAll _)); [|done]. destruct (attempt (OpChmod _)); [|done].
  unfold open_archive. simpl. unfold Lstat at 1. rewrite Hf. destruct (os_fault (OpLstat path)) as [e|] eqn:Ho; [done|].
  simpl. unfold verifyArchive, readVerifiedArchive. rewrite path_ok. simpl. unfold safe_artifact, Lstat. rewrite Ho, Hf, Hn. simpl.
  destruct (_ || _); [done|]. simpl. by destruct (os_fault (OpLstat (checksum_path path))).
Qed.
End recovery.

(** C22: A volume is restored exactly: after a capture that wrote the recovery point
    of a step, and as long as its two files are there, a recovery restores the
    very data that was exported then, from a volume that was proven quiescent,
    or touches nothing but that proof; it restores it when the files can be
    read.  Another capture of the step exports and writes nothing. *)
Theorem volume_restored_exactly `{JournalJSON} {S} (os : OS) (names : TempNames) (v : VolumeRecovery S) d path w dk w' dk' :
  archivePath v d = Ok path ->
  temp_name (vl_Directory v) ".recovery-*" <> path -> temp_name (vl_Directory v) ".recovery-*" <> checksum_path path ->
  dk_Files dk !! path = None -> dk_Files dk !! checksum_path path = None ->
  volume_Capture v d (w, dk) = ((w', dk'), Ok tt) ->
  exists runtime w0 data, vl_Runtime v = Some runtime /\
    quiesced v w = (w0, Ok tt) /\ vr_ExportOwnedVolume runtime (vl_Project v) (vl_Volume v) w0 = (w', Ok data) /\ data <> "" /\
    forall os' names' w1 dk1, dk_Files dk1 !! path = dk_Files dk' !! path ->
      dk_Files dk1 !! checksum_path path = dk_Files dk' !! checksum_path path ->
      let restored : M (S * disk) unit :=
        onFst (quiesced v ;; vr_RestoreOwnedVolume runtime (vl_Project v) (vl_Volume v) data) in
      (volume_Recover (os := os') v d (w1, dk1) = restored (w1, dk1) \/
       exists e, volume_Recover (os := os') v d (w1, dk1) = ((fst (quiesced v w1), dk1), Err e)) /\
      (readable path os' -> volume_Recover (os := os') v d (w1, dk1) = restored (w1, dk1)) /\
      fst (volume_Capture (os := os') (names := names') v d (w1, dk1)) = (fst (quiesced v w1), dk1).
Proof.
  intros Hp Ht1 Ht2 Hn1 Hn2 Hc.
  destruct (volume_Capture_point v d path Hp w dk w' dk' Ht1 Ht2 Hn1 Hn2 Hc) as (runtime & w0 & data & Hrt & Hq & He & Hpoint).
  exists runtime, w0, data. split; [done|]. split; [done|]. split; [done|]. split; [apply Hpoint|].
  intros os' names' w1 dk1 H1 H2 restored.
  assert (point_of path (dk_Files dk1) data) as Hpoint1 by (unfold point_of; by rewrite H1, H2).
  assert (forall r, readVerifiedArchive (os := os') v d (dk_Files dk1) = r ->
    volume_Recover (os := os') v d (w1, dk1) = restored (w1, dk1) \/
    (exists e, r = Err e) /\ exists e, volume_Recover (os := os') v d (w1, dk1) = ((fst (quiesced v w1), dk1), Err e)) as Hrec.
  { intros r Hr. unfold volume_Recover, restored, restore_archive, mbind, M_bind, pureM, onFst. simpl. rewrite Hrt. simpl.
    destruct (quiesced v w1) as [w2 [[]|e]]; simpl; [|by left]. rewrite Hr. destruct r as [data'|e]; simpl.
    - rewrite (readVerifiedArchive_data v d path Hp os' _ data data' Hpoint1 Hr).
      left. by destruct (vr_RestoreOwnedVolume _ _ _ _ w2).
    - right. split; by exists e. }
  split_and!.
  - destruct (Hrec _ eq_refl) as [?|[_ ?]]; [by left|by right].
  - intros Hread. destruct (Hrec _ (readVerifiedArchive_point v d path Hp os' _ data Hread Hpoint1)) as [?|[[e He'] _]]; [done|done].
  - unfold volume_Capture, mbind, M_bind, pureM, onFst. simpl. rewrite Hrt. simpl. rewrite Hp.
    destruct (quiesced v w1) as [w2 [[]|e]]; simpl; [|done].
    destruct (attempt (OpMkdirAll _)); [|done]. destruct (attempt (OpChmod _)); [|done].
    unfold open_archive. simpl. unfold Lstat. destruct Hpoint1 as (_ & (f & Hf & _) & _). rewrite Hf.
    by destruct (os_fault _).
Qed.

(** ** A sample: the state is the volume *)
Module Example_volume.
Definition runtime : VolumeSnapshotRuntime string :=
  mkVolumeRuntime (fun _ _ data => (data, Ok data)) (fun _ _ data _ => (data, Ok tt)).
Definition recovery : VolumeRecovery string := mkVolumeRecovery (Some runtime) "/r" "core" "pg" (Some (fun _ _ => mret tt)).
Definition path : string :=
  "/r/" +:+ digest_text (JournalKey (json := sample_journal_json) Example_compose.delta +:+ nul +:+ "core" +:+ nul +:+ "pg") +:+ ".tar".
Definition capture (s : string * disk) :=
  volume_Capture (os := sample_journal_os) (names := sample_names) (json := sample_journal_json) recovery Example_compose.delta s.
Definition captured : disk := snd (fst (capture ("rows", mkDisk ∅ []))).
End Example_volume.

Lemma volume_restored_exactly_witness :
  volume_Recover (os := sample_journal_os) (json := sample_journal_json) Example_volume.recovery Example_compose.delta
    ("damaged", Example_volume.captured) = (("rows", Example_volume.captured), Ok tt).
Proof.
  destruct (volume_restored_exactly (H := sample_journal_json) sample_journal_os sample_names Example_volume.recovery
    Example_compose.delta Example_volume.path "rows" (mkDisk ∅ []) "rows" Example_volume.captured)
    as (runtime & w0 & data & Hrt & Hq & He & _ & H).
  - vm_compute. reflexivity.
  - vm_compute. discriminate.
  - vm_compute. discriminate.
  - reflexivity.
  - reflexivity.
  - vm_compute. reflexivity.
  - injection Hrt as <-. injection Hq as <-. injection He as <-.
    destruct (H sample_journal_os sample_names "damaged" Example_volume.captured eq_refl eq_refl) as (_ & Hrec & _).
    etransitivity; [apply Hrec; intros p _; split; reflexivity|]. reflexivity.
Defined.
