(* ===== verification/ProviderUpdates.v ===== *)
(** * Updating the providers (internal/coreupdate: provider_driver.go,
    provider_mixed_transaction.go)

    The two orchestrations of a journaled update: the providers whose volumes
    and images are recovered by the platform, and the mixed one in which some
    are upgraded by their adapters.  When the update fails, the steps it left
    unfinished are taken back. *)

From S2P Require Import Prelude GoStrings FileSystem Effects UpdatePlan UpdateJournal Compose Volume.

Record NativeProviderOps (S : Type) := mkNativeOps {
  no_Preflight : Plan -> M S unit;
  no_Quiesce : Delta -> M S unit;
  no_ReconcilePinned : Delta -> M S unit;
  no_ReconcileOriginal : Delta -> M S unit;
  no_VerifySemantics : Delta -> M S unit;
  no_Record : Delta -> string -> M S unit }.

Arguments mkNativeOps {S}.
Arguments no_Preflight {S}.
Arguments no_Quiesce {S}.
Arguments no_ReconcilePinned {S}.
Arguments no_ReconcileOriginal {S}.
Arguments no_VerifySemantics {S}.
Arguments no_Record {S}.

Record NativeProviderAssets (S : Type) := mkNativeAssets {
  na_Recovery : VolumeRecovery S;
  na_Compose : ComposeCheckpoint }.

Arguments mkNativeAssets {S}.
Arguments na_Recovery {S}.
Arguments na_Compose {S}.

Definition zero_assets {S} : NativeProviderAssets S :=
  mkNativeAssets (mkVolumeRecovery None "" "" "" None) (mkComposeCheckpoint "" "").

Definition complete_assets {S} (a : NativeProviderAssets S) : bool :=
  negb ((match vl_Runtime (na_Recovery a) with None => true | Some _ => false end) ||
        (match vl_VerifyQuiesced (na_Recovery a) with None => true | Some _ => false end) ||
        (cc_Path (na_Compose a) == "") || (cc_Directory (na_Compose a) == "")).

(** ** The hooks *)

Section native.
Context {os : OS} {names : TempNames} {json : JournalJSON} {yaml : ComposeYAML} {S : Type}.
Abbreviation W := (S * disk)%type.

(** The one mutation of a step. *)
Definition step_mutations (d : Delta) : gmap string Delta := {[rz_Instance (dl_Installed d) := d]}.

Definition assets_Recover (a : NativeProviderAssets S) (d : Delta) (ops : option (NativeProviderOps S)) : M W unit :=
  match ops with
  | None => fail "native provider recovery requires complete owned assets and lifecycle operations"
  | Some ops =>
      checkM (negb (complete_assets a))
        (errorsNew "native provider recovery requires complete owned assets and lifecycle operations") ;;
      onFst (no_Quiesce ops d) ;;
      volume_Recover (na_Recovery a) d ;;
      onSnd (Restore (na_Compose a) (step_mutations d)) ;;
      onFst (no_ReconcileOriginal ops d) ;;
      onFst (no_VerifySemantics ops d)
  end.

Context (ops : NativeProviderOps S) (assets : gmap string (NativeProviderAssets S)).

Definition assets_of (d : Delta) : NativeProviderAssets S := default zero_assets (assets !! JournalKey d).

(** Every changed step that is not delegated has its assets. *)
Definition require_assets (format : string) (delegated : Delta -> bool) (plan : Plan) : result error unit :=
  forE (fun _ d =>
    if (dl_Classification d == NoChange) || delegated d then Ok tt
    else
      reject (match assets !! JournalKey d with None => true | Some entry => negb (complete_assets entry) end)
        (Errorf format [AStr (rz_Instance (dl_Installed d))])) tt (pl_Deltas plan).

Definition native_recovery_point (d : Delta) : M W unit :=
  onFst (no_Quiesce ops d) ;;
  volume_Capture (na_Recovery (assets_of d)) d.

Definition native_recover (d : Delta) (_ : string) : M W unit := assets_Recover (assets_of d) d (Some ops).

Definition native_apply (d : Delta) : M W unit :=
  onSnd (Stage (na_Compose (assets_of d)) (step_mutations d)) ;;
  onFst (no_ReconcilePinned ops d).

Definition native_hooks : Hooks W :=
  mkHooks (Some (fun plan => onFst (no_Preflight ops plan))) (Some native_recovery_point) (Some native_recover)
    (Some native_apply) (Some (fun d => onFst (no_VerifySemantics ops d))) (Some (fun d value => onFst (no_Record ops d value))).

(** The steps that [useBound] selects are delegated to the bound hooks, whose
    verification is followed by that of the operations. *)
Context (preflight : Plan -> M W unit) (recoveryPoint apply verify : Delta -> M W unit) (recover : Delta -> string -> M W unit).
Context (useBound : Delta -> bool).

Definition bound_plan (plan : Plan) : Plan := mkPlan (pl_Release plan) (List.filter useBound (pl_Deltas plan)).

Definition mixed_preflight (plan p : Plan) : M W unit :=
  onFst (no_Preflight ops p) ;;
  (if (0 <? length (pl_Deltas (bound_plan plan)))%nat then preflight (bound_plan plan) else mret tt).

Definition mixed_hooks (plan : Plan) : Hooks W :=
  mkHooks (Some (mixed_preflight plan))
    (Some (fun d => if useBound d then recoveryPoint d else native_recovery_point d))
    (Some (fun d state => if useBound d then recover d state else native_recover d state))
    (Some (fun d => if useBound d then apply d else native_apply d))
    (Some (fun d => (if useBound d then verify d else mret tt) ;; onFst (no_VerifySemantics ops d)))
    (Some (fun d value => onFst (no_Record ops d value))).
End native.

(** ** The updates *)

Section updates.
Context {os : OS} {dirs : Dirs} {names : TempNames} {json : JournalJSON} {W : Type}.
Abbreviation state := (W * (disk * Journal))%type.

(** Taking back a step that is left unfinished with [status]; [err] is the
    error of the update. *)
Definition take_back (path : string) (hooks : Hooks W) (err : error) (d : Delta) (status : string) : M state unit :=
  recover ← pureM (requireM (hk_Recover hooks) nil_call);
  record ← pureM (requireM (hk_Record hooks) nil_call);
  wrapM (fun e => join_errors err (instance_error "automatic recovery failed for %s: %w" d e)) (onFst (recover d status)) ;;
  wrapM (fun e => join_errors err (Errorf "provider recovery receipt failed: %w" [ATxt e])) (onFst (record d "recovered")) ;;
  wrapM (fun e => join_errors err (Errorf "persist provider recovered state: %w" [ATxt e])) (record_journal path d "recovered").

(** The steps that [skip] selects are left alone. *)
Definition rollback_step (path : string) (hooks : Hooks W) (skip : Delta -> bool) (err : error) (d : Delta) : M state unit := fun s =>
  (let status := step_state (snd (snd s)) d in
   if negb (interrupted status) || skip d then mret tt else take_back path hooks err d status) s.

Definition rollback (path : string) (plan : Plan) (hooks : Hooks W) (skip : Delta -> bool) (err : error) : M state unit :=
  rangeM (rollback_step path hooks skip err) (pl_Deltas plan) ;;
  pureM (Err err).

Definition update_with_rollback (ctx : M W unit) (plan : Plan) (path : string) (hooks : Hooks W) (skip : Delta -> bool)
    : M (W * disk) unit := fun s =>
  match ExecuteJournaled ctx plan path hooks s with
  | (s', Ok _) => (s', Ok tt)
  | ((w, dk), Err err) =>
      match LoadJournal (dk_Files dk) path (pl_Release plan) with
      | Err readErr => ((w, dk), Err (join_errors err readErr))
      | Ok journal =>
          let '((w, (dk, _)), r) := rollback path plan hooks skip err (w, (dk, journal)) in ((w, dk), r)
      end
  end.

(** The mixed update leaves the steps alone that an earlier run left
    unfinished. *)
Definition guarded_update (ctx : M W unit) (plan : Plan) (path : string) (hooks : Hooks W) : M (W * disk) unit := fun s =>
  match LoadJournal (dk_Files (snd s)) path (pl_Release plan) with
  | Err err => (s, Err err)
  | Ok before => update_with_rollback ctx plan path hooks (fun d => interrupted (step_state before d)) s
  end.
End updates.

Section runs.
Context {os : OS} {dirs : Dirs} {names : TempNames} {json : JournalJSON} {yaml : ComposeYAML} {S : Type}.
Abbreviation W := (S * disk)%type.

Definition RunNativeProviderUpdates (ctx : M W unit) (plan : Plan) (journalPath : string)
    (ops : option (NativeProviderOps S)) (assets : gmap string (NativeProviderAssets S)) : M (W * disk) unit :=
  ops ← pureM (requireM ops (errorsNew "Core provider native operations are required"));
  checkM (journalPath == "") (errorsNew "durable Core update journal path required") ;;
  pureM (require_assets assets "Core %s missing provider-native recovery and Compose assets" (fun _ => false) plan) ;;
  update_with_rollback ctx plan journalPath (native_hooks ops assets) (fun _ => false).

Definition RunMixedProviderUpdates (ctx : M W unit) (plan : Plan) (journalPath : string)
    (ops : option (NativeProviderOps S)) (assets : gmap string (NativeProviderAssets S))
    (bound : Hooks W) (useBound : option (Delta -> bool)) : M (W * disk) unit :=
  match ops, useBound with
  | Some ops, Some useBound =>
      checkM (journalPath == "") (errorsNew "durable Core update journal path required") ;;
      match hk_Preflight bound, hk_RecoveryPoint bound, hk_Apply bound, hk_Verify bound, hk_Recover bound with
      | Some preflight, Some recoveryPoint, Some apply, Some verify, Some recover =>
          pureM (require_assets assets "Core %s missing native recovery and Compose assets" useBound plan) ;;
          guarded_update ctx plan journalPath
            (mixed_hooks ops assets preflight recoveryPoint apply verify recover useBound plan)
      | _, _, _, _, _ => fail "bound provider lifecycle is incomplete"
      end
  | _, _ => fail "Core mixed provider update requires native operations and provider selector"
  end.
End runs.

(** ** Nothing before the preflight *)

Section guarded.
Context {os : OS} {dirs : Dirs} {names : TempNames} {json : JournalJSON} {W : Type}.
Abbreviation T := (W * list event)%type.
Abbreviation state := (T * (disk * Journal))%type.
Context (hooks : Hooks W) (ctx : M W unit) (plan : Plan) (path : string) (j0 : Journal).
Abbreviation watched := (watch_hooks hooks).
Abbreviation watched_ctx := (watch_call CallCtx ctx).

Definition preflighted (evs : list event) : Prop := exists p, (CallPreflight p, true) ∈ evs.

(** What is called before a preflight succeeded, and what is recovered: a step
    with the unfinished state that the journal [j0] has for it. *)
Definition cautious_call (before : list event) (e : event) : Prop :=
  match fst e with
  | CallCtx | CallPreflight _ => True
  | CallRecover d status => preflighted before /\ status = step_state j0 d /\ interrupted status = true
  | _ => preflighted before
  end.

Definition cautious : list event -> Prop := obeys cautious_call.

(** After a preflight that succeeded. *)
Definition cleared (s : state) : Prop := cautious (snd (fst s)) /\ preflighted (snd (fst s)).

(** Or nothing was recorded yet. *)
Definition pending (dk : disk) (s : state) : Prop := cautious (snd (fst s)) /\ (preflighted (snd (fst s)) \/ fst (snd s) = dk).

Lemma cleared_pending dk s : cleared s -> pending dk s.
Proof. intros [Hc Hp]. split; [done|by left]. Qed.

Lemma preflighted_app evs new : preflighted evs -> preflighted (evs ++ new).
Proof. intros [p Hp]. exists p. apply elem_of_app. by left. Qed.

(** A call that is permitted, and what follows from its event. *)
Lemma run_permitted c (m : M W unit) (s : state) (Q : unit -> state -> Prop) (X : state -> Prop) :
  cautious (snd (fst s)) -> (forall ok, cautious_call (snd (fst s)) (c, ok)) ->
  (forall s', snd s' = snd s -> snd (fst s') = snd (fst s) ++ [(c, true)] -> cautious (snd (fst s')) -> Q tt s') ->
  (forall s', snd s' = snd s -> snd (fst s') = snd (fst s) ++ [(c, false)] -> cautious (snd (fst s')) -> X s') ->
  run (onFst (watch_call c m)) s Q X.
Proof.
  intros Ht Hc HQ HX. apply run_onFst, run_watch.
  - intros w [] _. apply HQ; [done|done|]. by apply obeys_snoc.
  - intros w e _. apply HX; [done|done|]. by apply obeys_snoc.
Qed.

Lemma keeps_call c (m : M W unit) :
  match c with CallRecover d status => status = step_state j0 d /\ interrupted status = true | _ => True end ->
  keeps cleared (onFst (watch_call c m)).
Proof.
  intros Hc s [Ht Hp]. apply run_permitted; [done| |..].
  - intros ok. unfold cautious_call. simpl. by destruct c.
  - intros s' _ Hs Ht'. split; [done|]. rewrite Hs. by apply preflighted_app.
  - intros s' _ Hs Ht'. split; [done|]. rewrite Hs. by apply preflighted_app.
Qed.

Lemma keeps_record value d : keeps cleared (record_journal (W := T) path d value).
Proof.
  intros [[w t] [dk j]] Hs. unfold run, record_journal. by destruct (Journal_Record _ _ _ _ _) as [dk' [j' [[]|e]]].
Qed.


Lemma keeps_require {A} (o : option A) e (f : A -> M state unit) :
  (forall a, o = Some a -> keeps cleared (f a)) -> keeps cleared (a ← pureM (requireM o e); f a).
Proof. intros Hf s Hs. apply run_bind, run_pure. destruct o as [a|]; [by apply Hf|done]. Qed.

(** Everything that is called after the preflight, the recovery apart. *)
Ltac solve_keeps :=
  repeat match goal with
         | |- forall _, _ => intro
         | |- keeps _ _ =>
             first [apply keeps_call; exact I | apply keeps_record | apply keeps_require | apply keeps_pure | apply keeps_ret
                   | apply keeps_if | apply keeps_bind | apply keeps_onErr | apply keeps_ignore | apply keeps_wrap
                   | apply keeps_range | apply keeps_for]
         end.

Lemma keeps_execute record verify remaining :
  hk_Verify hooks = Some verify ->
  keeps cleared (Execute (onFst watched_ctx) (mkPlan (pl_Release plan) remaining)
    (journaled_hooks path watched (fun d value => watch_call (CallRecord d value) (record d value)))).
Proof.
  intros Hv. unfold Execute. simpl. rewrite Hv. simpl. destruct (hk_Apply hooks) as [apply|]; simpl; [|auto with effects].
  unfold execute_delta. solve_keeps. destruct (hk_RecoveryPoint hooks); [|done].
  injection H as <-. by apply keeps_call.
Qed.

Lemma keeps_recover : keeps cleared (rangeM (recover_step watched j0) (pl_Deltas plan)).
Proof.
  apply keeps_range. intros d. unfold recover_step. destruct (interrupted (step_state j0 d)) eqn:Hi; [|auto with effects].
  apply keeps_require. simpl. intros recover. destruct (hk_Recover hooks); simpl; [intros [= <-]|done].
  by apply keeps_wrap, keeps_call.
Qed.

(** Before the preflight nothing is recorded. *)
Lemma keeps_pending_call dk c (m : M W unit) :
  match c with CallCtx | CallPreflight _ => True | _ => False end -> keeps (pending dk) (onFst (watch_call c m)).
Proof.
  intros Hc s [Ht Hp]. apply run_permitted; [done|intros ok; by destruct c|..];
    (intros s' Hr Hs Ht'; split; [done|]; rewrite Hs, Hr; destruct Hp; [left; by apply preflighted_app|by right]).
Qed.

Lemma run_execute_journaled (s : state) dk :
  pending dk s -> run (execute_journaled watched_ctx plan path watched j0) s (fun _ => cleared) (pending dk).
Proof.
  intros Hs. unfold execute_journaled. simpl.
  destruct (hk_Verify hooks) as [verify|] eqn:Hv; simpl; [|by apply run_pure].
  destruct (hk_Record hooks) as [record|]; simpl; [|by apply run_pure].
  apply run_bind, run_pure. destruct (validateExecutionPlan plan watched); [|done].
  apply run_bind. eapply run_mono; [|done|apply (keeps_range (pending dk)); [|exact Hs]].
  2:{ intros d. unfold admit_step. apply keeps_bind; [by apply keeps_pending_call|auto with effects]. }
  intros [] s1 Hs1. apply run_bind, run_pure. destruct (hk_Preflight hooks) as [preflight|]; simpl; [|done].
  apply run_bind, run_wrap. pose proof Hs1 as [Ht1 Hp1]. apply run_permitted; [done|done| |].
  2:{ intros s2 Hr Hs2 Ht2. split; [done|]. rewrite Hs2, Hr. destruct Hp1; [left; by apply preflighted_app|by right]. }
  intros s2 _ Hs2 Ht2.
  assert (cleared s2) as Hc by (split; [done|]; exists plan; rewrite Hs2, elem_of_app, list_elem_of_singleton; by right).
  eapply run_mono; [| |apply (keeps_bind cleared); [apply keeps_recover| |exact Hc]].
  - intros [] s3 Hs3. exact Hs3.
  - intros s3 Hs3. by apply cleared_pending.
  - intros _. apply keeps_bind; [|intros remaining; by eapply keeps_execute].
    apply keeps_for. intros rem d. unfold reverify_step. solve_keeps.
Qed.

(** What is called to take back the steps that a failed update left unfinished:
    with the state that the journal [j1] has for them, unless they were
    unfinished before; and they are recorded as recovered once they are. *)
Definition takes_back (j1 : Journal) (before : list event) (e : event) : Prop :=
  match fst e with
  | CallRecover d status => status = step_state j1 d /\ interrupted status = true /\ interrupted (step_state j0 d) = false
  | CallRecord d value => value = "recovered" /\ (CallRecover d (step_state j1 d), true) ∈ before
  | _ => False
  end.

(** After [evs1], with the steps that are still unfinished as [j1] has them. *)
Definition taking (j1 : Journal) (evs1 evs2 : list event) (s : state) : Prop :=
  snd (fst s) = evs1 ++ evs2 /\ obeys (takes_back j1) evs2 /\
  forall d, interrupted (step_state (snd (snd s)) d) = true -> step_state (snd (snd s)) d = step_state j1 d.

Definition taken (j1 : Journal) (evs1 : list event) (s : state) : Prop := exists evs2, taking j1 evs1 evs2 s.

Lemma record_recovered d dk j dk' j' r :
  Journal_Record (Some j) path d "recovered" dk = (dk', (j', r)) ->
  forall d', interrupted (step_state (default j j') d') = true -> step_state (default j j') d' = step_state j d'.
Proof.
  unfold Journal_Record. destruct (next_steps _ _ _) as [[current next]|e] eqn:Hn; [|by intros [= _ <- _]].
  destruct (journal_encode _ _); [|by intros [= _ <- _]]. destruct (private_dir _ _); [|by intros [= _ <- _]].
  destruct (replace_synced _ _ _ _ _) as [dk1 [[]|e]]; [|by intros [= _ <- _]]. intros [= _ <- _] d'. simpl.
  unfold next_steps in Hn. inv_ok Hn. injection Hn as <- <-.
  unfold step_state, steps_of. cbn.
  destruct (decide (JournalKey d' = JournalKey d)) as [->|Hne]; [by rewrite lookup_insert_eq|by rewrite lookup_insert_ne].
Qed.

Lemma taking_call j1 evs1 evs2 s c (m : M W unit) (Q : unit -> state -> Prop) :
  taking j1 evs1 evs2 s -> (forall ok, takes_back j1 evs2 (c, ok)) ->
  (forall s', snd s' = snd s -> taking j1 evs1 (evs2 ++ [(c, true)]) s' -> Q tt s') ->
  run (onFst (watch_call c m)) s Q (taken j1 evs1).
Proof.
  intros (Ht & Ho & Hj) Hc HQ. apply run_onFst, run_watch.
  - intros w [] _. apply HQ; [done|]. split_and!; [by rewrite app_assoc, <- Ht|by apply obeys_snoc|done].
  - intros w e _. exists (evs2 ++ [(c, false)]). split_and!; [by rewrite app_assoc, <- Ht|by apply obeys_snoc|done].
Qed.

Lemma keeps_take_back j1 evs1 err d (s : state) :
  taken j1 evs1 s -> interrupted (step_state (snd (snd s)) d) = true -> interrupted (step_state j0 d) = false ->
  run (take_back path watched err d (step_state (snd (snd s)) d)) s (fun _ => taken j1 evs1) (taken j1 evs1).
Proof.
  intros (evs2 & Hs) Hi Hskip. pose proof Hs as (_ & _ & Hj). unfold take_back.
  destruct (hk_Recover hooks) as [recover|] eqn:Hr; simpl; rewrite Hr; simpl; [|apply run_bind, run_pure; by exists evs2].
  apply run_bind, run_pure.
  destruct (hk_Record hooks) as [record|] eqn:Hrec; simpl; [|apply run_bind, run_pure; by exists evs2].
  apply run_bind, run_pure. apply run_bind, run_wrap. eapply taking_call; [exact Hs|intros ok; split_and!; [by apply Hj|done|done]|].
  intros s2 _ Hs2. apply run_bind, run_wrap. eapply taking_call; [exact Hs2| |].
  { intros ok. split; [done|]. rewrite <- (Hj d Hi). apply elem_of_app. right. by left. }
  intros [[w t] [dk j]] _ (Ht & Ho & Hj3). apply run_wrap. unfold run, record_journal.
  destruct (Journal_Record (Some j) path d "recovered" dk) as [dk' [j' r]] eqn:Hrecd.
  assert (taken j1 evs1 ((w, t), (dk', default j j'))) as Hdone.
  { eexists. split_and!; [exact Ht|exact Ho|]. simpl. intros d' Hd'. pose proof (record_recovered _ _ _ _ _ _ Hrecd d' Hd') as He.
    rewrite He. apply Hj3. simpl. by rewrite <- He. }
  by destruct r as [[]|e].
Qed.

Lemma keeps_rollback j1 evs1 err :
  keeps (taken j1 evs1) (rollback path plan watched (fun d => interrupted (step_state j0 d)) err).
Proof.
  unfold rollback. apply keeps_bind; [|intros []; apply keeps_pure]. apply keeps_range. intros d s Hs.
  unfold run, rollback_step. destruct (interrupted (step_state (snd (snd s)) d)) eqn:Hi; simpl; [|done].
  destruct (interrupted (step_state j0 d)) eqn:Hskip; [done|]. by apply keeps_take_back.
Qed.

Lemma rollback_failed skip err (s : state) : is_ok (snd (rollback path plan watched skip err s)) = false.
Proof. unfold rollback, mbind, M_bind. by destruct (rangeM _ _ s) as [s' [[]|e]]. Qed.

(** Nothing to take back. *)
Lemma rollback_nothing skip err (s : state) :
  (forall d, d ∈ pl_Deltas plan -> interrupted (step_state (snd (snd s)) d) = true -> skip d = true) ->
  rollback path plan watched skip err s = (s, Err err).
Proof.
  intros Hskip. unfold rollback, rangeM. induction (pl_Deltas plan) as [|d l IH]; [done|]. simpl.
  unfold mbind, M_bind at 2. unfold M_bind at 1.
  assert (rollback_step path watched skip err d s = (s, Ok tt)) as ->.
  { unfold rollback_step. destruct (interrupted _) eqn:Hi; simpl; [|done]. by rewrite (Hskip d (list_elem_of_here _ _) Hi). }
  apply IH. intros d' Hd'. apply Hskip. by right.
Qed.
End guarded.

(** C19: The mixed update, whatever its hooks do and whatever fails.  Without a
    readable journal it calls nothing.  With the journal [j0] it executes the
    journaled update, which applies, verifies, recovers and records nothing
    before a preflight of this very run succeeded, and recovers a step only with
    the unfinished state that [j0] has for it.  When that fails, it takes back,
    after that preflight, steps that the journal on disk now has as unfinished,
    with the state it has for them, and never one that was unfinished in [j0];
    it records nothing but their recovery, after it succeeded. *)
Theorem guarded_update_cautious `{OS} `{Dirs} `{TempNames} `{JournalJSON} {W} (hooks : Hooks W) ctx plan path w dk :
  let update := guarded_update (watch_call CallCtx ctx) plan path (watch_hooks hooks) ((w, []), dk) in
  let evs := snd (fst (fst update)) in
  match LoadJournal (dk_Files dk) path (pl_Release plan) with
  | Err e => update = (((w, []), dk), Err e)
  | Ok j0 =>
      let '(((_, evs1), dk1), executed) := ExecuteJournaled (watch_call CallCtx ctx) plan path (watch_hooks hooks) ((w, []), dk) in
      obeys (cautious_call j0) evs1 /\ is_ok (snd update) = is_ok executed /\
      exists evs2, evs = evs1 ++ evs2 /\
        (evs2 = [] \/
         is_ok executed = false /\ preflighted evs1 /\
         exists j1, LoadJournal (dk_Files dk1) path (pl_Release plan) = Ok j1 /\ obeys (takes_back j0 j1) evs2)
  end.
Proof.
  cbv zeta. unfold guarded_update. simpl. destruct (LoadJournal (dk_Files dk) path (pl_Release plan)) as [j0|e] eqn:Hl; [|done].
  unfold update_with_rollback, ExecuteJournaled. rewrite Hl.
  assert (pending j0 dk ((w, [] : list event), (dk, j0))) as Hstart by (split; [apply obeys_nil|by right]).
  pose proof (run_execute_journaled hooks ctx plan path j0 _ dk Hstart) as Hrun. unfold run in Hrun.
  destruct (execute_journaled _ _ _ _ _ _) as [[[w1 t1] [dk1 j1]] [[]|err]].
  { split; [apply Hrun|]. split; [done|]. exists []. split; [by rewrite app_nil_r|by left]. }
  destruct Hrun as [Ht Hcase]. split; [exact Ht|]. simpl in Ht, Hcase.
  destruct (LoadJournal (dk_Files dk1) path (pl_Release plan)) as [j|e] eqn:Hl1;
    [|split; [done|]; exists []; split; [by rewrite app_nil_r|by left]].
  assert (taken j0 j t1 ((w1, t1), (dk1, j))) as Htaken by (exists []; split_and!; [by rewrite app_nil_r|apply obeys_nil|done]).
  pose proof (keeps_rollback hooks plan path j0 j t1 err _ Htaken) as Hk.
  pose proof (rollback_failed hooks plan path (fun d => interrupted (step_state j0 d)) err ((w1, t1), (dk1, j))) as Hf. unfold run in Hk.
  destruct Hcase as [Hp| ->].
  - destruct (rollback _ _ _ _ _ _) as [[[w2 t2] [dk2 j2]] [[]|e]]; [done|]. split; [done|].
    destruct Hk as (evs2 & Hevs & Ho & _). exists evs2. split; [exact Hevs|]. right. split; [done|]. split; [exact Hp|]. by exists j.
  - rewrite Hl in Hl1. injection Hl1 as <-. rewrite rollback_nothing by done. split; [done|].
    exists []. split; [by rewrite app_nil_r|by left].
Qed.

(** ** Two runs from an interrupted step

    The journal has the first step of the sample plan as being applied. *)
Module Example_updates.
Definition hooks (preflight apply : bool) : Hooks unit :=
  let answer (b : bool) : M unit unit := if b then mret tt else fail "failed" in
  mkHooks (Some (fun _ => answer preflight)) (Some (fun _ => mret tt)) (Some (fun _ _ => mret tt))
    (Some (fun _ => answer apply)) (Some (fun _ => mret tt)) (Some (fun _ _ => mret tt)).

Definition calls (s : unit * list event * disk * result error unit) : list call := map fst (snd (fst (fst s))).

(** The update of [RunNativeProviderUpdates] and that of
    [RunMixedProviderUpdates]. *)
Definition native (h : Hooks unit) :=
  update_with_rollback (os := sample_journal_os) (dirs := sample_dirs) (names := sample_names) (json := sample_journal_json)
    (watch_call CallCtx sample_ctx) sample_plan sample_journal_path (watch_hooks h) (fun _ => false) ((tt, []), fst sample_record).

Definition mixed (h : Hooks unit) :=
  guarded_update (os := sample_journal_os) (dirs := sample_dirs) (names := sample_names) (json := sample_journal_json)
    (watch_call CallCtx sample_ctx) sample_plan sample_journal_path (watch_hooks h) ((tt, []), fst sample_record).
End Example_updates.

(** A failed preflight: the native update recovers the interrupted step all the
    same, the mixed one does not. *)
Lemma preflight_failure_recovered :
  CallRecover sample_sql "applying" ∈ Example_updates.calls (Example_updates.native (Example_updates.hooks false true)) /\
  CallRecover sample_sql "applying" ∉ Example_updates.calls (Example_updates.mixed (Example_updates.hooks false true)).
Proof. split; apply (bool_decide_unpack _); vm_compute; exact I. Qed.

(** A step that is recovered, applied again and fails in the same run: the
    mixed update does not take it back, for it was interrupted before. *)
Lemma reapplied_not_taken_back :
  let calls := Example_updates.calls (Example_updates.mixed (Example_updates.hooks true false)) in
  CallApply sample_sql ∈ calls /\ CallRecord sample_sql "apply_failed" ∈ calls /\
  CallRecover sample_sql "apply_failed" ∉ calls.
Proof. split_and!; apply (bool_decide_unpack _); vm_compute; exact I. Qed.
