(* ===== verification/OrgConfig.v ===== *)
(** * Organisation configuration (internal/orgconfig: model.go, scope.go,
    effective.go)

    The configuration of an organisation, and how its defaults, those of the
    environment and the team, and the preferences of a request are layered into
    the effective selection that the constraints of the organisation and the
    team are checked on.  A nil slice of policies is [None]; the order in which
    Go visits a map is that of [map_to_list]. *)

From S2P Require Import Prelude GoStrings StableId Sha256 UpdatePlan.

(** ** Interfaces *)

(** What the code reads of a URL: the scheme, whether there is user
    information, and the keys of the query. *)
Record parsed_url := mkParsedURL {
  pu_Scheme : string;
  pu_HasUser : bool;
  pu_QueryKeys : list string }.

Class QueryURL := query_Parse : string -> result error parsed_url.

(** ** Data *)

Definition ContractVersion : string := "baseharbor.organization/v1".
Definition ErrUnsupportedSource : error := errorsNew "organization source kind is unsupported".

Definition SourceOCI : string := "oci".
Definition SourceGit : string := "git".
Definition SourceLocal : string := "local".
Definition SourceSystem : string := "system".

Record Source := mkSource {
  so_Kind : string;
  so_Location : string;
  so_Requested : string }.

Record Resolution := mkResolution {
  rs_Source : Source;
  rs_ResolvedVersion : string;
  rs_ResolvedDigest : string;
  rs_ResolvedRevision : string;
  rs_Provenance : string;
  rs_CachePath : string }.

(** [Reference] has one field, the reference. *)
Record Reference := mkReference { rf_Reference : string }.

Record ProviderDefault := mkProviderDefault {
  pf_Provider : string;
  pf_Scope : string }.

Record PolicyDefault := mkPolicyDefault {
  po_Policy : string;
  po_Mandatory : bool }.

Record EnvironmentDefaults := mkDefaults {
  ed_Target : string;
  ed_Stack : string;
  ed_Providers : gmap string ProviderDefault;
  ed_Trust : gmap string Reference;
  ed_Policies : option (list PolicyDefault) }.

Record Constraint := mkConstraint {
  ct_Field : string;
  ct_Allowed : list string }.

Record TeamConfiguration := mkTeam {
  tc_Name : string;
  tc_Defaults : EnvironmentDefaults;
  tc_Constraints : list Constraint }.

Record Config := mkConfig {
  cf_APIVersion : string;
  cf_Organization : string;
  cf_Defaults : EnvironmentDefaults;
  cf_Environments : gmap string EnvironmentDefaults;
  cf_Providers : gmap string Reference;
  cf_Targets : gmap string Reference;
  cf_Stacks : gmap string Reference;
  cf_Trust : gmap string Reference;
  cf_Policies : gmap string Reference;
  cf_Constraints : list Constraint;
  cf_Team : option TeamConfiguration }.

(** [store.go] *)
Record ActiveState := mkActive {
  as_Resolution : Resolution;
  as_Config : Config }.

(** The canonical JSON of defaults. *)
Class DefaultsJSON := encode_defaults : EnvironmentDefaults -> string.

(** ** Patterns *)

Definition is_alnum (c : ascii) : bool :=
  let n := nat_of_ascii c in
  ((48 <=? n)%nat && (n <=? 57)%nat) || ((65 <=? n)%nat && (n <=? 90)%nat) || ((97 <=? n)%nat && (n <=? 122)%nat).

Definition is_name_byte (c : ascii) : bool := is_alnum c || bool_decide (c ∈ ["."; "_"; "-"]%char).

(** [^[A-Za-z0-9][A-Za-z0-9._-]*$] *)
Definition namePattern (s : string) : bool :=
  match s with
  | EmptyString => false
  | String c rest => is_alnum c && all_bytes is_name_byte rest
  end.

(** [^sha256:[a-f0-9]{64}$] *)
Definition digestPattern (s : string) : bool :=
  match strip_prefix "sha256:" s with
  | None => false
  | Some hex => (strlen hex =? 64)%nat && all_bytes is_lower_hex hex
  end.

(** ** Validation (model.go) *)

Section validation.
Context {net : QueryURL}.

Definition secret_key (key : string) : bool :=
  let key := ToLower key in
  existsb (Contains key) ["token"; "secret"; "password"; "credential"].

Definition containsSecretMaterial (value : string) : bool :=
  let lower := ToLower (TrimSpace value) in
  Contains lower "-----begin" ||
  match query_Parse value with
  | Err _ => false
  | Ok parsed => (pu_Scheme parsed != "") && (pu_HasUser parsed || existsb secret_key (pu_QueryKeys parsed))
  end ||
  existsb (Contains lower) ["password="; "token="; "secret="; "private_key="; "private-key="].

Definition Source_Validate (s : Source) : result error unit :=
  reject (bool_decide (so_Kind s ∉ [SourceOCI; SourceGit; SourceLocal; SourceSystem]))
    (Errorf "%w: %q" [ATxt ErrUnsupportedSource; AStr (so_Kind s)]) ;;
  reject (TrimSpace (so_Location s) == "") (errorsNew "organization source location is required") ;;
  reject (containsSecretMaterial (so_Location s) || containsSecretMaterial (so_Requested s))
    (errorsNew "organization sources must use protected credentials, not inline secret material") ;;
  let broken := ContainsAny (so_Location s) [byte_of 13; byte_of 10] in
  reject ((so_Kind s == SourceOCI) && broken) (errorsNew "organization OCI source location is invalid") ;;
  reject ((so_Kind s == SourceGit) && broken) (errorsNew "organization Git source location is invalid").

Definition Resolution_Validate (r : Resolution) : result error unit :=
  Source_Validate (rs_Source r) ;;
  reject (containsSecretMaterial (rs_Provenance r) || containsSecretMaterial (rs_CachePath r))
    (errorsNew "organization resolution must not contain inline secret material") ;;
  let d := TrimSpace (rs_ResolvedDigest r) in
  reject ((d != "") && negb (digestPattern d)) (Errorf "resolved digest %q must be an immutable sha256 digest" [AStr d]) ;;
  reject ((so_Kind (rs_Source r) == SourceOCI) && (TrimSpace (rs_ResolvedDigest r) == ""))
    (errorsNew "resolved OCI organization configuration requires immutable digest") ;;
  reject ((so_Kind (rs_Source r) == SourceGit) && (TrimSpace (rs_ResolvedRevision r) == ""))
    (errorsNew "resolved Git organization configuration requires immutable revision").

Definition validateReference (ref : Reference) : result error unit :=
  let value := TrimSpace (rf_Reference ref) in
  reject (value == "") (errorsNew "reference is required") ;;
  reject (containsSecretMaterial value)
    (errorsNew "reference contains secret-like material; organization configuration stores references only").

Definition validate_provider (scope : string) (entry : string * ProviderDefault) : result error unit :=
  let '(capability, provider) := entry in
  reject ((TrimSpace capability == "") || (TrimSpace (pf_Provider provider) == ""))
    (Errorf "%s provider defaults require capability and provider reference" [AStr scope]) ;;
  reject (bool_decide (TrimSpace (pf_Scope provider) ∉ [""; "application"; "shared"; "external"]))
    (Errorf "%s provider %q has unsupported scope %q" [AStr scope; AStr capability; AStr (pf_Scope provider)]) ;;
  reject (containsSecretMaterial (pf_Provider provider))
    (Errorf "%s provider %q contains secret-like material; use a reference" [AStr scope; AStr capability]).

Definition validate_trust_entry (scope : string) (entry : string * Reference) : result error unit :=
  let '(name, ref) := entry in
  reject (TrimSpace name == "") (Errorf "%s trust name is required" [AStr scope]) ;;
  wrap_err (fun err => Errorf "%s trust %q: %w" [AStr scope; AStr name; ATxt err]) (validateReference ref).

Definition validate_policy (scope : string) (i : Z) (policy : PolicyDefault) : result error Z :=
  reject (negb (namePattern (TrimSpace (po_Policy policy))))
    (Errorf "%s policy %d has invalid policy reference %q" [AStr scope; AInt i; AStr (po_Policy policy)]) ;;
  Ok (i + 1)%Z.

Definition validateDefaults (scope : string) (d : EnvironmentDefaults) : result error unit :=
  reject ((TrimSpace (ed_Target d) != "") && negb (namePattern (TrimSpace (ed_Target d))))
    (Errorf "%s target %q is invalid" [AStr scope; AStr (ed_Target d)]) ;;
  reject ((TrimSpace (ed_Stack d) != "") && negb (namePattern (TrimSpace (ed_Stack d))))
    (Errorf "%s stack %q is invalid" [AStr scope; AStr (ed_Stack d)]) ;;
  forE (fun _ => validate_provider scope) tt (map_to_list (ed_Providers d)) ;;
  forE (fun _ => validate_trust_entry scope) tt (map_to_list (ed_Trust d)) ;;
  forE (validate_policy scope) 0%Z (default [] (ed_Policies d)) ;;
  Ok tt.

Definition validate_reference_entry (label : string) (refs : gmap string Reference) (name : string) : result error unit :=
  reject (negb (namePattern (TrimSpace name))) (Errorf "%s name %q is invalid" [AStr label; AStr name]) ;;
  wrap_err (fun err => Errorf "%s %q: %w" [AStr label; AStr name; ATxt err]) (validateReference (default (mkReference "") (refs !! name))).

Definition validateReferenceMap (label : string) (refs : gmap string Reference) : result error unit :=
  forE (fun _ => validate_reference_entry label refs) tt (sort_strings (map fst (map_to_list refs))).

(** [target], [stack], [provider.] and [trust.] with a name. *)
Definition selectionField (field : string) : bool :=
  (field == "target") || (field == "stack") ||
  existsb (fun prefix => HasPrefix field prefix && (TrimSpace (TrimPrefix field prefix) != "")) ["provider."; "trust."].

Definition check_allowed (values : gset string) (value : string) : result error (gset string) :=
  reject ((TrimSpace value == "") || (value != TrimSpace value) || containsSecretMaterial value || bool_decide (value ∈ values))
    (errorsNew "configuration constraint contains an invalid or duplicate allowed reference") ;;
  Ok ({[value]} ∪ values).

Definition check_constraint (seen : gset string) (c : Constraint) : result error (gset string) :=
  reject (negb (selectionField (ct_Field c)) || bool_decide (ct_Field c ∈ seen) || bool_decide (ct_Allowed c = []))
    (errorsNew "configuration constraint requires a unique supported field and nonempty allowed set") ;;
  forE check_allowed ∅ (ct_Allowed c) ;;
  Ok ({[ct_Field c]} ∪ seen).

Definition validateConstraints (constraints : list Constraint) : result error unit :=
  forE check_constraint ∅ constraints ;;
  Ok tt.

Definition validate_environment (entry : string * EnvironmentDefaults) : result error unit :=
  let '(name, env) := entry in
  reject (negb (namePattern (TrimSpace name))) (Errorf "environment name %q is invalid" [AStr name]) ;;
  validateDefaults ("environment " +:+ name) env.

Definition validate_team (team : TeamConfiguration) : result error unit :=
  reject (negb (namePattern (tc_Name team))) (errorsNew "team name is invalid") ;;
  validateDefaults "team" (tc_Defaults team) ;;
  validateConstraints (tc_Constraints team).

Definition Config_Validate (c : Config) : result error unit :=
  reject (cf_APIVersion c != ContractVersion)
    (Errorf "organization apiVersion %q is unsupported; expected %q" [AStr (cf_APIVersion c); AStr ContractVersion]) ;;
  reject (negb (namePattern (TrimSpace (cf_Organization c)))) (Errorf "organization name %q is invalid" [AStr (cf_Organization c)]) ;;
  validateDefaults "defaults" (cf_Defaults c) ;;
  forE (fun _ => validate_environment) tt (map_to_list (cf_Environments c)) ;;
  forE (fun _ '(label, refs) => validateReferenceMap label refs) tt
    [("providers", cf_Providers c); ("targets", cf_Targets c); ("stacks", cf_Stacks c); ("trust", cf_Trust c); ("policies", cf_Policies c)] ;;
  validateConstraints (cf_Constraints c) ;;
  match cf_Team c with None => Ok tt | Some team => validate_team team end.
End validation.

(** ** Scopes (scope.go) *)

Definition ScopeBuiltin : string := "builtin".
Definition ScopeOrganization : string := "organization".
Definition ScopeTeam : string := "team".
Definition ScopeUser : string := "user".
Definition ScopeRepository : string := "repository".
Definition ScopeInvocation : string := "invocation".

(** A scope that is not in the map has order 0. *)
Definition scopeOrder (scope : string) : Z :=
  if scope == ScopeOrganization then 1 else if scope == ScopeTeam then 2 else if scope == ScopeUser then 3
  else if scope == ScopeRepository then 4 else if scope == ScopeInvocation then 5 else 0.

Record PreferenceLayer := mkPreference {
  pr_Scope : string;
  pr_Identity : string;
  pr_Digest : string;
  pr_Defaults : EnvironmentDefaults }.

Record ValueCandidate := mkCandidate {
  vc_Scope : string;
  vc_Identity : string;
  vc_Digest : string;
  vc_Source : string;
  vc_Value : string }.

Record ValueProvenance := mkProvenance {
  vp_Kind : string;
  vp_Winner : ValueCandidate;
  vp_Overridden : list ValueCandidate }.

Record ConstraintDecision := mkDecision {
  cn_Field : string;
  cn_Scope : string;
  cn_Identity : string;
  cn_Allowed : bool }.

(** [machine.Error]: its code, the code of the cause, the message, the resource
    and the next action. *)
Definition machine_error (code cause message resource next : string) : error :=
  Sprintf "machine.Error" [AStr code; AStr cause; AStr message; AStr resource; AStr next].

Definition ErrorPolicyDenied : string := "policy_denied".

(** [machine.NewError], which no caller here gives an empty message. *)
Definition NewError (code message next : string) : error := machine_error code "" message "" next.

Section scopes.
Context {net : QueryURL} {json : DefaultsJSON}.

Definition PreferenceDigest (d : EnvironmentDefaults) : string := "sha256:" +:+ digest_text (encode_defaults d).

Definition policy_count (d : EnvironmentDefaults) : nat := length (default [] (ed_Policies d)).

Definition check_preference (acc : gset string * list PreferenceLayer) (layer : PreferenceLayer)
    : result error (gset string * list PreferenceLayer) :=
  let '(seen, ordered) := acc in
  let scope := pr_Scope layer in
  reject (bool_decide (scope ∉ [ScopeUser; ScopeRepository; ScopeInvocation]))
    (NewError ErrorPolicyDenied "Request preferences cannot supply managed scopes."
       "Configure organization/team constraints through the authorized managed configuration source.") ;;
  reject (bool_decide (scope ∈ seen) || (TrimSpace (pr_Identity layer) == "") || containsSecretMaterial (pr_Identity layer))
    (errorsNew "preference scope requires one non-secret source identity") ;;
  let actualDigest := PreferenceDigest (pr_Defaults layer) in
  let digest := if (scope == ScopeInvocation) && (pr_Digest layer == "") then actualDigest else pr_Digest layer in
  reject (negb (digestPattern digest) || (digest != actualDigest))
    (errorsNew "preferences require a matching immutable canonical-input digest") ;;
  reject (policy_count (pr_Defaults layer) != 0%nat)
    (NewError ErrorPolicyDenied "Request preferences cannot replace policy references."
       "Keep policy in the managed organization/team source.") ;;
  validateDefaults scope (pr_Defaults layer) ;;
  Ok ({[scope]} ∪ seen, ordered ++ [mkPreference scope (pr_Identity layer) digest (pr_Defaults layer)]).

Definition scope_before (a b : PreferenceLayer) : bool := (scopeOrder (pr_Scope a) <? scopeOrder (pr_Scope b))%Z.

Definition orderedPreferences (layers : list PreferenceLayer) : result error (list PreferenceLayer) :=
  '(_, ordered) ← forE check_preference (∅, []) layers;
  Ok (sort_slice scope_before ordered).
End scopes.

(** ** The effective configuration (effective.go) *)

Record EffectiveValue := mkValue {
  ev_Name : string;
  ev_Value : string;
  ev_Source : string }.

Record EffectiveProvider := mkEffectiveProvider {
  ep_Provider : string;
  ep_Reference : string;
  ep_Scope : string;
  ep_Source : string }.

Record EffectivePolicy := mkEffectivePolicy {
  el_Policy : string;
  el_Reference : string;
  el_Mandatory : bool;
  el_Source : string }.

(** [Target] and [Stack] are pointers. *)
Record Effective := mkEffective {
  ef_ContractVersion : string;
  ef_Organization : string;
  ef_Environment : string;
  ef_Target : option EffectiveValue;
  ef_Stack : option EffectiveValue;
  ef_Providers : gmap string EffectiveProvider;
  ef_Trust : gmap string EffectiveValue;
  ef_Policies : list EffectivePolicy;
  ef_Resolution : Resolution;
  ef_Provenance : gmap string ValueProvenance;
  ef_PolicyDecisions : list ConstraintDecision }.

(** The fields a layer selects, by name. *)
Definition candidate_values (d : EnvironmentDefaults) : gmap string string :=
  (if ed_Target d != "" then {["target" := TrimSpace (ed_Target d)]} else ∅) ∪
  (if ed_Stack d != "" then {["stack" := TrimSpace (ed_Stack d)]} else ∅) ∪
  (kmap (fun name => "provider." +:+ name) (pf_Provider <$> ed_Providers d) ∪
   kmap (fun name => "trust." +:+ name) (rf_Reference <$> ed_Trust d)).

(** Each field is recorded once, so the order of the loop does not matter. *)
Definition record_candidate (candidate : ValueCandidate) (prior : option ValueProvenance) (value : option string)
    : option ValueProvenance :=
  match value with
  | None => prior
  | Some value =>
      let winner := mkCandidate (vc_Scope candidate) (vc_Identity candidate) (vc_Digest candidate) (vc_Source candidate) value in
      Some (mkProvenance "preference" winner
        match prior with
        | Some p => if vp_Kind p != "" then vp_Overridden p ++ [vp_Winner p] else vp_Overridden p
        | None => []
        end)
  end.

Definition recordCandidates (provenance : gmap string ValueProvenance) (d : EnvironmentDefaults) (candidate : ValueCandidate)
    : gmap string ValueProvenance :=
  merge (record_candidate candidate) provenance (candidate_values d).

Definition overlay (source value : string) (prior : option EffectiveValue) : option EffectiveValue :=
  if TrimSpace value != "" then Some (mkValue "" (TrimSpace value) source) else prior.

Definition add_policy (source : string) (policies : list EffectivePolicy) (policy : PolicyDefault) : list EffectivePolicy :=
  if existsb (fun retained => el_Policy retained == TrimSpace (po_Policy policy)) policies then policies
  else policies ++ [mkEffectivePolicy (TrimSpace (po_Policy policy)) "" (po_Mandatory policy) source].

Definition apply_policies (source : string) (policies : list EffectivePolicy) (layer : option (list PolicyDefault))
    : list EffectivePolicy :=
  match layer with
  | None => policies
  | Some layer => foldl (add_policy source) (List.filter el_Mandatory policies) layer
  end.

Definition effective_provider (source : string) (p : ProviderDefault) : EffectiveProvider :=
  mkEffectiveProvider (TrimSpace (pf_Provider p)) "" (TrimSpace (pf_Scope p)) source.

(** The loops over the sorted names write each name once. *)
Definition applyDefaults (r : Effective) (d : EnvironmentDefaults) (source : string) : Effective :=
  mkEffective (ef_ContractVersion r) (ef_Organization r) (ef_Environment r)
    (overlay source (ed_Target d) (ef_Target r)) (overlay source (ed_Stack d) (ef_Stack r))
    ((effective_provider source <$> ed_Providers d) ∪ ef_Providers r)
    (((fun ref => mkValue "" (rf_Reference ref) source) <$> ed_Trust d) ∪ ef_Trust r)
    (apply_policies source (ef_Policies r) (ed_Policies d))
    (ef_Resolution r) (ef_Provenance r) (ef_PolicyDecisions r).

(** A layer: its defaults, and the candidate that records them, whose source is
    also that of the values. *)
Abbreviation layer := (EnvironmentDefaults * ValueCandidate)%type.

Definition with_provenance (r : Effective) (provenance : gmap string ValueProvenance) : Effective :=
  mkEffective (ef_ContractVersion r) (ef_Organization r) (ef_Environment r) (ef_Target r) (ef_Stack r) (ef_Providers r)
    (ef_Trust r) (ef_Policies r) (ef_Resolution r) provenance (ef_PolicyDecisions r).

Definition apply_layer (r : Effective) (l : layer) : Effective :=
  let '(d, candidate) := l in
  applyDefaults (with_provenance r (recordCandidates (ef_Provenance r) d candidate)) d (vc_Source candidate).

(** The reference a selected name stands for, or the name. *)
Definition references_of (c : Config) (field : string) : gmap string Reference :=
  if field == "target" then cf_Targets c
  else if field == "stack" then cf_Stacks c
  else if HasPrefix field "provider." then cf_Providers c
  else ∅.

Definition canonicalSelection (c : Config) (field value : string) : string :=
  match references_of c field !! value with
  | Some reference => TrimSpace (rf_Reference reference)
  | None => TrimSpace value
  end.

Definition add_decision (r : Effective) (d : ConstraintDecision) : Effective :=
  mkEffective (ef_ContractVersion r) (ef_Organization r) (ef_Environment r) (ef_Target r) (ef_Stack r) (ef_Providers r)
    (ef_Trust r) (ef_Policies r) (ef_Resolution r) (ef_Provenance r) (ef_PolicyDecisions r ++ [d]).

Definition constraint_allowed (r : Effective) (c : Config) (constraint : Constraint) : bool :=
  match ef_Provenance r !! ct_Field constraint with
  | None => false
  | Some provenance =>
      existsb (fun value => canonicalSelection c (ct_Field constraint) (vc_Value (vp_Winner provenance)) ==
                            canonicalSelection c (ct_Field constraint) value) (ct_Allowed constraint)
  end.

(** The result is returned with the error too. *)
Fixpoint evaluateConstraints (r : Effective) (c : Config) (constraints : list Constraint) (scope identity : string)
    : Effective * result error unit :=
  match constraints with
  | [] => (r, Ok tt)
  | constraint :: rest =>
      let allowed := constraint_allowed r c constraint in
      let r := add_decision r (mkDecision (ct_Field constraint) scope identity allowed) in
      if negb allowed then
        (r, Err (machine_error ErrorPolicyDenied "configuration_constraint_denied"
                   "The selected realization violates a mandatory configuration constraint." (ct_Field constraint)
                   "Select an allowed reference or ask the organization/team operator to change its managed constraint."))
      else evaluateConstraints r c rest scope identity
  end.

Definition resolve_target (c : Config) (r : Effective) : result error (option EffectiveValue) :=
  match ef_Target r with
  | None => Ok None
  | Some target =>
      let name := ev_Value target in
      match cf_Targets c !! name with
      | Some ref => Ok (Some (mkValue name (TrimSpace (rf_Reference ref)) (ev_Source target)))
      | None =>
          let winner := from_option (fun p => vc_Scope (vp_Winner p)) "" (ef_Provenance r !! "target") in
          reject ((winner != ScopeBuiltin) && (scopeOrder winner <? scopeOrder ScopeUser)%Z)
            (Errorf "effective target %q is not declared by organization configuration" [AStr name]) ;;
          Ok (Some (mkValue name (TrimSpace name) (ev_Source target)))
      end
  end.

Definition resolve_stack (c : Config) (r : Effective) : result error (option EffectiveValue) :=
  match ef_Stack r with
  | None => Ok None
  | Some stack =>
      let name := ev_Value stack in
      match cf_Stacks c !! name with
      | Some ref => Ok (Some (mkValue name (TrimSpace (rf_Reference ref)) (ev_Source stack)))
      | None => Err (Errorf "effective stack %q is not declared by organization configuration" [AStr name])
      end
  end.

Definition resolve_provider (c : Config) (providers : gmap string EffectiveProvider) (entry : string * EffectiveProvider)
    : result error (gmap string EffectiveProvider) :=
  let '(capability, p) := entry in
  match cf_Providers c !! ep_Provider p with
  | None =>
      Err (Errorf "effective provider %q for capability %q is not declared by organization configuration"
             [AStr (ep_Provider p); AStr capability])
  | Some ref =>
      Ok (<[capability := mkEffectiveProvider (ep_Provider p) (TrimSpace (rf_Reference ref)) (ep_Scope p) (ep_Source p)]> providers)
  end.

Definition resolve_policy (c : Config) (policies : list EffectivePolicy) (p : EffectivePolicy) : result error (list EffectivePolicy) :=
  match cf_Policies c !! el_Policy p with
  | None => Err (Errorf "effective policy %q is not declared by organization configuration" [AStr (el_Policy p)])
  | Some ref => Ok (policies ++ [mkEffectivePolicy (el_Policy p) (TrimSpace (rf_Reference ref)) (el_Mandatory p) (el_Source p)])
  end.

(** The names of a layered selection become references. *)
Definition resolve_references (c : Config) (r : Effective) : result error Effective :=
  target ← resolve_target c r;
  stack ← resolve_stack c r;
  providers ← forE (resolve_provider c) (ef_Providers r) (map_to_list (ef_Providers r));
  policies ← forE (resolve_policy c) [] (ef_Policies r);
  Ok (mkEffective (ef_ContractVersion r) (ef_Organization r) (ef_Environment r) target stack providers (ef_Trust r) policies
        (ef_Resolution r) (ef_Provenance r) (ef_PolicyDecisions r)).

Definition check_constraints (c : Config) (r : Effective) : Effective * result error unit :=
  match evaluateConstraints r c (cf_Constraints c) ScopeOrganization (cf_Organization c) with
  | (r, Err err) => (r, Err err)
  | (r, Ok _) =>
      match cf_Team c with
      | None => (r, Ok tt)
      | Some team => evaluateConstraints r c (tc_Constraints team) ScopeTeam (tc_Name team)
      end
  end.

Definition zero_Resolution : Resolution := mkResolution (mkSource "" "" "") "" "" "" "" "".
Definition zero_Effective : Effective := mkEffective "" "" "" None None ∅ ∅ [] zero_Resolution ∅ [].

Section resolve.
Context {net : QueryURL} {json : DefaultsJSON}.

Definition builtin : EnvironmentDefaults := mkDefaults "local" "" ∅ ∅ None.

(** The layers, the one of least precedence first. *)
Definition managed_layers (state : ActiveState) (environment : string) : list layer :=
  let c := as_Config state in
  let digest := rs_ResolvedDigest (as_Resolution state) in
  [(builtin, mkCandidate ScopeBuiltin "baseharbor" (PreferenceDigest builtin) "builtin.defaults" "");
   (cf_Defaults c, mkCandidate ScopeOrganization (cf_Organization c) digest "organization.defaults" "")] ++
  match cf_Environments c !! environment with
  | None => []
  | Some env => [(env, mkCandidate ScopeOrganization (cf_Organization c) digest ("organization.environment." +:+ environment) "")]
  end ++
  match cf_Team c with
  | None => []
  | Some team => [(tc_Defaults team, mkCandidate ScopeTeam (tc_Name team) digest ("team." +:+ tc_Name team) "")]
  end.

Definition preference_layer (p : PreferenceLayer) : layer :=
  (pr_Defaults p, mkCandidate (pr_Scope p) (pr_Identity p) (pr_Digest p) (pr_Scope p +:+ "." +:+ pr_Identity p) "").

Definition start_effective (state : ActiveState) (environment : string) : Effective :=
  mkEffective ContractVersion (cf_Organization (as_Config state)) environment None None ∅ ∅ [] (as_Resolution state) ∅ [].

Definition layered (state : ActiveState) (environment : string) (layers : list layer) : Effective :=
  foldl apply_layer (start_effective state environment) layers.

Definition environment_name (environment : string) : string :=
  if TrimSpace environment == "" then "dev" else TrimSpace environment.

Definition ResolveEffective (state : ActiveState) (environment : string) (preferences : list PreferenceLayer)
    : Effective * result error unit :=
  match Config_Validate (as_Config state) ;;
        Resolution_Validate (as_Resolution state) ;;
        layers ← orderedPreferences preferences;
        let environment := environment_name environment in
        resolve_references (as_Config state)
          (layered state environment (managed_layers state environment ++ map preference_layer layers)) with
  | Err err => (zero_Effective, Err err)
  | Ok r => check_constraints (as_Config state) r
  end.
End resolve.
