(* ===== verification/Evidence.v ===== *)
(** * Audit evidence (internal/evidence: model.go, store.go)

    Audit events with their identities, the sealed evidence bundle, and the
    bounded audit log of a target.  encoding/json enters as interfaces; a time
    is its nanoseconds since the zero time, without its location. *)

From S2P Require Import Prelude GoStrings Sha256 FileSystem.

(** ** Data (model.go) *)

Definition SchemaVersion : string := "v1".

Definition StateDesired : string := "desired".
Definition StateEnforced : string := "enforced".
Definition StateObserved : string := "observed".
Definition StateVerified : string := "verified".
Definition StateException : string := "exception".
Definition StateUnsupported : string := "unsupported".

Record Actor := mkActor {
  ac_Interface : string;
  ac_Identity : string;
  ac_Issuer : string;
  ac_Subject : string;
  ac_Assurance : string;
  ac_Methods : list string }.

Record EvidenceRecord := mkEvidence {
  er_Kind : string;
  er_ID : string;
  er_Status : string;
  er_Resource : string;
  er_Capability : string;
  er_Provider : string;
  er_Placement : string;
  er_Ownership : string;
  er_Detail : string }.

Record RecoveryContributor := mkContributor {
  rc_StateClass : string;
  rc_LogicalResource : string;
  rc_Ownership : string;
  rc_Support : string;
  rc_Selected : bool;
  rc_Durable : bool;
  rc_ExplicitlyExcluded : bool;
  rc_Verified : bool;
  rc_Reason : string }.

Record Recovery := mkRecovery {
  rv_LastBackup : option Z;
  rv_LastRestore : option Z;
  rv_Contributors : list RecoveryContributor }.

Record AuditEvent := mkEvent {
  ae_SchemaVersion : string;
  ae_ID : string;
  ae_Timestamp : Z;
  ae_Actor : Actor;
  ae_Target : string;
  ae_ApplicationID : string;
  ae_DeploymentID : string;
  ae_Application : string;
  ae_Environment : string;
  ae_Operation : string;
  ae_Capability : string;
  ae_Resource : string;
  ae_Provider : string;
  ae_Placement : string;
  ae_Ownership : string;
  ae_PolicyResult : string;
  ae_AuthorizationResult : string;
  ae_CorrelationID : string;
  ae_LifecycleResult : string;
  ae_VerificationResult : string;
  ae_Outcome : string;
  ae_Detail : string }.

Record Integrity := mkIntegrity {
  ig_Algorithm : string;
  ig_Digest : string }.

Record Bundle := mkBundle {
  bu_ContractVersion : string;
  bu_SchemaVersion : string;
  bu_Target : string;
  bu_ApplicationID : string;
  bu_DeploymentID : string;
  bu_Application : string;
  bu_Environment : string;
  bu_Desired : list EvidenceRecord;
  bu_Enforced : list EvidenceRecord;
  bu_Observed : list EvidenceRecord;
  bu_Verified : list EvidenceRecord;
  bu_Exceptions : list EvidenceRecord;
  bu_Unsupported : list EvidenceRecord;
  bu_Recovery : option Recovery;
  bu_Audit : list AuditEvent;
  bu_Integrity : Integrity }.

Class EvidenceJSON := mkEvidenceJSON {
  marshal_event : AuditEvent -> result error string;
  unmarshal_event : string -> result error AuditEvent;
  marshal_bundle : Bundle -> result error string }.

(** ** Events *)

(** The actor a context carries. *)
Definition WithActor (interfaceName identity : string) : Actor :=
  mkActor (TrimSpace interfaceName) (TrimSpace identity) "" "" "" [].

Definition ActorFromContext (ctx : option Actor) : Actor :=
  match ctx with
  | Some actor => if TrimSpace (ac_Interface actor) != "" then actor else mkActor "cli" "local-operator" "" "" "" []
  | None => mkActor "cli" "local-operator" "" "" "" []
  end.

Definition with_ids (e : AuditEvent) (id correlation : string) : AuditEvent :=
  mkEvent (ae_SchemaVersion e) id (ae_Timestamp e) (ae_Actor e) (ae_Target e) (ae_ApplicationID e) (ae_DeploymentID e)
    (ae_Application e) (ae_Environment e) (ae_Operation e) (ae_Capability e) (ae_Resource e) (ae_Provider e) (ae_Placement e)
    (ae_Ownership e) (ae_PolicyResult e) (ae_AuthorizationResult e) correlation (ae_LifecycleResult e)
    (ae_VerificationResult e) (ae_Outcome e) (ae_Detail e).

Definition AuditEvent_Validate (e : AuditEvent) : result error unit :=
  reject (ae_SchemaVersion e != SchemaVersion) (errorsNew "unsupported audit schema version") ;;
  reject
    ((ae_ID e == "") || (ae_Timestamp e =? 0)%Z || (ac_Interface (ae_Actor e) == "") || (ae_Target e == "") ||
     ((ae_Application e == "") && negb (HasPrefix (ae_Operation e) "runtime." && (ae_Resource e != ""))) ||
     (ae_Environment e == "") || (ae_Operation e == "") || (ae_Outcome e == ""))
    (errorsNew "audit event is incomplete").

Section evidence.
Context {json : EvidenceJSON}.

(** [data, _ := json.Marshal(e)] *)
Definition event_text (e : AuditEvent) : string := match marshal_event e with Ok data => data | Err _ => "" end.

Definition auditCorrelationID (e : AuditEvent) : string :=
  String.substring 0 24 (digest_text ("correlation:" +:+ event_text (with_ids e "" ""))).

Definition auditEventID (e : AuditEvent) : string :=
  String.substring 0 32 (digest_text (event_text (with_ids e "" (ae_CorrelationID e)))).

Definition NewAuditEvent (ctx : option Actor) (now : Z) (target application environment operation outcome : string) : AuditEvent :=
  let event := mkEvent SchemaVersion "" now (ActorFromContext ctx) (TrimSpace target) "" "" (TrimSpace application)
    (TrimSpace environment) (TrimSpace operation) "" "" "" "" "" "" "" "" "" "" (TrimSpace outcome) "" in
  let event := with_ids event "" (auditCorrelationID event) in
  with_ids event (auditEventID event) (ae_CorrelationID event).

(** ** The sealed bundle *)

Definition record_before (a b : EvidenceRecord) : bool :=
  if er_ID a == er_ID b then String.ltb (er_Resource a) (er_Resource b) else String.ltb (er_ID a) (er_ID b).

Definition sortRecords : list EvidenceRecord -> list EvidenceRecord := sort_slice record_before.

Definition event_before (a b : AuditEvent) : bool :=
  if (ae_Timestamp a =? ae_Timestamp b)%Z then String.ltb (ae_ID a) (ae_ID b) else (ae_Timestamp a <? ae_Timestamp b)%Z.

Definition ordered_bundle (b : Bundle) : Bundle :=
  mkBundle SchemaVersion SchemaVersion (bu_Target b) (bu_ApplicationID b) (bu_DeploymentID b) (bu_Application b)
    (bu_Environment b) (sortRecords (bu_Desired b)) (sortRecords (bu_Enforced b)) (sortRecords (bu_Observed b))
    (sortRecords (bu_Verified b)) (sortRecords (bu_Exceptions b)) (sortRecords (bu_Unsupported b)) (bu_Recovery b)
    (sort_slice event_before (bu_Audit b)) (mkIntegrity "" "").

Definition with_integrity (b : Bundle) (i : Integrity) : Bundle :=
  mkBundle (bu_ContractVersion b) (bu_SchemaVersion b) (bu_Target b) (bu_ApplicationID b) (bu_DeploymentID b)
    (bu_Application b) (bu_Environment b) (bu_Desired b) (bu_Enforced b) (bu_Observed b) (bu_Verified b) (bu_Exceptions b)
    (bu_Unsupported b) (bu_Recovery b) (bu_Audit b) i.

Definition Seal (b : Bundle) : result error Bundle :=
  let b := ordered_bundle b in
  data ← marshal_bundle b;
  Ok (with_integrity b (mkIntegrity "sha256" (digest_text data))).

(** ** The audit log (store.go) *)

Definition auditDirectory : string := "evidence".
Definition auditFile : string := "audit.jsonl".
Definition MaxAuditEvents : nat := 1000.
(** 8 MiB *)
Definition maxAuditBytes : Z := 2 ^ 23.
(** 1 MiB, the longest token of the scanner. *)
Definition maxLine : Z := 2 ^ 20.

Definition line_feed : ascii := byte_of 10.
Definition newline : string := String line_feed "".

(** A line with the line feed that ends it must fit into the buffer. *)
Definition scan_line (events : list AuditEvent) (line : string) : result error (list AuditEvent) :=
  reject (maxLine <=? len line)%Z (errorsNew "bufio.Scanner: token too long") ;;
  let line := TrimSuffix line (bytes [13]) in
  if TrimSpace line == "" then Ok events
  else
    event ← wrap_err (fun _ => errorsNew "audit evidence contains malformed JSON") (unmarshal_event line);
    AuditEvent_Validate event ;;
    let events := events ++ [event] in
    reject (MaxAuditEvents <? length events)%nat (errorsNew "audit evidence exceeds retention bound") ;;
    Ok events.

Definition scan_events (data : string) : result error (list AuditEvent) := forE scan_line [] (Split data line_feed).

Definition audit_path (root : string) : string := filepath_Join [Clean root; auditDirectory; auditFile].

Section store.
Context {os : OS}.

(** The log is a path of the program's own, with no links in it: [os.Stat] says
    what [os.Lstat] does. *)
Definition Evidence_Load (root : string) (fs : fsys) : result os_error (list AuditEvent) :=
  let path := audit_path root in
  let other (e : error) := mkOsError e false in
  info ← Lstat fs path;
  reject (negb (f_Regular info)) (other (errorsNew "audit evidence path is not a regular file")) ;;
  reject (negb (Z.land (f_Perm info) shared_bits =? 0)%Z)
    (other (errorsNew "audit evidence file is accessible by group or others")) ;;
  reject (maxAuditBytes <? len (f_Data info))%Z (other (errorsNew "audit evidence file exceeds size limit")) ;;
  wrap_err other (attempt (OpOpen path)) ;;
  data ← ReadFile fs path;
  wrap_err other (scan_events data).

(** A write that fails may leave anything in the file. *)
Definition append_file (fs : fsys) (path data : string) : fsys * result error unit :=
  match os_fault (OpWrite path) with
  | Some err => (partial_alter (fun _ => os_torn path (fs !! path)) path fs, Err err)
  | None => (alter (fun f => mkFile (f_Data f +:+ data) (f_Regular f) (f_Perm f)) path fs, Ok tt)
  end.

(** [encoder.Encode] writes the value and a line feed. *)
Fixpoint encode_events (path : string) (events : list AuditEvent) (d : disk) : disk * result error unit :=
  match events with
  | [] => (d, Ok tt)
  | item :: rest =>
      match marshal_event item with
      | Err err => (d, Err err)
      | Ok text =>
          let '(fs, written) := append_file (dk_Files d) path (text +:+ newline) in
          let d := visit d fs in
          match written with
          | Err err => (d, Err err)
          | Ok _ => encode_events path rest d
          end
      end
  end.

(** [os.OpenFile] with [O_CREATE|O_TRUNC]. *)
Definition open_truncated (fs : fsys) (path : string) : fsys :=
  <[path := mkFile "" true (match fs !! path with Some f => f_Perm f | None => owner_only end)]> fs.

Definition write_events (path : string) (events : list AuditEvent) (d : disk) : disk * result error unit :=
  let tmp := path +:+ ".tmp" in
  match attempt (OpOpen tmp) with
  | Err err => (d, Err (Errorf "create audit evidence file: %w" [ATxt err]))
  | Ok _ =>
      let d := visit d (open_truncated (dk_Files d) tmp) in
      let '(d, encoded) := encode_events tmp events d in
      match wrap_err (fun err => Errorf "encode audit evidence: %w" [ATxt err]) encoded ;;
            attempt (OpSync tmp) ;; attempt (OpClose tmp) with
      | Err err => (visit d (Remove (dk_Files d) tmp), Err err)
      | Ok _ =>
          let '(fs, secured) := Chmod (dk_Files d) tmp owner_only in
          let d := visit d fs in
          match secured with
          | Err err => (visit d (Remove (dk_Files d) tmp), Err err)
          | Ok _ =>
              let '(fs, renamed) := Rename (dk_Files d) tmp path in
              let d := visit d fs in
              match renamed with
              | Err err => (visit d (Remove (dk_Files d) tmp), Err (Errorf "commit audit evidence: %w" [ATxt err]))
              | Ok _ => (d, Ok tt)
              end
          end
      end
  end.

(** The last events, as many as are kept. *)
Definition retained (events : list AuditEvent) : list AuditEvent :=
  if (MaxAuditEvents <? length events)%nat then drop (length events - MaxAuditEvents) events else events.

(** What was logged, nothing when there is no log yet. *)
Definition logged (root : string) (fs : fsys) : result error (list AuditEvent) :=
  match Evidence_Load root fs with
  | Ok events => Ok events
  | Err err => if oe_NotExist err then Ok [] else Err (oe_text err)
  end.

Definition Append (root : string) (event : AuditEvent) (d : disk) : disk * result error unit :=
  let dir := filepath_Join [Clean root; auditDirectory] in
  let path := filepath_Join [dir; auditFile] in
  match AuditEvent_Validate event ;;
        wrap_err (fun err => Errorf "create audit evidence directory: %w" [ATxt err]) (attempt (OpMkdirAll dir)) ;;
        attempt (OpChmod dir) ;;
        logged root (dk_Files d) with
  | Err err => (d, Err err)
  | Ok events => write_events path (retained (events ++ [event])) d
  end.
End store.
End evidence.

Definition Filter (events : list AuditEvent) (target application environment : string) : list AuditEvent :=
  let target := TrimSpace target in
  let application := TrimSpace application in
  let environment := TrimSpace environment in
  List.filter (fun event => (ae_Target event == target) && (ae_Application event == application) && (ae_Environment event == environment)) events.
