(* ===== verification/EvidenceFacts.v ===== *)
(** * Properties of the audit evidence

    The log is replaced atomically and keeps the last events; what was logged
    is read back; a log that grew too large can no longer be appended to; and a
    sealed bundle does not depend on the order of its parts. *)

From S2P Require Import Prelude GoStrings Sha256 FileSystem Orders Paths Evidence Codec.

(** ** What is kept *)

Lemma retained_length events : (length (retained events) <= MaxAuditEvents)%nat.
Proof.
  unfold retained. destruct (Nat.ltb_spec MaxAuditEvents (length events)); [|done]. rewrite length_drop. lia.
Qed.

(** The last events in their order. *)
Lemma retained_suffix events : exists dropped, events = dropped ++ retained events.
Proof. unfold retained. destruct (_ <? _)%nat; [|by exists []]. eexists. symmetry. apply take_drop. Qed.

Lemma retained_snoc events event : exists kept, retained (events ++ [event]) = kept ++ [event].
Proof.
  unfold retained. destruct (Nat.ltb_spec MaxAuditEvents (length (events ++ [event]))); [|by exists events].
  rewrite length_app in *. simpl in *. rewrite drop_app_le by (unfold MaxAuditEvents in *; lia). by eexists.
Qed.

Section facts.
Context {json : EvidenceJSON}.

(** ** The text of the log *)

Fixpoint log_text (events : list AuditEvent) : result error string :=
  match events with
  | [] => Ok ""
  | event :: rest => text ← marshal_event event; data ← log_text rest; Ok (text +:+ newline +:+ data)
  end.

(** A line that is read back: on one line of a bounded length. *)
Definition readable (event : AuditEvent) : Prop :=
  exists text, marshal_event event = Ok text /\ unmarshal_event text = Ok event /\
    has_byte line_feed text = false /\ trimmed text /\ text <> "" /\ (len text < maxLine)%Z.

Lemma trimmed_suffix s p : trimmed s -> p ∈ space_runes -> TrimSuffix s p = s.
Proof.
  intros [_ Ht] Hp. unfold TrimSuffix, TrimPrefix. destruct (strip_prefix (String.rev p) (String.rev s)) as [r|] eqn:Hs.
  - apply strip_prefix_spec in Hs. rewrite strip_any_None in Ht. destruct (Ht (String.rev p) r); [|done].
    by apply list_elem_of_fmap_2.
  - apply rev_involutive.
Qed.

Lemma scan_readable events event text :
  marshal_event event = Ok text -> readable event -> AuditEvent_Validate event = Ok tt ->
  (length events < MaxAuditEvents)%nat -> scan_line events text = Ok (events ++ [event]).
Proof.
  intros Hm (t & Hm' & Hu & _ & Ht & Hne & Hl) Hv Hlen. rewrite Hm in Hm'. injection Hm' as <-.
  unfold scan_line. rewrite (proj2 (Z.leb_gt _ _) Hl). rewrite trimmed_suffix; [|done|apply (bool_decide_unpack _); vm_compute; exact I].
  rewrite (trimmed_TrimSpace _ Ht), bool_decide_eq_false_2 by done. rewrite Hu. simpl. rewrite Hv. simpl.
  rewrite length_app. simpl. by rewrite (proj2 (Nat.ltb_ge _ _)) by lia.
Qed.

Lemma scan_blank events : scan_line events "" = Ok events.
Proof. reflexivity. Qed.

Lemma scan_log events read data :
  log_text events = Ok data -> Forall readable events -> Forall (fun e => AuditEvent_Validate e = Ok tt) events ->
  (length read + length events <= MaxAuditEvents)%nat ->
  forE scan_line read (Split data line_feed) = Ok (read ++ events).
Proof.
  revert read data. induction events as [|event events IH]; intros read data Hd Hr Hv Hlen; simpl in Hd, Hlen.
  - injection Hd as <-. simpl. by rewrite app_nil_r.
  - apply bind_Ok in Hd as (text & Ht & Hd). apply bind_Ok in Hd as (rest & Hrest & [= <-]).
    inversion Hr as [|? ? Hre Hr']; subst. inversion Hv as [|? ? Hve Hv']; subst.
    destruct Hre as (t & Ht' & Hre). assert (t = text) as -> by congruence.
    change (text +:+ newline +:+ rest) with (text +:+ String line_feed rest).
    rewrite Split_app_sep, (Split_no_sep text) by apply Hre. simpl app. rewrite forE_cons.
    rewrite (scan_readable read event text Ht); [|by exists text|done|lia]. simpl.
    rewrite (IH (read ++ [event]) rest); [by rewrite <- app_assoc|done..|]. rewrite length_app. simpl. lia.
Qed.

(** What a log is read as: a bounded number of complete events. *)
Definition sound_log (events : list AuditEvent) : Prop :=
  (length events <= MaxAuditEvents)%nat /\ Forall (fun e => AuditEvent_Validate e = Ok tt) events.

Lemma scan_line_sound events line events' : scan_line events line = Ok events' -> sound_log events -> sound_log events'.
Proof.
  unfold scan_line. intros Hs Hl. apply reject_seq_Ok in Hs as [_ Hs]. revert Hs. simpl.
  case_bool_decide; [by intros [= <-]|]. intros Hs. apply bind_Ok in Hs as (event & _ & Hs). apply seq_Ok in Hs as [Hv Hs].
  apply reject_seq_Ok in Hs as [Hlen [= <-]]. apply unit_Ok in Hv. apply Nat.ltb_ge in Hlen. split; [done|].
  apply Forall_app. split; [apply Hl|by constructor].
Qed.

Lemma scan_events_sound data events : scan_events data = Ok events -> sound_log events.
Proof.
  unfold scan_events. assert (sound_log []) as H0 by (split; [unfold MaxAuditEvents; simpl; lia|constructor]). revert H0.
  generalize (@nil AuditEvent). induction (Split data line_feed) as [|line lines IH]; intros read Hr; simpl.
  - by intros [= <-].
  - destruct (scan_line read line) as [read'|] eqn:Hs; [|done]. apply IH. by eapply scan_line_sound.
Qed.
End facts.

Section store.
Context {json : EvidenceJSON} {os : OS}.

(** ** Writing the log *)

Section write.
Context (tmp : string).

Lemma only_tmp_append d fs data : only_tmp tmp d fs -> only_tmp tmp d (fst (append_file fs tmp data)).
Proof.
  intros H p Hp. unfold append_file. destruct (os_fault _); simpl.
  - rewrite lookup_partial_alter_ne by done. by apply H.
  - rewrite lookup_alter_ne by done. by apply H.
Qed.

Lemma encode_events_spec events d0 d d' res f :
  only_tmp tmp d0 (dk_Files d) -> dk_Files d !! tmp = Some f -> encode_events tmp events d = (d', res) ->
  exists visited, dk_History d' = visited ++ dk_History d /\ dk_Files d' ∈ dk_Files d :: visited /\
    Forall (only_tmp tmp d0) visited /\
    (res = Ok tt -> exists data, log_text events = Ok data /\
       dk_Files d' !! tmp = Some (mkFile (f_Data f +:+ data) (f_Regular f) (f_Perm f))).
Proof.
  revert d f. induction events as [|event events IH]; intros d f Hd Hf; simpl.
  - intros [= <- <-]. exists []. split_and!; [done|by left|constructor|]. intros _. exists "". split; [done|].
    rewrite string_app_nil_r. by destruct f.
  - destruct (marshal_event event) as [text|e]; simpl.
    2:{ intros [= <- <-]. exists []. by split_and!; [|left|constructor|]. }
    pose proof (only_tmp_append d0 _ (text +:+ newline) Hd) as H1.
    destruct (append_file (dk_Files d) tmp (text +:+ newline)) as [fs [[]|e]] eqn:Ha; simpl in H1.
    2:{ intros [= <- <-]. exists [fs]. by split_and!; [|right; left|constructor; [|constructor]|]. }
    assert (fs !! tmp = Some (mkFile (f_Data f +:+ text +:+ newline) (f_Regular f) (f_Perm f))) as Hfs.
    { revert Ha. unfold append_file. destruct (os_fault _); [done|]. intros [= <-]. by rewrite lookup_alter_eq, Hf. }
    intros Henc. destruct (IH (visit d fs) _ H1 Hfs Henc) as (v & Hv & Hin & Ho & Hok).
    exists (v ++ [fs]). split_and!; [rewrite Hv, <- app_assoc; done| |by apply Forall_app; split; [|constructor]|].
    + apply elem_of_cons in Hin as [->|Hin]; simpl; set_solver.
    + intros Hr. destruct (Hok Hr) as (data & -> & ->). eexists. split; [reflexivity|]. simpl. by rewrite !string_app_assoc.
Qed.
End write.

Definition audit_file (data : string) : file := mkFile data true owner_only.

(** The new log, when every event can be encoded. *)
Definition new_log (events : list AuditEvent) : option file :=
  match log_text events with Ok data => Some (audit_file data) | Err _ => None end.

(** The log is replaced at once: it holds what it held or the new one. *)
Lemma write_events_atomic path events d d' res :
  write_events path events d = (d', res) ->
  atomic path [path +:+ ".tmp"] (new_log events) d d' /\
  match res with
  | Ok _ => exists data, log_text events = Ok data /\ dk_Files d' !! path = Some (audit_file data)
  | Err _ => dk_Files d' !! path = dk_Files d !! path
  end.
Proof.
  set (tmp := path +:+ ".tmp"). pose proof (suffix_neq path ".tmp" ltac:(done)) as Hneq. fold tmp in Hneq.
  unfold write_events. fold tmp. destruct (attempt (OpOpen tmp)) as [[]|e].
  2:{ intros [= <- <-]. split; [apply atomic_refl|done]. }
  set (fs1 := open_truncated _ _). assert (only_tmp tmp d fs1) as H1 by apply only_tmp_insert.
  destruct (encode_events tmp events (visit d fs1)) as [d2 encoded] eqn:Henc.
  destruct (encode_events_spec tmp events d (visit d fs1) _ _ _ H1 (lookup_insert_eq _ _ _) Henc) as (v & Hv & Hin & Ho & Hok).
  assert (Hall : Forall (only_tmp tmp d) (v ++ [fs1])) by (apply Forall_app; split; [done|by constructor]).
  assert (H2 : only_tmp tmp d (dk_Files d2)) by (rewrite Forall_forall in Hall; apply Hall; set_solver).
  assert (Hh : dk_History d2 = (v ++ [fs1]) ++ dk_History d) by (rewrite Hv, <- app_assoc; done).
  destruct (wrap_err _ encoded ;; attempt (OpSync tmp) ;; attempt (OpClose tmp)) as [[]|e] eqn:Hready.
  2:{ intros [= <- <-]. unfold visit. rewrite Hh. apply (atomic_tmp path tmp Hneq _ d (_ :: v ++ [fs1])); [|right; left].
      constructor; [by apply only_tmp_remove|done]. }
  destruct encoded as [[]|e]; [|done]. destruct (Hok eq_refl) as (data & Hdata & Hfile). clear Hok Hready.
  pose proof (only_tmp_chmod tmp d (dk_Files d2) owner_only H2) as H3.
  destruct (Chmod (dk_Files d2) tmp owner_only) as [fs3 [[]|e]] eqn:Hc; simpl in H3 |- *.
  2:{ intros [= <- <-]. unfold visit. simpl. rewrite Hh.
      apply (atomic_tmp path tmp Hneq _ d (_ :: _ :: v ++ [fs1])); [|right; left].
      constructor; [by apply only_tmp_remove|by constructor]. }
  assert (Hf3 : fs3 !! tmp = Some (audit_file data)).
  { revert Hc. unfold Chmod. destruct (os_fault _); [done|]. intros [= <-]. by rewrite lookup_alter_eq, Hfile. }
  assert (Hall3 : Forall (only_tmp tmp d) (fs3 :: v ++ [fs1])) by by constructor.
  unfold new_log. rewrite Hdata. destruct (Rename fs3 tmp path) as [fs4 r] eqn:Hr. simpl. revert Hr. unfold Rename. rewrite Hf3.
  destruct (os_fault (OpRename tmp path)) as [e|]; intros [= <- <-]; intros [= <- <-]; unfold visit; simpl; rewrite Hh.
  - apply (atomic_tmp path tmp Hneq _ d (_ :: _ :: _ :: v ++ [fs1])); [|right; left].
    constructor; [by apply only_tmp_remove|by constructor].
  - destruct (atomic_rename path tmp Hneq d (fs3 :: v ++ [fs1]) fs3 _ Hall3 H3 Hf3) as [Ha Hp].
    split; [done|]. by exists data.
Qed.

(** ** Appending *)

Lemma append_path root : filepath_Join [filepath_Join [Clean root; auditDirectory]; auditFile] = audit_path root.
Proof. apply Join_twice; [apply Clean_spec|done..]. Qed.

Lemma logged_sound root fs events : logged root fs = Ok events -> sound_log events.
Proof.
  unfold logged. destruct (Evidence_Load root fs) as [events'|e] eqn:Hl.
  - intros [= ->]. unfold Evidence_Load in Hl. cbv zeta in Hl. inv_ok Hl. apply wrap_err_Ok in Hl. by eapply scan_events_sound.
  - destruct (oe_NotExist e); [|done]. intros [= <-]. split; [simpl; lia|constructor].
Qed.

Lemma logged_same root fs fs' : fs !! audit_path root = fs' !! audit_path root -> logged root fs = logged root fs'.
Proof. intros Hf. unfold logged, Evidence_Load, Lstat, ReadFile. cbv zeta. by rewrite Hf. Qed.

Lemma Append_cases root event d d' res :
  Append root event d = (d', res) ->
  (d' = d /\ is_ok res = false) \/
  (AuditEvent_Validate event = Ok tt /\ exists events, logged root (dk_Files d) = Ok events /\
     write_events (audit_path root) (retained (events ++ [event])) d = (d', res)).
Proof.
  unfold Append. rewrite append_path. destruct (_ ;; _) as [events|e] eqn:Hr; [|intros [= <- <-]; by left].
  apply seq_Ok in Hr as [Hv%unit_Ok Hr]. apply seq_Ok in Hr as [_ Hr]. apply seq_Ok in Hr as [_ Hr].
  intros Hw. right. split; [done|]. by exists events.
Qed.

Lemma retained_sound events event :
  sound_log events -> AuditEvent_Validate event = Ok tt -> sound_log (retained (events ++ [event])).
Proof.
  intros [_ Hall] Hv. split; [apply retained_length|]. destruct (retained_suffix (events ++ [event])) as [dropped Hd].
  assert (Forall (fun e => AuditEvent_Validate e = Ok tt) (events ++ [event])) as Hx by (apply Forall_app; split; [done|by constructor]).
  rewrite Hd in Hx. by apply Forall_app in Hx as [_ Hx].
Qed.

(** A log that was written is read back. *)
Lemma logged_written root events data fs :
  log_text events = Ok data -> sound_log events -> Forall readable events -> (len data <= maxAuditBytes)%Z ->
  (forall op, os_fault op = None) -> fs !! audit_path root = Some (audit_file data) -> logged root fs = Ok events.
Proof.
  intros Hd [Hlen Hv] Hr Hsize Hos Hf. unfold logged, Evidence_Load, Lstat, ReadFile, attempt. cbv zeta. rewrite !Hos, Hf. simpl.
  rewrite (proj2 (Z.ltb_ge _ _) Hsize). simpl. unfold scan_events. by rewrite (scan_log events [] data).
Qed.
End store.

(** C36: An append replaces the log at once: whatever fails, every state on the way
    holds the old log or the new one, which is the last thousand events of the
    old one and the new event; an error leaves the old one, and the log that is
    written is read back, when its events fit into the limits of the reader. *)
Theorem Append_log `{EvidenceJSON} `{OS} root event d d' res :
  Append root event d = (d', res) ->
  exists new, atomic (audit_path root) [audit_path root +:+ ".tmp"] new d d' /\
  match res with
  | Err _ => dk_Files d' !! audit_path root = dk_Files d !! audit_path root
  | Ok _ => exists events data, logged root (dk_Files d) = Ok events /\
      let kept := retained (events ++ [event]) in
      log_text kept = Ok data /\ new = Some (audit_file data) /\ dk_Files d' !! audit_path root = new /\
      (length kept <= MaxAuditEvents)%nat /\ (exists dropped, events ++ [event] = dropped ++ kept) /\
      (Forall readable kept -> (len data <= maxAuditBytes)%Z -> (forall op, os_fault op = None) ->
       logged root (dk_Files d') = Ok kept)
  end.
Proof.
  intros [[-> Hf]|(Hv & events & Hl & Hw)]%Append_cases.
  { exists None. split; [apply atomic_refl|]. by destruct res. }
  apply write_events_atomic in Hw as [Ha Hres]. exists (new_log (retained (events ++ [event]))). split; [done|].
  destruct res as [[]|e]; [|done]. destruct Hres as (data & Hd & Hf). exists events, data. unfold new_log. rewrite Hd.
  split_and!; [done..|apply retained_length|apply retained_suffix|]. intros Hr Hsize Hos.
  apply (logged_written root _ data); [done| |done..]. apply retained_sound; [by eapply logged_sound|done].
Qed.

Section wedged.
Context {json : EvidenceJSON} {os : OS}.

(** A log that its reader refuses. *)
Definition oversized (event : AuditEvent) (data : string) : Prop :=
  (maxAuditBytes < len data)%Z \/
  exists text, marshal_event event = Ok text /\ has_byte line_feed text = false /\ (maxLine <= len text)%Z.

Lemma log_text_app events rest data :
  log_text (events ++ rest) = Ok data -> exists a b, log_text events = Ok a /\ log_text rest = Ok b /\ data = a +:+ b.
Proof.
  revert data. induction events as [|event events IH]; intros data; simpl; [intros Hd; by exists "", data|].
  intros Hd. apply bind_Ok in Hd as (text & -> & Hd). apply bind_Ok in Hd as (rest' & Hr & [= <-]).
  destruct (IH _ Hr) as (a & b & -> & -> & ->). eexists _, b. split_and!; [reflexivity|done|]. by rewrite !string_app_assoc.
Qed.

Lemma log_text_line events data :
  log_text events = Ok data -> events = [] \/ exists before, data = before +:+ newline.
Proof.
  revert data. induction events as [|event events IH]; intros data; [by left|]. simpl. intros Hd.
  apply bind_Ok in Hd as (text & _ & Hd). apply bind_Ok in Hd as (rest & Hr & [= <-]). right.
  destruct (IH _ Hr) as [->|[before ->]].
  - injection Hr as <-. by exists text.
  - exists (text +:+ newline +:+ before). by rewrite !string_app_assoc.
Qed.

(** The line of the last event is one of the lines the scanner sees. *)
Lemma last_line_split events event data text :
  log_text (events ++ [event]) = Ok data -> marshal_event event = Ok text -> has_byte line_feed text = false ->
  text ∈ Split data line_feed.
Proof.
  intros Hd Ht Hn. destruct (log_text_app _ _ _ Hd) as (a & b & Ha & Hb & ->). simpl in Hb. rewrite Ht in Hb. simpl in Hb.
  injection Hb as <-. destruct (log_text_line _ _ Ha) as [->|[before ->]].
  - injection Ha as <-. rewrite string_app_nil_l. change (text +:+ newline +:+ "") with (text +:+ String line_feed "").
    rewrite Split_app_sep, (Split_no_sep text) by done. by left.
  - replace ((before +:+ newline) +:+ text +:+ newline +:+ "") with (before +:+ String line_feed (text +:+ String line_feed ""))
      by by rewrite string_app_assoc.
    rewrite !Split_app_sep, (Split_no_sep text) by done. apply elem_of_app. right. by left.
Qed.

Lemma scan_long read lines text :
  text ∈ lines -> (maxLine <= len text)%Z -> is_ok (forE scan_line read lines) = false.
Proof.
  intros Hin Hl. revert read. induction lines as [|line lines IH]; intros read; [by apply elem_of_nil in Hin|]. simpl.
  apply elem_of_cons in Hin as [<-|Hin].
  - unfold scan_line. by rewrite (proj2 (Z.leb_le _ _) Hl).
  - destruct (scan_line read line); [by apply IH|done].
Qed.

Lemma oversized_refused root fs events event data :
  log_text (retained (events ++ [event])) = Ok data -> oversized event data -> fs !! audit_path root = Some (audit_file data) ->
  is_ok (logged root fs) = false.
Proof.
  intros Hd Ho Hf. unfold logged. destruct (Evidence_Load root fs) as [read|e] eqn:Hl.
  - unfold Evidence_Load in Hl. cbv zeta in Hl. inv_ok Hl. revert Hr Hr1. unfold Lstat, ReadFile. rewrite Hf.
    destruct (os_fault (OpLstat _)); [done|]. intros [= <-]. destruct (os_fault (OpRead _)); [done|]. intros [= <-]. simpl in *.
    destruct Ho as [Hs|(text & Ht & Hn & Hlen)]; [apply Z.ltb_ge in Hc1; lia|].
    apply wrap_err_Ok in Hl. destruct (retained_snoc events event) as [kept Hk]. rewrite Hk in Hd.
    pose proof (scan_long [] _ text (last_line_split _ _ _ _ Hd Ht Hn) Hlen) as Hs. unfold scan_events in Hl. by rewrite Hl in Hs.
  - destruct (oe_NotExist e) eqn:He; [|done]. revert Hl. unfold Evidence_Load, Lstat, ReadFile. cbv zeta. rewrite Hf.
    destruct (os_fault (OpLstat _)); [by intros [= <-]|]. simpl.
    repeat (match goal with |- context [reject ?b _] => destruct b; [by intros [= <-]|] end; simpl).
    destruct (attempt _); [|by intros [= <-]]. simpl. destruct (os_fault (OpRead _)); [by intros [= <-]|]. simpl.
    destruct (scan_events data); [done|by intros [= <-]].
Qed.
End wedged.

(** Nothing bounds the size of what is appended: an append that makes the log
    larger than its reader accepts, or adds a line that is too long for it,
    succeeds, and then every further append fails and leaves the log. *)
Theorem Append_wedged `{EvidenceJSON} `{OS} root event d d' events data :
  Append root event d = (d', Ok tt) -> logged root (dk_Files d) = Ok events ->
  log_text (retained (events ++ [event])) = Ok data -> oversized event data ->
  forall event' d1, dk_Files d1 !! audit_path root = dk_Files d' !! audit_path root ->
  exists err, Append root event' d1 = (d1, Err err).
Proof.
  intros Happ Hl Hd Ho event' d1 Hsame. apply Append_cases in Happ as [[_ ?]|(_ & events' & Hl' & Hw)]; [done|].
  assert (events' = events) as -> by congruence. apply write_events_atomic in Hw as [_ (data' & Hd' & Hf)].
  assert (data' = data) as -> by congruence. rewrite Hf in Hsame.
  pose proof (oversized_refused root _ _ _ _ Hd Ho Hsame) as Hlog.
  destruct (Append root event' d1) as [d2 res] eqn:Ha. apply Append_cases in Ha as [[-> Hr]|(_ & read & Hr & _)].
  - destruct res as [|err]; [done|by exists err].
  - by rewrite Hr in Hlog.
Qed.

(** ** The sealed bundle *)

Definition record_key (r : EvidenceRecord) : string * string := (er_ID r, er_Resource r).
Definition event_key (e : AuditEvent) : Z * string := (ae_Timestamp e, ae_ID e).

Lemma record_before_key x y :
  record_before y x = false <-> lex_le String.le String.le (record_key x) (record_key y).
Proof.
  unfold record_before, lex_le, record_key. simpl. case_bool_decide as Hid; rewrite ltb_false.
  - rewrite Hid. naive_solver.
  - naive_solver.
Qed.

Lemma event_before_key x y : event_before y x = false <-> lex_le Z.le String.le (event_key x) (event_key y).
Proof.
  unfold event_before, lex_le, event_key. simpl. destruct (Z.eqb_spec (ae_Timestamp y) (ae_Timestamp x)) as [Ht|Ht].
  - rewrite ltb_false, Ht. naive_solver.
  - rewrite Z.ltb_ge. naive_solver lia.
Qed.

(** The elements of each part are told apart by what they are sorted by. *)
Definition distinct_parts (b : Bundle) : Prop :=
  Forall (fun records => NoDup (map record_key records))
    [bu_Desired b; bu_Enforced b; bu_Observed b; bu_Verified b; bu_Exceptions b; bu_Unsupported b] /\
  NoDup (map event_key (bu_Audit b)).

(** The same evidence: what identifies it, its recovery state and, in any
    order, its records and events. *)
Record same_evidence (b b' : Bundle) : Prop := mkSame {
  same_scope : (bu_Target b, bu_ApplicationID b, bu_DeploymentID b, bu_Application b, bu_Environment b, bu_Recovery b) =
               (bu_Target b', bu_ApplicationID b', bu_DeploymentID b', bu_Application b', bu_Environment b', bu_Recovery b');
  same_desired : bu_Desired b ≡ₚ bu_Desired b';
  same_enforced : bu_Enforced b ≡ₚ bu_Enforced b';
  same_observed : bu_Observed b ≡ₚ bu_Observed b';
  same_verified : bu_Verified b ≡ₚ bu_Verified b';
  same_exceptions : bu_Exceptions b ≡ₚ bu_Exceptions b';
  same_unsupported : bu_Unsupported b ≡ₚ bu_Unsupported b';
  same_audit : bu_Audit b ≡ₚ bu_Audit b' }.

Lemma sortRecords_canonical l k : NoDup (map record_key l) -> l ≡ₚ k -> sortRecords l = sortRecords k.
Proof. apply (sort_slice_canonical record_key (lex_le String.le String.le)), record_before_key. Qed.

Lemma sort_events_canonical l k :
  NoDup (map event_key l) -> l ≡ₚ k -> sort_slice event_before l = sort_slice event_before k.
Proof. apply (sort_slice_canonical event_key (lex_le Z.le String.le)), event_before_key. Qed.

Lemma ordered_bundle_canonical b b' : distinct_parts b -> same_evidence b b' -> ordered_bundle b = ordered_bundle b'.
Proof.
  intros [Hr He] [Hs]. rewrite !Forall_cons in Hr. destruct Hr as (H1 & H2 & H3 & H4 & H5 & H6 & _).
  injection Hs as Ht Ha Hd Hn Hv Hrec. unfold ordered_bundle. rewrite Ht, Ha, Hd, Hn, Hv, Hrec.
  f_equal; auto using sortRecords_canonical, sort_events_canonical.
Qed.

Lemma same_ordered b i : same_evidence b (with_integrity (ordered_bundle b) i).
Proof. constructor; [done|..]; symmetry; apply sort_slice_Permutation. Qed.

(** The seal only depends on the evidence: bundles that hold the same records
    and events in another order are sealed the same, and sealing a sealed bundle
    again, as a verifier does, gives the same digest. *)
Theorem Seal_canonical `{EvidenceJSON} b b' sealed :
  distinct_parts b -> same_evidence b b' -> Seal b = Ok sealed ->
  Seal b' = Ok sealed /\ Seal sealed = Ok sealed /\ same_evidence b sealed /\
  exists data, marshal_bundle (with_integrity sealed (mkIntegrity "" "")) = Ok data /\
    bu_Integrity sealed = mkIntegrity "sha256" (digest_text data).
Proof.
  intros Hd Hs Hseal. pose proof (ordered_bundle_canonical _ _ Hd Hs) as Ho.
  pose proof Hseal as Hb'. unfold Seal in Hseal, Hb'. apply bind_Ok in Hseal as (data & Hm & [= <-]).
  pose proof (same_ordered b (mkIntegrity "sha256" (digest_text data))) as Hsame.
  split_and!.
  - unfold Seal. rewrite <- Ho. exact Hb'.
  - unfold Seal. rewrite <- (ordered_bundle_canonical _ _ Hd Hsame). exact Hb'.
  - exact Hsame.
  - by exists data.
Qed.

(** ** A sample *)

Module Example_audit.
Definition event (now : Z) (id detail : string) : AuditEvent :=
  mkEvent "v1" id now (WithActor " cli " "alice") "local" "" "" "shop" "dev" "apply" "" "" "" "" "" "" "" "" "" "" "ok" detail.

(** A codec that knows the identifier of an event. *)
#[local] Instance json : EvidenceJSON :=
  mkEvidenceJSON (fun e => Ok (ae_ID e)) (fun text => Ok (event 7 text "")) (fun b => Ok (bu_Target b)).
#[local] Instance os : OS := mkOS (fun _ => None) (fun _ f => f).

Definition start : disk := mkDisk {["/core/evidence/audit.jsonl" := audit_file ("a1" +:+ newline)]} [].
Definition append (e : AuditEvent) (d : disk) : disk * result error unit := Append "/core/" e d.

Example logged_twice : logged "/core" (dk_Files (fst (append (event 7 "a2" "") start))) = Ok [event 7 "a1" ""; event 7 "a2" ""].
Proof. vm_compute. reflexivity. Qed.

Definition record (id resource : string) : EvidenceRecord := mkEvidence StateDesired id "" resource "" "" "" "" "".
Definition bundle (desired : list EvidenceRecord) : Bundle :=
  mkBundle "" "" "local" "" "" "shop" "dev" desired [] [] [] [] [] None [] (mkIntegrity "" "").
End Example_audit.

Lemma Append_log_witness :
  exists events data, logged (json := Example_audit.json) (os := Example_audit.os) "/core/" (dk_Files Example_audit.start) = Ok events /\
    log_text (json := Example_audit.json) (retained (events ++ [Example_audit.event 7 "a2" ""])) = Ok data /\
    dk_Files (fst (Example_audit.append (Example_audit.event 7 "a2" "") Example_audit.start)) !! audit_path "/core/" = Some (audit_file data).
Proof.
  assert (Hok : snd (Example_audit.append (Example_audit.event 7 "a2" "") Example_audit.start) = Ok tt) by (vm_compute; reflexivity).
  destruct (Example_audit.append _ _) as [d' res] eqn:Happ. simpl in Hok. rewrite Hok in Happ.
  destruct (Append_log (H := Example_audit.json) (H0 := Example_audit.os) "/core/" _ _ _ _ Happ) as (new & _ & events & data & Hl & Hd & Hn & Hf & _).
  exists events, data. rewrite Hn in Hf. by split_and!.
Defined.

Lemma Seal_canonical_witness :
  exists sealed, Seal (json := Example_audit.json) (Example_audit.bundle [Example_audit.record "b" ""; Example_audit.record "a" ""]) = Ok sealed /\
    Seal (json := Example_audit.json) (Example_audit.bundle [Example_audit.record "a" ""; Example_audit.record "b" ""]) = Ok sealed /\
    bu_Desired sealed = [Example_audit.record "a" ""; Example_audit.record "b" ""].
Proof.
  eexists. split; [reflexivity|]. split; [|vm_compute; reflexivity].
  apply (Seal_canonical (H := Example_audit.json) (Example_audit.bundle [Example_audit.record "b" ""; Example_audit.record "a" ""])).
  - apply (bool_decide_unpack _). vm_compute. exact I.
  - constructor; try reflexivity. apply Permutation_swap.
  - reflexivity.
Defined.
