(* ===== verification/CSR.v ===== *)
(** * Certificate requests (internal/serviceaccess: csr.go, csr_material.go,
    issuer.go)

    What a client-owned key may be signed for, and the check of what an issuer
    returned for it.  The parsing of PEM blocks, certificates and URLs and the
    verification of certificate chains are interfaces; every decision on what
    was parsed is modelled. *)

From S2P Require Import Prelude GoStrings StableId UpdatePlan OrgConfig.

(** ** Interfaces *)

Record pem_block := mkPem {
  pe_Type : string;
  pe_Headers : nat;
  pe_Bytes : string }.

Inductive public_key : Type :=
| Ed25519Key (size : Z)
| ECDSAKey (bits : Z)
| RSAKey (bits : Z)
| OtherKey.

Record csr_info := mkCSR {
  cr_Raw : string;
  cr_PublicKeyInfo : string;
  cr_Signed : bool;
  cr_CommonName : string;
  cr_URIs : list string;
  cr_DNSNames : list string;
  cr_IPAddresses : list string;
  cr_EmailAddresses : list string;
  cr_Extensions : list (list Z);
  cr_Key : public_key }.

(** A parsed certificate; its key as [x509.MarshalPKIXPublicKey] writes it and
    its serial number, which may be missing. *)
Record cert_info := mkCert {
  ce_Raw : string;
  ce_IsCA : bool;
  ce_CommonName : string;
  ce_URIs : list string;
  ce_DNSNames : list string;
  ce_IPAddresses : list string;
  ce_EmailAddresses : list string;
  ce_ExtKeyUsage : list Z;
  ce_UnknownExtKeyUsage : list (list Z);
  ce_KeyUsage : Z;
  ce_NotBefore : Z;
  ce_NotAfter : Z;
  ce_PublicKeyInfo : result error string;
  ce_Serial : option Z }.

Record url_info := mkURL {
  ur_Scheme : string;
  ur_Host : string;
  ur_User : bool;
  ur_RawQuery : string;
  ur_Fragment : string;
  ur_Path : string;
  ur_Opaque : string }.

(** The usage constants of crypto/x509. *)
Definition ExtKeyUsageClientAuth : Z := 2.
Definition KeyUsageDigitalSignature : Z := 1.

Class X509 := mkX509 {
  pem_Decode : string -> option pem_block * string;
  url_Parse : string -> result error url_info;
  net_ParseIP : string -> bool;
  ParseCertificateRequest : string -> result error csr_info;
  ParseCertificate : string -> result error cert_info;
  (** [leaf.Verify] for the client usage: the leaf, the roots, the
      intermediates, the time. *)
  cert_Verify : cert_info -> list cert_info -> list cert_info -> Z -> result error unit }.

(** ** Data (issuer.go) *)

Record TrustBundle := mkTrust {
  tb_IssuerReference : string;
  tb_PEM : string }.

Record IssuedCertificate := mkIssued {
  ic_IssuerReference : string;
  ic_Certificate : string;
  ic_PrivateKey : string;
  ic_IssuingCA : string;
  ic_CAChain : list string;
  ic_Serial : string;
  ic_ExpiresAt : Z }.

Record CSRSigningRequest := mkSigning {
  sr_CSRPEM : string;
  sr_Identity : string;
  sr_TTL : Z;
  sr_DNSNames : list string }.

(** Durations are nanoseconds. *)
Definition Second : Z := 10 ^ 9.
Definition Minute : Z := 60 * Second.
Definition Hour : Z := 60 * Minute.

(** ** Requests (csr.go) *)

Section csr.
Context {x509 : X509}.

Definition scoped_identity (identity : url_info) : bool :=
  (ur_Scheme identity == "spiffe") && (ur_Host identity != "") && negb (ur_User identity) && (ur_RawQuery identity == "") &&
  (ur_Fragment identity == "") && (ur_Path identity != "") && (ur_Opaque identity == "").

(** 2.5.29.17, the subject alternative name. *)
Definition approved_extension (id : list Z) : bool := id == [2; 5; 29; 17]%Z.

Definition key_error (key : public_key) : result error unit :=
  match key with
  | Ed25519Key size => reject (size != 32%Z) (errorsNew "CSR key is invalid")
  | ECDSAKey bits => reject (bits <? 256)%Z (errorsNew "CSR key strength is insufficient")
  | RSAKey bits => reject ((bits <? 2048) || (4096 <? bits))%Z (errorsNew "CSR RSA key strength is outside the supported bounds")
  | OtherKey => Err (errorsNew "CSR public key type is unsupported")
  end.

(** The one block of a text with this header and nothing else. *)
Definition single_block (header kind text : string) : option string :=
  match pem_Decode text with
  | (Some block, rest) =>
      if HasPrefix (TrimSpace text) header && (pe_Type block == kind) && (pe_Headers block =? 0)%nat && (TrimSpace rest == "")
      then Some (pe_Bytes block) else None
  | (None, _) => None
  end.

Definition csr_matches (csr : csr_info) (identity : string) (authorizedDNS : list string) : bool :=
  ((cr_CommonName csr == "") || (cr_CommonName csr == identity)) && (cr_URIs csr == [identity]) &&
  (cr_DNSNames csr == authorizedDNS) && (cr_IPAddresses csr == []) && (cr_EmailAddresses csr == []).

Definition csr_validate (r : CSRSigningRequest) (authorizedDNS : list string) : result error csr_info :=
  reject (match url_Parse (sr_Identity r) with Ok identity => negb (scoped_identity identity) | Err _ => true end)
    (errorsNew "CSR signing requires one scoped URI identity") ;;
  reject ((sr_TTL r <=? 0)%Z || (24 * Hour <? sr_TTL r)%Z || (65536 <? len (sr_CSRPEM r))%Z)
    (errorsNew "CSR signing TTL or size is outside the supported bounds") ;;
  match single_block "-----BEGIN CERTIFICATE REQUEST-----" "CERTIFICATE REQUEST" (sr_CSRPEM r) with
  | None => Err (errorsNew "CSR must contain exactly one PKCS#10 request")
  | Some data =>
      csr ← wrap_err (fun _ => errorsNew "CSR signature is invalid") (ParseCertificateRequest data);
      reject (negb (cr_Signed csr)) (errorsNew "CSR signature is invalid") ;;
      reject (negb (csr_matches csr (sr_Identity r) authorizedDNS))
        (errorsNew "CSR identity differs from the authorized node identity") ;;
      reject (negb (forallb approved_extension (cr_Extensions csr))) (errorsNew "CSR contains an unapproved extension") ;;
      key_error (cr_Key csr) ;;
      Ok csr
  end.

Definition CSR_Validate (r : CSRSigningRequest) : result error csr_info :=
  reject (bool_decide (sr_DNSNames r <> [])) (errorsNew "node CSR cannot authorize TLS server names") ;;
  csr_validate r [].

Definition core_identity_byte (c : ascii) : bool := is_alnum c || bool_decide (c ∈ ["_"; "."; "-"]%char).

(** [^spiffe://baseharbor/platform/core/[a-zA-Z0-9][a-zA-Z0-9_.-]{0,127}$] *)
Definition core_identity (identity : string) : bool :=
  match strip_prefix "spiffe://baseharbor/platform/core/" identity with
  | Some (String c rest) => is_alnum c && all_bytes core_identity_byte rest && (strlen rest <=? 127)%nat
  | _ => false
  end.

Definition is_lower_alnum (c : ascii) : bool :=
  let n := nat_of_ascii c in ((48 <=? n)%nat && (n <=? 57)%nat) || ((97 <=? n)%nat && (n <=? 122)%nat).

(** [^[a-z0-9](?:[a-z0-9-]*[a-z0-9])?$] *)
Definition dns_label (label : string) : bool :=
  match label, String.rev label with
  | String first _, String last _ =>
      is_lower_alnum first && is_lower_alnum last && all_bytes (fun c => is_lower_alnum c || bool_decide (c = "-"%char)) label
  | _, _ => false
  end.

Definition check_dns_name (seen : gset string) (name : string) : result error (gset string) :=
  reject ((len name =? 0)%Z || (253 <? len name)%Z || (ToLower name != name) || net_ParseIP name || bool_decide (name ∈ seen))
    (errorsNew "Core CSR server name must be canonical and unique") ;;
  reject (existsb (fun label => (len label =? 0)%Z || (63 <? len label)%Z || negb (dns_label label)) (Split name "."))
    (errorsNew "Core CSR server name is invalid") ;;
  Ok ({[name]} ∪ seen).

Definition CSR_ValidateCore (r : CSRSigningRequest) : result error csr_info :=
  reject (negb (core_identity (sr_Identity r)) || (8 <? length (sr_DNSNames r))%nat)
    (errorsNew "Core CSR identity or server-name count is invalid") ;;
  forE check_dns_name ∅ (sr_DNSNames r) ;;
  csr_validate r (sr_DNSNames r).

(** ** What was issued (csr_material.go) *)

(** The certificates of a text, in the order they come.  The rest of a decoded
    block is shorter than the text, so its length is enough fuel.  [closed]
    tells the errors of the two loops. *)
Fixpoint read_authorities (fuel : nat) (unreadable uncertified : error) (material : string) : result error (list cert_info) :=
  if TrimSpace material == "" then Ok []
  else match fuel with
  | O => Err unreadable
  | S fuel =>
      match pem_Decode material with
      | (Some block, rest) =>
          reject (negb (HasPrefix (TrimSpace material) "-----BEGIN CERTIFICATE-----") || (pe_Type block != "CERTIFICATE") ||
                  negb (pe_Headers block =? 0)%nat) unreadable ;;
          cert ← wrap_err (fun _ => uncertified) (ParseCertificate (pe_Bytes block));
          reject (negb (ce_IsCA cert)) uncertified ;;
          certs ← read_authorities fuel unreadable uncertified rest;
          Ok (cert :: certs)
      | (None, _) => Err unreadable
      end
  end.

Definition certificatePool (material : string) : result error (list cert_info) :=
  certs ← read_authorities (strlen material) (errorsNew "invalid authority trust bundle")
            (errorsNew "invalid authority trust certificate") material;
  reject (bool_decide (certs = [])) (errorsNew "authority trust bundle is empty") ;;
  Ok certs.

Definition issued_invalid : error :=
  errorsNew "issued CSR material does not match the authorized client key, scope, or authority".

(** The certificates of the issuing chain. *)
Definition read_chain (issued : IssuedCertificate) : result error (list cert_info) :=
  forE (fun certs material =>
    more ← read_authorities (strlen material) issued_invalid issued_invalid material;
    Ok (certs ++ more)) [] (ic_CAChain issued ++ [ic_IssuingCA issued]).

(** Lower case hexadecimal digits of a positive number, as
    [SerialNumber.Text(16)] writes them. *)
Fixpoint hex_fuel (fuel : nat) (n : Z) (acc : string) : string :=
  match fuel with
  | O => acc
  | S fuel =>
      let acc := String (hex_digit (n mod 16)%Z) acc in
      if (n / 16 =? 0)%Z then acc else hex_fuel fuel (n / 16)%Z acc
  end.

Definition serial_text (serial : Z) : string :=
  (if (serial <? 0)%Z then "-" else "") +:+ hex_fuel (S (Z.to_nat (Z.log2 (Z.abs serial)))) (Z.abs serial) "".

Fixpoint TrimLeftZero (s : string) : string :=
  match s with
  | String c rest => if c == "0"%char then TrimLeftZero rest else s
  | EmptyString => EmptyString
  end.

Fixpoint remove_byte (b : ascii) (s : string) : string :=
  match s with
  | EmptyString => EmptyString
  | String c rest => if c == b then remove_byte b rest else String c (remove_byte b rest)
  end.

(** [strings.ReplaceAll(strings.ToLower(s), ":", "")] *)
Definition plain_serial (serial : string) : string := remove_byte ":"%char (ToLower serial).

Definition leaf_matches (leaf : cert_info) (request : CSRSigningRequest) (issued : IssuedCertificate) (now : Z) : bool :=
  negb (ce_IsCA leaf) && (ce_CommonName leaf == sr_Identity request) && (ce_URIs leaf == [sr_Identity request]) &&
  (ce_DNSNames leaf == []) && (ce_IPAddresses leaf == []) && (ce_EmailAddresses leaf == []) &&
  (ce_ExtKeyUsage leaf == [ExtKeyUsageClientAuth]) && (ce_UnknownExtKeyUsage leaf == []) &&
  (ce_KeyUsage leaf =? KeyUsageDigitalSignature)%Z && (now <? ce_NotAfter leaf)%Z &&
  (ce_NotAfter leaf <=? now + (sr_TTL request + Minute))%Z && (ic_ExpiresAt issued =? ce_NotAfter leaf)%Z.

Definition ValidateSignedCSR (request : CSRSigningRequest) (issued : IssuedCertificate) (trust : TrustBundle) (now : Z)
    : result error unit :=
  csr ← CSR_Validate request;
  match single_block "-----BEGIN CERTIFICATE-----" "CERTIFICATE" (ic_Certificate issued) with
  | None => Err issued_invalid
  | Some data =>
      reject (ic_PrivateKey issued != "") issued_invalid ;;
      leaf ← wrap_err (fun _ => issued_invalid) (ParseCertificate data);
      reject (negb (leaf_matches leaf request issued now)) issued_invalid ;;
      key ← wrap_err (fun _ => issued_invalid) (ce_PublicKeyInfo leaf);
      reject (key != cr_PublicKeyInfo csr) issued_invalid ;;
      let serial := plain_serial (ic_Serial issued) in
      reject ((serial == "") ||
              (TrimLeftZero serial != TrimLeftZero (match ce_Serial leaf with Some n => serial_text n | None => "<nil>" end))) issued_invalid ;;
      roots ← wrap_err (fun _ => issued_invalid) (certificatePool (tb_PEM trust));
      intermediates ← read_chain issued;
      wrap_err (fun _ => issued_invalid) (cert_Verify leaf roots intermediates now)
  end.
End csr.
