(* ===== verification/Enrollment.v ===== *)
(** * Connector enrolment (internal/targetenrollment: authority.go,
    admission.go, live_trust.go)

    One-use bootstrap authorisations, the exchange of one for a signed
    certificate, and the admission of a TLS peer as an enrolled node.  The
    persistent store and the certificate issuer are interfaces; the store of the
    code is the file EnrollmentStore.  Reads of the context and of the clock are
    answered by an environment, by the place they are made at. *)

From S2P Require Import Prelude GoStrings StableId Base64 Sha256 Effects UpdatePlan OrgConfig CSR.

(** ** The environment *)

Class Env := mkEnv {
  ctx_done : string -> bool;
  time_Now : string -> Z }.

(** ** Scopes *)

Definition ErrDenied : error := errorsNew "enrollment authorization is invalid, expired, or consumed".

Record Scope := mkScope {
  sc_TenantID : string;
  sc_TargetID : string;
  sc_NodeID : string;
  sc_Runtime : string }.

Global Instance Scope_eq_dec : EqDecision Scope.
Proof. solve_decision. Defined.
Global Program Instance Scope_countable : Countable Scope :=
  inj_countable' (fun s => (sc_TenantID s, sc_TargetID s, sc_NodeID s, sc_Runtime s)) (fun '(a, b, c, d) => mkScope a b c d) _.
Next Obligation. by intros []. Qed.

Definition lower_hex_group (size : nat) (group : string) : bool := (strlen group =? size)%nat && all_bytes is_lower_hex group.

(** [^[0-9a-f]{8}-[0-9a-f]{4}-[0-9a-f]{4}-[0-9a-f]{4}-[0-9a-f]{12}$] *)
Definition tenantID (s : string) : bool :=
  match Split s "-" with
  | [a; b; c; d; e] =>
      lower_hex_group 8 a && lower_hex_group 4 b && lower_hex_group 4 c && lower_hex_group 4 d && lower_hex_group 12 e
  | _ => false
  end.

(** [^[a-zA-Z0-9][a-zA-Z0-9_-]{0,63}$] *)
Definition segment (s : string) : bool :=
  match s with
  | EmptyString => false
  | String c rest => is_alnum c && (strlen rest <=? 63)%nat && all_bytes (fun c => is_alnum c || bool_decide (c ∈ ["_"; "-"]%char)) rest
  end.

Definition Identity (s : Scope) : string :=
  "spiffe://baseharbor/platform/connectors/" +:+ sc_TenantID s +:+ "/" +:+ sc_TargetID s +:+ "/" +:+ sc_NodeID s.

Definition Scope_Validate (s : Scope) : result error unit :=
  reject (negb (tenantID (sc_TenantID s)) || negb (segment (sc_TargetID s)) || negb (segment (sc_NodeID s)) ||
          ((sc_Runtime s != "docker") && (sc_Runtime s != "podman"))) ErrDenied.

(** ** Grants and nodes *)

Record Grant := mkGrant {
  gr_Scope : Scope;
  gr_TokenDigest : string;
  gr_NonceDigest : string;
  gr_ExpiresAt : Z;
  gr_CertificateTTL : Z }.

Record NodeStatus := mkStatus {
  ns_Enrolled : bool;
  ns_Revoked : bool;
  ns_Serial : string;
  ns_ExpiresAt : Z }.

Definition certificateSerial (s : string) : bool :=
  (1 <=? strlen s)%nat && (strlen s <=? 128)%nat && all_bytes is_lower_hex s.

Definition NormalizeCertificateSerial (serial : string) : result error string :=
  let serial := TrimLeftZero (plain_serial serial) in
  reject (negb (certificateSerial serial)) ErrDenied ;;
  Ok serial.

(** ** Interfaces *)

(** The renewal and the lifecycle operations are optional interfaces. *)
Class Store (D : Type) := mkStore {
  store_Create : Grant -> M D unit;
  store_Consume : Scope -> string -> string -> string -> Z -> M D Grant;
  store_RecordIssued : Scope -> string -> string -> Z -> M D unit;
  store_CreateRenewal : option (Grant -> M D unit);
  store_Lifecycle : option ((Scope -> M D NodeStatus) * (Scope -> M D string)) }.

Class Issuer (W : Type) := mkIssuer {
  SignCSR : CSRSigningRequest -> M W IssuedCertificate;
  issuer_TrustBundle : M W TrustBundle;
  issuer_Revoke : string -> M W unit }.

(** ** The authority (authority.go) *)

Record Bootstrap := mkBootstrap {
  bo_Token : string;
  bo_Nonce : string;
  bo_ExpiresAt : Z }.

Record Request := mkRequest {
  rq_Scope : Scope;
  rq_Token : string;
  rq_Nonce : string;
  rq_CSRPEM : string }.

Record Result := mkResult {
  re_Certificate : IssuedCertificate;
  re_Trust : TrustBundle }.

(** [raw] is what [rand.Read] filled the 32 bytes with, or its error. *)
Definition randomCredential (raw : result error (list Z)) : result error string :=
  match raw with
  | Err _ => Err (errorsNew "enrollment entropy unavailable")
  | Ok value => Ok (EncodeToString value)
  end.

Definition validCredential (value : string) : bool :=
  match DecodeString value with
  | Some decoded => (length decoded =? 32)%nat && (EncodeToString decoded == value)
  | None => false
  end.

Definition digest (value : string) : string := digest_text value.

Section authority.
Context {D W : Type} {store : Store D} {issuer : Issuer W} {x509 : X509} {env : Env}.

(** The token and the nonce are random. *)
Definition authority_create (scope : Scope) (lifetime certificateTTL : Z) (token nonce : result error (list Z))
    (persist : Grant -> M D unit) : M (D * W) Bootstrap :=
  checkM (ctx_done "create" || is_err (Scope_Validate scope) || (lifetime <=? 0)%Z || (10 * Minute <? lifetime)%Z ||
          (certificateTTL <? Second)%Z || (24 * Hour <? certificateTTL)%Z || negb (Z.rem certificateTTL Second =? 0)%Z) ErrDenied ;;
  token ← pureM (randomCredential token);
  nonce ← pureM (randomCredential nonce);
  let expires := (time_Now "create" + lifetime)%Z in
  wrapM (fun _ => errorsNew "cannot persist enrollment authorization")
    (onFst (persist (mkGrant scope (digest token) (digest nonce) expires certificateTTL))) ;;
  mret (mkBootstrap token nonce expires).

Definition Create (scope : Scope) (lifetime certificateTTL : Z) (token nonce : result error (list Z)) : M (D * W) Bootstrap :=
  authority_create scope lifetime certificateTTL token nonce store_Create.

Definition CreateRenewal (scope : Scope) (lifetime certificateTTL : Z) (token nonce : result error (list Z)) : M (D * W) Bootstrap :=
  match store_CreateRenewal with
  | None => pureM (Err ErrDenied)
  | Some renewal => authority_create scope lifetime certificateTTL token nonce renewal
  end.

(** What is asked to be signed before the grant is known. *)
Definition signing_of (request : Request) (ttl : Z) : CSRSigningRequest :=
  mkSigning (rq_CSRPEM request) (Identity (rq_Scope request)) ttl [].

(** Taking the grant: from here on the authorisation is spent. *)
Definition consume_grant (request : Request) (csr : csr_info) : M (D * W) Grant :=
  let scope := rq_Scope request in
  grant ← wrapM (fun _ => ErrDenied)
    (onFst (store_Consume scope (digest (rq_Token request)) (digest (rq_Nonce request)) (digest (cr_Raw csr)) (time_Now "consume")));
  checkM ((gr_Scope grant != scope) || (gr_CertificateTTL grant <=? 0)%Z || (24 * Hour <? gr_CertificateTTL grant)%Z) ErrDenied ;;
  mret grant.

(** A certificate whose identity cannot be recorded is revoked, and never
    returned. *)
Definition record_issued (request : Request) (grant : Grant) (issued : IssuedCertificate) : M (D * W) unit :=
  onErrM (onFst (store_RecordIssued (rq_Scope request) (gr_TokenDigest grant) (ic_Serial issued) (ic_ExpiresAt issued)))
    (fun _ =>
       ignoreM (onSnd (issuer_Revoke (ic_Serial issued))) ;;
       fail "enrollment identity persistence failed; certificate admission is unavailable")
    (fun _ => mret tt).

Definition Enroll (request : Request) : M (D * W) Result :=
  checkM (ctx_done "enroll" || is_err (Scope_Validate (rq_Scope request)) || negb (validCredential (rq_Token request)) ||
          negb (validCredential (rq_Nonce request))) ErrDenied ;;
  csr ← pureM (wrap_err (fun _ => ErrDenied) (CSR_Validate (signing_of request Hour)));
  grant ← consume_grant request csr;
  checkM (ctx_done "consumed") ErrDenied ;;
  let signing := signing_of request (gr_CertificateTTL grant) in
  issued ← wrapM (fun _ => errorsNew "enrollment signing failed; request a new authorization") (onSnd (SignCSR signing));
  trust ← wrapM (fun _ => errorsNew "enrollment authority trust is unavailable") (onSnd issuer_TrustBundle);
  pureM (wrap_err (fun _ => errorsNew "enrollment authority returned invalid certificate material")
    (ValidateSignedCSR signing issued trust (time_Now "validate"))) ;;
  record_issued request grant issued ;;
  mret (mkResult issued trust).

Definition Status (scope : Scope) : M (D * W) NodeStatus :=
  match store_Lifecycle with
  | None => pureM (Err ErrDenied)
  | Some (status, _) =>
      checkM (is_err (Scope_Validate scope)) ErrDenied ;;
      onFst (status scope)
  end.

Definition Disconnect (scope : Scope) : M (D * W) unit :=
  match store_Lifecycle with
  | None => pureM (Err ErrDenied)
  | Some (_, revokeCurrent) =>
      checkM (is_err (Scope_Validate scope)) ErrDenied ;;
      serial ← onFst (revokeCurrent scope);
      if serial == "" then mret tt
      else wrapM (fun _ => errorsNew "connector admission was revoked but issuer revocation failed") (onSnd (issuer_Revoke serial))
  end.
End authority.

(** ** Admission (admission.go, live_trust.go) *)

(** Certificates and pools are pointers, which may be nil. *)
Record ConnectionState := mkConnection {
  co_Version : Z;
  co_HandshakeComplete : bool;
  co_PeerCertificates : list (option cert_info);
  co_VerifiedChains : list (list (option cert_info)) }.

Definition VersionTLS13 : Z := 0x0304.

(** The current trust is an optional interface of a registry. *)
Record NodeRegistry := mkNodeRegistry {
  AdmitCertificate : Scope -> string -> Z -> result error unit;
  NodeTrust : option (result error (option (list cert_info))) }.

Section admission.
Context {x509 : X509} {env : Env}.

Definition WithLiveTrust (registry : option NodeRegistry) (load : option (result error (option (list cert_info))))
    : result error NodeRegistry :=
  match registry, load with
  | Some registry, Some load =>
      Ok (mkNodeRegistry (AdmitCertificate registry) (Some (if ctx_done "trust" then Err ErrDenied else load)))
  | _, _ => Err ErrDenied
  end.

Definition verifyCurrentNodeTrust (registry : NodeRegistry) (peer : list (option cert_info)) (now : Z) : result error unit :=
  match NodeTrust registry with
  | None => Ok tt
  | Some trust =>
      match trust, peer with
      | Ok (Some roots), Some leaf :: rest =>
          reject (ctx_done "roots") ErrDenied ;;
          match mapM (M := option) id rest with
          | None => Err ErrDenied
          | Some intermediates => wrap_err (fun _ => ErrDenied) (cert_Verify leaf roots intermediates now)
          end
      | _, _ => Err ErrDenied
      end
  end.

Definition node_leaf (leaf : cert_info) (scope : Scope) (now : Z) : bool :=
  negb (ce_IsCA leaf) && (ce_CommonName leaf == Identity scope) && (ce_URIs leaf == [Identity scope]) &&
  (ce_DNSNames leaf == []) && (ce_IPAddresses leaf == []) && (ce_EmailAddresses leaf == []) &&
  (ce_ExtKeyUsage leaf == [ExtKeyUsageClientAuth]) && (ce_UnknownExtKeyUsage leaf == []) &&
  (ce_KeyUsage leaf =? KeyUsageDigitalSignature)%Z && (ce_NotBefore leaf <=? now)%Z && (now <? ce_NotAfter leaf)%Z &&
  match ce_Serial leaf with Some n => (0 <? n)%Z | None => false end.

(** A verified chain that starts with the certificate of the peer. *)
Definition verified_leaf (leaf : cert_info) (chains : list (list (option cert_info))) : bool :=
  existsb (fun chain => match chain with Some first :: _ => ce_Raw first == ce_Raw leaf | _ => false end) chains.

Definition AdmitTLSNode (state : ConnectionState) (scope : Scope) (registry : option NodeRegistry) : result error unit :=
  match registry with
  | None => Err ErrDenied
  | Some registry =>
      reject (ctx_done "admit" || is_err (Scope_Validate scope) || (co_Version state <? VersionTLS13)%Z ||
              negb (co_HandshakeComplete state) || bool_decide (co_PeerCertificates state = []) ||
              bool_decide (co_VerifiedChains state = [])) ErrDenied ;;
      match co_PeerCertificates state with
      | Some leaf :: _ =>
          let now := time_Now "admit" in
          reject (negb (verified_leaf leaf (co_VerifiedChains state)) || negb (node_leaf leaf scope now)) ErrDenied ;;
          wrap_err (fun _ => ErrDenied) (verifyCurrentNodeTrust registry (co_PeerCertificates state) now) ;;
          serial ← wrap_err (fun _ => ErrDenied) (NormalizeCertificateSerial (serial_text (default 0%Z (ce_Serial leaf))));
          wrap_err (fun _ => ErrDenied) (AdmitCertificate registry scope serial (ce_NotAfter leaf)) ;;
          reject (ctx_done "admitted") ErrDenied
      | _ => Err ErrDenied
      end
  end.
End admission.
