(* ===== verification/EnrollmentStore.v ===== *)
(** * The enrolment store (internal/database: connector_enrollment.go,
    connector_renewal.go, tenant.go)

    The three connector tables of the migrations, and the transactions on them.
    A transaction is atomic: it commits, or leaves the tables; the row locks it
    takes order the transactions on a node.  Every statement and the commit may
    fail; a commit whose answer is lost may have been applied.  The row level
    security of the tables repeats the tenant of each predicate. *)

From S2P Require Import Prelude GoStrings StableId Effects UpdatePlan OrgConfig CSR Enrollment.

(** ** The tables *)

Record node_row := mkNode {
  no_TargetID : string;
  no_Runtime : string;
  no_Serial : option string;
  no_ExpiresAt : option Z;
  no_Revoked : bool }.

Record grant_row := mkGrantRow {
  gw_TenantID : string;
  gw_TargetID : string;
  gw_NodeID : string;
  gw_Runtime : string;
  gw_NonceDigest : string;
  gw_ExpiresAt : Z;
  gw_TTLSeconds : Z;
  gw_Previous : option string;
  gw_ConsumedAt : option Z;
  gw_CSRDigest : option string }.

Record overlap_row := mkOverlap {
  ov_Serial : string;
  ov_ExpiresAt : Z;
  ov_AdmitUntil : Z;
  ov_Revoked : bool }.

(** The keys: tenant and node, and the digest of the token. *)
Record tables := mkTables {
  tb_Nodes : gmap (string * string) node_row;
  tb_Grants : gmap string grant_row;
  tb_Overlaps : gmap (string * string) overlap_row }.

(** ** The database *)

Inductive statement : Type :=
| Begin
| SetTenant
| InsertNode
| SelectNode
| SelectPending
| InsertGrant
| UpdateGrant
| SelectGrant
| UpdateNode
| InsertOverlap
| UpdateOverlap.

(** Whether the context of the caller is done, its clock, which statements
    fail, the clock of the database at each, and the error of the commit with
    whether it was applied all the same. *)
Class Database := mkDatabase {
  db_done : bool;
  db_now : Z;
  db_fault : statement -> option error;
  db_clock : statement -> Z;
  db_commit : option (error * bool) }.

Section store.
Context {db : Database}.

Definition query {A} (s : statement) (read : tables -> A) : M tables A := fun t =>
  match db_fault s with Some err => (t, Err err) | None => (t, Ok (read t)) end.

Definition change (s : statement) (write : tables -> tables) : M tables unit := fun t =>
  match db_fault s with Some err => (t, Err err) | None => (write t, Ok tt) end.

(** The scopes are validated before, so the tenant is an UUID. *)
Definition WithTenantTx {A} (fn : M tables A) : M tables A := fun t =>
  match db_fault Begin, db_fault SetTenant with
  | Some err, _ => (t, Err (Errorf "begin tenant transaction: %w" [ATxt err]))
  | None, Some err => (t, Err (Errorf "set tenant context: %w" [ATxt err]))
  | None, None =>
      match fn t with
      | (_, Err err) => (t, Err err)
      | (t', Ok a) =>
          match db_commit with
          | Some (err, applied) => (if applied : bool then t' else t, Err (Errorf "commit tenant transaction: %w" [ATxt err]))
          | None => (t', Ok a)
          end
      end
  end.

Definition node_key (s : Scope) : string * string := (sc_TenantID s, sc_NodeID s).

(** The row of exactly this node. *)
Definition scope_node (t : tables) (s : Scope) : option node_row :=
  match tb_Nodes t !! node_key s with
  | Some row => if (no_TargetID row == sc_TargetID s) && (no_Runtime row == sc_Runtime s) then Some row else None
  | None => None
  end.

Definition denied {A} (m : M tables A) : M tables A := wrapM (fun _ => ErrDenied) m.

(** [SELECT ... WHERE ...] of a row that must be there. *)
Definition select {A} (s : statement) (read : tables -> option A) : M tables A :=
  row ← query s read;
  pureM (requireM row (errorsNew "no rows in result set")).

(** ** Creating a grant *)

Definition pending_grant (t : tables) (s : Scope) (clock : Z) : bool :=
  bool_decide (map_Exists (fun _ row => gw_TenantID row = sc_TenantID s /\ gw_NodeID row = sc_NodeID s /\
    gw_ConsumedAt row = None /\ (clock < gw_ExpiresAt row)%Z) (tb_Grants t)).

Definition no_pending (s : Scope) : M tables unit :=
  pending ← query SelectPending (fun t => pending_grant t s (db_clock SelectPending));
  checkM pending ErrDenied.

Definition with_nodes (t : tables) (nodes : gmap (string * string) node_row) : tables := mkTables nodes (tb_Grants t) (tb_Overlaps t).
Definition with_grants (t : tables) (grants : gmap string grant_row) : tables := mkTables (tb_Nodes t) grants (tb_Overlaps t).
Definition with_overlaps (t : tables) (overlaps : gmap (string * string) overlap_row) : tables := mkTables (tb_Nodes t) (tb_Grants t) overlaps.

(** The token digest is the primary key, and the lifetime is checked. *)
Definition insertConnectorGrant (g : Grant) (previous : option string) : M tables unit :=
  let s := gr_Scope g in
  let seconds := Z.quot (gr_CertificateTTL g) Second in
  exists_already ← query InsertGrant (fun t => bool_decide (is_Some (tb_Grants t !! gr_TokenDigest g)));
  checkM (exists_already || (seconds <? 1)%Z || (86400 <? seconds)%Z) (errorsNew "constraint violation") ;;
  change InsertGrant (fun t => with_grants t (<[gr_TokenDigest g :=
    mkGrantRow (sc_TenantID s) (sc_TargetID s) (sc_NodeID s) (sc_Runtime s) (gr_NonceDigest g) (gr_ExpiresAt g) seconds previous None None]>
    (tb_Grants t))).

(** [INSERT ... ON CONFLICT DO NOTHING] *)
Definition insert_node (s : Scope) (t : tables) : tables :=
  match tb_Nodes t !! node_key s with
  | Some _ => t
  | None => with_nodes t (<[node_key s := mkNode (sc_TargetID s) (sc_Runtime s) None None false]> (tb_Nodes t))
  end.

Definition db_Create (g : Grant) : M tables unit :=
  let s := gr_Scope g in
  checkM (is_err (Scope_Validate s)) ErrDenied ;;
  WithTenantTx (
    change InsertNode (insert_node s) ;;
    row ← select SelectNode (fun t => tb_Nodes t !! node_key s);
    checkM (bool_decide (is_Some (no_Serial row)) || (no_TargetID row != sc_TargetID s) || (no_Runtime row != sc_Runtime s)) ErrDenied ;;
    no_pending s ;;
    insertConnectorGrant g None).

(** A certificate that is neither revoked nor expired. *)
Definition active (row : node_row) (clock : Z) : bool :=
  bool_decide (is_Some (no_Serial row)) && negb (no_Revoked row) &&
  match no_ExpiresAt row with Some expires => (clock <? expires)%Z | None => false end.

Definition db_CreateRenewal (g : Grant) : M tables unit :=
  let s := gr_Scope g in
  checkM (db_done || is_err (Scope_Validate s)) ErrDenied ;;
  WithTenantTx (
    previous ← denied (select SelectNode (fun t =>
      match scope_node t s with
      | Some row => if active row (db_clock SelectNode) then no_Serial row else None
      | None => None
      end));
    no_pending s ;;
    insertConnectorGrant g (Some previous)).

(** ** Consuming a grant *)

(** A renewal is only good while the certificate it replaces is active. *)
Definition previous_active (t : tables) (s : Scope) (previous : option string) (clock : Z) : bool :=
  match previous with
  | None => true
  | Some _ => match scope_node t s with Some row => (no_Serial row == previous) && active row clock | None => false end
  end.

Definition consumable (t : tables) (s : Scope) (nonce : string) (now clock : Z) (row : grant_row) : bool :=
  (gw_NonceDigest row == nonce) && (gw_TargetID row == sc_TargetID s) && (gw_NodeID row == sc_NodeID s) &&
  (gw_Runtime row == sc_Runtime s) && (gw_TenantID row == sc_TenantID s) && bool_decide (gw_ConsumedAt row = None) &&
  (Z.max now clock <? gw_ExpiresAt row)%Z && previous_active t s (gw_Previous row) clock.

Definition consumed (row : grant_row) (clock : Z) (csr : string) : grant_row :=
  mkGrantRow (gw_TenantID row) (gw_TargetID row) (gw_NodeID row) (gw_Runtime row) (gw_NonceDigest row) (gw_ExpiresAt row)
    (gw_TTLSeconds row) (gw_Previous row) (Some clock) (Some csr).

Definition db_Consume (s : Scope) (token nonce csr : string) (now : Z) : M tables Grant :=
  checkM (is_err (Scope_Validate s)) ErrDenied ;;
  denied (WithTenantTx (
    let clock := db_clock UpdateGrant in
    row ← select UpdateGrant (fun t =>
      match tb_Grants t !! token with
      | Some row => if consumable t s nonce now clock row then Some row else None
      | None => None
      end);
    change UpdateGrant (fun t => with_grants t (<[token := consumed row clock csr]> (tb_Grants t))) ;;
    mret (mkGrant s token nonce (gw_ExpiresAt row) (gw_TTLSeconds row * Second)%Z))).

(** ** Recording what was issued *)

(** [UPDATE connector_nodes SET certificate_serial, certificate_expires_at] *)
Definition set_certificate (s : Scope) (serial : string) (expires : Z) (t : tables) : tables :=
  match scope_node t s with
  | Some row => with_nodes t (<[node_key s := mkNode (no_TargetID row) (no_Runtime row) (Some serial) (Some expires) (no_Revoked row)]> (tb_Nodes t))
  | None => t
  end.

Definition recordConnectorRenewal (s : Scope) (previous serial : string) (expires : Z) : M tables unit :=
  oldSerial ← denied (pureM (NormalizeCertificateSerial previous));
  checkM (oldSerial == serial) ErrDenied ;;
  oldExpiry ← denied (select SelectNode (fun t =>
    match scope_node t s with
    | Some row => if (no_Serial row == Some previous) && active row (db_clock SelectNode) then no_ExpiresAt row else None
    | None => None
    end));
  let until := Z.min oldExpiry (db_clock InsertOverlap + 5 * Minute)%Z in
  change InsertOverlap (fun t => with_overlaps t (<[node_key s := mkOverlap oldSerial oldExpiry until false]> (tb_Overlaps t))) ;;
  change UpdateNode (set_certificate s serial expires).

Definition consumed_grant (t : tables) (s : Scope) (token : string) : option grant_row :=
  match tb_Grants t !! token with
  | Some row =>
      if (gw_TenantID row == sc_TenantID s) && (gw_NodeID row == sc_NodeID s) && (gw_TargetID row == sc_TargetID s) &&
         (gw_Runtime row == sc_Runtime s) && bool_decide (is_Some (gw_ConsumedAt row))
      then Some row else None
  | None => None
  end.

(** The consumed grant the statement asks for once more is locked by now. *)
Definition record_first (s : Scope) (serial : string) (expires : Z) : M tables unit :=
  row ← query UpdateNode (fun t => scope_node t s);
  checkM (negb (match row with Some row => bool_decide (no_Serial row = None) | None => false end)) ErrDenied ;;
  change UpdateNode (set_certificate s serial expires).

Definition db_RecordIssued (s : Scope) (token serial : string) (expires : Z) : M tables unit :=
  serial ← denied (pureM (NormalizeCertificateSerial serial));
  checkM (db_done || is_err (Scope_Validate s) || (expires <=? db_now)%Z) ErrDenied ;;
  WithTenantTx (
    row ← denied (select SelectGrant (fun t => consumed_grant t s token));
    match gw_Previous row with
    | Some previous => recordConnectorRenewal s previous serial expires
    | None => record_first s serial expires
    end).

(** ** Admission *)

Definition current_admits (row : node_row) (serial : string) (expires clock : Z) : bool :=
  match no_Serial row, no_ExpiresAt row with
  | Some current, Some until => (TrimLeftZero (plain_serial current) == serial) && (until =? expires)%Z && (clock <? until)%Z
  | _, _ => false
  end.

Definition overlap_admits (overlap : option overlap_row) (serial : string) (expires clock : Z) : bool :=
  match overlap with
  | Some row => (ov_Serial row == serial) && (ov_ExpiresAt row =? expires)%Z && (clock <? ov_AdmitUntil row)%Z && negb (ov_Revoked row)
  | None => false
  end.

Definition admitted (t : tables) (s : Scope) (serial : string) (expires clock : Z) : bool :=
  match scope_node t s with
  | Some row =>
      negb (no_Revoked row) &&
      (current_admits row serial expires clock || overlap_admits (tb_Overlaps t !! node_key s) serial expires clock)
  | None => false
  end.

Definition db_AdmitCertificate (s : Scope) (serial : string) (expires : Z) : M tables unit :=
  normalized ← denied (pureM (NormalizeCertificateSerial serial));
  checkM (db_done || is_err (Scope_Validate s) || (expires <=? db_now)%Z) ErrDenied ;;
  denied (WithTenantTx (
    ok ← query SelectNode (fun t => admitted t s normalized expires (db_clock SelectNode));
    checkM (negb ok) ErrDenied)).

(** ** Revocation *)

Definition revoke_node (s : Scope) (t : tables) : tables :=
  match scope_node t s with
  | Some row => with_nodes t (<[node_key s := mkNode (no_TargetID row) (no_Runtime row) (no_Serial row) (no_ExpiresAt row) true]> (tb_Nodes t))
  | None => t
  end.

Definition revoke_overlap (s : Scope) (t : tables) : tables :=
  with_overlaps t (alter (fun row => mkOverlap (ov_Serial row) (ov_ExpiresAt row) (ov_AdmitUntil row) true) (node_key s) (tb_Overlaps t)).

Definition db_RevokeCertificate (s : Scope) (serial : string) : M tables unit :=
  normalized ← denied (pureM (NormalizeCertificateSerial serial));
  checkM (db_done || is_err (Scope_Validate s)) ErrDenied ;;
  WithTenantTx (
    current ← denied (select SelectNode (fun t => scope_node t s ≫= no_Serial));
    current ← denied (pureM (NormalizeCertificateSerial current));
    if current != normalized then
      overlap ← denied (query UpdateOverlap (fun t => tb_Overlaps t !! node_key s));
      checkM (negb (match overlap with Some row => ov_Serial row == normalized | None => false end)) ErrDenied ;;
      change UpdateOverlap (revoke_overlap s)
    else denied (change UpdateNode (revoke_node s))).

Definition db_RevokeCurrent (s : Scope) : M tables string :=
  checkM (db_done || is_err (Scope_Validate s)) ErrDenied ;;
  denied (WithTenantTx (
    serial ← denied (select SelectNode (fun t => scope_node t s ≫= no_Serial));
    checkM (TrimSpace serial == "") ErrDenied ;;
    normalized ← denied (pureM (NormalizeCertificateSerial serial));
    change UpdateNode (revoke_node s) ;;
    change UpdateOverlap (revoke_overlap s) ;;
    mret normalized)).

(** ** Status *)

Definition db_Status (s : Scope) : M tables NodeStatus :=
  checkM (db_done || is_err (Scope_Validate s)) ErrDenied ;;
  denied (WithTenantTx (
    row ← select SelectNode (fun t => scope_node t s);
    match no_Serial row, no_ExpiresAt row with
    | Some serial, Some expires =>
        normalized ← denied (pureM (NormalizeCertificateSerial serial));
        mret (mkStatus true (no_Revoked row) normalized expires)
    | _, _ => mret (mkStatus false (no_Revoked row) "" 0%Z)
    end)).

Definition connector_registry (trust : option (result error (option (list cert_info)))) (t : tables) : NodeRegistry :=
  mkNodeRegistry (fun s serial expires => snd (db_AdmitCertificate s serial expires t)) trust.
End store.

(** ** The interface it implements

    Each call of the authority meets the database in a state of its own. *)
Definition connector_store (at_call : string -> Database) : Store tables :=
  mkStore tables (db_Create (db := at_call "create")) (db_Consume (db := at_call "consume"))
    (db_RecordIssued (db := at_call "record")) (Some (db_CreateRenewal (db := at_call "renew")))
    (Some (db_Status (db := at_call "status"), db_RevokeCurrent (db := at_call "revoke"))).
