(* ===== verification/EnrollmentFacts.v ===== *)
(** * Properties of the enrolment

    Every transaction of the store is one of a few guarded changes; what holds
    of those holds of every sequence of transactions, whatever statements and
    commits fail: a grant is used once, what is admitted was issued under a
    grant for the same node, and a revocation is final. *)

From Stdlib Require Import Strings.String.
From S2P Require Import Prelude GoStrings StableId Base64 Sha256 Effects UpdatePlan OrgConfig CSR Enrollment EnrollmentStore.

(** ** Serial numbers *)

Lemma all_bytes_has f s c : all_bytes f s = true -> has_byte c s = true -> f c = true.
Proof.
  induction s as [|x s IH]; simpl; [done|]. rewrite andb_true_iff, orb_true_iff, bool_decide_eq_true.
  intros [Hx Hs] [->|Hc]; [done|by apply IH].
Qed.

Lemma lower_hex_plain c : is_lower_hex c = true ->
  lower_byte c = c /\ c <> ":"%char /\ starts_with c (bytes [196; 176]) = false /\ starts_with c (bytes [226; 132; 170]) = false.
Proof.
  intros Hc.
  assert (forallb (fun n => let c := ascii_of_nat n in negb (is_lower_hex c) ||
    (bool_decide (lower_byte c = c) && (c != ":"%char) && negb (starts_with c (bytes [196; 176])) &&
     negb (starts_with c (bytes [226; 132; 170])))) (seq 0 256) = true) as H by (vm_compute; reflexivity).
  rewrite List.forallb_forall in H. specialize (H (nat_of_ascii c)). cbv beta zeta in H.
  rewrite ascii_nat_embedding, Hc in H. cbn [negb orb] in H.
  pose proof (nat_ascii_bounded c). specialize (H ltac:(apply in_seq; lia)).
  rewrite !andb_true_iff, !negb_true_iff, bool_decide_eq_true, bool_decide_eq_false in H. naive_solver.
Qed.

Lemma strip_prefix_head p c s : p <> "" -> starts_with c p = false -> strip_prefix p (String c s) = None.
Proof. destruct p as [|x p]; [done|]. simpl. intros _ Hx%bool_decide_eq_false. by rewrite decide_False. Qed.

Lemma ToLower_hex s : all_bytes is_lower_hex s = true -> ToLower s = s.
Proof.
  intros Hs. unfold ToLower, strlen. induction s as [|c s IH]; [done|]. cbn [all_bytes] in Hs.
  apply andb_true_iff in Hs as [Hc Hs]. destruct (lower_hex_plain c Hc) as (Hl & _ & H1 & H2).
  cbn [String.length lower_fuel]. rewrite !strip_prefix_head, Hl by done. by rewrite (IH Hs).
Qed.

Lemma plain_serial_hex s : all_bytes is_lower_hex s = true -> plain_serial s = s.
Proof.
  intros Hs. unfold plain_serial. rewrite ToLower_hex by done. induction s as [|c s IH]; [done|]. cbn [all_bytes] in Hs.
  apply andb_true_iff in Hs as [Hc Hs]. destruct (lower_hex_plain c Hc) as (_ & Hne & _). cbn [remove_byte].
  rewrite bool_decide_eq_false_2 by done. by rewrite IH.
Qed.

Lemma TrimLeftZero_idem s : TrimLeftZero (TrimLeftZero s) = TrimLeftZero s.
Proof.
  induction s as [|c s IH]; [done|]. simpl. destruct (c == "0"%char) eqn:Hc; [done|]. simpl. by rewrite Hc.
Qed.

(** A normal form. *)
Lemma Normalize_fix raw serial :
  NormalizeCertificateSerial raw = Ok serial ->
  TrimLeftZero (plain_serial serial) = serial /\ NormalizeCertificateSerial serial = Ok serial.
Proof.
  unfold NormalizeCertificateSerial. rewrite reject_seq_Ok, negb_false_iff. intros [Hc [= <-]].
  pose proof Hc as Hx. unfold certificateSerial in Hx. rewrite !andb_true_iff in Hx. destruct Hx as [_ Hx].
  rewrite (plain_serial_hex _ Hx), TrimLeftZero_idem, Hc. done.
Qed.

(** ** Transactions *)

Section transactions.
Context {db : Database}.

Lemma run_query {A} s (read : tables -> A) t (Q : A -> tables -> Prop) (X : tables -> Prop) :
  Q (read t) t -> X t -> run (query s read) t Q X.
Proof. unfold run, query. by destruct (db_fault s). Qed.

Lemma run_change s write t (Q : unit -> tables -> Prop) (X : tables -> Prop) :
  Q tt (write t) -> X t -> run (change s write) t Q X.
Proof. unfold run, change. by destruct (db_fault s). Qed.

Lemma run_select {A} s (read : tables -> option A) t (Q : A -> tables -> Prop) (X : tables -> Prop) :
  (forall a, read t = Some a -> Q a t) -> X t -> run (select s read) t Q X.
Proof.
  intros HQ HX. unfold select. apply run_bind, run_query; [|done]. apply run_pure. unfold requireM.
  destruct (read t); [by apply HQ|done].
Qed.

Lemma run_guarded c e t (Q : unit -> tables -> Prop) (X : tables -> Prop) :
  (c = false -> Q tt t) -> (c = true -> X t) -> run (checkM c e) t Q X.
Proof. intros HQ HX. apply run_pure. destruct c; simpl; auto. Qed.

(** A transaction that fails leaves the tables, or its commit was applied. *)
Lemma run_tx {A} (fn : M tables A) t (Q : A -> tables -> Prop) (X : tables -> Prop) :
  run fn t Q (fun _ => True) -> X t -> (forall a t', Q a t' -> X t') -> run (WithTenantTx fn) t Q X.
Proof.
  unfold run, WithTenantTx. intros HQ HX Hc. destruct (db_fault Begin); [done|]. destruct (db_fault SetTenant); [done|].
  destruct (fn t) as [t' [a|e]]; [|done]. destruct db_commit as [[err [|]]|]; [by eapply Hc|done|done].
Qed.
End transactions.

(** ** What a transaction does to the tables *)

Definition row_scope (row : grant_row) : Scope := mkScope (gw_TenantID row) (gw_TargetID row) (gw_NodeID row) (gw_Runtime row).

Definition fresh_grant (g : Grant) (previous : option string) : grant_row :=
  let s := gr_Scope g in
  mkGrantRow (sc_TenantID s) (sc_TargetID s) (sc_NodeID s) (sc_Runtime s) (gr_NonceDigest g) (gr_ExpiresAt g)
    (Z.quot (gr_CertificateTTL g) Second) previous None None.

Definition add_grant (g : Grant) (previous : option string) (t : tables) : tables :=
  with_grants t (<[gr_TokenDigest g := fresh_grant g previous]> (tb_Grants t)).

Inductive store_op : Type :=
| OpCreate (g : Grant)
| OpRenew (g : Grant)
| OpConsume (s : Scope) (token nonce csr : string) (now : Z)
| OpRecord (s : Scope) (token serial : string) (expires : Z)
| OpAdmit (s : Scope) (serial : string) (expires : Z)
| OpRevoke (s : Scope) (serial : string)
| OpRevokeCurrent (s : Scope)
| OpStatus (s : Scope).

Inductive effect (t : tables) : store_op -> tables -> Prop :=
| eff_none op : effect t op t
| eff_create g :
    tb_Grants t !! gr_TokenDigest g = None ->
    (exists row, tb_Nodes (insert_node (gr_Scope g) t) !! node_key (gr_Scope g) = Some row /\ no_Serial row = None) ->
    effect t (OpCreate g) (add_grant g None (insert_node (gr_Scope g) t))
| eff_renew g row previous :
    tb_Grants t !! gr_TokenDigest g = None -> scope_node t (gr_Scope g) = Some row -> no_Serial row = Some previous ->
    no_Revoked row = false -> effect t (OpRenew g) (add_grant g (Some previous) t)
| eff_consume s token nonce csr now row clock :
    tb_Grants t !! token = Some row -> gw_ConsumedAt row = None -> row_scope row = s -> gw_NonceDigest row = nonce ->
    (now < gw_ExpiresAt row)%Z -> (clock < gw_ExpiresAt row)%Z ->
    effect t (OpConsume s token nonce csr now) (with_grants t (<[token := consumed row clock csr]> (tb_Grants t)))
| eff_first s token raw serial expires grant row :
    NormalizeCertificateSerial raw = Ok serial -> consumed_grant t s token = Some grant -> gw_Previous grant = None ->
    scope_node t s = Some row -> no_Serial row = None ->
    effect t (OpRecord s token raw expires) (set_certificate s serial expires t)
| eff_replace s token raw serial expires grant previous old row oldExpiry until :
    NormalizeCertificateSerial raw = Ok serial -> consumed_grant t s token = Some grant -> gw_Previous grant = Some previous ->
    NormalizeCertificateSerial previous = Ok old -> scope_node t s = Some row -> no_Serial row = Some previous ->
    no_ExpiresAt row = Some oldExpiry -> no_Revoked row = false -> old <> serial ->
    effect t (OpRecord s token raw expires)
      (set_certificate s serial expires (with_overlaps t (<[node_key s := mkOverlap old oldExpiry until false]> (tb_Overlaps t))))
| eff_revoke s serial row :
    scope_node t s = Some row -> is_Some (no_Serial row) -> effect t (OpRevoke s serial) (revoke_node s t)
| eff_revoke_overlap s serial : effect t (OpRevoke s serial) (revoke_overlap s t)
| eff_revoke_current s row :
    scope_node t s = Some row -> is_Some (no_Serial row) -> effect t (OpRevokeCurrent s) (revoke_overlap s (revoke_node s t)).

(** ** The transactions have these effects *)

Section effects.
Context {db : Database}.

(** Steps through a transaction: its reads, its checks and its changes. *)
Ltac tx_step :=
  lazymatch goal with
  | |- run (_ ≫= _) _ _ _ => apply run_bind
  | |- run (denied _) _ _ _ => apply run_wrap
  | |- run (query _ _) _ _ _ => apply run_query; [|done]
  | |- run (change _ _) _ _ _ => apply run_change; [|done]
  | |- run (select _ _) _ _ _ => apply run_select; [let a := fresh "row" in let H := fresh "Hrow" in intros a H|done]
  | |- run (checkM _ _) _ _ _ => apply run_guarded; [let H := fresh "Hcheck" in intros H|done]
  end.

(** The checks before a transaction. *)
Ltac tx_guard := apply run_bind; apply run_guarded; [intros _|intros _; apply eff_none].

Lemma run_no_pending s t (Q : unit -> tables -> Prop) : Q tt t -> run (no_pending s) t Q (fun _ => True).
Proof. intros HQ. unfold no_pending. do 2 tx_step. by tx_step. Qed.

Lemma run_insert_grant g previous t (Q : unit -> tables -> Prop) :
  (tb_Grants t !! gr_TokenDigest g = None -> Q tt (add_grant g previous t)) ->
  run (insertConnectorGrant g previous) t Q (fun _ => True).
Proof.
  intros HQ. unfold insertConnectorGrant. do 2 tx_step. tx_step. tx_step. tx_step. apply HQ.
  rewrite !orb_false_iff, bool_decide_eq_false in Hcheck. destruct Hcheck as [[Hn _] _].
  by apply eq_None_not_Some.
Qed.

Lemma scope_node_Some t s row :
  scope_node t s = Some row ->
  tb_Nodes t !! node_key s = Some row /\ no_TargetID row = sc_TargetID s /\ no_Runtime row = sc_Runtime s.
Proof.
  unfold scope_node. destruct (tb_Nodes t !! node_key s) as [r|]; [|done].
  destruct ((no_TargetID r == sc_TargetID s) && (no_Runtime r == sc_Runtime s)) eqn:H; [|done]. intros [= ->].
  apply andb_true_iff in H as [H1%bool_decide_eq_true H2%bool_decide_eq_true]. done.
Qed.

Lemma active_Some row clock :
  active row clock = true -> no_Revoked row = false /\ exists expires, no_ExpiresAt row = Some expires /\ (clock < expires)%Z.
Proof.
  unfold active. rewrite !andb_true_iff, negb_true_iff. intros [[_ Hr] He]. split; [done|].
  destruct (no_ExpiresAt row) as [expires|]; [|done]. exists expires. split; [done|lia].
Qed.

Lemma Create_effect g t : run (db_Create g) t (fun _ => effect t (OpCreate g)) (effect t (OpCreate g)).
Proof.
  unfold db_Create. tx_guard. apply run_tx; [|apply eff_none|done]. do 2 tx_step. tx_step. tx_step. tx_step. tx_step.
  tx_step. apply run_no_pending. apply run_insert_grant. intros Hn. apply eff_create.
  - revert Hn. unfold insert_node. by destruct (tb_Nodes t !! _).
  - exists row. split; [done|]. rewrite !orb_false_iff, bool_decide_eq_false in Hcheck. destruct Hcheck as [[Hs _] _].
    by apply eq_None_not_Some.
Qed.

Lemma CreateRenewal_effect g t : run (db_CreateRenewal g) t (fun _ => effect t (OpRenew g)) (effect t (OpRenew g)).
Proof.
  unfold db_CreateRenewal. tx_guard. apply run_tx; [|apply eff_none|done]. do 3 tx_step.
  destruct (scope_node t (gr_Scope g)) as [node|] eqn:Hs; [|done]. destruct (active node _) eqn:Ha; [|done].
  tx_step. apply run_no_pending. apply run_insert_grant. intros Hn. apply active_Some in Ha as [Hrev _]. by eapply eff_renew.
Qed.

Lemma Consume_effect s token nonce csr now t :
  run (db_Consume s token nonce csr now) t (fun _ => effect t (OpConsume s token nonce csr now))
    (effect t (OpConsume s token nonce csr now)).
Proof.
  unfold db_Consume. tx_guard. apply run_wrap. apply run_tx; [|apply eff_none|done]. cbv zeta. do 2 tx_step.
  tx_step. tx_step. apply run_ret. destruct (tb_Grants t !! token) as [r|] eqn:Ht; [|done].
  destruct (consumable t s nonce now (db_clock UpdateGrant) r) eqn:Hc; [|done]. injection Hrow as ->.
  unfold consumable in Hc. rewrite !andb_true_iff, !bool_decide_eq_true in Hc.
  destruct Hc as [[[[[[[Hn Htg] Hno] Hru] Hte] Hcon] He] _]. apply eff_consume; [done..| |done|lia|lia].
  unfold row_scope. rewrite Htg, Hno, Hru, Hte. by destruct s.
Qed.

Lemma Record_effect s token raw expires t :
  run (db_RecordIssued s token raw expires) t (fun _ => effect t (OpRecord s token raw expires)) (effect t (OpRecord s token raw expires)).
Proof.
  unfold db_RecordIssued. tx_step. apply run_wrap, run_pure. destruct (NormalizeCertificateSerial raw) as [serial|e] eqn:Hn; [|apply eff_none].
  tx_guard. apply run_tx; [|apply eff_none|done]. do 3 tx_step. rename row into grant. destruct (gw_Previous grant) as [previous|] eqn:Hp.
  - unfold recordConnectorRenewal. tx_step. apply run_wrap, run_pure. destruct (NormalizeCertificateSerial previous) as [old|e] eqn:Ho; [|done].
    tx_step. tx_step. do 3 tx_step. rename row into oldExpiry. destruct (scope_node t s) as [node|] eqn:Hs; [|done].
    destruct ((no_Serial node == Some previous) && active node _) eqn:Ha; [|done]. cbv zeta. tx_step. tx_step. tx_step.
    apply andb_true_iff in Ha as [Hser%bool_decide_eq_true [Hrev _]%active_Some]. apply bool_decide_eq_false in Hcheck.
    by eapply eff_replace.
  - unfold record_first. do 2 tx_step. tx_step. tx_step. tx_step. destruct (scope_node t s) as [node|] eqn:Hs; [|done].
    apply negb_false_iff, bool_decide_eq_true in Hcheck. by eapply eff_first.
Qed.

Lemma Admit_effect s serial expires t :
  run (db_AdmitCertificate s serial expires) t (fun _ => effect t (OpAdmit s serial expires)) (effect t (OpAdmit s serial expires)).
Proof.
  unfold db_AdmitCertificate. tx_step. apply run_wrap, run_pure. destruct (NormalizeCertificateSerial serial); [|apply eff_none].
  tx_guard. apply run_wrap. apply run_tx; [|apply eff_none|done]. do 2 tx_step. tx_step. apply eff_none.
Qed.

Lemma Revoke_effect s serial t : run (db_RevokeCertificate s serial) t (fun _ => effect t (OpRevoke s serial)) (effect t (OpRevoke s serial)).
Proof.
  unfold db_RevokeCertificate. tx_step. apply run_wrap, run_pure. destruct (NormalizeCertificateSerial serial) as [n|]; [|apply eff_none].
  tx_guard. apply run_tx; [|apply eff_none|done]. do 3 tx_step. tx_step. apply run_wrap, run_pure.
  destruct (NormalizeCertificateSerial row) as [current|]; [|done]. destruct (current != n).
  - do 3 tx_step. tx_step. tx_step. tx_step. apply eff_revoke_overlap.
  - do 2 tx_step. apply bind_Some in Hrow as (node & Hs & Hser). eapply eff_revoke; [exact Hs|by eexists].
Qed.

Lemma RevokeCurrent_effect s t : run (db_RevokeCurrent s) t (fun _ => effect t (OpRevokeCurrent s)) (effect t (OpRevokeCurrent s)).
Proof.
  unfold db_RevokeCurrent. tx_guard. apply run_wrap. apply run_tx; [|apply eff_none|done]. do 3 tx_step. tx_step. tx_step.
  tx_step. apply run_wrap, run_pure. destruct (NormalizeCertificateSerial row); [|done]. do 4 tx_step.
  apply run_ret. apply bind_Some in Hrow as (node & Hs & Hser). eapply eff_revoke_current; [exact Hs|by eexists].
Qed.

Lemma Status_effect s t : run (db_Status s) t (fun _ => effect t (OpStatus s)) (effect t (OpStatus s)).
Proof.
  unfold db_Status. tx_guard. apply run_wrap. apply run_tx; [|apply eff_none|done]. do 2 tx_step.
  destruct (no_Serial row) as [serial|], (no_ExpiresAt row); try apply eff_none. tx_step. apply run_wrap, run_pure.
  destruct (NormalizeCertificateSerial serial); [apply eff_none|done].
Qed.
End effects.

(** ** Sequences of transactions *)

(** The tables after an operation, whatever its outcome. *)
Definition perform (db : Database) (op : store_op) (t : tables) : tables :=
  match op with
  | OpCreate g => fst (db_Create g t)
  | OpRenew g => fst (db_CreateRenewal g t)
  | OpConsume s token nonce csr now => fst (db_Consume s token nonce csr now t)
  | OpRecord s token serial expires => fst (db_RecordIssued s token serial expires t)
  | OpAdmit s serial expires => fst (db_AdmitCertificate s serial expires t)
  | OpRevoke s serial => fst (db_RevokeCertificate s serial t)
  | OpRevokeCurrent s => fst (db_RevokeCurrent s t)
  | OpStatus s => fst (db_Status s t)
  end.

Lemma run_fst {A} (m : M tables A) t (P : tables -> Prop) : run m t (fun _ => P) P -> P (fst (m t)).
Proof. unfold run. by destruct (m t) as [t' [a|e]]. Qed.

Lemma perform_effect db op t : effect t op (perform db op t).
Proof.
  destruct op; simpl; apply run_fst;
    auto using Create_effect, CreateRenewal_effect, Consume_effect, Record_effect, Admit_effect, Revoke_effect, RevokeCurrent_effect, Status_effect.
Qed.

Definition no_tables : tables := mkTables ∅ ∅ ∅.

(** The tables some transactions lead to from [t]. *)
Inductive reaches (t : tables) : list store_op -> tables -> Prop :=
| reaches_start : reaches t [] t
| reaches_op ops t' db op : reaches t ops t' -> reaches t (ops ++ [op]) (perform db op t').

(** What every transaction keeps, every sequence keeps. *)
Lemma reaches_keeps (I : tables -> Prop) t ops t' :
  (forall t op t', I t -> effect t op t' -> I t') -> reaches t ops t' -> I t -> I t'.
Proof. intros HI. induction 1 as [|ops t' db op _ IH]; [done|]. intros Ht. eapply HI; [by apply IH|apply perform_effect]. Qed.

(** ** Revocation *)

Definition node_revoked (key : string * string) (t : tables) : Prop :=
  exists row, tb_Nodes t !! key = Some row /\ no_Revoked row = true.

Lemma insert_node_keeps s t key row : tb_Nodes t !! key = Some row -> tb_Nodes (insert_node s t) !! key = Some row.
Proof.
  intros Hk. unfold insert_node. destruct (tb_Nodes t !! node_key s) as [r|] eqn:Hs; [done|]. simpl.
  rewrite lookup_insert_ne; [done|]. intros <-. congruence.
Qed.

(** The nodes after their row is rewritten. *)
Lemma set_certificate_nodes s serial expires t row key :
  scope_node t s = Some row ->
  tb_Nodes (set_certificate s serial expires t) !! key =
  (if decide (node_key s = key) then Some (mkNode (no_TargetID row) (no_Runtime row) (Some serial) (Some expires) (no_Revoked row))
   else tb_Nodes t !! key).
Proof. intros Hs. unfold set_certificate. rewrite Hs. simpl. by rewrite lookup_insert. Qed.

Lemma revoke_node_nodes s t key row :
  tb_Nodes t !! key = Some row ->
  exists row', tb_Nodes (revoke_node s t) !! key = Some row' /\ no_TargetID row' = no_TargetID row /\ no_Runtime row' = no_Runtime row /\
    no_Serial row' = no_Serial row /\ no_ExpiresAt row' = no_ExpiresAt row /\ (no_Revoked row = true -> no_Revoked row' = true).
Proof.
  intros Hk. unfold revoke_node. destruct (scope_node t s) as [r|] eqn:Hs; [|by exists row]. apply scope_node_Some in Hs as (Hs & _ & _).
  simpl. rewrite lookup_insert. case_decide as Hd; [|by exists row]. subst key. rewrite Hs in Hk. injection Hk as ->. by eexists.
Qed.

Lemma effect_revoked key t op t' : node_revoked key t -> effect t op t' -> node_revoked key t'.
Proof.
  intros (row & Hk & Hr) He. destruct He; try (by exists row).
  - exists row. split; [|done]. by apply insert_node_keeps.
  - unfold node_revoked. erewrite set_certificate_nodes by done. case_decide; [|by exists row]. subst key.
    apply scope_node_Some in H2 as (H2 & _ & _). rewrite H2 in Hk. injection Hk as ->. by eexists.
  - unfold node_revoked. erewrite set_certificate_nodes by exact H3. case_decide; [|by exists row]. subst key.
    apply scope_node_Some in H3 as (H3 & _ & _). rewrite H3 in Hk. injection Hk as ->. by eexists.
  - destruct (revoke_node_nodes s t key row Hk) as (row' & Hk' & _ & _ & _ & _ & Hr'). exists row'. auto.
  - destruct (revoke_node_nodes s t key row Hk) as (row' & Hk' & _ & _ & _ & _ & Hr'). exists row'. auto.
Qed.

Lemma RevokeCurrent_revoked `{Database} s t :
  run (db_RevokeCurrent s) t (fun _ => node_revoked (node_key s)) (fun _ => True).
Proof.
  unfold db_RevokeCurrent. apply run_bind, run_guarded; [intros _|done]. apply run_wrap. apply run_tx; [|done..].
  apply run_bind, run_wrap, run_select; [|done]. intros serial Hrow. apply run_bind, run_guarded; [intros _|done].
  apply run_bind, run_wrap, run_pure. destruct (NormalizeCertificateSerial serial); [|done].
  apply run_bind, run_change; [|done]. apply run_bind, run_change; [|done]. apply run_ret.
  apply bind_Some in Hrow as (row & Hs & _). unfold node_revoked, revoke_overlap, revoke_node. rewrite Hs. simpl.
  eexists. split; [apply lookup_insert_eq|done].
Qed.

(** A revoked node is denied, whatever it presents. *)
Lemma revoked_denied `{Database} s serial expires t :
  node_revoked (node_key s) t -> is_ok (snd (db_AdmitCertificate s serial expires t)) = false.
Proof.
  intros (row & Hk & Hr).
  assert (forall serial expires clock, admitted t s serial expires clock = false) as Ha.
  { intros. unfold admitted, scope_node. rewrite Hk. destruct (_ && _); [|done]. by rewrite Hr. }
  assert (run (db_AdmitCertificate s serial expires) t (fun _ _ => False) (fun _ => True)) as Hrun.
  { unfold db_AdmitCertificate. apply run_bind, run_wrap, run_pure. destruct (NormalizeCertificateSerial serial); [|done].
    apply run_bind, run_guarded; [intros _|done]. apply run_wrap. apply run_tx; [|done..]. apply run_bind, run_query; [|done].
    apply run_guarded; [|done]. by rewrite Ha. }
  unfold run in Hrun. by destruct (db_AdmitCertificate s serial expires t) as [t' [a|e]].
Qed.

(** C23: A node that was disconnected is never admitted again: once its current
    certificate is revoked, no sequence of enrolments, renewals and revocations,
    with whatever failures of the database, lets a TLS peer be admitted as this
    node, under any scope with its tenant and name. *)
Theorem revocation_final `{X509} db s t t1 serial ops t2 :
  db_RevokeCurrent (db := db) s t = (t1, Ok serial) -> reaches t1 ops t2 ->
  forall (db' : Database) (env' : Env) (trust : option (result error (option (list cert_info)))) connection s',
    node_key s' = node_key s ->
    is_ok (AdmitTLSNode connection s' (Some (connector_registry (db := db') trust t2))) = false.
Proof.
  intros Hrev Hre db' env' trust connection s' Hkey.
  pose proof (run_intro _ _ _ _ _ _ (RevokeCurrent_revoked (H := db) s t) Hrev) as H1. simpl in H1.
  pose proof (reaches_keeps _ _ _ _ (effect_revoked (node_key s)) Hre H1) as H2. rewrite <- Hkey in H2.
  destruct (AdmitTLSNode _ _ _) as [[]|e] eqn:Hadmit; [|done]. unfold AdmitTLSNode in Hadmit. apply reject_seq_Ok in Hadmit as [_ Hadmit].
  destruct (co_PeerCertificates connection) as [|[leaf|] rest]; [done| |done]. cbv zeta in Hadmit. inv_ok Hadmit.
  apply wrap_err_Ok in Hr1. simpl in Hr1.
  pose proof (revoked_denied (H := db') s' x0 (ce_NotAfter leaf) t2 H2) as Hd. by rewrite Hr1 in Hd.
Qed.

(** ** Grants are used once *)

Definition grant_spent (token : string) (t : tables) : Prop :=
  exists row, tb_Grants t !! token = Some row /\ is_Some (gw_ConsumedAt row).

Lemma insert_node_grants s t : tb_Grants (insert_node s t) = tb_Grants t.
Proof. unfold insert_node. by destruct (tb_Nodes t !! _). Qed.

Lemma set_certificate_grants s serial expires t : tb_Grants (set_certificate s serial expires t) = tb_Grants t.
Proof. unfold set_certificate. by destruct (scope_node t s). Qed.

Lemma revoke_node_grants s t : tb_Grants (revoke_node s t) = tb_Grants t.
Proof. unfold revoke_node. by destruct (scope_node t s). Qed.

(** What happens to a grant: nothing, or it is consumed. *)
Lemma effect_grant t op t' token row :
  effect t op t' -> tb_Grants t !! token = Some row ->
  tb_Grants t' !! token = Some row \/
  exists s nonce csr now clock, op = OpConsume s token nonce csr now /\ tb_Grants t' !! token = Some (consumed row clock csr).
Proof.
  intros He Hr. destruct He; rewrite ?set_certificate_grants, ?revoke_node_grants; try (by left); simpl.
  - left. rewrite lookup_insert_ne; [by rewrite insert_node_grants|]. intros <-. congruence.
  - left. rewrite lookup_insert_ne; [done|]. intros <-. congruence.
  - destruct (decide (token0 = token)) as [->|]; [|left; by rewrite lookup_insert_ne]. right.
    rewrite lookup_insert_eq. assert (row0 = row) as -> by congruence. by eexists _, _, _, _, _.
  - left. by rewrite revoke_node_grants.
Qed.

Lemma effect_spent token t op t' : grant_spent token t -> effect t op t' -> grant_spent token t'.
Proof.
  intros (row & Hr & Hc) He. destruct (effect_grant _ _ _ _ _ He Hr) as [Hr'|(s & nonce & csr & now & clock & _ & Hr')].
  - by exists row.
  - exists (consumed row clock csr). split; [done|]. by eexists.
Qed.

Lemma Consume_run `{Database} s token nonce csr now t :
  run (db_Consume s token nonce csr now) t
    (fun g t' => exists row clock, tb_Grants t !! token = Some row /\ gw_ConsumedAt row = None /\
       consumable t s nonce now clock row = true /\
       t' = with_grants t (<[token := consumed row clock csr]> (tb_Grants t)) /\
       g = mkGrant s token nonce (gw_ExpiresAt row) (gw_TTLSeconds row * Second)%Z) (fun _ => True).
Proof.
  unfold db_Consume. apply run_bind, run_guarded; [intros _|done]. apply run_wrap. apply run_tx; [|done..]. cbv zeta.
  apply run_bind, run_select; [|done]. intros row Hrow. apply run_bind, run_change; [|done]. apply run_ret.
  destruct (tb_Grants t !! token) as [r|] eqn:Ht; [|done]. destruct (consumable t s nonce now (db_clock UpdateGrant) r) eqn:Hc; [|done].
  injection Hrow as ->. exists row, (db_clock UpdateGrant). split_and!; try done.
  unfold consumable in Hc. rewrite !andb_true_iff, !bool_decide_eq_true in Hc. naive_solver.
Qed.

(** C24: An authorisation is good for one enrolment: once its grant was consumed,
    whatever follows and fails, it is never consumed again, for no scope, nonce
    and key. *)
Theorem grant_single_use db s token nonce csr now t t1 g ops t2 :
  db_Consume (db := db) s token nonce csr now t = (t1, Ok g) -> reaches t1 ops t2 ->
  forall db' s' nonce' csr' now',
    snd (db_Consume (db := db') s' token nonce' csr' now' t2) = Err ErrDenied.
Proof.
  intros Hcon Hre db' s' nonce' csr' now'.
  pose proof (run_intro _ _ _ _ _ _ (Consume_run (H := db) s token nonce csr now t) Hcon) as (row & clock & _ & _ & _ & -> & _).
  assert (grant_spent token t2) as (row2 & Hr2 & [c Hc2]).
  { apply (reaches_keeps _ _ _ _ (effect_spent token) Hre). exists (consumed row clock csr). simpl. by rewrite lookup_insert_eq; eauto. }
  pose proof (Consume_run (H := db') s' token nonce' csr' now' t2) as Hrun. unfold run in Hrun.
  destruct (db_Consume s' token nonce' csr' now' t2) as [t' [a|e]] eqn:He; [|].
  - destruct Hrun as (row' & _ & Hr' & Hn & _). congruence.
  - revert He. unfold db_Consume, mbind, M_bind, checkM, pureM. destruct (reject _ _) as [[]|e'] eqn:Hrj.
    + unfold denied, wrapM. destruct (WithTenantTx _ t2) as [? [?|?]]; by intros [= _ <-].
    + unfold reject in Hrj. destruct (is_err _); [|done]. by injection Hrj as <-; intros [= _ <-].
Qed.

(** ** Where an admitted certificate comes from *)

Definition created (ops : list store_op) (s : Scope) (token : string) : Prop :=
  exists g, (OpCreate g ∈ ops \/ OpRenew g ∈ ops) /\ gr_Scope g = s /\ gr_TokenDigest g = token.

Definition used (ops : list store_op) (s : Scope) (token : string) : Prop :=
  exists nonce csr now, OpConsume s token nonce csr now ∈ ops.

(** The certificate was recorded for the scope under a grant that was created
    for this scope and consumed by it. *)
Definition issued_to (ops : list store_op) (s : Scope) (serial : string) (expires : Z) : Prop :=
  exists token raw, OpRecord s token raw expires ∈ ops /\ NormalizeCertificateSerial raw = Ok serial /\
    created ops s token /\ used ops s token.

Definition node_scope (key : string * string) (row : node_row) : Scope := mkScope key.1 (no_TargetID row) key.2 (no_Runtime row).

Record accounted (ops : list store_op) (t : tables) : Prop := mkAccounted {
  acc_grants : forall token row, tb_Grants t !! token = Some row ->
    created ops (row_scope row) token /\ (is_Some (gw_ConsumedAt row) -> used ops (row_scope row) token);
  acc_nodes : forall key row serial, tb_Nodes t !! key = Some row -> no_Serial row = Some serial ->
    exists expires, no_ExpiresAt row = Some expires /\ issued_to ops (node_scope key row) serial expires;
  acc_overlaps : forall key overlap, tb_Overlaps t !! key = Some overlap ->
    exists row, tb_Nodes t !! key = Some row /\ issued_to ops (node_scope key row) (ov_Serial overlap) (ov_ExpiresAt overlap) }.

Lemma created_mono ops op s token : created ops s token -> created (ops ++ [op]) s token.
Proof. intros (g & [Hg|Hg] & H); exists g; (split; [|done]); [left|right]; apply elem_of_app; by left. Qed.

Lemma used_mono ops op s token : used ops s token -> used (ops ++ [op]) s token.
Proof. intros (n & c & w & H). exists n, c, w. apply elem_of_app. by left. Qed.

Lemma issued_to_mono ops op s serial expires : issued_to ops s serial expires -> issued_to (ops ++ [op]) s serial expires.
Proof.
  intros (token & raw & Hr & Hn & Hc & Hu). exists token, raw. split_and!; [|done| |].
  - apply elem_of_app. by left.
  - by apply created_mono.
  - by apply used_mono.
Qed.

Lemma accounted_mono ops op t : accounted ops t -> accounted (ops ++ [op]) t.
Proof.
  intros [Hg Hn Ho]. constructor.
  - intros token row Hr. destruct (Hg token row Hr) as [Hc Hu]. split; [by apply created_mono|]. intros Hs. by apply used_mono, Hu.
  - intros key row serial Hk Hs. destruct (Hn key row serial Hk Hs) as (expires & He & Hi). exists expires. by auto using issued_to_mono.
  - intros key ov Hk. destruct (Ho key ov Hk) as (row & Hr & Hi). exists row. by auto using issued_to_mono.
Qed.

Lemma accounted_insert_node ops s t : accounted ops t -> accounted ops (insert_node s t).
Proof.
  intros [Hg Hn Ho]. constructor.
  - by rewrite insert_node_grants.
  - intros key row serial. unfold insert_node. destruct (tb_Nodes t !! node_key s) as [r|] eqn:Hs; [by apply Hn|]. simpl.
    rewrite lookup_insert. case_decide; [by intros [= <-]|by apply Hn].
  - assert (tb_Overlaps (insert_node s t) = tb_Overlaps t) as -> by (unfold insert_node; by destruct (tb_Nodes t !! _)).
    intros key ov Hk. destruct (Ho key ov Hk) as (row & Hr & Hi). exists row. split; [by apply insert_node_keeps|done].
Qed.

Lemma accounted_add_grant ops g previous t :
  (OpCreate g ∈ ops \/ OpRenew g ∈ ops) -> accounted ops t -> accounted ops (add_grant g previous t).
Proof.
  intros Hin [Hg Hn Ho]. constructor; [|done..]. intros token row. simpl. rewrite lookup_insert. case_decide as Hd; [|by apply Hg].
  intros [= <-]. split; [|by intros [? ?]]. exists g. split_and!; [done| |done]. unfold row_scope, fresh_grant. simpl. by destruct (gr_Scope g).
Qed.

(** Rewriting the certificate of a node. *)
Lemma accounted_set_certificate ops s serial expires t :
  issued_to ops s serial expires -> accounted ops t -> accounted ops (set_certificate s serial expires t).
Proof.
  intros Hi [Hg Hn Ho]. unfold set_certificate. destruct (scope_node t s) as [row|] eqn:Hs; [|done].
  pose proof Hs as (Hk & Ht & Hr)%scope_node_Some. constructor; [done| |].
  - intros key row' serial'. simpl. rewrite lookup_insert. case_decide as Hd; [|by apply Hn]. intros [= <-] [= <-]. subst key.
    exists expires. split; [done|]. unfold node_scope. simpl. rewrite Ht, Hr. by destruct s.
  - intros key ov Hov. destruct (Ho key ov Hov) as (row' & Hr' & Hi'). simpl. rewrite lookup_insert. case_decide as Hd; [|by exists row'].
    subst key. rewrite Hk in Hr'. injection Hr' as <-. by eexists.
Qed.

Lemma accounted_revoke_node ops s t : accounted ops t -> accounted ops (revoke_node s t).
Proof.
  intros [Hg Hn Ho]. unfold revoke_node. destruct (scope_node t s) as [row|] eqn:Hs; [|done].
  apply scope_node_Some in Hs as (Hk & Ht & Hr). constructor; [done| |].
  - intros key row' serial'. simpl. rewrite lookup_insert. case_decide as Hd; [|by apply Hn]. intros [= <-]. subst key.
    by apply (Hn (node_key s) row).
  - intros key ov Hov. destruct (Ho key ov Hov) as (row' & Hr' & Hi'). simpl. rewrite lookup_insert. case_decide as Hd; [|by exists row'].
    subst key. rewrite Hk in Hr'. injection Hr' as <-. by eexists.
Qed.

Lemma accounted_revoke_overlap ops s t : accounted ops t -> accounted ops (revoke_overlap s t).
Proof.
  intros [Hg Hn Ho]. constructor; [done..|]. intros key ov. simpl. rewrite lookup_alter. case_decide as Hd; [|by apply Ho].
  subst key. destruct (tb_Overlaps t !! node_key s) as [ov'|] eqn:Hov; [|done]. intros [= <-]. exact (Ho _ _ Hov).
Qed.

Lemma consumed_grant_Some t s token row :
  consumed_grant t s token = Some row -> tb_Grants t !! token = Some row /\ row_scope row = s /\ is_Some (gw_ConsumedAt row).
Proof.
  unfold consumed_grant. destruct (tb_Grants t !! token) as [r|]; [|done].
  destruct (_ && _ && _ && _ && _) eqn:Hc; [|done]. intros [= ->]. rewrite !andb_true_iff, !bool_decide_eq_true in Hc.
  destruct Hc as [[[[H1 H2] H3] H4] H5]. split_and!; [done| |done]. unfold row_scope. rewrite H1, H2, H3, H4. by destruct s.
Qed.

Lemma accounted_record ops s token raw serial expires grant t :
  NormalizeCertificateSerial raw = Ok serial -> consumed_grant t s token = Some grant -> accounted ops t ->
  issued_to (ops ++ [OpRecord s token raw expires]) s serial expires.
Proof.
  intros Hn (Hg & Hs & Hc)%consumed_grant_Some [Ha _ _]. destruct (Ha _ _ Hg) as [Hcr Hu]. rewrite Hs in Hcr, Hu.
  exists token, raw. split_and!; [|done|by apply created_mono|by apply used_mono, Hu]. apply elem_of_app. right. by left.
Qed.

Lemma node_scope_eq t s row : scope_node t s = Some row -> node_scope (node_key s) row = s.
Proof. intros (_ & Ht & Hr)%scope_node_Some. unfold node_scope. simpl. rewrite Ht, Hr. by destruct s. Qed.

Lemma effect_accounted ops t op t' : accounted ops t -> effect t op t' -> accounted (ops ++ [op]) t'.
Proof.
  intros Hacc He. pose proof (accounted_mono ops op t Hacc) as Hmono.
  assert (op ∈ ops ++ [op]) as Hin by (apply elem_of_app; right; by left). destruct He; try done.
  - apply accounted_add_grant; [by left|]. by apply accounted_insert_node.
  - apply accounted_add_grant; [by right|done].
  - destruct Hmono as [Hg Hn Ho]. constructor; [|done..]. intros token' row'. simpl. rewrite lookup_insert. case_decide as Hd; [|by apply Hg].
    intros [= <-]. subst token'. destruct (Hg _ _ H) as [Hc _]. split; [exact Hc|]. intros _.
    change (row_scope (consumed row clock csr)) with (row_scope row). rewrite H1. by eexists _, _, _.
  - apply accounted_set_certificate; [|done]. by eapply accounted_record.
  - assert (issued_to (ops ++ [OpRecord s token raw expires]) s serial expires) as Hi by by eapply accounted_record.
    apply accounted_set_certificate; [done|]. pose proof Hmono as [Hg Hn Ho].
    destruct (Hn (node_key s) row previous) as (exp & He & Hold); [by apply scope_node_Some in H3 as [? _]|done|].
    rewrite (node_scope_eq _ _ _ H3) in Hold. assert (exp = oldExpiry) as -> by congruence.
    constructor; [done..|]. intros key ov. simpl. rewrite lookup_insert. case_decide as Hd; [|by apply Ho].
    intros [= <-]. subst key. exists row. split; [by apply scope_node_Some in H3 as [? _]|]. rewrite (node_scope_eq _ _ _ H3). simpl.
    destruct Hold as (token' & raw' & Hr & Hnorm & Hcr & Hus). exists token', raw'. split_and!; [done| |done..].
    pose proof (Normalize_fix _ _ Hnorm) as [_ Hfix]. congruence.
  - by apply accounted_revoke_node.
  - by apply accounted_revoke_overlap.
  - by apply accounted_revoke_overlap, accounted_revoke_node.
Qed.

Lemma reaches_accounted ops t : reaches no_tables ops t -> accounted ops t.
Proof.
  induction 1 as [|ops t db op _ IH]; [by constructor|]. eapply effect_accounted; [exact IH|apply perform_effect].
Qed.

(** C25: What is admitted was issued: in every state the transactions lead to, a
    certificate that the registry admits for a scope was recorded for exactly
    that tenant, target, node and runtime, with this serial number and expiry,
    under a grant that was created for the scope and consumed by it. *)
Theorem admission_provenance ops t db s serial expires t' :
  reaches no_tables ops t -> db_AdmitCertificate (db := db) s serial expires t = (t', Ok tt) ->
  exists normalized, NormalizeCertificateSerial serial = Ok normalized /\ issued_to ops s normalized expires.
Proof.
  intros Hre Had. pose proof (reaches_accounted ops t Hre) as [_ Hn Ho].
  assert (run (db_AdmitCertificate s serial expires) t
    (fun _ _ => exists n clock, NormalizeCertificateSerial serial = Ok n /\ admitted t s n expires clock = true) (fun _ => True)) as Hrun.
  { unfold db_AdmitCertificate. apply run_bind, run_wrap, run_pure. destruct (NormalizeCertificateSerial serial) as [n|] eqn:Hnorm; [|done].
    apply run_bind, run_guarded; [intros _|done]. apply run_wrap. apply run_tx; [|done..]. apply run_bind, run_query; [|done].
    apply run_guarded; [|done]. intros Ha%negb_false_iff. by eexists n, _. }
  pose proof (run_intro _ _ _ _ _ _ Hrun Had) as (n & clock & Hnorm & Ha). exists n. split; [done|]. clear Hrun Had.
  unfold admitted in Ha. destruct (scope_node t s) as [row|] eqn:Hs; [|done]. pose proof Hs as (Hk & _ & _)%scope_node_Some.
  apply andb_true_iff in Ha as [_ [Ha|Ha]%orb_true_iff].
  - unfold current_admits in Ha. destruct (no_Serial row) as [current|] eqn:Hc; [|done].
    destruct (Hn _ _ _ Hk Hc) as (exp & He & Hi). rewrite He, !andb_true_iff, bool_decide_eq_true in Ha.
    destruct Ha as [[Hser ->%Z.eqb_eq] _]. rewrite (node_scope_eq _ _ _ Hs) in Hi.
    destruct Hi as (token & raw & Hr & Hfix & Hrest). apply Normalize_fix in Hfix as Hx. destruct Hx as [Hx _].
    assert (current = n) as -> by congruence. by exists token, raw.
  - unfold overlap_admits in Ha. destruct (tb_Overlaps t !! node_key s) as [ov|] eqn:Hov; [|done].
    destruct (Ho _ _ Hov) as (row' & Hr' & Hi). assert (row' = row) as -> by congruence. rewrite (node_scope_eq _ _ _ Hs) in Hi.
    rewrite !andb_true_iff, bool_decide_eq_true in Ha. destruct Ha as [[[H1 H2%Z.eqb_eq] _] _].
    by rewrite H1, H2 in Hi.
Qed.

(** ** Enrolment and admission *)

(** The check of the schema: a revoked node has a certificate. *)
Definition sound_nodes (t : tables) : Prop :=
  forall key row, tb_Nodes t !! key = Some row -> no_Revoked row = true -> is_Some (no_Serial row).

Lemma effect_sound t op t' : sound_nodes t -> effect t op t' -> sound_nodes t'.
Proof.
  intros Ht He. destruct He; try done.
  - intros key row. unfold add_grant, insert_node. destruct (tb_Nodes t !! node_key (gr_Scope g)) as [r|] eqn:Hs; simpl; [by apply Ht|].
    rewrite lookup_insert. case_decide; [by intros [= <-]|by apply Ht].
  - intros key row'. erewrite set_certificate_nodes by done. case_decide; [intros [= <-]; by eexists|by apply Ht].
  - intros key row'. erewrite set_certificate_nodes by exact H3. case_decide; [intros [= <-]; by eexists|by apply Ht].
  - intros key row'. unfold revoke_node. rewrite H. simpl. rewrite lookup_insert. case_decide; [by intros [= <-]|by apply Ht].
  - intros key row'. unfold revoke_overlap, revoke_node. rewrite H. simpl. rewrite lookup_insert. case_decide; [by intros [= <-]|by apply Ht].
Qed.

Lemma reaches_sound ops t : reaches no_tables ops t -> sound_nodes t.
Proof. intros Hr. by apply (reaches_keeps _ _ _ _ effect_sound Hr). Qed.

(** The certificate of a node is this one. *)
Definition holds (t : tables) (s : Scope) (serial : string) (expires : Z) : Prop :=
  exists row, scope_node t s = Some row /\ no_Serial row = Some serial /\ no_ExpiresAt row = Some expires /\ no_Revoked row = false.

Lemma scope_node_set t s serial expires row :
  scope_node t s = Some row ->
  scope_node (set_certificate s serial expires t) s =
    Some (mkNode (no_TargetID row) (no_Runtime row) (Some serial) (Some expires) (no_Revoked row)).
Proof.
  intros Hs. unfold scope_node at 1. erewrite set_certificate_nodes, decide_True by done. simpl.
  apply scope_node_Some in Hs as (_ & -> & ->). by rewrite !bool_decide_eq_true_2.
Qed.

Lemma Record_run `{Database} s token raw expires t :
  sound_nodes t ->
  run (db_RecordIssued s token raw expires) t
    (fun _ t' => tb_Grants t' = tb_Grants t /\ exists serial, NormalizeCertificateSerial raw = Ok serial /\ holds t' s serial expires)
    (fun _ => True).
Proof.
  intros Hsound. unfold db_RecordIssued. apply run_bind, run_wrap, run_pure.
  destruct (NormalizeCertificateSerial raw) as [serial|e] eqn:Hn; [|done]. apply run_bind, run_guarded; [intros _|done].
  apply run_tx; [|done..]. apply run_bind, run_wrap, run_select; [|done]. intros grant _. destruct (gw_Previous grant) as [previous|].
  - unfold recordConnectorRenewal. apply run_bind, run_wrap, run_pure. destruct (NormalizeCertificateSerial previous) as [old|e]; [|done].
    apply run_bind, run_guarded; [intros _|done]. apply run_bind, run_wrap, run_select; [|done]. intros oldExpiry Hrow.
    destruct (scope_node t s) as [node|] eqn:Hs; [|done]. destruct ((no_Serial node == Some previous) && active node _) eqn:Ha; [|done].
    apply andb_true_iff in Ha as [_ [Hrev _]%active_Some]. cbv zeta. apply run_bind, run_change; [|done]. apply run_change; [|done].
    split; [by rewrite set_certificate_grants|]. exists serial. split; [done|]. eexists. split; [by apply scope_node_set|]. by split_and!.
  - unfold record_first. apply run_bind, run_query; [|done]. apply run_bind, run_guarded; [|done]. intros Hc%negb_false_iff.
    apply run_change; [|done]. destruct (scope_node t s) as [node|] eqn:Hs; [|done]. apply bool_decide_eq_true in Hc.
    split; [by rewrite set_certificate_grants|]. exists serial. split; [done|]. eexists. split; [by apply scope_node_set|]. split_and!; [done..|].
    apply scope_node_Some in Hs as (Hk & _ & _). simpl. destruct (no_Revoked node) eqn:Hr; [|done].
    destruct (Hsound _ _ Hk Hr) as [x Hx]. congruence.
Qed.

(** A database that answers before the certificate expires. *)
Definition working (db : Database) (expires : Z) : Prop :=
  @db_done db = false /\ (@db_now db < expires)%Z /\ (forall s, @db_fault db s = None) /\ @db_commit db = None /\
  (@db_clock db SelectNode < expires)%Z.

Lemma holds_admitted (db : Database) t s raw serial expires :
  NormalizeCertificateSerial raw = Ok serial -> Scope_Validate s = Ok tt -> holds t s serial expires -> working db expires ->
  db_AdmitCertificate s raw expires t = (t, Ok tt).
Proof.
  intros Hn Hv (row & Hs & Hser & Hexp & Hrev) (Hd & Hnow & Hf & Hc & Hclock).
  unfold db_AdmitCertificate, denied, wrapM, WithTenantTx, query, checkM, pureM, mbind, M_bind. rewrite Hn, Hv, Hd, !Hf, Hc. simpl.
  rewrite (proj2 (Z.leb_gt _ _) Hnow). simpl.
  assert (admitted t s serial expires (db_clock SelectNode) = true) as ->; [|done].
  unfold admitted, current_admits. rewrite Hs, Hrev, Hser, Hexp. simpl. rewrite (proj1 (Normalize_fix _ _ Hn)).
  rewrite bool_decide_eq_true_2, Z.eqb_refl, (proj2 (Z.ltb_lt _ _) Hclock) by done. done.
Qed.

(** An enrolment that succeeds spends its authorisation, which was not spent
    before, returns a certificate for the key and the identity of the node that
    the authority vouches for, and leaves the node admitted with exactly this
    certificate until it expires. *)
Theorem Enroll_admitted `{Issuer W} `{X509} `{Env} at_call request t w t' w' result ops :
  reaches no_tables ops t ->
  Enroll (store := connector_store at_call) request (t, w) = ((t', w'), Ok result) ->
  let s := rq_Scope request in
  let token := digest (rq_Token request) in
  exists row ttl,
    tb_Grants t !! token = Some row /\ gw_ConsumedAt row = None /\ row_scope row = s /\
    gw_NonceDigest row = digest (rq_Nonce request) /\ ttl = (gw_TTLSeconds row * Second)%Z /\ grant_spent token t' /\
    ValidateSignedCSR (signing_of request ttl) (re_Certificate result) (re_Trust result) (time_Now "validate") = Ok tt /\
    forall db, working db (ic_ExpiresAt (re_Certificate result)) ->
      db_AdmitCertificate s (ic_Serial (re_Certificate result)) (ic_ExpiresAt (re_Certificate result)) t' = (t', Ok tt).
Proof.
  intros Hre Henr s token. pose proof (reaches_sound _ _ Hre) as Hsound.
  refine (run_intro _ _ _ _ _ _ (_ : run (Enroll (store := connector_store at_call) request) (t, w)
    (fun result '(t', _) => exists row ttl,
      tb_Grants t !! token = Some row /\ gw_ConsumedAt row = None /\ row_scope row = s /\ gw_NonceDigest row = digest (rq_Nonce request) /\
      ttl = (gw_TTLSeconds row * Second)%Z /\ grant_spent token t' /\
      ValidateSignedCSR (signing_of request ttl) (re_Certificate result) (re_Trust result) (time_Now "validate") = Ok tt /\
      forall db, working db (ic_ExpiresAt (re_Certificate result)) ->
        db_AdmitCertificate s (ic_Serial (re_Certificate result)) (ic_ExpiresAt (re_Certificate result)) t' = (t', Ok tt)) (fun _ => True)) Henr).
  unfold Enroll. apply run_bind, run_pure. destruct (reject _ _) as [[]|e] eqn:Hg; [|done]. apply reject_Ok in Hg.
  rewrite !orb_false_iff in Hg. destruct Hg as [[[_ Hv] _] _]. unfold is_err in Hv. apply negb_false_iff, is_ok_unit in Hv.
  apply run_bind, run_pure. destruct (wrap_err _ (CSR_Validate _)) as [csr|e]; [|done].
  unfold consume_grant. apply run_bind, run_bind, run_wrap, run_onFst.
  eapply run_mono; [|done|apply (Consume_run (H := at_call "consume"))].
  intros grant t1 (row & clock & Ht & Hnone & Hc & -> & ->). apply run_bind, run_pure. destruct (reject _ _) as [[]|e]; [|done].
  apply run_ret. apply run_bind, run_pure. destruct (reject _ _) as [[]|e]; [|done]. cbv zeta. cbn [gr_CertificateTTL].
  apply run_bind, run_wrap, run_onSnd. unfold run at 1. destruct (SignCSR _ _) as [w1 [issued|e]]; [|done]. simpl fst.
  apply run_bind, run_wrap, run_onSnd. unfold run at 1. destruct (issuer_TrustBundle _) as [w2 [trust|e]]; [|done]. simpl fst.
  apply run_bind, run_pure. destruct (wrap_err _ (ValidateSignedCSR _ _ _ _)) as [[]|e] eqn:Hval; [|done]. apply wrap_err_Ok in Hval.
  unfold record_issued. apply run_bind, run_onErr, run_onFst. cbn [fst snd].
  eapply run_mono; [| |apply (Record_run (H := at_call "record"))]; [| |exact Hsound].
  2:{ intros t2 _ e. apply run_bind. unfold run at 1. destruct (ignoreM _ _) as [st [?|?]]; [|done]. by apply run_pure. }
  intros [] t2 (Hgr & serial & Hn & Hh). apply run_ret, run_ret. exists row, (gw_TTLSeconds row * Second)%Z.
  unfold consumable in Hc. rewrite !andb_true_iff, !bool_decide_eq_true in Hc. destruct Hc as [[[[[[[Hnon Htg] Hno] Hru] Hte] _] _] _].
  split_and!; [done|done| |done|done| |done|].
  - unfold row_scope. rewrite Htg, Hno, Hru, Hte. unfold s. by destruct (rq_Scope request).
  - eexists. rewrite Hgr. simpl. split; [apply lookup_insert_eq|by eexists].
  - intros db Hw. by apply (holds_admitted db _ _ _ serial).
Qed.

(** ** A sample enrolment *)

Module Example_connector.
Definition scope : Scope := mkScope "00000000-0000-4000-8000-000000000001" "edge" "node-1" "podman".

Definition at_time (now : Z) : Database := mkDatabase false now (fun _ => None) (fun _ => now) None.
#[local] Instance env : Env := mkEnv (fun _ => false) (fun _ => 10%Z).

Definition leaf : cert_info :=
  mkCert "leaf" false (Identity scope) [Identity scope] [] [] [] [ExtKeyUsageClientAuth] [] KeyUsageDigitalSignature 0 (30 * Minute)
    (Ok "key") (Some 171%Z).
Definition ca : cert_info := mkCert "ca" true "ca" [] [] [] [] [] [] 0 0 (Hour) (Ok "ca key") (Some 1%Z).

(** A request and a certificate are told by their headers. *)
#[local] Instance x509 : X509 :=
  mkX509
    (fun text =>
       if HasPrefix text "-----BEGIN CERTIFICATE REQUEST-----" then (Some (mkPem "CERTIFICATE REQUEST" 0 "csr"), "")
       else (Some (mkPem "CERTIFICATE" 0 (TrimPrefix text "-----BEGIN CERTIFICATE-----")), ""))
    (fun _ => Ok (mkURL "spiffe" "baseharbor" false "" "" "/platform" "")) (fun _ => false)
    (fun _ => Ok (mkCSR "csr" "key" true "" [Identity scope] [] [] [] [] (Ed25519Key 32)))
    (fun text => Ok (if text == "leaf" then leaf else ca))
    (fun _ _ _ _ => Ok tt).

(** The issuer counts what it signed. *)
#[local] Instance issuer : Issuer nat :=
  mkIssuer nat
    (fun _ n => (S n, Ok (mkIssued "vault" "-----BEGIN CERTIFICATE-----leaf" "" "-----BEGIN CERTIFICATE-----ca" [] "00:AB" (30 * Minute))))
    (fun n => (n, Ok (mkTrust "vault" "-----BEGIN CERTIFICATE-----ca"))) (fun _ n => (n, Ok tt)).

Definition secret (b : Z) : list Z := repeat b 32.
Definition token : string := EncodeToString (secret 1).
Definition nonce : string := EncodeToString (secret 2).
Definition grant : Grant := mkGrant scope (digest token) (digest nonce) (5 * Minute) Hour.

Definition with_grant : tables := perform (at_time 5) (OpCreate grant) no_tables.
Definition request : Request := mkRequest scope token nonce "-----BEGIN CERTIFICATE REQUEST-----".

Definition enroll (st : tables * nat) : (tables * nat) * result error Result :=
  Enroll (store := connector_store (fun _ => at_time 10)) request st.

Definition enrolled : tables := fst (fst (enroll (with_grant, 0%nat))).
Definition revoked : tables := fst (db_RevokeCurrent (db := at_time 20) scope enrolled).

(** The bootstrap of the authority is the credential the request carries. *)
Example bootstrap :
  Create (store := connector_store (fun _ => at_time 5)) scope (5 * Minute) Hour (Ok (secret 1)) (Ok (secret 2)) (no_tables, 0%nat) =
  ((perform (at_time 5) (OpCreate (mkGrant scope (digest token) (digest nonce) (10 + 5 * Minute) Hour)) no_tables, 0%nat),
   Ok (mkBootstrap token nonce (10 + 5 * Minute))).
Proof. vm_compute. reflexivity. Qed.

(** The second use is denied, and nothing is signed for it. *)
Example replay : enroll (fst (enroll (with_grant, 0%nat))) = ((enrolled, 1%nat), Err ErrDenied).
Proof. vm_compute. reflexivity. Qed.

Definition connection : ConnectionState := mkConnection VersionTLS13 true [Some leaf] [[Some leaf; Some ca]].

Definition present (t : tables) : result error unit :=
  AdmitTLSNode connection scope (Some (connector_registry (db := at_time 15) None t)).

Example admitted_until_revoked : present with_grant = Err ErrDenied /\ present enrolled = Ok tt /\ present revoked = Err ErrDenied.
Proof. vm_compute. split_and!; reflexivity. Qed.
End Example_connector.

Lemma enrolled_reached :
  reaches no_tables [OpCreate Example_connector.grant;
    OpConsume Example_connector.scope (digest Example_connector.token) (digest Example_connector.nonce) (digest "csr") 10;
    OpRecord Example_connector.scope (digest Example_connector.token) "00:AB" (30 * Minute)] Example_connector.enrolled.
Proof.
  assert (forall t t' ops, t = t' -> reaches no_tables ops t -> reaches no_tables ops t') as Heq by by intros ? ? ? ->.
  pose proof (reaches_op _ _ _ (Example_connector.at_time 5) (OpCreate Example_connector.grant) (reaches_start no_tables)) as H1.
  pose proof (reaches_op _ _ _ (Example_connector.at_time 10) (OpConsume Example_connector.scope (digest Example_connector.token)
    (digest Example_connector.nonce) (digest "csr") 10) H1) as H2.
  pose proof (reaches_op _ _ _ (Example_connector.at_time 10)
    (OpRecord Example_connector.scope (digest Example_connector.token) "00:AB" (30 * Minute)) H2) as H3.
  eapply Heq; [|exact H3]. vm_compute. reflexivity.
Qed.

Lemma revocation_final_witness :
  is_ok (AdmitTLSNode (x509 := Example_connector.x509) (env := Example_connector.env) Example_connector.connection Example_connector.scope
    (Some (connector_registry (db := Example_connector.at_time 25) None Example_connector.revoked))) = false.
Proof.
  apply (revocation_final (H := Example_connector.x509) (Example_connector.at_time 20) Example_connector.scope
    Example_connector.enrolled Example_connector.revoked "ab" [] Example_connector.revoked).
  - vm_compute. reflexivity.
  - apply reaches_start.
  - reflexivity.
Defined.

Lemma grant_single_use_witness :
  exists g t1, db_Consume (db := Example_connector.at_time 10) Example_connector.scope (digest Example_connector.token)
      (digest Example_connector.nonce) (digest "csr") 10 Example_connector.with_grant = (t1, Ok g) /\
    snd (db_Consume (db := Example_connector.at_time 11) Example_connector.scope (digest Example_connector.token)
      (digest Example_connector.nonce) (digest "csr") 11 t1) = Err ErrDenied.
Proof.
  eexists _, _. split; [vm_compute; reflexivity|].
  eapply (grant_single_use (Example_connector.at_time 10) Example_connector.scope (digest Example_connector.token)
    (digest Example_connector.nonce) (digest "csr") 10 Example_connector.with_grant).
  - vm_compute. reflexivity.
  - apply reaches_start.
Defined.

Lemma admission_provenance_witness :
  exists ops, issued_to ops Example_connector.scope "ab" (30 * Minute).
Proof.
  eexists. destruct (admission_provenance _ _ (Example_connector.at_time 15) Example_connector.scope "ab" (30 * Minute)
    Example_connector.enrolled enrolled_reached) as (n & Hn & Hi).
  - vm_compute. reflexivity.
  - assert (n = "ab") as -> by (vm_compute in Hn; congruence). exact Hi.
Defined.

Lemma Enroll_admitted_witness :
  grant_spent (digest Example_connector.token) Example_connector.enrolled /\
  db_AdmitCertificate (db := Example_connector.at_time 15) Example_connector.scope "00:AB" (30 * Minute) Example_connector.enrolled =
    (Example_connector.enrolled, Ok tt).
Proof.
  destruct (Enroll_admitted (H := Example_connector.issuer) (H0 := Example_connector.x509) (H1 := Example_connector.env)
    (fun _ => Example_connector.at_time 10) Example_connector.request Example_connector.with_grant 0%nat Example_connector.enrolled 1%nat
    (mkResult (mkIssued "vault" "-----BEGIN CERTIFICATE-----leaf" "" "-----BEGIN CERTIFICATE-----ca" [] "00:AB" (30 * Minute))
       (mkTrust "vault" "-----BEGIN CERTIFICATE-----ca")) [OpCreate Example_connector.grant])
    as (row & ttl & _ & _ & _ & _ & _ & Hspent & _ & Hadmit).
  - apply (reaches_op _ [] _ (Example_connector.at_time 5) (OpCreate Example_connector.grant) (reaches_start no_tables)).
  - vm_compute. reflexivity.
  - split; [exact Hspent|]. apply (Hadmit (Example_connector.at_time 15)). split_and!; [reflexivity|reflexivity|done|reflexivity|reflexivity].
Defined.
