(* ===== verification/Wire.v ===== *)
(** * Wire records of Target Access (contracts/targetaccess_wire.go)

    The strict reading of JSON (one document, unique keys, bounded depth) over
    the token machine of encoding/json, and the validation of a transport
    record.  The lexical level of JSON, the schema library and the parsing of
    times are interfaces; Go's type assertions, which panic, are outcomes. *)

From Stdlib Require Import Strings.String.
From S2P Require Import Prelude GoStrings StableId Base64 Sha256.

Local Open Scope nat_scope.

(** ** Documents

    An object is a map in the code; the model keeps its members in the order
    in which they were read. *)

Inductive scalar :=
| SNull
| SBool (b : bool)
| SNumber (literal : string)
| SString (s : string).

Inductive json :=
| JScalar (v : scalar)
| JArray (values : list json)
| JObject (members : list (string * json)).

Global Instance scalar_eq_dec : EqDecision scalar.
Proof. solve_decision. Defined.

(** The rules for lists of documents, which the generated principle lacks. *)
Section json_induction.
Context (P : json -> Prop).
Context (Hscalar : forall v, P (JScalar v)).
Context (Harray : forall l, Forall P l -> P (JArray l)).
Context (Hobject : forall m, Forall (fun kv => P (snd kv)) m -> P (JObject m)).

Fixpoint json_nested (v : json) : P v :=
  match v with
  | JScalar v => Hscalar v
  | JArray l => Harray l ((fix all l := match l return Forall P l with
      | [] => Forall_nil_2 _
      | v :: l => Forall_cons_2 _ _ _ (json_nested v) (all l) end) l)
  | JObject m => Hobject m ((fix all m := match m return Forall (fun kv => P (snd kv)) m with
      | [] => Forall_nil_2 _
      | kv :: m => Forall_cons_2 _ _ _ (json_nested (snd kv)) (all m) end) m)
  end.
End json_induction.

(** ** The token machine (encoding/json, Decoder.Token and Decoder.More) *)

Inductive lexeme :=
| LOpenArray | LCloseArray | LOpenObject | LCloseObject | LColon | LComma
| LScalar (v : scalar)
| LInvalid.

Inductive token_state :=
| TopValue | ArrayStart | ArrayValue | ArrayComma | ObjectStart | ObjectKey | ObjectColon | ObjectValue | ObjectComma.

Global Instance lexeme_eq_dec : EqDecision lexeme.
Proof. solve_decision. Defined.
Global Instance token_state_eq_dec : EqDecision token_state.
Proof. solve_decision. Defined.

Record decoder := mkDecoder {
  d_rest : list lexeme;
  d_state : token_state;
  d_stack : list token_state }.

Inductive token := TDelim (l : lexeme) | TScalar (v : scalar).

Definition value_allowed (s : token_state) : bool :=
  bool_decide (s ∈ [TopValue; ArrayStart; ArrayValue; ObjectValue]).

Definition value_end (s : token_state) : token_state :=
  match s with
  | ArrayStart | ArrayValue => ArrayComma
  | ObjectValue => ObjectComma
  | s => s
  end.

(** A closing delimiter returns to the state around it. *)
Definition close_token (l : lexeme) (rest : list lexeme) (stack : list token_state) : option (token * decoder) :=
  match stack with
  | outer :: stack => Some (TDelim l, mkDecoder rest (value_end outer) stack)
  | [] => None
  end.

(** [None] is an error of the decoder, or the end of its input. *)
Fixpoint next_token (rest : list lexeme) (s : token_state) (stack : list token_state) : option (token * decoder) :=
  match rest with
  | [] => None
  | LOpenArray :: rest => if value_allowed s then Some (TDelim LOpenArray, mkDecoder rest ArrayStart (s :: stack)) else None
  | LOpenObject :: rest => if value_allowed s then Some (TDelim LOpenObject, mkDecoder rest ObjectStart (s :: stack)) else None
  | LCloseArray :: rest => if bool_decide (s ∈ [ArrayStart; ArrayComma]) then close_token LCloseArray rest stack else None
  | LCloseObject :: rest => if bool_decide (s ∈ [ObjectStart; ObjectComma]) then close_token LCloseObject rest stack else None
  | LColon :: rest => if bool_decide (s = ObjectColon) then next_token rest ObjectValue stack else None
  | LComma :: rest =>
      if bool_decide (s = ArrayComma) then next_token rest ArrayValue stack
      else if bool_decide (s = ObjectComma) then next_token rest ObjectKey stack
      else None
  | LScalar v :: rest =>
      match v, s with
      | SString _, (ObjectStart | ObjectKey) => Some (TScalar v, mkDecoder rest ObjectColon stack)
      | _, _ => if value_allowed s then Some (TScalar v, mkDecoder rest (value_end s) stack) else None
      end
  | LInvalid :: _ => None
  end.

Definition Token (d : decoder) : option (token * decoder) := next_token (d_rest d) (d_state d) (d_stack d).

Definition More (d : decoder) : bool :=
  match d_rest d with
  | [] | LCloseArray :: _ | LCloseObject :: _ => false
  | _ => true
  end.

Definition NewDecoder (l : list lexeme) : decoder := mkDecoder l TopValue [].

(** ** Strict values

    The recursion of the code is bounded by its input; the fuel is the number
    of calls and iterations, and [wire_fuel] is enough for every input. *)

Inductive outcome (A : Type) := Exhausted | Invalid | Value (a : A).
Arguments Exhausted {A}.
Arguments Invalid {A}.
Arguments Value {A} a.

Global Instance outcome_ret : MRet outcome := fun A a => Value a.
Global Instance outcome_bind : MBind outcome := fun A B k m =>
  match m with Value a => k a | Invalid => Invalid | Exhausted => Exhausted end.

Definition of_option {A} (o : option A) : outcome A := match o with Some a => Value a | None => Invalid end.

(** The tokens that end a loop over an object or an array. *)
Definition closing (l : lexeme) (d : decoder) : outcome decoder :=
  '(t, d) ← of_option (Token d);
  match t with
  | TDelim l' => if decide (l' = l) then Value d else Invalid
  | TScalar _ => Invalid
  end.

Fixpoint strictWireValue (fuel : nat) (depth : nat) (d : decoder) : outcome (json * decoder) :=
  match fuel with
  | O => Exhausted
  | S fuel =>
      if 64 <? depth then Invalid
      else
        '(t, d) ← of_option (Token d);
        match t with
        | TScalar v => Value (JScalar v, d)
        | TDelim LOpenObject => '(members, d) ← strict_members fuel depth [] d; Value (JObject members, d)
        | TDelim LOpenArray => '(values, d) ← strict_elements fuel depth [] d; Value (JArray values, d)
        | TDelim _ => Invalid
        end
  end
with strict_members (fuel : nat) (depth : nat) (object : list (string * json)) (d : decoder) : outcome (list (string * json) * decoder) :=
  match fuel with
  | O => Exhausted
  | S fuel =>
      if More d then
        '(t, d) ← of_option (Token d);
        match t with
        | TScalar (SString name) =>
            if bool_decide (name ∈ map fst object) then Invalid
            else
              '(value, d) ← strictWireValue fuel (depth + 1) d;
              strict_members fuel depth (object ++ [(name, value)]) d
        | _ => Invalid
        end
      else d ← closing LCloseObject d; Value (object, d)
  end
with strict_elements (fuel : nat) (depth : nat) (values : list json) (d : decoder) : outcome (list json * decoder) :=
  match fuel with
  | O => Exhausted
  | S fuel =>
      if More d then
        '(value, d) ← strictWireValue fuel (depth + 1) d;
        strict_elements fuel depth (values ++ [value]) d
      else d ← closing LCloseArray d; Value (values, d)
  end.

Definition wire_fuel (l : list lexeme) : nat := 2 * length l + 1.

(** One strict value and nothing after it.  The decoder cannot tell why
    [Token] failed, so the end of the input is asked for directly. *)
Definition strict_document (l : list lexeme) : outcome json :=
  '(v, d) ← strictWireValue (wire_fuel l) 0 (NewDecoder l);
  if bool_decide (d_rest d = []) then Value v else Invalid.

(** ** Documents as lexemes

    The reference: a document is written in exactly one way (up to white space,
    which has no lexeme). *)

Fixpoint commas (l : list (list lexeme)) : list lexeme :=
  match l with
  | [] => []
  | [x] => x
  | x :: l => x ++ LComma :: commas l
  end.

Fixpoint render (v : json) : list lexeme :=
  match v with
  | JScalar v => [LScalar v]
  | JArray l => LOpenArray :: commas (map render l) ++ [LCloseArray]
  | JObject m => LOpenObject :: commas (map (fun kv => LScalar (SString (fst kv)) :: LColon :: render (snd kv)) m) ++ [LCloseObject]
  end.

(** No object repeats a key. *)
Fixpoint unambiguous (v : json) : bool :=
  match v with
  | JScalar _ => true
  | JArray l => forallb unambiguous l
  | JObject m => bool_decide (NoDup (map fst m)) && forallb (fun kv => unambiguous (snd kv)) m
  end.

(** How deep values are nested below a value. *)
Fixpoint height (v : json) : nat :=
  match v with
  | JScalar _ => 0
  | JArray l => foldr (fun v h => S (height v) `max` h) 0 l
  | JObject m => foldr (fun kv h => S (height (snd kv)) `max` h) 0 m
  end.

(** ** Valid UTF-8 (unicode/utf8, Valid) *)

Definition between (lo hi c : Z) : bool := ((lo <=? c) && (c <=? hi))%Z.
Definition continuation (c : Z) : bool := between 0x80 0xbf c.

Definition utf8_three (a b c : Z) : bool :=
  (between 0xe0 0xef a && continuation b && continuation c && (if a =? 0xe0 then 0xa0 <=? b else if a =? 0xed then b <=? 0x9f else true))%Z.

Definition utf8_four (a b c d : Z) : bool :=
  (between 0xf0 0xf4 a && continuation b && continuation c && continuation d &&
   (if a =? 0xf0 then 0x90 <=? b else if a =? 0xf4 then b <=? 0x8f else true))%Z.

Fixpoint utf8_Valid (l : list Z) : bool :=
  match l with
  | [] => true
  | a :: l =>
      if (a <? 0x80)%Z then utf8_Valid l
      else match l with
      | [] => false
      | b :: l =>
          if between 0xc2 0xdf a && continuation b then utf8_Valid l
          else match l with
          | [] => false
          | c :: l =>
              if utf8_three a b c then utf8_Valid l
              else match l with
              | [] => false
              | d :: l => utf8_four a b c d && utf8_Valid l
              end
          end
      end
  end.

(** ** Validation *)

Definition TargetAccessMaxFrameBytes : Z := Z.shiftl 4 20.
Definition TargetAccessMaxStreamDataBytes : Z := Z.shiftl 16 10.

Definition wireRecords : list string :=
  ["hello"; "capabilities"; "request"; "response"; "cancel"; "enrollment_request"; "enrollment_response";
   "bootstrap_authorization"; "stream_open"; "stream_event"].

(** What is not modelled: the lexical grammar of JSON, the schema library and
    whether it could resolve the packaged schema, and the parsing of times. *)
Class WireWorld := mkWireWorld {
  lex : string -> list lexeme;
  resolveWireSchemas : bool;
  schema_Validate : string -> json -> bool;
  time_Parse : string -> bool }.

(** The two ways in which validation ends without success. *)
Inductive stop := ErrTargetAccessWire | Panic.

Abbreviation object := (list (string * json)).

Definition member (o : object) (key : string) : option json :=
  snd <$> List.find (fun kv => fst kv == key) o.

(** [x.(T)]: a missing member is [nil], which no assertion accepts. *)
Definition as_object (v : option json) : result stop object :=
  match v with Some (JObject m) => Ok m | _ => Err Panic end.
Definition as_array (v : option json) : result stop (list json) :=
  match v with Some (JArray l) => Ok l | _ => Err Panic end.
Definition as_string (v : option json) : result stop string :=
  match v with Some (JScalar (SString s)) => Ok s | _ => Err Panic end.

(** [v == "text"] on an interface value *)
Definition is_text (v : option json) (text : string) : bool :=
  match v with Some (JScalar (SString s)) => s == text | _ => false end.

Definition invalid (cond : bool) : result stop unit := reject cond ErrTargetAccessWire.

Definition boundedWireArgv (args : list json) : result stop bool :=
  match args with
  | [] => Ok false
  | first :: _ =>
      command ← as_string (Some first);
      if command == "" then Ok false
      else
        size ← forE (fun size arg => text ← as_string (Some arg); Ok (size + len text + 1)%Z) 0%Z args;
        Ok (size <=? Z.shiftl 16 10)%Z
  end.

Definition bytes_string (l : list Z) : string := string_of_list_ascii (map (fun b => byte_of (Z.to_nat b)) l).

Section validate.
Context {world : WireWorld}.

Definition time_fields : list string := ["issued_at"; "deadline_at"; "observed_at"; "not_after"; "expires_at"].

Definition check_time (o : object) (field : string) : result stop unit :=
  match member o field with
  | None => Ok tt
  | Some (JScalar (SString text)) => invalid (negb (time_Parse text))
  | Some _ => Err ErrTargetAccessWire
  end.

(** A credential is 32 bytes, in the one text that encodes them. *)
Definition check_credential (o : object) (field : string) : result stop unit :=
  match member o field with
  | None => Ok tt
  | Some raw =>
      text ← as_string (Some raw);
      match DecodeStrict text with
      | Some decoded => invalid (negb (length decoded =? 32) || (EncodeToString decoded != text))
      | None => Err ErrTargetAccessWire
      end
  end.

Definition check_argv (o : object) (field : string) : result stop unit :=
  inner ← as_object (member o field);
  args ← as_array (member inner "argv");
  bounded ← boundedWireArgv args;
  invalid (negb bounded).

Definition check_file (raw : json) : result stop unit :=
  file ← as_object (Some raw);
  encoded ← as_string (member file "data");
  match StdDecodeStrict encoded with
  | Some data =>
      invalid (StdEncode data != encoded) ;;
      invalid (negb (is_text (member file "sha256") (digest_text (bytes_string data))))
  | None => Err ErrTargetAccessWire
  end.

Definition check_capability (seen : gset string) (raw : json) : result stop (gset string) :=
  capability ← as_object (Some raw);
  name ← as_string (member capability "name");
  if decide (name ∈ seen) then Err ErrTargetAccessWire else Ok ({[name]} ∪ seen).

Definition check_data (o : object) : result stop unit :=
  encoded ← as_string (member o "data");
  match StdDecodeStrict encoded with
  | Some decoded =>
      invalid ((length decoded =? 0) || (TargetAccessMaxStreamDataBytes <? Z.of_nat (length decoded))%Z || (StdEncode decoded != encoded))
  | None => Err ErrTargetAccessWire
  end.

(** The checks beyond the schema. *)
Definition check_object (record : string) (o : object) : result stop unit :=
  forE (fun _ => check_time o) tt time_fields ;;
  (if bool_decide (record ∈ ["bootstrap_authorization"; "enrollment_request"; "enrollment_response"])
   then forE (fun _ => check_credential o) tt ["token"; "nonce"] else Ok tt) ;;
  (if (record == "request") && is_text (member o "operation") "runtime.exec" then check_argv o "payload" else Ok tt) ;;
  (if (record == "stream_open") && is_text (member o "kind") "terminal" then check_argv o "terminal" else Ok tt) ;;
  (if (record == "request") && is_text (member o "operation") "artifact.bundle.stage"
   then payload ← as_object (member o "payload"); files ← as_array (member payload "files"); forE (fun _ => check_file) tt files
   else Ok tt) ;;
  (if record == "capabilities"
   then capabilities ← as_array (member o "capabilities"); forE check_capability ∅ capabilities ;; Ok tt
   else Ok tt) ;;
  (if (record == "stream_event") && is_text (member o "type") "data" then check_data o else Ok tt).

Definition ValidateTargetAccessRecord (record data : string) : result stop unit :=
  invalid (negb (bool_decide (record ∈ wireRecords)) || (len data =? 0)%Z || (TargetAccessMaxFrameBytes <? len data)%Z ||
           negb (utf8_Valid (string_bytes data))) ;;
  invalid (negb resolveWireSchemas) ;;
  match strict_document (lex data) with
  | Value value =>
      invalid (negb (schema_Validate record value)) ;;
      match value with
      | JObject o => check_object record o
      | _ => Err ErrTargetAccessWire
      end
  | _ => Err ErrTargetAccessWire
  end.
End validate.
