(* ===== verification/WireFacts.v ===== *)
(** * Facts about wire records

    The strict reader accepts exactly the lexemes of unambiguous documents of
    bounded depth, whatever its input it ends, and what a validated record
    is. *)

From Stdlib Require Import Strings.String.
From S2P Require Import Prelude GoStrings StableId Base64 Sha256 Wire.

Local Open Scope nat_scope.

(** ** Positions of a value

    Before a value the machine may still have to read a separator. *)

Definition separator (s : token_state) : list lexeme :=
  match s with ArrayComma | ObjectComma => [LComma] | ObjectColon => [LColon] | _ => [] end.

Definition after_separator (s : token_state) : token_state :=
  match s with ArrayComma => ArrayValue | ObjectColon => ObjectValue | ObjectComma => ObjectKey | s => s end.

Definition value_position (s : token_state) : bool := value_allowed (after_separator s).

Definition member_position (s : token_state) : bool := bool_decide (s ∈ [ObjectStart; ObjectComma]).
Definition element_position (s : token_state) : bool := bool_decide (s ∈ [ArrayStart; ArrayComma]).

Definition after_value (s : token_state) : token_state := value_end (after_separator s).

(** The elements and members that remain, with the separators before them. *)
Fixpoint elements_tail (s : token_state) (l : list json) : list lexeme :=
  match l with
  | [] => [LCloseArray]
  | v :: l => separator s ++ render v ++ elements_tail ArrayComma l
  end.

Fixpoint members_tail (s : token_state) (m : object) : list lexeme :=
  match m with
  | [] => [LCloseObject]
  | (k, v) :: m => separator s ++ LScalar (SString k) :: LColon :: render v ++ members_tail ObjectComma m
  end.

Lemma commas_tail (l : list (list lexeme)) (tail : list lexeme) :
  commas l ++ tail = match l with [] => tail | x :: l => x ++ foldr (fun x rest => LComma :: x ++ rest) tail l end.
Proof.
  destruct l as [|x l]; [done|]. revert x. induction l as [|y l IH]; intros x; [done|].
  change (commas (x :: y :: l)) with (x ++ LComma :: commas (y :: l)). rewrite <- app_assoc, <- app_comm_cons. by rewrite IH.
Qed.

Lemma elements_comma l : elements_tail ArrayComma l = foldr (fun x rest => LComma :: x ++ rest) [LCloseArray] (map render l).
Proof. induction l as [|v l IH]; [done|]. simpl. by rewrite IH. Qed.

Lemma render_array l : render (JArray l) = LOpenArray :: elements_tail ArrayStart l.
Proof.
  change (render (JArray l)) with (LOpenArray :: commas (map render l) ++ [LCloseArray]). f_equal. rewrite commas_tail.
  destruct l as [|v l]; [done|]. simpl. by rewrite elements_comma.
Qed.

Lemma members_comma m : members_tail ObjectComma m =
  foldr (fun x rest => LComma :: x ++ rest) [LCloseObject] (map (fun kv => LScalar (SString (fst kv)) :: LColon :: render (snd kv)) m).
Proof. induction m as [|[k v] m IH]; [done|]. simpl. by rewrite IH. Qed.

Lemma render_object m : render (JObject m) = LOpenObject :: members_tail ObjectStart m.
Proof.
  set (f := fun kv : string * json => LScalar (SString (fst kv)) :: LColon :: render (snd kv)).
  change (render (JObject m)) with (LOpenObject :: commas (map f m) ++ [LCloseObject]). f_equal. rewrite commas_tail.
  destruct m as [|[k v] m]; [done|]. simpl. by rewrite members_comma.
Qed.

Lemma render_nonempty v : 1 <= length (render v).
Proof. destruct v; simpl; lia. Qed.

(** ** Results of the machine *)

Lemma of_option_Value {A} (o : option A) a : of_option o = Value a <-> o = Some a.
Proof. destruct o; simpl; naive_solver. Qed.

Lemma outcome_bind_Value {A B} (m : outcome A) (k : A -> outcome B) b :
  (m ≫= k) = Value b <-> exists a, m = Value a /\ k a = Value b.
Proof. destruct m; cbn; naive_solver. Qed.

Lemma outcome_bind_Exhausted {A B} (m : outcome A) (k : A -> outcome B) :
  m <> Exhausted -> (forall a, m = Value a -> k a <> Exhausted) -> (m ≫= k) <> Exhausted.
Proof. destruct m; cbn; naive_solver. Qed.

(** What the machine may answer at a value. *)
Inductive value_token (rest : list lexeme) (s : token_state) (stack : list token_state) : token -> decoder -> Prop :=
| value_scalar v r : rest = separator s ++ LScalar v :: r ->
    value_token rest s stack (TScalar v) (mkDecoder r (after_value s) stack)
| value_array r : rest = separator s ++ LOpenArray :: r ->
    value_token rest s stack (TDelim LOpenArray) (mkDecoder r ArrayStart (after_separator s :: stack))
| value_object r : rest = separator s ++ LOpenObject :: r ->
    value_token rest s stack (TDelim LOpenObject) (mkDecoder r ObjectStart (after_separator s :: stack)).

Ltac next_cases :=
  repeat match goal with
  | H : None = Some _ |- _ => discriminate H
  | H : Some _ = Some _ |- _ => first [discriminate H|injection H as <- <-]
  | H : close_token _ _ ?k = Some _ |- _ => destruct k; simpl in H
  | H : context [match ?v with SString _ => _ | _ => _ end] |- _ => destruct v; simpl in H
  end.

Lemma next_token_allowed rest s stack t d :
  value_allowed s = true -> next_token rest s stack = Some (t, d) ->
  value_token rest s stack t d \/ t = TDelim LCloseArray.
Proof.
  intros Hs Hn. destruct s; try discriminate Hs; destruct rest as [|[| | | | | |v|] r]; simpl in Hn; next_cases; auto.
  all: left; by constructor.
Qed.

(** At a value the machine reads the start of one. *)
Lemma next_token_value rest s stack t d :
  value_position s = true -> next_token rest s stack = Some (t, d) ->
  value_token rest s stack t d \/ t = TDelim LCloseArray.
Proof.
  intros Hs Hn. destruct (value_allowed s) eqn:Ha; [by apply next_token_allowed|].
  destruct s; try discriminate Hs; try discriminate Ha; destruct rest as [|[| | | | | |v|] r]; simpl in Hn; next_cases; auto.
  all: apply next_token_allowed in Hn as [[v r' Hr|r' Hr|r' Hr]|Hn]; [..|by right|done]; left; subst;
    lazymatch goal with
    | |- value_token _ ?s ?k (TScalar ?v) _ => exact (value_scalar _ s k v r' eq_refl)
    | |- value_token _ ?s ?k (TDelim LOpenArray) _ => exact (value_array _ s k r' eq_refl)
    | |- value_token _ ?s ?k _ _ => exact (value_object _ s k r' eq_refl)
    end.
Qed.

Lemma value_token_next rest s stack t d :
  value_position s = true -> value_token rest s stack t d -> next_token rest s stack = Some (t, d).
Proof. intros Hs H. destruct H as [v r ->|r ->|r ->]; destruct s; try discriminate Hs; try destruct v; done. Qed.

(** At a member it reads the key. *)
Lemma next_token_key rest s stack k d :
  member_position s = true -> next_token rest s stack = Some (TScalar (SString k), d) ->
  exists r, rest = separator s ++ LScalar (SString k) :: r /\ d = mkDecoder r ObjectColon stack.
Proof.
  intros Hs Hn. destruct s; try discriminate Hs.
  - destruct rest as [|[| | | | | |[]|] r]; simpl in Hn; next_cases. by exists r.
  - destruct rest as [|[| | | | | |[]|] r]; simpl in Hn; next_cases.
    destruct r as [|[| | | | | |[]|] r]; simpl in Hn; next_cases. by exists r.
Qed.

Lemma key_next s stack k r :
  member_position s = true ->
  next_token (separator s ++ LScalar (SString k) :: r) s stack = Some (TScalar (SString k), mkDecoder r ObjectColon stack).
Proof. intros Hs. by destruct s. Qed.

(** The end of an array or an object. *)
Lemma closing_Value l d d' :
  (l = LCloseArray \/ l = LCloseObject) -> More d = false -> closing l d = Value d' ->
  exists r outer stack, d_rest d = l :: r /\ d_stack d = outer :: stack /\ d' = mkDecoder r (value_end outer) stack.
Proof.
  intros Hl Hm. destruct d as [rest s stack]. unfold closing, Token, More in *. simpl in *.
  rewrite outcome_bind_Value. intros ([t d1] & Ht%of_option_Value & Hd).
  destruct rest as [|[| | | | | |v|] r]; try discriminate Hm; simpl in Ht; [done|..].
  all: destruct (bool_decide _); [|done]; destruct stack as [|outer stack]; [done|]; simpl in Ht; injection Ht as <- <-.
  all: case_decide as Hx; [|done]; injection Hd as <-; subst l; by exists r, outer, stack.
Qed.

Lemma closing_next l r s outer stack :
  (l = LCloseArray /\ element_position s = true \/ l = LCloseObject /\ member_position s = true) ->
  closing l (mkDecoder (l :: r) s (outer :: stack)) = Value (mkDecoder r (value_end outer) stack).
Proof.
  unfold closing, Token, element_position, member_position. intros [[-> Hs]|[-> Hs]]; simpl; rewrite Hs; simpl; by repeat case_decide.
Qed.

(** ** What is read is a document *)

Definition reads_value (depth : nat) (d : decoder) (v : json) (d' : decoder) : Prop :=
  d_rest d = separator (d_state d) ++ render v ++ d_rest d' /\ d_state d' = after_value (d_state d) /\ d_stack d' = d_stack d /\
  unambiguous v = true /\ depth + height v <= 64.

Definition closed (d d' : decoder) (tail : list lexeme) : Prop :=
  exists outer stack, d_rest d = tail ++ d_rest d' /\ d_stack d = outer :: stack /\ d_state d' = value_end outer /\ d_stack d' = stack.

Arguments render : simpl never.
Arguments height : simpl never.
Arguments unambiguous : simpl never.

(** The depth of a compound value is that of what it holds. *)
Lemma height_room {A} (f : A -> nat) (l : list A) depth :
  depth <= 64 -> (depth + foldr (fun x h => S (f x) `max` h) 0 l <= 64 <-> forall x, x ∈ l -> depth + S (f x) <= 64).
Proof.
  intros Hd. induction l as [|x l IH]; simpl.
  - split; [|lia]. by intros _ x ?%elem_of_nil.
  - setoid_rewrite elem_of_cons. split.
    + intros Hh y [->|Hy]; [lia|]. apply IH; [lia|done].
    + intros H. assert (depth + foldr (fun x h => S (f x) `max` h) 0 l <= 64) by (apply IH; auto).
      pose proof (H x (or_introl eq_refl)). lia.
Qed.

Lemma strict_sound fuel :
  (forall depth d v d', value_position (d_state d) = true -> strictWireValue fuel depth d = Value (v, d') -> reads_value depth d v d') /\
  (forall depth o d m' d', member_position (d_state d) = true -> NoDup (map fst o) -> strict_members fuel depth o d = Value (m', d') ->
     exists m, m' = o ++ m /\ closed d d' (members_tail (d_state d) m) /\ NoDup (map fst m') /\
       forallb (fun kv => unambiguous (snd kv)) m = true /\ forall kv, kv ∈ m -> depth + S (height (snd kv)) <= 64) /\
  (forall depth o d l' d', element_position (d_state d) = true -> strict_elements fuel depth o d = Value (l', d') ->
     exists l, l' = o ++ l /\ closed d d' (elements_tail (d_state d) l) /\
       forallb unambiguous l = true /\ forall v, v ∈ l -> depth + S (height v) <= 64).
Proof.
  induction fuel as [|fuel (IHv & IHm & IHe)]; [by split_and!|]. split_and!.
  - intros depth d v d' Hp. simpl. destruct (64 <? depth) eqn:Hd; [done|]. apply Nat.ltb_ge in Hd.
    rewrite outcome_bind_Value. intros ([t d1] & Ht%of_option_Value & Hv).
    destruct (next_token_value _ _ _ _ _ Hp Ht) as [Hvt| ->]; [|done].
    destruct Hvt as [x r Hr|r Hr|r Hr].
    + injection Hv as <- <-. split_and!; simpl; [by rewrite Hr|done..|unfold height; lia].
    + apply outcome_bind_Value in Hv as ([l d2] & Hl & Hv). injection Hv as <- <-.
      apply IHe in Hl as (l' & -> & (outer & stack & H1 & H2 & H3 & H4) & Hu & Hh); [|done].
      simpl in *. injection H2 as <- <-. split_and!; [|by rewrite H3|done|done|by apply height_room].
      by rewrite Hr, H1, render_array, <- app_comm_cons.
    + apply outcome_bind_Value in Hv as ([l d2] & Hl & Hv). injection Hv as <- <-.
      apply IHm in Hl as (l' & -> & (outer & stack & H1 & H2 & H3 & H4) & Hn & Hu & Hh); [|done|constructor].
      simpl in *. injection H2 as <- <-. split_and!; [|by rewrite H3|done| |by apply (height_room (fun kv => height (snd kv)))].
      * by rewrite Hr, H1, render_object, <- app_comm_cons.
      * unfold unambiguous; fold unambiguous. by rewrite (bool_decide_true _ Hn).
  - intros depth o d m' d' Hp Ho. simpl. destruct (More d) eqn:Hmore.
    + rewrite outcome_bind_Value. intros ([t d1] & Ht%of_option_Value & Hv).
      destruct t as [|[| | |k]]; try discriminate Hv. case_bool_decide as Hk; [done|].
      apply outcome_bind_Value in Hv as ([v d2] & Hv & Hm).
      apply next_token_key in Ht as (r & Hr & ->); [|done].
      apply IHv in Hv as (H1 & H2 & H3 & Hu & Hh); [|done]. simpl in *.
      apply IHm in Hm as (m & -> & (outer & stack & G1 & G2 & G3 & G4) & Hn & Hum & Hhm).
      * exists ((k, v) :: m). split_and!; [by rewrite <- app_assoc| |done|simpl; by rewrite Hu|].
        -- exists outer, stack. split_and!; [|congruence..]. simpl. rewrite Hr, H1, G1, H2, <- app_assoc. simpl. by rewrite <- app_assoc.
        -- intros kv [->|Hkv]%elem_of_cons; [simpl; lia|by apply Hhm].
      * by rewrite H2.
      * rewrite map_app, NoDup_app. simpl. split_and!; [done| |apply NoDup_singleton].
        by intros x Hx ->%list_elem_of_singleton.
    + rewrite outcome_bind_Value. intros (d1 & Hc & [= <- <-]).
      apply closing_Value in Hc as (r & outer & stack & H1 & H2 & ->); [|by right|done].
      exists []. rewrite app_nil_r. split_and!; [done| |done|done|by intros ? ?%elem_of_nil]. by exists outer, stack.
  - intros depth o d l' d' Hp. simpl. destruct (More d) eqn:Hmore.
    + rewrite outcome_bind_Value. intros ([v d2] & Hv & Hm).
      apply IHv in Hv as (H1 & H2 & H3 & Hu & Hh); [|by destruct (d_state d)].
      apply IHe in Hm as (m & -> & (outer & stack & G1 & G2 & G3 & G4) & Hum & Hhm).
      * exists (v :: m). split_and!; [by rewrite <- app_assoc| |simpl; by rewrite Hu|].
        -- exists outer, stack. split_and!; [|congruence..]. simpl. rewrite H1, G1, H2. rewrite <- !app_assoc. by destruct (d_state d).
        -- intros x [->|Hx]%elem_of_cons; [lia|by apply Hhm].
      * rewrite H2. by destruct (d_state d).
    + rewrite outcome_bind_Value. intros (d1 & Hc & [= <- <-]).
      apply closing_Value in Hc as (r & outer & stack & H1 & H2 & ->); [|by left|done].
      exists []. rewrite app_nil_r. split_and!; [done| |done|by intros ? ?%elem_of_nil]. by exists outer, stack.
Qed.

(** ** Every document is read *)

Lemma More_value s v r : value_position s = true -> More (mkDecoder (separator s ++ render v ++ r) s []) = true.
Proof. intros Hs. destruct s; try discriminate Hs; try done; by destruct v as [| |]. Qed.

Lemma More_stack rest s stack stack' : More (mkDecoder rest s stack) = More (mkDecoder rest s stack').
Proof. done. Qed.

Definition read_at (v : json) : Prop :=
  forall fuel depth s stack r,
    length (render v) <= fuel -> value_position s = true -> unambiguous v = true -> depth + height v <= 64 ->
    strictWireValue fuel depth (mkDecoder (separator s ++ render v ++ r) s stack) = Value (v, mkDecoder r (after_value s) stack).

Lemma read_elements l : Forall read_at l -> forall fuel depth o s outer stack r,
  length (elements_tail s l) <= fuel -> element_position s = true -> forallb unambiguous l = true ->
  (forall v, v ∈ l -> depth + S (height v) <= 64) ->
  strict_elements fuel depth o (mkDecoder (elements_tail s l ++ r) s (outer :: stack)) =
  Value (o ++ l, mkDecoder r (value_end outer) stack).
Proof.
  induction 1 as [|v l Hv _ IH]; intros fuel depth o s outer stack r Hf Hs Hu Hh.
  - destruct fuel; simpl in Hf; [lia|]. simpl strict_elements. unfold More; simpl d_rest; cbv iota. simpl app.
    rewrite closing_next by (by left). simpl. by rewrite app_nil_r.
  - simpl elements_tail in *. simpl in Hu. apply andb_true_iff in Hu as [Huv Hul].
    rewrite !length_app in Hf. pose proof (render_nonempty v). destruct fuel as [|fuel].
    { destruct l; simpl in Hf; lia. }
    assert (value_position s = true) as Hp by (by destruct s).
    assert (after_value s = ArrayComma) as Ha by (by destruct s).
    assert (1 <= length (elements_tail ArrayComma l)) by (destruct l; simpl; lia).
    simpl strict_elements. rewrite <- !app_assoc.
    rewrite (More_stack _ _ _ []), More_value by done.
    rewrite Hv; [|lia|done..|]. 2: { specialize (Hh v (list_elem_of_here _ _)). lia. }
    simpl. rewrite Ha, IH; [by rewrite <- app_assoc|lia|done..|].
    intros x Hx. apply Hh. by right.
Qed.

Lemma read_members m : Forall (fun kv => read_at (snd kv)) m -> forall fuel depth o s outer stack r,
  length (members_tail s m) <= fuel -> member_position s = true -> NoDup (map fst (o ++ m)) ->
  forallb (fun kv => unambiguous (snd kv)) m = true ->
  (forall kv, kv ∈ m -> depth + S (height (snd kv)) <= 64) ->
  strict_members fuel depth o (mkDecoder (members_tail s m ++ r) s (outer :: stack)) =
  Value (o ++ m, mkDecoder r (value_end outer) stack).
Proof.
  induction 1 as [|[k v] m Hv _ IH]; intros fuel depth o s outer stack r Hf Hs Hn Hu Hh.
  - destruct fuel; simpl in Hf; [lia|]. simpl strict_members. unfold More; simpl d_rest; cbv iota. simpl app.
    rewrite closing_next by (by right). simpl. by rewrite app_nil_r.
  - simpl members_tail in *. simpl in Hu, Hv. apply andb_true_iff in Hu as [Huv Hum].
    assert (1 <= length (members_tail ObjectComma m)) by (destruct m as [|[]]; simpl; lia).
    rewrite length_app in Hf. simpl in Hf. rewrite length_app in Hf. pose proof (render_nonempty v).
    destruct fuel as [|fuel]; [lia|]. simpl strict_members.
    rewrite <- app_assoc, <- app_comm_cons.
    assert (More (mkDecoder (separator s ++ LScalar (SString k) :: (LColon :: render v ++ members_tail ObjectComma m) ++ r) s (outer :: stack)) = true)
      as -> by (by destruct s).
    unfold Token. simpl d_rest; simpl d_state; simpl d_stack. rewrite key_next by done. simpl.
    assert (k ∉ map fst o) as Hk.
    { rewrite map_app, NoDup_app in Hn. intros Hin. apply (proj1 (proj2 Hn) k Hin). simpl. left. }
    rewrite bool_decide_false by done.
    replace (LColon :: (render v ++ members_tail ObjectComma m) ++ r)
      with (separator ObjectColon ++ render v ++ members_tail ObjectComma m ++ r) by (simpl; by rewrite <- app_assoc).
    rewrite Hv; [|lia|done..|]. 2: { specialize (Hh (k, v) (list_elem_of_here _ _)). simpl in Hh. lia. }
    change (after_value ObjectColon) with ObjectComma. simpl. rewrite IH; [by rewrite <- app_assoc|lia|done|by rewrite <- app_assoc|done|].
    intros x Hx. apply Hh. by right.
Qed.

Lemma strict_complete v : read_at v.
Proof.
  induction v as [x|l IH|m IH] using json_nested; intros fuel depth s stack r Hf Hs Hu Hh.
  - destruct fuel; simpl in *; [unfold render in Hf; simpl in Hf; lia|].
    destruct (64 <? depth) eqn:Hd; [apply Nat.ltb_lt in Hd; lia|].
    unfold Token. simpl. unfold render; simpl.
    by rewrite (value_token_next _ s stack _ _ Hs (value_scalar _ s stack x r eq_refl)).
  - rewrite render_array in *. simpl in Hf. destruct fuel as [|fuel]; [lia|]. simpl strictWireValue.
    assert (depth <= 64) by lia. rewrite (proj2 (Nat.ltb_ge 64 depth)) by done.
    unfold Token. simpl d_rest; simpl d_state; simpl d_stack. rewrite <- ?app_comm_cons.
    rewrite (value_token_next _ s stack _ _ Hs (value_array _ s stack _ eq_refl)). simpl.
    rewrite (read_elements l IH); [done|lia|done|done|]. by apply height_room.
  - rewrite render_object in *. simpl in Hf. destruct fuel as [|fuel]; [lia|]. simpl strictWireValue.
    assert (depth <= 64) by lia. rewrite (proj2 (Nat.ltb_ge 64 depth)) by done.
    unfold unambiguous in Hu; fold unambiguous in Hu. apply andb_true_iff in Hu as [Hn%bool_decide_eq_true Hu].
    unfold Token. simpl d_rest; simpl d_state; simpl d_stack. rewrite <- ?app_comm_cons.
    rewrite (value_token_next _ s stack _ _ Hs (value_object _ s stack _ eq_refl)). simpl.
    rewrite (read_members m IH); [done|lia|done|done|done|]. by apply (height_room (fun kv => height (snd kv))).
Qed.

(** ** Every reading ends *)

Lemma next_token_length rest s stack t d : next_token rest s stack = Some (t, d) -> length (d_rest d) < length rest.
Proof.
  revert s. induction rest as [|[| | | | | |v|] rest IH]; intros s; simpl; [done|..|done].
  7: by destruct v, s; simpl; intros; next_cases; simpl; lia.
  all: repeat case_match; intros; next_cases; simpl; try lia.
  all: match goal with H : next_token _ _ _ = _ |- _ => apply IH in H; simpl in *; lia | _ => idtac end.
Qed.

Lemma closing_length l d d' : closing l d = Value d' -> length (d_rest d') < length (d_rest d).
Proof.
  unfold closing. rewrite outcome_bind_Value. intros ([t d1] & Ht%of_option_Value%next_token_length & Hd).
  destruct t; [|done]. case_decide; [|done]. by injection Hd as <-.
Qed.

Lemma closing_ends l d : closing l d <> Exhausted.
Proof.
  unfold closing. destruct (Token d) as [[[l'|] d1]|]; simpl; [|done..]. by case_decide.
Qed.

(** A part that was read is shorter. *)
Lemma strict_shorter fuel :
  (forall depth d v d', strictWireValue fuel depth d = Value (v, d') -> length (d_rest d') < length (d_rest d)) /\
  (forall depth o d v d', strict_members fuel depth o d = Value (v, d') -> length (d_rest d') < length (d_rest d)) /\
  (forall depth o d v d', strict_elements fuel depth o d = Value (v, d') -> length (d_rest d') < length (d_rest d)).
Proof.
  induction fuel as [|fuel (IHv & IHm & IHe)]; [done|]. split_and!.
  - intros depth d v d'. simpl. case_match; [done|]. rewrite outcome_bind_Value.
    intros ([t d1] & Ht%of_option_Value%next_token_length & Hv).
    destruct t as [[]|]; try discriminate Hv; [..|by injection Hv as <- <-].
    all: apply outcome_bind_Value in Hv as ([l d2] & Hl & [= <- <-]).
    + apply IHe in Hl. lia.
    + apply IHm in Hl. lia.
  - intros depth o d v d'. simpl. case_match; rewrite outcome_bind_Value.
    + intros ([t d1] & Ht%of_option_Value%next_token_length & Hv).
      destruct t as [|[| | |k]]; try discriminate Hv. case_match; [done|].
      apply outcome_bind_Value in Hv as ([x d2] & Hx%IHv & Hm%IHm). lia.
    + intros (d1 & Hc%closing_length & [= _ <-]). done.
  - intros depth o d v d'. simpl. case_match; rewrite outcome_bind_Value.
    + intros ([x d2] & Hx%IHv & Hm%IHe). lia.
    + intros (d1 & Hc%closing_length & [= _ <-]). done.
Qed.

Lemma strict_ends fuel :
  (forall depth d, 2 * length (d_rest d) + 1 <= fuel -> strictWireValue fuel depth d <> Exhausted) /\
  (forall depth o d, 2 * length (d_rest d) + 2 <= fuel -> strict_members fuel depth o d <> Exhausted) /\
  (forall depth o d, 2 * length (d_rest d) + 2 <= fuel -> strict_elements fuel depth o d <> Exhausted).
Proof.
  induction fuel as [|fuel (IHv & IHm & IHe)]; [split_and!; intros; lia|].
  destruct (strict_shorter fuel) as (Sv & Sm & Se). split_and!.
  - intros depth d Hf. simpl. case_match; [done|]. destruct (Token d) as [[t d1]|] eqn:Ht; simpl; [|done].
    apply next_token_length in Ht. destruct t as [[]|]; try done.
    all: apply outcome_bind_Exhausted; [|by intros []].
    + apply IHe. lia.
    + apply IHm. lia.
  - intros depth o d Hf. simpl. case_match.
    + destruct (Token d) as [[t d1]|] eqn:Ht; simpl; [|done]. apply next_token_length in Ht.
      destruct t as [|[| | |k]]; try done. case_match; [done|].
      apply outcome_bind_Exhausted; [apply IHv; lia|]. intros [x d2] Hx%Sv. apply IHm. lia.
    + apply outcome_bind_Exhausted; [apply closing_ends|done].
  - intros depth o d Hf. simpl. case_match.
    + apply outcome_bind_Exhausted; [apply IHv; lia|]. intros [x d2] Hx%Sv. apply IHe. lia.
    + apply outcome_bind_Exhausted; [apply closing_ends|done].
Qed.

(** C29: The strict reader is the reference: it accepts the lexemes of the
    unambiguous documents of depth at most 64 and no others, and it always
    ends. *)
Theorem strict_document_spec l :
  strict_document l <> Exhausted /\
  forall v, strict_document l = Value v <-> l = render v /\ unambiguous v = true /\ height v <= 64.
Proof.
  unfold strict_document. split.
  - apply outcome_bind_Exhausted; [by apply strict_ends|]. intros [v d] _. by case_bool_decide.
  - intros v. rewrite outcome_bind_Value. split.
    + intros ([v' d] & Hv & Hd). case_bool_decide as Hr; [|done]. injection Hd as <-.
      apply strict_sound in Hv as (H1 & _ & _ & Hu & Hh); [|done]. simpl in H1. rewrite Hr, app_nil_r in H1. auto.
    + intros (-> & Hu & Hh). exists (v, mkDecoder [] TopValue []). split; [|done].
      pose proof (strict_complete v (wire_fuel (render v)) 0 TopValue [] []) as Hc. simpl in Hc. rewrite app_nil_r in Hc.
      apply Hc; [unfold wire_fuel; lia|done|done|lia].
Qed.

(** ** Validated records *)

Definition text (s : string) : json := JScalar (SString s).

Definition argv_size (l : list string) : Z := foldr (fun s n => (len s + 1 + n)%Z) 0%Z l.

Lemma as_string_Ok v s : as_string v = Ok s <-> v = Some (text s).
Proof. unfold text. destruct v as [[[]| |]|]; simpl; naive_solver. Qed.
Lemma as_array_Ok v l : as_array v = Ok l <-> v = Some (JArray l).
Proof. destruct v as [[]|]; simpl; naive_solver. Qed.
Lemma as_object_Ok v m : as_object v = Ok m <-> v = Some (JObject m).
Proof. destruct v as [[]|]; simpl; naive_solver. Qed.
Lemma is_text_true v s : is_text v s = true <-> v = Some (text s).
Proof. unfold text. destruct v as [[[]| |]|]; simpl; rewrite ?eqb_true; naive_solver. Qed.
Lemma invalid_Ok c u : invalid c = Ok u <-> c = false.
Proof. apply reject_Ok. Qed.

Lemma argv_loop texts n :
  forE (fun size arg => text ← as_string (Some arg); Ok (size + len text + 1)%Z) n (map text texts) = Ok (n + argv_size texts)%Z.
Proof.
  revert n. induction texts as [|s texts IH]; intros n; simpl; [f_equal; lia|]. rewrite IH. f_equal. lia.
Qed.

Lemma argv_texts args n m :
  forE (fun size arg => text ← as_string (Some arg); Ok (size + len text + 1)%Z) n args = Ok m -> exists texts, args = map text texts.
Proof.
  revert n. induction args as [|v args IH]; intros n; [by exists []|].
  rewrite forE_cons, bind_Ok. intros (n' & Hv & Hm). rewrite bind_Ok in Hv. destruct Hv as (s & Hs & _).
  apply as_string_Ok in Hs as [= ->]. destruct (IH _ Hm) as [texts ->]. by exists (s :: texts).
Qed.

Lemma boundedWireArgv_spec texts :
  boundedWireArgv (map text texts) =
  Ok (match texts with [] => false | command :: _ => (command != "") && (argv_size texts <=? Z.shiftl 16 10)%Z end).
Proof.
  destruct texts as [|command texts]; [done|].
  change (boundedWireArgv (map text (command :: texts))) with
    (if command == "" then Ok (E := stop) false else
     size ← forE (fun size arg => text ← as_string (Some arg); Ok (size + len text + 1)%Z) 0%Z (map text (command :: texts));
     Ok (E := stop) (size <=? Z.shiftl 16 10)%Z).
  rewrite argv_loop. by case_bool_decide.
Qed.

Section records.
Context {world : WireWorld}.

(** What the checks beyond the schema establish. *)
Definition credential_fact (o : object) (field : string) : Prop :=
  forall v, member o field = Some v -> exists raw, v = text (EncodeToString raw) /\ length raw = 32.

Definition argv_fact (o : object) (field : string) : Prop :=
  exists inner command args, member o field = Some (JObject inner) /\ member inner "argv" = Some (JArray (map text (command :: args))) /\
    command <> "" /\ (argv_size (command :: args) <= 16384)%Z.

Definition file_fact (v : json) : Prop :=
  exists file data, v = JObject file /\ member file "data" = Some (text (StdEncode data)) /\
    member file "sha256" = Some (text (digest_text (bytes_string data))).

Definition data_fact (o : object) : Prop :=
  exists data, member o "data" = Some (text (StdEncode data)) /\ 1 <= length data <= N.to_nat 16384.

Definition capabilities_fact (o : object) : Prop :=
  exists l names, member o "capabilities" = Some (JArray l) /\ NoDup names /\
    Forall2 (fun v name => exists c, v = JObject c /\ member c "name" = Some (text name)) l names.

Definition files_fact (o : object) : Prop :=
  exists payload files, member o "payload" = Some (JObject payload) /\ member payload "files" = Some (JArray files) /\ Forall file_fact files.

Definition record_facts (record : string) (o : object) : Prop :=
  (forall field v, field ∈ time_fields -> member o field = Some v -> exists t, v = text t /\ time_Parse t = true) /\
  (record ∈ ["bootstrap_authorization"; "enrollment_request"; "enrollment_response"] ->
     credential_fact o "token" /\ credential_fact o "nonce") /\
  (record = "request" -> member o "operation" = Some (text "runtime.exec") -> argv_fact o "payload") /\
  (record = "stream_open" -> member o "kind" = Some (text "terminal") -> argv_fact o "terminal") /\
  (record = "request" -> member o "operation" = Some (text "artifact.bundle.stage") -> files_fact o) /\
  (record = "capabilities" -> capabilities_fact o) /\
  (record = "stream_event" -> member o "type" = Some (text "data") -> data_fact o).

Lemma check_time_Ok o field : check_time o field = Ok tt <-> forall v, member o field = Some v -> exists t, v = text t /\ time_Parse t = true.
Proof.
  unfold check_time, text. destruct (member o field) as [[[]| |]|]; try naive_solver.
  rewrite invalid_Ok, negb_false_iff. naive_solver.
Qed.

Lemma check_credential_Ok o field : check_credential o field = Ok tt -> credential_fact o field.
Proof.
  unfold check_credential, credential_fact. intros H v Hv. rewrite Hv in H. rewrite bind_Ok in H. destruct H as (t & Ht & H).
  apply as_string_Ok in Ht as [= ->]. destruct (DecodeStrict t) as [raw|]; [|done].
  rewrite invalid_Ok, orb_false_iff, negb_false_iff, Nat.eqb_eq, neqb_false in H. destruct H as [Hl <-]. by exists raw.
Qed.

Lemma check_argv_Ok o field : check_argv o field = Ok tt -> argv_fact o field.
Proof.
  unfold check_argv, argv_fact. intros H. inv_ok H. apply as_object_Ok in Hr. apply as_array_Ok in Hr0.
  rename x into inner, x0 into args, x1 into bounded.
  apply invalid_Ok, negb_false_iff in H as ->.
  assert (exists texts, args = map text texts) as [texts ->].
  { destruct args as [|first args]; [by exists []|]. unfold boundedWireArgv in Hr1. rewrite bind_Ok in Hr1.
    destruct Hr1 as (c & _ & Hr1). destruct (c == ""); [done|]. rewrite bind_Ok in Hr1. destruct Hr1 as (n & Hn & _).
    by eapply argv_texts. }
  rewrite boundedWireArgv_spec in Hr1. destruct texts as [|command texts]; [done|].
  injection Hr1 as [Hc%neqb_true Hsize%Z.leb_le]%andb_true_iff. by exists inner, command, texts.
Qed.

Lemma check_file_Ok v : check_file v = Ok tt -> file_fact v.
Proof.
  unfold check_file, file_fact. intros H. inv_ok H. apply as_object_Ok in Hr as [= ->]. apply as_string_Ok in Hr0.
  destruct (StdDecodeStrict x0) as [data|]; [|done]. rewrite seq_Ok, unit_Ok, !invalid_Ok, neqb_false, negb_false_iff, is_text_true in H.
  destruct H as [He H]. exists x, data. by rewrite He.
Qed.

Lemma check_data_Ok o : check_data o = Ok tt -> data_fact o.
Proof.
  unfold check_data, data_fact. intros H. inv_ok H. apply as_string_Ok in Hr.
  destruct (StdDecodeStrict x) as [data|]; [|done].
  rewrite invalid_Ok, !orb_false_iff, Nat.eqb_neq, Z.ltb_ge, neqb_false in H. destruct H as [[H1 H2] <-].
  exists data. change TargetAccessMaxStreamDataBytes with 16384%Z in H2. split; [done|lia].
Qed.

Definition capability_name (v : json) : result stop string :=
  c ← as_object (Some v); as_string (member c "name").

Definition named (v : json) (name : string) : Prop := exists c, v = JObject c /\ member c "name" = Some (text name).

Lemma capability_name_Ok v name : capability_name v = Ok name <-> named v name.
Proof.
  unfold capability_name, named. rewrite bind_Ok. setoid_rewrite as_object_Ok. setoid_rewrite as_string_Ok. naive_solver.
Qed.

Lemma check_capability_Ok seen v out :
  check_capability seen v = Ok out <->
  (exists name, named v name) /\ (default "" (match capability_name v with Ok n => Some n | Err _ => None end)) ∉ seen /\
  out = {[default "" (match capability_name v with Ok n => Some n | Err _ => None end)]} ∪ seen.
Proof.
  setoid_rewrite <- capability_name_Ok. unfold check_capability, capability_name.
  destruct (as_object (Some v)) as [c|e]; cbn; [|naive_solver].
  destruct (as_string (member c "name")) as [n|e]; cbn; [|naive_solver].
  case_decide; naive_solver.
Qed.

Lemma check_capabilities_Ok o l out :
  member o "capabilities" = Some (JArray l) -> forE check_capability ∅ l = Ok out -> capabilities_fact o.
Proof.
  intros Ho H. eapply forE_seen_empty in H; [|exact check_capability_Ok]. destruct H as (Hall & Hnd & _).
  eexists l, _. split_and!; [done|exact Hnd|]. clear -Hall. induction Hall as [|v l [name Hn] _ IH]; [constructor|].
  simpl. constructor; [|done]. pose proof Hn as Hk. apply capability_name_Ok in Hn as ->. exact Hk.
Qed.

Lemma check_object_Ok record o : check_object record o = Ok tt -> record_facts record o.
Proof.
  unfold check_object, record_facts. rewrite !seq_Ok, !unit_Ok. intros (Ht & Hc & Hx & Hs & Hb & Hn & Hd). split_and!.
  - intros field v Hf. rewrite forE_unit_Ok, Forall_forall in Ht. apply check_time_Ok. by apply Ht.
  - intros Hr. rewrite bool_decide_true, forE_unit_Ok, !Forall_cons in Hc by done.
    destruct Hc as (H1 & H2 & _). split; by apply check_credential_Ok.
  - intros -> Ho%is_text_true. rewrite Ho in Hx. by apply check_argv_Ok.
  - intros -> Ho%is_text_true. rewrite Ho in Hs. by apply check_argv_Ok.
  - intros -> Ho%is_text_true. rewrite Ho in Hb. simpl in Hb. inv_ok Hb. apply as_object_Ok in Hr. apply as_array_Ok in Hr0.
    rewrite forE_unit_Ok in Hb. exists x, x0. split_and!; [done..|]. eapply Forall_impl; [exact Hb|]. apply check_file_Ok.
  - intros ->. rewrite bool_decide_true in Hn by done. rewrite bind_Ok in Hn. destruct Hn as (l & Hl%as_array_Ok & Hn).
    apply seq_Ok in Hn as [[out Hn] _]. by eapply check_capabilities_Ok.
  - intros -> Ho%is_text_true. rewrite Ho in Hd. by apply check_data_Ok.
Qed.

(** A record that is accepted is one unambiguous object of the schema, of
    bounded size and depth, whose credentials, arguments, files and data are
    what the schema alone cannot say. *)
Theorem validated_record record data :
  ValidateTargetAccessRecord record data = Ok tt ->
  record ∈ wireRecords /\ (0 < len data <= 4194304)%Z /\ utf8_Valid (string_bytes data) = true /\
  exists o, lex data = render (JObject o) /\ unambiguous (JObject o) = true /\ height (JObject o) <= 64 /\
    schema_Validate record (JObject o) = true /\ record_facts record o.
Proof.
  unfold ValidateTargetAccessRecord, invalid. rewrite !reject_seq_Ok, !orb_false_iff.
  intros ((((Hr & Hl) & Hm) & Hu) & _ & H).
  destruct (strict_document (lex data)) as [| |v] eqn:Hv; [done|done|].
  apply (strict_document_spec (lex data)) in Hv as (Hlex & Hun & Hh).
  apply reject_seq_Ok in H as [Hs H]. destruct v as [|l|o]; [done|done|]. apply negb_false_iff in Hr, Hu, Hs.
  apply bool_decide_eq_true in Hr. apply Z.eqb_neq in Hl. apply Z.ltb_ge in Hm. change TargetAccessMaxFrameBytes with 4194304%Z in Hm.
  split_and!; [done|unfold len in *; lia|done|done|]. exists o. split_and!; try done. by apply check_object_Ok.
Qed.

(** ** No panic

    What the packaged schema says of the members that the code asserts the type
    of without a check. *)
Record schema_shapes : Prop := mkShapes {
  credential_shape record o field : record ∈ ["bootstrap_authorization"; "enrollment_request"; "enrollment_response"] ->
    schema_Validate record (JObject o) = true -> field ∈ ["token"; "nonce"] -> forall v, member o field = Some v -> exists s, v = text s;
  exec_shape o : schema_Validate "request" (JObject o) = true -> member o "operation" = Some (text "runtime.exec") ->
    exists payload args, member o "payload" = Some (JObject payload) /\ member payload "argv" = Some (JArray (map text args));
  terminal_shape o : schema_Validate "stream_open" (JObject o) = true -> member o "kind" = Some (text "terminal") ->
    exists payload args, member o "terminal" = Some (JObject payload) /\ member payload "argv" = Some (JArray (map text args));
  bundle_shape o : schema_Validate "request" (JObject o) = true -> member o "operation" = Some (text "artifact.bundle.stage") ->
    exists payload files, member o "payload" = Some (JObject payload) /\ member payload "files" = Some (JArray files) /\
      Forall (fun v => exists file data, v = JObject file /\ member file "data" = Some (text data)) files;
  capabilities_shape o : schema_Validate "capabilities" (JObject o) = true ->
    exists l, member o "capabilities" = Some (JArray l) /\ Forall (fun v => exists name, named v name) l;
  data_shape o : schema_Validate "stream_event" (JObject o) = true -> member o "type" = Some (text "data") ->
    exists data, member o "data" = Some (text data) }.

Definition no_panic {A} (r : result stop A) : Prop := r <> Err Panic.

Lemma no_panic_seq {A B} (r : result stop A) (k : result stop B) : no_panic r -> no_panic k -> no_panic (r ;; k).
Proof. unfold no_panic. destruct r; cbn; naive_solver. Qed.

Lemma no_panic_invalid c : no_panic (invalid c).
Proof. by destruct c. Qed.

Lemma no_panic_if (c : bool) (r : result stop unit) : (c = true -> no_panic r) -> no_panic (if c then r else Ok tt).
Proof. destruct c; [auto|done]. Qed.

Lemma no_panic_for {A S} (body : S -> A -> result stop S) st l :
  (forall st x, x ∈ l -> no_panic (body st x)) -> no_panic (forE body st l).
Proof.
  revert st. induction l as [|x l IH]; intros st H; [done|]. rewrite forE_cons. pose proof (H st x (list_elem_of_here _ _)) as Hx.
  destruct (body st x) as [st'|e]; cbn; [|by intros [= ->]]. apply IH. intros st2 y Hy. apply H. by right.
Qed.

Lemma no_panic_argv o field payload args :
  member o field = Some (JObject payload) -> member payload "argv" = Some (JArray (map text args)) -> no_panic (check_argv o field).
Proof.
  intros Hp Ha. unfold check_argv. rewrite Hp; cbn. rewrite Ha; cbn. rewrite boundedWireArgv_spec; cbn. apply no_panic_invalid.
Qed.

Lemma no_panic_object record o :
  schema_shapes -> schema_Validate record (JObject o) = true -> no_panic (check_object record o).
Proof.
  intros Hs Hv. unfold check_object.
  repeat apply no_panic_seq; [|apply no_panic_if..].
  - apply no_panic_for. intros [] field _. unfold check_time. destruct (member o field) as [[[]| |]|]; try done. apply no_panic_invalid.
  - intros Hr%bool_decide_eq_true. apply no_panic_for. intros [] field Hf. unfold check_credential.
    destruct (member o field) as [v|] eqn:Hm; [|done].
    destruct (credential_shape Hs record o field Hr Hv Hf v Hm) as [t ->]. cbn.
    destruct (DecodeStrict t); [apply no_panic_invalid|done].
  - intros [->%eqb_true Ho%is_text_true]%andb_true_iff. destruct (exec_shape Hs o Hv Ho) as (p & args & Hp & Ha).
    by eapply no_panic_argv.
  - intros [->%eqb_true Ho%is_text_true]%andb_true_iff. destruct (terminal_shape Hs o Hv Ho) as (p & args & Hp & Ha).
    by eapply no_panic_argv.
  - intros [->%eqb_true Ho%is_text_true]%andb_true_iff. destruct (bundle_shape Hs o Hv Ho) as (p & files & Hp & Hf & Hall).
    rewrite Hp; cbn. rewrite Hf; cbn. apply no_panic_for. intros [] v Hin.
    rewrite Forall_forall in Hall. destruct (Hall v Hin) as (file & data & -> & Hd).
    unfold check_file; cbn. rewrite Hd; cbn. destruct (StdDecodeStrict data); [|done].
    apply no_panic_seq; apply no_panic_invalid.
  - intros ->%eqb_true. destruct (capabilities_shape Hs o Hv) as (l & Hl & Hall). rewrite Hl; cbn.
    apply no_panic_seq; [|done]. apply no_panic_for. intros seen v Hin.
    rewrite Forall_forall in Hall. destruct (Hall v Hin) as (name & c & -> & Hn).
    unfold check_capability; cbn. rewrite Hn; cbn. by case_decide.
  - intros [->%eqb_true Ho%is_text_true]%andb_true_iff. destruct (data_shape Hs o Hv Ho) as (d & Hd).
    unfold check_data. rewrite Hd; cbn. destruct (StdDecodeStrict d); [apply no_panic_invalid|done].
Qed.

(** With the packaged schema, whatever is received is accepted or rejected:
    validation does not panic. *)
Theorem Validate_no_panic record data :
  schema_shapes -> ValidateTargetAccessRecord record data <> Err Panic.
Proof.
  intros Hs. fold (no_panic (ValidateTargetAccessRecord record data)). unfold ValidateTargetAccessRecord.
  apply no_panic_seq; [apply no_panic_invalid|]. apply no_panic_seq; [apply no_panic_invalid|].
  destruct (strict_document (lex data)) as [| |v]; [done|done|].
  destruct (schema_Validate record v) eqn:Hv; [|done]. cbn. destruct v as [|l|o]; [done|done|]. by apply no_panic_object.
Qed.
End records.

(** ** A concrete record

    A lexer of one text, and a schema that accepts objects with a capability
    list of named objects. *)
Module Example_wire.

Definition capabilities_text : string := "{capabilities:[{name:a},{name:b}]}".

Definition document : json :=
  JObject [("capabilities", JArray [JObject [("name", text "a")]; JObject [("name", text "b")]])].

#[export] Instance example_world : WireWorld := mkWireWorld
  (fun s => if s == capabilities_text then render document else [LInvalid])
  true
  (fun record v => (record == "capabilities") && match v with
     | JObject o => match member o "capabilities" with Some (JArray l) => is_ok (mapM (fun v => capability_name v) l) | _ => false end
     | _ => false
     end)
  (fun _ => false).

Example accepts : ValidateTargetAccessRecord "capabilities" capabilities_text = Ok tt.
Proof. vm_compute. reflexivity. Qed.

Example rejects_other : ValidateTargetAccessRecord "capabilities" "[]" = Err ErrTargetAccessWire.
Proof. vm_compute. reflexivity. Qed.

Lemma example_shapes : schema_shapes.
Proof.
  assert (forall record v, schema_Validate record v = true -> record = "capabilities") as Hrec.
  { intros record v [H%bool_decide_eq_true _]%andb_true_iff. exact H. }
  split.
  - intros record o field Hr Hv%Hrec. subst record. exfalso. revert Hr. apply (bool_decide_unpack (_ ∉ _)). vm_compute. exact I.
  - by intros o Hv%Hrec.
  - by intros o Hv%Hrec.
  - by intros o Hv%Hrec.
  - intros o [_ Hv]%andb_true_iff. destruct (member o "capabilities") as [[|l|]|] eqn:Hm0; try discriminate Hv.
    exists l. split; [done|]. destruct (mapM capability_name l) as [names|e] eqn:Hm; [|done].
    clear Hv Hm0. revert names Hm. induction l as [|v l IH]; intros names Hm; [constructor|].
    simpl in Hm. rewrite bind_Ok in Hm. destruct Hm as (n & Hn & Hm). rewrite bind_Ok in Hm. destruct Hm as (ns & Hm & _).
    constructor; [exists n; by apply capability_name_Ok|by eapply IH].
  - by intros o Hv%Hrec.
Qed.

Example validated_record_witness : (0 < len capabilities_text <= 4194304)%Z.
Proof. destruct (validated_record "capabilities" capabilities_text accepts) as (_ & H & _). exact H. Defined.

Example Validate_no_panic_witness : ValidateTargetAccessRecord "capabilities" "{" <> Err Panic.
Proof. exact (Validate_no_panic "capabilities" "{" example_shapes). Defined.

(** Ambiguous documents, trailing text and misplaced commas. *)
Example rejects_duplicate : strict_document (render (JObject [("a", text "x"); ("a", text "y")])) = Invalid.
Proof. vm_compute. reflexivity. Qed.
Example rejects_trailing : strict_document (render (text "x") ++ [LOpenArray]) = Invalid.
Proof. vm_compute. reflexivity. Qed.
Example rejects_comma : strict_document [LOpenArray; LScalar SNull; LComma; LCloseArray] = Invalid.
Proof. vm_compute. reflexivity. Qed.

(** 64 arrays around a value are accepted, 65 are not. *)
Example depth_64 : strict_document (render (Nat.iter 64 (fun v => JArray [v]) (text "x"))) = Value (Nat.iter 64 (fun v => JArray [v]) (text "x")).
Proof. vm_compute. reflexivity. Qed.
Example depth_65 : strict_document (render (Nat.iter 65 (fun v => JArray [v]) (text "x"))) = Invalid.
Proof. vm_compute. reflexivity. Qed.
End Example_wire.
