(* ===== verification/TargetSession.v ===== *)
(** * Target sessions (internal/targetsession: wire.go, session.go, pool.go)

    Length-prefixed records on a connection, the admission of a Connector, its
    one control request at a time, and the pool of sessions.  What the peer
    sends and what the network does with a write are data of the connection;
    contexts, clocks, deadlines and the registry answer per call, by the place
    they are asked at. *)

From S2P Require Import Prelude GoStrings StableId Base64 Sha256 Effects UpdatePlan OrgConfig CSR Enrollment Wire.

Definition ErrUnavailable : error :=
  errorsNew "authenticated Connector session is unavailable; reconcile before retrying a mutation".
Definition ErrWire : error := errorsNew "invalid or unsupported Target Access wire record".
Definition ErrShortWrite : error := errorsNew "short write".

Definition protocolVersion : string := "1".
Definition contractVersion : string := "baseharbor.target-access/v1".

(** ** Data (wire.go) *)

Record Node := mkNode {
  nd_TenantID : string;
  nd_NodeID : string;
  nd_TargetID : string;
  nd_Runtime : string;
  nd_Identity : string;
  nd_InstanceID : string }.

Global Instance Node_eq_dec : EqDecision Node.
Proof. solve_decision. Defined.

Definition Node_Scope (n : Node) : Scope := mkScope (nd_TenantID n) (nd_TargetID n) (nd_NodeID n) (nd_Runtime n).

Record Hello := mkHello {
  he_ContractVersions : list string;
  he_ProtocolVersions : list string;
  he_Node : Node }.

Record Request := mkRequest {
  tr_ContractVersion : string;
  tr_ProtocolVersion : string;
  tr_RequestID : string;
  tr_CorrelationID : string;
  tr_TargetID : string;
  tr_Operation : string;
  tr_IssuedAt : Z;
  tr_DeadlineAt : Z;
  tr_Payload : string }.

Record Problem := mkProblem {
  pr_Code : string;
  pr_Message : string;
  pr_Retryable : bool }.

Record Response := mkResponse {
  rs_ContractVersion : string;
  rs_ProtocolVersion : string;
  rs_RequestID : string;
  rs_CorrelationID : string;
  rs_Success : bool;
  rs_Result : string;
  rs_Error : option Problem }.

Record Capability := mkCapability {
  ca_Name : string;
  ca_Available : bool;
  ca_Detail : string }.

Record Capabilities := mkCapabilities {
  cs_ContractVersion : string;
  cs_ProtocolVersion : string;
  cs_Node : Node;
  cs_Capabilities : list Capability }.

(** encoding/json for one type *)
Class JSON (A : Type) := mkJSON {
  Marshal : A -> result error string;
  Unmarshal : string -> result error A }.

(** ** Connections

    The input is what successive reads deliver before the stream ends or
    fails.  A write of the script takes so many bytes, or fails after so many;
    without a script every write takes all. *)

Inductive write_outcome := Wrote (n : nat) | WriteFailed (n : nat) (e : error).

Record conn := mkConn {
  cn_Input : list string;
  cn_Output : string;
  cn_Script : list write_outcome }.

Fixpoint take_bytes (n : nat) (s : string) : string :=
  match n, s with S n, String c s => String c (take_bytes n s) | _, _ => "" end.
Fixpoint drop_bytes (n : nat) (s : string) : string :=
  match n, s with S n, String _ s => drop_bytes n s | _, _ => s end.

(** [io.ReadFull]: a read delivers no more than is asked for. *)
Fixpoint ReadFull (n : nat) (segments : list string) : option (string * list string) :=
  match segments with
  | [] => match n with O => Some ("", []) | _ => None end
  | segment :: rest =>
      if (n =? 0)%nat then Some ("", segments)
      else if (strlen segment <=? n)%nat then
        '(data, rest) ← ReadFull (n - strlen segment) rest;
        Some (segment +:+ data, rest)
      else Some (take_bytes n segment, drop_bytes n segment :: rest)
  end.

Definition conn_Write (part : string) (c : conn) : conn * nat * option error :=
  match cn_Script c with
  | [] => (mkConn (cn_Input c) (cn_Output c +:+ part) [], strlen part, None)
  | Wrote n :: script =>
      let n := (n `min` strlen part)%nat in
      (mkConn (cn_Input c) (cn_Output c +:+ take_bytes n part) script, n, None)
  | WriteFailed n e :: script =>
      let n := (n `min` strlen part)%nat in
      (mkConn (cn_Input c) (cn_Output c +:+ take_bytes n part) script, n, Some e)
  end.

(** [for len(part) > 0]: an iteration that continues has written a byte, so
    the length of the part bounds the iterations. *)
Fixpoint write_part (fuel : nat) (part : string) : M conn unit := fun c =>
  match fuel with
  | O => (c, Ok tt)
  | S fuel =>
      if part == "" then (c, Ok tt)
      else
        let '(c, n, err) := conn_Write part c in
        match err with
        | Some err => (c, Err err)
        | None => if (n <=? 0)%nat then (c, Err ErrShortWrite) else write_part fuel (drop_bytes n part) c
        end
  end.

(** The four bytes of the length, the most significant first, as 32 bits. *)
Definition PutUint32 (n : Z) : string := bytes_string (be_bytes 4 (n mod 2 ^ 32)).
Definition Uint32 (header : string) : Z := be_word (string_bytes header).

Section records.
Context {world : WireWorld}.

Definition valid_record (record data : string) : result error unit :=
  match ValidateTargetAccessRecord record data with Ok _ => Ok tt | Err _ => Err ErrWire end.

Definition read_input (n : nat) : M conn string := fun c =>
  match ReadFull n (cn_Input c) with
  | Some (data, rest) => (mkConn rest (cn_Output c) (cn_Script c), Ok data)
  | None => (mkConn [] (cn_Output c) (cn_Script c), Err (errorsNew "EOF"))
  end.

Definition readRecord {A} `{JSON A} (record : string) : M conn A :=
  header ← read_input 4;
  let size := Uint32 header in
  checkM ((size =? 0)%Z || (TargetAccessMaxFrameBytes <? size)%Z) ErrWire ;;
  data ← read_input (Z.to_nat size);
  pureM (valid_record record data) ;;
  pureM (Unmarshal data).

Definition writeRecord {A} `{JSON A} (record : string) (value : A) : M conn unit :=
  data ← pureM (Marshal value);
  pureM (valid_record record data) ;;
  let header := PutUint32 (len data) in
  write_part (strlen header) header ;;
  write_part (strlen data) data.
End records.

(** ** Sessions (session.go) *)

Class SessionEnv := mkSessionEnv {
  call_env :: Env;
  call_registry : NodeRegistry;
  net_fails : string -> bool }.

Record Session := mkSession {
  ss_Node : Node;
  ss_State : ConnectionState;
  ss_Capabilities : Capabilities;
  ss_Closed : bool;
  ss_Busy : bool;
  ss_Expires : Z;
  ss_Conn : conn }.

Definition Session_Scope (s : Session) : Scope := Node_Scope (ss_Node s).

Definition set_closed (s : Session) : Session :=
  mkSession (ss_Node s) (ss_State s) (ss_Capabilities s) true (ss_Busy s) (ss_Expires s) (ss_Conn s).
Definition set_busy (b : bool) (s : Session) : Session :=
  mkSession (ss_Node s) (ss_State s) (ss_Capabilities s) (ss_Closed s) b (ss_Expires s) (ss_Conn s).
Definition set_conn (s : Session) (c : conn) : Session :=
  mkSession (ss_Node s) (ss_State s) (ss_Capabilities s) (ss_Closed s) (ss_Busy s) (ss_Expires s) c.
Definition set_capabilities (s : Session) (c : Capabilities) : Session :=
  mkSession (ss_Node s) (ss_State s) c (ss_Closed s) (ss_Busy s) (ss_Expires s) (ss_Conn s).

Definition Close (s : Session) : Session := set_closed s.

(** [_ = s.Close(); return ErrUnavailable] *)
Definition retire {A} : M Session A := fun s => (Close s, Err ErrUnavailable).

Definition on_conn {A} (m : M conn A) : M Session A := fun s =>
  let '(c, r) := m (ss_Conn s) in (set_conn s c, r).

Definition available (c : Capabilities) (operation : string) : bool :=
  existsb (fun capability => (ca_Name capability == operation) && ca_Available capability) (cs_Capabilities c).

Definition zero_Node : Node := mkNode "" "" "" "" "" "".
Definition zero_Capabilities : Capabilities := mkCapabilities "" "" zero_Node [].

Section session.
Context {world : WireWorld} {x509 : X509} {env : SessionEnv}.
Context {json_hello : JSON Hello} {json_request : JSON Request} {json_response : JSON Response} {json_capabilities : JSON Capabilities}.

(** The request is one the session may send now. *)
Definition admissible (s : Session) (request : Request) (now : Z) : bool :=
  match Marshal request with
  | Ok data => is_ok (valid_record "request" data)
  | Err _ => false
  end &&
  (tr_TargetID request == nd_TargetID (ss_Node s)) &&
  (now <? tr_DeadlineAt request)%Z && (tr_IssuedAt request <? tr_DeadlineAt request)%Z &&
  (tr_DeadlineAt request <=? now + 30 * Minute)%Z && (now - 5 * Minute <=? tr_IssuedAt request)%Z &&
  (tr_IssuedAt request <=? now + 5 * Minute)%Z.

Definition offered (s : Session) (request : Request) : bool :=
  (nd_NodeID (cs_Node (ss_Capabilities s)) == "") || (tr_Operation request == "connector.capabilities") ||
  available (ss_Capabilities s) (tr_Operation request).

Definition admit_again (s : Session) : result error unit :=
  AdmitTLSNode (ss_State s) (Session_Scope s) (Some call_registry).

(** From here on every failure retires the connection. *)
Definition exchange (request : Request) : M Session Response := fun s =>
  (onErrM (pureM (reject (net_fails "read deadline" || net_fails "write deadline") ErrUnavailable)) (fun _ => retire)
    (fun _ =>
       onErrM (on_conn (writeRecord "request" request)) (fun _ => retire)
         (fun _ =>
            onErrM (on_conn (readRecord "response")) (fun _ => retire)
              (fun response : Response =>
                 if ctx_done "operation" || ctx_done "session" || (rs_RequestID response != tr_RequestID request) ||
                    (rs_CorrelationID response != tr_CorrelationID request)
                 then retire
                 else mret response)))) s.

Definition dispatch_exclusive (request : Request) : M Session Response := fun s =>
  (checkM (negb (admissible s request (time_Now "dispatch"))) ErrWire ;;
   checkM (negb (offered s request)) ErrUnavailable ;;
   onErrM (pureM (admit_again s)) (fun _ => retire) (fun _ => exchange request)) s.

(** The slot is taken without waiting and given back on every return. *)
Definition Dispatch (request : Request) : M Session Response := fun s =>
  if ctx_done "caller" || ss_Closed s || ss_Busy s then (s, Err ErrUnavailable)
  else
    let '(s, r) := dispatch_exclusive request (set_busy true s) in
    (set_busy false s, r).

Definition LiveCapabilities (s : Session) : result error Capabilities :=
  if ss_Closed s then Err ErrUnavailable else Ok (ss_Capabilities s).

(** ** Accepting a Connector *)

Definition core_hello (remote : Node) (coreIdentity : string) : Hello :=
  mkHello [contractVersion] [protocolVersion]
    (mkNode (nd_TenantID remote) "core" (nd_TargetID remote) (nd_Runtime remote) coreIdentity "").

Definition capabilities_request (targetID : string) (now : Z) : Request :=
  mkRequest contractVersion protocolVersion "admission-capabilities" "admission-capabilities" targetID
    "connector.capabilities" now (now + 10 * Second) "{}".

(** The session lives at most five minutes and not longer than the
    certificate. *)
Definition session_expiry (state : ConnectionState) (now : Z) : Z :=
  let expires := (now + 5 * Minute)%Z in
  match co_PeerCertificates state with
  | Some leaf :: _ => if (ce_NotAfter leaf <? expires)%Z then ce_NotAfter leaf else expires
  | _ => expires
  end.

Definition hello_exchange (coreIdentity : string) (state : ConnectionState) : M conn Node :=
  remote ← readRecord (A := Hello) "hello";
  let node := he_Node remote in
  checkM (nd_Identity node != Identity (Node_Scope node)) ErrUnavailable ;;
  pureM (AdmitTLSNode state (Node_Scope node) (Some call_registry)) ;;
  writeRecord "hello" (core_hello node coreIdentity) ;;
  mret node.

Definition negotiate (s : Session) : result error Session :=
  let '(s, r) := Dispatch (capabilities_request (nd_TargetID (ss_Node s)) (time_Now "request")) s in
  response ← r;
  reject (negb (rs_Success response) || is_err (valid_record "capabilities" (rs_Result response))) ErrUnavailable ;;
  capabilities ← Unmarshal (rs_Result response);
  reject (cs_Node capabilities != ss_Node s) ErrUnavailable ;;
  Ok (set_capabilities s capabilities).

(** [state] is what the handshake established. *)
Definition Accept (c : option conn) (registry : bool) (coreIdentity : string) (state : ConnectionState) : result error Session :=
  match c with
  | None => Err ErrUnavailable
  | Some c =>
      reject (negb registry || negb (HasPrefix coreIdentity "spiffe://baseharbor/platform/core/")) ErrUnavailable ;;
      reject (net_fails "set deadline" || net_fails "handshake") ErrUnavailable ;;
      let '(c, r) := hello_exchange coreIdentity state c in
      node ← wrap_err (fun _ => ErrUnavailable) r;
      let s := mkSession node state zero_Capabilities false false (session_expiry state (time_Now "accept")) c in
      reject (net_fails "lifetime") ErrUnavailable ;;
      wrap_err (fun _ => ErrUnavailable) (negotiate s)
  end.
End session.
