(* ===== verification/TargetSessionFacts.v ===== *)
(** * Facts about target sessions

    Records survive any segmentation of reads and writes; a session exchanges
    whole requests and responses in order and is retired by the first failure;
    an accepted session is admitted, bounded and bound to its node. *)

From Stdlib Require Import Strings.String Strings.Ascii.
From S2P Require Import Prelude GoStrings StableId Base64 Sha256 Effects UpdatePlan OrgConfig CSR Enrollment EnrollmentStore EnrollmentFacts Wire TargetSession.

(** ** Bytes *)

Definition flat (segments : list string) : string := foldr (fun s t => s +:+ t) "" segments.

Lemma take_drop_bytes n s : take_bytes n s +:+ drop_bytes n s = s.
Proof.
  revert s. induction n as [|n IH]; intros s; [by destruct s|]. destruct s as [|c s]; [done|].
  simpl. rewrite string_app_cons. by rewrite IH.
Qed.

Lemma take_bytes_length n s : strlen (take_bytes n s) = (n `min` strlen s)%nat.
Proof.
  unfold strlen. revert s. induction n as [|n IH]; intros s; [by destruct s|]. destruct s as [|c s]; [done|].
  simpl. by rewrite IH.
Qed.

Lemma drop_bytes_length n s : strlen (drop_bytes n s) = (strlen s - n)%nat.
Proof.
  unfold strlen. revert s. induction n as [|n IH]; intros s; [destruct s; simpl; lia|]. destruct s as [|c s]; [done|].
  simpl. by rewrite IH.
Qed.

(** A text of known length at the front of another. *)
Lemma front_unique a b c d : a +:+ b = c +:+ d -> strlen a = strlen c -> a = c /\ b = d.
Proof.
  revert c. induction a as [|x a IH]; intros c; destruct c as [|y c]; try done.
  rewrite !string_app_cons. intros [= -> H] [= Hl]. by destruct (IH c H Hl) as [-> ->].
Qed.

Lemma strlen_zero s : strlen s = 0%nat -> s = "".
Proof. by destruct s. Qed.

(** Reading depends on the bytes and not on how they were segmented. *)
Lemma ReadFull_Some n segments data rest :
  ReadFull n segments = Some (data, rest) -> flat segments = data +:+ flat rest /\ strlen data = n.
Proof.
  revert n data rest. induction segments as [|segment segments IH]; intros n data rest; simpl.
  { destruct n; [|done]. by intros [= <- <-]. }
  destruct (Nat.eqb_spec n 0) as [->|Hn]; [by intros [= <- <-]|].
  destruct (Nat.leb_spec (strlen segment) n) as [Hle|Hlt].
  - destruct (ReadFull _ segments) as [[d r]|] eqn:Hr; [|done]. intros [= <- <-].
    apply IH in Hr as [-> Hl]. rewrite string_app_assoc, strlen_app. split; [done|lia].
  - intros [= <- <-]. simpl. rewrite <- string_app_assoc, take_drop_bytes, take_bytes_length. split; [done|lia].
Qed.

Lemma ReadFull_front n segments front back :
  flat segments = front +:+ back -> strlen front = n -> exists rest, ReadFull n segments = Some (front, rest) /\ flat rest = back.
Proof.
  intros Hf Hl. assert (is_Some (ReadFull n segments)) as [[data rest] Hr].
  { assert (n <= strlen (flat segments))%nat as Hle by (rewrite Hf, strlen_app; lia). clear Hf Hl. revert n Hle.
    induction segments as [|segment segments IH]; intros n Hle; simpl in *.
    - assert (n = 0)%nat as -> by (unfold strlen in *; simpl in *; lia). done.
    - destruct (n =? 0)%nat; [done|]. destruct (Nat.leb_spec (strlen segment) n); [|done].
      rewrite strlen_app in Hle. destruct (IH (n - strlen segment)%nat ltac:(lia)) as [[d r] ->]. done. }
  exists rest. pose proof (ReadFull_Some _ _ _ _ Hr) as [Hc Hd]. rewrite Hf in Hc.
  apply front_unique in Hc as [-> ->]; [done|congruence].
Qed.

(** ** The length of a frame *)

Definition frame (data : string) : string := PutUint32 (len data) +:+ data.

Lemma bytes_string_length l : strlen (bytes_string l) = length l.
Proof. unfold strlen, bytes_string. induction l; simpl; congruence. Qed.

Lemma PutUint32_length n : strlen (PutUint32 n) = 4%nat.
Proof. unfold PutUint32. by rewrite bytes_string_length, be_bytes_length. Qed.

Lemma string_bytes_bytes_string l : Forall (fun b => (0 <= b < 256)%Z) l -> string_bytes (bytes_string l) = l.
Proof.
  unfold string_bytes, bytes_string. rewrite list_ascii_of_string_of_list_ascii. induction 1 as [|b l Hb _ IH]; [done|].
  simpl. rewrite IH. f_equal. unfold byte_of. rewrite Ascii.nat_ascii_embedding by lia. lia.
Qed.

Lemma Uint32_PutUint32 n : (0 <= n < 2 ^ 32)%Z -> Uint32 (PutUint32 n) = n.
Proof.
  intros Hn. unfold Uint32, PutUint32. rewrite string_bytes_bytes_string by apply be_bytes_range.
  rewrite Z.mod_small by done. unfold be_word. simpl. change 255%Z with (Z.ones 8). rewrite !Z.land_ones, !Z.shiftr_div_pow2 by lia.
  change (2 ^ 32)%Z with 4294967296%Z in Hn. 
  change (2 ^ 0)%Z with 1%Z. change (2 ^ 8)%Z with 256%Z. change (2 ^ 16)%Z with 65536%Z. change (2 ^ 24)%Z with 16777216%Z.
  simpl. Z.div_mod_to_equations. lia.
Qed.

Lemma Uint32_nonneg header : (0 <= Uint32 header)%Z.
Proof.
  unfold Uint32, be_word, string_bytes. generalize (list_ascii_of_string header). intros l.
  assert (forall acc, (0 <= acc)%Z -> (0 <= foldl (fun acc b => acc * 256 + b)%Z acc (map (fun c => Z.of_nat (nat_of_ascii c)) l))%Z) as Hf; [|by apply Hf].
  induction l as [|x l IH]; intros acc Ha; simpl; [done|]. apply IH. lia.
Qed.

Lemma be_bytes_be_word a b c d :
  (0 <= a < 256)%Z -> (0 <= b < 256)%Z -> (0 <= c < 256)%Z -> (0 <= d < 256)%Z ->
  be_bytes 4 (be_word [a; b; c; d] mod 2 ^ 32) = [a; b; c; d].
Proof.
  intros Ha Hb Hc Hd. unfold be_word. simpl. rewrite Z.mod_small by (change (2 ^ 32)%Z with 4294967296%Z; lia).
  change 255%Z with (Z.ones 8). rewrite !Z.land_ones, !Z.shiftr_div_pow2 by lia.
  change (2 ^ (8 * Z.of_nat 0))%Z with 1%Z. change (2 ^ (8 * Z.of_nat 1))%Z with 256%Z. change (2 ^ (8 * Z.of_nat 2))%Z with 65536%Z.
  change (2 ^ (8 * Z.of_nat 3))%Z with 16777216%Z. change (2 ^ 8)%Z with 256%Z.
  repeat f_equal; Z.div_mod_to_equations; lia.
Qed.

Lemma PutUint32_Uint32 header : strlen header = 4%nat -> PutUint32 (Uint32 header) = header.
Proof.
  intros Hl. assert (bytes_string (string_bytes header) = header) as Hs.
  { unfold bytes_string, string_bytes. clear Hl. induction header as [|x header IH]; [done|].
    simpl. rewrite IH. unfold byte_of. rewrite Nat2Z.id. by rewrite Ascii.ascii_nat_embedding. }
  rewrite <- Hs at 2. unfold PutUint32, Uint32. f_equal.
  assert (Forall (fun b => (0 <= b < 256)%Z) (string_bytes header)) as Hr.
  { unfold string_bytes. apply Forall_map, Forall_true. intros x. pose proof (Ascii.nat_ascii_bounded x). lia. }
  assert (length (string_bytes header) = 4%nat) as Hn.
  { unfold string_bytes. rewrite length_map. unfold strlen in Hl. rewrite <- Hl. clear. induction header; simpl; congruence. }
  destruct (string_bytes header) as [|a [|b [|c [|d [|]]]]]; try done.
  rewrite !Forall_cons in Hr. destruct Hr as (Ha & Hb & Hc & Hd & _). by apply be_bytes_be_word.
Qed.

(** ** Writing *)

Definition prefix_of (p s : string) : Prop := exists rest, p +:+ rest = s.

Lemma prefix_of_refl s : prefix_of s s.
Proof. exists "". apply string_app_nil_r. Qed.
Lemma prefix_of_nil s : prefix_of "" s.
Proof. by exists s. Qed.
Lemma prefix_of_app p s t : prefix_of p s -> prefix_of p (s +:+ t).
Proof. intros [r <-]. exists (r +:+ t). by rewrite string_app_assoc. Qed.
Lemma prefix_of_app_same s p t : prefix_of p t -> prefix_of (s +:+ p) (s +:+ t).
Proof. intros [r <-]. exists r. by rewrite string_app_assoc. Qed.

(** A loop of writes sends all of a part, or a prefix of it. *)
Definition sent (text : string) (c : conn) (r : conn * result error unit) : Prop :=
  cn_Input (fst r) = cn_Input c /\
  exists out, cn_Output (fst r) = cn_Output c +:+ out /\
    match snd r with Ok _ => out = text | Err _ => prefix_of out text end.

Lemma write_part_sent fuel part c : (strlen part <= fuel)%nat -> sent part c (write_part fuel part c).
Proof.
  revert part c. induction fuel as [|fuel IH]; intros part c Hf.
  { simpl. split; [done|]. exists "". rewrite string_app_nil_r. simpl. split; [done|]. symmetry. apply strlen_zero. lia. }
  simpl. case_bool_decide as Hp.
  { split; [done|]. exists "". by rewrite string_app_nil_r. }
  assert (forall n : nat, prefix_of (take_bytes n part) part) as Hpre.
  { intros n. exists (drop_bytes n part). apply take_drop_bytes. }
  assert (forall n script, (n <> 0)%nat ->
    sent part c (write_part fuel (drop_bytes n part) (mkConn (cn_Input c) (cn_Output c +:+ take_bytes n part) script))) as Hstep.
  { intros n script Hn. destruct (IH (drop_bytes n part) (mkConn (cn_Input c) (cn_Output c +:+ take_bytes n part) script)) as (Hi & out & Ho & Hr).
    { rewrite drop_bytes_length. assert (strlen part <> 0)%nat by (intros ?%strlen_zero; done). lia. }
    split; [exact Hi|]. exists (take_bytes n part +:+ out). rewrite Ho. simpl. split; [by rewrite string_app_assoc|].
    destruct (snd _) as [[]|e].
    - rewrite Hr. apply take_drop_bytes.
    - destruct Hr as [r Hr]. exists r. by rewrite string_app_assoc, Hr, take_drop_bytes. }
  unfold conn_Write. destruct (cn_Script c) as [|[n|n e] script].
  - assert (strlen part <> 0)%nat by (intros ?%strlen_zero; done).
    destruct (Nat.leb_spec (strlen part) 0); [lia|].
    pose proof (Hstep (strlen part) [] ltac:(lia)) as Hx.
    assert (take_bytes (strlen part) part = part) as Ht; [|by rewrite Ht in Hx].
    clear. unfold strlen. induction part as [|x part IH]; [done|]. simpl. by rewrite IH.
  - destruct (Nat.leb_spec (n `min` strlen part) 0).
    + split; [done|]. eexists. split; [done|]. apply Hpre.
    + apply Hstep. lia.
  - split; [done|]. eexists. split; [done|]. apply Hpre.
Qed.

(** ** Records *)

Section records.
Context {world : WireWorld}.

Definition records {A} `{JSON A} (record : string) (value : A) (data : string) : Prop :=
  Marshal value = Ok data /\ valid_record record data = Ok tt.

Lemma valid_record_length record data : valid_record record data = Ok tt -> (0 < len data <= TargetAccessMaxFrameBytes)%Z.
Proof.
  unfold valid_record, ValidateTargetAccessRecord, invalid. intros H.
  destruct (reject _ _ ;; _) as [[]|e] eqn:Hv; [|done]. apply reject_seq_Ok in Hv as [Hc _].
  rewrite !orb_false_iff, Z.eqb_neq, Z.ltb_ge in Hc. destruct Hc as [[[_ Hz] Hm] _]. unfold len in *. lia.
Qed.

(** A record is written as one frame, or a prefix of it. *)
Lemma writeRecord_spec {A} `{JSON A} record (value : A) c :
  let '(c', r) := writeRecord record value c in
  cn_Input c' = cn_Input c /\
  exists out, cn_Output c' = cn_Output c +:+ out /\
    match r with
    | Ok _ => exists data, records record value data /\ out = frame data
    | Err _ => out = "" \/ exists data, records record value data /\ prefix_of out (frame data)
    end.
Proof.
  unfold writeRecord, records, mbind, M_bind, pureM.
  destruct (Marshal value) as [data|e]; [|split; [done|]; exists ""; rewrite string_app_nil_r; auto].
  destruct (valid_record record data) as [[]|e] eqn:Hv; [|split; [done|]; exists ""; rewrite string_app_nil_r; auto].
  pose proof (write_part_sent (strlen (PutUint32 (len data))) (PutUint32 (len data)) c ltac:(lia)) as (Hi & out & Ho & Hr).
  destruct (write_part _ (PutUint32 (len data)) c) as [c1 [[]|e]]; simpl in *.
  - pose proof (write_part_sent (strlen data) data c1 ltac:(lia)) as (Hi2 & out2 & Ho2 & Hr2).
    destruct (write_part _ data c1) as [c2 r2]; simpl in *. split; [congruence|].
    exists (out +:+ out2). rewrite Ho2, Ho, string_app_assoc. split; [done|]. subst out. destruct r2 as [[]|e].
    + exists data. subst. by split_and!.
    + right. exists data. split; [done|]. by apply prefix_of_app_same.
  - split; [done|]. exists out. split; [done|]. right. exists data. split; [done|]. by apply prefix_of_app.
Qed.

Lemma readRecord_Ok {A} `{JSON A} record c c' (value : A) :
  readRecord record c = (c', Ok value) ->
  exists data, flat (cn_Input c) = frame data +:+ flat (cn_Input c') /\ valid_record record data = Ok tt /\ Unmarshal data = Ok value /\
    cn_Output c' = cn_Output c.
Proof.
  unfold readRecord, mbind, M_bind, pureM, checkM, read_input.
  destruct (ReadFull 4 (cn_Input c)) as [[header rest]|] eqn:H1; [|done].
  apply ReadFull_Some in H1 as [H1 L1].
  destruct (reject _ _) as [[]|] eqn:Hc; [|done]. simpl.
  destruct (ReadFull _ rest) as [[data rest2]|] eqn:H2; [|done]. simpl.
  apply ReadFull_Some in H2 as [H2 L2].
  destruct (valid_record record data) as [[]|] eqn:Hv; [|done]. simpl. intros [= <- Hu]. exists data. simpl.
  split; [|done]. rewrite H1, H2, <- string_app_assoc. f_equal. unfold frame. f_equal.
  (* the header is determined by the size *)
  assert (len data = Uint32 header) as Hlen.
  { unfold len. rewrite L2. apply reject_Ok in Hc. apply orb_false_iff in Hc as [_ Hc].
    pose proof (Uint32_nonneg header). lia. }
  rewrite Hlen. symmetry. by apply PutUint32_Uint32.
Qed.

Lemma readRecord_output {A} `{JSON A} record c : cn_Output (fst (readRecord (A := A) record c)) = cn_Output c.
Proof.
  unfold readRecord, mbind, M_bind, pureM, checkM, read_input.
  destruct (ReadFull 4 _) as [[header rest]|]; [|done]. simpl. destruct (reject _ _) as [[]|]; [|done]. simpl.
  destruct (ReadFull _ rest) as [[data rest2]|]; [|done]. simpl. by destruct (valid_record record data).
Qed.

(** However a frame was segmented, it is read as one record. *)
Lemma readRecord_frame {A} `{JSON A} record data rest c :
  flat (cn_Input c) = frame data +:+ rest -> valid_record record data = Ok tt ->
  exists input, flat input = rest /\ readRecord (A := A) record c = (mkConn input (cn_Output c) (cn_Script c), Unmarshal data).
Proof.
  intros Hf Hv. pose proof (valid_record_length _ _ Hv) as Hl.
  assert (TargetAccessMaxFrameBytes < 2 ^ 32)%Z as Hmax by done.
  unfold frame in Hf. rewrite string_app_assoc in Hf.
  destruct (ReadFull_front 4 _ _ _ Hf (PutUint32_length _)) as (r1 & H1 & F1).
  destruct (ReadFull_front (Z.to_nat (len data)) r1 data rest F1) as (r2 & H2 & F2); [unfold len; lia|].
  exists r2. split; [done|]. unfold readRecord, mbind, M_bind, pureM, checkM, read_input. rewrite H1.
  rewrite Uint32_PutUint32 by lia. simpl.
  rewrite (proj2 (Z.eqb_neq (len data) 0)) by lia. rewrite (proj2 (Z.ltb_ge TargetAccessMaxFrameBytes (len data))) by lia. simpl.
  rewrite H2. simpl. by rewrite Hv.
Qed.

(** What one side writes is what the other reads: if [Unmarshal] inverts
    [Marshal], a record that was written is read back from any stream of
    segments that starts with its bytes, and nothing more is consumed. *)
Theorem record_roundtrip {A} `{JSON A} record (value : A) writer writer' reader rest sent :
  (forall v data, Marshal v = Ok data -> Unmarshal data = Ok v) ->
  writeRecord record value writer = (writer', Ok tt) ->
  cn_Output writer' = cn_Output writer +:+ sent ->
  flat (cn_Input reader) = sent +:+ rest ->
  exists reader', readRecord (A := A) record reader = (reader', Ok value) /\ flat (cn_Input reader') = rest /\ cn_Output reader' = cn_Output reader.
Proof.
  intros Hjson Hw Ho Hi. pose proof (writeRecord_spec record value writer) as Hs. rewrite Hw in Hs.
  destruct Hs as (_ & out & Hout & data & [Hm Hv] & ->). rewrite Ho in Hout.
  apply front_unique in Hout as [_ ->]; [|done].
  destruct (readRecord_frame (A := A) record data rest reader Hi Hv) as (input & Hr & ->).
  exists (mkConn input (cn_Output reader) (cn_Script reader)). rewrite (Hjson _ _ Hm). done.
Qed.
End records.

(** ** One dispatch *)

Section session.
Context {world : WireWorld} {x509 : X509}.
Context {json_hello : JSON Hello} {json_request : JSON Request} {json_response : JSON Response} {json_capabilities : JSON Capabilities}.

(** The session differs in its connection only. *)
Definition same_session (s s' : Session) : Prop :=
  ss_Node s' = ss_Node s /\ ss_State s' = ss_State s /\ ss_Capabilities s' = ss_Capabilities s /\ ss_Expires s' = ss_Expires s.

(** What a request was checked for before it was sent. *)
Definition authorized {env : SessionEnv} (s : Session) (request : Request) : Prop :=
  admissible s request (time_Now "dispatch") = true /\ offered s request = true /\ admit_again s = Ok tt.

(** The request and the response are whole frames, in this order, and carry
    the same identifiers. *)
Definition answers (request : Request) (response : Response) : Prop :=
  rs_RequestID response = tr_RequestID request /\ rs_CorrelationID response = tr_CorrelationID request.

Definition exchanged (request : Request) (response : Response) (s s' : Session) : Prop :=
  exists out reply,
    records "request" request out /\ valid_record "response" reply = Ok tt /\ Unmarshal reply = Ok response /\
    cn_Output (ss_Conn s') = cn_Output (ss_Conn s) +:+ frame out /\
    flat (cn_Input (ss_Conn s)) = frame reply +:+ flat (cn_Input (ss_Conn s')) /\
    answers request response.

(** At most a prefix of the one frame was written. *)
Definition attempted (request : Request) (s s' : Session) : Prop :=
  exists out, cn_Output (ss_Conn s') = cn_Output (ss_Conn s) +:+ out /\
    (out = "" \/ exists data, records "request" request data /\ prefix_of out (frame data)).

Inductive dispatched {env : SessionEnv} (request : Request) (s : Session) : Session -> result error Response -> Prop :=
| dispatch_refused e : (e = ErrUnavailable \/ e = ErrWire) -> dispatched request s s (Err e)
| dispatch_retired s' : same_session s s' -> ss_Busy s' = false -> ss_Closed s' = true -> attempted request s s' ->
    (cn_Output (ss_Conn s') <> cn_Output (ss_Conn s) -> authorized s request) ->
    dispatched request s s' (Err ErrUnavailable)
| dispatch_answered s' response : same_session s s' -> ss_Busy s' = false -> ss_Closed s = false -> ss_Closed s' = false ->
    authorized s request -> exchanged request response s s' -> dispatched request s s' (Ok response).

Lemma attempted_none request s s' : cn_Output (ss_Conn s') = cn_Output (ss_Conn s) -> attempted request s s'.
Proof. intros H. exists "". rewrite string_app_nil_r. auto. Qed.

Lemma exchange_spec {env : SessionEnv} request s :
  ss_Closed s = false ->
  let '(s', r) := exchange request s in
  same_session s s' /\ ss_Busy s' = ss_Busy s /\
  match r with
  | Ok response => ss_Closed s' = false /\ exchanged request response s s'
  | Err e => e = ErrUnavailable /\ ss_Closed s' = true /\ attempted request s s'
  end.
Proof.
  intros Hopen. unfold exchange, onErrM, pureM, retire, on_conn, mret, M_ret.
  destruct (reject _ _) as [[]|]; [|split_and!; [done..|by apply attempted_none]].
  pose proof (writeRecord_spec "request" request (ss_Conn s)) as Hw.
  destruct (writeRecord "request" request (ss_Conn s)) as [c1 [[]|e]]; destruct Hw as (Hi & out & Ho & Hr).
  2: { split_and!; [done..|]. by exists out. }
  destruct Hr as (data & Hdata & ->). simpl ss_Conn.
  assert (forall s' : Session, cn_Output (ss_Conn s') = cn_Output c1 -> attempted request s s') as Hatt.
  { intros s' Hs'. exists (frame data). rewrite Hs', Ho. split; [done|]. right. exists data. split; [done|apply prefix_of_refl]. }
  destruct (readRecord "response" c1) as [c2 r] eqn:Hread.
  assert (cn_Output c2 = cn_Output c1) as Hout.
  { pose proof (readRecord_output (A := Response) "response" c1) as Hk. by rewrite Hread in Hk. }
  destruct r as [response|e]; [|split_and!; [done..|by apply Hatt]].
  destruct (_ || _) eqn:Hc; [split_and!; [done..|by apply Hatt]|].
  split_and!; [done..|]. apply readRecord_Ok in Hread as (reply & Hin & Hv & Hu & _).
  rewrite !orb_false_iff, !neqb_false in Hc. destruct Hc as ((_ & Hid) & Hcid).
  exists data, reply. split_and!; try done; simpl; congruence.
Qed.

Lemma dispatch_cases {env : SessionEnv} request s :
  let '(s', r) := Dispatch request s in dispatched request s s' r.
Proof.
  unfold Dispatch. destruct (ctx_done "caller" || ss_Closed s || ss_Busy s) eqn:Hg; [constructor; auto|].
  rewrite !orb_false_iff in Hg. destruct Hg as [[_ Hopen] Hbusy].
  assert (set_busy false (set_busy true s) = s) as Hs by (destruct s; simpl in *; by subst).
  unfold dispatch_exclusive, mbind, M_bind, checkM, onErrM, pureM, retire.
  destruct (negb (admissible _ _ _)) eqn:Ha; simpl; [rewrite Hs; constructor; auto|].
  destruct (negb (offered _ _)) eqn:Hof; simpl; [rewrite Hs; constructor; auto|].
  destruct (admit_again _) as [[]|e] eqn:Had.
  2: { apply dispatch_retired; try done. by apply attempted_none. }
  assert (authorized s request) as Hauth.
  { split_and!; [by apply negb_false_iff in Ha|by apply negb_false_iff in Hof|done]. }
  pose proof (exchange_spec request (set_busy true s) Hopen) as Hx.
  destruct (exchange request (set_busy true s)) as [s' [response|e]]; destruct Hx as (Hsame & Hb & Hx).
  - destruct Hx as [Hc Hx]. by apply dispatch_answered.
  - destruct Hx as (-> & Hc & Hx). by apply dispatch_retired.
Qed.

(** A session that was retired stays retired. *)
Lemma dispatched_closed {env : SessionEnv} request s s' r : dispatched request s s' r -> ss_Closed s = true -> ss_Closed s' = true.
Proof. destruct 1; [done|done|congruence]. Qed.

(** ** The history of a session

    Calls of any environment, and a close at any time by another goroutine. *)
Inductive occurrence := Call (env : SessionEnv) (request : Request) | Retired.

Definition happen (s : Session) (o : occurrence) : Session * list (Request * Response) :=
  match o with
  | Call env request => match Dispatch request s with (s', Ok response) => (s', [(request, response)]) | (s', Err _) => (s', []) end
  | Retired => (Close s, [])
  end.

Fixpoint history (s : Session) (l : list occurrence) : Session * list (Request * Response) :=
  match l with
  | [] => (s, [])
  | o :: l => let '(s1, log1) := happen s o in let '(s2, log2) := history s1 l in (s2, log1 ++ log2)
  end.

(** The bytes of an exchange. *)
Definition recorded (x : Request * Response) (bytes : string * string) : Prop :=
  records "request" (fst x) (fst bytes) /\ valid_record "response" (snd bytes) = Ok tt /\ Unmarshal (snd bytes) = Ok (snd x) /\
  answers (fst x) (snd x).

Definition frames (l : list string) : string := flat (map frame l).

Lemma frames_app l k : frames (l ++ k) = frames l +:+ frames k.
Proof. unfold frames. induction l as [|x l IH]; [done|]. simpl. by rewrite IH, string_app_assoc. Qed.

(** The last frame of a retired session, if it is incomplete or unanswered. *)
Definition last_attempt (l : list occurrence) (tail : string) : Prop :=
  tail = "" \/ exists env request data, Call env request ∈ l /\ records "request" request data /\ prefix_of tail (frame data).

Lemma history_closed s l :
  ss_Closed s = true -> let '(s', log) := history s l in log = [] /\ ss_Conn s' = ss_Conn s /\ ss_Closed s' = true.
Proof.
  revert s. induction l as [|o l IH]; intros s Hs; [done|]. cbn [history].
  assert (exists s1, happen s o = (s1, []) /\ ss_Conn s1 = ss_Conn s /\ ss_Closed s1 = true) as (s1 & -> & Hc & H1).
  { destruct o as [env request|]; cbn [happen]; [|by exists (Close s)].
    unfold Dispatch. rewrite Hs, orb_true_r. by exists s. }
  specialize (IH s1 H1). destruct (history s1 l) as [s2 log2]. destruct IH as (-> & H2 & H3). split_and!; [done|congruence|done].
Qed.

(** What one occurrence adds to the bytes of the connection. *)
Definition progress (s s' : Session) (log : list (Request * Response)) (l : list occurrence) : Prop :=
  exists bytes tail,
    Forall2 recorded log bytes /\ last_attempt l tail /\
    cn_Output (ss_Conn s') = cn_Output (ss_Conn s) +:+ frames (map fst bytes) +:+ tail /\
    (exists unread, flat (cn_Input (ss_Conn s)) = frames (map snd bytes) +:+ unread /\
       (ss_Closed s' = false -> tail = "" /\ unread = flat (cn_Input (ss_Conn s')))).

Lemma progress_none s s' l : ss_Conn s' = ss_Conn s -> progress s s' [] l.
Proof.
  intros Hc. exists [], "". split_and!; [constructor|by left| |].
  - simpl. by rewrite Hc, !string_app_nil_r.
  - exists (flat (cn_Input (ss_Conn s))). rewrite Hc. done.
Qed.

Lemma happen_progress s o : let '(s', log) := happen s o in progress s s' log [o].
Proof.
  destruct o as [env request|]; [|by apply progress_none]. cbn [happen].
  pose proof (dispatch_cases request s) as Hd. destruct (Dispatch request s) as [s' r].
  destruct Hd as [e He|s' Hsame Hb Hc (out & Ho & Hr) _|s' response Hsame Hb Ho Hc Ha Hx].
  - by apply progress_none.
  - exists [], out. split_and!; [constructor| |by rewrite Ho|exists (flat (cn_Input (ss_Conn s))); split; [done|congruence]].
    destruct Hr as [->|(data & Hd & Hp)]; [by left|right]. exists env, request, data. split; [left|done].
  - destruct Hx as (out & reply & Hrec & Hv & Hu & Ho' & Hi & Hans).
    exists [(out, reply)], "". split_and!; [constructor; [by split_and!|constructor]|by left| |].
    + unfold frames. simpl. by rewrite Ho', !string_app_nil_r.
    + exists (flat (cn_Input (ss_Conn s'))). split; [|done]. unfold frames. simpl. by rewrite string_app_nil_r.
Qed.

Lemma last_attempt_mono l k tail : last_attempt l tail -> (forall o, o ∈ l -> o ∈ k) -> last_attempt k tail.
Proof. intros [->|(env & request & data & Hin & H)] Hs; [by left|]. right. exists env, request, data. auto. Qed.

Lemma happen_closed s o s1 log : happen s o = (s1, log) -> ss_Closed s1 = false -> ss_Closed s = false.
Proof.
  destruct o as [env request|]; cbn [happen]; [|by intros [= <- <-]].
  pose proof (dispatch_cases request s) as Hd. destruct (Dispatch request s) as [s' r]. destruct r; intros [= <- <-] Hc.
  all: destruct (ss_Closed s) eqn:Hs; [|done]; by rewrite (dispatched_closed _ _ _ _ Hd Hs) in Hc.
Qed.

(** C26: Over any sequence of calls, with the environment changing and the session
    closed at any time, the connection carries whole requests and their
    responses, in the order of the calls and pairwise with the same
    identifiers; what a failed call wrote is at most one incomplete or
    unanswered frame, and nothing follows it. *)
Theorem session_exchanges s l : let '(s', log) := history s l in progress s s' log l.
Proof.
  revert s. induction l as [|o l IH]; intros s; [by apply progress_none|]. cbn [history].
  pose proof (happen_progress s o) as Hp. destruct (happen s o) as [s1 log1] eqn:Ho.
  destruct Hp as (bytes1 & tail1 & Hf1 & Hl1 & Ho1 & unread1 & Hi1 & Hc1).
  destruct (ss_Closed s1) eqn:Hs1.
  - pose proof (history_closed s1 l Hs1) as Hh. destruct (history s1 l) as [s2 log2]. destruct Hh as (-> & Hc & Hs2).
    exists bytes1, tail1. rewrite app_nil_r, Hc. split_and!; [done| |done|exists unread1; split; [done|congruence]].
    eapply last_attempt_mono; [exact Hl1|]. intros x ->%list_elem_of_singleton. left.
  - destruct (Hc1 eq_refl) as [-> ->]. specialize (IH s1). destruct (history s1 l) as [s2 log2].
    destruct IH as (bytes2 & tail2 & Hf2 & Hl2 & Ho2 & unread2 & Hi2 & Hc2).
    exists (bytes1 ++ bytes2), tail2. rewrite !map_app, !frames_app. split_and!.
    + by apply Forall2_app.
    + eapply last_attempt_mono; [exact Hl2|]. intros x Hx. by right.
    + by rewrite Ho2, Ho1, string_app_nil_r, !string_app_assoc.
    + exists unread2. split; [by rewrite Hi1, Hi2, string_app_assoc|done].
Qed.

(** ** Admission *)

Lemma hello_exchange_Ok {env : SessionEnv} coreIdentity state c c' node :
  hello_exchange coreIdentity state c = (c', Ok node) ->
  nd_Identity node = Identity (Node_Scope node) /\ AdmitTLSNode state (Node_Scope node) (Some call_registry) = Ok tt.
Proof.
  unfold hello_exchange, mbind, M_bind, checkM, pureM, mret, M_ret.
  destruct (readRecord (A := Hello) "hello" c) as [c1 [remote|e]]; [|done].
  destruct (reject _ _) as [[]|] eqn:Hid; [|done]. rewrite reject_Ok, neqb_false in Hid.
  destruct (AdmitTLSNode state (Node_Scope (he_Node remote)) (Some call_registry)) as [[]|] eqn:Ha; [|done]. cbv beta iota.
  destruct (writeRecord "hello" (core_hello (he_Node remote) coreIdentity) c1) as [c2 [[]|e]]; [|done]. intros [= <- <-]. auto.
Qed.

(** C27: An accepted session is open and idle, belongs to a node that the registry
    admits under the identity of its scope, negotiated its capabilities for that
    node, and ends within five minutes and before the certificate does. *)
Theorem Accept_admitted {env : SessionEnv} c registry coreIdentity state s :
  Accept c registry coreIdentity state = Ok s ->
  registry = true /\ HasPrefix coreIdentity "spiffe://baseharbor/platform/core/" = true /\
  nd_Identity (ss_Node s) = Identity (Session_Scope s) /\
  AdmitTLSNode state (Session_Scope s) (Some call_registry) = Ok tt /\
  cs_Node (ss_Capabilities s) = ss_Node s /\ ss_Closed s = false /\ ss_Busy s = false /\
  (ss_Expires s <= time_Now "accept" + 5 * Minute)%Z /\
  exists leaf rest, co_PeerCertificates state = Some leaf :: rest /\ (ss_Expires s <= ce_NotAfter leaf)%Z.
Proof.
  unfold Accept. destruct c as [c|]; [|done]. rewrite reject_seq_Ok, orb_false_iff, !negb_false_iff. intros [[Hreg Hcore] H].
  apply reject_seq_Ok in H as [_ H].
  destruct (hello_exchange coreIdentity state c) as [c1 r] eqn:Hx. destruct r as [node|e]; [|done]. cbn in H.
  apply hello_exchange_Ok in Hx as [Hid Hadm]. destruct (reject (net_fails "lifetime") ErrUnavailable) as [[]|]; [|done]. cbn in H.
  apply wrap_err_Ok in H. unfold negotiate in H.
  match goal with H : context [Dispatch ?q ?s0] |- _ => pose proof (dispatch_cases q s0) as Hd; destruct (Dispatch q s0) as [s1 [response|e]]; [|done] end.
  cbn in H. apply reject_seq_Ok in H as [_ H]. rewrite bind_Ok in H. destruct H as (capabilities & _ & H).
  apply reject_seq_Ok in H as [Hn H]. rewrite neqb_false in Hn. injection H as <-.
  inversion Hd as [| |s1' response' (Hnode & _ & _ & Hexp) Hbusy _ Hclosed _ _]; subst. simpl in Hnode, Hexp.
  unfold Session_Scope. simpl. rewrite Hnode, Hexp.
  unfold AdmitTLSNode in Hadm. apply reject_seq_Ok in Hadm as Hadm'. destruct Hadm' as [_ Hleaf].
  unfold session_expiry. destruct (co_PeerCertificates state) as [|[leaf|] rest] eqn:Hp; try done.
  split_and!; try done; [congruence|by destruct (Z.ltb_spec (ce_NotAfter leaf) (time_Now "accept" + 5 * Minute)); lia|].
  exists leaf, rest. split; [done|]. destruct (Z.ltb_spec (ce_NotAfter leaf) (time_Now "accept" + 5 * Minute)); lia.
Qed.
End session.

(** ** A concrete session

    The node of the sample of EnrollmentFacts connects; every record is a letter
    that stands for its document. *)
Module Example_session.

#[export] Instance world : WireWorld :=
  mkWireWorld (fun _ => render (JObject [("capabilities", JArray [])])) true (fun _ _ => true) (fun _ => true).

Definition node : Node :=
  mkNode (sc_TenantID Example_connector.scope) "node-1" "edge" "podman" (Identity Example_connector.scope) "".

Definition reply_to (id : string) : Response := mkResponse contractVersion protocolVersion id id true "c" None.

#[export] Instance json_hello : JSON Hello := mkJSON _ (fun _ => Ok "h") (fun _ => Ok (mkHello [contractVersion] [protocolVersion] node)).
#[export] Instance json_request : JSON Request := mkJSON _ (fun r => Ok (tr_RequestID r)) (fun _ => Err ErrWire).
#[export] Instance json_response : JSON Response := mkJSON _ (fun _ => Err ErrWire) (fun id => Ok (reply_to id)).
#[export] Instance json_capabilities : JSON Capabilities :=
  mkJSON _ (fun _ => Err ErrWire)
    (fun _ => Ok (mkCapabilities contractVersion protocolVersion node [mkCapability "runtime.exec" true ""; mkCapability "runtime.terminal" true ""])).
#[export] Instance json_text : JSON string := mkJSON _ (fun s => Ok s) (fun s => Ok s).

#[export] Instance env : SessionEnv :=
  mkSessionEnv Example_connector.env (mkNodeRegistry (fun _ _ _ => Ok tt) None) (fun _ => false).

Definition coreIdentity : string := "spiffe://baseharbor/platform/core/main".

(** The first record arrives in pieces, and writes are short. *)
Definition incoming : conn :=
  mkConn [bytes [0; 0]; bytes [0; 1] +:+ "h" +:+ frame "admission-capabilities"; frame "one"; frame "other"] "" [Wrote 1; Wrote 3].

Definition accept (c : conn) : result error Session :=
  Accept (x509 := Example_connector.x509) (Some c) true coreIdentity Example_connector.connection.

Definition session : Session :=
  mkSession node Example_connector.connection
    (mkCapabilities contractVersion protocolVersion node [mkCapability "runtime.exec" true ""; mkCapability "runtime.terminal" true ""])
    false false (10 + 5 * Minute)
    (mkConn [frame "one"; frame "other"] (frame "h" +:+ frame "admission-capabilities") []).

Example accepted : accept incoming = Ok session.
Proof. vm_compute. reflexivity. Qed.

Definition ask (id : string) : Request :=
  mkRequest contractVersion protocolVersion id id "edge" "runtime.exec" 5 (10 + Minute) "{}".

Definition ask_for (id operation : string) : Request :=
  mkRequest contractVersion protocolVersion id id "edge" operation 5 (10 + Minute) "{}".

(** The first request is answered; the answer to the second is another's, so
    the session is retired and the third is not sent. *)
Example conversation :
  let '(s, log) := history (x509 := Example_connector.x509) session
    [Call env (ask "one"); Call env (ask_for "no" "runtime.metrics"); Call env (ask "two"); Call env (ask "three")] in
  ss_Closed s = true /\ log = [(ask "one", reply_to "one")] /\
  cn_Output (ss_Conn s) = cn_Output (ss_Conn session) +:+ frame "one" +:+ frame "two".
Proof. vm_compute. split_and!; reflexivity. Qed.
End Example_session.

Import Example_session.

Lemma record_roundtrip_witness :
  exists reader', readRecord (A := string) "cancel" (mkConn [bytes [0]; bytes [0; 0]; bytes [2] +:+ "o"; "k!"] "" []) = (reader', Ok "ok") /\
    flat (cn_Input reader') = "!".
Proof.
  destruct (record_roundtrip "cancel" "ok" (mkConn [] "" [Wrote 1; Wrote 2]) (mkConn [] (frame "ok") [])
    (mkConn [bytes [0]; bytes [0; 0]; bytes [2] +:+ "o"; "k!"] "" []) "!" (frame "ok")) as (reader' & H1 & H2 & _).
  - by intros v data [= ->].
  - vm_compute. reflexivity.
  - reflexivity.
  - vm_compute. reflexivity.
  - by exists reader'.
Defined.

Lemma Accept_admitted_witness : (ss_Expires session <= 10 + 5 * Minute)%Z /\ cs_Node (ss_Capabilities session) = node.
Proof.
  destruct (@Accept_admitted _ _ _ _ _ _ _ _ _ _ _ _ accepted)
    as (_ & _ & _ & _ & H1 & _ & _ & H2 & _).
  split; [exact H2|exact H1].
Defined.
