(* ===== verification/TargetPool.v ===== *)
(** * The pool of target sessions (internal/targetsession/pool.go)

    Sessions by enrolled scope.  Sessions are shared by pointer: the pool holds
    their names, and what happens to a session is seen by every holder.  The
    loops of the code append to a slice of the array they read; what is left in
    the array when nothing is stored back is part of the model. *)

From S2P Require Import Prelude GoStrings StableId Base64 Sha256 Effects UpdatePlan OrgConfig CSR Enrollment EnrollmentStore EnrollmentFacts Wire TargetSession TargetSessionFacts.

Definition maxScopeSessions : nat := 4.

(** The sessions of the process, by address, and the map of the pool. *)
Record Pool := mkPool {
  po_Heap : gmap nat Session;
  po_Sessions : gmap Scope (list nat) }.

Definition NewPool : Pool := mkPool ∅ ∅.

Definition session_at (p : Pool) (id : nat) : option Session := po_Heap p !! id.

(** [session.ctx.Err() == nil] *)
Definition is_live (p : Pool) (id : nat) : bool :=
  match session_at p id with Some s => negb (ss_Closed s) | None => false end.

Definition is_free (p : Pool) (id : nat) : bool :=
  match session_at p id with Some s => negb (ss_Closed s) && negb (ss_Busy s) | None => false end.

Definition slot (p : Pool) (scope : Scope) : list nat := default [] (po_Sessions p !! scope).

(** [live := a[:0]], filtered in place: the array then holds the live entries
    followed by what they did not overwrite. *)
Definition in_place (live l : list nat) : list nat := live ++ drop (length live) l.

Definition store_slot (p : Pool) (scope : Scope) (l : list nat) : Pool :=
  mkPool (po_Heap p) (if decide (is_Some (po_Sessions p !! scope)) then <[scope := l]> (po_Sessions p) else po_Sessions p).

Definition add (id : nat) (key : Scope) (p : Pool) : Pool * result error unit :=
  let live := List.filter (is_live p) (slot p key) in
  if (maxScopeSessions <=? length live)%nat then (store_slot p key (in_place live (slot p key)), Err ErrUnavailable)
  else (mkPool (po_Heap p) (<[key := live ++ [id]]> (po_Sessions p)), Ok tt).

Definition remove (id : nat) (key : Scope) (p : Pool) : Pool :=
  let live := List.filter (fun other => (other != id) && is_live p other) (slot p key) in
  mkPool (po_Heap p) (if bool_decide (live = []) then delete key (po_Sessions p) else <[key := live]> (po_Sessions p)).

(** A session that was accepted, under the scope of its node. *)
Definition register (id : nat) (s : Session) (p : Pool) : Pool * result error unit :=
  let p := mkPool (<[id := s]> (po_Heap p)) (po_Sessions p) in add id (Session_Scope s) p.

Definition set_session (p : Pool) (id : nat) (s : Session) : Pool := mkPool (<[id := s]> (po_Heap p)) (po_Sessions p).

Definition pool_LiveCapabilities (scope : Scope) (p : Pool) : result error Capabilities :=
  if is_err (Scope_Validate scope) then Err ErrUnavailable
  else match List.find (is_live p) (slot p scope) ≫= session_at p with
  | Some s => LiveCapabilities s
  | None => Err ErrUnavailable
  end.

Section pool.
Context {world : WireWorld} {x509 : X509}.
Context {json_request : JSON Request} {json_response : JSON Response}.

(** The first session that is live and free carries the request, and no
    other. *)
Definition pool_Dispatch (env : SessionEnv) (scope : Scope) (request : Request) (p : Pool) : Pool * result error Response :=
  if is_err (Scope_Validate scope) || (tr_TargetID request != sc_TargetID scope) then (p, Err ErrUnavailable)
  else match List.find (is_free p) (slot p scope) with
  | None => (p, Err ErrUnavailable)
  | Some id =>
      match session_at p id with
      | None => (p, Err ErrUnavailable)
      | Some s => let '(s, r) := Dispatch request s in (set_session p id s, r)
      end
  end.

(** ** The life of a pool *)

Inductive pool_step : Pool -> Pool -> Prop :=
| pool_register id s p : session_at p id = None -> pool_step p (fst (register id s p))
| pool_remove id s p : session_at p id = Some s -> pool_step p (remove id (Session_Scope s) p)
| pool_dispatch env scope request p : pool_step p (fst (pool_Dispatch env scope request p))
| pool_retired id s p : session_at p id = Some s -> pool_step p (set_session p id (Close s))
| pool_taken id s p : session_at p id = Some s -> pool_step p (set_session p id (set_busy true s)).
End pool.

(** ** Facts *)

Definition slot_ok (p : Pool) (scope : Scope) (l : list nat) : Prop :=
  l <> [] /\ length l <= maxScopeSessions /\ NoDup l /\
  forall id, id ∈ l -> exists s, session_at p id = Some s /\ Session_Scope s = scope.

Definition pool_ok (p : Pool) : Prop := forall scope l, po_Sessions p !! scope = Some l -> slot_ok p scope l.

Lemma filter_all {A} (f : A -> bool) l n : length l <= n -> n <= length (List.filter f l) -> List.filter f l = l.
Proof.
  revert n. induction l as [|x l IH]; intros n Hl Hf; [done|]. simpl in *. destruct (f x).
  - f_equal. apply (IH (pred n)); simpl in *; lia.
  - pose proof (List.filter_length_le f l). lia.
Qed.

Lemma filter_NoDup_true {A} (f : A -> bool) l : NoDup l -> NoDup (List.filter f l).
Proof. intros H. eapply sublist_NoDup; [exact H|apply filter_sublist_of]. Qed.

Lemma slot_elem p scope id : pool_ok p -> id ∈ slot p scope -> exists s, session_at p id = Some s /\ Session_Scope s = scope.
Proof.
  intros Hp. unfold slot. destruct (po_Sessions p !! scope) as [l|] eqn:Hl; simpl; [|by intros ?%elem_of_nil].
  destruct (Hp _ _ Hl) as (_ & _ & _ & H). apply H.
Qed.

Lemma slot_length p scope : pool_ok p -> length (slot p scope) <= maxScopeSessions.
Proof.
  intros Hp. unfold slot. destruct (po_Sessions p !! scope) as [l|] eqn:Hl; simpl; [by destruct (Hp _ _ Hl) as (_ & ? & _)|unfold maxScopeSessions; lia].
Qed.

Lemma slot_NoDup p scope : pool_ok p -> NoDup (slot p scope).
Proof. intros Hp. unfold slot. destruct (po_Sessions p !! scope) as [l|] eqn:Hl; simpl; [by apply Hp in Hl as (_ & _ & ? & _)|constructor]. Qed.

(** A session changed in place keeps its scope. *)
Lemma set_session_ok p id s s' :
  pool_ok p -> session_at p id = Some s -> ss_Node s' = ss_Node s -> pool_ok (set_session p id s').
Proof.
  intros Hp Hs Hn scope l Hl. destruct (Hp scope l Hl) as (H1 & H2 & H3 & H4). split_and!; [done..|].
  intros i Hi. destruct (H4 i Hi) as (si & Hsi & Hscope). unfold session_at, set_session in *. simpl.
  destruct (decide (i = id)) as [->|Hne].
  - exists s'. rewrite lookup_insert_eq. split; [done|]. rewrite Hs in Hsi. injection Hsi as ->. unfold Session_Scope in *. by rewrite Hn.
  - exists si. by rewrite lookup_insert_ne.
Qed.

Lemma store_slot_full p scope l : po_Sessions p !! scope = Some l -> store_slot p scope l = p.
Proof.
  intros Hl. unfold store_slot. rewrite decide_True by (rewrite Hl; eauto). rewrite insert_id by done. by destruct p.
Qed.

Lemma register_ok id s p : pool_ok p -> session_at p id = None -> pool_ok (fst (register id s p)).
Proof.
  intros Hp Hid. unfold register. set (q := mkPool _ _).
  assert (pool_ok q) as Hq.
  { intros scope l Hl. destruct (Hp scope l Hl) as (H1 & H2 & H3 & H4). split_and!; [done..|].
    intros i Hi. destruct (H4 i Hi) as (si & Hsi & Hscope). exists si. split; [|done].
    unfold session_at, q in *; simpl. rewrite lookup_insert_ne; [done|]. intros ->. congruence. }
  assert (session_at q id = Some s) as Hs by (unfold session_at, q; simpl; by rewrite lookup_insert_eq).
  assert (id ∉ slot q (Session_Scope s)) as Hnew.
  { intros Hin. change (slot q (Session_Scope s)) with (slot p (Session_Scope s)) in Hin.
    destruct (slot_elem _ _ _ Hp Hin) as (s0 & Hs0 & _). congruence. }
  clearbody q. unfold add. set (key := Session_Scope s) in *. set (live := List.filter (is_live q) (slot q key)).
  destruct (Nat.leb_spec maxScopeSessions (length live)) as [Hfull|Hroom]; simpl.
  - pose proof (slot_length q key Hq) as Hlen.
    assert (live = slot q key) as Hlive by (by eapply filter_all).
    unfold in_place. rewrite Hlive, drop_all, app_nil_r.
    unfold slot in *. destruct (po_Sessions q !! key) as [l|] eqn:Hl; simpl in *; [by rewrite store_slot_full|].
    unfold live in Hfull. simpl in Hfull. unfold maxScopeSessions in Hfull. lia.
  - intros scope l. simpl. destruct (decide (scope = key)) as [->|Hne].
    + rewrite lookup_insert_eq. intros [= <-]. split_and!.
      * by destruct live.
      * rewrite length_app. simpl. lia.
      * apply NoDup_app. split_and!; [by apply filter_NoDup_true, slot_NoDup| |apply NoDup_singleton].
        intros x [_ Hx]%elem_of_filter_true ->%list_elem_of_singleton. done.
      * intros i [Hi|Hi]%elem_of_app.
        -- apply elem_of_filter_true in Hi as [_ Hi]. exact (slot_elem q key i Hq Hi).
        -- apply list_elem_of_singleton in Hi as ->. exists s. split; [exact Hs|done].
    + rewrite lookup_insert_ne by done. apply Hq.
Qed.

Lemma remove_ok id key p : pool_ok p -> pool_ok (remove id key p).
Proof.
  intros Hp scope l. unfold remove. set (live := List.filter _ (slot p key)). simpl.
  destruct (decide (scope = key)) as [->|Hne].
  - case_bool_decide as Hl; [by rewrite lookup_delete_eq|]. rewrite lookup_insert_eq. intros [= <-]. split_and!; [done| | |].
    + etrans; [apply List.filter_length_le|]. by apply slot_length.
    + by apply filter_NoDup_true, slot_NoDup.
    + intros i [_ Hi]%elem_of_filter_true. exact (slot_elem p key i Hp Hi).
  - intros Hl. apply Hp. revert Hl. case_bool_decide; [by rewrite lookup_delete_ne|by rewrite lookup_insert_ne].
Qed.

Section pool_facts.
Context {world : WireWorld} {x509 : X509}.
Context {json_request : JSON Request} {json_response : JSON Response}.

Lemma dispatched_node {env : SessionEnv} request s s' r : dispatched request s s' r -> ss_Node s' = ss_Node s.
Proof. destruct 1 as [|? (H & _)|? ? (H & _)]; done. Qed.

(** A request is carried by at most one session, which is live, free and of
    exactly the scope that was asked for; nothing else changes. *)
Definition routed (env : SessionEnv) (scope : Scope) (request : Request) (p p' : Pool) (r : result error Response) : Prop :=
  (p' = p /\ r = Err ErrUnavailable) \/
  exists id s s', id ∈ slot p scope /\ session_at p id = Some s /\ Session_Scope s = scope /\ ss_Closed s = false /\ ss_Busy s = false /\
    p' = set_session p id s' /\ dispatched request s s' r.

Lemma pool_Dispatch_routed env scope request p :
  pool_ok p -> let '(p', r) := pool_Dispatch env scope request p in routed env scope request p p' r.
Proof.
  intros Hp. unfold pool_Dispatch. destruct (_ || _); [by left|].
  destruct (List.find (is_free p) (slot p scope)) as [id|] eqn:Hf; [|by left].
  apply List.find_some in Hf as [Hin%list_elem_of_In Hfree]. unfold is_free in Hfree.
  destruct (session_at p id) as [s|] eqn:Hs; [|done]. apply andb_true_iff in Hfree as [Hc%negb_true_iff Hb%negb_true_iff].
  pose proof (dispatch_cases request s) as Hd. destruct (Dispatch request s) as [s' r].
  right. exists id, s, s'. destruct (slot_elem p scope id Hp Hin) as (s0 & Hs0 & Hscope). rewrite Hs in Hs0. injection Hs0 as <-.
  by split_and!.
Qed.

Inductive pool_reachable : Pool -> Prop :=
| pool_new : pool_reachable NewPool
| pool_next p p' : pool_reachable p -> pool_step p p' -> pool_reachable p'.

Lemma pool_reachable_ok p : pool_reachable p -> pool_ok p.
Proof.
  induction 1 as [|p p' _ IH Hstep]; [by intros scope l|].
  destruct Hstep as [id s p Hid|id s p Hs|env scope request p|id s p Hs|id s p Hs].
  - by apply register_ok.
  - by apply remove_ok.
  - pose proof (pool_Dispatch_routed env scope request p IH) as Hr. destruct (pool_Dispatch env scope request p) as [p' r].
    destruct Hr as [[-> _]|(id & s & s' & _ & Hs & _ & _ & _ & -> & Hd)]; [done|].
    eapply set_session_ok; [done|exact Hs|]. by eapply dispatched_node.
  - by eapply set_session_ok.
  - by eapply set_session_ok.
Qed.

(** C28: In every pool that sessions were added to, dispatched on, retired from and
    removed from in any order, a scope has at most four sessions, all of that
    scope, and a dispatch reaches at most one of them. *)
Theorem pool_isolation p env scope request :
  pool_reachable p ->
  length (slot p scope) <= 4 /\ NoDup (slot p scope) /\
  (forall id, id ∈ slot p scope -> exists s, session_at p id = Some s /\ Session_Scope s = scope) /\
  let '(p', r) := pool_Dispatch env scope request p in routed env scope request p p' r.
Proof.
  intros Hp%pool_reachable_ok. split_and!; [by apply slot_length|by apply slot_NoDup|intros id; by apply slot_elem|by apply pool_Dispatch_routed].
Qed.
End pool_facts.

(** ** A concrete pool: a request goes to the free one of two sessions *)

Module Example_pool.
Import Example_session.

Definition busy_session : Session := set_busy true session.

Definition pool : Pool := fst (register 1 session (fst (register 0 busy_session NewPool))).

Lemma pool_is_reachable : pool_reachable (x509 := Example_connector.x509) pool.
Proof.
  apply (pool_next (fst (register 0 busy_session NewPool))); [|by apply pool_register].
  apply (pool_next NewPool); [apply pool_new|by apply pool_register].
Qed.

Example routed_to_free :
  let '(p, r) := pool_Dispatch (x509 := Example_connector.x509) env Example_connector.scope (ask "one") pool in
  session_at p 0 = Some busy_session /\ r = Ok (reply_to "one").
Proof. vm_compute. split; reflexivity. Qed.

(** The fifth session of a scope is refused. *)
Definition five : Pool * result error unit :=
  register 4 session (foldl (fun p id => fst (register id session p)) NewPool [0; 1; 2; 3]).

Example full : snd five = Err ErrUnavailable /\ slot (fst five) Example_connector.scope = [0; 1; 2; 3].
Proof. vm_compute. split; reflexivity. Qed.
End Example_pool.

Lemma pool_isolation_witness : length (slot Example_pool.pool Example_connector.scope) <= 4.
Proof.
  exact (proj1 (pool_isolation Example_pool.pool Example_session.env Example_connector.scope (Example_session.ask "one") Example_pool.pool_is_reachable)).
Defined.
