(* ===== verification/TargetStream.v ===== *)
(** * Streams over a target session (internal/targetsession: stream.go,
    stream_wire.go)

    A stream takes a session for good: the events of the peer are delivered in
    order to a pipe, terminal input is sent in bounded pieces, and every outcome
    retires the session. *)

From S2P Require Import Prelude GoStrings StableId Base64 Sha256 Effects UpdatePlan OrgConfig CSR Enrollment EnrollmentStore EnrollmentFacts Wire TargetSession TargetSessionFacts TargetPool.

(** ** Data (stream_wire.go) *)

Record LogOptions := mkLogOptions {
  lo_Tail : Z;
  lo_Since : string;
  lo_Follow : bool }.

Record TerminalOptions := mkTerminalOptions {
  to_Rows : Z;
  to_Cols : Z;
  to_Argv : list string }.

Record StreamOpen := mkStreamOpen {
  so_ContractVersion : string;
  so_ProtocolVersion : string;
  so_StreamID : string;
  so_CorrelationID : string;
  so_TargetID : string;
  so_ResourceID : string;
  so_Kind : string;
  so_DeadlineAt : Z;
  so_Logs : option LogOptions;
  so_Terminal : option TerminalOptions }.

Record streamEvent := mkEvent {
  ev_ContractVersion : string;
  ev_ProtocolVersion : string;
  ev_StreamID : string;
  ev_CorrelationID : string;
  ev_Sequence : Z;
  ev_ObservedAt : Z;
  ev_Type : string;
  ev_Data : string;
  ev_Rows : Z;
  ev_Cols : Z;
  ev_ExitCode : option Z;
  ev_Message : string }.

(** What a caller observes of a stream: the bytes delivered to the pipe, and
    once it is done the exit code and the error. *)
Record Stream := mkStream {
  sm_Open : StreamOpen;
  sm_Cancelled : bool;
  sm_InputSequence : Z;
  sm_Delivered : string;
  sm_ExitCode : Z;
  sm_Err : option error }.

(** [sequence++] on a uint64 *)
Definition next_sequence (n : Z) : Z := ((n + 1) mod 2 ^ 64)%Z.

(** Contexts, clocks and deadlines at an event of the peer or of the caller,
    by its sequence number.  A write to the pipe fails when the reader is gone;
    it may have taken some bytes. *)
Class StreamEnv := mkStreamEnv {
  stream_call :: SessionEnv;
  receive_done : Z -> bool;
  pipe_fails : Z -> option nat;
  input_done : Z -> bool;
  input_fails : Z -> bool;
  input_time : Z -> Z }.

Section stream.
Context {world : WireWorld} {x509 : X509} {env : StreamEnv}.
Context {json_open : JSON StreamOpen} {json_event : JSON streamEvent}.

(** ** Opening *)

Definition openable (s : Session) (open : StreamOpen) (now : Z) : bool :=
  match Marshal open with
  | Ok data => is_ok (valid_record "stream_open" data)
  | Err _ => false
  end &&
  (so_TargetID open == nd_TargetID (ss_Node s)) && (now <? so_DeadlineAt open)%Z && (so_DeadlineAt open <=? now + 5 * Minute)%Z.

Definition stream_capability (open : StreamOpen) : string :=
  if so_Kind open == "terminal" then "runtime.terminal" else "runtime.logs.read".

Definition matches (open : StreamOpen) (event : streamEvent) (sequence : Z) : bool :=
  (ev_StreamID event == so_StreamID open) && (ev_CorrelationID event == so_CorrelationID open) && (ev_Sequence event =? sequence)%Z.

Definition start_stream (open : StreamOpen) : M Session Stream := fun s =>
  (onErrM (pureM (reject (net_fails "read deadline" || net_fails "write deadline") ErrUnavailable)) (fun _ => retire)
    (fun _ =>
       onErrM (on_conn (writeRecord "stream_open" open)) (fun _ => retire)
         (fun _ =>
            onErrM (on_conn (readRecord "stream_event")) (fun _ => retire)
              (fun ready : streamEvent =>
                 if negb (matches open ready 1) || (ev_Type ready != "ready") || ctx_done "lifetime" then retire
                 else mret (mkStream open false 0 "" (-1) None))))) s.

(** The slot of the session is never given back. *)
Definition OpenStream (open : StreamOpen) : M Session Stream := fun s =>
  if ctx_done "caller" || ss_Closed s then (s, Err ErrUnavailable)
  else if negb (openable s open (time_Now "open")) then (s, Err ErrWire)
  else if negb (available (ss_Capabilities s) (stream_capability open)) then (s, Err ErrUnavailable)
  else if ss_Busy s then (s, Err ErrUnavailable)
  else (onErrM (pureM (admit_again s)) (fun _ => retire) (fun _ => start_stream open)) (set_busy true s).

(** ** Receiving *)

Definition failed (st : Stream) : Stream :=
  mkStream (sm_Open st) (sm_Cancelled st) (sm_InputSequence st) (sm_Delivered st) (sm_ExitCode st) (Some ErrUnavailable).
Definition delivered (st : Stream) (data : string) : Stream :=
  mkStream (sm_Open st) (sm_Cancelled st) (sm_InputSequence st) (sm_Delivered st +:+ data) (sm_ExitCode st) (sm_Err st).
Definition exited (st : Stream) (code : Z) : Stream :=
  mkStream (sm_Open st) (sm_Cancelled st) (sm_InputSequence st) (sm_Delivered st) code (sm_Err st).

(** Whether the loop goes on after an event. *)
Inductive received := Continue (st : Stream) | Done (st : Stream).

Definition receive_event (sequence : Z) (event : streamEvent) (st : Stream) : received :=
  let open := sm_Open st in
  if ev_Type event == "data" then
    match pipe_fails sequence with
    | Some n => Done (failed (delivered st (take_bytes n (ev_Data event))))
    | None => Continue (delivered st (ev_Data event))
    end
  else if ev_Type event == "exit" then
    match ev_ExitCode event with
    | Some code => if so_Kind open != "terminal" then Done (failed st) else Done (exited st code)
    | None => Done (failed st)
    end
  else if ev_Type event == "end" then
    if so_Kind open != "logs" then Done (failed st) else Done st
  else Done (failed st).

(** [None] when the fuel is used up; a successful read consumes at least five
    bytes, so the bytes of the input are fuel enough. *)
Fixpoint receive (fuel : nat) (sequence : Z) (st : Stream) (c : conn) : option (Stream * conn) :=
  match fuel with
  | O => None
  | S fuel =>
      match readRecord (A := streamEvent) "stream_event" c with
      | (c, Err _) => Some (failed st, c)
      | (c, Ok event) =>
          if negb (matches (sm_Open st) event sequence) || receive_done sequence then Some (failed st, c)
          else match receive_event sequence event st with
          | Continue st => receive fuel (next_sequence sequence) st c
          | Done st => Some (st, c)
          end
      end
  end.

Definition receive_fuel (c : conn) : nat := strlen (flat (cn_Input c)) + 1.

(** The goroutine of the stream: whatever it received, the session is closed
    and the stream cancelled. *)
Definition run_stream (st : Stream) (s : Session) : option (Stream * Session) :=
  '(st, c) ← receive (receive_fuel (ss_Conn s)) 2 st (ss_Conn s);
  Some (mkStream (sm_Open st) true (sm_InputSequence st) (sm_Delivered st) (sm_ExitCode st) (sm_Err st), Close (set_conn s c)).

(** ** Input *)

Definition input_event (open : StreamOpen) (sequence : Z) (kind data : string) (rows cols : Z) : streamEvent :=
  mkEvent contractVersion protocolVersion (so_StreamID open) (so_CorrelationID open) sequence (input_time sequence) kind data rows cols None "".

Definition set_input_sequence (st : Stream) (n : Z) : Stream :=
  mkStream (sm_Open st) (sm_Cancelled st) n (sm_Delivered st) (sm_ExitCode st) (sm_Err st).

Definition stream_Close (st : Stream) : Stream :=
  mkStream (sm_Open st) true (sm_InputSequence st) (sm_Delivered st) (sm_ExitCode st) (sm_Err st).

Definition input (kind data : string) (rows cols : Z) : M (Stream * Session) unit := fun '(st, s) =>
  let sequence := next_sequence (sm_InputSequence st) in
  if (so_Kind (sm_Open st) != "terminal") || sm_Cancelled st || input_done sequence || ss_Closed s then ((st, s), Err ErrUnavailable)
  else
    let st := set_input_sequence st sequence in
    if input_fails sequence then ((stream_Close st, Close s), Err ErrUnavailable)
    else match on_conn (writeRecord "stream_event" (input_event (sm_Open st) sequence kind data rows cols)) s with
    | (s, Ok _) => ((st, s), Ok tt)
    | (s, Err _) => ((stream_Close st, Close s), Err ErrUnavailable)
    end.

(** [Write] answers how much was sent and the first error.  Every iteration
    sends at least a byte. *)
Fixpoint write_loop (fuel : nat) (written : nat) (data : string) (p : Stream * Session) : (Stream * Session) * nat * option error :=
  match fuel with
  | O => (p, written, None)
  | S fuel =>
      if data == "" then (p, written, None)
      else
        let size := strlen data `min` Z.to_nat TargetAccessMaxStreamDataBytes in
        match input "data" (take_bytes size data) 0 0 p with
        | (p, Err err) => (p, written, Some err)
        | (p, Ok _) => write_loop fuel (written + size) (drop_bytes size data) p
        end
  end.

Definition Write (data : string) (p : Stream * Session) : (Stream * Session) * nat * option error :=
  write_loop (strlen data) 0 data p.

Definition Resize (rows cols : Z) : M (Stream * Session) unit :=
  checkM ((rows <? 1)%Z || (512 <? rows)%Z || (cols <? 1)%Z || (512 <? cols)%Z) ErrWire ;;
  input "resize" "" rows cols.

(** A stream from the pool: the first session that is live and free. *)
Definition pool_OpenStream (scope : Scope) (open : StreamOpen) (p : Pool) : Pool * result error Stream :=
  if is_err (Scope_Validate scope) || (so_TargetID open != sc_TargetID scope) then (p, Err ErrUnavailable)
  else match List.find (is_free p) (slot p scope) with
  | None => (p, Err ErrUnavailable)
  | Some id =>
      match session_at p id with
      | None => (p, Err ErrUnavailable)
      | Some s => let '(s, r) := OpenStream open s in (set_session p id s, r)
      end
  end.
End stream.

(** ** What is received *)

Section facts.
Context {world : WireWorld} {x509 : X509} {env : StreamEnv}.
Context {json_open : JSON StreamOpen} {json_event : JSON streamEvent}.

Definition numbered (open : StreamOpen) (event : streamEvent) (n : Z) : Prop :=
  ev_StreamID event = so_StreamID open /\ ev_CorrelationID event = so_CorrelationID open /\ ev_Sequence event = n.

Lemma matches_numbered open event n : matches open event n = true -> numbered open event n.
Proof. unfold matches, numbered. rewrite !andb_true_iff, !bool_decide_eq_true, Z.eqb_eq. tauto. Qed.

(** The events of one reading: each is a whole record with the identifiers of
    the stream and the sequence number after the one before it; the last one
    is given apart. *)
Inductive in_order (open : StreamOpen) : Z -> string -> list streamEvent -> Z -> string -> Prop :=
| in_order_nil n input : in_order open n input [] n input
| in_order_cons n data event events rest m last :
    valid_record "stream_event" data = Ok tt -> Unmarshal data = Ok event -> numbered open event n ->
    in_order open (next_sequence n) rest events m last ->
    in_order open n (frame data +:+ rest) (event :: events) m last.

Definition all_data (events : list streamEvent) : Prop := Forall (fun e => ev_Type e = "data") events.

(** The event that ends a stream in order. *)
Definition ends (open : StreamOpen) (event : streamEvent) (code : Z) : Prop :=
  (so_Kind open = "terminal" /\ ev_Type event = "exit" /\ ev_ExitCode event = Some code) \/
  (so_Kind open = "logs" /\ ev_Type event = "end" /\ code = (-1)%Z).

Lemma readRecord_shorter record c c' (event : streamEvent) :
  readRecord record c = (c', Ok event) -> strlen (flat (cn_Input c')) < strlen (flat (cn_Input c)).
Proof.
  intros (data & Hi & _)%readRecord_Ok. rewrite Hi, strlen_app. unfold frame. rewrite strlen_app, PutUint32_length. lia.
Qed.

(** The loop ends on every input. *)
Lemma receive_ends fuel n st c : strlen (flat (cn_Input c)) < fuel -> is_Some (receive fuel n st c).
Proof.
  revert n st c. induction fuel as [|fuel IH]; intros n st c Hf; [lia|]. simpl.
  destruct (readRecord "stream_event" c) as [c' [event|e]] eqn:Hr; [|done].
  destruct (_ || _); [done|]. destruct (receive_event n event st) as [st'|st']; [|done].
  apply IH. apply readRecord_shorter in Hr. lia.
Qed.

Lemma receive_event_open n event st st' :
  (receive_event n event st = Continue st' \/ receive_event n event st = Done st') -> sm_Open st' = sm_Open st.
Proof. unfold receive_event. repeat case_match; intros [Hx|Hx]; simplify_eq; done. Qed.

Lemma receive_event_continue n event st st' :
  receive_event n event st = Continue st' -> ev_Type event = "data" /\ st' = delivered st (ev_Data event).
Proof.
  unfold receive_event. case_bool_decide; [|by repeat case_match]. case_match; [done|]. by intros [= <-].
Qed.

Lemma receive_event_done n event st st' :
  sm_ExitCode st = (-1)%Z -> sm_Err st = None -> receive_event n event st = Done st' ->
  (sm_Err st' = None /\ sm_Delivered st' = sm_Delivered st /\ ends (sm_Open st) event (sm_ExitCode st')) \/
  (sm_Err st' = Some ErrUnavailable /\ exists out, sm_Delivered st' = sm_Delivered st +:+ out /\
     (out = "" \/ ev_Type event = "data" /\ prefix_of out (ev_Data event))).
Proof.
  intros Hcode Herr. unfold receive_event, ends.
  assert (forall d, exists r, take_bytes d (ev_Data event) +:+ r = ev_Data event) as Htake by (intros d; eexists; apply take_drop_bytes).
  case_bool_decide as H1.
  { destruct (pipe_fails n) as [k|]; intros [= <-]. right. split; [done|]. eexists. split; [done|]. right. split; [done|apply Htake]. }
  assert (forall st2, Done (failed st) = Done st2 -> sm_Err st2 = Some ErrUnavailable /\ exists out,
    sm_Delivered st2 = sm_Delivered st +:+ out /\ (out = "" \/ ev_Type event = "data" /\ prefix_of out (ev_Data event))) as Hfailed.
  { intros st2 [= <-]. split; [done|]. exists "". simpl. rewrite string_app_nil_r. auto. }
  case_bool_decide as H2.
  { destruct (ev_ExitCode event) as [code|]; [|by right; apply Hfailed].
    destruct (so_Kind (sm_Open st) != "terminal") eqn:Hk; [by right; apply Hfailed|]. rewrite neqb_false in Hk.
    intros [= <-]. left. split_and!; [done..|]. by left. }
  case_bool_decide as H3; [|by right; apply Hfailed].
  destruct (so_Kind (sm_Open st) != "logs") eqn:Hk; [by right; apply Hfailed|]. rewrite neqb_false in Hk.
  intros [= <-]. left. split_and!; [done..|]. by right.
Qed.

Definition data_of (events : list streamEvent) : string := flat (map ev_Data events).

(** The event at the front of [input], numbered [n]; [rest] is what follows it. *)
Definition next_event (open : StreamOpen) (n : Z) (input : string) (event : streamEvent) (rest : string) : Prop :=
  exists data, input = frame data +:+ rest /\ valid_record "stream_event" data = Ok tt /\ Unmarshal data = Ok event /\
    numbered open event n.

(** How the reading of [st] from [input] on, with the events from [n] on, left
    [st'] and [left]. *)
Definition received_as (st : Stream) (n : Z) (input : string) (st' : Stream) (left : string) : Prop :=
  exists events m rest,
    in_order (sm_Open st) n input events m rest /\ all_data events /\
    match sm_Err st' with
    | None => sm_Delivered st' = sm_Delivered st +:+ data_of events /\
        exists event, next_event (sm_Open st) m rest event left /\ ends (sm_Open st) event (sm_ExitCode st')
    | Some err => err = ErrUnavailable /\ exists out, sm_Delivered st' = sm_Delivered st +:+ data_of events +:+ out /\
        (out = "" \/ exists event after, next_event (sm_Open st) m rest event after /\
           ev_Type event = "data" /\ prefix_of out (ev_Data event))
    end.

Lemma receive_spec fuel n st c st' c' :
  sm_ExitCode st = (-1)%Z -> sm_Err st = None ->
  receive fuel n st c = Some (st', c') -> received_as st n (flat (cn_Input c)) st' (flat (cn_Input c')).
Proof.
  revert n st c. induction fuel as [|fuel IH]; intros n st c Hcode Herr; [done|]. simpl.
  assert (forall c1 : conn, Some (failed st, c1) = Some (st', c') -> received_as st n (flat (cn_Input c)) st' (flat (cn_Input c'))) as Hfailed.
  { intros c1 [= <- _]. exists [], n, (flat (cn_Input c)). split_and!; [constructor|constructor|].
    simpl. split; [done|]. exists "". split; [by rewrite !string_app_nil_r|by left]. }
  destruct (readRecord "stream_event" c) as [c1 [event|e]] eqn:Hr; [|by apply Hfailed].
  destruct (negb _ || _) eqn:Hm; [by apply Hfailed|]. clear Hfailed.
  apply orb_false_iff in Hm as [Hm%negb_false_iff%matches_numbered _].
  apply readRecord_Ok in Hr as (data & Hi & Hv & Hu & _).
  assert (next_event (sm_Open st) n (flat (cn_Input c)) event (flat (cn_Input c1))) as Hnext by (by exists data).
  destruct (receive_event n event st) as [st1|st1] eqn:He.
  - apply receive_event_continue in He as [Ht ->]. intros Hrec. apply IH in Hrec; [|done..].
    destruct Hrec as (events & m & rest & Hord & Hall & Hend). exists (event :: events), m, rest. split_and!.
    + rewrite Hi. by econstructor.
    + by constructor.
    + cbn [sm_Delivered sm_Open delivered] in Hend. unfold data_of in *. simpl.
      destruct (sm_Err st').
      * destruct Hend as (-> & out & Hd & Hout). split; [done|]. exists out. by rewrite Hd, !string_app_assoc.
      * destruct Hend as (Hd & Hend). by rewrite Hd, !string_app_assoc.
  - intros [= <- <-]. exists [], n, (flat (cn_Input c)). split_and!; [constructor|constructor|].
    destruct (receive_event_done n event st st1 Hcode Herr He) as [(-> & Hd & Hends)|(-> & out & Hd & Hout)].
    + split; [by rewrite Hd, string_app_nil_r|]. by exists event.
    + split; [done|]. exists out. split; [by rewrite Hd|]. destruct Hout as [->|[Ht Hp]]; [by left|right].
      by exists event, (flat (cn_Input c1)).
Qed.

(** C30: The goroutine of a stream that was opened comes to an end on every
    input, with the session closed and the stream cancelled.  What it delivered
    is the data of the data events at the front of the input, whole and in
    order from the second event on.  Without an error the next event is the end
    of such a stream, with its exit code; with one, at most a first part of the
    data of the next event of the input was delivered besides, when the reader
    went away, and that is a data event. *)
Theorem receive_in_order st s :
  sm_ExitCode st = (-1)%Z -> sm_Err st = None ->
  exists st' s', run_stream st s = Some (st', s') /\ ss_Closed s' = true /\ sm_Cancelled st' = true /\
    received_as st 2 (flat (cn_Input (ss_Conn s))) st' (flat (cn_Input (ss_Conn s'))).
Proof.
  intros Hcode Herr. unfold run_stream.
  destruct (receive_ends (receive_fuel (ss_Conn s)) 2 st (ss_Conn s)) as [[st1 c1] Hr]; [unfold receive_fuel; lia|].
  rewrite Hr. eexists _, _. split; [reflexivity|]. split; [done|]. split; [done|]. by apply receive_spec in Hr.
Qed.

(** ** What is sent *)

(** One frame per chunk, with the next sequence number each. *)
Inductive sends (open : StreamOpen) : Z -> list string -> string -> Prop :=
| sends_nil n : sends open n [] ""
| sends_cons n chunk chunks data rest :
    records "stream_event" (input_event open (next_sequence n) "data" chunk 0 0) data ->
    sends open (next_sequence n) chunks rest ->
    sends open n (chunk :: chunks) (frame data +:+ rest).

Definition chunk_ok (chunk : string) : Prop := 1 <= strlen chunk /\ (len chunk <= TargetAccessMaxStreamDataBytes)%Z.

(** An input is sent as one frame, refused without effect, or retires the
    stream after a part of the frame. *)
Lemma input_spec kind data rows cols st s :
  let n := next_sequence (sm_InputSequence st) in
  let '((st', s'), r) := input kind data rows cols (st, s) in
  sm_Open st' = sm_Open st /\
  match r with
  | Ok _ => ss_Closed s' = ss_Closed s /\ sm_InputSequence st' = n /\ exists bytes,
      records "stream_event" (input_event (sm_Open st) n kind data rows cols) bytes /\
      cn_Output (ss_Conn s') = cn_Output (ss_Conn s) +:+ frame bytes
  | Err e => e = ErrUnavailable /\ exists out, cn_Output (ss_Conn s') = cn_Output (ss_Conn s) +:+ out /\
      (out = "" \/ ss_Closed s' = true /\ exists bytes,
         records "stream_event" (input_event (sm_Open st) n kind data rows cols) bytes /\ prefix_of out (frame bytes))
  end.
Proof.
  cbv zeta. unfold input.
  assert (forall s2 : Session, ss_Conn s2 = ss_Conn s -> exists out, cn_Output (ss_Conn s2) = cn_Output (ss_Conn s) +:+ out /\
      (out = "" \/ ss_Closed s2 = true /\ exists bytes,
         records "stream_event" (input_event (sm_Open st) (next_sequence (sm_InputSequence st)) kind data rows cols) bytes /\ prefix_of out (frame bytes))) as Hno.
  { intros s2 ->. exists "". rewrite string_app_nil_r. auto. }
  destruct (_ || ss_Closed s) eqn:Hg; [split_and!; [done..|by apply Hno]|].
  destruct (input_fails _); [split_and!; [done..|by apply Hno]|]. unfold on_conn. cbn [sm_Open set_input_sequence].
  pose proof (writeRecord_spec "stream_event" (input_event (sm_Open st) (next_sequence (sm_InputSequence st)) kind data rows cols) (ss_Conn s)) as Hw.
  destruct (writeRecord "stream_event" _ (ss_Conn s)) as [c1 [[]|e]]; destruct Hw as (_ & out & Ho & Hr).
  - split_and!; [done..|]. destruct Hr as (bytes & Hb & ->). by exists bytes.
  - split_and!; [done..|]. exists out. split; [done|]. destruct Hr as [->|Hr]; [by left|by right].
Qed.

(** The bytes of the next event. *)
Definition next_chunk (data : string) : string := take_bytes (strlen data `min` 16384) data.

(** [n] bytes of [data] were written, and [err] is the error. *)
Definition written_as (st : Stream) (s : Session) (data : string) (n : nat) (err : option error) (s' : Session) : Prop :=
  exists chunks out tail,
    sends (sm_Open st) (sm_InputSequence st) chunks out /\ Forall chunk_ok chunks /\ flat chunks = take_bytes n data /\
    cn_Output (ss_Conn s') = cn_Output (ss_Conn s) +:+ out +:+ tail /\
    match err with
    | None => n = strlen data /\ tail = ""
    | Some e => e = ErrUnavailable /\ n < strlen data /\
        (tail = "" \/ ss_Closed s' = true /\ exists bytes,
           records "stream_event"
             (input_event (sm_Open st) (Nat.iter (S (length chunks)) next_sequence (sm_InputSequence st)) "data"
                (next_chunk (drop_bytes n data)) 0 0) bytes /\
           prefix_of tail (frame bytes))
    end.

Lemma take_bytes_app n m s : take_bytes (n + m) s = take_bytes n s +:+ take_bytes m (drop_bytes n s).
Proof.
  revert s. induction n as [|n IH]; intros s; [by destruct s|]. destruct s as [|c s]; [by destruct m|].
  simpl. by rewrite IH, string_app_cons.
Qed.

Lemma drop_bytes_add n m s : drop_bytes (n + m) s = drop_bytes m (drop_bytes n s).
Proof. revert s. induction n as [|n IH]; intros s; [done|]. destruct s as [|c s]; [by destruct m|]. apply IH. Qed.

Lemma take_all_bytes s : take_bytes (strlen s) s = s.
Proof. unfold strlen. induction s as [|c s IH]; [done|]. simpl. by rewrite IH. Qed.

Lemma write_loop_spec fuel written data st s :
  strlen data <= fuel ->
  let '(p', total, err) := write_loop fuel written data (st, s) in
  exists n, total = written + n /\ written_as st s data n err (snd p').
Proof.
  revert written data st s. induction fuel as [|fuel IH]; intros written data st s Hf.
  { simpl. exists 0. split; [lia|]. exists [], "", "". rewrite !string_app_nil_r. split_and!; [constructor|constructor|done|done| |done].
    lia. }
  cbn [write_loop]. case_bool_decide as Hd.
  { exists 0. split; [lia|]. exists [], "", "". rewrite Hd, !string_app_nil_r. split_and!; [constructor|constructor|done..]. }
  assert (strlen data <> 0) as Hlen by (intros ?%strlen_zero; done).
  change TargetAccessMaxStreamDataBytes with 16384%Z.
  set (size := strlen data `min` Z.to_nat 16384).
  assert (1 <= size <= strlen data /\ (Z.of_nat size <= 16384)%Z) as [Hsize Hmax] by (unfold size; lia).
  assert (take_bytes size data = next_chunk data) as Hnext by done. clearbody size.
  pose proof (input_spec "data" (take_bytes size data) 0 0 st s) as Hin.
  destruct (input "data" (take_bytes size data) 0 0 (st, s)) as [[st1 s1] [[]|e]]; destruct Hin as [Hopen Hin].
  - destruct Hin as (Hclosed & Hseq & bytes & Hrec & Ho).
    specialize (IH (written + size) (drop_bytes size data) st1 s1). rewrite drop_bytes_length in IH. specialize (IH ltac:(lia)).
    destruct (write_loop fuel (written + size) (drop_bytes size data) (st1, s1)) as [[[st2 s2] total] err].
    destruct IH as (n & -> & chunks & out & tail & Hs & Hall & Hflat & Hout & Hend).
    exists (size + n). split; [lia|]. exists (take_bytes size data :: chunks), (frame bytes +:+ out), tail. split_and!.
    + rewrite Hopen, Hseq in Hs. by constructor.
    + constructor; [|done]. unfold chunk_ok, len. rewrite take_bytes_length. change TargetAccessMaxStreamDataBytes with 16384%Z. lia.
    + simpl. by rewrite Hflat, take_bytes_app.
    + simpl in Hout |- *. by rewrite Hout, Ho, !string_app_assoc.
    + rewrite drop_bytes_length in Hend. destruct err as [e|]; [destruct Hend as (-> & Hn & Ht)|destruct Hend as (-> & ->); split; [lia|done]].
      split; [done|]. split; [lia|]. cbn [snd] in Ht |- *. rewrite Hopen, Hseq in Ht. cbn [length]. by rewrite drop_bytes_add, Nat.iter_succ_r.
  - destruct Hin as (-> & out & Ho & Hr). exists 0. split; [lia|]. exists [], "", out. simpl.
    split_and!; [constructor|constructor|done|by rewrite Ho|done|lia|]. destruct Hr as [->|[Hc Hr]]; [by left|right]. split; [done|].
    by replace (next_chunk data) with (take_bytes size data).
Qed.

(** C37: What [Write] does, whatever fails: the bytes it counts as written went out
    as a sequence of data events of at most 16 KiB each, numbered in order, and
    without an error they are all the bytes.  With an error either nothing else
    went out, or the session is closed and what went out besides is a first part
    of the frame of the very next event (all of it, if the connection reports an
    error for its last byte). *)
Theorem Write_chunked data st s :
  let '(p', n, err) := Write data (st, s) in written_as st s data n err (snd p').
Proof.
  unfold Write. pose proof (write_loop_spec (strlen data) 0 data st s ltac:(lia)) as H.
  destruct (write_loop (strlen data) 0 data (st, s)) as [[p' total] err]. destruct H as (n & -> & H). exact H.
Qed.
End facts.

(** ** A concrete stream *)

Module Example_stream.
Import Example_session.

Definition open : StreamOpen :=
  mkStreamOpen contractVersion protocolVersion "s1" "c1" "edge" "web" "terminal" (10 + Minute) None (Some (mkTerminalOptions 24 80 ["sh"])).

Definition event (n : Z) (kind data : string) (code : option Z) : streamEvent :=
  mkEvent contractVersion protocolVersion "s1" "c1" n 0 kind data 0 0 code "".

(** Records are single letters: ready, two pieces of data, the exit. *)
#[export] Instance json_open : JSON StreamOpen := mkJSON _ (fun _ => Ok "o") (fun _ => Err ErrWire).
#[export] Instance json_event : JSON streamEvent :=
  mkJSON _ (fun e => Ok ("<" +:+ ev_Data e +:+ ">"))
    (fun s => if s == "r" then Ok (event 1 "ready" "" None)
              else if s == "a" then Ok (event 2 "data" "hel" None)
              else if s == "b" then Ok (event 3 "data" "lo" None)
              else Ok (event 4 "exit" "" (Some 7%Z))).

#[export] Instance stream_env : StreamEnv :=
  mkStreamEnv env (fun _ => false) (fun _ => None) (fun _ => false) (fun _ => false) (fun n => n).

Definition quiet : Session := set_conn session (mkConn [frame "r" +:+ frame "a"; frame "b" +:+ frame "x"] "" []).
Definition opened : Session * result error Stream := OpenStream (x509 := Example_connector.x509) open quiet.
Definition started : Stream := mkStream open false 0 "" (-1) None.

Example opens : snd opened = Ok started /\ ss_Busy (fst opened) = true.
Proof. vm_compute. split; reflexivity. Qed.

Definition finished : Stream := mkStream open true 0 "hello" 7 None.

Example runs : fst <$> run_stream started (fst opened) = Some finished.
Proof. vm_compute. reflexivity. Qed.

(** An event out of order ends the stream with an error. *)
Example out_of_order :
  sm_Err <$> (fst <$> run_stream started (set_conn session (mkConn [frame "b"] "" []))) = Some (Some ErrUnavailable).
Proof. vm_compute. reflexivity. Qed.
End Example_stream.

Import Example_session Example_stream.

Lemma receive_in_order_witness : exists events, data_of events = "hello" /\ all_data events.
Proof.
  assert (Hr : run_stream started (fst opened) = Some (finished, set_conn (Close (fst opened)) (mkConn [] (frame "o") [])))
    by (vm_compute; reflexivity).
  destruct (receive_in_order started (fst opened)) as (st' & s' & Hrun & _ & _ & events & m & rest & _ & Hall & Hd).
  - reflexivity.
  - reflexivity.
  - rewrite Hr in Hrun. injection Hrun as <- _. exists events. split; [symmetry; exact (proj1 Hd)|exact Hall].
Defined.
