(* ===== verification/Manifest.v ===== *)
(** * Application manifests (internal/application: manifest.go, identity.go,
    consumption.go, runtime_shape.go)

    The declarative request of an application for backends, and the functions
    that build and query it.  A Go map to [struct{}] is the set of its keys.
    A function returns the manifest that the code returns.  In the code the
    argument of a builder shares its maps with what the builder returns, so a
    map it already had is changed in both; the callers go on with the returned
    manifest only, and the sharing is left out. *)

From S2P Require Import Prelude GoStrings StableId Sha256 Availability Capability.

(** [len(l) == 0] *)
Definition is_nil {A} (l : list A) : bool := match l with [] => true | _ => false end.

(** ** Services *)

(** [map[string]ServiceInstance], whose elements carry no data. *)
Abbreviation Instances := (gset string).

Record Services := mkServices {
  sv_SQL : bool;
  sv_Cache : bool;
  sv_KeyValue : bool;
  sv_DocumentDatabase : bool;
  sv_MessagingQueue : bool;
  sv_MessagingPubSub : bool;
  sv_MessagingStream : bool;
  sv_Secrets : bool;
  sv_ObjectStorage : bool;
  sv_Identity : bool;
  sv_SQLManagementUI : bool;
  sv_CacheManagementUI : bool;
  sv_KeyValueManagementUI : bool;
  sv_DocumentDatabaseManagementUI : bool;
  sv_MessagingManagementUI : bool;
  sv_SecretsManagementUI : bool;
  sv_ObjectStorageManagementUI : bool;
  sv_IdentityManagementUI : bool;
  sv_ObservabilityManagementUI : bool;
  sv_SQLInstances : Instances;
  sv_CacheInstances : Instances;
  sv_KeyValueInstances : Instances;
  sv_DocumentDatabaseInstances : Instances;
  sv_MessagingQueueInstances : Instances;
  sv_MessagingPubSubInstances : Instances;
  sv_MessagingStreamInstances : Instances;
  sv_ObjectStorageBuckets : Instances }.

Definition no_Services : Services :=
  mkServices false false false false false false false false false false false false false false false false false false false ∅ ∅ ∅ ∅ ∅ ∅ ∅ ∅.

Definition set_sv_SQL (v : bool) (r : Services) : Services :=
  mkServices v (sv_Cache r) (sv_KeyValue r) (sv_DocumentDatabase r) (sv_MessagingQueue r) (sv_MessagingPubSub r) (sv_MessagingStream r) (sv_Secrets r) (sv_ObjectStorage r) (sv_Identity r) (sv_SQLManagementUI r) (sv_CacheManagementUI r) (sv_KeyValueManagementUI r) (sv_DocumentDatabaseManagementUI r) (sv_MessagingManagementUI r) (sv_SecretsManagementUI r) (sv_ObjectStorageManagementUI r) (sv_IdentityManagementUI r) (sv_ObservabilityManagementUI r) (sv_SQLInstances r) (sv_CacheInstances r) (sv_KeyValueInstances r) (sv_DocumentDatabaseInstances r) (sv_MessagingQueueInstances r) (sv_MessagingPubSubInstances r) (sv_MessagingStreamInstances r) (sv_ObjectStorageBuckets r).
Definition set_sv_Cache (v : bool) (r : Services) : Services :=
  mkServices (sv_SQL r) v (sv_KeyValue r) (sv_DocumentDatabase r) (sv_MessagingQueue r) (sv_MessagingPubSub r) (sv_MessagingStream r) (sv_Secrets r) (sv_ObjectStorage r) (sv_Identity r) (sv_SQLManagementUI r) (sv_CacheManagementUI r) (sv_KeyValueManagementUI r) (sv_DocumentDatabaseManagementUI r) (sv_MessagingManagementUI r) (sv_SecretsManagementUI r) (sv_ObjectStorageManagementUI r) (sv_IdentityManagementUI r) (sv_ObservabilityManagementUI r) (sv_SQLInstances r) (sv_CacheInstances r) (sv_KeyValueInstances r) (sv_DocumentDatabaseInstances r) (sv_MessagingQueueInstances r) (sv_MessagingPubSubInstances r) (sv_MessagingStreamInstances r) (sv_ObjectStorageBuckets r).
Definition set_sv_KeyValue (v : bool) (r : Services) : Services :=
  mkServices (sv_SQL r) (sv_Cache r) v (sv_DocumentDatabase r) (sv_MessagingQueue r) (sv_MessagingPubSub r) (sv_MessagingStream r) (sv_Secrets r) (sv_ObjectStorage r) (sv_Identity r) (sv_SQLManagementUI r) (sv_CacheManagementUI r) (sv_KeyValueManagementUI r) (sv_DocumentDatabaseManagementUI r) (sv_MessagingManagementUI r) (sv_SecretsManagementUI r) (sv_ObjectStorageManagementUI r) (sv_IdentityManagementUI r) (sv_ObservabilityManagementUI r) (sv_SQLInstances r) (sv_CacheInstances r) (sv_KeyValueInstances r) (sv_DocumentDatabaseInstances r) (sv_MessagingQueueInstances r) (sv_MessagingPubSubInstances r) (sv_MessagingStreamInstances r) (sv_ObjectStorageBuckets r).
Definition set_sv_DocumentDatabase (v : bool) (r : Services) : Services :=
  mkServices (sv_SQL r) (sv_Cache r) (sv_KeyValue r) v (sv_MessagingQueue r) (sv_MessagingPubSub r) (sv_MessagingStream r) (sv_Secrets r) (sv_ObjectStorage r) (sv_Identity r) (sv_SQLManagementUI r) (sv_CacheManagementUI r) (sv_KeyValueManagementUI r) (sv_DocumentDatabaseManagementUI r) (sv_MessagingManagementUI r) (sv_SecretsManagementUI r) (sv_ObjectStorageManagementUI r) (sv_IdentityManagementUI r) (sv_ObservabilityManagementUI r) (sv_SQLInstances r) (sv_CacheInstances r) (sv_KeyValueInstances r) (sv_DocumentDatabaseInstances r) (sv_MessagingQueueInstances r) (sv_MessagingPubSubInstances r) (sv_MessagingStreamInstances r) (sv_ObjectStorageBuckets r).
Definition set_sv_MessagingQueue (v : bool) (r : Services) : Services :=
  mkServices (sv_SQL r) (sv_Cache r) (sv_KeyValue r) (sv_DocumentDatabase r) v (sv_MessagingPubSub r) (sv_MessagingStream r) (sv_Secrets r) (sv_ObjectStorage r) (sv_Identity r) (sv_SQLManagementUI r) (sv_CacheManagementUI r) (sv_KeyValueManagementUI r) (sv_DocumentDatabaseManagementUI r) (sv_MessagingManagementUI r) (sv_SecretsManagementUI r) (sv_ObjectStorageManagementUI r) (sv_IdentityManagementUI r) (sv_ObservabilityManagementUI r) (sv_SQLInstances r) (sv_CacheInstances r) (sv_KeyValueInstances r) (sv_DocumentDatabaseInstances r) (sv_MessagingQueueInstances r) (sv_MessagingPubSubInstances r) (sv_MessagingStreamInstances r) (sv_ObjectStorageBuckets r).
Definition set_sv_MessagingPubSub (v : bool) (r : Services) : Services :=
  mkServices (sv_SQL r) (sv_Cache r) (sv_KeyValue r) (sv_DocumentDatabase r) (sv_MessagingQueue r) v (sv_MessagingStream r) (sv_Secrets r) (sv_ObjectStorage r) (sv_Identity r) (sv_SQLManagementUI r) (sv_CacheManagementUI r) (sv_KeyValueManagementUI r) (sv_DocumentDatabaseManagementUI r) (sv_MessagingManagementUI r) (sv_SecretsManagementUI r) (sv_ObjectStorageManagementUI r) (sv_IdentityManagementUI r) (sv_ObservabilityManagementUI r) (sv_SQLInstances r) (sv_CacheInstances r) (sv_KeyValueInstances r) (sv_DocumentDatabaseInstances r) (sv_MessagingQueueInstances r) (sv_MessagingPubSubInstances r) (sv_MessagingStreamInstances r) (sv_ObjectStorageBuckets r).
Definition set_sv_MessagingStream (v : bool) (r : Services) : Services :=
  mkServices (sv_SQL r) (sv_Cache r) (sv_KeyValue r) (sv_DocumentDatabase r) (sv_MessagingQueue r) (sv_MessagingPubSub r) v (sv_Secrets r) (sv_ObjectStorage r) (sv_Identity r) (sv_SQLManagementUI r) (sv_CacheManagementUI r) (sv_KeyValueManagementUI r) (sv_DocumentDatabaseManagementUI r) (sv_MessagingManagementUI r) (sv_SecretsManagementUI r) (sv_ObjectStorageManagementUI r) (sv_IdentityManagementUI r) (sv_ObservabilityManagementUI r) (sv_SQLInstances r) (sv_CacheInstances r) (sv_KeyValueInstances r) (sv_DocumentDatabaseInstances r) (sv_MessagingQueueInstances r) (sv_MessagingPubSubInstances r) (sv_MessagingStreamInstances r) (sv_ObjectStorageBuckets r).
Definition set_sv_Secrets (v : bool) (r : Services) : Services :=
  mkServices (sv_SQL r) (sv_Cache r) (sv_KeyValue r) (sv_DocumentDatabase r) (sv_MessagingQueue r) (sv_MessagingPubSub r) (sv_MessagingStream r) v (sv_ObjectStorage r) (sv_Identity r) (sv_SQLManagementUI r) (sv_CacheManagementUI r) (sv_KeyValueManagementUI r) (sv_DocumentDatabaseManagementUI r) (sv_MessagingManagementUI r) (sv_SecretsManagementUI r) (sv_ObjectStorageManagementUI r) (sv_IdentityManagementUI r) (sv_ObservabilityManagementUI r) (sv_SQLInstances r) (sv_CacheInstances r) (sv_KeyValueInstances r) (sv_DocumentDatabaseInstances r) (sv_MessagingQueueInstances r) (sv_MessagingPubSubInstances r) (sv_MessagingStreamInstances r) (sv_ObjectStorageBuckets r).
Definition set_sv_ObjectStorage (v : bool) (r : Services) : Services :=
  mkServices (sv_SQL r) (sv_Cache r) (sv_KeyValue r) (sv_DocumentDatabase r) (sv_MessagingQueue r) (sv_MessagingPubSub r) (sv_MessagingStream r) (sv_Secrets r) v (sv_Identity r) (sv_SQLManagementUI r) (sv_CacheManagementUI r) (sv_KeyValueManagementUI r) (sv_DocumentDatabaseManagementUI r) (sv_MessagingManagementUI r) (sv_SecretsManagementUI r) (sv_ObjectStorageManagementUI r) (sv_IdentityManagementUI r) (sv_ObservabilityManagementUI r) (sv_SQLInstances r) (sv_CacheInstances r) (sv_KeyValueInstances r) (sv_DocumentDatabaseInstances r) (sv_MessagingQueueInstances r) (sv_MessagingPubSubInstances r) (sv_MessagingStreamInstances r) (sv_ObjectStorageBuckets r).
Definition set_sv_Identity (v : bool) (r : Services) : Services :=
  mkServices (sv_SQL r) (sv_Cache r) (sv_KeyValue r) (sv_DocumentDatabase r) (sv_MessagingQueue r) (sv_MessagingPubSub r) (sv_MessagingStream r) (sv_Secrets r) (sv_ObjectStorage r) v (sv_SQLManagementUI r) (sv_CacheManagementUI r) (sv_KeyValueManagementUI r) (sv_DocumentDatabaseManagementUI r) (sv_MessagingManagementUI r) (sv_SecretsManagementUI r) (sv_ObjectStorageManagementUI r) (sv_IdentityManagementUI r) (sv_ObservabilityManagementUI r) (sv_SQLInstances r) (sv_CacheInstances r) (sv_KeyValueInstances r) (sv_DocumentDatabaseInstances r) (sv_MessagingQueueInstances r) (sv_MessagingPubSubInstances r) (sv_MessagingStreamInstances r) (sv_ObjectStorageBuckets r).
Definition set_sv_SQLManagementUI (v : bool) (r : Services) : Services :=
  mkServices (sv_SQL r) (sv_Cache r) (sv_KeyValue r) (sv_DocumentDatabase r) (sv_MessagingQueue r) (sv_MessagingPubSub r) (sv_MessagingStream r) (sv_Secrets r) (sv_ObjectStorage r) (sv_Identity r) v (sv_CacheManagementUI r) (sv_KeyValueManagementUI r) (sv_DocumentDatabaseManagementUI r) (sv_MessagingManagementUI r) (sv_SecretsManagementUI r) (sv_ObjectStorageManagementUI r) (sv_IdentityManagementUI r) (sv_ObservabilityManagementUI r) (sv_SQLInstances r) (sv_CacheInstances r) (sv_KeyValueInstances r) (sv_DocumentDatabaseInstances r) (sv_MessagingQueueInstances r) (sv_MessagingPubSubInstances r) (sv_MessagingStreamInstances r) (sv_ObjectStorageBuckets r).
Definition set_sv_CacheManagementUI (v : bool) (r : Services) : Services :=
  mkServices (sv_SQL r) (sv_Cache r) (sv_KeyValue r) (sv_DocumentDatabase r) (sv_MessagingQueue r) (sv_MessagingPubSub r) (sv_MessagingStream r) (sv_Secrets r) (sv_ObjectStorage r) (sv_Identity r) (sv_SQLManagementUI r) v (sv_KeyValueManagementUI r) (sv_DocumentDatabaseManagementUI r) (sv_MessagingManagementUI r) (sv_SecretsManagementUI r) (sv_ObjectStorageManagementUI r) (sv_IdentityManagementUI r) (sv_ObservabilityManagementUI r) (sv_SQLInstances r) (sv_CacheInstances r) (sv_KeyValueInstances r) (sv_DocumentDatabaseInstances r) (sv_MessagingQueueInstances r) (sv_MessagingPubSubInstances r) (sv_MessagingStreamInstances r) (sv_ObjectStorageBuckets r).
Definition set_sv_KeyValueManagementUI (v : bool) (r : Services) : Services :=
  mkServices (sv_SQL r) (sv_Cache r) (sv_KeyValue r) (sv_DocumentDatabase r) (sv_MessagingQueue r) (sv_MessagingPubSub r) (sv_MessagingStream r) (sv_Secrets r) (sv_ObjectStorage r) (sv_Identity r) (sv_SQLManagementUI r) (sv_CacheManagementUI r) v (sv_DocumentDatabaseManagementUI r) (sv_MessagingManagementUI r) (sv_SecretsManagementUI r) (sv_ObjectStorageManagementUI r) (sv_IdentityManagementUI r) (sv_ObservabilityManagementUI r) (sv_SQLInstances r) (sv_CacheInstances r) (sv_KeyValueInstances r) (sv_DocumentDatabaseInstances r) (sv_MessagingQueueInstances r) (sv_MessagingPubSubInstances r) (sv_MessagingStreamInstances r) (sv_ObjectStorageBuckets r).
Definition set_sv_DocumentDatabaseManagementUI (v : bool) (r : Services) : Services :=
  mkServices (sv_SQL r) (sv_Cache r) (sv_KeyValue r) (sv_DocumentDatabase r) (sv_MessagingQueue r) (sv_MessagingPubSub r) (sv_MessagingStream r) (sv_Secrets r) (sv_ObjectStorage r) (sv_Identity r) (sv_SQLManagementUI r) (sv_CacheManagementUI r) (sv_KeyValueManagementUI r) v (sv_MessagingManagementUI r) (sv_SecretsManagementUI r) (sv_ObjectStorageManagementUI r) (sv_IdentityManagementUI r) (sv_ObservabilityManagementUI r) (sv_SQLInstances r) (sv_CacheInstances r) (sv_KeyValueInstances r) (sv_DocumentDatabaseInstances r) (sv_MessagingQueueInstances r) (sv_MessagingPubSubInstances r) (sv_MessagingStreamInstances r) (sv_ObjectStorageBuckets r).
Definition set_sv_MessagingManagementUI (v : bool) (r : Services) : Services :=
  mkServices (sv_SQL r) (sv_Cache r) (sv_KeyValue r) (sv_DocumentDatabase r) (sv_MessagingQueue r) (sv_MessagingPubSub r) (sv_MessagingStream r) (sv_Secrets r) (sv_ObjectStorage r) (sv_Identity r) (sv_SQLManagementUI r) (sv_CacheManagementUI r) (sv_KeyValueManagementUI r) (sv_DocumentDatabaseManagementUI r) v (sv_SecretsManagementUI r) (sv_ObjectStorageManagementUI r) (sv_IdentityManagementUI r) (sv_ObservabilityManagementUI r) (sv_SQLInstances r) (sv_CacheInstances r) (sv_KeyValueInstances r) (sv_DocumentDatabaseInstances r) (sv_MessagingQueueInstances r) (sv_MessagingPubSubInstances r) (sv_MessagingStreamInstances r) (sv_ObjectStorageBuckets r).
Definition set_sv_SecretsManagementUI (v : bool) (r : Services) : Services :=
  mkServices (sv_SQL r) (sv_Cache r) (sv_KeyValue r) (sv_DocumentDatabase r) (sv_MessagingQueue r) (sv_MessagingPubSub r) (sv_MessagingStream r) (sv_Secrets r) (sv_ObjectStorage r) (sv_Identity r) (sv_SQLManagementUI r) (sv_CacheManagementUI r) (sv_KeyValueManagementUI r) (sv_DocumentDatabaseManagementUI r) (sv_MessagingManagementUI r) v (sv_ObjectStorageManagementUI r) (sv_IdentityManagementUI r) (sv_ObservabilityManagementUI r) (sv_SQLInstances r) (sv_CacheInstances r) (sv_KeyValueInstances r) (sv_DocumentDatabaseInstances r) (sv_MessagingQueueInstances r) (sv_MessagingPubSubInstances r) (sv_MessagingStreamInstances r) (sv_ObjectStorageBuckets r).
Definition set_sv_ObjectStorageManagementUI (v : bool) (r : Services) : Services :=
  mkServices (sv_SQL r) (sv_Cache r) (sv_KeyValue r) (sv_DocumentDatabase r) (sv_MessagingQueue r) (sv_MessagingPubSub r) (sv_MessagingStream r) (sv_Secrets r) (sv_ObjectStorage r) (sv_Identity r) (sv_SQLManagementUI r) (sv_CacheManagementUI r) (sv_KeyValueManagementUI r) (sv_DocumentDatabaseManagementUI r) (sv_MessagingManagementUI r) (sv_SecretsManagementUI r) v (sv_IdentityManagementUI r) (sv_ObservabilityManagementUI r) (sv_SQLInstances r) (sv_CacheInstances r) (sv_KeyValueInstances r) (sv_DocumentDatabaseInstances r) (sv_MessagingQueueInstances r) (sv_MessagingPubSubInstances r) (sv_MessagingStreamInstances r) (sv_ObjectStorageBuckets r).
Definition set_sv_IdentityManagementUI (v : bool) (r : Services) : Services :=
  mkServices (sv_SQL r) (sv_Cache r) (sv_KeyValue r) (sv_DocumentDatabase r) (sv_MessagingQueue r) (sv_MessagingPubSub r) (sv_MessagingStream r) (sv_Secrets r) (sv_ObjectStorage r) (sv_Identity r) (sv_SQLManagementUI r) (sv_CacheManagementUI r) (sv_KeyValueManagementUI r) (sv_DocumentDatabaseManagementUI r) (sv_MessagingManagementUI r) (sv_SecretsManagementUI r) (sv_ObjectStorageManagementUI r) v (sv_ObservabilityManagementUI r) (sv_SQLInstances r) (sv_CacheInstances r) (sv_KeyValueInstances r) (sv_DocumentDatabaseInstances r) (sv_MessagingQueueInstances r) (sv_MessagingPubSubInstances r) (sv_MessagingStreamInstances r) (sv_ObjectStorageBuckets r).
Definition set_sv_ObservabilityManagementUI (v : bool) (r : Services) : Services :=
  mkServices (sv_SQL r) (sv_Cache r) (sv_KeyValue r) (sv_DocumentDatabase r) (sv_MessagingQueue r) (sv_MessagingPubSub r) (sv_MessagingStream r) (sv_Secrets r) (sv_ObjectStorage r) (sv_Identity r) (sv_SQLManagementUI r) (sv_CacheManagementUI r) (sv_KeyValueManagementUI r) (sv_DocumentDatabaseManagementUI r) (sv_MessagingManagementUI r) (sv_SecretsManagementUI r) (sv_ObjectStorageManagementUI r) (sv_IdentityManagementUI r) v (sv_SQLInstances r) (sv_CacheInstances r) (sv_KeyValueInstances r) (sv_DocumentDatabaseInstances r) (sv_MessagingQueueInstances r) (sv_MessagingPubSubInstances r) (sv_MessagingStreamInstances r) (sv_ObjectStorageBuckets r).
Definition set_sv_SQLInstances (v : Instances) (r : Services) : Services :=
  mkServices (sv_SQL r) (sv_Cache r) (sv_KeyValue r) (sv_DocumentDatabase r) (sv_MessagingQueue r) (sv_MessagingPubSub r) (sv_MessagingStream r) (sv_Secrets r) (sv_ObjectStorage r) (sv_Identity r) (sv_SQLManagementUI r) (sv_CacheManagementUI r) (sv_KeyValueManagementUI r) (sv_DocumentDatabaseManagementUI r) (sv_MessagingManagementUI r) (sv_SecretsManagementUI r) (sv_ObjectStorageManagementUI r) (sv_IdentityManagementUI r) (sv_ObservabilityManagementUI r) v (sv_CacheInstances r) (sv_KeyValueInstances r) (sv_DocumentDatabaseInstances r) (sv_MessagingQueueInstances r) (sv_MessagingPubSubInstances r) (sv_MessagingStreamInstances r) (sv_ObjectStorageBuckets r).
Definition set_sv_CacheInstances (v : Instances) (r : Services) : Services :=
  mkServices (sv_SQL r) (sv_Cache r) (sv_KeyValue r) (sv_DocumentDatabase r) (sv_MessagingQueue r) (sv_MessagingPubSub r) (sv_MessagingStream r) (sv_Secrets r) (sv_ObjectStorage r) (sv_Identity r) (sv_SQLManagementUI r) (sv_CacheManagementUI r) (sv_KeyValueManagementUI r) (sv_DocumentDatabaseManagementUI r) (sv_MessagingManagementUI r) (sv_SecretsManagementUI r) (sv_ObjectStorageManagementUI r) (sv_IdentityManagementUI r) (sv_ObservabilityManagementUI r) (sv_SQLInstances r) v (sv_KeyValueInstances r) (sv_DocumentDatabaseInstances r) (sv_MessagingQueueInstances r) (sv_MessagingPubSubInstances r) (sv_MessagingStreamInstances r) (sv_ObjectStorageBuckets r).
Definition set_sv_KeyValueInstances (v : Instances) (r : Services) : Services :=
  mkServices (sv_SQL r) (sv_Cache r) (sv_KeyValue r) (sv_DocumentDatabase r) (sv_MessagingQueue r) (sv_MessagingPubSub r) (sv_MessagingStream r) (sv_Secrets r) (sv_ObjectStorage r) (sv_Identity r) (sv_SQLManagementUI r) (sv_CacheManagementUI r) (sv_KeyValueManagementUI r) (sv_DocumentDatabaseManagementUI r) (sv_MessagingManagementUI r) (sv_SecretsManagementUI r) (sv_ObjectStorageManagementUI r) (sv_IdentityManagementUI r) (sv_ObservabilityManagementUI r) (sv_SQLInstances r) (sv_CacheInstances r) v (sv_DocumentDatabaseInstances r) (sv_MessagingQueueInstances r) (sv_MessagingPubSubInstances r) (sv_MessagingStreamInstances r) (sv_ObjectStorageBuckets r).
Definition set_sv_DocumentDatabaseInstances (v : Instances) (r : Services) : Services :=
  mkServices (sv_SQL r) (sv_Cache r) (sv_KeyValue r) (sv_DocumentDatabase r) (sv_MessagingQueue r) (sv_MessagingPubSub r) (sv_MessagingStream r) (sv_Secrets r) (sv_ObjectStorage r) (sv_Identity r) (sv_SQLManagementUI r) (sv_CacheManagementUI r) (sv_KeyValueManagementUI r) (sv_DocumentDatabaseManagementUI r) (sv_MessagingManagementUI r) (sv_SecretsManagementUI r) (sv_ObjectStorageManagementUI r) (sv_IdentityManagementUI r) (sv_ObservabilityManagementUI r) (sv_SQLInstances r) (sv_CacheInstances r) (sv_KeyValueInstances r) v (sv_MessagingQueueInstances r) (sv_MessagingPubSubInstances r) (sv_MessagingStreamInstances r) (sv_ObjectStorageBuckets r).
Definition set_sv_MessagingQueueInstances (v : Instances) (r : Services) : Services :=
  mkServices (sv_SQL r) (sv_Cache r) (sv_KeyValue r) (sv_DocumentDatabase r) (sv_MessagingQueue r) (sv_MessagingPubSub r) (sv_MessagingStream r) (sv_Secrets r) (sv_ObjectStorage r) (sv_Identity r) (sv_SQLManagementUI r) (sv_CacheManagementUI r) (sv_KeyValueManagementUI r) (sv_DocumentDatabaseManagementUI r) (sv_MessagingManagementUI r) (sv_SecretsManagementUI r) (sv_ObjectStorageManagementUI r) (sv_IdentityManagementUI r) (sv_ObservabilityManagementUI r) (sv_SQLInstances r) (sv_CacheInstances r) (sv_KeyValueInstances r) (sv_DocumentDatabaseInstances r) v (sv_MessagingPubSubInstances r) (sv_MessagingStreamInstances r) (sv_ObjectStorageBuckets r).
Definition set_sv_MessagingPubSubInstances (v : Instances) (r : Services) : Services :=
  mkServices (sv_SQL r) (sv_Cache r) (sv_KeyValue r) (sv_DocumentDatabase r) (sv_MessagingQueue r) (sv_MessagingPubSub r) (sv_MessagingStream r) (sv_Secrets r) (sv_ObjectStorage r) (sv_Identity r) (sv_SQLManagementUI r) (sv_CacheManagementUI r) (sv_KeyValueManagementUI r) (sv_DocumentDatabaseManagementUI r) (sv_MessagingManagementUI r) (sv_SecretsManagementUI r) (sv_ObjectStorageManagementUI r) (sv_IdentityManagementUI r) (sv_ObservabilityManagementUI r) (sv_SQLInstances r) (sv_CacheInstances r) (sv_KeyValueInstances r) (sv_DocumentDatabaseInstances r) (sv_MessagingQueueInstances r) v (sv_MessagingStreamInstances r) (sv_ObjectStorageBuckets r).
Definition set_sv_MessagingStreamInstances (v : Instances) (r : Services) : Services :=
  mkServices (sv_SQL r) (sv_Cache r) (sv_KeyValue r) (sv_DocumentDatabase r) (sv_MessagingQueue r) (sv_MessagingPubSub r) (sv_MessagingStream r) (sv_Secrets r) (sv_ObjectStorage r) (sv_Identity r) (sv_SQLManagementUI r) (sv_CacheManagementUI r) (sv_KeyValueManagementUI r) (sv_DocumentDatabaseManagementUI r) (sv_MessagingManagementUI r) (sv_SecretsManagementUI r) (sv_ObjectStorageManagementUI r) (sv_IdentityManagementUI r) (sv_ObservabilityManagementUI r) (sv_SQLInstances r) (sv_CacheInstances r) (sv_KeyValueInstances r) (sv_DocumentDatabaseInstances r) (sv_MessagingQueueInstances r) (sv_MessagingPubSubInstances r) v (sv_ObjectStorageBuckets r).
Definition set_sv_ObjectStorageBuckets (v : Instances) (r : Services) : Services :=
  mkServices (sv_SQL r) (sv_Cache r) (sv_KeyValue r) (sv_DocumentDatabase r) (sv_MessagingQueue r) (sv_MessagingPubSub r) (sv_MessagingStream r) (sv_Secrets r) (sv_ObjectStorage r) (sv_Identity r) (sv_SQLManagementUI r) (sv_CacheManagementUI r) (sv_KeyValueManagementUI r) (sv_DocumentDatabaseManagementUI r) (sv_MessagingManagementUI r) (sv_SecretsManagementUI r) (sv_ObjectStorageManagementUI r) (sv_IdentityManagementUI r) (sv_ObservabilityManagementUI r) (sv_SQLInstances r) (sv_CacheInstances r) (sv_KeyValueInstances r) (sv_DocumentDatabaseInstances r) (sv_MessagingQueueInstances r) (sv_MessagingPubSubInstances r) (sv_MessagingStreamInstances r) v.

(** ** Requirements *)

Record RuntimePermission := mkRuntimePermission {
  rp_Capability : string;
  rp_Services : list string;
  rp_Operations : list string }.

Record RuntimeRequirements := mkRuntime { ru_Permissions : list RuntimePermission }.

Record OTLPRequirement := mkOTLP { ot_Signals : list string }.

Record TelemetryRequirements := mkTelemetry { te_OTLP : option OTLPRequirement }.

Record MetricsSourceRequirement := mkMetricsSource {
  ms_Name : string;
  ms_Service : string;
  ms_Port : Z;
  ms_Path : string }.

Record MetricsRequirements := mkMetrics { me_Sources : list MetricsSourceRequirement }.

Record LogsRequirements := mkLogs { lr_Collect : list string }.

Record IdentityAuthenticationRequirements := mkIdentityAuthentication {
  ia_MFA : string;
  ia_Methods : list string;
  ia_Passwordless : bool }.

Record IdentityRequirements := mkIdentity {
  ir_CallbackPaths : list string;
  ir_LogoutPaths : list string;
  ir_Scopes : list string;
  ir_Claims : list string;
  ir_Authentication : IdentityAuthenticationRequirements }.

Record WorkloadConfig := mkWorkload { wc_Components : list string }.

Record HTTPExposureRequirement := mkExposure {
  ex_Name : string;
  ex_Service : string;
  ex_Port : Z;
  ex_Protocol : string;
  ex_Visibility : string }.

Record SecretGeneration := mkGeneration {
  sg_Type : string;
  sg_Length : Z;
  sg_Bytes : Z }.

Record SecretRequirement := mkSecretRequirement {
  sr_Name : string;
  sr_Generate : option SecretGeneration }.

Record SecretRequirements := mkSecrets {
  se_Required : list SecretRequirement;
  se_Optional : list SecretRequirement }.

Record ConsumptionRequirement := mkConsumption {
  cn_Name : string;
  cn_ApplicationID : string;
  cn_Component : string;
  cn_Interface : string;
  cn_Protocol : string }.

Record ProviderPreference := mkPreference {
  pp_Requirement : CapabilityRequirement;
  pp_InstanceID : string;
  pp_ProviderKind : ProviderKind }.

(** ** The manifest *)

Definition CurrentVersion : Z := 1.
Definition defaultServiceInstance : string := "default".

Record Manifest := mkManifest {
  mf_ProviderPreferences : option (list ProviderPreference);
  mf_BackendPlacements : gmap ProviderKind ProviderPlacement;
  mf_Version : Z;
  mf_ApplicationID : string;
  mf_Name : string;
  mf_Environment : string;
  mf_Services : Services;
  mf_Secrets : SecretRequirements;
  mf_Workload : WorkloadConfig;
  mf_Exposures : list HTTPExposureRequirement;
  mf_Telemetry : TelemetryRequirements;
  mf_Metrics : MetricsRequirements;
  mf_Logs : LogsRequirements;
  mf_Runtime : RuntimeRequirements;
  mf_Identity : IdentityRequirements;
  mf_HA : bool;
  mf_Availability : gmap string Override;
  mf_Consumes : list ConsumptionRequirement }.

Definition set_mf_ProviderPreferences (v : option (list ProviderPreference)) (r : Manifest) : Manifest :=
  mkManifest v (mf_BackendPlacements r) (mf_Version r) (mf_ApplicationID r) (mf_Name r) (mf_Environment r) (mf_Services r) (mf_Secrets r) (mf_Workload r) (mf_Exposures r) (mf_Telemetry r) (mf_Metrics r) (mf_Logs r) (mf_Runtime r) (mf_Identity r) (mf_HA r) (mf_Availability r) (mf_Consumes r).
Definition set_mf_BackendPlacements (v : gmap ProviderKind ProviderPlacement) (r : Manifest) : Manifest :=
  mkManifest (mf_ProviderPreferences r) v (mf_Version r) (mf_ApplicationID r) (mf_Name r) (mf_Environment r) (mf_Services r) (mf_Secrets r) (mf_Workload r) (mf_Exposures r) (mf_Telemetry r) (mf_Metrics r) (mf_Logs r) (mf_Runtime r) (mf_Identity r) (mf_HA r) (mf_Availability r) (mf_Consumes r).
Definition set_mf_Version (v : Z) (r : Manifest) : Manifest :=
  mkManifest (mf_ProviderPreferences r) (mf_BackendPlacements r) v (mf_ApplicationID r) (mf_Name r) (mf_Environment r) (mf_Services r) (mf_Secrets r) (mf_Workload r) (mf_Exposures r) (mf_Telemetry r) (mf_Metrics r) (mf_Logs r) (mf_Runtime r) (mf_Identity r) (mf_HA r) (mf_Availability r) (mf_Consumes r).
Definition set_mf_ApplicationID (v : string) (r : Manifest) : Manifest :=
  mkManifest (mf_ProviderPreferences r) (mf_BackendPlacements r) (mf_Version r) v (mf_Name r) (mf_Environment r) (mf_Services r) (mf_Secrets r) (mf_Workload r) (mf_Exposures r) (mf_Telemetry r) (mf_Metrics r) (mf_Logs r) (mf_Runtime r) (mf_Identity r) (mf_HA r) (mf_Availability r) (mf_Consumes r).
Definition set_mf_Name (v : string) (r : Manifest) : Manifest :=
  mkManifest (mf_ProviderPreferences r) (mf_BackendPlacements r) (mf_Version r) (mf_ApplicationID r) v (mf_Environment r) (mf_Services r) (mf_Secrets r) (mf_Workload r) (mf_Exposures r) (mf_Telemetry r) (mf_Metrics r) (mf_Logs r) (mf_Runtime r) (mf_Identity r) (mf_HA r) (mf_Availability r) (mf_Consumes r).
Definition set_mf_Environment (v : string) (r : Manifest) : Manifest :=
  mkManifest (mf_ProviderPreferences r) (mf_BackendPlacements r) (mf_Version r) (mf_ApplicationID r) (mf_Name r) v (mf_Services r) (mf_Secrets r) (mf_Workload r) (mf_Exposures r) (mf_Telemetry r) (mf_Metrics r) (mf_Logs r) (mf_Runtime r) (mf_Identity r) (mf_HA r) (mf_Availability r) (mf_Consumes r).
Definition set_mf_Services (v : Services) (r : Manifest) : Manifest :=
  mkManifest (mf_ProviderPreferences r) (mf_BackendPlacements r) (mf_Version r) (mf_ApplicationID r) (mf_Name r) (mf_Environment r) v (mf_Secrets r) (mf_Workload r) (mf_Exposures r) (mf_Telemetry r) (mf_Metrics r) (mf_Logs r) (mf_Runtime r) (mf_Identity r) (mf_HA r) (mf_Availability r) (mf_Consumes r).
Definition set_mf_Secrets (v : SecretRequirements) (r : Manifest) : Manifest :=
  mkManifest (mf_ProviderPreferences r) (mf_BackendPlacements r) (mf_Version r) (mf_ApplicationID r) (mf_Name r) (mf_Environment r) (mf_Services r) v (mf_Workload r) (mf_Exposures r) (mf_Telemetry r) (mf_Metrics r) (mf_Logs r) (mf_Runtime r) (mf_Identity r) (mf_HA r) (mf_Availability r) (mf_Consumes r).
Definition set_mf_Workload (v : WorkloadConfig) (r : Manifest) : Manifest :=
  mkManifest (mf_ProviderPreferences r) (mf_BackendPlacements r) (mf_Version r) (mf_ApplicationID r) (mf_Name r) (mf_Environment r) (mf_Services r) (mf_Secrets r) v (mf_Exposures r) (mf_Telemetry r) (mf_Metrics r) (mf_Logs r) (mf_Runtime r) (mf_Identity r) (mf_HA r) (mf_Availability r) (mf_Consumes r).
Definition set_mf_Exposures (v : list HTTPExposureRequirement) (r : Manifest) : Manifest :=
  mkManifest (mf_ProviderPreferences r) (mf_BackendPlacements r) (mf_Version r) (mf_ApplicationID r) (mf_Name r) (mf_Environment r) (mf_Services r) (mf_Secrets r) (mf_Workload r) v (mf_Telemetry r) (mf_Metrics r) (mf_Logs r) (mf_Runtime r) (mf_Identity r) (mf_HA r) (mf_Availability r) (mf_Consumes r).
Definition set_mf_Telemetry (v : TelemetryRequirements) (r : Manifest) : Manifest :=
  mkManifest (mf_ProviderPreferences r) (mf_BackendPlacements r) (mf_Version r) (mf_ApplicationID r) (mf_Name r) (mf_Environment r) (mf_Services r) (mf_Secrets r) (mf_Workload r) (mf_Exposures r) v (mf_Metrics r) (mf_Logs r) (mf_Runtime r) (mf_Identity r) (mf_HA r) (mf_Availability r) (mf_Consumes r).
Definition set_mf_Metrics (v : MetricsRequirements) (r : Manifest) : Manifest :=
  mkManifest (mf_ProviderPreferences r) (mf_BackendPlacements r) (mf_Version r) (mf_ApplicationID r) (mf_Name r) (mf_Environment r) (mf_Services r) (mf_Secrets r) (mf_Workload r) (mf_Exposures r) (mf_Telemetry r) v (mf_Logs r) (mf_Runtime r) (mf_Identity r) (mf_HA r) (mf_Availability r) (mf_Consumes r).
Definition set_mf_Logs (v : LogsRequirements) (r : Manifest) : Manifest :=
  mkManifest (mf_ProviderPreferences r) (mf_BackendPlacements r) (mf_Version r) (mf_ApplicationID r) (mf_Name r) (mf_Environment r) (mf_Services r) (mf_Secrets r) (mf_Workload r) (mf_Exposures r) (mf_Telemetry r) (mf_Metrics r) v (mf_Runtime r) (mf_Identity r) (mf_HA r) (mf_Availability r) (mf_Consumes r).
Definition set_mf_Runtime (v : RuntimeRequirements) (r : Manifest) : Manifest :=
  mkManifest (mf_ProviderPreferences r) (mf_BackendPlacements r) (mf_Version r) (mf_ApplicationID r) (mf_Name r) (mf_Environment r) (mf_Services r) (mf_Secrets r) (mf_Workload r) (mf_Exposures r) (mf_Telemetry r) (mf_Metrics r) (mf_Logs r) v (mf_Identity r) (mf_HA r) (mf_Availability r) (mf_Consumes r).
Definition set_mf_Identity (v : IdentityRequirements) (r : Manifest) : Manifest :=
  mkManifest (mf_ProviderPreferences r) (mf_BackendPlacements r) (mf_Version r) (mf_ApplicationID r) (mf_Name r) (mf_Environment r) (mf_Services r) (mf_Secrets r) (mf_Workload r) (mf_Exposures r) (mf_Telemetry r) (mf_Metrics r) (mf_Logs r) (mf_Runtime r) v (mf_HA r) (mf_Availability r) (mf_Consumes r).
Definition set_mf_HA (v : bool) (r : Manifest) : Manifest :=
  mkManifest (mf_ProviderPreferences r) (mf_BackendPlacements r) (mf_Version r) (mf_ApplicationID r) (mf_Name r) (mf_Environment r) (mf_Services r) (mf_Secrets r) (mf_Workload r) (mf_Exposures r) (mf_Telemetry r) (mf_Metrics r) (mf_Logs r) (mf_Runtime r) (mf_Identity r) v (mf_Availability r) (mf_Consumes r).
Definition set_mf_Availability (v : gmap string Override) (r : Manifest) : Manifest :=
  mkManifest (mf_ProviderPreferences r) (mf_BackendPlacements r) (mf_Version r) (mf_ApplicationID r) (mf_Name r) (mf_Environment r) (mf_Services r) (mf_Secrets r) (mf_Workload r) (mf_Exposures r) (mf_Telemetry r) (mf_Metrics r) (mf_Logs r) (mf_Runtime r) (mf_Identity r) (mf_HA r) v (mf_Consumes r).
Definition set_mf_Consumes (v : list ConsumptionRequirement) (r : Manifest) : Manifest :=
  mkManifest (mf_ProviderPreferences r) (mf_BackendPlacements r) (mf_Version r) (mf_ApplicationID r) (mf_Name r) (mf_Environment r) (mf_Services r) (mf_Secrets r) (mf_Workload r) (mf_Exposures r) (mf_Telemetry r) (mf_Metrics r) (mf_Logs r) (mf_Runtime r) (mf_Identity r) (mf_HA r) (mf_Availability r) v.

Definition no_Identity : IdentityRequirements := mkIdentity [] [] [] [] (mkIdentityAuthentication "" [] false).

Definition no_Manifest : Manifest :=
  mkManifest None ∅ 0 "" "" "" no_Services (mkSecrets [] []) (mkWorkload []) [] (mkTelemetry None) (mkMetrics []) (mkLogs []) (mkRuntime []) no_Identity false ∅ [].

(** ** Identity of the application (identity.go) *)

Definition NewApplicationID (raw : result error (list Z)) : result error string := NewUUIDv4 "application" raw.

Definition ValidateApplicationID (id : string) : result error unit :=
  wrap_err ValidationError_Error (ValidateUUIDv4 "application" id).

(** ** Building manifests *)

(** [MustNewApplicationID] panics without entropy; the identity is an
    argument. *)
Definition New (applicationID name environment : string) (sql cache secrets : bool) : Manifest :=
  let environment := if environment == "" then "dev" else environment in
  set_mf_Services (set_sv_Secrets secrets (set_sv_Cache cache (set_sv_SQL sql no_Services)))
    (set_mf_Environment environment (set_mf_Name name (set_mf_ApplicationID applicationID (set_mf_Version CurrentVersion no_Manifest)))).

Definition with_services (f : Services -> Services) (m : Manifest) : Manifest := set_mf_Services (f (mf_Services m)) m.

Definition WithSQLInstances (m : Manifest) (names : list string) : Manifest :=
  if is_nil names then m
  else with_services (fun s => set_sv_SQL true (set_sv_SQLInstances (sv_SQLInstances s ∪ list_to_set names) s)) m.
Definition WithCacheInstances (m : Manifest) (names : list string) : Manifest :=
  if is_nil names then m
  else with_services (fun s => set_sv_Cache true (set_sv_CacheInstances (sv_CacheInstances s ∪ list_to_set names) s)) m.
Definition WithKeyValueInstances (m : Manifest) (names : list string) : Manifest :=
  if is_nil names then m
  else with_services (fun s => set_sv_KeyValue true (set_sv_KeyValueInstances (sv_KeyValueInstances s ∪ list_to_set names) s)) m.
Definition WithDocumentDatabaseInstances (m : Manifest) (names : list string) : Manifest :=
  if is_nil names then m
  else with_services (fun s => set_sv_DocumentDatabase true (set_sv_DocumentDatabaseInstances (sv_DocumentDatabaseInstances s ∪ list_to_set names) s)) m.
Definition WithMessagingQueueInstances (m : Manifest) (names : list string) : Manifest :=
  if is_nil names then m
  else with_services (fun s => set_sv_MessagingQueue true (set_sv_MessagingQueueInstances (sv_MessagingQueueInstances s ∪ list_to_set names) s)) m.
Definition WithMessagingPubSubInstances (m : Manifest) (names : list string) : Manifest :=
  if is_nil names then m
  else with_services (fun s => set_sv_MessagingPubSub true (set_sv_MessagingPubSubInstances (sv_MessagingPubSubInstances s ∪ list_to_set names) s)) m.
Definition WithMessagingStreamInstances (m : Manifest) (names : list string) : Manifest :=
  if is_nil names then m
  else with_services (fun s => set_sv_MessagingStream true (set_sv_MessagingStreamInstances (sv_MessagingStreamInstances s ∪ list_to_set names) s)) m.
Definition WithObjectStorageBuckets (m : Manifest) (names : list string) : Manifest :=
  if is_nil names then m
  else with_services (fun s => set_sv_ObjectStorage true (set_sv_ObjectStorageBuckets (sv_ObjectStorageBuckets s ∪ list_to_set names) s)) m.

Definition HasIdentity (m : Manifest) : bool := sv_Identity (mf_Services m).

Definition WithIdentity (m : Manifest) : Manifest :=
  let m := with_services (set_sv_Identity true) m in
  let i := mf_Identity m in
  if is_nil (ir_Scopes i)
  then set_mf_Identity (mkIdentity (ir_CallbackPaths i) (ir_LogoutPaths i) ["openid"; "profile"; "email"] (ir_Claims i) (ir_Authentication i)) m
  else m.

Definition WithIdentityCallbackPath (m : Manifest) (path : string) : Manifest :=
  let m := WithIdentity m in
  let i := mf_Identity m in
  set_mf_Identity (mkIdentity (ir_CallbackPaths i ++ [TrimSpace path]) (ir_LogoutPaths i) (ir_Scopes i) (ir_Claims i) (ir_Authentication i)) m.

Definition WithIdentityLogoutPath (m : Manifest) (path : string) : Manifest :=
  let m := WithIdentity m in
  let i := mf_Identity m in
  set_mf_Identity (mkIdentity (ir_CallbackPaths i) (ir_LogoutPaths i ++ [TrimSpace path]) (ir_Scopes i) (ir_Claims i) (ir_Authentication i)) m.

Definition WithIdentityAuthentication (m : Manifest) (mfa : string) (methods : list string) (passwordless : bool) : Manifest :=
  let m := WithIdentity m in
  let i := mf_Identity m in
  set_mf_Identity (mkIdentity (ir_CallbackPaths i) (ir_LogoutPaths i) (ir_Scopes i) (ir_Claims i)
    (mkIdentityAuthentication (TrimSpace mfa) methods passwordless)) m.

Definition AvailabilityIntent (m : Manifest) : Intent := mkIntent (mf_HA m) (mf_Availability m).

Definition WithHA (m : Manifest) (enabled : bool) : Manifest := set_mf_HA enabled m.

Definition WithAvailabilityOverride (m : Manifest) (component : string) (ha : option bool) (instances : Z) : Manifest :=
  set_mf_Availability (<[TrimSpace component := mkOverride ha instances]> (mf_Availability m)) m.

Definition WithWorkloadComponents (m : Manifest) (components : list string) : Manifest := set_mf_Workload (mkWorkload components) m.
Definition WorkloadComponentNames (m : Manifest) : list string := wc_Components (mf_Workload m).
Definition HasExplicitWorkload (m : Manifest) : bool := negb (is_nil (wc_Components (mf_Workload m))).

Definition WithHTTPExposure (m : Manifest) (name service : string) (port : Z) (protocol : string) : Manifest :=
  set_mf_Exposures (mf_Exposures m ++ [mkExposure name service port protocol "public"]) m.

Definition WithOTLPTelemetry (m : Manifest) (signals : list string) : Manifest := set_mf_Telemetry (mkTelemetry (Some (mkOTLP signals))) m.
Definition HasOTLPTelemetry (m : Manifest) : bool := match te_OTLP (mf_Telemetry m) with Some _ => true | None => false end.

Definition WithMetricsSource (m : Manifest) (name service : string) (port : Z) (path : string) : Manifest :=
  set_mf_Metrics (mkMetrics (me_Sources (mf_Metrics m) ++ [mkMetricsSource (TrimSpace name) (TrimSpace service) port (TrimSpace path)])) m.
Definition HasMetricsSources (m : Manifest) : bool := negb (is_nil (me_Sources (mf_Metrics m))).

Definition WithLogsCollection (m : Manifest) (sources : list string) : Manifest := set_mf_Logs (mkLogs sources) m.
Definition HasLogsCollection (m : Manifest) : bool := negb (is_nil (lr_Collect (mf_Logs m))).

Definition WithRuntimePermission (m : Manifest) (capabilityID : string) (services operations : list string) : Manifest :=
  set_mf_Runtime (mkRuntime (ru_Permissions (mf_Runtime m) ++ [mkRuntimePermission (TrimSpace capabilityID) services operations])) m.

Definition HasRuntimeCapabilityPermission (m : Manifest) (capabilityID : string) : bool :=
  existsb (fun p => rp_Capability p == TrimSpace capabilityID) (ru_Permissions (mf_Runtime m)).

Definition RuntimePermissionFor (m : Manifest) (capabilityID operation : string) : bool :=
  existsb (fun p => (rp_Capability p == TrimSpace capabilityID) && existsb (fun allowed => allowed == TrimSpace operation) (rp_Operations p))
    (ru_Permissions (mf_Runtime m)).

(** ** Names of instances *)

Definition serviceInstanceNames (enabled : bool) (instances : Instances) : list string :=
  if bool_decide (instances = ∅) then if enabled then [defaultServiceInstance] else []
  else sort_strings (elements instances).

Definition SQLInstanceNames (m : Manifest) : list string := serviceInstanceNames (sv_SQL (mf_Services m)) (sv_SQLInstances (mf_Services m)).
Definition CacheInstanceNames (m : Manifest) : list string := serviceInstanceNames (sv_Cache (mf_Services m)) (sv_CacheInstances (mf_Services m)).
Definition KeyValueInstanceNames (m : Manifest) : list string := serviceInstanceNames (sv_KeyValue (mf_Services m)) (sv_KeyValueInstances (mf_Services m)).
Definition DocumentDatabaseInstanceNames (m : Manifest) : list string := serviceInstanceNames (sv_DocumentDatabase (mf_Services m)) (sv_DocumentDatabaseInstances (mf_Services m)).
Definition MessagingQueueInstanceNames (m : Manifest) : list string := serviceInstanceNames (sv_MessagingQueue (mf_Services m)) (sv_MessagingQueueInstances (mf_Services m)).
Definition MessagingPubSubInstanceNames (m : Manifest) : list string := serviceInstanceNames (sv_MessagingPubSub (mf_Services m)) (sv_MessagingPubSubInstances (mf_Services m)).
Definition MessagingStreamInstanceNames (m : Manifest) : list string := serviceInstanceNames (sv_MessagingStream (mf_Services m)) (sv_MessagingStreamInstances (mf_Services m)).
Definition ObjectStorageBucketNames (m : Manifest) : list string := serviceInstanceNames (sv_ObjectStorage (mf_Services m)) (sv_ObjectStorageBuckets (mf_Services m)).

(** The sorted union of several lists of names. *)
Definition union_names (l : list (list string)) : list string := sort_strings (elements (list_to_set (concat l) : gset string)).

Definition RabbitMQInstanceNames (m : Manifest) : list string :=
  union_names [MessagingQueueInstanceNames m; MessagingPubSubInstanceNames m; MessagingStreamInstanceNames m].

Definition ValkeyInstanceNames (m : Manifest) : list string := union_names [CacheInstanceNames m; KeyValueInstanceNames m].

Definition HasManagedRuntimeServices (m : Manifest) : bool :=
  negb (is_nil (SQLInstanceNames m)) || negb (is_nil (ValkeyInstanceNames m)) || negb (is_nil (RabbitMQInstanceNames m)) ||
  negb (is_nil (DocumentDatabaseInstanceNames m)).

Definition HasObjectStorage (m : Manifest) : bool := negb (is_nil (ObjectStorageBucketNames m)).

(** ** Secrets *)

Definition set_secrets (required optional : list SecretRequirement) (m : Manifest) : Manifest := set_mf_Secrets (mkSecrets required optional) m.

Definition plain_secrets (names : list string) : list SecretRequirement := map (fun name => mkSecretRequirement name None) names.

Definition WithRequiredSecrets (m : Manifest) (names : list string) : Manifest :=
  let m := set_secrets (se_Required (mf_Secrets m) ++ plain_secrets names) (se_Optional (mf_Secrets m)) m in
  if is_nil names then m else with_services (set_sv_Secrets true) m.

Definition WithOptionalSecrets (m : Manifest) (names : list string) : Manifest :=
  let m := set_secrets (se_Required (mf_Secrets m)) (se_Optional (mf_Secrets m) ++ plain_secrets names) m in
  if is_nil names then m else with_services (set_sv_Secrets true) m.

Definition withGeneratedSecret (m : Manifest) (required : bool) (name generationType : string) (size : Z) : Manifest :=
  let generation := mkGeneration generationType (if generationType == "random" then size else 0) (if generationType == "hex" then size else 0) in
  let requirement := mkSecretRequirement name (Some generation) in
  let m :=
    if required then set_secrets (se_Required (mf_Secrets m) ++ [requirement]) (se_Optional (mf_Secrets m)) m
    else set_secrets (se_Required (mf_Secrets m)) (se_Optional (mf_Secrets m) ++ [requirement]) m in
  with_services (set_sv_Secrets true) m.

Definition WithGeneratedSecret (m : Manifest) (name generationType : string) (size : Z) : Manifest :=
  withGeneratedSecret m true name generationType size.
Definition WithOptionalGeneratedSecret (m : Manifest) (name generationType : string) (size : Z) : Manifest :=
  withGeneratedSecret m false name generationType size.

Definition RequiredSecretNames (m : Manifest) : list string := map sr_Name (se_Required (mf_Secrets m)).
Definition OptionalSecretNames (m : Manifest) : list string := map sr_Name (se_Optional (mf_Secrets m)).

Definition GeneratedSecretRequirements (m : Manifest) : list SecretRequirement :=
  sort_slice (fun a b => String.ltb (sr_Name a) (sr_Name b))
    (List.filter (fun r => match sr_Generate r with Some _ => true | None => false end) (se_Required (mf_Secrets m) ++ se_Optional (mf_Secrets m))).

Definition SecretRequirementByName (m : Manifest) (name : string) : option SecretRequirement :=
  List.find (fun r => sr_Name r == name) (se_Required (mf_Secrets m) ++ se_Optional (mf_Secrets m)).

