(* ===== verification/ManifestValidate.v ===== *)
(** * Validation of manifests (internal/application: manifest_validation.go,
    consumption.go, availability_runtime.go)

    Every check of [Manifest.validate] in its order.  The two loops of
    [validateIdentityRequirements] over a literal map run in either order; which
    one is a parameter. *)

From S2P Require Import Prelude GoStrings StableId Sha256 Availability Capability Manifest.

(** ** Names *)

Definition is_lower (c : ascii) : bool := let n := nat_of_ascii c in (97 <=? n)%nat && (n <=? 122)%nat.
Definition is_upper (c : ascii) : bool := let n := nat_of_ascii c in (65 <=? n)%nat && (n <=? 90)%nat.
Definition is_digit (c : ascii) : bool := let n := nat_of_ascii c in (48 <=? n)%nat && (n <=? 57)%nat.

Fixpoint every_byte (f : ascii -> bool) (s : string) : bool :=
  match s with String c s => f c && every_byte f s | EmptyString => true end.

(** The loop of [validateSlug] at byte [i] of [value]. *)
Fixpoint slug_from (label value : string) (i : nat) (rest : string) : result error unit :=
  match rest with
  | EmptyString => Ok tt
  | String c rest =>
      reject (negb (is_lower c || is_digit c || (c == "-"%char)))
        (Errorf "%s %q must contain only lowercase letters, digits and hyphens" [AStr label; AStr value]) ;;
      reject ((c == "-"%char) && ((i =? 0)%nat || (i =? strlen value - 1)%nat))
        (Errorf "%s %q must not start or end with a hyphen" [AStr label; AStr value]) ;;
      slug_from label value (S i) rest
  end.

Definition validateSlug (label value : string) : result error unit :=
  reject (value == "") (Errorf "%s is required" [AStr label]) ;;
  reject (63 <? strlen value)%nat (Errorf "%s must be at most 63 characters" [AStr label]) ;;
  slug_from label value 0 value.

Definition name_byte (c : ascii) : bool := is_lower c || is_upper c || is_digit c || bool_decide (c ∈ ["_"; "-"; "."]%char).

Definition validateWorkloadComponentName (name : string) : result error unit :=
  reject ((name == "") || (128 <? strlen name)%nat) (Errorf "invalid workload component name %q" [AStr name]) ;;
  reject (negb (every_byte name_byte name)) (Errorf "invalid workload component name %q" [AStr name]).

Definition validateComposeServiceName (name : string) : result error unit :=
  reject ((name == "") || (128 <? strlen name)%nat) (Errorf "invalid workload component name %q" [AStr name]) ;;
  reject (negb (every_byte name_byte name)) (Errorf "invalid workload component name %q" [AStr name]).

Definition validateSecretKey (key : string) : result error unit :=
  reject (key == "") (errorsNew "required secret key is empty") ;;
  reject (128 <? strlen key)%nat (Errorf "required secret key %q must be at most 128 characters" [AStr key]) ;;
  reject ((key == "_baseharbor") || HasPrefix key "__baseharbor_") (Errorf "required secret key %q uses a reserved BaseHarbor name" [AStr key]) ;;
  reject (negb (every_byte name_byte key) ||
          match key with String c _ => bool_decide (c ∈ ["-"; "."]%char) | EmptyString => false end)
    (Errorf "invalid required secret key %q" [AStr key]).

(** A loop that rejects a key it has seen. *)
Definition unseen (seen : gset string) (key : string) (e : error) : result error (gset string) :=
  if decide (key ∈ seen) then Err e else Ok ({[key]} ∪ seen).

(** ** Consumptions (consumption.go) *)

Record LogicalProducerReference := mkProducer {
  lp_ApplicationID : string;
  lp_Component : string;
  lp_Interface : string }.

Definition Producer (r : ConsumptionRequirement) (currentApplicationID : string) : result error LogicalProducerReference :=
  let appID := TrimSpace (cn_ApplicationID r) in
  let appID := if appID == "" then TrimSpace currentApplicationID else appID in
  wrap_err (fun err => Errorf "consumption %q producer application: %w" [AStr (cn_Name r); ATxt err]) (ValidateApplicationID appID) ;;
  wrap_err (fun err => Errorf "consumption %q producer component: %w" [AStr (cn_Name r); ATxt err])
    (validateWorkloadComponentName (TrimSpace (cn_Component r))) ;;
  reject (TrimSpace (cn_Interface r) == "") (Errorf "consumption %q producer interface is required" [AStr (cn_Name r)]) ;;
  Ok (mkProducer appID (TrimSpace (cn_Component r)) (TrimSpace (cn_Interface r))).

Definition Consumption_Validate (r : ConsumptionRequirement) (currentApplicationID : string) : result error unit :=
  validateSlug "consumption name" (TrimSpace (cn_Name r)) ;;
  Producer r currentApplicationID ;;
  let protocol := TrimSpace (cn_Protocol r) in
  reject (ContainsAny protocol [" "; "/"; "\"; ":"; "@"]%char)
    (Errorf "consumption %q protocol %q must be a logical protocol identifier, not an address" [AStr (cn_Name r); AStr protocol]).

Definition nul_byte : string := String (byte_of 0) "".

Definition ConsumptionBindingID (producer : LogicalProducerReference) : string :=
  "consumption:" +:+
  hex_bytes (take 12 (Sum256 (lp_ApplicationID producer +:+ nul_byte +:+ lp_Component producer +:+ nul_byte +:+ lp_Interface producer))).

Record ResolvedConsumption := mkResolved {
  rc_Name : string;
  rc_Producer : LogicalProducerReference;
  rc_BindingID : string;
  rc_Protocol : string;
  rc_Endpoint : string;
  rc_Resolved : bool;
  rc_Diagnostic : string }.

Definition line_bytes : list ascii := [byte_of 13; byte_of 10; byte_of 0].

Definition ResolveConsumption (currentApplicationID : string) (requirement : ConsumptionRequirement) (endpoint : string) : result error ResolvedConsumption :=
  producer ← Producer requirement currentApplicationID;
  let resolved := mkResolved (cn_Name requirement) producer (ConsumptionBindingID producer) (TrimSpace (cn_Protocol requirement)) in
  let endpoint := TrimSpace endpoint in
  if endpoint == "" then Ok (resolved "" false "logical producer has no resolved stable endpoint")
  else
    reject (ContainsAny endpoint line_bytes) (errorsNew "resolved consumption endpoint is invalid") ;;
    Ok (resolved endpoint true "").

(** ** Availability (availability_runtime.go) *)

Definition ComponentHA (m : Manifest) (component : string) : bool := req_HA (Intent_Resolve (AvailabilityIntent m) component).

Definition managedHAMemberCount (m : Manifest) (component : string) (recommended : Z) : Z :=
  let req := Intent_Resolve (AvailabilityIntent m) component in
  if negb (req_HA req) then 1%Z
  else if (0 <? req_Instances req)%Z then req_Instances req
  else if (1 <? recommended)%Z then recommended
  else 3%Z.

Definition component_providers : list (string * ProviderKind) :=
  [("sql", ProviderPostgreSQL); ("cache", ProviderValkey); ("key_value", ProviderValkey); ("messaging", ProviderRabbitMQ);
   ("document_database", ProviderMongoDB); ("object_storage", ProviderSeaweedFS); ("identity", ProviderKeycloak);
   ("secrets", ProviderOpenBao); ("metrics", ProviderPrometheus); ("telemetry", ProviderOTelCollector); ("logs", ProviderLoki);
   ("traces", ProviderTempo)].

Definition check_members (i : Intent) (_ : unit) (component : string) : result error unit :=
  match List.find (fun cp => fst cp == component) component_providers with
  | Some (_, provider) =>
      wrap_err (fun err => Errorf "component %s: %w" [AStr component; ATxt err])
        (ValidateAvailabilityMembers provider (Intent_Resolve i component))
  | None => Ok tt
  end.

Definition validateProviderAvailabilityIntent (m : Manifest) : result error unit :=
  forE (check_members (AvailabilityIntent m)) tt (Intent_Components (AvailabilityIntent m)).

(** ** Parts of a manifest *)

Definition check_generation (name : string) (g : SecretGeneration) : result error unit :=
  if sg_Type g == "random" then
    reject ((sg_Length g <? 16)%Z || (4096 <? sg_Length g)%Z)
      (Errorf "generated secret %q random length must be between 16 and 4096" [AStr name]) ;;
    reject (sg_Bytes g != 0%Z) (Errorf "generated secret %q random generator must use length, not bytes" [AStr name])
  else if sg_Type g == "hex" then
    reject ((sg_Bytes g <? 16)%Z || (1024 <? sg_Bytes g)%Z)
      (Errorf "generated secret %q hex bytes must be between 16 and 1024" [AStr name]) ;;
    reject (sg_Length g != 0%Z) (Errorf "generated secret %q hex generator must use bytes, not length" [AStr name])
  else Err (Errorf "generated secret %q uses unsupported generator type %q" [AStr name; AStr (sg_Type g)]).

Definition validateSecretGeneration (name : string) (generation : option SecretGeneration) : result error unit :=
  match generation with None => Ok tt | Some g => check_generation name g end.

Definition check_secret (seen : gset string) (r : SecretRequirement) : result error (gset string) :=
  validateSecretKey (sr_Name r) ;;
  seen ← unseen seen (sr_Name r) (Errorf "duplicate application secret %q" [AStr (sr_Name r)]);
  validateSecretGeneration (sr_Name r) (sr_Generate r) ;;
  Ok seen.

Definition check_component (seen : gset string) (component : string) : result error (gset string) :=
  validateWorkloadComponentName component ;;
  unseen seen component (Errorf "duplicate workload component %q" [AStr component]).

Definition validateWorkload (workload : WorkloadConfig) : result error unit :=
  forE check_component ∅ (wc_Components workload) ;;
  Ok tt.

Definition normalizedExposureVisibility (value : string) : string := if TrimSpace value == "" then "public" else TrimSpace value.

(** [len(selected) > 0] and not in the map *)
Definition not_selected (workload : WorkloadConfig) (service : string) : bool :=
  negb (is_nil (wc_Components workload)) && negb (bool_decide (service ∈ wc_Components workload)).

Definition port_invalid (port : Z) : bool := (port <? 1)%Z || (65535 <? port)%Z.

Definition check_exposure (workload : WorkloadConfig) (seen : gset string) (e : HTTPExposureRequirement) : result error (gset string) :=
  validateSlug "HTTP exposure name" (ex_Name e) ;;
  seen ← unseen seen (ex_Name e) (Errorf "duplicate HTTP exposure %q" [AStr (ex_Name e)]);
  wrap_err (fun err => Errorf "HTTP exposure %q: %w" [AStr (ex_Name e); ATxt err]) (validateComposeServiceName (ex_Service e)) ;;
  reject (not_selected workload (ex_Service e))
    (Errorf "HTTP exposure %q targets workload component %q which is not selected" [AStr (ex_Name e); AStr (ex_Service e)]) ;;
  reject (port_invalid (ex_Port e)) (Errorf "HTTP exposure %q has invalid target port %d" [AStr (ex_Name e); AInt (ex_Port e)]) ;;
  reject (negb (bool_decide (ex_Protocol e ∈ ["http"; "https"]))) (Errorf "HTTP exposure %q protocol must be http or https" [AStr (ex_Name e)]) ;;
  reject (negb (bool_decide (normalizedExposureVisibility (ex_Visibility e) ∈ ["public"; "internal"])))
    (Errorf "HTTP exposure %q visibility must be public or internal" [AStr (ex_Name e)]) ;;
  Ok seen.

Definition validateHTTPExposures (workload : WorkloadConfig) (exposures : list HTTPExposureRequirement) : result error unit :=
  reject (negb (is_nil exposures) && is_nil (wc_Components workload))
    (Errorf "managed HTTP exposure requires explicit workload.components so endpoint identity is deterministic" []) ;;
  forE (check_exposure workload) ∅ exposures ;;
  Ok tt.

Definition check_signal (seen : gset string) (raw : string) : result error (gset string) :=
  let signal := TrimSpace raw in
  reject (negb (bool_decide (signal ∈ ["traces"; "metrics"; "logs"]))) (Errorf "OTLP telemetry signal %q must be traces, metrics or logs" [AStr signal]) ;;
  unseen seen signal (Errorf "duplicate OTLP telemetry signal %q" [AStr signal]).

Definition validateOTLPTelemetry (workload : WorkloadConfig) (requirement : option OTLPRequirement) : result error unit :=
  match requirement with
  | None => Ok tt
  | Some r =>
      reject (is_nil (wc_Components workload))
        (Errorf "OTLP telemetry requires explicit workload.components so service identity is deterministic" []) ;;
      reject (is_nil (ot_Signals r)) (Errorf "OTLP telemetry requires at least one signal" []) ;;
      forE check_signal ∅ (ot_Signals r) ;;
      Ok tt
  end.

Definition query_bytes : list ascii := ["?"%char; "#"%char; byte_of 13; byte_of 10; byte_of 0].

Definition check_source (workload : WorkloadConfig) (seen : gset string) (s : MetricsSourceRequirement) : result error (gset string) :=
  validateSlug "metrics source name" (ms_Name s) ;;
  seen ← unseen seen (ms_Name s) (Errorf "duplicate metrics source %q" [AStr (ms_Name s)]);
  wrap_err (fun err => Errorf "metrics source %q: %w" [AStr (ms_Name s); ATxt err]) (validateComposeServiceName (ms_Service s)) ;;
  reject (negb (bool_decide (ms_Service s ∈ wc_Components workload)))
    (Errorf "metrics source %q targets workload component %q which is not selected" [AStr (ms_Name s); AStr (ms_Service s)]) ;;
  reject (port_invalid (ms_Port s)) (Errorf "metrics source %q has invalid target port %d" [AStr (ms_Name s); AInt (ms_Port s)]) ;;
  reject ((ms_Path s == "") || negb (HasPrefix (ms_Path s) "/") || ContainsAny (ms_Path s) query_bytes)
    (Errorf "metrics source %q path must be an absolute HTTP path without query or fragment" [AStr (ms_Name s)]) ;;
  Ok seen.

Definition validateMetricsSources (workload : WorkloadConfig) (sources : list MetricsSourceRequirement) : result error unit :=
  if is_nil sources then Ok tt
  else
    reject (is_nil (wc_Components workload))
      (Errorf "metrics sources require explicit workload.components so service identity is deterministic" []) ;;
    forE (check_source workload) ∅ sources ;;
    Ok tt.

Definition check_log (seen : gset string) (raw : string) : result error (gset string) :=
  let source := TrimSpace (ToLower raw) in
  reject (source != "application") (Errorf "unsupported logs collect source %q" [AStr raw]) ;;
  unseen seen source (Errorf "duplicate logs collect source %q" [AStr source]).

Definition validateLogsRequirements (workload : WorkloadConfig) (logs : LogsRequirements) : result error unit :=
  if is_nil (lr_Collect logs) then Ok tt
  else
    reject (is_nil (wc_Components workload)) (errorsNew "logs collection requires explicit workload.components") ;;
    forE check_log ∅ (lr_Collect logs) ;;
    Ok tt.

Definition check_permitted_service (workload : WorkloadConfig) (canonical : string) (seen : gset string) (service : string) : result error (gset string) :=
  wrap_err (fun err => Errorf "runtime permission %q: %w" [AStr canonical; ATxt err]) (validateComposeServiceName service) ;;
  seen ← unseen seen service (Errorf "runtime permission %q repeats workload component %q" [AStr canonical; AStr service]);
  reject (not_selected workload service)
    (Errorf "runtime permission %q targets workload component %q which is not selected" [AStr canonical; AStr service]) ;;
  Ok seen.

Definition runtime_operations : list string := ["runtime.create"; "runtime.get"; "runtime.delete"; "runtime.rotate"].

Definition check_operation (canonical : string) (seen : gset string) (raw : string) : result error (gset string) :=
  let operation := TrimSpace raw in
  reject (negb (bool_decide (operation ∈ runtime_operations))) (Errorf "runtime permission %q has unsupported operation %q" [AStr canonical; AStr operation]) ;;
  unseen seen operation (Errorf "runtime permission %q repeats operation %q" [AStr canonical; AStr operation]).

Definition check_permission (workload : WorkloadConfig) (seen : gset string) (p : RuntimePermission) : result error (gset string) :=
  spec ← wrap_err (fun err => Errorf "runtime permission capability %q: %w" [AStr (rp_Capability p); ATxt err])
    (ParseSpecificationID (TrimSpace (rp_Capability p)));
  let canonical := spec_ID spec in
  seen ← unseen seen canonical (Errorf "duplicate runtime permission capability %q" [AStr canonical]);
  reject (is_nil (rp_Services p)) (Errorf "runtime permission %q requires at least one workload component" [AStr canonical]) ;;
  forE (check_permitted_service workload canonical) ∅ (rp_Services p) ;;
  reject (is_nil (rp_Operations p)) (Errorf "runtime permission %q requires at least one operation" [AStr canonical]) ;;
  forE (check_operation canonical) ∅ (rp_Operations p) ;;
  Ok seen.

Definition validateRuntimePermissions (workload : WorkloadConfig) (permissions : list RuntimePermission) : result error unit :=
  forE (check_permission workload) ∅ permissions ;;
  Ok tt.

(** ** Management interfaces and identity *)

Definition check_ui (_ : unit) (item : string * bool * bool) : result error unit :=
  let '(name, enabled, ui) := item in
  reject (ui && negb enabled) (Errorf "services.%s.management_ui requires the service to be enabled" [AStr name]).

Definition has_instances (l : Instances) : bool := negb (bool_decide (l = ∅)).

Definition ui_items (s : Services) : list (string * bool * bool) :=
  [("sql", sv_SQL s || has_instances (sv_SQLInstances s), sv_SQLManagementUI s);
   ("cache", sv_Cache s || has_instances (sv_CacheInstances s), sv_CacheManagementUI s);
   ("key_value", sv_KeyValue s || has_instances (sv_KeyValueInstances s), sv_KeyValueManagementUI s);
   ("document_database", sv_DocumentDatabase s || has_instances (sv_DocumentDatabaseInstances s), sv_DocumentDatabaseManagementUI s);
   ("messaging", negb (is_nil (RabbitMQInstanceNames (set_mf_Services s no_Manifest))), sv_MessagingManagementUI s);
   ("object_storage", sv_ObjectStorage s || has_instances (sv_ObjectStorageBuckets s), sv_ObjectStorageManagementUI s);
   ("secrets", sv_Secrets s, sv_SecretsManagementUI s);
   ("identity", sv_Identity s, sv_IdentityManagementUI s);
   ("observability", true, sv_ObservabilityManagementUI s)].

Definition validateManagementUIPreferences (s : Services) : result error unit := forE check_ui tt (ui_items s).

Definition validateObservabilityUIPreference (m : Manifest) : result error unit :=
  if negb (sv_ObservabilityManagementUI (mf_Services m)) then Ok tt
  else reject (negb (HasMetricsSources m))
    (errorsNew "services.observability.management_ui requires managed metrics because Prometheus is the current browser-capable observability surface").

Definition check_path (label : string) (seen : gset string) (raw : string) : result error (gset string) :=
  let value := TrimSpace raw in
  reject ((value == "") || negb (HasPrefix value "/") || HasPrefix value "//" || ContainsAny value query_bytes)
    (Errorf "identity %s %q must be an absolute path without scheme, host, query or fragment" [AStr label; AStr raw]) ;;
  unseen seen value (Errorf "duplicate identity %s %q" [AStr label; AStr value]).

Definition blank_bytes : list ascii := [" "%char; byte_of 9; byte_of 13; byte_of 10].

Definition check_word (label : string) (seen : gset string) (raw : string) : result error (gset string) :=
  let value := TrimSpace raw in
  reject ((value == "") || ContainsAny value blank_bytes) (Errorf "identity %s %q is invalid" [AStr label; AStr raw]) ;;
  unseen seen value (Errorf "duplicate identity %s %q" [AStr label; AStr value]).

Definition check_method (seen : gset string) (raw : string) : result error (gset string) :=
  let method := ToLower (TrimSpace raw) in
  reject (negb (bool_decide (method ∈ ["totp"; "webauthn"; "passkey"]))) (Errorf "unsupported identity authentication method %q" [AStr raw]) ;;
  unseen seen method (Errorf "duplicate identity authentication method %q" [AStr method]).

(** [range] over a map literal of two labelled lists, in one order or the
    other. *)
Definition range_both (first : bool) (check : string -> gset string -> string -> result error (gset string)) (a b : string * list string)
    : result error unit :=
  let '(x, y) := if first then (a, b) else (b, a) in
  forE (check (fst x)) ∅ (snd x) ;;
  forE (check (fst y)) ∅ (snd y) ;;
  Ok tt.

Class MapOrder := mkMapOrder {
  callbacks_first : bool;
  scopes_first : bool }.

Section identity.
Context {order : MapOrder}.

Definition no_identity_requirements (i : IdentityRequirements) : bool :=
  is_nil (ir_CallbackPaths i) && is_nil (ir_LogoutPaths i) && is_nil (ir_Scopes i) && is_nil (ir_Claims i) &&
  (TrimSpace (ia_MFA (ir_Authentication i)) == "") && is_nil (ia_Methods (ir_Authentication i)) && negb (ia_Passwordless (ir_Authentication i)).

Definition validate_authentication (a : IdentityAuthenticationRequirements) : result error unit :=
  let mfa := ToLower (TrimSpace (ia_MFA a)) in
  let mfa := if mfa == "" then "optional" else mfa in
  reject (negb (bool_decide (mfa ∈ ["optional"; "required"; "disabled"])))
    (Errorf "identity authentication mfa must be optional, required or disabled" []) ;;
  seenMethods ← forE check_method ∅ (ia_Methods a);
  reject ((mfa == "required") && bool_decide (seenMethods = ∅)) (errorsNew "identity authentication mfa=required needs at least one method") ;;
  reject (ia_Passwordless a && negb (bool_decide ("passkey" ∈ seenMethods)) && negb (bool_decide ("webauthn" ∈ seenMethods)))
    (errorsNew "identity passwordless authentication requires passkey or webauthn").

Definition validateIdentityRequirements (m : Manifest) : result error unit :=
  let i := mf_Identity m in
  if negb (sv_Identity (mf_Services m)) then
    reject (negb (no_identity_requirements i)) (errorsNew "identity requirements need services.identity enabled")
  else
    range_both callbacks_first check_path ("callback path", ir_CallbackPaths i) ("logout path", ir_LogoutPaths i) ;;
    range_both scopes_first check_word ("scope", ir_Scopes i) ("claim", ir_Claims i) ;;
    validate_authentication (ir_Authentication i).

(** ** The manifest *)

Definition nothing_requested (m : Manifest) : bool :=
  is_nil (SQLInstanceNames m) && is_nil (CacheInstanceNames m) && is_nil (KeyValueInstanceNames m) && is_nil (DocumentDatabaseInstanceNames m) &&
  is_nil (ObjectStorageBucketNames m) && is_nil (MessagingQueueInstanceNames m) && is_nil (MessagingPubSubInstanceNames m) &&
  is_nil (MessagingStreamInstanceNames m) && negb (sv_Secrets (mf_Services m)) && negb (sv_Identity (mf_Services m)) &&
  negb (HasExplicitWorkload m) && negb (HasOTLPTelemetry m) && negb (HasMetricsSources m) && negb (HasLogsCollection m).

Definition check_consumption (applicationID : string) (seen : gset string) (c : ConsumptionRequirement) : result error (gset string) :=
  Consumption_Validate c applicationID ;;
  unseen seen (cn_Name c) (Errorf "duplicate consumption %q" [AStr (cn_Name c)]).

Definition check_slugs (label : string) (names : list string) : result error unit := forE (fun _ => validateSlug label) tt names.

Definition check_shared (cache : list string) (_ : unit) (name : string) : result error unit :=
  reject (bool_decide (name ∈ cache)) (Errorf "service instance %q cannot be both cache.key-value and database.key-value" [AStr name]).

Definition validate_instances (m : Manifest) : result error unit :=
  check_slugs "SQL instance name" (SQLInstanceNames m) ;;
  check_slugs "cache instance name" (CacheInstanceNames m) ;;
  check_slugs "key-value database instance name" (KeyValueInstanceNames m) ;;
  check_slugs "document database instance name" (DocumentDatabaseInstanceNames m) ;;
  forE (check_shared (CacheInstanceNames m)) tt (KeyValueInstanceNames m) ;;
  check_slugs "object-storage bucket name" (ObjectStorageBucketNames m) ;;
  check_slugs "messaging queue instance name" (MessagingQueueInstanceNames m) ;;
  check_slugs "messaging pubsub instance name" (MessagingPubSubInstanceNames m) ;;
  check_slugs "messaging stream instance name" (MessagingStreamInstanceNames m).

Definition validate_secrets (m : Manifest) : result error unit :=
  reject ((negb (is_nil (se_Required (mf_Secrets m))) || negb (is_nil (se_Optional (mf_Secrets m)))) && negb (sv_Secrets (mf_Services m)))
    (Errorf "secret requirements need services.secrets enabled" []) ;;
  seen ← forE check_secret ∅ (se_Required (mf_Secrets m));
  forE check_secret seen (se_Optional (mf_Secrets m)) ;;
  Ok tt.

Definition validate_identity_of (m : Manifest) : result error unit :=
  reject (mf_Version m != CurrentVersion) (Errorf "unsupported manifest version %d (expected %d)" [AInt (mf_Version m); AInt CurrentVersion]) ;;
  (if mf_ApplicationID m != "" then ValidateApplicationID (mf_ApplicationID m) else Ok tt) ;;
  validateSlug "application name" (mf_Name m) ;;
  validateSlug "environment" (mf_Environment m).

Definition validate (requireWorkload : bool) (m : Manifest) : result error unit :=
  validate_identity_of m ;;
  Intent_Validate (AvailabilityIntent m) ;;
  validateProviderAvailabilityIntent m ;;
  forE (check_consumption (mf_ApplicationID m)) ∅ (mf_Consumes m) ;;
  reject (requireWorkload && nothing_requested m)
    (Errorf "at least one backend service, telemetry binding or explicit Compose workload must be enabled" []) ;;
  validate_instances m ;;
  validateManagementUIPreferences (mf_Services m) ;;
  validateIdentityRequirements m ;;
  validateObservabilityUIPreference m ;;
  validate_secrets m ;;
  validateWorkload (mf_Workload m) ;;
  validateHTTPExposures (mf_Workload m) (mf_Exposures m) ;;
  validateOTLPTelemetry (mf_Workload m) (te_OTLP (mf_Telemetry m)) ;;
  validateMetricsSources (mf_Workload m) (me_Sources (mf_Metrics m)) ;;
  validateLogsRequirements (mf_Workload m) (mf_Logs m) ;;
  validateRuntimePermissions (mf_Workload m) (ru_Permissions (mf_Runtime m)).

Definition Validate (m : Manifest) : result error unit := validate true m.

Definition ValidateIntent (m : Manifest) : result error unit := validate false m.
End identity.
