(* ===== verification/ManifestYAML.v ===== *)
(** * The manifest grammar (internal/application: manifest_render.go,
    manifest_parse.go)

    The serialisation of a manifest and the line-oriented parser of its grammar.
    The fields of the parser that [resetNestedState] clears are a record of
    their own. *)

From S2P Require Import Prelude GoStrings StableId Availability Capability Manifest ManifestValidate.

(** ** Rendering

    Everything the code writes is a line: spaces, a text and a line feed. *)

Abbreviation lines := (list (nat * string)).

Definition line_feed : string := String (byte_of 10) "".

Fixpoint spaces (n : nat) : string := match n with O => "" | S n => String " " (spaces n) end.

Definition write_line (l : nat * string) : string := spaces (fst l) +:+ snd l +:+ line_feed.

Definition write_lines (l : lines) : string := foldr (fun l s => write_line l +:+ s) "" l.

Definition bool_text (b : bool) : string := if b then "true" else "false".

Definition when {A} (b : bool) (l : list A) : list A := if b then l else [].

Definition by_key {A} (key : A -> string) : list A -> list A := sort_slice (fun a b => String.ltb (key a) (key b)).

Definition writeStringListYAML (field : string) (values : list string) (indent : nat) : lines :=
  when (negb (is_nil values)) ((indent, field +:+ ":") :: map (fun v => ((indent + 2)%nat, "- " +:+ v)) (sort_strings values)).

Definition writeManagementUIYAML (enabled : bool) : lines := when enabled [(4%nat, "management_ui: true")].

Definition writeServiceYAML (service : string) (enabled : bool) (instances : Instances) : lines :=
  (2%nat, service +:+ ":") ::
  if bool_decide (instances = ∅) then [(4%nat, "enabled: " +:+ bool_text enabled)]
  else (4%nat, "instances:") :: map (fun name => (6%nat, name +:+ ": {}")) (serviceInstanceNames true instances).

Definition writeObjectStorageYAML (enabled : bool) (buckets : Instances) : lines :=
  (2%nat, "object_storage:") ::
  if bool_decide (buckets = ∅) then [(4%nat, "enabled: " +:+ bool_text enabled)]
  else (4%nat, "buckets:") :: map (fun name => (6%nat, name +:+ ": {}")) (serviceInstanceNames true buckets).

Definition hasManifestServices (s : Services) : bool :=
  sv_SQL s || sv_Cache s || sv_KeyValue s || sv_DocumentDatabase s || sv_MessagingQueue s || sv_MessagingPubSub s || sv_MessagingStream s ||
  sv_Secrets s || sv_ObjectStorage s || sv_Identity s || sv_ObservabilityManagementUI s ||
  has_instances (sv_SQLInstances s) || has_instances (sv_CacheInstances s) || has_instances (sv_KeyValueInstances s) ||
  has_instances (sv_DocumentDatabaseInstances s) || has_instances (sv_MessagingQueueInstances s) || has_instances (sv_MessagingPubSubInstances s) ||
  has_instances (sv_MessagingStreamInstances s) || has_instances (sv_ObjectStorageBuckets s).

Definition secret_lines (r : SecretRequirement) : lines :=
  (4%nat, "- name: " +:+ sr_Name r) ::
  match sr_Generate r with
  | None => []
  | Some g =>
      (6%nat, "generate:") :: (8%nat, "type: " +:+ sg_Type g) ::
      if sg_Type g == "random" then [(8%nat, "length: " +:+ Itoa (sg_Length g))]
      else if sg_Type g == "hex" then [(8%nat, "bytes: " +:+ Itoa (sg_Bytes g))]
      else []
  end.

Definition writeSecretRequirementsYAML (field : string) (source : list SecretRequirement) : lines :=
  when (negb (is_nil source)) ((2%nat, field +:+ ":") :: concat (map secret_lines (by_key sr_Name source))).

Definition override_lines (m : Manifest) (component : string) : lines :=
  let override := default (mkOverride None 0) (mf_Availability m !! component) in
  (2%nat, component +:+ ":") ::
  match ov_HA override with Some ha => [(4%nat, "ha: " +:+ bool_text ha)] | None => [] end ++
  when (0 <? ov_Instances override)%Z [(4%nat, "instances: " +:+ Itoa (ov_Instances override))].

Definition availability_lines (m : Manifest) : lines :=
  when (negb (bool_decide (mf_Availability m = ∅)))
    ((0%nat, "availability:") :: concat (map (override_lines m) (Intent_Components (AvailabilityIntent m)))).

Definition consumption_lines (c : ConsumptionRequirement) : lines :=
  (2%nat, "- name: " +:+ cn_Name c) ::
  when (cn_ApplicationID c != "") [(4%nat, "application_id: " +:+ cn_ApplicationID c)] ++
  [(4%nat, "component: " +:+ cn_Component c); (4%nat, "interface: " +:+ cn_Interface c)] ++
  when (cn_Protocol c != "") [(4%nat, "protocol: " +:+ cn_Protocol c)].

Definition consumes_lines (m : Manifest) : lines :=
  when (negb (is_nil (mf_Consumes m))) ((0%nat, "consumes:") :: concat (map consumption_lines (by_key cn_Name (mf_Consumes m)))).

(** The messaging interface is written with the first messaging service. *)
Definition messaging_lines (s : Services) : lines :=
  let queue := sv_MessagingQueue s || has_instances (sv_MessagingQueueInstances s) in
  let pubsub := sv_MessagingPubSub s || has_instances (sv_MessagingPubSubInstances s) in
  let stream := sv_MessagingStream s || has_instances (sv_MessagingStreamInstances s) in
  let ui := sv_MessagingManagementUI s in
  when queue (writeServiceYAML "messaging_queue" (sv_MessagingQueue s) (sv_MessagingQueueInstances s) ++ writeManagementUIYAML ui) ++
  when pubsub (writeServiceYAML "messaging_pubsub" (sv_MessagingPubSub s) (sv_MessagingPubSubInstances s) ++
               writeManagementUIYAML (ui && negb queue)) ++
  when stream (writeServiceYAML "messaging_stream" (sv_MessagingStream s) (sv_MessagingStreamInstances s) ++
               writeManagementUIYAML (ui && negb (queue || pubsub))).

Definition services_lines (s : Services) : lines :=
  when (hasManifestServices s) (
    [(0%nat, "services:")] ++
    when (sv_SQL s || has_instances (sv_SQLInstances s))
      (writeServiceYAML "sql" (sv_SQL s) (sv_SQLInstances s) ++ writeManagementUIYAML (sv_SQLManagementUI s)) ++
    when (sv_Cache s || has_instances (sv_CacheInstances s))
      (writeServiceYAML "cache" (sv_Cache s) (sv_CacheInstances s) ++ writeManagementUIYAML (sv_CacheManagementUI s)) ++
    when (sv_KeyValue s || has_instances (sv_KeyValueInstances s))
      (writeServiceYAML "key_value" (sv_KeyValue s) (sv_KeyValueInstances s) ++ writeManagementUIYAML (sv_KeyValueManagementUI s)) ++
    when (sv_DocumentDatabase s || has_instances (sv_DocumentDatabaseInstances s))
      (writeServiceYAML "document_database" (sv_DocumentDatabase s) (sv_DocumentDatabaseInstances s) ++
       writeManagementUIYAML (sv_DocumentDatabaseManagementUI s)) ++
    messaging_lines s ++
    when (sv_ObjectStorage s || has_instances (sv_ObjectStorageBuckets s))
      (writeObjectStorageYAML (sv_ObjectStorage s) (sv_ObjectStorageBuckets s) ++ writeManagementUIYAML (sv_ObjectStorageManagementUI s)) ++
    when (sv_Secrets s) ([(2%nat, "secrets:"); (4%nat, "enabled: true")] ++ writeManagementUIYAML (sv_SecretsManagementUI s)) ++
    when (sv_Identity s) ([(2%nat, "identity:"); (4%nat, "enabled: true")] ++ writeManagementUIYAML (sv_IdentityManagementUI s)) ++
    when (sv_ObservabilityManagementUI s) ((2%nat, "observability:") :: writeManagementUIYAML true)).

Definition authentication_lines (a : IdentityAuthenticationRequirements) : lines :=
  when ((ia_MFA a != "") || negb (is_nil (ia_Methods a)) || ia_Passwordless a) (
    [(2%nat, "authentication:")] ++
    when (ia_MFA a != "") [(4%nat, "mfa: " +:+ ia_MFA a)] ++
    [(4%nat, "passwordless: " +:+ bool_text (ia_Passwordless a))] ++
    writeStringListYAML "methods" (ia_Methods a) 4).

Definition identity_lines (m : Manifest) : lines :=
  let i := mf_Identity m in
  when (sv_Identity (mf_Services m)) (
    [(0%nat, "identity:")] ++
    writeStringListYAML "callback_paths" (ir_CallbackPaths i) 2 ++
    writeStringListYAML "logout_paths" (ir_LogoutPaths i) 2 ++
    writeStringListYAML "scopes" (ir_Scopes i) 2 ++
    writeStringListYAML "claims" (ir_Claims i) 2 ++
    authentication_lines (ir_Authentication i)).

Definition secrets_lines (m : Manifest) : lines :=
  when (negb (is_nil (se_Required (mf_Secrets m))) || negb (is_nil (se_Optional (mf_Secrets m)))) (
    [(0%nat, "secrets:")] ++
    writeSecretRequirementsYAML "required" (se_Required (mf_Secrets m)) ++
    writeSecretRequirementsYAML "optional" (se_Optional (mf_Secrets m))).

Definition item_lines (indent : nat) (values : list string) : lines := map (fun v => (indent, "- " +:+ v)) (sort_strings values).

Definition permission_lines (p : RuntimePermission) : lines :=
  [(4%nat, "- capability: " +:+ rp_Capability p); (6%nat, "services:")] ++ item_lines 8 (rp_Services p) ++
  [(6%nat, "operations:")] ++ item_lines 8 (rp_Operations p).

Definition runtime_lines (m : Manifest) : lines :=
  when (negb (is_nil (ru_Permissions (mf_Runtime m)))) (
    [(0%nat, "runtime:"); (2%nat, "permissions:")] ++ concat (map permission_lines (by_key rp_Capability (ru_Permissions (mf_Runtime m))))).

Definition workload_lines (m : Manifest) : lines :=
  when (negb (is_nil (wc_Components (mf_Workload m)))) (
    [(0%nat, "workload:"); (2%nat, "components:")] ++ item_lines 4 (wc_Components (mf_Workload m))).

Definition source_lines (s : MetricsSourceRequirement) : lines :=
  [(4%nat, "- name: " +:+ ms_Name s); (6%nat, "service: " +:+ ms_Service s); (6%nat, "port: " +:+ Itoa (ms_Port s)); (6%nat, "path: " +:+ ms_Path s)].

Definition metrics_lines (m : Manifest) : lines :=
  when (negb (is_nil (me_Sources (mf_Metrics m)))) (
    [(0%nat, "metrics:"); (2%nat, "sources:")] ++ concat (map source_lines (by_key ms_Name (me_Sources (mf_Metrics m))))).

Definition logs_lines (m : Manifest) : lines :=
  when (negb (is_nil (lr_Collect (mf_Logs m)))) (
    [(0%nat, "logs:"); (2%nat, "collect:")] ++ item_lines 4 (lr_Collect (mf_Logs m))).

Definition telemetry_lines (m : Manifest) : lines :=
  match te_OTLP (mf_Telemetry m) with
  | None => []
  | Some otlp => [(0%nat, "telemetry:"); (2%nat, "otlp:"); (4%nat, "signals:")] ++ item_lines 6 (ot_Signals otlp)
  end.

Definition exposure_lines (e : HTTPExposureRequirement) : lines :=
  [(4%nat, "- name: " +:+ ex_Name e); (6%nat, "service: " +:+ ex_Service e); (6%nat, "port: " +:+ Itoa (ex_Port e));
   (6%nat, "protocol: " +:+ ex_Protocol e); (6%nat, "visibility: " +:+ normalizedExposureVisibility (ex_Visibility e))].

Definition exposures_lines (m : Manifest) : lines :=
  when (negb (is_nil (mf_Exposures m))) (
    [(0%nat, "exposure:"); (2%nat, "http:")] ++ concat (map exposure_lines (by_key ex_Name (mf_Exposures m)))).

Definition app_lines (m : Manifest) : lines :=
  [(0%nat, "version: " +:+ Itoa (mf_Version m)); (0%nat, "app:")] ++
  when (mf_ApplicationID m != "") [(2%nat, "id: " +:+ mf_ApplicationID m)] ++
  [(2%nat, "name: " +:+ mf_Name m); (2%nat, "environment: " +:+ mf_Environment m)] ++
  when (mf_HA m) [(0%nat, "ha: true")].

Definition yaml_lines (m : Manifest) : lines :=
  app_lines m ++ availability_lines m ++ consumes_lines m ++ services_lines (mf_Services m) ++ identity_lines m ++ secrets_lines m ++
  runtime_lines m ++ workload_lines m ++ metrics_lines m ++ logs_lines m ++ telemetry_lines m ++ exposures_lines m.

Definition YAML (m : Manifest) : string := write_lines (yaml_lines m).

Definition AuthoredYAML (m : Manifest) : string := YAML (set_mf_ApplicationID "" m).

(** ** The state of the parser *)

Record Nested := mkNested {
  ns_service : string;
  ns_serviceField : string;
  ns_secretField : string;
  ns_secretIndex : Z;
  ns_secretGenerate : bool;
  ns_workloadField : string;
  ns_exposureField : string;
  ns_exposureIndex : Z;
  ns_telemetryField : string;
  ns_metricsField : string;
  ns_metricsIndex : Z;
  ns_logsField : string;
  ns_runtimeField : string;
  ns_runtimePermissionIndex : Z;
  ns_runtimePermissionList : string;
  ns_identityField : string;
  ns_availabilityComponent : string;
  ns_consumptionIndex : Z }.

Definition reset_nested : Nested := mkNested "" "" "" (-1) false "" "" (-1) "" "" (-1) "" "" (-1) "" "" "" (-1).

Definition set_ns_service (v : string) (r : Nested) : Nested :=
  mkNested v (ns_serviceField r) (ns_secretField r) (ns_secretIndex r) (ns_secretGenerate r) (ns_workloadField r) (ns_exposureField r) (ns_exposureIndex r) (ns_telemetryField r) (ns_metricsField r) (ns_metricsIndex r) (ns_logsField r) (ns_runtimeField r) (ns_runtimePermissionIndex r) (ns_runtimePermissionList r) (ns_identityField r) (ns_availabilityComponent r) (ns_consumptionIndex r).
Definition set_ns_serviceField (v : string) (r : Nested) : Nested :=
  mkNested (ns_service r) v (ns_secretField r) (ns_secretIndex r) (ns_secretGenerate r) (ns_workloadField r) (ns_exposureField r) (ns_exposureIndex r) (ns_telemetryField r) (ns_metricsField r) (ns_metricsIndex r) (ns_logsField r) (ns_runtimeField r) (ns_runtimePermissionIndex r) (ns_runtimePermissionList r) (ns_identityField r) (ns_availabilityComponent r) (ns_consumptionIndex r).
Definition set_ns_secretField (v : string) (r : Nested) : Nested :=
  mkNested (ns_service r) (ns_serviceField r) v (ns_secretIndex r) (ns_secretGenerate r) (ns_workloadField r) (ns_exposureField r) (ns_exposureIndex r) (ns_telemetryField r) (ns_metricsField r) (ns_metricsIndex r) (ns_logsField r) (ns_runtimeField r) (ns_runtimePermissionIndex r) (ns_runtimePermissionList r) (ns_identityField r) (ns_availabilityComponent r) (ns_consumptionIndex r).
Definition set_ns_secretIndex (v : Z) (r : Nested) : Nested :=
  mkNested (ns_service r) (ns_serviceField r) (ns_secretField r) v (ns_secretGenerate r) (ns_workloadField r) (ns_exposureField r) (ns_exposureIndex r) (ns_telemetryField r) (ns_metricsField r) (ns_metricsIndex r) (ns_logsField r) (ns_runtimeField r) (ns_runtimePermissionIndex r) (ns_runtimePermissionList r) (ns_identityField r) (ns_availabilityComponent r) (ns_consumptionIndex r).
Definition set_ns_secretGenerate (v : bool) (r : Nested) : Nested :=
  mkNested (ns_service r) (ns_serviceField r) (ns_secretField r) (ns_secretIndex r) v (ns_workloadField r) (ns_exposureField r) (ns_exposureIndex r) (ns_telemetryField r) (ns_metricsField r) (ns_metricsIndex r) (ns_logsField r) (ns_runtimeField r) (ns_runtimePermissionIndex r) (ns_runtimePermissionList r) (ns_identityField r) (ns_availabilityComponent r) (ns_consumptionIndex r).
Definition set_ns_workloadField (v : string) (r : Nested) : Nested :=
  mkNested (ns_service r) (ns_serviceField r) (ns_secretField r) (ns_secretIndex r) (ns_secretGenerate r) v (ns_exposureField r) (ns_exposureIndex r) (ns_telemetryField r) (ns_metricsField r) (ns_metricsIndex r) (ns_logsField r) (ns_runtimeField r) (ns_runtimePermissionIndex r) (ns_runtimePermissionList r) (ns_identityField r) (ns_availabilityComponent r) (ns_consumptionIndex r).
Definition set_ns_exposureField (v : string) (r : Nested) : Nested :=
  mkNested (ns_service r) (ns_serviceField r) (ns_secretField r) (ns_secretIndex r) (ns_secretGenerate r) (ns_workloadField r) v (ns_exposureIndex r) (ns_telemetryField r) (ns_metricsField r) (ns_metricsIndex r) (ns_logsField r) (ns_runtimeField r) (ns_runtimePermissionIndex r) (ns_runtimePermissionList r) (ns_identityField r) (ns_availabilityComponent r) (ns_consumptionIndex r).
Definition set_ns_exposureIndex (v : Z) (r : Nested) : Nested :=
  mkNested (ns_service r) (ns_serviceField r) (ns_secretField r) (ns_secretIndex r) (ns_secretGenerate r) (ns_workloadField r) (ns_exposureField r) v (ns_telemetryField r) (ns_metricsField r) (ns_metricsIndex r) (ns_logsField r) (ns_runtimeField r) (ns_runtimePermissionIndex r) (ns_runtimePermissionList r) (ns_identityField r) (ns_availabilityComponent r) (ns_consumptionIndex r).
Definition set_ns_telemetryField (v : string) (r : Nested) : Nested :=
  mkNested (ns_service r) (ns_serviceField r) (ns_secretField r) (ns_secretIndex r) (ns_secretGenerate r) (ns_workloadField r) (ns_exposureField r) (ns_exposureIndex r) v (ns_metricsField r) (ns_metricsIndex r) (ns_logsField r) (ns_runtimeField r) (ns_runtimePermissionIndex r) (ns_runtimePermissionList r) (ns_identityField r) (ns_availabilityComponent r) (ns_consumptionIndex r).
Definition set_ns_metricsField (v : string) (r : Nested) : Nested :=
  mkNested (ns_service r) (ns_serviceField r) (ns_secretField r) (ns_secretIndex r) (ns_secretGenerate r) (ns_workloadField r) (ns_exposureField r) (ns_exposureIndex r) (ns_telemetryField r) v (ns_metricsIndex r) (ns_logsField r) (ns_runtimeField r) (ns_runtimePermissionIndex r) (ns_runtimePermissionList r) (ns_identityField r) (ns_availabilityComponent r) (ns_consumptionIndex r).
Definition set_ns_metricsIndex (v : Z) (r : Nested) : Nested :=
  mkNested (ns_service r) (ns_serviceField r) (ns_secretField r) (ns_secretIndex r) (ns_secretGenerate r) (ns_workloadField r) (ns_exposureField r) (ns_exposureIndex r) (ns_telemetryField r) (ns_metricsField r) v (ns_logsField r) (ns_runtimeField r) (ns_runtimePermissionIndex r) (ns_runtimePermissionList r) (ns_identityField r) (ns_availabilityComponent r) (ns_consumptionIndex r).
Definition set_ns_logsField (v : string) (r : Nested) : Nested :=
  mkNested (ns_service r) (ns_serviceField r) (ns_secretField r) (ns_secretIndex r) (ns_secretGenerate r) (ns_workloadField r) (ns_exposureField r) (ns_exposureIndex r) (ns_telemetryField r) (ns_metricsField r) (ns_metricsIndex r) v (ns_runtimeField r) (ns_runtimePermissionIndex r) (ns_runtimePermissionList r) (ns_identityField r) (ns_availabilityComponent r) (ns_consumptionIndex r).
Definition set_ns_runtimeField (v : string) (r : Nested) : Nested :=
  mkNested (ns_service r) (ns_serviceField r) (ns_secretField r) (ns_secretIndex r) (ns_secretGenerate r) (ns_workloadField r) (ns_exposureField r) (ns_exposureIndex r) (ns_telemetryField r) (ns_metricsField r) (ns_metricsIndex r) (ns_logsField r) v (ns_runtimePermissionIndex r) (ns_runtimePermissionList r) (ns_identityField r) (ns_availabilityComponent r) (ns_consumptionIndex r).
Definition set_ns_runtimePermissionIndex (v : Z) (r : Nested) : Nested :=
  mkNested (ns_service r) (ns_serviceField r) (ns_secretField r) (ns_secretIndex r) (ns_secretGenerate r) (ns_workloadField r) (ns_exposureField r) (ns_exposureIndex r) (ns_telemetryField r) (ns_metricsField r) (ns_metricsIndex r) (ns_logsField r) (ns_runtimeField r) v (ns_runtimePermissionList r) (ns_identityField r) (ns_availabilityComponent r) (ns_consumptionIndex r).
Definition set_ns_runtimePermissionList (v : string) (r : Nested) : Nested :=
  mkNested (ns_service r) (ns_serviceField r) (ns_secretField r) (ns_secretIndex r) (ns_secretGenerate r) (ns_workloadField r) (ns_exposureField r) (ns_exposureIndex r) (ns_telemetryField r) (ns_metricsField r) (ns_metricsIndex r) (ns_logsField r) (ns_runtimeField r) (ns_runtimePermissionIndex r) v (ns_identityField r) (ns_availabilityComponent r) (ns_consumptionIndex r).
Definition set_ns_identityField (v : string) (r : Nested) : Nested :=
  mkNested (ns_service r) (ns_serviceField r) (ns_secretField r) (ns_secretIndex r) (ns_secretGenerate r) (ns_workloadField r) (ns_exposureField r) (ns_exposureIndex r) (ns_telemetryField r) (ns_metricsField r) (ns_metricsIndex r) (ns_logsField r) (ns_runtimeField r) (ns_runtimePermissionIndex r) (ns_runtimePermissionList r) v (ns_availabilityComponent r) (ns_consumptionIndex r).
Definition set_ns_availabilityComponent (v : string) (r : Nested) : Nested :=
  mkNested (ns_service r) (ns_serviceField r) (ns_secretField r) (ns_secretIndex r) (ns_secretGenerate r) (ns_workloadField r) (ns_exposureField r) (ns_exposureIndex r) (ns_telemetryField r) (ns_metricsField r) (ns_metricsIndex r) (ns_logsField r) (ns_runtimeField r) (ns_runtimePermissionIndex r) (ns_runtimePermissionList r) (ns_identityField r) v (ns_consumptionIndex r).
Definition set_ns_consumptionIndex (v : Z) (r : Nested) : Nested :=
  mkNested (ns_service r) (ns_serviceField r) (ns_secretField r) (ns_secretIndex r) (ns_secretGenerate r) (ns_workloadField r) (ns_exposureField r) (ns_exposureIndex r) (ns_telemetryField r) (ns_metricsField r) (ns_metricsIndex r) (ns_logsField r) (ns_runtimeField r) (ns_runtimePermissionIndex r) (ns_runtimePermissionList r) (ns_identityField r) (ns_availabilityComponent r) v.

Record Parser := mkParser {
  ps_canonical : bool;
  ps_manifest : Manifest;
  ps_section : string;
  ps_nested : Nested;
  ps_serviceSeen : gset string;
  ps_appSeen : gset string }.

Definition set_ps_canonical (v : bool) (r : Parser) : Parser :=
  mkParser v (ps_manifest r) (ps_section r) (ps_nested r) (ps_serviceSeen r) (ps_appSeen r).
Definition set_ps_manifest (v : Manifest) (r : Parser) : Parser :=
  mkParser (ps_canonical r) v (ps_section r) (ps_nested r) (ps_serviceSeen r) (ps_appSeen r).
Definition set_ps_section (v : string) (r : Parser) : Parser :=
  mkParser (ps_canonical r) (ps_manifest r) v (ps_nested r) (ps_serviceSeen r) (ps_appSeen r).
Definition set_ps_nested (v : Nested) (r : Parser) : Parser :=
  mkParser (ps_canonical r) (ps_manifest r) (ps_section r) v (ps_serviceSeen r) (ps_appSeen r).
Definition set_ps_serviceSeen (v : gset string) (r : Parser) : Parser :=
  mkParser (ps_canonical r) (ps_manifest r) (ps_section r) (ps_nested r) v (ps_appSeen r).
Definition set_ps_appSeen (v : gset string) (r : Parser) : Parser :=
  mkParser (ps_canonical r) (ps_manifest r) (ps_section r) (ps_nested r) (ps_serviceSeen r) v.

Definition newManifestYAMLParser (canonical : bool) : Parser := mkParser canonical no_Manifest "" reset_nested ∅ ∅.

Definition resetNestedState (p : Parser) : Parser := set_ps_nested reset_nested p.

Definition section (p : Parser) (s : string) : bool := ps_section p == s.
Definition nested (p : Parser) (f : Nested -> Nested) : Parser := set_ps_nested (f (ps_nested p)) p.
Definition change (p : Parser) (f : Manifest -> Manifest) : Parser := set_ps_manifest (f (ps_manifest p)) p.

(** [strconv.ParseBool] *)
Definition ParseBool (s : string) : option bool :=
  if bool_decide (s ∈ ["1"; "t"; "T"; "TRUE"; "true"; "True"]) then Some true
  else if bool_decide (s ∈ ["0"; "f"; "F"; "FALSE"; "false"; "False"]) then Some false
  else None.

Definition or_error {A} (o : option A) (e : error) : result error A := match o with Some a => Ok a | None => Err e end.

(** [key, value, ok := strings.Cut(s, ":")] with an error when not ok; the
    value trimmed. *)
Definition key_value (s : string) (e : error) : result error (string * string) :=
  let '(key, value, ok) := Cut s ":" in
  if ok then Ok (key, TrimSpace value) else Err e.

Definition item_of (trim : string) : string := TrimSpace (TrimPrefix trim "- ").

Definition at_line (n : Z) (format : string) (args : list arg) : error := Errorf ("line %d: " +:+ format) (AInt n :: args).

Definition last_index {A} (l : list A) : Z := Z.of_nat (length l) - 1.

(** ** Services *)

Definition instance_services : list string :=
  ["sql"; "cache"; "key_value"; "document_database"; "messaging_queue"; "messaging_pubsub"; "messaging_stream"].

Definition known_services : list string := instance_services ++ ["object_storage"; "secrets"; "identity"; "observability"].

Definition set_management_ui (service : string) (enabled : bool) (s : Services) : Services :=
  if service == "sql" then set_sv_SQLManagementUI enabled s
  else if service == "cache" then set_sv_CacheManagementUI enabled s
  else if service == "key_value" then set_sv_KeyValueManagementUI enabled s
  else if service == "document_database" then set_sv_DocumentDatabaseManagementUI enabled s
  else if bool_decide (service ∈ ["messaging_queue"; "messaging_pubsub"; "messaging_stream"]) then set_sv_MessagingManagementUI enabled s
  else if service == "object_storage" then set_sv_ObjectStorageManagementUI enabled s
  else if service == "secrets" then set_sv_SecretsManagementUI enabled s
  else if service == "identity" then set_sv_IdentityManagementUI enabled s
  else if service == "observability" then set_sv_ObservabilityManagementUI enabled s
  else s.

Definition set_enabled (service : string) (enabled : bool) (s : Services) : Services :=
  if service == "sql" then set_sv_SQL enabled s
  else if service == "cache" then set_sv_Cache enabled s
  else if service == "key_value" then set_sv_KeyValue enabled s
  else if service == "document_database" then set_sv_DocumentDatabase enabled s
  else if service == "messaging_queue" then set_sv_MessagingQueue enabled s
  else if service == "messaging_pubsub" then set_sv_MessagingPubSub enabled s
  else if service == "messaging_stream" then set_sv_MessagingStream enabled s
  else if service == "object_storage" then set_sv_ObjectStorage enabled s
  else if service == "secrets" then set_sv_Secrets enabled s
  else if service == "identity" then set_sv_Identity enabled s
  else s.

Definition add_instance (service name : string) (s : Services) : Services :=
  let add l := {[name]} ∪ l in
  if service == "sql" then set_sv_SQL true (set_sv_SQLInstances (add (sv_SQLInstances s)) s)
  else if service == "cache" then set_sv_Cache true (set_sv_CacheInstances (add (sv_CacheInstances s)) s)
  else if service == "key_value" then set_sv_KeyValue true (set_sv_KeyValueInstances (add (sv_KeyValueInstances s)) s)
  else if service == "document_database" then set_sv_DocumentDatabase true (set_sv_DocumentDatabaseInstances (add (sv_DocumentDatabaseInstances s)) s)
  else if service == "messaging_queue" then set_sv_MessagingQueue true (set_sv_MessagingQueueInstances (add (sv_MessagingQueueInstances s)) s)
  else if service == "messaging_pubsub" then set_sv_MessagingPubSub true (set_sv_MessagingPubSubInstances (add (sv_MessagingPubSubInstances s)) s)
  else if service == "messaging_stream" then set_sv_MessagingStream true (set_sv_MessagingStreamInstances (add (sv_MessagingStreamInstances s)) s)
  else if service == "object_storage" then set_sv_ObjectStorage true (set_sv_ObjectStorageBuckets (add (sv_ObjectStorageBuckets s)) s)
  else s.

Definition parseServiceField (n : Z) (trim : string) (p : Parser) : result error Parser :=
  let service := ns_service (ps_nested p) in
  if (trim == "instances:") && bool_decide (service ∈ instance_services) then Ok (nested p (set_ns_serviceField "instances"))
  else if (trim == "buckets:") && (service == "object_storage") then Ok (nested p (set_ns_serviceField "buckets"))
  else
    let '(key, value, ok) := Cut trim ":" in
    reject (negb ok || ((key != "enabled") && (key != "management_ui")))
      (at_line n "expected enabled: true|false, management_ui: true|false or instances:" []) ;;
    enabled ← or_error (ParseBool (TrimSpace value)) (at_line n "invalid enabled value" []);
    if key == "management_ui" then Ok (change p (with_services (set_management_ui service enabled)))
    else if service == "observability" then
      reject enabled (at_line n "observability is selected by telemetry/metrics/logs/traces; only management_ui is valid here" []) ;;
      Ok p
    else Ok (change p (with_services (set_enabled service enabled))).

Definition parseServiceSection (n : Z) (trim : string) (p : Parser) : result error Parser :=
  let '(rawService, value, ok) := Cut trim ":" in
  reject (negb ok) (at_line n "expected service: true|false or service:" []) ;;
  reject (negb (bool_decide (rawService ∈ known_services))) (at_line n "unsupported service %q" [AStr rawService]) ;;
  let p := nested p (set_ns_service rawService) in
  reject (bool_decide (rawService ∈ ps_serviceSeen p)) (at_line n "duplicate service %q" [AStr rawService]) ;;
  let p := set_ps_serviceSeen ({[rawService]} ∪ ps_serviceSeen p) p in
  let value := TrimSpace value in
  if value == "" then Ok p
  else
    reject ((value != "true") && (value != "false")) (at_line n "expected service: true|false" []) ;;
    p ← parseServiceField n ("enabled: " +:+ value) p;
    Ok (nested p (set_ns_service "")).

Definition parseServiceInstance (n : Z) (trim : string) (p : Parser) : result error Parser :=
  let service := ns_service (ps_nested p) in
  let field := ns_serviceField (ps_nested p) in
  reject (negb (section p "services") || ((field != "instances") && (field != "buckets"))) (at_line n "invalid manifest structure" []) ;;
  reject ((field == "instances") && negb (bool_decide (service ∈ instance_services))) (at_line n "invalid manifest structure" []) ;;
  reject ((field == "buckets") && (service != "object_storage")) (at_line n "invalid manifest structure" []) ;;
  let '(name, value, ok) := Cut trim ":" in
  reject (negb ok || ((TrimSpace value != "") && (TrimSpace value != "{}"))) (at_line n "service instance must use NAME: {}" []) ;;
  let name := TrimSpace name in
  wrap_err (fun err => at_line n "%w" [ATxt err]) (validateSlug "service instance name" name) ;;
  Ok (change p (with_services (add_instance service name))).

(** ** Lists of items *)

Definition parse_named (n : Z) (what key trim : string) : result error string :=
  let '(k, value, ok) := Cut (item_of trim) ":" in
  reject (negb ok || (k != key) || (TrimSpace value == "")) (at_line n what []) ;;
  Ok (TrimSpace value).

Definition append_secret (field name : string) (s : SecretRequirements) : SecretRequirements :=
  if field == "required" then mkSecrets (se_Required s ++ [mkSecretRequirement name None]) (se_Optional s)
  else mkSecrets (se_Required s) (se_Optional s ++ [mkSecretRequirement name None]).

Definition parseSecretRequirement (n : Z) (trim : string) (p : Parser) : result error Parser :=
  let item := item_of trim in
  let name := if HasPrefix item "name:" then TrimSpace (TrimPrefix item "name:") else item in
  reject (name == "") (at_line n "application secret key is empty" []) ;;
  let field := ns_secretField (ps_nested p) in
  let secrets := append_secret field name (mf_Secrets (ps_manifest p)) in
  let index := if field == "required" then last_index (se_Required secrets) else last_index (se_Optional secrets) in
  Ok (nested (change p (set_mf_Secrets secrets)) (set_ns_secretIndex index)).

Definition parseMetricsSource (n : Z) (trim : string) (p : Parser) : result error Parser :=
  name ← parse_named n "metrics source must start with - name: NAME" "name" trim;
  let sources := me_Sources (mf_Metrics (ps_manifest p)) ++ [mkMetricsSource name "" 0 ""] in
  Ok (nested (change p (set_mf_Metrics (mkMetrics sources))) (set_ns_metricsIndex (last_index sources))).

Definition parseRuntimePermission (n : Z) (trim : string) (p : Parser) : result error Parser :=
  capability ← parse_named n "runtime permission must start with - capability: ID" "capability" trim;
  let permissions := ru_Permissions (mf_Runtime (ps_manifest p)) ++ [mkRuntimePermission capability [] []] in
  Ok (nested (change p (set_mf_Runtime (mkRuntime permissions)))
        (fun s => set_ns_runtimePermissionList "" (set_ns_runtimePermissionIndex (last_index permissions) s))).

Definition parseHTTPExposure (n : Z) (trim : string) (p : Parser) : result error Parser :=
  name ← parse_named n "HTTP exposure must start with - name: NAME" "name" trim;
  let exposures := mf_Exposures (ps_manifest p) ++ [mkExposure name "" 0 "" ""] in
  Ok (nested (change p (set_mf_Exposures exposures)) (set_ns_exposureIndex (last_index exposures))).

Definition set_source_field (n : Z) (key value : string) (s : MetricsSourceRequirement) : result error MetricsSourceRequirement :=
  if key == "service" then Ok (mkMetricsSource (ms_Name s) value (ms_Port s) (ms_Path s))
  else if key == "port" then
    port ← or_error (Atoi value) (at_line n "invalid metrics source port" []);
    Ok (mkMetricsSource (ms_Name s) (ms_Service s) port (ms_Path s))
  else if key == "path" then Ok (mkMetricsSource (ms_Name s) (ms_Service s) (ms_Port s) value)
  else Err (at_line n "unsupported metrics source field %q" [AStr key]).

Definition set_exposure_field (n : Z) (key value : string) (e : HTTPExposureRequirement) : result error HTTPExposureRequirement :=
  if key == "service" then Ok (mkExposure (ex_Name e) value (ex_Port e) (ex_Protocol e) (ex_Visibility e))
  else if key == "port" then
    port ← or_error (Atoi value) (at_line n "invalid HTTP exposure port" []);
    Ok (mkExposure (ex_Name e) (ex_Service e) port (ex_Protocol e) (ex_Visibility e))
  else if key == "protocol" then Ok (mkExposure (ex_Name e) (ex_Service e) (ex_Port e) value (ex_Visibility e))
  else if key == "visibility" then Ok (mkExposure (ex_Name e) (ex_Service e) (ex_Port e) (ex_Protocol e) value)
  else Err (at_line n "unsupported HTTP exposure field %q" [AStr key]).

Definition set_consumption_field (n : Z) (key value : string) (c : ConsumptionRequirement) : result error ConsumptionRequirement :=
  if key == "application_id" then Ok (mkConsumption (cn_Name c) value (cn_Component c) (cn_Interface c) (cn_Protocol c))
  else if key == "component" then Ok (mkConsumption (cn_Name c) (cn_ApplicationID c) value (cn_Interface c) (cn_Protocol c))
  else if key == "interface" then Ok (mkConsumption (cn_Name c) (cn_ApplicationID c) (cn_Component c) value (cn_Protocol c))
  else if key == "protocol" then Ok (mkConsumption (cn_Name c) (cn_ApplicationID c) (cn_Component c) (cn_Interface c) value)
  else Err (at_line n "unsupported consumption field %q" [AStr key]).

(** An assignment to a field of [&list[i]], which may fail; outside of the list
    the code would panic. *)
Definition assign_at {A} (f : A -> result error A) (i : Z) (l : list A) : result error (list A) :=
  match (if (i <? 0)%Z then None else l !! Z.to_nat i) with
  | Some x => y ← f x; Ok (<[Z.to_nat i := y]> l)
  | None => Err (errorsNew "index out of range")
  end.

Definition parseMetricsSourceField (n : Z) (trim : string) (p : Parser) : result error Parser :=
  '(key, value) ← key_value trim (at_line n "expected metrics source key: value" []);
  sources ← assign_at (set_source_field n key value) (ns_metricsIndex (ps_nested p)) (me_Sources (mf_Metrics (ps_manifest p)));
  Ok (change p (set_mf_Metrics (mkMetrics sources))).

Definition parseHTTPExposureField (n : Z) (trim : string) (p : Parser) : result error Parser :=
  '(key, value) ← key_value trim (at_line n "expected HTTP exposure key: value" []);
  exposures ← assign_at (set_exposure_field n key value) (ns_exposureIndex (ps_nested p)) (mf_Exposures (ps_manifest p));
  Ok (change p (set_mf_Exposures exposures)).

Definition parse_consumption_field (n : Z) (trim : string) (p : Parser) : result error Parser :=
  '(key, value) ← key_value trim (at_line n "expected consumption key: value" []);
  consumes ← assign_at (set_consumption_field n key value) (ns_consumptionIndex (ps_nested p)) (mf_Consumes (ps_manifest p));
  Ok (change p (set_mf_Consumes consumes)).

Definition parse_override_field (n : Z) (trim : string) (p : Parser) : result error Parser :=
  '(key, value) ← key_value trim (at_line n "expected availability key: value" []);
  let component := ns_availabilityComponent (ps_nested p) in
  let override := default (mkOverride None 0) (mf_Availability (ps_manifest p) !! component) in
  override ←
    (if key == "ha" then
       enabled ← or_error (ParseBool value) (at_line n "invalid availability ha value" []);
       Ok (mkOverride (Some enabled) (ov_Instances override))
     else if key == "instances" then
       instances ← or_error (Atoi value) (at_line n "invalid availability instances value" []);
       Ok (mkOverride (ov_HA override) instances)
     else Err (at_line n "unsupported availability field %q" [AStr key]));
  Ok (change p (fun m => set_mf_Availability (<[component := override]> (mf_Availability m)) m)).

(** ** Identity *)

Definition set_authentication (f : IdentityAuthenticationRequirements -> IdentityAuthenticationRequirements) (m : Manifest) : Manifest :=
  let i := mf_Identity m in
  set_mf_Identity (mkIdentity (ir_CallbackPaths i) (ir_LogoutPaths i) (ir_Scopes i) (ir_Claims i) (f (ir_Authentication i))) m.

Definition append_identity (field value : string) (i : IdentityRequirements) : option IdentityRequirements :=
  if field == "callback_paths" then Some (mkIdentity (ir_CallbackPaths i ++ [value]) (ir_LogoutPaths i) (ir_Scopes i) (ir_Claims i) (ir_Authentication i))
  else if field == "logout_paths" then Some (mkIdentity (ir_CallbackPaths i) (ir_LogoutPaths i ++ [value]) (ir_Scopes i) (ir_Claims i) (ir_Authentication i))
  else if field == "scopes" then Some (mkIdentity (ir_CallbackPaths i) (ir_LogoutPaths i) (ir_Scopes i ++ [value]) (ir_Claims i) (ir_Authentication i))
  else if field == "claims" then Some (mkIdentity (ir_CallbackPaths i) (ir_LogoutPaths i) (ir_Scopes i) (ir_Claims i ++ [value]) (ir_Authentication i))
  else None.

Definition parse_authentication_field (n : Z) (trim : string) (p : Parser) : result error Parser :=
  '(key, value) ← key_value trim (at_line n "expected identity authentication key: value" []);
  if key == "mfa" then Ok (change p (set_authentication (fun a => mkIdentityAuthentication value (ia_Methods a) (ia_Passwordless a))))
  else if key == "passwordless" then
    enabled ← or_error (ParseBool value) (at_line n "invalid identity passwordless value" []);
    Ok (change p (set_authentication (fun a => mkIdentityAuthentication (ia_MFA a) (ia_Methods a) enabled)))
  else if key == "methods" then Ok (nested p (set_ns_identityField "authentication-methods"))
  else Err (at_line n "unsupported identity authentication field %q" [AStr key]).

Definition parse_identity_item (n : Z) (trim : string) (p : Parser) : result error Parser :=
  if HasPrefix trim "- " then
    let value := item_of trim in
    reject (value == "") (at_line n "identity list value is empty" []) ;;
    identity ← or_error (append_identity (ns_identityField (ps_nested p)) value (mf_Identity (ps_manifest p))) (at_line n "invalid identity list" []);
    Ok (change p (set_mf_Identity identity))
  else Err (at_line n "invalid identity structure" []).

(** ** Levels of indentation *)

Definition parseAppField (n : Z) (trim : string) (p : Parser) : result error Parser :=
  let '(key, value, ok) := Cut trim ":" in
  reject (negb ok) (at_line n "expected key: value" []) ;;
  reject (bool_decide (key ∈ ps_appSeen p)) (at_line n "duplicate app field %q" [AStr key]) ;;
  let p := set_ps_appSeen ({[key]} ∪ ps_appSeen p) p in
  if key == "id" then
    reject (negb (ps_canonical p))
      (at_line n "app.id is system-owned; remove app.id from the developer manifest and run explicit application initialization; BaseHarbor generates and persists the identity" []) ;;
    Ok (change p (set_mf_ApplicationID (TrimSpace value)))
  else if key == "name" then Ok (change p (set_mf_Name (TrimSpace value)))
  else if key == "environment" then Ok (change p (set_mf_Environment (TrimSpace value)))
  else Err (at_line n "unsupported app field %q" [AStr key]).

Definition parseWorkloadField (n : Z) (trim : string) (p : Parser) : result error Parser :=
  reject (trim != "components:") (at_line n "unsupported workload field %q; expected components:" [AStr trim]) ;;
  Ok (nested p (set_ns_workloadField "components")).

Definition plain_sections : list string :=
  ["availability"; "consumes"; "app"; "services"; "secrets"; "workload"; "exposure"; "telemetry"; "metrics"; "logs"; "runtime"; "identity"].

Definition parseTopLevel (n : Z) (trim : string) (p : Parser) : result error Parser :=
  let p := resetNestedState p in
  if HasPrefix trim "version:" then
    v ← or_error (Atoi (TrimSpace (TrimPrefix trim "version:"))) (at_line n "invalid version" []);
    Ok (set_ps_section "" (change p (set_mf_Version v)))
  else if HasPrefix trim "ha:" then
    enabled ← or_error (ParseBool (TrimSpace (TrimPrefix trim "ha:"))) (at_line n "invalid ha value" []);
    Ok (set_ps_section "" (change p (set_mf_HA enabled)))
  else match List.find (fun s => s +:+ ":" == trim) plain_sections with
  | Some s => Ok (set_ps_section s p)
  | None => Err (at_line n "unsupported top-level field %q" [AStr trim])
  end.

Definition identity_fields : list string := ["callback_paths"; "logout_paths"; "scopes"; "claims"; "authentication"].

Definition parse_consumption (n : Z) (trim : string) (p : Parser) : result error Parser :=
  name ← parse_named n "consumption must start with - name: NAME" "name" trim;
  let consumes := mf_Consumes (ps_manifest p) ++ [mkConsumption name "" "" "" ""] in
  Ok (nested (change p (set_mf_Consumes consumes)) (set_ns_consumptionIndex (last_index consumes))).

Definition parse_override (n : Z) (trim : string) (p : Parser) : result error Parser :=
  let component := TrimSpace (TrimSuffix trim ":") in
  reject (component == "") (at_line n "availability component is empty" []) ;;
  reject (bool_decide (is_Some (mf_Availability (ps_manifest p) !! component))) (at_line n "duplicate availability component %q" [AStr component]) ;;
  Ok (nested (change p (fun m => set_mf_Availability (<[component := mkOverride None 0]> (mf_Availability m)) m)) (set_ns_availabilityComponent component)).

Definition parseIndent2 (n : Z) (trim : string) (p : Parser) : result error Parser :=
  let p := nested p (fun s => set_ns_secretGenerate false (set_ns_secretIndex (-1) (set_ns_serviceField "" s))) in
  if section p "consumes" && HasPrefix trim "- " then parse_consumption n trim p
  else if section p "availability" && HasSuffix trim ":" then parse_override n trim p
  else if section p "app" then parseAppField n trim p
  else if section p "services" then parseServiceSection n trim p
  else if section p "secrets" && bool_decide (trim ∈ ["required:"; "optional:"]) then Ok (nested p (set_ns_secretField (TrimSuffix trim ":")))
  else if section p "exposure" && (trim == "http:") then Ok (nested p (set_ns_exposureField "http"))
  else if section p "telemetry" && (trim == "otlp:") then
    Ok (nested (change p (set_mf_Telemetry (mkTelemetry (Some (mkOTLP []))))) (set_ns_telemetryField "otlp"))
  else if section p "metrics" && (trim == "sources:") then Ok (nested p (set_ns_metricsField "sources"))
  else if section p "logs" && (trim == "collect:") then Ok (nested p (set_ns_logsField "collect"))
  else if section p "runtime" && (trim == "permissions:") then Ok (nested p (set_ns_runtimeField "permissions"))
  else if section p "identity" then
    match List.find (fun f => f +:+ ":" == trim) identity_fields with
    | Some f => Ok (nested p (set_ns_identityField f))
    | None => Err (at_line n "unsupported identity field %q" [AStr trim])
    end
  else if section p "workload" then parseWorkloadField n trim p
  else Err (at_line n "invalid manifest structure" []).

Definition secret_field (p : Parser) : bool := bool_decide (ns_secretField (ps_nested p) ∈ ["required"; "optional"]).

Definition parse_component (n : Z) (trim : string) (p : Parser) : result error Parser :=
  let component := item_of trim in
  reject (component == "") (at_line n "workload component is empty" []) ;;
  Ok (change p (fun m => set_mf_Workload (mkWorkload (wc_Components (mf_Workload m) ++ [component])) m)).

Definition parse_log (n : Z) (trim : string) (p : Parser) : result error Parser :=
  let source := item_of trim in
  reject (source == "") (at_line n "logs collect source is empty" []) ;;
  Ok (change p (fun m => set_mf_Logs (mkLogs (lr_Collect (mf_Logs m) ++ [source])) m)).

Definition parseIndent4 (n : Z) (trim : string) (p : Parser) : result error Parser :=
  let p := nested p (set_ns_secretGenerate false) in
  let s := ps_nested p in
  if section p "consumes" && (0 <=? ns_consumptionIndex s)%Z then parse_consumption_field n trim p
  else if section p "availability" && (ns_availabilityComponent s != "") then parse_override_field n trim p
  else if section p "services" && (ns_service s != "") then parseServiceField n trim p
  else if section p "secrets" && secret_field p && HasPrefix trim "- " then parseSecretRequirement n trim p
  else if section p "workload" && (ns_workloadField s == "components") && HasPrefix trim "- " then parse_component n trim p
  else if section p "telemetry" && (ns_telemetryField s == "otlp") && (trim == "signals:") then Ok (nested p (set_ns_telemetryField "otlp-signals"))
  else if section p "logs" && (ns_logsField s == "collect") && HasPrefix trim "- " then parse_log n trim p
  else if section p "metrics" && (ns_metricsField s == "sources") && HasPrefix trim "- " then parseMetricsSource n trim p
  else if section p "runtime" && (ns_runtimeField s == "permissions") && HasPrefix trim "- " then parseRuntimePermission n trim p
  else if section p "exposure" && (ns_exposureField s == "http") && HasPrefix trim "- " then parseHTTPExposure n trim p
  else if section p "identity" then
    if ns_identityField s == "authentication" then parse_authentication_field n trim p else parse_identity_item n trim p
  else Err (at_line n "invalid manifest structure" []).

(** [secretRequirementPointer] and an assignment through it. *)
Definition secretRequirementPointer (m : Manifest) (field : string) (index : Z) : option SecretRequirement :=
  if (index <? 0)%Z then None
  else if field == "required" then se_Required (mf_Secrets m) !! Z.to_nat index
  else if field == "optional" then se_Optional (mf_Secrets m) !! Z.to_nat index
  else None.

Definition assign_secret (field : string) (index : Z) (r : SecretRequirement) (m : Manifest) : Manifest :=
  let s := mf_Secrets m in
  set_mf_Secrets
    (if field == "required" then mkSecrets (<[Z.to_nat index := r]> (se_Required s)) (se_Optional s)
     else mkSecrets (se_Required s) (<[Z.to_nat index := r]> (se_Optional s))) m.

Definition parse_generate (n : Z) (p : Parser) : result error Parser :=
  let field := ns_secretField (ps_nested p) in
  let index := ns_secretIndex (ps_nested p) in
  match secretRequirementPointer (ps_manifest p) field index with
  | None => Err (at_line n "invalid secret requirement" [])
  | Some r =>
      Ok (nested (change p (assign_secret field index (mkSecretRequirement (sr_Name r) (Some (mkGeneration "" 0 0))))) (set_ns_secretGenerate true))
  end.

Definition parse_method (n : Z) (trim : string) (p : Parser) : result error Parser :=
  let value := item_of trim in
  reject (value == "") (at_line n "identity authentication method is empty" []) ;;
  Ok (change p (set_authentication (fun a => mkIdentityAuthentication (ia_MFA a) (ia_Methods a ++ [value]) (ia_Passwordless a)))).

Definition parse_signal (n : Z) (trim : string) (p : Parser) : result error Parser :=
  match te_OTLP (mf_Telemetry (ps_manifest p)) with
  | None => Err (at_line n "invalid OTLP telemetry structure" [])
  | Some otlp => Ok (change p (set_mf_Telemetry (mkTelemetry (Some (mkOTLP (ot_Signals otlp ++ [item_of trim]))))))
  end.

Definition in_permission (p : Parser) : bool :=
  section p "runtime" && (ns_runtimeField (ps_nested p) == "permissions") && (0 <=? ns_runtimePermissionIndex (ps_nested p))%Z.

Definition parseIndent6 (n : Z) (trim : string) (p : Parser) : result error Parser :=
  let s := ps_nested p in
  if in_permission p && (trim == "services:") then Ok (nested p (set_ns_runtimePermissionList "services"))
  else if in_permission p && (trim == "operations:") then Ok (nested p (set_ns_runtimePermissionList "operations"))
  else if section p "identity" && (ns_identityField s == "authentication-methods") && HasPrefix trim "- " then parse_method n trim p
  else if section p "telemetry" && (ns_telemetryField s == "otlp-signals") && HasPrefix trim "- " then parse_signal n trim p
  else if section p "metrics" && (ns_metricsField s == "sources") && (0 <=? ns_metricsIndex s)%Z then parseMetricsSourceField n trim p
  else if section p "exposure" && (ns_exposureField s == "http") && (0 <=? ns_exposureIndex s)%Z then parseHTTPExposureField n trim p
  else if section p "secrets" && secret_field p && (0 <=? ns_secretIndex s)%Z && (trim == "generate:") then parse_generate n p
  else parseServiceInstance n trim p.

Definition parseSecretGenerationField (n : Z) (trim : string) (g : SecretGeneration) : result error SecretGeneration :=
  '(key, value) ← key_value trim (at_line n "expected generated secret key: value" []);
  if key == "type" then Ok (mkGeneration value (sg_Length g) (sg_Bytes g))
  else if key == "length" then
    v ← or_error (Atoi value) (at_line n "invalid generated secret length" []);
    Ok (mkGeneration (sg_Type g) v (sg_Bytes g))
  else if key == "bytes" then
    v ← or_error (Atoi value) (at_line n "invalid generated secret bytes" []);
    Ok (mkGeneration (sg_Type g) (sg_Length g) v)
  else Err (at_line n "unsupported generated secret field %q" [AStr key]).

Definition parse_generation (n : Z) (trim : string) (p : Parser) : result error Parser :=
  let s := ps_nested p in
  match secretRequirementPointer (ps_manifest p) (ns_secretField s) (ns_secretIndex s) with
  | Some (mkSecretRequirement name (Some g)) =>
      reject (negb (section p "secrets") || negb (ns_secretGenerate s)) (at_line n "invalid manifest structure" []) ;;
      g ← parseSecretGenerationField n trim g;
      Ok (change p (assign_secret (ns_secretField s) (ns_secretIndex s) (mkSecretRequirement name (Some g))))
  | _ => Err (at_line n "invalid manifest structure" [])
  end.

Definition add_service (value : string) (p : RuntimePermission) : result error RuntimePermission :=
  Ok (mkRuntimePermission (rp_Capability p) (rp_Services p ++ [value]) (rp_Operations p)).
Definition add_operation (value : string) (p : RuntimePermission) : result error RuntimePermission :=
  Ok (mkRuntimePermission (rp_Capability p) (rp_Services p) (rp_Operations p ++ [value])).

Definition extend_permission (f : RuntimePermission -> result error RuntimePermission) (p : Parser) : result error Parser :=
  permissions ← assign_at f (ns_runtimePermissionIndex (ps_nested p)) (ru_Permissions (mf_Runtime (ps_manifest p)));
  Ok (change p (set_mf_Runtime (mkRuntime permissions))).

Definition parseIndent8 (n : Z) (trim : string) (p : Parser) : result error Parser :=
  let list_name := ns_runtimePermissionList (ps_nested p) in
  if in_permission p && HasPrefix trim "- " && (list_name == "services") then extend_permission (add_service (item_of trim)) p
  else if in_permission p && HasPrefix trim "- " && (list_name == "operations") then extend_permission (add_operation (item_of trim)) p
  else parse_generation n trim p.

Definition parseLine (n : Z) (indent : nat) (trim : string) (p : Parser) : result error Parser :=
  match indent with
  | 0%nat => parseTopLevel n trim p
  | 2%nat => parseIndent2 n trim p
  | 4%nat => parseIndent4 n trim p
  | 6%nat => parseIndent6 n trim p
  | 8%nat => parseIndent8 n trim p
  | _ => Err (at_line n "indentation must use 0, 2, 4, 6 or 8 spaces" [])
  end.

(** ** The input

    [bufio.Scanner] over lines: they end at a line feed, a carriage return
    before it is dropped, a last empty line is none, and a line of 64 KiB or
    more stops the scanner. *)

Fixpoint scan (s line : string) : list string :=
  match s with
  | EmptyString => if line == "" then [] else [line]
  | String c s => if c == byte_of 10 then line :: scan s "" else scan s (line +:+ String c "")
  end.

Definition drop_return (line : string) : string := TrimSuffix line (String (byte_of 13) "").

Definition max_line : nat := 65535.

(** [strings.TrimRight(s, " \t\r")] *)
Definition trim_end (s : string) : string :=
  String.rev (trim_left [" "; String (byte_of 9) ""; String (byte_of 13) ""] (String.rev s)).

Fixpoint leading_spaces (s : string) : nat :=
  match s with String c s => if c == " "%char then S (leading_spaces s) else 0 | EmptyString => 0 end.

Definition parse_text (n : Z) (text : string) (p : Parser) : result error Parser :=
  let raw := trim_end text in
  let trim := TrimSpace raw in
  if (trim == "") || HasPrefix trim "#" then Ok p else parseLine n (leading_spaces raw) trim p.

Fixpoint parse_texts (n : Z) (l : list string) (p : Parser) : result error Parser :=
  match l with
  | [] => Ok p
  | text :: l =>
      if (max_line <? strlen text)%nat then Err (errorsNew "bufio.Scanner: token too long")
      else p ← parse_text (n + 1) (drop_return text) p; parse_texts (n + 1) l p
  end.

Section parse.
Context {order : MapOrder}.

Definition parseManifestYAML (input : string) (canonical : bool) : result error Manifest :=
  p ← parse_texts 0 (scan input "") (newManifestYAMLParser canonical);
  ValidateIntent (ps_manifest p) ;;
  Ok (ps_manifest p).

Definition ParseYAML (input : string) : result error Manifest := parseManifestYAML input false.

Definition ParseCanonicalYAML (input : string) : result error Manifest :=
  m ← parseManifestYAML input true;
  wrap_err (fun err => Errorf "canonical application identity: %w" [ATxt err]) (ValidateApplicationID (mf_ApplicationID m)) ;;
  Ok m.
End parse.
