(* ===== verification/ManifestFacts.v ===== *)
(** * What the validation of manifests accepts

    A declarative description of the manifests that [Manifest.validate]
    accepts, and that it is exactly what the code checks, whatever the order of
    its loops over map literals. *)

From S2P Require Import Prelude GoStrings StableId Availability Capability Manifest ManifestValidate ManifestYAML.

(** ** Names *)

Lemma every_byte_spec f s : every_byte f s = true <-> forall j c, byte_at s j = Some c -> f c = true.
Proof.
  induction s as [|c s IH]; simpl.
  - split; [intros _ [|j] c; done|done].
  - rewrite andb_true_iff, IH. split.
    + intros [Hc Hs] [|j] d; [by intros [= ->]|apply Hs].
    + intros H. split; [by apply (H 0%nat)|]. intros j d Hd. by apply (H (S j)).
Qed.

(** A slug: at most 63 lower-case letters, digits and inner hyphens. *)
Definition slug (s : string) : Prop :=
  s <> "" /\ (strlen s <= 63)%nat /\
  forall j c, byte_at s j = Some c ->
    is_lower c || is_digit c || (c == "-"%char) = true /\ (c = "-"%char -> j <> 0%nat /\ j <> (strlen s - 1)%nat).

Lemma slug_from_Ok label value i rest :
  slug_from label value i rest = Ok tt <->
  forall j c, byte_at rest j = Some c ->
    is_lower c || is_digit c || (c == "-"%char) = true /\ (c = "-"%char -> (i + j)%nat <> 0%nat /\ (i + j)%nat <> (strlen value - 1)%nat).
Proof.
  revert i. induction rest as [|c rest IH]; intros i.
  { split; [intros _ [|j] c; done|done]. }
  cbn [slug_from]. rewrite !reject_seq_Ok, negb_false_iff, andb_false_iff, orb_false_iff, !Nat.eqb_neq, bool_decide_eq_false, IH. split.
  - intros (Hc & Hd & Hr) [|j] d; simpl.
    + intros [= <-]. rewrite Nat.add_0_r. split; [done|]. intros ->. destruct Hd; naive_solver.
    + intros Hj. destruct (Hr j d Hj) as [H1 H2]. split; [done|]. intros ->. rewrite <- Nat.add_succ_comm. by apply H2.
  - intros H. destruct (H 0%nat c eq_refl) as [H1 H2]. rewrite Nat.add_0_r in H2. split_and!; [done| |].
    + destruct (decide (c = "-"%char)); [right|left]; naive_solver.
    + intros j d Hj. destruct (H (S j) d Hj) as [H3 H4]. split; [done|]. intros ->. rewrite Nat.add_succ_comm. by apply H4.
Qed.

Lemma validateSlug_Ok label value : validateSlug label value = Ok tt <-> slug value.
Proof.
  unfold validateSlug, slug. rewrite !reject_seq_Ok, eqb_false, Nat.ltb_ge, slug_from_Ok. done.
Qed.

(** Names of components and of services. *)
Definition component_name (s : string) : Prop := s <> "" /\ (strlen s <= 128)%nat /\ every_byte name_byte s = true.

Lemma validateWorkloadComponentName_Ok s : validateWorkloadComponentName s = Ok tt <-> component_name s.
Proof.
  unfold validateWorkloadComponentName, component_name.
  rewrite reject_seq_Ok, reject_Ok, orb_false_iff, eqb_false, Nat.ltb_ge, negb_false_iff. tauto.
Qed.

Lemma validateComposeServiceName_Ok s : validateComposeServiceName s = Ok tt <-> component_name s.
Proof. apply validateWorkloadComponentName_Ok. Qed.

(** Keys of secrets. *)
Definition secret_key (s : string) : Prop :=
  component_name s /\ s <> "_baseharbor" /\ HasPrefix s "__baseharbor_" = false /\
  forall c, byte_at s 0 = Some c -> c <> "-"%char /\ c <> "."%char.

Lemma validateSecretKey_Ok s : validateSecretKey s = Ok tt <-> secret_key s.
Proof.
  unfold validateSecretKey, secret_key, component_name.
  rewrite !reject_seq_Ok, reject_Ok, !orb_false_iff, !eqb_false, Nat.ltb_ge, negb_false_iff.
  assert (match s with String c _ => bool_decide (c ∈ ["-"; "."]%char) | EmptyString => false end = false <->
          forall c, byte_at s 0 = Some c -> c <> "-"%char /\ c <> "."%char) as ->; [|tauto].
  destruct s as [|c s]; simpl; [naive_solver|]. rewrite bool_decide_eq_false, !elem_of_cons, elem_of_nil.
  split; [intros H d [= <-]; tauto|intros H; destruct (H c eq_refl); tauto].
Qed.

(** ** Loops that reject a repeated key *)

Lemma unseen_Ok seen key e out : unseen seen key e = Ok out <-> key ∉ seen /\ out = {[key]} ∪ seen.
Proof. unfold unseen. destruct (decide (key ∈ seen)); naive_solver. Qed.

Lemma unseen_bind_Ok {A} seen key e (k : gset string -> result error A) out :
  (unseen seen key e ≫= k) = Ok out <-> key ∉ seen /\ k ({[key]} ∪ seen) = Ok out.
Proof. unfold unseen. destruct (decide (key ∈ seen)); cbn; naive_solver. Qed.

Lemma unit_seq_Ok {A} (r : result error unit) (k : result error A) out : (r ;; k) = Ok out <-> r = Ok tt /\ k = Ok out.
Proof. by rewrite seq_Ok, unit_Ok. Qed.

(** [every ok key l]: elements that are all right, with distinct keys. *)
Definition every {A} (ok : A -> Prop) (key : A -> string) (l : list A) : Prop := Forall ok l /\ NoDup (map key l).

Global Instance every_perm {A} (ok : A -> Prop) (key : A -> string) : Proper ((≡ₚ) ==> iff) (every ok key).
Proof.
  intros l k H. unfold every. by rewrite H.
Qed.

(** The loops of the validation, whose result is not used. *)
Lemma loop_Ok {A} (body : gset string -> A -> result error (gset string)) (ok : A -> Prop) (key : A -> string) l :
  (forall seen x out, body seen x = Ok out <-> ok x /\ key x ∉ seen /\ out = {[key x]} ∪ seen) ->
  (exists out, forE body ∅ l = Ok out) <-> every ok key l.
Proof.
  intros Hb. setoid_rewrite (forE_seen_empty body key ok Hb). unfold every. naive_solver.
Qed.

Lemma loop_seq_Ok {A} (body : gset string -> A -> result error (gset string)) (ok : A -> Prop) (key : A -> string) l :
  (forall seen x out, body seen x = Ok out <-> ok x /\ key x ∉ seen /\ out = {[key x]} ∪ seen) ->
  (forE body ∅ l ;; Ok tt) = (Ok tt : result error unit) <-> every ok key l.
Proof. intros Hb. rewrite seq_Ok, (loop_Ok body ok key l Hb). naive_solver. Qed.

(** ** Parts of a manifest *)

Definition producer_id (c : ConsumptionRequirement) (current : string) : string :=
  if TrimSpace (cn_ApplicationID c) == "" then TrimSpace current else TrimSpace (cn_ApplicationID c).

Definition consumption_ok (current : string) (c : ConsumptionRequirement) : Prop :=
  slug (TrimSpace (cn_Name c)) /\ valid_uuid (producer_id c current) = true /\ component_name (TrimSpace (cn_Component c)) /\
  TrimSpace (cn_Interface c) <> "" /\ ContainsAny (TrimSpace (cn_Protocol c)) [" "; "/"; "\"; ":"; "@"]%char = false.

Definition generation_ok (g : SecretGeneration) : Prop :=
  (sg_Type g = "random" /\ (16 <= sg_Length g <= 4096)%Z /\ sg_Bytes g = 0%Z) \/
  (sg_Type g = "hex" /\ (16 <= sg_Bytes g <= 1024)%Z /\ sg_Length g = 0%Z).

Definition secret_ok (r : SecretRequirement) : Prop :=
  secret_key (sr_Name r) /\ match sr_Generate r with Some g => generation_ok g | None => True end.

Definition selected (w : WorkloadConfig) (service : string) : Prop := wc_Components w = [] \/ service ∈ wc_Components w.

Definition port_ok (port : Z) : Prop := (1 <= port <= 65535)%Z.

Definition exposure_ok (w : WorkloadConfig) (e : HTTPExposureRequirement) : Prop :=
  slug (ex_Name e) /\ component_name (ex_Service e) /\ selected w (ex_Service e) /\ port_ok (ex_Port e) /\
  ex_Protocol e ∈ ["http"; "https"] /\ normalizedExposureVisibility (ex_Visibility e) ∈ ["public"; "internal"].

Definition signal_ok (s : string) : Prop := TrimSpace s ∈ ["traces"; "metrics"; "logs"].

Definition source_ok (w : WorkloadConfig) (s : MetricsSourceRequirement) : Prop :=
  slug (ms_Name s) /\ component_name (ms_Service s) /\ ms_Service s ∈ wc_Components w /\ port_ok (ms_Port s) /\
  HasPrefix (ms_Path s) "/" = true /\ ContainsAny (ms_Path s) query_bytes = false.

Definition log_key (s : string) : string := TrimSpace (ToLower s).

Definition permission_ok (w : WorkloadConfig) (p : RuntimePermission) : Prop :=
  (exists spec, spec ∈ Specifications /\ spec_ID spec = TrimSpace (rp_Capability p)) /\
  rp_Services p <> [] /\ every (fun s => component_name s /\ selected w s) (fun s => s) (rp_Services p) /\
  rp_Operations p <> [] /\ every (fun o => TrimSpace o ∈ runtime_operations) TrimSpace (rp_Operations p).

Definition path_ok (s : string) : Prop :=
  HasPrefix (TrimSpace s) "/" = true /\ HasPrefix (TrimSpace s) "//" = false /\ ContainsAny (TrimSpace s) query_bytes = false.

Definition word_ok (s : string) : Prop := TrimSpace s <> "" /\ ContainsAny (TrimSpace s) blank_bytes = false.

Definition method_key (s : string) : string := ToLower (TrimSpace s).
Definition method_ok (s : string) : Prop := method_key s ∈ ["totp"; "webauthn"; "passkey"].

Definition authentication_ok (a : IdentityAuthenticationRequirements) : Prop :=
  ToLower (TrimSpace (ia_MFA a)) ∈ [""; "optional"; "required"; "disabled"] /\ every method_ok method_key (ia_Methods a) /\
  (ToLower (TrimSpace (ia_MFA a)) = "required" -> ia_Methods a <> []) /\
  (ia_Passwordless a = true -> exists s, s ∈ ia_Methods a /\ method_key s ∈ ["passkey"; "webauthn"]).

Definition no_requirements (i : IdentityRequirements) : Prop :=
  ir_CallbackPaths i = [] /\ ir_LogoutPaths i = [] /\ ir_Scopes i = [] /\ ir_Claims i = [] /\
  TrimSpace (ia_MFA (ir_Authentication i)) = "" /\ ia_Methods (ir_Authentication i) = [] /\ ia_Passwordless (ir_Authentication i) = false.

Definition identity_ok (enabled : bool) (i : IdentityRequirements) : Prop :=
  if enabled then
    every path_ok TrimSpace (ir_CallbackPaths i) /\ every path_ok TrimSpace (ir_LogoutPaths i) /\
    every word_ok TrimSpace (ir_Scopes i) /\ every word_ok TrimSpace (ir_Claims i) /\ authentication_ok (ir_Authentication i)
  else no_requirements i.

Definition telemetry_ok (w : WorkloadConfig) (o : option OTLPRequirement) : Prop :=
  match o with
  | None => True
  | Some r => wc_Components w <> [] /\ ot_Signals r <> [] /\ every signal_ok TrimSpace (ot_Signals r)
  end.

Definition ui_ok (s : Services) : Prop := Forall (fun '(_, enabled, ui) => ui = true -> enabled = true) (ui_items s).

(** ** The checks *)

Lemma is_nil_true {A} (l : list A) : is_nil l = true <-> l = [].
Proof. by destruct l. Qed.

Lemma is_nil_false {A} (l : list A) : is_nil l = false <-> l <> [].
Proof. by destruct l. Qed.

Lemma ValidateApplicationID_Ok id : ValidateApplicationID id = Ok tt <-> valid_uuid id = true.
Proof. unfold ValidateApplicationID, valid_uuid. by rewrite wrap_err_Ok, is_ok_unit. Qed.

Lemma Producer_Ok c current p :
  Producer c current = Ok p <->
  valid_uuid (producer_id c current) = true /\ component_name (TrimSpace (cn_Component c)) /\ TrimSpace (cn_Interface c) <> "" /\
  p = mkProducer (producer_id c current) (TrimSpace (cn_Component c)) (TrimSpace (cn_Interface c)).
Proof.
  unfold Producer. cbv zeta. fold (producer_id c current). rewrite !seq_Ok, !unit_Ok, !wrap_err_Ok, reject_Ok, eqb_false,
    ValidateApplicationID_Ok, validateWorkloadComponentName_Ok.
  naive_solver.
Qed.

Lemma Consumption_Validate_Ok c current : Consumption_Validate c current = Ok tt <-> consumption_ok current c.
Proof.
  unfold Consumption_Validate, consumption_ok. cbv zeta. rewrite !seq_Ok, unit_Ok, reject_Ok, validateSlug_Ok.
  setoid_rewrite Producer_Ok. naive_solver.
Qed.

Lemma check_consumption_Ok current seen c out :
  check_consumption current seen c = Ok out <-> consumption_ok current c /\ cn_Name c ∉ seen /\ out = {[cn_Name c]} ∪ seen.
Proof. unfold check_consumption. by rewrite unit_seq_Ok, Consumption_Validate_Ok, unseen_Ok. Qed.

Lemma validateSecretGeneration_Ok name g :
  validateSecretGeneration name g = Ok tt <-> match g with Some g => generation_ok g | None => True end.
Proof.
  destruct g as [[ty l b]|]; [|done]. unfold validateSecretGeneration, check_generation, generation_ok. simpl.
  destruct (decide (ty = "random")) as [->|H1]; [|destruct (decide (ty = "hex")) as [->|H2]].
  - rewrite (bool_decide_eq_true_2 _ eq_refl), reject_seq_Ok, reject_Ok, orb_false_iff, !Z.ltb_ge, neqb_false. naive_solver.
  - rewrite bool_decide_eq_false_2, (bool_decide_eq_true_2 _ eq_refl), reject_seq_Ok, reject_Ok, orb_false_iff, !Z.ltb_ge, neqb_false by done.
    naive_solver.
  - rewrite !bool_decide_eq_false_2 by done. naive_solver.
Qed.

Lemma check_secret_Ok seen r out :
  check_secret seen r = Ok out <-> secret_ok r /\ sr_Name r ∉ seen /\ out = {[sr_Name r]} ∪ seen.
Proof.
  unfold check_secret, secret_ok. rewrite unit_seq_Ok, validateSecretKey_Ok, unseen_bind_Ok, unit_seq_Ok, validateSecretGeneration_Ok. naive_solver.
Qed.

Lemma check_component_Ok seen c out : check_component seen c = Ok out <-> component_name c /\ c ∉ seen /\ out = {[c]} ∪ seen.
Proof. unfold check_component. by rewrite unit_seq_Ok, validateWorkloadComponentName_Ok, unseen_Ok. Qed.

Lemma not_selected_false w s : not_selected w s = false <-> selected w s.
Proof.
  unfold not_selected, selected. rewrite andb_false_iff, !negb_false_iff, is_nil_true, bool_decide_eq_true. done.
Qed.

Lemma port_invalid_false port : port_invalid port = false <-> port_ok port.
Proof. unfold port_invalid, port_ok. rewrite orb_false_iff, !Z.ltb_ge. done. Qed.

Lemma check_exposure_Ok w seen e out :
  check_exposure w seen e = Ok out <-> exposure_ok w e /\ ex_Name e ∉ seen /\ out = {[ex_Name e]} ∪ seen.
Proof.
  unfold check_exposure, exposure_ok. rewrite unit_seq_Ok, validateSlug_Ok, unseen_bind_Ok, unit_seq_Ok, wrap_err_Ok,
    validateComposeServiceName_Ok, !reject_seq_Ok, not_selected_false, port_invalid_false, !negb_false_iff, !bool_decide_eq_true.
  naive_solver.
Qed.

Lemma check_signal_Ok seen s out : check_signal seen s = Ok out <-> signal_ok s /\ TrimSpace s ∉ seen /\ out = {[TrimSpace s]} ∪ seen.
Proof. unfold check_signal, signal_ok. cbv zeta. by rewrite reject_seq_Ok, negb_false_iff, bool_decide_eq_true, unseen_Ok. Qed.

Lemma HasPrefix_nonempty s c p : HasPrefix s (String c p) = true -> s <> "".
Proof. by intros H ->. Qed.

Lemma check_source_Ok w seen s out :
  check_source w seen s = Ok out <-> source_ok w s /\ ms_Name s ∉ seen /\ out = {[ms_Name s]} ∪ seen.
Proof.
  unfold check_source, source_ok. rewrite unit_seq_Ok, validateSlug_Ok, unseen_bind_Ok, unit_seq_Ok, wrap_err_Ok,
    validateComposeServiceName_Ok, !reject_seq_Ok, port_invalid_false, !orb_false_iff, !negb_false_iff, bool_decide_eq_true, eqb_false.
  pose proof (HasPrefix_nonempty (ms_Path s) "/"%char ""). naive_solver.
Qed.

Lemma check_log_Ok seen s out : check_log seen s = Ok out <-> log_key s = "application" /\ log_key s ∉ seen /\ out = {[log_key s]} ∪ seen.
Proof. unfold check_log, log_key. cbv zeta. by rewrite reject_seq_Ok, neqb_false, unseen_Ok. Qed.

Lemma check_permitted_service_Ok w canonical seen s out :
  check_permitted_service w canonical seen s = Ok out <-> (component_name s /\ selected w s) /\ s ∉ seen /\ out = {[s]} ∪ seen.
Proof.
  unfold check_permitted_service. rewrite unit_seq_Ok, wrap_err_Ok, validateComposeServiceName_Ok, unseen_bind_Ok, reject_seq_Ok, not_selected_false.
  naive_solver.
Qed.

Lemma check_operation_Ok canonical seen o out :
  check_operation canonical seen o = Ok out <->
  TrimSpace o ∈ runtime_operations /\ TrimSpace o ∉ seen /\ out = {[TrimSpace o]} ∪ seen.
Proof. unfold check_operation. cbv zeta. by rewrite reject_seq_Ok, negb_false_iff, bool_decide_eq_true, unseen_Ok. Qed.

Lemma check_permission_Ok w seen p out :
  check_permission w seen p = Ok out <->
  permission_ok w p /\ TrimSpace (rp_Capability p) ∉ seen /\ out = {[TrimSpace (rp_Capability p)]} ∪ seen.
Proof.
  unfold check_permission, permission_ok. rewrite bind_Ok. setoid_rewrite wrap_err_Ok. setoid_rewrite ParseSpecificationID_catalogue. split.
  - intros (spec & [Hs Hid] & H). rewrite Hid, unseen_bind_Ok, reject_seq_Ok, seq_Ok, reject_seq_Ok, seq_Ok, !is_nil_false in H.
    rewrite (loop_Ok _ _ _ _ (check_permitted_service_Ok w _)), (loop_Ok _ _ _ _ (check_operation_Ok _)) in H.
    split_and!; naive_solver.
  - intros (((spec & Hs & Hid) & Hn & He & Ho & Hp) & Hk & ->). exists spec. split; [done|].
    rewrite Hid, unseen_bind_Ok, reject_seq_Ok, seq_Ok, reject_seq_Ok, seq_Ok, !is_nil_false.
    rewrite (loop_Ok _ _ _ _ (check_permitted_service_Ok w _)), (loop_Ok _ _ _ _ (check_operation_Ok _)). naive_solver.
Qed.

Lemma check_path_Ok label seen s out :
  check_path label seen s = Ok out <-> path_ok s /\ TrimSpace s ∉ seen /\ out = {[TrimSpace s]} ∪ seen.
Proof.
  unfold check_path, path_ok. cbv zeta. rewrite reject_seq_Ok, !orb_false_iff, negb_false_iff, eqb_false, unseen_Ok.
  pose proof (HasPrefix_nonempty (TrimSpace s) "/"%char ""). naive_solver.
Qed.

Lemma check_word_Ok label seen s out :
  check_word label seen s = Ok out <-> word_ok s /\ TrimSpace s ∉ seen /\ out = {[TrimSpace s]} ∪ seen.
Proof. unfold check_word, word_ok. cbv zeta. rewrite reject_seq_Ok, orb_false_iff, eqb_false, unseen_Ok. done. Qed.

Lemma check_method_Ok seen s out :
  check_method seen s = Ok out <-> method_ok s /\ method_key s ∉ seen /\ out = {[method_key s]} ∪ seen.
Proof. unfold check_method, method_ok. cbv zeta. by rewrite reject_seq_Ok, negb_false_iff, bool_decide_eq_true, unseen_Ok. Qed.

(** ** The parts *)

Lemma range_both_Ok {A} first (check : string -> gset string -> string -> result error (gset string)) a b :
  forall (ok : string -> Prop) (key : string -> string),
  (forall label seen x out, check label seen x = Ok out <-> ok x /\ key x ∉ seen /\ out = {[key x]} ∪ seen) ->
  forall k : result error A, forall out,
  (range_both first check a b ;; k) = Ok out <-> every ok key (snd a) /\ every ok key (snd b) /\ k = Ok out.
Proof.
  intros ok key Hc k out. unfold range_both. destruct first; simpl; rewrite unit_seq_Ok, seq_Ok, (loop_Ok _ ok key), loop_seq_Ok by apply Hc; tauto.
Qed.

Lemma mfa_of (s : string) :
  (if s == "" then "optional" else s) ∈ ["optional"; "required"; "disabled"] <-> s ∈ [""; "optional"; "required"; "disabled"].
Proof.
  rewrite !elem_of_cons, !elem_of_nil. destruct (decide (s = "")) as [->|Hs].
  - rewrite bool_decide_eq_true_2 by done. tauto.
  - rewrite bool_decide_eq_false_2 by done. tauto.
Qed.

Lemma validate_authentication_Ok a : validate_authentication a = Ok tt <-> authentication_ok a.
Proof.
  unfold validate_authentication, authentication_ok. cbv zeta. rewrite reject_seq_Ok, negb_false_iff, bool_decide_eq_true, mfa_of, bind_Ok.
  setoid_rewrite (forE_seen_empty _ method_key method_ok check_method_Ok). setoid_rewrite reject_seq_Ok. setoid_rewrite reject_Ok.
  set (mfa := ToLower (TrimSpace (ia_MFA a))).
  assert (((if mfa == "" then "optional" else mfa) = "required") <-> mfa = "required") as Hm.
  { destruct (decide (mfa = "")) as [->|Hs]; [done|]. by rewrite (bool_decide_eq_false_2 (mfa = "") Hs). }
  assert (forall s, s ∈ (list_to_set (map method_key (ia_Methods a)) : gset string) <-> exists x, x ∈ ia_Methods a /\ s = method_key x) as Hin.
  { intros s. rewrite elem_of_list_to_set, list_elem_of_fmap. naive_solver. }
  split.
  - intros (H1 & x & (H2 & H3 & ->) & H4 & H5). split_and!; [done|done| |].
    + intros Hr Hn. rewrite Hn, andb_false_iff, !bool_decide_eq_false, Hm in H4. simpl in H4. tauto.
    + intros Hp. rewrite Hp, andb_true_l, andb_false_iff, !negb_false_iff, !bool_decide_eq_true, !Hin in H5.
      destruct H5 as [(y & Hy & Hk)|(y & Hy & Hk)]; exists y; rewrite <- Hk; (split; [done|set_solver]).
  - intros (H1 & [H2 H3] & H4 & H5). split; [done|]. eexists. split; [split_and!; [done..|reflexivity]|]. split.
    + rewrite andb_false_iff, !bool_decide_eq_false, Hm. destruct (decide (mfa = "required")) as [Hr|]; [right|by left].
      specialize (H4 Hr). destruct (ia_Methods a) as [|x l]; [done|]. simpl. set_solver.
    + destruct (ia_Passwordless a); [|done]. destruct (H5 eq_refl) as (y & Hy & Hk).
      rewrite andb_true_l, andb_false_iff, !negb_false_iff, !bool_decide_eq_true, !Hin.
      rewrite elem_of_cons, list_elem_of_singleton in Hk. destruct Hk; [left|right]; by exists y.
Qed.

Lemma no_identity_requirements_true i : no_identity_requirements i = true <-> no_requirements i.
Proof.
  unfold no_identity_requirements, no_requirements. rewrite !andb_true_iff, !is_nil_true, eqb_true, negb_true_iff. tauto.
Qed.

Lemma validateIdentityRequirements_Ok {order : MapOrder} m :
  validateIdentityRequirements m = Ok tt <-> identity_ok (sv_Identity (mf_Services m)) (mf_Identity m).
Proof.
  unfold validateIdentityRequirements, identity_ok. destruct (sv_Identity _); simpl.
  - rewrite (range_both_Ok _ _ _ _ path_ok TrimSpace check_path_Ok), (range_both_Ok _ _ _ _ word_ok TrimSpace check_word_Ok),
      validate_authentication_Ok. simpl. tauto.
  - by rewrite reject_Ok, negb_false_iff, no_identity_requirements_true.
Qed.

Lemma validateOTLPTelemetry_Ok w o : validateOTLPTelemetry w o = Ok tt <-> telemetry_ok w o.
Proof.
  destruct o as [r|]; [|done]. unfold validateOTLPTelemetry, telemetry_ok.
  by rewrite !reject_seq_Ok, !is_nil_false, (loop_seq_Ok _ signal_ok TrimSpace _ check_signal_Ok).
Qed.

Lemma validateHTTPExposures_Ok w l :
  validateHTTPExposures w l = Ok tt <-> (l <> [] -> wc_Components w <> []) /\ every (exposure_ok w) ex_Name l.
Proof.
  unfold validateHTTPExposures.
  rewrite reject_seq_Ok, andb_false_iff, negb_false_iff, is_nil_true, is_nil_false, (loop_seq_Ok _ _ _ _ (check_exposure_Ok w)).
  destruct (decide (l = [])); tauto.
Qed.

Lemma validateMetricsSources_Ok w l :
  validateMetricsSources w l = Ok tt <-> every (source_ok w) ms_Name l.
Proof.
  unfold validateMetricsSources. destruct (is_nil l) eqn:Hl.
  - apply is_nil_true in Hl as ->. split; [|done]. intros _. split; constructor.
  - rewrite reject_seq_Ok, is_nil_false, (loop_seq_Ok _ _ _ _ (check_source_Ok w)). split; [tauto|]. intros H. split; [|done].
    intros Hn. destruct l as [|s l]; [done|]. destruct H as [(Hs & _)%Forall_cons _]. unfold source_ok in Hs. rewrite Hn in Hs.
    destruct Hs as (_ & _ & Hs%elem_of_nil & _). done.
Qed.

Lemma validateLogsRequirements_Ok w l :
  validateLogsRequirements w l = Ok tt <->
  (lr_Collect l <> [] -> wc_Components w <> []) /\ every (fun s => log_key s = "application") log_key (lr_Collect l).
Proof.
  unfold validateLogsRequirements. destruct (is_nil (lr_Collect l)) eqn:Hl.
  - apply is_nil_true in Hl as ->. split; [|done]. intros _. split; [done|]. split; constructor.
  - rewrite reject_seq_Ok, is_nil_false, (loop_seq_Ok _ _ log_key _ check_log_Ok). apply is_nil_false in Hl. tauto.
Qed.

Lemma validate_secrets_Ok m :
  validate_secrets m = Ok tt <->
  (se_Required (mf_Secrets m) ++ se_Optional (mf_Secrets m) <> [] -> sv_Secrets (mf_Services m) = true) /\
  every secret_ok sr_Name (se_Required (mf_Secrets m) ++ se_Optional (mf_Secrets m)).
Proof.
  unfold validate_secrets. rewrite reject_seq_Ok, andb_false_iff, orb_false_iff, !negb_false_iff, !is_nil_true.
  assert ((seen ← forE check_secret ∅ (se_Required (mf_Secrets m)); forE check_secret seen (se_Optional (mf_Secrets m)) ;; Ok tt) =
    (forE check_secret ∅ (se_Required (mf_Secrets m) ++ se_Optional (mf_Secrets m)) ;; Ok tt)) as ->.
  { rewrite forE_app. by destruct (forE _ ∅ _). }
  rewrite (loop_seq_Ok _ secret_ok sr_Name _ check_secret_Ok).
  destruct (se_Required _), (se_Optional _), (sv_Secrets _); naive_solver.
Qed.

Lemma check_slugs_Ok label l : check_slugs label l = Ok tt <-> Forall slug l.
Proof.
  unfold check_slugs. rewrite forE_unit_Ok. apply Forall_proper; [|done]. intros s. apply validateSlug_Ok.
Qed.

Definition instances_ok (m : Manifest) : Prop :=
  Forall (Forall slug)
    [SQLInstanceNames m; CacheInstanceNames m; KeyValueInstanceNames m; DocumentDatabaseInstanceNames m; ObjectStorageBucketNames m;
     MessagingQueueInstanceNames m; MessagingPubSubInstanceNames m; MessagingStreamInstanceNames m] /\
  Forall (fun name => name ∉ CacheInstanceNames m) (KeyValueInstanceNames m).

Lemma validate_instances_Ok m : validate_instances m = Ok tt <-> instances_ok m.
Proof.
  unfold validate_instances, instances_ok. rewrite !unit_seq_Ok, !check_slugs_Ok, forE_unit_Ok, !Forall_cons, Forall_nil.
  assert (Forall (fun x => check_shared (CacheInstanceNames m) tt x = Ok tt) (KeyValueInstanceNames m) <->
    Forall (fun name => name ∉ CacheInstanceNames m) (KeyValueInstanceNames m)) as ->; [|tauto].
  apply Forall_proper; [|done]. intros s. unfold check_shared. by rewrite reject_Ok, bool_decide_eq_false.
Qed.

Lemma validateManagementUIPreferences_Ok s : validateManagementUIPreferences s = Ok tt <-> ui_ok s.
Proof.
  unfold validateManagementUIPreferences, ui_ok. rewrite forE_unit_Ok. apply Forall_proper; [|done].
  intros [[name enabled] ui]. unfold check_ui. rewrite reject_Ok. destruct ui, enabled; naive_solver.
Qed.

(** ** Whole manifests *)

(** The manifests that are accepted; [intent_ok] is the specification of the
    availability intent, [check_members] is judged per component. *)
Definition valid (requireWorkload : bool) (m : Manifest) : Prop :=
  (mf_Version m = CurrentVersion /\ (mf_ApplicationID m <> "" -> valid_uuid (mf_ApplicationID m) = true) /\
   slug (mf_Name m) /\ slug (mf_Environment m)) /\
  (intent_ok (AvailabilityIntent m) /\
   Forall (fun c => check_members (AvailabilityIntent m) tt c = Ok tt) (Intent_Components (AvailabilityIntent m))) /\
  every (consumption_ok (mf_ApplicationID m)) cn_Name (mf_Consumes m) /\
  (requireWorkload = true -> nothing_requested m = false) /\
  instances_ok m /\ ui_ok (mf_Services m) /\
  identity_ok (sv_Identity (mf_Services m)) (mf_Identity m) /\
  (sv_ObservabilityManagementUI (mf_Services m) = true -> me_Sources (mf_Metrics m) <> []) /\
  ((se_Required (mf_Secrets m) ++ se_Optional (mf_Secrets m) <> [] -> sv_Secrets (mf_Services m) = true) /\
   every secret_ok sr_Name (se_Required (mf_Secrets m) ++ se_Optional (mf_Secrets m))) /\
  every component_name (fun c => c) (wc_Components (mf_Workload m)) /\
  ((mf_Exposures m <> [] -> wc_Components (mf_Workload m) <> []) /\ every (exposure_ok (mf_Workload m)) ex_Name (mf_Exposures m)) /\
  telemetry_ok (mf_Workload m) (te_OTLP (mf_Telemetry m)) /\
  every (source_ok (mf_Workload m)) ms_Name (me_Sources (mf_Metrics m)) /\
  ((lr_Collect (mf_Logs m) <> [] -> wc_Components (mf_Workload m) <> []) /\
   every (fun s => log_key s = "application") log_key (lr_Collect (mf_Logs m))) /\
  every (permission_ok (mf_Workload m)) (fun p => TrimSpace (rp_Capability p)) (ru_Permissions (mf_Runtime m)).

Lemma validate_Ok {order : MapOrder} requireWorkload m : validate requireWorkload m = Ok tt <-> valid requireWorkload m.
Proof.
  unfold validate, valid, validate_identity_of, validateWorkload, validateRuntimePermissions, validateProviderAvailabilityIntent,
    validateObservabilityUIPreference.
  rewrite !unit_seq_Ok, seq_Ok, !unit_seq_Ok, !reject_Ok, neqb_false, !validateSlug_Ok, Intent_Validate_spec, forE_unit_Ok.
  rewrite (loop_Ok _ _ _ _ (check_consumption_Ok (mf_ApplicationID m))), validate_instances_Ok, validateManagementUIPreferences_Ok,
    validateIdentityRequirements_Ok, validate_secrets_Ok, (loop_seq_Ok _ component_name (fun c => c) _ check_component_Ok),
    validateHTTPExposures_Ok, validateOTLPTelemetry_Ok, validateMetricsSources_Ok, validateLogsRequirements_Ok,
    (loop_seq_Ok _ _ _ _ (check_permission_Ok (mf_Workload m))).
  assert ((if mf_ApplicationID m != "" then ValidateApplicationID (mf_ApplicationID m) else Ok tt) = Ok tt <->
    (mf_ApplicationID m <> "" -> valid_uuid (mf_ApplicationID m) = true)) as ->.
  { destruct (decide (mf_ApplicationID m = "")) as [->|Hn]; [done|]. rewrite (bool_decide_eq_false_2 _ Hn). simpl.
    rewrite ValidateApplicationID_Ok. tauto. }
  assert ((if negb (sv_ObservabilityManagementUI (mf_Services m)) then Ok tt
    else reject (negb (HasMetricsSources m)) (errorsNew "services.observability.management_ui requires managed metrics because Prometheus is the current browser-capable observability surface")) = Ok tt
    <-> (sv_ObservabilityManagementUI (mf_Services m) = true -> me_Sources (mf_Metrics m) <> [])) as ->.
  { unfold HasMetricsSources. rewrite negb_involutive. destruct (sv_ObservabilityManagementUI _); [|done]. simpl.
    rewrite reject_Ok, is_nil_false. tauto. }
  rewrite andb_false_iff. destruct requireWorkload; split; intros; destruct_and?; split_and!; naive_solver.
Qed.

(** ** The canonical form

    What the serialisation of a manifest says: its lists in their order, a
    service with instances enabled, and the visibility of exposures made
    explicit.  Provider preferences and placements are not serialised. *)

Definition canonical_services (s : Services) : Services :=
  mkServices
    (sv_SQL s || has_instances (sv_SQLInstances s)) (sv_Cache s || has_instances (sv_CacheInstances s))
    (sv_KeyValue s || has_instances (sv_KeyValueInstances s)) (sv_DocumentDatabase s || has_instances (sv_DocumentDatabaseInstances s))
    (sv_MessagingQueue s || has_instances (sv_MessagingQueueInstances s)) (sv_MessagingPubSub s || has_instances (sv_MessagingPubSubInstances s))
    (sv_MessagingStream s || has_instances (sv_MessagingStreamInstances s)) (sv_Secrets s)
    (sv_ObjectStorage s || has_instances (sv_ObjectStorageBuckets s)) (sv_Identity s)
    (sv_SQLManagementUI s) (sv_CacheManagementUI s) (sv_KeyValueManagementUI s) (sv_DocumentDatabaseManagementUI s)
    (sv_MessagingManagementUI s) (sv_SecretsManagementUI s) (sv_ObjectStorageManagementUI s) (sv_IdentityManagementUI s)
    (sv_ObservabilityManagementUI s)
    (sv_SQLInstances s) (sv_CacheInstances s) (sv_KeyValueInstances s) (sv_DocumentDatabaseInstances s) (sv_MessagingQueueInstances s)
    (sv_MessagingPubSubInstances s) (sv_MessagingStreamInstances s) (sv_ObjectStorageBuckets s).

Definition canonical_secrets (s : SecretRequirements) : SecretRequirements :=
  mkSecrets (by_key sr_Name (se_Required s)) (by_key sr_Name (se_Optional s)).

Definition canonical_exposure (e : HTTPExposureRequirement) : HTTPExposureRequirement :=
  mkExposure (ex_Name e) (ex_Service e) (ex_Port e) (ex_Protocol e) (normalizedExposureVisibility (ex_Visibility e)).

Definition canonical_permission (p : RuntimePermission) : RuntimePermission :=
  mkRuntimePermission (rp_Capability p) (sort_strings (rp_Services p)) (sort_strings (rp_Operations p)).

Definition canonical_authentication (a : IdentityAuthenticationRequirements) : IdentityAuthenticationRequirements :=
  mkIdentityAuthentication (ia_MFA a) (sort_strings (ia_Methods a)) (ia_Passwordless a).

Definition canonical_identity (i : IdentityRequirements) : IdentityRequirements :=
  mkIdentity (sort_strings (ir_CallbackPaths i)) (sort_strings (ir_LogoutPaths i)) (sort_strings (ir_Scopes i)) (sort_strings (ir_Claims i))
    (canonical_authentication (ir_Authentication i)).

Definition canonical_telemetry (t : TelemetryRequirements) : TelemetryRequirements :=
  mkTelemetry (match te_OTLP t with Some o => Some (mkOTLP (sort_strings (ot_Signals o))) | None => None end).

Definition canonical (m : Manifest) : Manifest :=
  mkManifest None ∅ (mf_Version m) (mf_ApplicationID m) (mf_Name m) (mf_Environment m) (canonical_services (mf_Services m))
    (canonical_secrets (mf_Secrets m)) (mkWorkload (sort_strings (wc_Components (mf_Workload m))))
    (map canonical_exposure (by_key ex_Name (mf_Exposures m))) (canonical_telemetry (mf_Telemetry m))
    (mkMetrics (by_key ms_Name (me_Sources (mf_Metrics m)))) (mkLogs (sort_strings (lr_Collect (mf_Logs m))))
    (mkRuntime (map canonical_permission (by_key rp_Capability (ru_Permissions (mf_Runtime m)))))
    (canonical_identity (mf_Identity m)) (mf_HA m) (mf_Availability m) (by_key cn_Name (mf_Consumes m)).

Lemma by_key_Permutation {A} (key : A -> string) l : by_key key l ≡ₚ l.
Proof. apply sort_slice_Permutation. Qed.

Lemma nil_perm {A} (l k : list A) : l ≡ₚ k -> (l = [] <-> k = []).
Proof. intros H. split; intros ->; [by apply Permutation_nil_l in H|by apply Permutation_nil_r in H]. Qed.

Lemma is_nil_perm {A} (l k : list A) : l ≡ₚ k -> is_nil l = is_nil k.
Proof. intros H. destruct (is_nil k) eqn:Hk; [apply is_nil_true in Hk|apply is_nil_false in Hk]; rewrite ?is_nil_true, ?is_nil_false, nil_perm by exact H; done. Qed.

Lemma serviceInstanceNames_canonical enabled l : serviceInstanceNames (enabled || has_instances l) l = serviceInstanceNames enabled l.
Proof. unfold serviceInstanceNames, has_instances. case_bool_decide; [by rewrite orb_false_r|done]. Qed.

(** The canonical form requests the same things. *)
Lemma canonical_names m :
  SQLInstanceNames (canonical m) = SQLInstanceNames m /\ CacheInstanceNames (canonical m) = CacheInstanceNames m /\
  KeyValueInstanceNames (canonical m) = KeyValueInstanceNames m /\ DocumentDatabaseInstanceNames (canonical m) = DocumentDatabaseInstanceNames m /\
  ObjectStorageBucketNames (canonical m) = ObjectStorageBucketNames m /\ MessagingQueueInstanceNames (canonical m) = MessagingQueueInstanceNames m /\
  MessagingPubSubInstanceNames (canonical m) = MessagingPubSubInstanceNames m /\
  MessagingStreamInstanceNames (canonical m) = MessagingStreamInstanceNames m.
Proof. split_and!; apply serviceInstanceNames_canonical. Qed.

Lemma canonical_instances_ok m : instances_ok (canonical m) <-> instances_ok m.
Proof.
  unfold instances_ok. destruct (canonical_names m) as (-> & -> & -> & -> & -> & -> & -> & ->). done.
Qed.

Lemma canonical_nothing_requested m : nothing_requested (canonical m) = nothing_requested m.
Proof.
  unfold nothing_requested. destruct (canonical_names m) as (-> & -> & -> & -> & -> & -> & -> & ->).
  unfold HasExplicitWorkload, HasOTLPTelemetry, HasMetricsSources, HasLogsCollection. simpl.
  rewrite (is_nil_perm _ _ (sort_strings_Permutation _)), (is_nil_perm _ _ (by_key_Permutation _ _)), (is_nil_perm _ _ (sort_strings_Permutation _)).
  by destruct (te_OTLP (mf_Telemetry m)).
Qed.

Lemma canonical_ui_ok s : ui_ok (canonical_services s) <-> ui_ok s.
Proof.
  unfold ui_ok, ui_items, RabbitMQInstanceNames, MessagingQueueInstanceNames, MessagingPubSubInstanceNames, MessagingStreamInstanceNames. simpl.
  rewrite !serviceInstanceNames_canonical, <- !orb_assoc, !orb_diag. done.
Qed.

(** ** The canonical form is as valid *)

Lemma every_map {A B} (f : A -> B) (ok : B -> Prop) (key : B -> string) l :
  every ok key (map f l) <-> every (fun x => ok (f x)) (fun x => key (f x)) l.
Proof. unfold every. by rewrite Forall_map, map_map. Qed.

Lemma every_iff {A} (ok ok' : A -> Prop) (key : A -> string) l : (forall x, ok x <-> ok' x) -> every ok key l <-> every ok' key l.
Proof. intros H. unfold every. by rewrite (Forall_proper _ _ H l l eq_refl). Qed.

(** The list of a canonical form. *)
Lemma every_sorted {A} (k : A -> string) (ok ok' : A -> Prop) (key : A -> string) l :
  (forall x, ok' x <-> ok x) -> every ok' key (by_key k l) <-> every ok key l.
Proof. intros H. by rewrite by_key_Permutation, every_iff. Qed.

Lemma every_sort_strings (ok ok' : string -> Prop) (key : string -> string) l :
  (forall x, ok' x <-> ok x) -> every ok' key (sort_strings l) <-> every ok key l.
Proof. intros H. by rewrite sort_strings_Permutation, every_iff. Qed.

Definition sorted_workload (w : WorkloadConfig) : WorkloadConfig := mkWorkload (sort_strings (wc_Components w)).

Lemma sort_strings_nil l : sort_strings l = [] <-> l = [].
Proof. apply nil_perm, sort_strings_Permutation. Qed.

Lemma by_key_nil {A} (k : A -> string) l : by_key k l = [] <-> l = [].
Proof. apply nil_perm, by_key_Permutation. Qed.

Lemma elem_of_sort_strings s l : s ∈ sort_strings l <-> s ∈ l.
Proof. by rewrite sort_strings_Permutation. Qed.

Lemma map_nil_iff {A B} (f : A -> B) l : map f l = [] <-> l = [].
Proof. by destruct l. Qed.

Lemma sorted_selected w s : selected (sorted_workload w) s <-> selected w s.
Proof. unfold selected, sorted_workload. simpl. by rewrite sort_strings_nil, elem_of_sort_strings. Qed.

Lemma normalized_idem v : normalizedExposureVisibility (normalizedExposureVisibility v) = normalizedExposureVisibility v.
Proof.
  unfold normalizedExposureVisibility. destruct (TrimSpace v == "") eqn:Hv; [done|].
  by rewrite TrimSpace_idem, Hv.
Qed.

Lemma sorted_exposure_ok w e : exposure_ok (sorted_workload w) (canonical_exposure e) <-> exposure_ok w e.
Proof. unfold exposure_ok, canonical_exposure. simpl. by rewrite sorted_selected, normalized_idem. Qed.

Lemma sorted_source_ok w s : source_ok (sorted_workload w) s <-> source_ok w s.
Proof. unfold source_ok, sorted_workload. simpl. by rewrite elem_of_sort_strings. Qed.

Lemma sorted_permission_ok w p : permission_ok (sorted_workload w) (canonical_permission p) <-> permission_ok w p.
Proof.
  unfold permission_ok. simpl. rewrite !sort_strings_nil, (every_sort_strings (fun s => component_name s /\ selected w s)),
    (every_sort_strings (fun o => TrimSpace o ∈ runtime_operations)); [done|done|].
  intros s. by rewrite sorted_selected.
Qed.

Lemma sorted_telemetry_ok w t : telemetry_ok (sorted_workload w) (te_OTLP (canonical_telemetry t)) <-> telemetry_ok w (te_OTLP t).
Proof.
  destruct t as [[o|]]; [|done]. simpl. by rewrite !sort_strings_nil, (every_sort_strings signal_ok).
Qed.

Lemma canonical_identity_ok enabled i : identity_ok enabled (canonical_identity i) <-> identity_ok enabled i.
Proof.
  unfold identity_ok. destruct enabled; simpl.
  - rewrite !(every_sort_strings path_ok), !(every_sort_strings word_ok) by done.
    unfold authentication_ok. simpl. rewrite (every_sort_strings method_ok), sort_strings_nil by done.
    setoid_rewrite elem_of_sort_strings. done.
  - unfold no_requirements. simpl. by rewrite !sort_strings_nil.
Qed.

Lemma valid_canonical requireWorkload m : valid requireWorkload (canonical m) <-> valid requireWorkload m.
Proof.
  unfold valid. rewrite canonical_instances_ok, canonical_nothing_requested. cbn [canonical mf_Version mf_ApplicationID mf_Name mf_Environment
    mf_Services mf_Secrets mf_Workload mf_Exposures mf_Telemetry mf_Metrics mf_Logs mf_Runtime mf_Identity mf_Consumes canonical_secrets
    se_Required se_Optional wc_Components me_Sources lr_Collect ru_Permissions].
  fold (sorted_workload (mf_Workload m)).
  rewrite canonical_ui_ok, canonical_identity_ok, sorted_telemetry_ok, !map_nil_iff, !by_key_nil, !every_map, !sort_strings_nil.
  rewrite (every_sorted _ (consumption_ok (mf_ApplicationID m))), (every_sort_strings component_name), (every_sorted _ (exposure_ok (mf_Workload m))),
    (every_sorted _ (source_ok (mf_Workload m))), (every_sort_strings (fun s => log_key s = "application")),
    (every_sorted _ (permission_ok (mf_Workload m))) by (intros; first [done|apply sorted_source_ok|apply sorted_exposure_ok|apply sorted_permission_ok]).
  assert (by_key sr_Name (se_Required (mf_Secrets m)) ++ by_key sr_Name (se_Optional (mf_Secrets m)) ≡ₚ
    se_Required (mf_Secrets m) ++ se_Optional (mf_Secrets m)) as Hs by by rewrite !by_key_Permutation.
  rewrite (nil_perm _ _ Hs), (every_perm secret_ok sr_Name _ _ Hs). done.
Qed.
