(* ===== verification/ManifestText.v ===== *)
(** * The text of manifests: lines, scanning and trimmed values

    What the scanner and the trimming of the parser make of the lines that the
    serialisation writes. *)

From S2P Require Import Prelude GoStrings StableId Manifest ManifestValidate ManifestYAML ManifestFacts.

(** ** Values and lines *)

Definition lf : ascii := byte_of 10.

(** A value that is written on a line of its own and read back. *)
Definition clean (s : string) : Prop := trimmed s /\ has_byte lf s = false.
Definition field (s : string) : Prop := clean s /\ s <> "".

(** The text of a line that the parser hands to the parser of its level. *)
Definition shown (s : string) : Prop := field s /\ HasPrefix s "#" = false.

Global Instance clean_dec s : Decision (clean s).
Proof. apply _. Defined.
Global Instance field_dec s : Decision (field s).
Proof. apply _. Defined.
Global Instance shown_dec s : Decision (shown s).
Proof. apply _. Defined.

Lemma clean_TrimSpace s : has_byte lf s = false -> clean (TrimSpace s).
Proof. intros H. split; [apply TrimSpace_trimmed|by apply has_byte_TrimSpace]. Qed.

Lemma field_TrimSpace s : field s -> TrimSpace s = s.
Proof. intros [[H _] _]. by apply trimmed_TrimSpace. Qed.

(** ** Texts that start or end with a rune of [seqs] *)

Lemma app_split a b c d : a +:+ b = c +:+ d -> (exists e, c = a +:+ e /\ b = e +:+ d) \/ (exists e, a = c +:+ e /\ d = e +:+ b).
Proof.
  revert c. induction a as [|x a IH]; intros c.
  - rewrite string_app_nil_l. intros ->. left. exists c. done.
  - destruct c as [|y c].
    + rewrite string_app_nil_l. intros <-. right. by exists (String x a).
    + rewrite !string_app_cons. intros [= -> H]. destruct (IH c H) as [(e & -> & ->)|(e & -> & ->)]; [left|right]; by exists e.
Qed.

(** [c] occurs in no other sequence than itself. *)
Definition lone (c : ascii) (seqs : list string) : Prop := Forall (fun p => has_byte c p = true -> p = String c "") seqs.

Global Instance lone_dec c seqs : Decision (lone c seqs).
Proof. apply _. Defined.

(** After a text that starts with no sequence, a lone byte starts none. *)
Lemma strip_any_glue seqs a c b :
  strip_any seqs a = None -> a <> "" -> lone c seqs -> strip_any seqs (a +:+ String c b) = None.
Proof.
  rewrite !strip_any_None. intros Ha Hn Hl p r Hp Heq. unfold lone in Hl. rewrite Forall_forall in Hl.
  destruct (app_split _ _ _ _ Heq) as [(e & -> & He)|(e & -> & _)]; [|by eapply Ha].
  destruct e as [|d e].
  - apply (Ha (a +:+ "") ""); [done|]. by rewrite !string_app_nil_r.
  - rewrite string_app_cons in He. injection He as -> _.
    assert (a +:+ String d e = String d "") as Hd.
    { apply Hl; [done|]. rewrite has_byte_app. simpl. by rewrite (proj2 (eqb_true d d) eq_refl), orb_true_r. }
    destruct a as [|x a]; [done|]. rewrite string_app_cons in Hd. injection Hd as _ Hd. by destruct a.
Qed.

Lemma has_byte_not_head c s : has_byte c s = false -> HasPrefix s (String c "") = false.
Proof.
  destruct s as [|d s]; [done|]. simpl. rewrite orb_false_iff. intros [Hd%eqb_false _]. unfold HasPrefix. simpl.
  by rewrite decide_False by done.
Qed.

(** ** Rendered texts

    A key and a value, and a name with what follows it. *)

Lemma space_lone : lone " "%char space_runes /\ lone " "%char (map String.rev space_runes).
Proof. split; apply (bool_decide_unpack _); by vm_compute. Qed.

Lemma colon_lone : lone ":"%char space_runes /\ lone ":"%char (map String.rev space_runes).
Proof. split; apply (bool_decide_unpack _); by vm_compute. Qed.

(** What is known of the text of a key that ends before its value. *)
Definition key_text (k : string) : bool :=
  match k with
  | String c _ => negb (has_byte lf k) && (c != "#"%char) && forallb (fun p => negb (starts_with c p)) space_runes
  | EmptyString => false
  end.

Lemma shown_value k v : key_text k = true -> field v -> shown (k +:+ String " " v).
Proof.
  destruct k as [|c k]; [done|]. unfold key_text. rewrite !andb_true_iff, negb_true_iff, neqb_true. intros [[Hk Hc] Hr] [[[Hl Ht] Hb] Hv].
  split; [split; [split|done]|].
  - split; [rewrite string_app_cons; by apply strip_any_head|].
    rewrite rev_app_distr, rev_cons, string_app_assoc, string_app_cons, string_app_nil_l.
    apply strip_any_glue; [done| |apply space_lone]. intros Hn. apply (f_equal strlen) in Hn. rewrite strlen_rev in Hn. by destruct v.
  - rewrite has_byte_app, Hk. simpl. by rewrite Hb.
  - unfold HasPrefix. rewrite string_app_cons. simpl. rewrite decide_False; [done|]. naive_solver.
Qed.

(** A name followed by a text that starts with a colon and ends with a byte of
    no rune. *)
Definition tail_text (t : string) : bool :=
  match t, String.rev t with
  | String c _, String d _ =>
      (c == ":"%char) && negb (has_byte lf t) && forallb (fun p => negb (starts_with d p)) (map String.rev space_runes)
  | _, _ => false
  end.

Lemma shown_name v t : tail_text t = true -> field v -> HasPrefix v "#" = false -> shown (v +:+ t).
Proof.
  unfold tail_text. destruct t as [|c t]; [done|]. destruct (String.rev (String c t)) as [|d u] eqn:Hu; [done|].
  rewrite !andb_true_iff, eqb_true, negb_true_iff. intros [[-> Hb] Hd] [[[Hl Ht] Hf] Hv] Hh.
  split; [split; [split|]|].
  - split; [apply strip_any_glue; [done|done|apply colon_lone]|].
    rewrite rev_app_distr, Hu, string_app_cons. by apply strip_any_head.
  - by rewrite has_byte_app, Hf, Hb.
  - destruct v; done.
  - destruct v as [|x v]; [done|]. rewrite string_app_cons. unfold HasPrefix in *. simpl in *.
    destruct (decide ("#"%char = x)); [by destruct v|done].
Qed.

(** ** Values made of plain bytes *)

(** A byte that neither starts nor ends a space rune. *)
Definition plain (c : ascii) : bool :=
  forallb (fun p => negb (starts_with c p)) space_runes && forallb (fun p => negb (starts_with c p)) (map String.rev space_runes).

Lemma plain_lf : plain lf = false.
Proof. by vm_compute. Qed.

Lemma has_byte_every f s b : every_byte f s = true -> f b = false -> has_byte b s = false.
Proof.
  intros Hf Hb. destruct (has_byte b s) eqn:Hs; [|done]. apply has_byte_at in Hs as [j Hj].
  rewrite every_byte_spec in Hf. by rewrite (Hf j b Hj) in Hb.
Qed.

Lemma every_byte_app f s t : every_byte f (s +:+ t) = every_byte f s && every_byte f t.
Proof. induction s as [|c s IH]; [done|]. rewrite string_app_cons. simpl. by rewrite IH, andb_assoc. Qed.

Lemma every_byte_rev f s : every_byte f (String.rev s) = every_byte f s.
Proof. induction s as [|c s IH]; [done|]. rewrite rev_cons, every_byte_app, IH. simpl. by rewrite andb_true_r, andb_comm. Qed.

Lemma field_plain s : every_byte plain s = true -> s <> "" -> field s.
Proof.
  intros Hs Hn. split; [split|done]; [|by apply (has_byte_every plain)]. split.
  - destruct s as [|c s]; [done|]. simpl in Hs. apply andb_true_iff in Hs as [[Hc _]%andb_true_iff _]. by apply strip_any_head.
  - rewrite <- every_byte_rev in Hs. destruct (String.rev s) as [|c u] eqn:Hu; [|].
    + apply (f_equal String.rev) in Hu. rewrite rev_involutive in Hu. done.
    + simpl in Hs. apply andb_true_iff in Hs as [[_ Hc]%andb_true_iff _]. by apply strip_any_head.
Qed.

Lemma every_byte_impl (f g : ascii -> bool) s : (forall c, f c = true -> g c = true) -> every_byte f s = true -> every_byte g s = true.
Proof. intros H. rewrite !every_byte_spec. eauto. Qed.

Lemma name_byte_plain c : name_byte c = true -> plain c = true.
Proof. apply implb_true_iff. revert c. apply ascii_table. by vm_compute. Qed.

Lemma component_name_field s : component_name s -> field s.
Proof. intros (Hn & _ & Hs). apply field_plain; [|done]. by apply (every_byte_impl name_byte), Hs; apply name_byte_plain. Qed.

Lemma slug_component s : slug s -> component_name s.
Proof.
  intros (Hn & Hl & Hs). split_and!; [done|lia|]. rewrite every_byte_spec. intros j c Hj. destruct (Hs j c Hj) as [Hc _].
  unfold name_byte. rewrite !orb_true_iff in *. destruct Hc as [[Hc|Hc]|Hc%bool_decide_eq_true]; [tauto..|right].
  apply bool_decide_eq_true. subst. set_solver.
Qed.

Lemma slug_field s : slug s -> field s.
Proof. intros H. by apply component_name_field, slug_component. Qed.

Lemma name_byte_hash c : name_byte c = true -> c <> "#"%char.
Proof. intros H ->. by vm_compute in H. Qed.

(** Numbers. *)
Lemma digit_plain n : plain (digit_byte (n mod 10)) = true.
Proof.
  pose proof (Z.mod_pos_bound n 10 ltac:(lia)) as H.
  assert (Forall (fun d => plain (digit_byte d) = true) (seqZ 0 10)) as Hd by (apply (bool_decide_unpack _); by vm_compute).
  rewrite Forall_forall in Hd. apply Hd, elem_of_seqZ. lia.
Qed.

Lemma itoa_fuel_plain fuel n acc : every_byte plain acc = true -> every_byte plain (itoa_fuel fuel n acc) = true.
Proof.
  revert n acc. induction fuel as [|f IH]; intros n acc Ha; [done|]. cbn [itoa_fuel].
  assert (every_byte plain (String (digit_byte (n mod 10)) acc) = true) as Hs by (cbn [every_byte]; by rewrite digit_plain, Ha).
  destruct (_ =? _)%Z; [done|by apply IH].
Qed.

Lemma itoa_fuel_nonempty fuel n acc : acc <> "" -> itoa_fuel fuel n acc <> "".
Proof. revert n acc. induction fuel as [|f IH]; intros n acc Ha; [done|]. cbn [itoa_fuel]. destruct (_ =? _)%Z; [done|by apply IH]. Qed.

Lemma itoa_fuel_text fuel n acc : itoa_fuel (S fuel) n acc <> "".
Proof. cbn [itoa_fuel]. destruct (_ =? _)%Z; [done|by apply itoa_fuel_nonempty]. Qed.

Lemma field_Itoa n : field (Itoa n).
Proof.
  unfold Itoa. destruct (_ <? _)%Z; apply field_plain.
  - cbn [every_byte]. by rewrite itoa_fuel_plain.
  - done.
  - by apply itoa_fuel_plain.
  - apply itoa_fuel_text.
Qed.

(** ** The scanner on rendered lines *)

Definition raw_line (l : nat * string) : string := spaces (fst l) +:+ snd l.

Lemma scan_app w s line : has_byte lf w = false -> scan (w +:+ s) line = scan s (line +:+ w).
Proof.
  revert line. induction w as [|c w IH]; intros line; [by rewrite string_app_nil_l, string_app_nil_r|].
  cbn [has_byte]. rewrite orb_false_iff. intros [Hc Hw]. rewrite string_app_cons. cbn [scan]. fold lf. rewrite Hc, IH by done.
  by rewrite string_app_assoc.
Qed.

Lemma has_byte_spaces n : has_byte lf (spaces n) = false.
Proof. by induction n. Qed.

Lemma scan_lines (ls : lines) :
  Forall (fun l => has_byte lf (snd l) = false) ls -> scan (write_lines ls) "" = map raw_line ls.
Proof.
  induction 1 as [|[i t] ls Ht _ IH]; [done|]. simpl in *. unfold write_line. simpl.
  rewrite !string_app_assoc, scan_app by apply has_byte_spaces. rewrite scan_app by done.
  unfold line_feed. rewrite string_app_cons, string_app_nil_l. cbn [scan].
  rewrite (bool_decide_eq_true_2 _ eq_refl), IH. unfold raw_line. simpl. by rewrite string_app_nil_l.
Qed.

(** ** Indentation and trimming of a rendered line *)

Lemma trimmed_head s : trimmed s -> forall p, p ∈ space_runes -> HasPrefix s p = false.
Proof.
  intros [Hl _] p Hp. destruct (HasPrefix s p) eqn:H; [|done]. apply HasPrefix_spec in H as [r ->].
  rewrite strip_any_None in Hl. by destruct (Hl p r Hp).
Qed.

Lemma space_rune_space : " " ∈ space_runes.
Proof. apply (bool_decide_unpack _). by vm_compute. Qed.

Lemma leading_spaces_raw n t : field t -> leading_spaces (spaces n +:+ t) = n.
Proof.
  intros [[Ht _] Hn]. induction n as [|n IH].
  - rewrite string_app_nil_l. destruct t as [|c t]; [done|]. cbn [leading_spaces].
    assert ((c == " "%char) = false) as ->; [|done].
    apply bool_decide_eq_false. intros ->. pose proof (trimmed_head _ Ht " " space_rune_space). done.
  - cbn [spaces]. rewrite string_app_cons. simpl. by rewrite IH.
Qed.

Lemma TrimLeftSpace_spaces n t : TrimLeftSpace (spaces n +:+ t) = TrimLeftSpace t.
Proof. induction n as [|n IH]; [done|]. rewrite <- IH. cbn [spaces]. by rewrite string_app_cons. Qed.

Lemma TrimSpace_spaces n t : TrimSpace (spaces n +:+ t) = TrimSpace t.
Proof. unfold TrimSpace. by rewrite TrimLeftSpace_spaces. Qed.

Lemma TrimSpace_space v : TrimSpace (String " " v) = TrimSpace v.
Proof. apply (TrimSpace_spaces 1). Qed.

(** A text that ends with no space rune keeps its end. *)
Lemma strip_any_end (seqs : list string) s t :
  seqs ⊆ map String.rev space_runes -> Forall (fun p => strlen p = 1%nat) seqs -> field t ->
  strip_any seqs (String.rev (s +:+ t)) = None.
Proof.
  intros Hs H1 [[[_ Ht] _] Hn]. rewrite rev_app_distr, strip_any_None. intros p r Hp Heq.
  rewrite Forall_forall in H1. specialize (H1 p Hp).
  destruct (app_split _ _ _ _ Heq) as [(e & -> & _)|(e & He & _)].
  - rewrite strlen_app, strlen_rev in H1. destruct t as [|c t]; [done|]. destruct e as [|d e].
    + rewrite strip_any_None in Ht. apply (Ht (String.rev (String c t)) ""); [|by rewrite string_app_nil_r].
      apply Hs. by rewrite string_app_nil_r in Hp.
    + exfalso. unfold strlen in H1. simpl in H1. lia.
  - rewrite strip_any_None in Ht. by apply (Ht p e); [apply Hs|].
Qed.

Lemma trim_end_raw n t : field t -> trim_end (spaces n +:+ t) = spaces n +:+ t.
Proof.
  intros Ht. unfold trim_end. rewrite trim_left_id, rev_involutive; [done|].
  apply strip_any_end; [|repeat constructor|done].
  intros p. rewrite !elem_of_cons, elem_of_nil. intros Hp. apply (bool_decide_unpack _). destruct Hp as [->|[->|[->|[]]]]; by vm_compute.
Qed.

Lemma drop_return_raw n t : field t -> drop_return (spaces n +:+ t) = spaces n +:+ t.
Proof.
  intros Ht. unfold drop_return, TrimSuffix, TrimPrefix. change (String.rev (String (byte_of 13) "")) with (String (byte_of 13) "").
  destruct (strip_prefix _ _) as [r|] eqn:Hr; [|by rewrite rev_involutive]. exfalso.
  assert (strip_any [String (byte_of 13) ""] (String.rev (spaces n +:+ t)) = None) as H; [|cbn [strip_any] in H; by rewrite Hr in H].
  apply strip_any_end; [|repeat constructor|done].
  intros p ->%list_elem_of_singleton. apply (bool_decide_unpack _). by vm_compute.
Qed.

Lemma parse_text_raw n i t p : shown t -> parse_text n (drop_return (raw_line (i, t))) p = parseLine n i t p.
Proof.
  intros [Ht Hh]. unfold raw_line, parse_text. simpl. rewrite drop_return_raw, trim_end_raw, TrimSpace_spaces by done.
  rewrite field_TrimSpace, leading_spaces_raw, Hh by done. destruct Ht as [_ Hn].
  by rewrite bool_decide_eq_false_2 by done.
Qed.

(** ** Running the parser on lines *)

Fixpoint run_lines (n : Z) (ls : lines) (p : Parser) : result error Parser :=
  match ls with
  | [] => Ok p
  | (i, t) :: ls => p ← parseLine (n + 1) i t p; run_lines (n + 1) ls p
  end.

(** Every line, with its indentation, is shorter than the buffer of the
    scanner. *)
Definition fits (ls : lines) : Prop := Forall (fun l => (strlen (raw_line l) <= max_line)%nat) ls.

Lemma parse_texts_lines n ls p :
  Forall (fun l => shown (snd l)) ls -> fits ls -> parse_texts n (map raw_line ls) p = run_lines n ls p.
Proof.
  intros Hs Hf. revert n p. induction Hs as [|[i t] ls Ht _ IH]; intros n p; [done|].
  apply Forall_cons in Hf as [Hl Hf]. cbn [map parse_texts run_lines].
  rewrite (proj2 (Nat.ltb_ge _ _) Hl), parse_text_raw by done.
  destruct (parseLine _ _ _ _); cbn; [by apply IH|done].
Qed.

Lemma parse_written ls p :
  Forall (fun l => shown (snd l)) ls -> fits ls -> parse_texts 0 (scan (write_lines ls) "") p = run_lines 0 ls p.
Proof.
  intros Hs Hf. rewrite scan_lines; [by apply parse_texts_lines|]. eapply Forall_impl; [exact Hs|]. intros l [[[_ H] _] _]. exact H.
Qed.

(** ** Weakest preconditions

    [runs ls p Q]: the lines are texts of the grammar, and from [p] the parser
    accepts them all and ends where [Q] holds. *)
Definition runs (ls : lines) (p : Parser) (Q : Parser -> Prop) : Prop :=
  Forall (fun l => shown (snd l)) ls /\ forall n, exists p', run_lines n ls p = Ok p' /\ Q p'.

Lemma runs_nil p (Q : Parser -> Prop) : Q p -> runs [] p Q.
Proof. intros HQ. split; [constructor|]. intros n. by exists p. Qed.

Lemma runs_cons i t p p' ls Q : shown t -> (forall n, parseLine n i t p = Ok p') -> runs ls p' Q -> runs ((i, t) :: ls) p Q.
Proof.
  intros Ht Hp [Hs Hr]. split; [by constructor|]. intros n. destruct (Hr (n + 1)%Z) as (q & Hq & HQ).
  exists q. split; [|done]. cbn [run_lines]. rewrite Hp. apply Hq.
Qed.

Lemma run_lines_app n ls ks p : run_lines n (ls ++ ks) p = p' ← run_lines n ls p; run_lines (n + Z.of_nat (length ls)) ks p'.
Proof.
  revert n p. induction ls as [|[i t] ls IH]; intros n p; [by rewrite Z.add_0_r|].
  cbn [app run_lines]. destruct (parseLine _ _ _ _); cbn; [|done]. rewrite IH.
  destruct (run_lines _ ls _); cbn; [|done]. f_equal. lia.
Qed.

Lemma runs_app ls ks p Q : runs ls p (fun p' => runs ks p' Q) -> runs (ls ++ ks) p Q.
Proof.
  intros [Hs Hr]. split.
  - apply Forall_app. split; [done|]. by destruct (Hr 0%Z) as (p' & _ & Hk & _).
  - intros n. destruct (Hr n) as (p' & Hp & _ & Hk). destruct (Hk (n + Z.of_nat (length ls))%Z) as (q & Hq & HQ).
    exists q. split; [|done]. rewrite run_lines_app, Hp. apply Hq.
Qed.

Lemma runs_mono ls p (Q R : Parser -> Prop) : runs ls p Q -> (forall p', Q p' -> R p') -> runs ls p R.
Proof. intros [Hs Hr] H. split; [done|]. intros n. destruct (Hr n) as (p' & Hp & HQ). exists p'. auto. Qed.

(** A loop over a list, with an invariant on what is done. *)
Lemma runs_concat_prefix {A} (f : A -> lines) (I : list A -> Parser -> Prop) l p Q :
  I [] p -> (forall done x rest p, l = done ++ x :: rest -> I done p -> runs (f x) p (I (done ++ [x]))) -> (forall p, I l p -> Q p) ->
  runs (concat (map f l)) p Q.
Proof.
  intros HI Hstep HQ.
  assert (forall k pre p, l = pre ++ k -> I pre p -> runs (concat (map f k)) p Q) as H; [|by apply (H l [] p)].
  induction k as [|x k IH]; intros pre q Hl Hq; simpl.
  - apply runs_nil, HQ. by rewrite Hl, app_nil_r.
  - apply runs_app. eapply runs_mono; [by eapply Hstep|]. intros q' Hq'.
    apply (IH (pre ++ [x])); [by rewrite Hl, <- app_assoc|done].
Qed.

Lemma runs_concat {A} (f : A -> lines) (I : list A -> Parser -> Prop) l p Q :
  I [] p -> (forall done x p, x ∈ l -> I done p -> runs (f x) p (I (done ++ [x]))) -> (forall p, I l p -> Q p) ->
  runs (concat (map f l)) p Q.
Proof.
  intros HI Hstep HQ. apply runs_concat_prefix with (I := I); [done| |done].
  intros done x rest q ->. apply Hstep. set_solver.
Qed.

Lemma concat_singletons {A B} (f : A -> B) l : concat (map (fun x => [f x]) l) = map f l.
Proof. induction l as [|x l IH]; [done|]. simpl. by rewrite IH. Qed.

(** A loop that writes one line for each element. *)
Lemma runs_map {A} (f : A -> nat * string) (I : list A -> Parser -> Prop) l p Q :
  I [] p -> (forall done x p, x ∈ l -> I done p -> runs [f x] p (I (done ++ [x]))) -> (forall p, I l p -> Q p) ->
  runs (map f l) p Q.
Proof. rewrite <- concat_singletons. apply runs_concat. Qed.

Lemma runs_when b ls p Q : (b = true -> runs ls p Q) -> (b = false -> Q p) -> runs (when b ls) p Q.
Proof. destruct b; simpl; intros H1 H2; [by apply H1|by apply runs_nil, H2]. Qed.
