(* ===== verification/ManifestRoundtrip.v ===== *)
(** * The serialisation of a manifest is read back

    Each section of the serialisation, run from any state of the parser. *)

From S2P Require Import Prelude GoStrings StableId Availability Capability Manifest ManifestValidate ManifestYAML ManifestFacts ManifestText.

(** ** Automation

    [line] evaluates the parser on one rendered line, whose values are
    variables known to be fields: it stops at the operations on values. *)

Ltac lit_prefix s :=
  lazymatch s with
  | String ?c ?r =>
      lazymatch r with
      | String _ _ => let k := lit_prefix r in constr:(String c k)
      | _ => constr:(""%string)
      end
  end.

Ltac lit_value s :=
  lazymatch s with
  | String _ ?r => lit_value r
  | _ => constr:(s)
  end.

(** The texts of lines. *)
Ltac text_of s :=
  let s' := eval lazy -[Itoa] in s in
  let v := lit_value s' in
  lazymatch v with
  | EmptyString => apply (bool_decide_unpack _); vm_compute; exact I
  | _ => let k := lit_prefix s' in apply (shown_value k v); [reflexivity|first [assumption|apply field_Itoa]]
  end.

Ltac text :=
  first
    [ assumption
    | apply field_Itoa
    | lazymatch goal with
      | |- shown ?s => text_of s
      | |- field ?s => text_of s
      end ].

Lemma trim_field_space v : field v -> TrimSpace (String " " v) = v.
Proof. intros H. by rewrite TrimSpace_space, field_TrimSpace. Qed.

Lemma eqb_nil_field v : field v -> bool_decide (v = "") = false.
Proof. intros [_ H]. by apply bool_decide_eq_false. Qed.

Lemma last_index_snoc {A} (l : list A) x : last_index (l ++ [x]) = Z.of_nat (length l).
Proof. unfold last_index. rewrite length_app. simpl. lia. Qed.

Lemma assign_at_last {A} (f : A -> result error A) l x :
  assign_at f (Z.of_nat (length l)) (l ++ [x]) = y ← f x; Ok (l ++ [y]).
Proof.
  unfold assign_at. destruct (Z.ltb_spec (Z.of_nat (length l)) 0); [lia|].
  rewrite Nat2Z.id, lookup_app_r, Nat.sub_diag by done. simpl. destruct (f x); cbn; [|done].
  by rewrite insert_app_r_alt, Nat.sub_diag by done.
Qed.

Lemma lookup_last {A} (l : list A) x : (l ++ [x]) !! Z.to_nat (Z.of_nat (length l)) = Some x.
Proof. by rewrite Nat2Z.id, lookup_app_r, Nat.sub_diag. Qed.

Lemma insert_last {A} (l : list A) x y : <[Z.to_nat (Z.of_nat (length l)) := y]> (l ++ [x]) = l ++ [y].
Proof. by rewrite Nat2Z.id, insert_app_r_alt, Nat.sub_diag. Qed.

(** The last secret of a list. *)
Lemma pointer_required m done x :
  se_Required (mf_Secrets m) = done ++ [x] -> secretRequirementPointer m "required" (Z.of_nat (length done)) = Some x.
Proof. intros H. unfold secretRequirementPointer. destruct (Z.ltb_spec (Z.of_nat (length done)) 0); [lia|]. simpl. by rewrite H, lookup_last. Qed.

Lemma pointer_optional m done x :
  se_Optional (mf_Secrets m) = done ++ [x] -> secretRequirementPointer m "optional" (Z.of_nat (length done)) = Some x.
Proof. intros H. unfold secretRequirementPointer. destruct (Z.ltb_spec (Z.of_nat (length done)) 0); [lia|]. simpl. by rewrite H, lookup_last. Qed.

Lemma assign_required m done x r :
  se_Required (mf_Secrets m) = done ++ [x] ->
  assign_secret "required" (Z.of_nat (length done)) r m = set_mf_Secrets (mkSecrets (done ++ [r]) (se_Optional (mf_Secrets m))) m.
Proof. intros H. unfold assign_secret. simpl. by rewrite H, insert_last. Qed.

Lemma assign_optional m done x r :
  se_Optional (mf_Secrets m) = done ++ [x] ->
  assign_secret "optional" (Z.of_nat (length done)) r m = set_mf_Secrets (mkSecrets (se_Required (mf_Secrets m)) (done ++ [r])) m.
Proof. intros H. unfold assign_secret. simpl. by rewrite H, insert_last. Qed.

Lemma length_nonneg {A} (l : list A) : (0 <=? Z.of_nat (length l))%Z = true.
Proof. apply Z.leb_le. lia. Qed.

(** What an evaluation is stuck on. *)
Ltac stuck_on t :=
  lazymatch t with
  | match ?x with _ => _ end => stuck_on x
  | _ => constr:(t)
  end.

(** Trims one value. *)
Ltac trim_one :=
  match goal with
  | |- context [TrimSpace ?s] =>
      let s' := eval lazy -[Itoa TrimSpace] in s in
      lazymatch s' with
      | String " " ?v => change (TrimSpace s) with (TrimSpace (String " " v)); rewrite (trim_field_space v) by text
      | context [TrimSpace _] => fail
      | _ => change (TrimSpace s) with (TrimSpace s'); rewrite (field_TrimSpace s') by text
      end
  end.

(** Decides what the evaluation is stuck on. *)
Ltac decide_stuck x :=
  lazymatch x with
  | @bool_decide (?a = _) _ =>
      let a' := eval lazy -[Itoa TrimSpace] in a in
      lazymatch a' with
      | context [TrimSpace _] => change a with a'; trim_one
      | _ =>
          let b := eval lazy in x in
          lazymatch b with
          | true => change x with true
          | false => change x with false
          | _ => change a with a'; rewrite eqb_nil_field by text
          end
      end
  | bool_decide _ =>
      let b := eval lazy in x in
      lazymatch b with
      | true => change x with true
      | false => change x with false
      | _ => unfold item_of; trim_one
      end
  | _ =>
      let x' := eval lazy -[TrimSpace Z.leb last_index assign_at app at_line Z.of_nat length Itoa Atoi bool_decide append_identity secretRequirementPointer assign_secret] in x in
      change x with x';
      first [match goal with H : forall items v, append_identity _ v _ = _ |- _ => rewrite H end | erewrite pointer_required by reflexivity | erewrite pointer_optional by reflexivity
             | rewrite last_index_snoc | rewrite assign_at_last | rewrite length_nonneg | rewrite Atoi_Itoa by first [assumption|unfold min_int, max_int; lia] | trim_one]
  end.

Ltac step :=
  lazymatch goal with
  | |- Ok _ = _ => fail
  | |- ?l = _ =>
      let r := eval lazy head beta match fix zeta delta -[TrimSpace Z.leb last_index assign_at app at_line Z.of_nat length Itoa Atoi bool_decide append_identity secretRequirementPointer assign_secret] in l in
      change l with r;
      lazymatch r with
      | Ok _ => idtac
      | _ => let x := stuck_on r in decide_stuck x
      end
  end.

Ltac values :=
  lazy -[TrimSpace Z.leb last_index assign_at app at_line Z.of_nat length Itoa Atoi union singleton insert sort_strings by_key map append_identity
         assign_secret].

Ltac finish :=
  values;
  repeat first
    [ rewrite last_index_snoc
    | trim_one
    | (erewrite assign_required by reflexivity); values
    | (erewrite assign_optional by reflexivity); values ];
  reflexivity.

Ltac line := eapply runs_cons; [text|intros ?; repeat step; finish|].

(** ** Positions *)

(** Between two sections the manifest and what has been seen is known. *)
Definition at_ (c : bool) (m : Manifest) (ss aa : gset string) (p : Parser) : Prop := exists sec ns, p = mkParser c m sec ns ss aa.

Definition within (c : bool) (sec : string) (m : Manifest) (ss aa : gset string) (p : Parser) : Prop := exists ns, p = mkParser c m sec ns ss aa.

Lemma at_runs_cons c m ss aa ls p (Q : Parser -> Prop) :
  at_ c m ss aa p -> (forall sec ns, runs ls (mkParser c m sec ns ss aa) Q) -> runs ls p Q.
Proof. intros (sec & ns & ->) H. apply H. Qed.

Lemma within_at c sec m ss aa p : within c sec m ss aa p -> at_ c m ss aa p.
Proof. intros [ns ->]. by exists sec, ns. Qed.

Lemma neqb_nil_field v : clean v -> v != "" = true -> field v.
Proof. rewrite neqb_true. done. Qed.

(** ** Consumptions *)

Definition consumption_fields (c : ConsumptionRequirement) : Prop :=
  field (cn_Name c) /\ clean (cn_ApplicationID c) /\ field (cn_Component c) /\ field (cn_Interface c) /\ clean (cn_Protocol c).

Lemma consumption_runs c m ss aa done x p :
  consumption_fields x -> within c "consumes" (set_mf_Consumes done m) ss aa p ->
  runs (consumption_lines x) p (within c "consumes" (set_mf_Consumes (done ++ [x]) m) ss aa).
Proof.
  destruct x as [name id component interface protocol]. intros (H1 & H2 & H3 & H4 & H5) [ns ->]. simpl in *.
  destruct m, ns. unfold consumption_lines. simpl. line.
  destruct (decide (id = "")) as [->|Hid]; [|pose proof (conj H2 Hid : field id)];
    rewrite ?(bool_decide_eq_true_2 _ eq_refl), ?(bool_decide_eq_false_2 _ Hid); cbn [negb when app]; [|line]; line; line;
    (destruct (decide (protocol = "")) as [->|Hp]; [|pose proof (conj H5 Hp : field protocol)];
     rewrite ?(bool_decide_eq_true_2 _ eq_refl), ?(bool_decide_eq_false_2 _ Hp); cbn [negb when app]; [|line]; apply runs_nil; eexists; reflexivity).
Qed.

(** A field that is set to the value it has. *)
Ltac same m := destruct m; simpl in *; subst; reflexivity.

(** A list that is written when it is not empty. *)
Lemma when_nonempty {A} (l : list A) (ls : lines) p Q :
  (l <> [] -> runs ls p Q) -> (l = [] -> Q p) -> runs (when (negb (is_nil l)) ls) p Q.
Proof. destruct l; simpl; intros H1 H2; [by apply runs_nil, H2|by apply H1]. Qed.

Lemma sorted_Forall {A} (P : A -> Prop) k l x : Forall P l -> x ∈ by_key k l -> P x.
Proof. rewrite Forall_forall, by_key_Permutation. auto. Qed.

Lemma sorted_string_Forall (P : string -> Prop) l x : Forall P l -> x ∈ sort_strings l -> P x.
Proof. rewrite Forall_forall, elem_of_sort_strings. auto. Qed.

Lemma consumes_runs c m0 ss aa m p :
  Forall consumption_fields (mf_Consumes m) -> mf_Consumes m0 = [] -> at_ c m0 ss aa p ->
  runs (consumes_lines m) p (at_ c (set_mf_Consumes (by_key cn_Name (mf_Consumes m)) m0) ss aa).
Proof.
  intros Hf H0 (sec & ns & ->). unfold consumes_lines. apply when_nonempty.
  - intros _. line. eapply runs_concat with (I := fun done => within c "consumes" (set_mf_Consumes done m0) ss aa).
    + eexists. same m0.
    + intros done x p Hx. apply consumption_runs. by eapply sorted_Forall.
    + intros p. apply within_at.
  - intros ->. exists sec, ns. same m0.
Qed.

(** ** Lists of items *)

Definition inside (c : bool) (sec : string) (P : Nested -> Prop) (m : Manifest) (ss aa : gset string) (p : Parser) : Prop :=
  exists ns, P ns /\ p = mkParser c m sec ns ss aa.

Lemma inside_at c sec P m ss aa p : inside c sec P m ss aa p -> at_ c m ss aa p.
Proof. intros (ns & _ & ->). by exists sec, ns. Qed.

Ltac ended := apply runs_nil; eexists; split; [|reflexivity]; first [reflexivity|done].

Ltac opened m := eexists; split; [|same m]; first [reflexivity|done].

Lemma workload_runs c m0 ss aa m p :
  Forall field (wc_Components (mf_Workload m)) -> mf_Workload m0 = mkWorkload [] -> at_ c m0 ss aa p ->
  runs (workload_lines m) p (at_ c (set_mf_Workload (mkWorkload (sort_strings (wc_Components (mf_Workload m)))) m0) ss aa).
Proof.
  intros Hf H0 (sec & ns & ->). unfold workload_lines. apply when_nonempty.
  - intros _. line. line.
    apply runs_map with (I := fun done => inside c "workload" (fun ns => ns_workloadField ns = "components") (set_mf_Workload (mkWorkload done) m0) ss aa).
    + opened m0.
    + intros done v p Hv ([] & Hns & ->). simpl in Hns. subst. pose proof (sorted_string_Forall _ _ _ Hf Hv) as Hvf. destruct m0. line. ended.
    + intros p. apply inside_at.
  - intros ->. exists sec, ns. same m0.
Qed.

Lemma logs_runs c m0 ss aa m p :
  Forall field (lr_Collect (mf_Logs m)) -> mf_Logs m0 = mkLogs [] -> at_ c m0 ss aa p ->
  runs (logs_lines m) p (at_ c (set_mf_Logs (mkLogs (sort_strings (lr_Collect (mf_Logs m)))) m0) ss aa).
Proof.
  intros Hf H0 (sec & ns & ->). unfold logs_lines. apply when_nonempty.
  - intros _. line. line.
    apply runs_map with (I := fun done => inside c "logs" (fun ns => ns_logsField ns = "collect") (set_mf_Logs (mkLogs done) m0) ss aa).
    + opened m0.
    + intros done v p Hv ([] & Hns & ->). simpl in Hns. subst. pose proof (sorted_string_Forall _ _ _ Hf Hv) as Hvf. destruct m0. line. ended.
    + intros p. apply inside_at.
  - intros ->. exists sec, ns. same m0.
Qed.

Lemma telemetry_runs c m0 ss aa m p :
  match te_OTLP (mf_Telemetry m) with Some o => Forall field (ot_Signals o) | None => True end ->
  mf_Telemetry m0 = mkTelemetry None -> at_ c m0 ss aa p ->
  runs (telemetry_lines m) p (at_ c (set_mf_Telemetry (canonical_telemetry (mf_Telemetry m)) m0) ss aa).
Proof.
  intros Hf H0 (sec & ns & ->). unfold telemetry_lines, canonical_telemetry. destruct (te_OTLP (mf_Telemetry m)) as [[signals]|].
  - simpl. line. destruct m0 eqn:Hm. line. line.
    apply runs_map with (I := fun done => inside c "telemetry" (fun ns => ns_telemetryField ns = "otlp-signals")
      (set_mf_Telemetry (mkTelemetry (Some (mkOTLP done))) m0) ss aa).
    + subst m0. eexists; split; [|reflexivity]; reflexivity.
    + intros done v p Hv ([] & Hns & ->). simpl in Hns. subst. pose proof (sorted_string_Forall _ _ _ Hf Hv) as Hvf. line. ended.
    + intros p. subst. apply inside_at.
  - apply runs_nil. exists sec, ns. same m0.
Qed.

Definition source_fields (s : MetricsSourceRequirement) : Prop :=
  field (ms_Name s) /\ field (ms_Service s) /\ (min_int <= ms_Port s <= max_int)%Z /\ field (ms_Path s).

Lemma metrics_runs c m0 ss aa m p :
  Forall source_fields (me_Sources (mf_Metrics m)) -> mf_Metrics m0 = mkMetrics [] -> at_ c m0 ss aa p ->
  runs (metrics_lines m) p (at_ c (set_mf_Metrics (mkMetrics (by_key ms_Name (me_Sources (mf_Metrics m)))) m0) ss aa).
Proof.
  intros Hf H0 (sec & ns & ->). unfold metrics_lines. apply when_nonempty.
  - intros _. line. line.
    apply runs_concat with (I := fun done => inside c "metrics" (fun ns => ns_metricsField ns = "sources") (set_mf_Metrics (mkMetrics done) m0) ss aa).
    + opened m0.
    + intros done x p Hx ([] & Hns & ->). simpl in Hns. subst.
      pose proof (sorted_Forall _ _ _ _ Hf Hx) as (H1 & H2 & H3 & H4). destruct x, m0. unfold source_lines. simpl in *.
      line. line. line. line. ended.
    + intros p. apply inside_at.
  - intros ->. exists sec, ns. same m0.
Qed.

Definition exposure_fields (e : HTTPExposureRequirement) : Prop :=
  field (ex_Name e) /\ field (ex_Service e) /\ (min_int <= ex_Port e <= max_int)%Z /\ field (ex_Protocol e) /\
  field (normalizedExposureVisibility (ex_Visibility e)).

Lemma exposures_runs c m0 ss aa m p :
  Forall exposure_fields (mf_Exposures m) -> mf_Exposures m0 = [] -> at_ c m0 ss aa p ->
  runs (exposures_lines m) p (at_ c (set_mf_Exposures (map canonical_exposure (by_key ex_Name (mf_Exposures m))) m0) ss aa).
Proof.
  intros Hf H0 (sec & ns & ->). unfold exposures_lines. apply when_nonempty.
  - intros _. line. line.
    apply runs_concat with (I := fun done => inside c "exposure" (fun ns => ns_exposureField ns = "http")
      (set_mf_Exposures (map canonical_exposure done) m0) ss aa).
    + opened m0.
    + intros done [name service port protocol visibility] p Hx ([] & Hns & ->). simpl in Hns. subst.
      pose proof (sorted_Forall _ _ _ _ Hf Hx) as (H1 & H2 & H3 & H4 & H5). rewrite map_app. cbn [map].
      generalize (map canonical_exposure done) as before. intros before. unfold exposure_lines, canonical_exposure. simpl in *.
      revert H5. generalize (normalizedExposureVisibility visibility) as v. intros v H5.
      destruct m0. line. line. line. line. line. ended.
    + intros p. apply inside_at.
  - intros ->. exists sec, ns. same m0.
Qed.

Definition permission_fields (p : RuntimePermission) : Prop :=
  field (rp_Capability p) /\ Forall field (rp_Services p) /\ Forall field (rp_Operations p).

Definition on_permission (index : Z) (list_name : string) (ns : Nested) : Prop :=
  ns_runtimeField ns = "permissions" /\ ns_runtimePermissionIndex ns = index /\ ns_runtimePermissionList ns = list_name.

Ltac pin H := simpl in H; match type of H with ?x = _ => subst x end.

Lemma permission_runs c m ss aa done x p :
  permission_fields x -> inside c "runtime" (fun ns => ns_runtimeField ns = "permissions") (set_mf_Runtime (mkRuntime done) m) ss aa p ->
  runs (permission_lines x) p
    (inside c "runtime" (fun ns => ns_runtimeField ns = "permissions") (set_mf_Runtime (mkRuntime (done ++ [canonical_permission x])) m) ss aa).
Proof.
  destruct x as [capability services operations]. intros (H1 & H2 & H3) ([] & Hns & ->). simpl in *. subst.
  assert (exists m', m' = m) as [m' Hm] by eauto. destruct m.
  unfold permission_lines, canonical_permission. simpl. line. line. eapply runs_app.
  apply runs_map with (I := fun items => inside c "runtime" (on_permission (Z.of_nat (length done)) "services")
    (set_mf_Runtime (mkRuntime (done ++ [mkRuntimePermission capability items []])) m') ss aa).
  - subst. eexists. split; [|reflexivity]. done.
  - intros items v q Hv ([] & (Hn1 & Hn2 & Hn3) & ->). simpl in *. subst. pose proof (sorted_string_Forall _ _ _ H2 Hv) as Hvf. line. ended.
  - intros q ([] & (Hn1 & Hn2 & Hn3) & ->). pin Hn1. pin Hn2. pin Hn3. line.
    apply runs_map with (I := fun items => inside c "runtime" (on_permission (Z.of_nat (length done)) "operations")
      (set_mf_Runtime (mkRuntime (done ++ [mkRuntimePermission capability (sort_strings services) items])) m') ss aa).
    + subst. eexists. split; [|reflexivity]. done.
    + intros items v q Hv ([] & (Hn1 & Hn2 & Hn3) & ->). simpl in *. subst. pose proof (sorted_string_Forall _ _ _ H3 Hv) as Hvf. line. ended.
    + intros q (ns & (Hn & _ & _) & ->). subst. by exists ns.
Qed.

Lemma runtime_runs c m0 ss aa m p :
  Forall permission_fields (ru_Permissions (mf_Runtime m)) -> mf_Runtime m0 = mkRuntime [] -> at_ c m0 ss aa p ->
  runs (runtime_lines m) p
    (at_ c (set_mf_Runtime (mkRuntime (map canonical_permission (by_key rp_Capability (ru_Permissions (mf_Runtime m))))) m0) ss aa).
Proof.
  intros Hf H0 (sec & ns & ->). unfold runtime_lines. apply when_nonempty.
  - intros _. line. line.
    apply runs_concat with (I := fun done => inside c "runtime" (fun ns => ns_runtimeField ns = "permissions")
      (set_mf_Runtime (mkRuntime (map canonical_permission done)) m0) ss aa).
    + opened m0.
    + intros done x p Hx Hp. rewrite map_app. apply permission_runs; [by eapply sorted_Forall|done].
    + intros p. apply inside_at.
  - intros ->. exists sec, ns. same m0.
Qed.

(** ** Identity *)

Definition identity_fields_ok (i : IdentityRequirements) : Prop :=
  Forall field (ir_CallbackPaths i) /\ Forall field (ir_LogoutPaths i) /\ Forall field (ir_Scopes i) /\ Forall field (ir_Claims i) /\
  clean (ia_MFA (ir_Authentication i)) /\ Forall field (ia_Methods (ir_Authentication i)).

Lemma identity_list_runs c m ss aa f add values p :
  f ∈ ["callback_paths"; "logout_paths"; "scopes"; "claims"] ->
  (forall items v, append_identity f v (add items) = Some (add (items ++ [v]))) -> Forall field values ->
  within c "identity" (set_mf_Identity (add []) m) ss aa p ->
  runs (writeStringListYAML f values 2) p (within c "identity" (set_mf_Identity (add (sort_strings values)) m) ss aa).
Proof.
  intros Hin Hadd Hf [ns ->]. unfold writeStringListYAML. apply when_nonempty; [|intros ->; by exists ns]. intros _.
  assert (exists p', (forall n, parseLine n 2 (f +:+ ":") (mkParser c (set_mf_Identity (add []) m) "identity" ns ss aa) = Ok p') /\ shown (f +:+ ":") /\
    inside c "identity" (fun ns => ns_identityField ns = f) (set_mf_Identity (add []) m) ss aa p') as (p' & Hp & Ht & Hi).
  { rewrite !elem_of_cons, elem_of_nil in Hin. destruct ns.
    destruct Hin as [->|[->|[->|[->|[]]]]]; (eexists; split; [intros n; repeat step; finish|split; [text|eexists; split; [|reflexivity]; done]]). }
  eapply runs_cons; [exact Ht|exact Hp|].
  apply runs_map with (I := fun done => inside c "identity" (fun ns => ns_identityField ns = f) (set_mf_Identity (add done) m) ss aa); [done| |].
  - intros done v q Hv ([] & Hns & ->). pin Hns. pose proof (sorted_string_Forall _ _ _ Hf Hv) as Hvf.
    rewrite !elem_of_cons, elem_of_nil in Hin. destruct m, Hin as [->|[->|[->|[->|[]]]]]; line; ended.
  - intros q (ns' & _ & ->). by exists ns'.
Qed.

Definition with_authentication (i : IdentityRequirements) (a : IdentityAuthenticationRequirements) : IdentityRequirements :=
  mkIdentity (ir_CallbackPaths i) (ir_LogoutPaths i) (ir_Scopes i) (ir_Claims i) a.

Definition no_authentication : IdentityAuthenticationRequirements := mkIdentityAuthentication "" [] false.

(** The optional line of the factors. *)
Lemma mfa_runs c m i ss aa mfa p :
  clean mfa ->
  inside c "identity" (fun ns => ns_identityField ns = "authentication") (set_mf_Identity (with_authentication i no_authentication) m) ss aa p ->
  runs (when (mfa != "") [(4%nat, "mfa: " +:+ mfa)]) p
    (inside c "identity" (fun ns => ns_identityField ns = "authentication")
       (set_mf_Identity (with_authentication i (mkIdentityAuthentication mfa [] false)) m) ss aa).
Proof.
  intros Hc ([] & Hns & ->). pin Hns. apply runs_when.
  - intros Hm. pose proof (neqb_nil_field _ Hc Hm) as Hf. destruct m, i. line. ended.
  - intros ->%neqb_false. eexists. split; [|reflexivity]. done.
Qed.

Lemma passwordless_runs c m i ss aa mfa enabled p :
  inside c "identity" (fun ns => ns_identityField ns = "authentication")
    (set_mf_Identity (with_authentication i (mkIdentityAuthentication mfa [] false)) m) ss aa p ->
  runs [(4%nat, "passwordless: " +:+ bool_text enabled)] p
    (inside c "identity" (fun ns => ns_identityField ns = "authentication")
       (set_mf_Identity (with_authentication i (mkIdentityAuthentication mfa [] enabled)) m) ss aa).
Proof. intros ([] & Hns & ->). pin Hns. destruct m, i, enabled; simpl; line; ended. Qed.

Lemma methods_runs c m i ss aa mfa enabled methods p :
  Forall field methods ->
  inside c "identity" (fun ns => ns_identityField ns = "authentication")
    (set_mf_Identity (with_authentication i (mkIdentityAuthentication mfa [] enabled)) m) ss aa p ->
  runs (writeStringListYAML "methods" methods 4) p
    (within c "identity" (set_mf_Identity (with_authentication i (mkIdentityAuthentication mfa (sort_strings methods) enabled)) m) ss aa).
Proof.
  intros Hf ([] & Hns & ->). pin Hns. unfold writeStringListYAML. apply when_nonempty; [|intros ->; by eexists]. intros _. simpl. line.
  apply runs_map with (I := fun done => inside c "identity" (fun ns => ns_identityField ns = "authentication-methods")
    (set_mf_Identity (with_authentication i (mkIdentityAuthentication mfa done enabled)) m) ss aa).
  - eexists. split; [|reflexivity]. done.
  - intros done v q Hv ([] & Hns & ->). pin Hns. pose proof (sorted_string_Forall _ _ _ Hf Hv) as Hvf. destruct m, i. line. ended.
  - intros q (ns' & _ & ->). by exists ns'.
Qed.

Lemma authentication_runs c m i ss aa a p :
  clean (ia_MFA a) -> Forall field (ia_Methods a) ->
  within c "identity" (set_mf_Identity (with_authentication i no_authentication) m) ss aa p ->
  runs (authentication_lines a) p (within c "identity" (set_mf_Identity (with_authentication i (canonical_authentication a)) m) ss aa).
Proof.
  destruct a as [mfa methods enabled]. unfold authentication_lines, canonical_authentication. cbn [ia_MFA ia_Methods ia_Passwordless].
  intros Hc Hf [ns ->]. apply runs_when; intros Hw.
  - destruct ns. line. apply runs_app. eapply runs_mono; [apply mfa_runs; [done|]; eexists; split; [|reflexivity]; done|].
    intros q Hq. apply runs_app. eapply runs_mono; [by apply passwordless_runs|]. intros r Hr. by apply methods_runs.
  - rewrite !orb_false_iff, neqb_false, negb_false_iff, is_nil_true in Hw. destruct Hw as [[-> ->] ->]. by exists ns.
Qed.

Lemma identity_runs c m0 ss aa m p :
  identity_fields_ok (mf_Identity m) ->
  (sv_Identity (mf_Services m) = false -> canonical_identity (mf_Identity m) = no_Identity) ->
  mf_Identity m0 = no_Identity -> at_ c m0 ss aa p ->
  runs (identity_lines m) p (at_ c (set_mf_Identity (canonical_identity (mf_Identity m)) m0) ss aa).
Proof.
  intros (H1 & H2 & H3 & H4 & H5 & H6) Hoff H0 (sec & ns & ->). unfold identity_lines.
  destruct (mf_Identity m) as [callbacks logouts scopes claims a]. cbn [ir_CallbackPaths ir_LogoutPaths ir_Scopes ir_Claims ir_Authentication] in *.
  apply runs_when; intros Hs; [|rewrite (Hoff Hs); exists sec, ns; same m0]. cbn [app]. line. apply runs_app.
  eapply runs_mono; [apply (identity_list_runs c m0 ss aa _ (fun l => mkIdentity l [] [] [] no_authentication)); [set_solver|done|done|]|].
  { eexists. same m0. }
  intros p1 Hp1. apply runs_app.
  eapply runs_mono; [apply (identity_list_runs c m0 ss aa _ (fun l => mkIdentity (sort_strings callbacks) l [] [] no_authentication)); [set_solver|done|done|exact Hp1]|].
  intros p2 Hp2. apply runs_app.
  eapply runs_mono; [apply (identity_list_runs c m0 ss aa _ (fun l => mkIdentity (sort_strings callbacks) (sort_strings logouts) l [] no_authentication)); [set_solver|done|done|exact Hp2]|].
  intros p3 Hp3. apply runs_app.
  eapply runs_mono; [apply (identity_list_runs c m0 ss aa _ (fun l => mkIdentity (sort_strings callbacks) (sort_strings logouts) (sort_strings scopes) l no_authentication)); [set_solver|done|done|exact Hp3]|].
  intros p4 Hp4.
  set (i := mkIdentity (sort_strings callbacks) (sort_strings logouts) (sort_strings scopes) (sort_strings claims) no_authentication).
  eapply runs_mono; [by apply (authentication_runs c m0 i ss aa)|]. intros q Hq. by apply within_at in Hq.
Qed.

(** ** Secrets *)

Definition secret_fields (r : SecretRequirement) : Prop :=
  field (sr_Name r) /\ match sr_Generate r with Some g => generation_ok g | None => True end.

Definition secrets_of (f : string) (values other : list SecretRequirement) : SecretRequirements :=
  if f == "required" then mkSecrets values other else mkSecrets other values.

Lemma secret_runs c m ss aa f done other x p :
  f ∈ ["required"; "optional"] -> secret_fields x ->
  inside c "secrets" (fun ns => ns_secretField ns = f) (set_mf_Secrets (secrets_of f done other) m) ss aa p ->
  runs (secret_lines x) p (inside c "secrets" (fun ns => ns_secretField ns = f) (set_mf_Secrets (secrets_of f (done ++ [x]) other) m) ss aa).
Proof.
  destruct x as [name generate]. intros Hin [H1 H2] ([] & Hns & ->). pin Hns. unfold secret_lines. cbn [sr_Name sr_Generate] in *. destruct m.
  rewrite !elem_of_cons, elem_of_nil in Hin. destruct generate as [[ty l b]|].
  - unfold generation_ok in H2. cbn [sg_Type sg_Length sg_Bytes] in *.
    destruct H2 as [(-> & Hl & ->)|(-> & Hb & ->)]; destruct Hin as [->|[->|[]]];
      change ("random" == "random") with true; change ("hex" == "random") with false; change ("hex" == "hex") with true; cbv iota;
      line; line; line; line; ended.
  - destruct Hin as [->|[->|[]]]; line; ended.
Qed.

Lemma secret_list_runs c m ss aa f other values p :
  f ∈ ["required"; "optional"] -> Forall secret_fields values ->
  within c "secrets" (set_mf_Secrets (secrets_of f [] other) m) ss aa p ->
  runs (writeSecretRequirementsYAML f values) p (within c "secrets" (set_mf_Secrets (secrets_of f (by_key sr_Name values) other) m) ss aa).
Proof.
  intros Hin Hf [ns ->]. unfold writeSecretRequirementsYAML. apply when_nonempty; [|intros ->; by exists ns]. intros _.
  assert (exists p', (forall n, parseLine n 2 (f +:+ ":") (mkParser c (set_mf_Secrets (secrets_of f [] other) m) "secrets" ns ss aa) = Ok p') /\
    shown (f +:+ ":") /\ inside c "secrets" (fun ns => ns_secretField ns = f) (set_mf_Secrets (secrets_of f [] other) m) ss aa p') as (p' & Hp & Ht & Hi).
  { rewrite !elem_of_cons, elem_of_nil in Hin. destruct ns.
    destruct Hin as [->|[->|[]]]; (eexists; split; [intros n; repeat step; finish|split; [text|eexists; split; [|reflexivity]; done]]). }
  eapply runs_cons; [exact Ht|exact Hp|].
  apply runs_concat with (I := fun done => inside c "secrets" (fun ns => ns_secretField ns = f) (set_mf_Secrets (secrets_of f done other) m) ss aa); [done| |].
  - intros done x q Hx Hq. apply secret_runs; [done|by eapply sorted_Forall|done].
  - intros q (ns' & _ & ->). by exists ns'.
Qed.

Lemma secrets_runs c m0 ss aa m p :
  Forall secret_fields (se_Required (mf_Secrets m)) -> Forall secret_fields (se_Optional (mf_Secrets m)) ->
  mf_Secrets m0 = mkSecrets [] [] -> at_ c m0 ss aa p ->
  runs (secrets_lines m) p (at_ c (set_mf_Secrets (canonical_secrets (mf_Secrets m)) m0) ss aa).
Proof.
  intros H1 H2 H0 (sec & ns & ->). unfold secrets_lines, canonical_secrets. destruct (mf_Secrets m) as [required optional].
  cbn [se_Required se_Optional] in *. apply runs_when; intros Hw.
  - cbn [app]. line. apply runs_app.
    eapply runs_mono; [apply (secret_list_runs c m0 ss aa "required" []); [set_solver|done|]; eexists; same m0|].
    intros q Hq. eapply runs_mono; [apply (secret_list_runs c m0 ss aa "optional" (by_key sr_Name required)); [set_solver|done|exact Hq]|].
    intros r Hr. by apply within_at in Hr.
  - rewrite orb_false_iff, !negb_false_iff, !is_nil_true in Hw. destruct Hw as [-> ->]. exists sec, ns. same m0.
Qed.

(** ** Availability *)

Lemma HasSuffix_app x t : HasSuffix (x +:+ t) t = true.
Proof. unfold HasSuffix. rewrite rev_app_distr. apply HasPrefix_spec. by eexists. Qed.

Lemma TrimSuffix_app x t : TrimSuffix (x +:+ t) t = x.
Proof.
  unfold TrimSuffix, TrimPrefix. rewrite rev_app_distr.
  by rewrite (proj2 (strip_prefix_spec _ _ (String.rev x)) eq_refl), rev_involutive.
Qed.

Lemma override_line n x c m ns ss aa :
  field x -> mf_Availability m !! x = None ->
  parseLine n 2 (x +:+ ":") (mkParser c m "availability" ns ss aa) =
  Ok (mkParser c (set_mf_Availability (<[x := mkOverride None 0]> (mf_Availability m)) m) "availability"
        (set_ns_availabilityComponent x (set_ns_secretGenerate false (set_ns_secretIndex (-1) (set_ns_serviceField "" ns)))) ss aa).
Proof.
  intros Hx Hn. unfold parseLine, parseIndent2. cbv zeta.
  change (section (nested _ _) "consumes") with false. change (section (nested _ _) "availability") with true.
  rewrite HasSuffix_app. cbv [andb]. unfold parse_override. rewrite TrimSuffix_app, field_TrimSpace, eqb_nil_field by done. cbv zeta.
  rewrite !reject_seq. cbn [ps_manifest nested set_ps_nested]. rewrite Hn.
  by rewrite bool_decide_eq_false_2 by (by intros [? ?]).
Qed.

Lemma override_field_line n t c m ns ss aa :
  ns_availabilityComponent ns <> "" ->
  parseLine n 4 t (mkParser c m "availability" ns ss aa) = parse_override_field n t (mkParser c m "availability" (set_ns_secretGenerate false ns) ss aa).
Proof.
  intros Hx. unfold parseLine, parseIndent4. cbv zeta.
  change (section (nested _ _) "consumes") with false. change (section (nested _ _) "availability") with true. cbv [andb].
  change (ns_availabilityComponent (ps_nested (nested _ _))) with (ns_availabilityComponent ns).
  by rewrite bool_decide_eq_false_2.
Qed.

Definition on_override (x : string) (o : Override) (av : gmap string Override) (c : bool) (m : Manifest) (ss aa : gset string) : Parser -> Prop :=
  inside c "availability" (fun ns => ns_availabilityComponent ns = x) (set_mf_Availability (<[x := o]> av) m) ss aa.

Lemma override_ha_runs x o av c m ss aa p :
  field x -> ov_HA o = None -> forall ha : option bool, on_override x o av c m ss aa p ->
  runs (match ha with Some b => [(4%nat, "ha: " +:+ bool_text b)] | None => [] end) p (on_override x (mkOverride ha (ov_Instances o)) av c m ss aa).
Proof.
  intros Hx Ho ha (ns & Hns & ->). destruct ha as [b|]; [|apply runs_nil; destruct o; simpl in *; subst; by exists ns].
  eapply runs_cons; [destruct b; text| |].
  - intros n. rewrite override_field_line by (rewrite Hns; apply Hx). unfold parse_override_field.
    assert (forall e, key_value ("ha: " +:+ bool_text b) e = Ok ("ha", bool_text b)) as -> by by destruct b. cbn [mbind result_bind].
    destruct ns. simpl in Hns. subst. cbn [ps_manifest ps_nested ns_availabilityComponent set_ns_secretGenerate set_mf_Availability mf_Availability].
    rewrite lookup_insert_eq. cbn [default].
    assert (ParseBool (bool_text b) = Some b) as -> by by destruct b. reflexivity.
  - apply runs_nil. eexists. split; [|unfold change; cbn; rewrite insert_insert_eq; reflexivity]. by destruct ns.
Qed.

Lemma override_instances_runs x ha av c m ss aa p k :
  field x -> (0 <= k <= max_int)%Z -> on_override x (mkOverride ha 0) av c m ss aa p ->
  runs (when (0 <? k)%Z [(4%nat, "instances: " +:+ Itoa k)]) p (on_override x (mkOverride ha k) av c m ss aa).
Proof.
  intros Hx Hk (ns & Hns & ->). apply runs_when; intros Hlt.
  - eapply runs_cons; [text| |].
    + intros n. rewrite override_field_line by (rewrite Hns; apply Hx). unfold parse_override_field.
      assert (forall e, key_value ("instances: " +:+ Itoa k) e = Ok ("instances", Itoa k)) as ->.
      { intros e. change (key_value ("instances: " +:+ Itoa k) e) with (Ok ("instances", TrimSpace (String " " (Itoa k))) : result error _).
        by rewrite trim_field_space by apply field_Itoa. }
      cbn [mbind result_bind]. destruct ns. simpl in Hns. subst.
      cbn [ps_manifest ps_nested ns_availabilityComponent set_ns_secretGenerate set_mf_Availability mf_Availability].
      rewrite lookup_insert_eq. cbn [default]. rewrite Atoi_Itoa by (unfold min_int; lia). reflexivity.
    + apply runs_nil. eexists. split; [|unfold change; cbn; rewrite insert_insert_eq; reflexivity]. by destruct ns.
  - apply Z.ltb_ge in Hlt. assert (k = 0%Z) as -> by lia. by exists ns.
Qed.

Definition override_fields (av : gmap string Override) : Prop :=
  map_Forall (fun x o => field x /\ HasPrefix x "#" = false /\ (0 <= ov_Instances o <= max_int)%Z) av.

(** The part of the overrides that has been read. *)
Definition read_overrides (av : gmap string Override) (done : list string) (m : Manifest) (c : bool) (ss aa : gset string) (p : Parser) : Prop :=
  exists av0, within c "availability" (set_mf_Availability av0 m) ss aa p /\ forall k, av0 !! k = if decide (k ∈ done) then av !! k else None.

Lemma override_runs c m0 m ss aa done x p :
  override_fields (mf_Availability m) -> is_Some (mf_Availability m !! x) -> x ∉ done ->
  read_overrides (mf_Availability m) done m0 c ss aa p ->
  runs (override_lines m x) p (read_overrides (mf_Availability m) (done ++ [x]) m0 c ss aa).
Proof.
  intros Hf [o Ho] Hnd (av0 & [ns ->] & Hav). destruct (Hf x o Ho) as (Hx & Hh & Hk).
  unfold override_lines. rewrite Ho. simpl. eapply runs_cons; [by apply shown_name| |].
  { intros n. apply override_line; [done|]. simpl. by rewrite Hav, decide_False. }
  cbn [set_mf_Availability mf_Availability]. apply runs_app. eapply runs_mono.
  { apply (override_ha_runs x (mkOverride None 0) av0 c m0 ss aa); [done|done|]. eexists. split; [|reflexivity]. by destruct ns. }
  intros q Hq. eapply runs_mono; [by apply (override_instances_runs x (ov_HA o) av0 c m0)|].
  intros r (ns' & _ & ->). exists (<[x := o]> av0). split; [exists ns'; by destruct o|].
  intros k. destruct (decide (k = x)) as [->|Hne].
  - rewrite lookup_insert_eq, decide_True; [done|set_solver].
  - rewrite lookup_insert_ne, Hav by done. apply decide_ext. set_solver.
Qed.

Lemma availability_runs c m0 ss aa m p :
  override_fields (mf_Availability m) -> mf_Availability m0 = ∅ -> at_ c m0 ss aa p ->
  runs (availability_lines m) p (at_ c (set_mf_Availability (mf_Availability m) m0) ss aa).
Proof.
  intros Hf H0 (sec & ns & ->). unfold availability_lines. apply runs_when; intros He.
  - line. unfold Intent_Components. cbn [AvailabilityIntent in_Overrides].
    assert (forall x, x ∈ sort_strings (map fst (map_to_list (mf_Availability m))) <-> is_Some (mf_Availability m !! x)) as Hin.
    { intros x. rewrite elem_of_sort_strings, list_elem_of_fmap. split.
      - intros ([y o] & -> & Hy%elem_of_map_to_list). by exists o.
      - intros [o Ho]. exists (x, o). by rewrite elem_of_map_to_list. }
    apply runs_concat_prefix with (I := fun done => read_overrides (mf_Availability m) done m0 c ss aa).
    + exists ∅. split; [eexists; same m0|]. intros k. by rewrite decide_False by set_solver.
    + intros done x rest q Hl Hq. apply override_runs; [done| | |done].
      * apply Hin. rewrite Hl. set_solver.
      * assert (NoDup (done ++ x :: rest)) as Hn by (rewrite <- Hl, sort_strings_Permutation; apply NoDup_fst_map_to_list).
        apply NoDup_app in Hn. set_solver.
    + intros q (av0 & Hq & Hav). assert (av0 = mf_Availability m) as ->; [|by apply within_at in Hq].
      apply map_eq. intros k. rewrite Hav. destruct (decide _) as [|Hn]; [done|]. symmetry. apply eq_None_not_Some. by rewrite <- Hin.
  - apply negb_false_iff, bool_decide_eq_true in He. rewrite He. exists sec, ns. same m0.
Qed.
