(* ===== verification/ManifestServices.v ===== *)
(** * The services of a serialised manifest are read back *)

From S2P Require Import Prelude GoStrings StableId Availability Capability Manifest ManifestValidate ManifestYAML ManifestFacts ManifestText.
From S2P Require Import ManifestRoundtrip.

(** ** Lines of the services *)

Ltac cases_of H := rewrite !elem_of_cons, ?elem_of_nil in H; repeat (destruct H as [->|H]); [..|destruct H].

Lemma service_line n x c m ns ss aa :
  x ∈ known_services -> x ∉ ss ->
  parseLine n 2 (x +:+ ":") (mkParser c m "services" ns ss aa) =
  Ok (mkParser c m "services" (set_ns_service x (set_ns_secretGenerate false (set_ns_secretIndex (-1) (set_ns_serviceField "" ns)))) ({[x]} ∪ ss) aa).
Proof.
  intros Hx Hs. unfold parseLine, parseIndent2. cbv zeta.
  change (section (nested _ _) "consumes") with false. change (section (nested _ _) "availability") with false.
  change (section (nested _ _) "app") with false. change (section (nested _ _) "services") with true. cbv [andb]. cbv iota.
  unfold parseServiceSection. assert (Cut (x +:+ ":") ":" = (x, "", true)) as -> by by (unfold known_services, instance_services in Hx; cbn [app] in Hx; cases_of Hx).
  cbv beta iota zeta. rewrite !reject_seq, (bool_decide_eq_true_2 _ Hx). cbn [negb ps_serviceSeen nested set_ps_nested]. by rewrite bool_decide_eq_false_2 by done.
Qed.

Lemma service_field_line n t c m ns ss aa :
  ns_service ns <> "" ->
  parseLine n 4 t (mkParser c m "services" ns ss aa) = parseServiceField n t (mkParser c m "services" (set_ns_secretGenerate false ns) ss aa).
Proof.
  intros Hx. unfold parseLine, parseIndent4. cbv zeta.
  change (section (nested _ _) "consumes") with false. change (section (nested _ _) "availability") with false.
  change (section (nested _ _) "services") with true. cbv [andb].
  change (ns_service (ps_nested (nested _ _))) with (ns_service ns).
  by rewrite bool_decide_eq_false_2.
Qed.

(** The services that have a switch. *)
Definition switched : list string := instance_services ++ ["object_storage"; "secrets"; "identity"].

Lemma enabled_line n x b c m ns ss aa :
  x ∈ switched -> ns_service ns = x ->
  parseLine n 4 ("enabled: " +:+ bool_text b) (mkParser c m "services" ns ss aa) =
  Ok (mkParser c (with_services (set_enabled x b) m) "services" (set_ns_secretGenerate false ns) ss aa).
Proof.
  intros Hx <-. rewrite service_field_line by (intros Hn; rewrite Hn in Hx; revert Hx; apply (bool_decide_unpack _); by vm_compute).
  unfold parseServiceField. cbn [ps_nested]. change (ns_service (set_ns_secretGenerate false ns)) with (ns_service ns). cbv zeta.
  unfold switched, instance_services in Hx. cbn [app] in Hx. remember (ns_service ns) as x. clear Heqx. cases_of Hx; destruct b; reflexivity.
Qed.

Lemma ui_line n x c m ns ss aa :
  x ∈ known_services -> ns_service ns = x ->
  parseLine n 4 "management_ui: true" (mkParser c m "services" ns ss aa) =
  Ok (mkParser c (with_services (set_management_ui x true) m) "services" (set_ns_secretGenerate false ns) ss aa).
Proof.
  intros Hx <-. rewrite service_field_line by (intros Hn; rewrite Hn in Hx; revert Hx; apply (bool_decide_unpack _); by vm_compute).
  unfold parseServiceField. cbn [ps_nested]. change (ns_service (set_ns_secretGenerate false ns)) with (ns_service ns). cbv zeta.
  unfold known_services, instance_services in Hx. cbn [app] in Hx. remember (ns_service ns) as x. clear Heqx. cases_of Hx; reflexivity.
Qed.

(** The services that have instances, and the line their list starts with. *)
Definition listed : list string := instance_services ++ ["object_storage"].
Definition list_field (x : string) : string := if x == "object_storage" then "buckets" else "instances".

Lemma list_line n x c m ns ss aa :
  x ∈ listed -> ns_service ns = x ->
  parseLine n 4 (list_field x +:+ ":") (mkParser c m "services" ns ss aa) =
  Ok (mkParser c m "services" (set_ns_serviceField (list_field x) (set_ns_secretGenerate false ns)) ss aa).
Proof.
  intros Hx <-. rewrite service_field_line by (intros Hn; rewrite Hn in Hx; revert Hx; apply (bool_decide_unpack _); by vm_compute).
  unfold parseServiceField. cbn [ps_nested]. change (ns_service (set_ns_secretGenerate false ns)) with (ns_service ns). cbv zeta.
  unfold listed, instance_services in Hx. cbn [app] in Hx. remember (ns_service ns) as x. clear Heqx. cases_of Hx; reflexivity.
Qed.

Lemma Cut_name v t : has_byte ":"%char v = false -> Cut (v +:+ String ":" t) ":" = (v, t, true).
Proof.
  induction v as [|c v IH]; [done|]. cbn [has_byte]. rewrite orb_false_iff, eqb_false. intros [Hc Hv].
  rewrite string_app_cons. cbn [Cut]. by rewrite decide_False, IH.
Qed.

Lemma slug_no_colon v : slug v -> has_byte ":"%char v = false.
Proof.
  intros H. apply (has_byte_every name_byte); [by apply slug_component|by vm_compute].
Qed.

Lemma instance_line n x name c m ns ss aa :
  x ∈ listed -> slug name -> ns_service ns = x -> ns_serviceField ns = list_field x ->
  parseLine n 6 (name +:+ ": {}") (mkParser c m "services" ns ss aa) =
  Ok (mkParser c (with_services (add_instance x name) m) "services" ns ss aa).
Proof.
  intros Hx Hn Hs Hf. unfold parseLine, parseIndent6, in_permission. cbv zeta. cbn [ps_nested].
  change (section (mkParser c m "services" ns ss aa) "runtime") with false.
  change (section (mkParser c m "services" ns ss aa) "identity") with false.
  change (section (mkParser c m "services" ns ss aa) "telemetry") with false.
  change (section (mkParser c m "services" ns ss aa) "metrics") with false.
  change (section (mkParser c m "services" ns ss aa) "exposure") with false.
  change (section (mkParser c m "services" ns ss aa) "secrets") with false. cbv [andb]. cbv iota.
  unfold parseServiceInstance. cbv zeta. cbn [ps_nested]. rewrite Hs, Hf, (Cut_name name " {}") by by apply slug_no_colon.
  change (section (mkParser c m "services" ns ss aa) "services") with true. rewrite !reject_seq.
  assert (negb true || ((list_field x != "instances") && (list_field x != "buckets")) = false) as -> by (unfold list_field; by destruct (x == "object_storage")).
  assert ((list_field x == "instances") && negb (bool_decide (x ∈ instance_services)) = false) as ->.
  { unfold listed, instance_services in Hx. cbn [app] in Hx. cases_of Hx; by vm_compute. }
  assert ((list_field x == "buckets") && (x != "object_storage") = false) as ->.
  { unfold listed, instance_services in Hx. cbn [app] in Hx. cases_of Hx; by vm_compute. }
  change (negb true || ((TrimSpace " {}" != "") && (TrimSpace " {}" != "{}"))) with false. cbv iota beta.
  rewrite field_TrimSpace by by apply slug_field. by rewrite (proj2 (validateSlug_Ok _ _) Hn).
Qed.

(** ** One service *)

Definition set_instances (service : string) (l : Instances) (s : Services) : Services :=
  if service == "sql" then set_sv_SQLInstances l s
  else if service == "cache" then set_sv_CacheInstances l s
  else if service == "key_value" then set_sv_KeyValueInstances l s
  else if service == "document_database" then set_sv_DocumentDatabaseInstances l s
  else if service == "messaging_queue" then set_sv_MessagingQueueInstances l s
  else if service == "messaging_pubsub" then set_sv_MessagingPubSubInstances l s
  else if service == "messaging_stream" then set_sv_MessagingStreamInstances l s
  else if service == "object_storage" then set_sv_ObjectStorageBuckets l s
  else s.

(** A service with its flag and its instances. *)
Definition set_service (service : string) (enabled : bool) (l : Instances) (s : Services) : Services :=
  set_enabled service enabled (set_instances service l s).

(** The service has not been set. *)
Definition unset (service : string) (s : Services) : Prop := set_service service false ∅ s = s.

Lemma add_instances x s0 names l :
  x ∈ listed ->
  foldl (fun s name => add_instance x name s) (set_service x true l s0) names = set_service x true (list_to_set names ∪ l) s0.
Proof.
  intros Hx. revert l. induction names as [|name names IH]; intros l; cbn [foldl list_to_set].
  - f_equal. set_solver.
  - assert (add_instance x name (set_service x true l s0) = set_service x true ({[name]} ∪ l) s0) as ->.
    { unfold listed, instance_services in Hx. cbn [app] in Hx. cases_of Hx; reflexivity. }
    rewrite IH. f_equal. set_solver.
Qed.

Lemma add_instances_unset x s0 names :
  x ∈ listed -> unset x s0 -> names <> [] ->
  foldl (fun s name => add_instance x name s) s0 names = set_service x true (list_to_set names) s0.
Proof.
  intros Hx Hu Hn. destruct names as [|name names]; [done|]. cbn [foldl list_to_set].
  assert (add_instance x name s0 = set_service x true {[name]} s0) as ->.
  { rewrite <- Hu at 1. rewrite <- (union_empty_r_L {[name]}). unfold listed, instance_services in Hx. cbn [app] in Hx. cases_of Hx; reflexivity. }
  rewrite add_instances by done. f_equal. set_solver.
Qed.

Lemma set_mf_Services_twice f s m : with_services f (set_mf_Services s m) = set_mf_Services (f s) m.
Proof. done. Qed.

(** The state inside the list of services: the services read so far are among
    [names]. *)
Definition serving (c : bool) (m : Manifest) (aa : gset string) (names : list string) (s : Services) (p : Parser) : Prop :=
  exists ss, within c "services" (set_mf_Services s m) ss aa p /\ ss ⊆ list_to_set names.

Definition serving_on (x : string) (c : bool) (m : Manifest) (aa : gset string) (names : list string) (s : Services) (p : Parser) : Prop :=
  exists ss, inside c "services" (fun ns => ns_service ns = x) (set_mf_Services s m) ss aa p /\ ss ⊆ list_to_set names.

Lemma serving_on_weaken x c m aa names s p : serving_on x c m aa names s p -> serving c m aa names s p.
Proof. intros (ss & (ns & _ & ->) & Hss). exists ss. split; [by exists ns|done]. Qed.

Lemma known_shown x : x ∈ known_services -> shown (x +:+ ":").
Proof. unfold known_services, instance_services. cbn [app]. intros H. cases_of H; text. Qed.

Lemma header_runs x c m aa names s p :
  x ∈ known_services -> x ∉ names -> serving c m aa names s p ->
  runs [(2%nat, x +:+ ":")] p (serving_on x c m aa (x :: names) s).
Proof.
  intros Hx Hn (ss & [ns ->] & Hss). eapply runs_cons; [by apply known_shown| |].
  - intros n. apply service_line; [done|set_solver].
  - apply runs_nil. exists ({[x]} ∪ ss). split; [|set_solver]. eexists. split; [|reflexivity]. by destruct ns.
Qed.

Lemma enabled_runs x b c m aa names s p :
  x ∈ switched -> serving_on x c m aa names s p ->
  runs [(4%nat, "enabled: " +:+ bool_text b)] p (serving_on x c m aa names (set_enabled x b s)).
Proof.
  intros Hx (ss & (ns & Hns & ->) & Hss). eapply runs_cons; [destruct b; text| |].
  - intros n. by apply enabled_line.
  - apply runs_nil. exists ss. split; [|done]. eexists. split; [|by rewrite set_mf_Services_twice]. by destruct ns.
Qed.

Lemma ui_runs x ui c m aa names s p :
  x ∈ known_services -> serving_on x c m aa names s p ->
  runs (writeManagementUIYAML ui) p (serving_on x c m aa names (if ui then set_management_ui x true s else s)).
Proof.
  intros Hx (ss & (ns & Hns & ->) & Hss). destruct ui; [|apply runs_nil; exists ss; split; [by exists ns|done]].
  eapply runs_cons; [text| |].
  - intros n. by apply (ui_line n x).
  - apply runs_nil. exists ss. split; [|done]. eexists. split; [|by rewrite set_mf_Services_twice]. by destruct ns.
Qed.

Lemma instances_runs x l c m aa names s p :
  x ∈ listed -> unset x s -> l <> ∅ -> Forall slug (serviceInstanceNames true l) -> serving_on x c m aa names s p ->
  runs ((4%nat, list_field x +:+ ":") :: map (fun name => (6%nat, name +:+ ": {}")) (serviceInstanceNames true l)) p
    (serving_on x c m aa names (set_service x true l s)).
Proof.
  intros Hx Hu Hl Hsl (ss & (ns & Hns & ->) & Hss).
  assert (serviceInstanceNames true l <> [] /\ list_to_set (serviceInstanceNames true l) = l) as [Hne Hset].
  { unfold serviceInstanceNames. rewrite bool_decide_eq_false_2 by done. split.
    - rewrite sort_strings_nil. intros He%elements_empty_inv. by apply Hl, leibniz_equiv.
    - apply set_eq. intros y. by rewrite elem_of_list_to_set, elem_of_sort_strings, elem_of_elements. }
  eapply runs_cons; [unfold list_field; destruct (x == _); text|intros n; by apply list_line|].
  apply runs_map with (I := fun done => inside c "services" (fun ns => ns_service ns = x /\ ns_serviceField ns = list_field x)
    (set_mf_Services (foldl (fun s name => add_instance x name s) s done) m) ss aa).
  - eexists. split; [|reflexivity]. by destruct ns.
  - intros done name q Hin (ns' & [H1 H2] & ->). rewrite Forall_forall in Hsl. specialize (Hsl name Hin). pose proof (slug_field _ Hsl) as Hf.
    eapply runs_cons; [apply shown_name; [by vm_compute|done|]| |].
    + destruct name as [|d name]; [by destruct Hf|]. destruct (HasPrefix _ _) eqn:Hp; [|done]. exfalso.
      apply HasPrefix_spec in Hp as [r Hr]. injection Hr as -> _. destruct Hsl as (_ & _ & Hb). destruct (Hb 0%nat "#"%char eq_refl) as [Hb' _]. by vm_compute in Hb'.
    + intros n. by apply instance_line.
    + apply runs_nil. eexists. split; [|by rewrite set_mf_Services_twice, foldl_app]. done.
  - intros q (ns' & [H1 _] & ->). exists ss. split; [|done]. exists ns'. split; [done|]. by rewrite add_instances_unset, Hset.
Qed.

(** What the lines of a service do: [on] is whether they are written. *)
Definition add_ui (service : string) (b : bool) (s : Services) : Services :=
  if service == "sql" then set_sv_SQLManagementUI (sv_SQLManagementUI s || b) s
  else if service == "cache" then set_sv_CacheManagementUI (sv_CacheManagementUI s || b) s
  else if service == "key_value" then set_sv_KeyValueManagementUI (sv_KeyValueManagementUI s || b) s
  else if service == "document_database" then set_sv_DocumentDatabaseManagementUI (sv_DocumentDatabaseManagementUI s || b) s
  else if bool_decide (service ∈ ["messaging_queue"; "messaging_pubsub"; "messaging_stream"]) then
    set_sv_MessagingManagementUI (sv_MessagingManagementUI s || b) s
  else if service == "object_storage" then set_sv_ObjectStorageManagementUI (sv_ObjectStorageManagementUI s || b) s
  else if service == "secrets" then set_sv_SecretsManagementUI (sv_SecretsManagementUI s || b) s
  else if service == "identity" then set_sv_IdentityManagementUI (sv_IdentityManagementUI s || b) s
  else if service == "observability" then set_sv_ObservabilityManagementUI (sv_ObservabilityManagementUI s || b) s
  else s.

Lemma add_ui_spec x (b : bool) s : x ∈ known_services -> (if b then set_management_ui x true s else s) = add_ui x b s.
Proof.
  unfold known_services, instance_services. cbn [app]. intros Hx. destruct s.
  cases_of Hx; destruct b; unfold add_ui; cbn; rewrite ?orb_true_r, ?orb_false_r; reflexivity.
Qed.

Definition after (x : string) (enabled : bool) (l : Instances) (ui : bool) (s : Services) : Services :=
  add_ui x (ui && (enabled || has_instances l)) (set_service x (enabled || has_instances l) l s).

Definition block_lines (x : string) (enabled : bool) (l : Instances) : lines :=
  (2%nat, x +:+ ":") ::
  if bool_decide (l = ∅) then [(4%nat, "enabled: " +:+ bool_text enabled)]
  else (4%nat, list_field x +:+ ":") :: map (fun name => (6%nat, name +:+ ": {}")) (serviceInstanceNames true l).

Lemma listed_known x : x ∈ listed -> x ∈ known_services /\ x ∈ switched.
Proof. unfold listed, known_services, switched. set_solver. Qed.

Lemma set_enabled_unset x s : x ∈ listed -> unset x s -> set_enabled x true s = set_service x true ∅ s.
Proof.
  intros Hx Hu. rewrite <- Hu at 1. unfold listed, instance_services in Hx. cbn [app] in Hx. cases_of Hx; reflexivity.
Qed.

Lemma block_runs x enabled l ui c m aa names s p :
  x ∈ listed -> x ∉ names -> unset x s -> Forall slug (serviceInstanceNames enabled l) -> serving c m aa names s p ->
  runs (when (enabled || has_instances l) (block_lines x enabled l ++ writeManagementUIYAML ui)) p
    (serving c m aa (x :: names) (after x enabled l ui s)).
Proof.
  intros Hx Hn Hu Hsl Hp. destruct (listed_known x Hx) as [Hk Hsw]. unfold after, has_instances in *.
  apply runs_when; intros Hon; rewrite Hon.
  - rewrite andb_true_r, <- add_ui_spec by done. apply runs_app.
    eapply runs_mono with (Q := serving_on x c m aa (x :: names) (set_service x true l s)).
    2: { intros q Hq. eapply runs_mono; [by apply ui_runs|]. intros r. apply serving_on_weaken. }
    unfold block_lines. apply (runs_app [(2%nat, x +:+ ":")]). eapply runs_mono; [by apply header_runs|]. intros q Hq.
    case_bool_decide as Hl.
    + subst. rewrite orb_false_r in Hon. subst. rewrite <- set_enabled_unset by done. by apply enabled_runs.
    + apply instances_runs; try done. unfold serviceInstanceNames in *. by rewrite (bool_decide_eq_false_2 _ Hl) in *.
  - apply orb_false_iff in Hon as [He Hl]. rewrite andb_false_r, <- add_ui_spec by done. cbv iota.
    apply negb_false_iff, bool_decide_eq_true in Hl. subst. rewrite Hu. destruct Hp as (ss & Hp & Hss). exists ss. split; [done|set_solver].
Qed.

(** The services that are only switched on. *)
Lemma switch_runs x on ui c m aa names s p :
  x ∈ ["secrets"; "identity"] -> x ∉ names -> set_enabled x false s = s -> serving c m aa names s p ->
  runs (when on ([(2%nat, x +:+ ":"); (4%nat, "enabled: true")] ++ writeManagementUIYAML ui)) p
    (serving c m aa (x :: names) (add_ui x (ui && on) (set_enabled x on s))).
Proof.
  intros Hx Hn Hu Hp. assert (x ∈ known_services /\ x ∈ switched) as [Hk Hsw] by (unfold known_services, switched; set_solver).
  destruct on.
  - rewrite andb_true_r, <- add_ui_spec by done. cbn [when]. apply runs_app. apply (runs_app [(2%nat, x +:+ ":")]).
    eapply runs_mono; [by apply header_runs|]. intros q Hq. eapply runs_mono; [by apply (enabled_runs x true)|].
    intros r Hr. eapply runs_mono; [by apply ui_runs|]. intros t. apply serving_on_weaken.
  - apply runs_nil. rewrite andb_false_r, <- add_ui_spec by done. rewrite Hu. destruct Hp as (ss & Hp & Hss). exists ss. split; [done|set_solver].
Qed.

Lemma observability_runs ui c m aa names s p :
  "observability" ∉ names -> serving c m aa names s p ->
  runs (when ui ((2%nat, "observability:") :: writeManagementUIYAML true)) p (serving c m aa ("observability" :: names) (add_ui "observability" ui s)).
Proof.
  intros Hn Hp. assert ("observability" ∈ known_services) as Hk by (unfold known_services; set_solver). rewrite <- add_ui_spec by done. destruct ui.
  - cbn [when]. apply (runs_app [(2%nat, "observability:")]). eapply runs_mono; [by apply (header_runs "observability")|]. intros q Hq.
    eapply runs_mono; [by apply (ui_runs "observability" true)|]. intros t. apply serving_on_weaken.
  - apply runs_nil. destruct Hp as (ss & Hp & Hss). exists ss. split; [done|set_solver].
Qed.

(** ** All services *)

(** Membership in a list of names that are known. *)
Ltac member := apply (bool_decide_unpack _); vm_compute; exact I.

Lemma unset_after x y enabled l ui t :
  x ∈ listed -> y ∈ listed -> y <> x -> unset y t -> unset y (after x enabled l ui t).
Proof.
  intros Hx Hy Hne Hu. unfold unset, after in *. rewrite <- Hu at 2. rewrite <- Hu at 1.
  generalize (enabled || has_instances l) as on. intros on. generalize (ui && on) as b. intros b.
  unfold listed, instance_services in Hx, Hy. cbn [app] in Hx, Hy. cases_of Hx; cases_of Hy; first [reflexivity|done].
Qed.

(** A service that is only switched on has not been. *)
Definition off (x : string) (t : Services) : Prop := set_enabled x false t = t.

Lemma off_after x y enabled l ui t : x ∈ listed -> y ∈ ["secrets"; "identity"] -> off y t -> off y (after x enabled l ui t).
Proof.
  intros Hx Hy Hu. unfold off, after in *. rewrite <- Hu at 2. rewrite <- Hu at 1.
  generalize (enabled || has_instances l) as on. intros on. generalize (ui && on) as b. intros b.
  unfold listed, instance_services in Hx. cbn [app] in Hx. cases_of Hx; cases_of Hy; reflexivity.
Qed.

Definition after_messaging (s : Services) (t : Services) : Services :=
  let queue := sv_MessagingQueue s || has_instances (sv_MessagingQueueInstances s) in
  let pubsub := sv_MessagingPubSub s || has_instances (sv_MessagingPubSubInstances s) in
  let ui := sv_MessagingManagementUI s in
  after "messaging_stream" (sv_MessagingStream s) (sv_MessagingStreamInstances s) (ui && negb (queue || pubsub))
    (after "messaging_pubsub" (sv_MessagingPubSub s) (sv_MessagingPubSubInstances s) (ui && negb queue)
      (after "messaging_queue" (sv_MessagingQueue s) (sv_MessagingQueueInstances s) ui t)).

Definition instances_slugs (s : Services) : Prop :=
  Forall slug (serviceInstanceNames (sv_SQL s) (sv_SQLInstances s)) /\
  Forall slug (serviceInstanceNames (sv_Cache s) (sv_CacheInstances s)) /\
  Forall slug (serviceInstanceNames (sv_KeyValue s) (sv_KeyValueInstances s)) /\
  Forall slug (serviceInstanceNames (sv_DocumentDatabase s) (sv_DocumentDatabaseInstances s)) /\
  Forall slug (serviceInstanceNames (sv_ObjectStorage s) (sv_ObjectStorageBuckets s)) /\
  Forall slug (serviceInstanceNames (sv_MessagingQueue s) (sv_MessagingQueueInstances s)) /\
  Forall slug (serviceInstanceNames (sv_MessagingPubSub s) (sv_MessagingPubSubInstances s)) /\
  Forall slug (serviceInstanceNames (sv_MessagingStream s) (sv_MessagingStreamInstances s)).

Lemma after_messaging_keep (P : Services -> Prop) s t :
  (forall x enabled l ui t, x ∈ ["messaging_queue"; "messaging_pubsub"; "messaging_stream"] -> P t -> P (after x enabled l ui t)) ->
  P t -> P (after_messaging s t).
Proof. intros H Ht. unfold after_messaging. cbv zeta. apply H; [member|]. apply H; [member|]. apply H; [member|done]. Qed.

Lemma messaging_runs s t c m aa names p :
  instances_slugs s -> Forall (fun x => x ∉ names /\ unset x t) ["messaging_queue"; "messaging_pubsub"; "messaging_stream"] ->
  serving c m aa names t p ->
  runs (messaging_lines s) p (serving c m aa ("messaging_stream" :: "messaging_pubsub" :: "messaging_queue" :: names) (after_messaging s t)).
Proof.
  intros (_ & _ & _ & _ & _ & H1 & H2 & H3) Hn Hp. rewrite !Forall_cons in Hn. destruct Hn as ((Hn1 & Hu1) & (Hn2 & Hu2) & (Hn3 & Hu3) & _).
  unfold messaging_lines. cbv zeta. apply runs_app.
  eapply runs_mono; [refine (block_runs "messaging_queue" _ _ _ _ _ _ _ _ _ _ Hn1 Hu1 H1 Hp); member|]. intros q Hq. apply runs_app.
  eapply runs_mono; [refine (block_runs "messaging_pubsub" _ _ _ _ _ _ _ _ _ _ _ _ H2 Hq); [member|set_solver|by apply unset_after; [member..| |]]|].
  intros r Hr. refine (block_runs "messaging_stream" _ _ _ _ _ _ _ _ _ _ _ _ H3 Hr); [member|set_solver|].
  apply unset_after; [member..|done|]. by apply unset_after; [member..| |].
Qed.

Definition after_services (s : Services) : Services :=
  add_ui "observability" (sv_ObservabilityManagementUI s)
    (add_ui "identity" (sv_IdentityManagementUI s && sv_Identity s) (set_enabled "identity" (sv_Identity s)
      (add_ui "secrets" (sv_SecretsManagementUI s && sv_Secrets s) (set_enabled "secrets" (sv_Secrets s)
        (after "object_storage" (sv_ObjectStorage s) (sv_ObjectStorageBuckets s) (sv_ObjectStorageManagementUI s)
          (after_messaging s
            (after "document_database" (sv_DocumentDatabase s) (sv_DocumentDatabaseInstances s) (sv_DocumentDatabaseManagementUI s)
              (after "key_value" (sv_KeyValue s) (sv_KeyValueInstances s) (sv_KeyValueManagementUI s)
                (after "cache" (sv_Cache s) (sv_CacheInstances s) (sv_CacheManagementUI s)
                  (after "sql" (sv_SQL s) (sv_SQLInstances s) (sv_SQLManagementUI s) no_Services)))))))))).

Lemma off_secrets b on t : off "identity" t -> off "identity" (add_ui "secrets" b (set_enabled "secrets" on t)).
Proof. unfold off. intros Hu. rewrite <- Hu at 2. rewrite <- Hu at 1. reflexivity. Qed.

(** The other services do not touch a service. *)
Ltac untouched :=
  lazymatch goal with
  | |- set_enabled ?x false ?t = ?t => change (off x t); untouched
  | |- unset _ no_Services => reflexivity
  | |- off _ no_Services => reflexivity
  | |- unset _ (after _ _ _ _ _) => apply unset_after; [member|member|done|untouched]
  | |- off _ (after _ _ _ _ _) => apply off_after; [member|member|untouched]
  | |- unset ?y (after_messaging _ _) =>
      apply (after_messaging_keep (unset y)); [intros x ? ? ? ? Hx; apply unset_after; [cases_of Hx; member|member|cases_of Hx; done]|untouched]
  | |- off ?y (after_messaging _ _) =>
      apply (after_messaging_keep (off y)); [intros x ? ? ? ? Hx; apply off_after; [cases_of Hx; member|member]|untouched]
  end.

Lemma service_blocks_runs s c m aa p :
  instances_slugs s -> hasManifestServices s = true -> serving c m aa [] no_Services p ->
  runs (tail (services_lines s)) p (fun q => exists names, serving c m aa names (after_services s) q).
Proof.
  intros Hi Hon Hp. pose proof Hi as (H1 & H2 & H3 & H4 & H5 & _). unfold services_lines. rewrite Hon. cbn [when app tail].
  apply runs_app. eapply runs_mono; [refine (block_runs "sql" _ _ _ _ _ _ _ _ _ _ _ _ H1 Hp); [member|member|reflexivity]|]. intros p1 Hp1.
  apply runs_app. eapply runs_mono; [refine (block_runs "cache" _ _ _ _ _ _ _ _ _ _ _ _ H2 Hp1); [member|member|untouched]|]. intros p2 Hp2.
  apply runs_app. eapply runs_mono; [refine (block_runs "key_value" _ _ _ _ _ _ _ _ _ _ _ _ H3 Hp2); [member|member|untouched]|]. intros p3 Hp3.
  apply runs_app. eapply runs_mono; [refine (block_runs "document_database" _ _ _ _ _ _ _ _ _ _ _ _ H4 Hp3); [member|member|untouched]|]. intros p4 Hp4.
  apply runs_app. eapply runs_mono; [refine (messaging_runs s _ _ _ _ _ _ Hi _ Hp4)|].
  { rewrite !Forall_cons. split_and!; [member|untouched|member|untouched|member|untouched|by apply Forall_nil_2]. }
  intros p5 Hp5.
  apply runs_app. eapply runs_mono; [refine (block_runs "object_storage" _ _ _ _ _ _ _ _ _ _ _ _ H5 Hp5); [member|member|untouched]|]. intros p6 Hp6.
  apply runs_app. eapply runs_mono; [refine (switch_runs "secrets" _ _ _ _ _ _ _ _ _ _ _ Hp6); [member|member|untouched]|]. intros p7 Hp7.
  apply runs_app. eapply runs_mono; [refine (switch_runs "identity" _ _ _ _ _ _ _ _ _ _ _ Hp7); [member|member|]|].
  { apply off_secrets. untouched. }
  intros p8 Hp8.
  eapply runs_mono; [refine (observability_runs _ _ _ _ _ _ _ _ Hp8); member|]. intros p9 Hp9. by eexists.
Qed.

(** Nothing is lost: the services read are those of the canonical form. *)
Lemma no_names enabled l : enabled || has_instances l = false -> serviceInstanceNames enabled l = [].
Proof.
  unfold has_instances, serviceInstanceNames. rewrite orb_false_iff, negb_false_iff, bool_decide_eq_true. intros [-> ->]. done.
Qed.

(** The interface of the messaging services needs one of them. *)
Lemma messaging_ui_on s :
  ui_ok s -> sv_MessagingManagementUI s = true ->
  (sv_MessagingQueue s || has_instances (sv_MessagingQueueInstances s)) ||
  ((sv_MessagingPubSub s || has_instances (sv_MessagingPubSubInstances s)) ||
   (sv_MessagingStream s || has_instances (sv_MessagingStreamInstances s))) = true.
Proof.
  unfold ui_ok, ui_items. rewrite !Forall_cons. intros (_ & _ & _ & _ & U & _) Hui. specialize (U Hui).
  apply negb_true_iff, is_nil_false in U.
  destruct (_ || _) eqn:H; [done|]. rewrite !(orb_false_iff (_ || _)) in H. destruct H as (H1 & H2 & H3). exfalso. apply U.
  unfold RabbitMQInstanceNames, MessagingQueueInstanceNames, MessagingPubSubInstanceNames, MessagingStreamInstanceNames.
  cbn [mf_Services set_mf_Services]. by rewrite !no_names.
Qed.

Lemma after_services_canonical s : ui_ok s -> after_services s = canonical_services s.
Proof.
  intros Hu. pose proof (messaging_ui_on s Hu) as U5. revert Hu.
  unfold ui_ok, ui_items. rewrite !Forall_cons. intros (U1 & U2 & U3 & U4 & _ & U6 & U7 & U8 & _).
  assert (forall a b : bool, (a = true -> b = true) -> a && b = a) as Hab by (intros [] []; naive_solver).
  unfold after_services, after_messaging, after. cbv zeta.
  rewrite (Hab _ _ U1), (Hab _ _ U2), (Hab _ _ U3), (Hab _ _ U4), (Hab _ _ U6), (Hab _ _ U7), (Hab _ _ U8).
  revert U5. unfold canonical_services.
  generalize (sv_MessagingQueue s || has_instances (sv_MessagingQueueInstances s))
    (sv_MessagingPubSub s || has_instances (sv_MessagingPubSubInstances s))
    (sv_MessagingStream s || has_instances (sv_MessagingStreamInstances s)) (sv_MessagingManagementUI s).
  intros queue pubsub stream ui U5. cbv -[has_instances andb orb negb]. rewrite !orb_false_l. f_equal.
  destruct ui, queue, pubsub, stream; simpl in *; first [done|by specialize (U5 eq_refl)].
Qed.

Lemma has_instances_false l : has_instances l = false -> l = ∅.
Proof. unfold has_instances. by rewrite negb_false_iff, bool_decide_eq_true. Qed.

Lemma implied_false (a b : bool) : (a = true -> b = true) -> b = false -> a = false.
Proof. destruct a, b; naive_solver. Qed.

(** Without services there is nothing to write. *)
Lemma no_services_canonical s : ui_ok s -> hasManifestServices s = false -> canonical_services s = no_Services.
Proof.
  intros Hu Hoff. pose proof (implied_false _ _ (messaging_ui_on s Hu)) as U5. revert Hu.
  unfold ui_ok, ui_items. rewrite !Forall_cons. intros (U1 & U2 & U3 & U4 & _ & U6 & U7 & U8 & _).
  unfold hasManifestServices in Hoff. rewrite !orb_false_iff in Hoff. destruct_and?.
  repeat match goal with H : has_instances _ = false |- _ => apply has_instances_false in H end.
  unfold canonical_services, has_instances in *.
  repeat match goal with H : ?l = (∅ : Instances) |- _ => rewrite H in * end.
  repeat match goal with H : ?b s = false |- _ => rewrite H in * end. simpl in *.
  rewrite (implied_false _ _ U1 eq_refl), (implied_false _ _ U2 eq_refl), (implied_false _ _ U3 eq_refl), (implied_false _ _ U4 eq_refl),
    (U5 eq_refl), (implied_false _ _ U6 eq_refl), (implied_false _ _ U7 eq_refl), (implied_false _ _ U8 eq_refl). reflexivity.
Qed.

Lemma services_runs c m0 aa s p :
  instances_slugs s -> ui_ok s -> mf_Services m0 = no_Services -> at_ c m0 ∅ aa p ->
  runs (services_lines s) p (fun q => exists ss, at_ c (set_mf_Services (canonical_services s) m0) ss aa q).
Proof.
  intros Hi Hu H0 (sec & ns & ->). destruct (hasManifestServices s) eqn:Hon.
  - rewrite <- (after_services_canonical s Hu).
    assert (services_lines s = (0%nat, "services:") :: tail (services_lines s)) as -> by (unfold services_lines; by rewrite Hon).
    line. eapply runs_mono; [apply (service_blocks_runs s c m0 aa); [done|done|]|].
    + exists ∅. split; [|done]. eexists. same m0.
    + intros q (names & ss & Hq & _). exists ss. by apply within_at in Hq.
  - rewrite (no_services_canonical s Hu Hon). unfold services_lines. rewrite Hon. apply runs_nil. exists ∅, sec, ns. same m0.
Qed.
