(* ===== verification/ManifestExact.v ===== *)
(** * Round trip of manifests

    A manifest that the parser can have built and that is valid is written as
    a text that the parser reads back as its canonical form. *)

From S2P Require Import Prelude GoStrings StableId Availability Capability Manifest ManifestValidate ManifestYAML ManifestFacts ManifestText.
From S2P Require Import ManifestRoundtrip ManifestServices.

(** ** Tidy manifests

    What the grammar guarantees of the free texts of a manifest: they are
    trimmed and have no line feed. *)

Definition tidy_consumption (c : ConsumptionRequirement) : Prop :=
  clean (cn_Name c) /\ clean (cn_ApplicationID c) /\ clean (cn_Component c) /\ clean (cn_Interface c) /\ clean (cn_Protocol c).

Definition tidy_permission (p : RuntimePermission) : Prop := clean (rp_Capability p) /\ Forall clean (rp_Operations p).

Definition tidy_identity (i : IdentityRequirements) : Prop :=
  Forall clean (ir_CallbackPaths i) /\ Forall clean (ir_LogoutPaths i) /\ Forall clean (ir_Scopes i) /\ Forall clean (ir_Claims i) /\
  clean (ia_MFA (ir_Authentication i)) /\ Forall clean (ia_Methods (ir_Authentication i)).

Definition tidy_overrides (av : gmap string Override) : Prop :=
  map_Forall (fun x o => clean x /\ HasPrefix x "#" = false /\ (ov_Instances o <= max_int)%Z) av.

Definition tidy (m : Manifest) : Prop :=
  clean (mf_ApplicationID m) /\ Forall tidy_consumption (mf_Consumes m) /\ tidy_overrides (mf_Availability m) /\
  match te_OTLP (mf_Telemetry m) with Some o => Forall clean (ot_Signals o) | None => True end /\
  Forall (fun s => clean (ms_Path s)) (me_Sources (mf_Metrics m)) /\ Forall clean (lr_Collect (mf_Logs m)) /\
  Forall tidy_permission (ru_Permissions (mf_Runtime m)) /\ tidy_identity (mf_Identity m).

(** ** The values of valid and tidy manifests are fields *)

Lemma Forall_and2 {A} (P Q R : A -> Prop) l : (forall x, P x -> Q x -> R x) -> Forall P l -> Forall Q l -> Forall R l.
Proof. intros H HP HQ. rewrite Forall_forall in *. auto. Qed.

Lemma field_trimmed s : clean s -> TrimSpace s <> "" -> field s.
Proof. intros Hc Hs. split; [done|]. intros ->. by apply Hs. Qed.

(** A trimmed value that is one of a list of names. *)
Lemma field_of_member s (l : list string) : clean s -> TrimSpace s ∈ l -> "" ∉ l -> field s.
Proof. intros Hc Hs Hl. apply field_trimmed; [done|]. intros He. by rewrite He in Hs. Qed.

Lemma consumption_field current c : consumption_ok current c -> tidy_consumption c -> consumption_fields c.
Proof.
  intros (H1 & _ & H3 & H4 & _) (C1 & C2 & C3 & C4 & C5).
  split_and!; [|done| | |done]; (apply field_trimmed; [done|]); [apply H1|apply H3|done].
Qed.

Lemma component_fields l : Forall component_name l -> Forall field l.
Proof. intros H. eapply Forall_impl; [exact H|]. intros s. apply component_name_field. Qed.

Lemma port_range port : port_ok port -> (min_int <= port <= max_int)%Z.
Proof. unfold port_ok, min_int, max_int. lia. Qed.

Lemma source_field w s : source_ok w s -> clean (ms_Path s) -> source_fields s.
Proof.
  intros (H1 & H2 & _ & H4 & H5 & _) Hc. split_and!; [by apply slug_field|by apply component_name_field|by apply port_range..|].
  split; [done|]. by apply (HasPrefix_nonempty _ "/"%char "").
Qed.

Lemma name_field (s : string) (l : list string) : s ∈ l -> Forall field l -> field s.
Proof. intros Hs Hl. rewrite Forall_forall in Hl. auto. Qed.

Lemma exposure_field w e : exposure_ok w e -> exposure_fields e.
Proof.
  intros (H1 & H2 & _ & H4 & H5 & H6). split_and!; [by apply slug_field|by apply component_name_field|by apply port_range..| |].
  - eapply name_field; [exact H5|apply (bool_decide_unpack _); by vm_compute].
  - eapply name_field; [exact H6|apply (bool_decide_unpack _); by vm_compute].
Qed.

Lemma permission_field w p : permission_ok w p -> tidy_permission p -> permission_fields p.
Proof.
  intros ((spec & Hspec & Hid) & _ & (Hs & _) & _ & (Ho & _)) (C1 & C2). split_and!.
  - apply field_trimmed; [done|]. rewrite <- Hid.
    assert (Forall (fun s => spec_ID s <> "") Specifications) as Hall by (apply (bool_decide_unpack _); by vm_compute).
    rewrite Forall_forall in Hall. by apply Hall.
  - eapply Forall_impl; [exact Hs|]. intros s [Hn _]. by apply component_name_field.
  - eapply Forall_and2; [|exact C2|exact Ho]. intros o Hc Hin. eapply field_of_member; [done|exact Hin|].
    apply (bool_decide_unpack _). by vm_compute.
Qed.

Lemma secret_field_ok r : secret_ok r -> secret_fields r.
Proof. intros [[H _] Hg]. split; [by apply component_name_field|done]. Qed.

Lemma identity_field enabled i : identity_ok enabled i -> tidy_identity i -> identity_fields_ok i /\ (enabled = false -> canonical_identity i = no_Identity).
Proof.
  intros Hi (C1 & C2 & C3 & C4 & C5 & C6). unfold identity_ok in Hi. destruct enabled.
  - destruct Hi as ([H1 _] & [H2 _] & [H3 _] & [H4 _] & (_ & [H5 _] & _)). split; [|done].
    assert (forall l, Forall clean l -> Forall path_ok l -> Forall field l) as Hpath.
    { intros l. apply Forall_and2. intros s Hc (Hp & _ & _). apply field_trimmed; [done|]. by apply (HasPrefix_nonempty _ "/"%char ""). }
    assert (forall l, Forall clean l -> Forall word_ok l -> Forall field l) as Hword.
    { intros l. apply Forall_and2. intros s Hc (Hp & _). by apply field_trimmed. }
    split_and!; [by apply Hpath..|by apply Hword|by apply Hword|done|].
    eapply Forall_and2; [|exact C6|exact H5]. intros s Hc Hm. apply field_trimmed; [done|]. intros He.
    unfold method_ok, method_key in Hm. rewrite He in Hm. revert Hm. apply (bool_decide_unpack _). by vm_compute.
  - destruct i as [cb lo sc cl [mfa me pw]]. destruct Hi as (H1 & H2 & H3 & H4 & H5 & H6 & H7). simpl in *. subst.
    rewrite trimmed_TrimSpace in H5 by apply C5. subst. split; [|done]. split_and!; [constructor..|done|constructor].
Qed.

Lemma override_field i : intent_ok i -> tidy_overrides (in_Overrides i) -> override_fields (in_Overrides i).
Proof.
  intros Hi Ht x o Ho. destruct (Ht x o Ho) as (Hc & Hh & Hm), (Hi x o Ho) as (Hx & Hn & _).
  split_and!; [by apply field_trimmed|done|done|done].
Qed.

Lemma log_field s : clean s -> log_key s = "application" -> field s.
Proof. intros Hc Hl. split; [done|]. by intros ->. Qed.

(** ** The identity of the application *)

Definition app_state (m m0 : Manifest) : Manifest :=
  set_mf_HA (mf_HA m) (set_mf_Environment (mf_Environment m) (set_mf_Name (mf_Name m) (set_mf_ApplicationID (mf_ApplicationID m)
    (set_mf_Version (mf_Version m) m0)))).

Definition set_app (k v : string) (m : Manifest) : Manifest :=
  if k == "id" then set_mf_ApplicationID v m else if k == "name" then set_mf_Name v m else set_mf_Environment v m.

Lemma app_field_line n k v c m ns ss aa :
  k ∈ ["id"; "name"; "environment"] -> k ∉ aa -> (k = "id" -> c = true) -> field v ->
  parseLine n 2 (k +:+ ": " +:+ v) (mkParser c m "app" ns ss aa) =
  Ok (mkParser c (set_app k v m) "app" (set_ns_secretGenerate false (set_ns_secretIndex (-1) (set_ns_serviceField "" ns))) ss ({[k]} ∪ aa)).
Proof.
  intros Hk Ha Hc Hv. unfold parseLine, parseIndent2. cbv zeta.
  change (section (nested _ _) "consumes") with false. change (section (nested _ _) "availability") with false.
  change (section (nested _ _) "app") with true. cbv [andb]. cbv iota. unfold parseAppField.
  change (": " +:+ v) with (String ":" (String " " v)). rewrite (Cut_name k (String " " v)) by (cases_of Hk; by vm_compute). cbv beta iota zeta. rewrite !reject_seq.
  rewrite trim_field_space by done. cbn [negb ps_appSeen nested set_ps_nested]. rewrite (bool_decide_eq_false_2 _ Ha). unfold set_app.
  cases_of Hk; [rewrite Hc by done|..]; reflexivity.
Qed.

Definition in_app (c : bool) (m : Manifest) (seen : list string) (p : Parser) : Prop :=
  exists aa, within c "app" m ∅ aa p /\ aa ⊆ list_to_set seen.

Lemma app_field_runs k v c m seen p :
  k ∈ ["id"; "name"; "environment"] -> k ∉ seen -> (k = "id" -> c = true) -> field v -> in_app c m seen p ->
  runs [(2%nat, k +:+ ": " +:+ v)] p (in_app c (set_app k v m) (k :: seen)).
Proof.
  intros Hk Hs Hc Hv (aa & [ns ->] & Ha). eapply runs_cons; [cases_of Hk; text| |].
  - intros n. apply app_field_line; [done|set_solver|done|done].
  - apply runs_nil. exists ({[k]} ∪ aa). split; [by eexists|set_solver].
Qed.

Lemma app_runs c m :
  mf_Version m = CurrentVersion -> (mf_ApplicationID m <> "" -> c = true /\ field (mf_ApplicationID m)) -> field (mf_Name m) ->
  field (mf_Environment m) ->
  runs (app_lines m) (newManifestYAMLParser c) (fun q => exists aa, at_ c (app_state m no_Manifest) ∅ aa q).
Proof.
  unfold app_lines, app_state. destruct m as [pp bp version id name environment sv se wc ex te me lr ru ir ha av cn]. simpl.
  intros -> Hid Hn He. unfold newManifestYAMLParser.
  apply (runs_app [(0%nat, "version: " +:+ Itoa CurrentVersion); (0%nat, "app:")]).
  eapply runs_mono with (Q := in_app c (set_mf_Version CurrentVersion no_Manifest) []).
  { generalize no_Manifest. intros m0. line. line. apply runs_nil. exists ∅. split; [by eexists|set_solver]. }
  intros p1 Hp1. apply runs_app.
  eapply runs_mono with (Q := in_app c (set_mf_ApplicationID id (set_mf_Version CurrentVersion no_Manifest)) ["id"]).
  { apply runs_when.
    - intros Hne%neqb_true. destruct (Hid Hne) as [-> Hf]. apply (app_field_runs "id" id); [member|member|done|done|done].
    - intros ->%neqb_false. destruct Hp1 as (aa & Hp & Ha). exists aa. split; [done|set_solver]. }
  intros p2 Hp2. apply (runs_app [(2%nat, "name: " +:+ name)]).
  eapply runs_mono; [refine (app_field_runs "name" name _ _ _ _ _ _ _ Hn Hp2); [member|member|done]|]. intros p3 Hp3.
  apply (runs_app [(2%nat, "environment: " +:+ environment)]).
  eapply runs_mono; [refine (app_field_runs "environment" environment _ _ _ _ _ _ _ He Hp3); [member|member|done]|].
  intros p4 (aa & [ns ->] & _). change (set_app "environment" environment (set_app "name" name ?m)) with (set_mf_Environment environment (set_mf_Name name m)).
  destruct ha.
  - generalize (set_mf_ApplicationID id (set_mf_Version CurrentVersion no_Manifest)). intros m0. cbn [when]. line. apply runs_nil. by eexists _, _, _.
  - apply runs_nil. by exists aa, "app", ns.
Qed.

(** ** The whole serialisation *)

(** The identity itself may have been left out, as in an authored text. *)
Lemma yaml_runs c id m :
  valid false (set_mf_ApplicationID id m) -> tidy m -> (mf_ApplicationID m <> "" -> c = true) ->
  runs (yaml_lines m) (newManifestYAMLParser c) (fun q => ps_manifest q = canonical m).
Proof.
  intros ((V1 & V2 & V3 & V4) & (V5 & V6) & [V7 _] & _ & (V8 & _) & V9 & V10 & _ & (_ & [V11 _]) & [V12 _] & (_ & [V13 _]) & V14 & [V15 _] & (_ & [V16 _]) & [V17 _]).
  intros (T1 & T2 & T3 & T4 & T5 & T6 & T7 & T8) Hc.
  destruct (identity_field _ _ V10 T8) as [I1 I2]. apply Forall_app in V11 as [V11 V11'].
  unfold yaml_lines. apply runs_app.
  eapply runs_mono; [apply app_runs; [done|intros Hn; split; [by apply Hc|done]|by apply slug_field..]|]. intros p1 (aa & H1).
  apply runs_app. eapply runs_mono; [refine (availability_runs _ _ _ _ _ _ _ _ H1); [apply (override_field _ V5 T3)|reflexivity]|]. intros p2 H2.
  apply runs_app. eapply runs_mono; [refine (consumes_runs _ _ _ _ _ _ _ _ H2); try reflexivity|].
  { eapply Forall_and2; [|exact V7|exact T2]. intros x. apply consumption_field. }
  intros p3 H3. apply runs_app. eapply runs_mono; [refine (services_runs _ _ _ _ _ _ V9 _ H3); try reflexivity|].
  { rewrite !Forall_cons in V8. destruct V8 as (? & ? & ? & ? & ? & ? & ? & ? & _). done. }
  intros p4 (ss & H4). apply runs_app. eapply runs_mono; [refine (identity_runs _ _ _ _ _ _ I1 I2 _ H4); try reflexivity|].
  intros p5 H5. apply runs_app. eapply runs_mono; [refine (secrets_runs _ _ _ _ _ _ _ _ _ H5); try reflexivity|].
  { eapply Forall_impl; [exact V11|]. apply secret_field_ok. } { eapply Forall_impl; [exact V11'|]. apply secret_field_ok. }
  intros p6 H6. apply runs_app. eapply runs_mono; [refine (runtime_runs _ _ _ _ _ _ _ _ H6); try reflexivity|].
  { eapply Forall_and2; [|exact V17|exact T7]. intros x. apply permission_field. }
  intros p7 H7. apply runs_app. eapply runs_mono; [refine (workload_runs _ _ _ _ _ _ (component_fields _ V12) _ H7); try reflexivity|].
  intros p8 H8. apply runs_app. eapply runs_mono; [refine (metrics_runs _ _ _ _ _ _ _ _ H8); try reflexivity|].
  { eapply Forall_and2; [|exact V15|exact T5]. intros x. apply source_field. }
  intros p9 H9. apply runs_app. eapply runs_mono; [refine (logs_runs _ _ _ _ _ _ _ _ H9); try reflexivity|].
  { eapply Forall_and2; [|exact T6|exact V16]. intros x Hx Hl. apply log_field; done. }
  intros p10 H10. apply runs_app. eapply runs_mono; [refine (telemetry_runs _ _ _ _ _ _ _ _ H10); try reflexivity|].
  { destruct (te_OTLP _) as [o|]; [|done]. destruct V14 as (_ & _ & V14 & _). eapply Forall_and2; [|exact T4|exact V14].
    intros x Hx Hs. eapply field_of_member; [done|exact Hs|member]. }
  intros p11 H11. eapply runs_mono; [refine (exposures_runs _ _ _ _ _ _ _ _ H11); try reflexivity|].
  { eapply Forall_impl; [exact V13|]. intros x. apply exposure_field. }
  intros q (sec & ns & ->). reflexivity.
Qed.
