(* ===== verification/ManifestTidy.v ===== *)
(** * Manifests that come from a text are tidy

    The invariant of the parser: whatever it has read, the free texts of its
    manifest are trimmed and have no line feed, and an authored text never sets
    the identity of the application. *)

From S2P Require Import Prelude GoStrings StableId Availability Capability Manifest ManifestValidate ManifestYAML ManifestFacts ManifestText.
From S2P Require Import ManifestRoundtrip ManifestServices ManifestExact.

(** ** Values cut out of a line *)

Definition flat (s : string) : Prop := has_byte lf s = false.

Lemma flat_app s t : flat (s +:+ t) <-> flat s /\ flat t.
Proof. unfold flat. by rewrite has_byte_app, orb_false_iff. Qed.

Lemma flat_TrimPrefix s p : flat s -> flat (TrimPrefix s p).
Proof.
  unfold TrimPrefix. destruct (strip_prefix p s) as [r|] eqn:H; [|done]. apply strip_prefix_spec in H as ->. rewrite flat_app. tauto.
Qed.

Lemma flat_rev s : flat (String.rev s) <-> flat s.
Proof. unfold flat. by rewrite has_byte_rev. Qed.

Lemma flat_TrimSuffix s p : flat s -> flat (TrimSuffix s p).
Proof. unfold TrimSuffix. rewrite flat_rev. intros H. apply flat_TrimPrefix. by rewrite flat_rev. Qed.

Lemma flat_Cut s c k v b : flat s -> Cut s c = (k, v, b) -> flat v.
Proof.
  revert k v b. induction s as [|d s IH]; intros k v b Hs; simpl; [by intros [= <- <- <-]|].
  apply (flat_app (String d "") s) in Hs as [_ Hs]. destruct (decide (d = c)); [by intros [= <- <- <-]|].
  destruct (Cut s c) as [[k' v'] b'] eqn:Hc. intros [= <- <- <-]. by eapply IH.
Qed.

Lemma flat_TrimSpace s : flat s -> flat (TrimSpace s).
Proof. apply has_byte_TrimSpace. Qed.

Lemma clean_cut s : flat s -> clean (TrimSpace s).
Proof. apply clean_TrimSpace. Qed.

Lemma clean_nil : clean "".
Proof. apply (bool_decide_unpack _). by vm_compute. Qed.

Lemma clean_flat s : clean s -> flat s.
Proof. by intros [_ H]. Qed.

Lemma clean_item s : flat s -> clean (item_of s).
Proof. intros H. by apply clean_cut, flat_TrimPrefix. Qed.

Lemma key_value_clean s e k v : flat s -> key_value s e = Ok (k, v) -> clean v.
Proof.
  intros Hs. unfold key_value. destruct (Cut s ":") as [[k' v'] b] eqn:Hc. destruct b; [|done].
  intros [= <- <-]. apply clean_cut. by eapply flat_Cut.
Qed.

Lemma parse_named_clean n what key s v : flat s -> parse_named n what key s = Ok v -> clean v.
Proof.
  intros Hs. unfold parse_named. destruct (Cut (item_of s) ":") as [[k' v'] b] eqn:Hc. rewrite reject_seq_Ok. intros [_ [= <-]].
  apply clean_cut. eapply flat_Cut; [|exact Hc]. by apply clean_flat, clean_item.
Qed.

Lemma Atoi_range s n : Atoi s = Some n -> (min_int <= n <= max_int)%Z.
Proof.
  unfold Atoi. destruct (match s with EmptyString => _ | String _ _ => _ end) as [neg body]. destruct body; [done|].
  destruct (atoi_digits _ _) as [v|]; cbn [mbind option_bind]; [|done].
  destruct (_ && _) eqn:H; [|done]. apply andb_true_iff in H as [H1%Z.leb_le H2%Z.leb_le]. intros [= <-]. done.
Qed.

Create HintDb tidy.
#[export] Hint Resolve clean_nil clean_item clean_cut clean_flat flat_TrimPrefix flat_TrimSuffix flat_TrimSpace flat_Cut : tidy.

(** ** Components of overrides *)

Definition component_text (s : string) : Prop := clean s /\ HasPrefix s "#" = false.

Lemma TrimSpace_prefix s : strip_any space_runes s = None -> exists t, s = TrimSpace s +:+ t.
Proof.
  intros H. unfold TrimSpace. unfold TrimLeftSpace. rewrite (trim_left_id _ _ H). apply TrimRightSpace_prefix.
Qed.

Lemma HasPrefix_one_app s t c : HasPrefix s (String c "") = true -> HasPrefix (s +:+ t) (String c "") = true.
Proof. rewrite !HasPrefix_spec. intros [r ->]. exists (r +:+ t). by rewrite string_app_assoc. Qed.

Lemma TrimSuffix_prefix s p : exists t, s = TrimSuffix s p +:+ t.
Proof.
  unfold TrimSuffix, TrimPrefix. destruct (strip_prefix _ _) as [r|] eqn:H.
  - apply strip_prefix_spec in H. exists p. apply (f_equal String.rev) in H. by rewrite rev_involutive, rev_app_distr, rev_involutive in H.
  - exists "". by rewrite rev_involutive, string_app_nil_r.
Qed.

Lemma component_of_line s : shown s -> component_text (TrimSpace (TrimSuffix s ":")).
Proof.
  intros [[[[Hl _] Hf] _] Hh]. split; [by apply clean_cut, flat_TrimSuffix|].
  destruct (TrimSuffix_prefix s ":") as [t Ht].
  assert (strip_any space_runes (TrimSuffix s ":") = None) as Hn by (rewrite Ht in Hl; by apply strip_any_None_prefix in Hl).
  destruct (TrimSpace_prefix _ Hn) as [u Hu]. destruct (HasPrefix (TrimSpace _) "#") eqn:Hp; [|done].
  exfalso. apply (HasPrefix_one_app _ u) in Hp. rewrite <- Hu in Hp. apply (HasPrefix_one_app _ t) in Hp. rewrite <- Ht in Hp. congruence.
Qed.

(** ** The invariant *)

Definition inv (c : bool) (p : Parser) : Prop :=
  ps_canonical p = c /\ tidy (ps_manifest p) /\ component_text (ns_availabilityComponent (ps_nested p)) /\
  (c = false -> mf_ApplicationID (ps_manifest p) = "").

(** Steps of the parser: what a change of the manifest has to respect. *)
Definition keeps_tidy (f : Manifest -> Manifest) : Prop :=
  forall m, tidy m -> tidy (f m) /\ mf_ApplicationID (f m) = mf_ApplicationID m.

Lemma inv_change c p f : keeps_tidy f -> inv c p -> inv c (change p f).
Proof. intros Hf (H1 & H2 & H3 & H4). destruct (Hf _ H2) as [Ht Hid]. split_and!; [done|done|done|]. cbn. by rewrite Hid. Qed.

Lemma inv_nested c p f : (forall s, ns_availabilityComponent (f s) = ns_availabilityComponent s) -> inv c p -> inv c (nested p f).
Proof. intros Hf (H1 & H2 & H3 & H4). split_and!; [done|done| |done]. cbn. by rewrite Hf. Qed.


Lemma inv_reset c p : inv c p -> inv c (resetNestedState p).
Proof. intros (H1 & H2 & _ & H4). split_and!; [done|done| |done]. apply (bool_decide_unpack _). by vm_compute. Qed.

Lemma inv_section c s p : inv c p -> inv c (set_ps_section s p).
Proof. done. Qed.

Lemma inv_serviceSeen c s p : inv c p -> inv c (set_ps_serviceSeen s p).
Proof. done. Qed.

Lemma inv_appSeen c s p : inv c p -> inv c (set_ps_appSeen s p).
Proof. done. Qed.

(** Changes of the fields that are not free texts. *)
Lemma tidy_services f : keeps_tidy (with_services f).
Proof. done. Qed.
Lemma tidy_secrets v : keeps_tidy (set_mf_Secrets v).
Proof. done. Qed.
Lemma tidy_assign_secret field i r : keeps_tidy (assign_secret field i r).
Proof. done. Qed.
Lemma tidy_version v : keeps_tidy (set_mf_Version v).
Proof. done. Qed.
Lemma tidy_ha v : keeps_tidy (set_mf_HA v).
Proof. done. Qed.
Lemma tidy_name v : keeps_tidy (set_mf_Name v).
Proof. done. Qed.
Lemma tidy_environment v : keeps_tidy (set_mf_Environment v).
Proof. done. Qed.
Lemma tidy_exposures v : keeps_tidy (set_mf_Exposures v).
Proof. done. Qed.
Lemma tidy_workload f : keeps_tidy (fun m => set_mf_Workload (f m) m).
Proof. done. Qed.

(** Changes of the fields that are. *)
Lemma tidy_consumes v : Forall tidy_consumption v -> keeps_tidy (set_mf_Consumes v).
Proof. intros Hv m (T1 & _ & T). done. Qed.
Lemma tidy_metrics v : Forall (fun s => clean (ms_Path s)) v -> keeps_tidy (set_mf_Metrics (mkMetrics v)).
Proof. intros Hv m (T1 & T2 & T3 & T4 & _ & T). done. Qed.
Lemma tidy_runtime v : Forall tidy_permission v -> keeps_tidy (set_mf_Runtime (mkRuntime v)).
Proof. intros Hv m (T1 & T2 & T3 & T4 & T5 & T6 & _ & T). done. Qed.
Lemma tidy_telemetry v : Forall clean v -> keeps_tidy (set_mf_Telemetry (mkTelemetry (Some (mkOTLP v)))).
Proof. intros Hv m (T1 & T2 & T3 & _ & T). done. Qed.
Lemma tidy_set_identity v : tidy_identity v -> keeps_tidy (set_mf_Identity v).
Proof. intros Hv m (T1 & T2 & T3 & T4 & T5 & T6 & T7 & _). done. Qed.

Lemma tidy_log v : clean v -> keeps_tidy (fun m => set_mf_Logs (mkLogs (lr_Collect (mf_Logs m) ++ [v])) m).
Proof.
  intros Hv m (T1 & T2 & T3 & T4 & T5 & T6 & T). split; [|done].
  refine (conj T1 (conj T2 (conj T3 (conj T4 (conj T5 (conj _ T)))))). apply Forall_app. split; [done|by constructor].
Qed.

Lemma tidy_authentication f :
  (forall a, clean (ia_MFA a) -> Forall clean (ia_Methods a) -> clean (ia_MFA (f a)) /\ Forall clean (ia_Methods (f a))) ->
  keeps_tidy (set_authentication f).
Proof.
  intros Hf m (T1 & T2 & T3 & T4 & T5 & T6 & T7 & (I1 & I2 & I3 & I4 & I5 & I6)). destruct (Hf _ I5 I6) as [J5 J6]. split; [|done].
  exact (conj T1 (conj T2 (conj T3 (conj T4 (conj T5 (conj T6 (conj T7 (conj I1 (conj I2 (conj I3 (conj I4 (conj J5 J6)))))))))))).
Qed.

Lemma tidy_override x o :
  component_text x -> (ov_Instances o <= max_int)%Z -> keeps_tidy (fun m => set_mf_Availability (<[x := o]> (mf_Availability m)) m).
Proof.
  intros [Hx Hh] Ho m (T1 & T2 & T3 & T). split; [|done]. refine (conj T1 (conj T2 (conj _ T))). by apply map_Forall_insert_2.
Qed.

#[export] Hint Resolve inv_change inv_nested inv_reset inv_section inv_serviceSeen inv_appSeen tidy_services tidy_secrets tidy_assign_secret tidy_version
  tidy_ha tidy_name tidy_environment tidy_exposures tidy_workload : tidy.

(** ** Lists that grow and change *)

Lemma assign_at_Forall {A} (P : A -> Prop) (f : A -> result error A) i l l' :
  Forall P l -> (forall x y, P x -> f x = Ok y -> P y) -> assign_at f i l = Ok l' -> Forall P l'.
Proof.
  intros Hl Hf. unfold assign_at. destruct (if (i <? 0)%Z then None else l !! Z.to_nat i) as [x|] eqn:Hx; [|done].
  rewrite bind_Ok. intros (y & Hy & [= <-]). apply Forall_insert; [done|]. eapply Hf; [|exact Hy].
  destruct (i <? 0)%Z; [done|]. by eapply Forall_lookup_1.
Qed.

Ltac keep H := injection H as <-; eauto 10 with tidy.

Lemma inv_consumption c n t p p' : flat t -> inv c p -> parse_consumption n t p = Ok p' -> inv c p'.
Proof.
  intros Ht Hp. unfold parse_consumption. rewrite bind_Ok. intros (name & Hn%parse_named_clean & H); [|done]. injection H as <-.
  apply inv_nested; [done|]. apply inv_change; [|done]. apply tidy_consumes, Forall_app. split; [apply Hp|].
  constructor; [|constructor]. split_and!; eauto with tidy.
Qed.

Lemma inv_consumption_field c n t p p' : flat t -> inv c p -> parse_consumption_field n t p = Ok p' -> inv c p'.
Proof.
  intros Ht Hp. unfold parse_consumption_field. rewrite bind_Ok. intros ([key v] & Hv%key_value_clean & H); [|done].
  apply bind_Ok in H as (l & Hl & H). injection H as <-. apply inv_change; [|done]. apply tidy_consumes.
  eapply assign_at_Forall; [apply Hp| |exact Hl]. intros x y (C1 & C2 & C3 & C4 & C5). unfold set_consumption_field.
  repeat case_bool_decide; intros [= <-]; by split_and!.
Qed.

Lemma inv_override c n t p p' : shown t -> inv c p -> parse_override n t p = Ok p' -> inv c p'.
Proof.
  intros Ht Hp. unfold parse_override. cbv zeta. rewrite !reject_seq_Ok. intros (_ & _ & H). injection H as <-.
  pose proof (component_of_line t Ht) as Hc. destruct (inv_change c p (fun m => set_mf_Availability
    (<[TrimSpace (TrimSuffix t ":") := mkOverride None 0]> (mf_Availability m)) m)) as (H1 & H2 & H3 & H4); [by apply tidy_override|done|].
  by split_and!.
Qed.

Lemma inv_override_field c n t p p' : flat t -> inv c p -> parse_override_field n t p = Ok p' -> inv c p'.
Proof.
  intros Ht Hp. unfold parse_override_field. rewrite bind_Ok. intros ([key v] & Hv%key_value_clean & H); [|done].
  cbv zeta in H. apply bind_Ok in H as (o & Ho & H). injection H as <-. apply inv_change; [|done]. apply tidy_override; [apply Hp|].
  set (component := ns_availabilityComponent (ps_nested p)) in *.
  assert (ov_Instances (default (mkOverride None 0) (mf_Availability (ps_manifest p) !! component)) <= max_int)%Z as Hold.
  { destruct (mf_Availability (ps_manifest p) !! component) as [old|] eqn:Hold; [|done]. destruct Hp as (_ & (_ & _ & T3 & _) & _).
    by destruct (T3 _ _ Hold) as (_ & _ & Hm). }
  repeat case_bool_decide; [..|done].
  - apply bind_Ok in Ho as (b & _ & [= <-]). done.
  - unfold or_error in Ho. destruct (Atoi v) as [k|] eqn:Hk; [|done]. injection Ho as <-. by destruct (Atoi_range _ _ Hk).
Qed.

Lemma inv_secret_requirement c n t p p' : inv c p -> parseSecretRequirement n t p = Ok p' -> inv c p'.
Proof. intros Hp. unfold parseSecretRequirement. cbv zeta. rewrite reject_seq_Ok. intros [_ H]. keep H. Qed.

Lemma inv_metrics_source c n t p p' : flat t -> inv c p -> parseMetricsSource n t p = Ok p' -> inv c p'.
Proof.
  intros Ht Hp. unfold parseMetricsSource. rewrite bind_Ok. intros (name & _ & H). injection H as <-.
  apply inv_nested; [done|]. apply inv_change; [|done]. apply tidy_metrics, Forall_app. split; [apply Hp|]. constructor; [|constructor]. apply clean_nil.
Qed.

Lemma inv_permission c n t p p' : flat t -> inv c p -> parseRuntimePermission n t p = Ok p' -> inv c p'.
Proof.
  intros Ht Hp. unfold parseRuntimePermission. rewrite bind_Ok. intros (name & Hn%parse_named_clean & H); [|done]. injection H as <-.
  apply inv_nested; [done|]. apply inv_change; [|done]. apply tidy_runtime, Forall_app. split; [apply Hp|]. constructor; [|constructor]. done.
Qed.

Lemma inv_exposure c n t p p' : inv c p -> parseHTTPExposure n t p = Ok p' -> inv c p'.
Proof. intros Hp. unfold parseHTTPExposure. rewrite bind_Ok. intros (name & _ & H). keep H. Qed.

Lemma inv_metrics_field c n t p p' : flat t -> inv c p -> parseMetricsSourceField n t p = Ok p' -> inv c p'.
Proof.
  intros Ht Hp. unfold parseMetricsSourceField. rewrite bind_Ok. intros ([key v] & Hv%key_value_clean & H); [|done].
  apply bind_Ok in H as (l & Hl & H). injection H as <-. apply inv_change; [|done]. apply tidy_metrics.
  eapply assign_at_Forall; [apply Hp| |exact Hl]. intros x y Hx. unfold set_source_field.
  repeat case_bool_decide; [by intros [= <-]| |by intros [= <-]|done]. unfold or_error. destruct (Atoi v); [by intros [= <-]|done].
Qed.

Lemma inv_exposure_field c n t p p' : inv c p -> parseHTTPExposureField n t p = Ok p' -> inv c p'.
Proof.
  intros Hp. unfold parseHTTPExposureField. rewrite bind_Ok. intros ([key v] & _ & H).
  apply bind_Ok in H as (l & _ & H). keep H.
Qed.

Lemma inv_service_field c n t p p' : inv c p -> parseServiceField n t p = Ok p' -> inv c p'.
Proof.
  intros Hp. unfold parseServiceField. cbv zeta. destruct (_ && _); [intros H; keep H|]. destruct (_ && _); [intros H; keep H|].
  destruct (Cut t ":") as [[key v] b]. rewrite reject_seq_Ok, bind_Ok. intros (_ & e & _ & H).
  case_bool_decide; [keep H|]. case_bool_decide; [|keep H]. apply reject_seq_Ok in H as [_ H]. keep H.
Qed.

Lemma inv_service_section c n t p p' : inv c p -> parseServiceSection n t p = Ok p' -> inv c p'.
Proof.
  intros Hp. unfold parseServiceSection. destruct (Cut t ":") as [[name v] b]. rewrite !reject_seq_Ok. intros (_ & _ & H).
  cbv zeta in H. destruct H as [_ H]. destruct (_ == _); [keep H|]. apply reject_seq_Ok in H as [_ H].
  apply bind_Ok in H as (q & Hq & H). apply inv_service_field with (c := c) in Hq; [keep H|]. eauto with tidy.
Qed.

Lemma inv_instance c n t p p' : inv c p -> parseServiceInstance n t p = Ok p' -> inv c p'.
Proof.
  intros Hp. unfold parseServiceInstance. cbv zeta. rewrite !reject_seq_Ok. intros (_ & _ & _ & H).
  destruct (Cut t ":") as [[name v] b]. apply reject_seq_Ok in H as [_ H]. apply bind_Ok in H as ([] & _ & H). keep H.
Qed.

Lemma inv_app_field c n t p p' : flat t -> inv c p -> parseAppField n t p = Ok p' -> inv c p'.
Proof.
  intros Ht Hp. unfold parseAppField. destruct (Cut t ":") as [[key v] b] eqn:Hc. rewrite !reject_seq_Ok. intros (_ & _ & H).
  cbv zeta in H. case_bool_decide.
  - apply reject_seq_Ok in H as [Hb H]. injection H as <-. apply negb_false_iff in Hb. cbn in Hb.
    destruct Hp as (<- & T & H3 & _). split_and!; [done| |done|intros Hf; congruence]. destruct T as (_ & T). split; [|exact T].
    apply clean_cut. by eapply flat_Cut.
  - case_bool_decide; [keep H|]. case_bool_decide; [keep H|done].
Qed.

Lemma inv_authentication_field c n t p p' : flat t -> inv c p -> parse_authentication_field n t p = Ok p' -> inv c p'.
Proof.
  intros Ht Hp. unfold parse_authentication_field. rewrite bind_Ok. intros ([key v] & Hv%key_value_clean & H); [|done].
  case_bool_decide; [|case_bool_decide; [|case_bool_decide; [keep H|done]]].
  - injection H as <-. apply inv_change; [|done]. by apply tidy_authentication.
  - apply bind_Ok in H as (b & _ & H). injection H as <-. apply inv_change; [|done]. by apply tidy_authentication.
Qed.

Lemma inv_identity_item c n t p p' : flat t -> inv c p -> parse_identity_item n t p = Ok p' -> inv c p'.
Proof.
  intros Ht Hp. unfold parse_identity_item. destruct (HasPrefix _ _); [|done]. cbv zeta. rewrite reject_seq_Ok, bind_Ok.
  intros (_ & i & Hi & H). injection H as <-. apply inv_change; [|done]. apply tidy_set_identity.
  destruct Hp as (_ & (_ & _ & _ & _ & _ & _ & _ & (I1 & I2 & I3 & I4 & I5 & I6)) & _).
  pose proof (clean_item t Ht) as Hv. assert (Forall clean [item_of t]) as Hl by (by constructor).
  unfold or_error, append_identity in Hi. repeat case_bool_decide; try done; injection Hi as <-; unfold tidy_identity; simpl;
    rewrite ?Forall_app; by split_and!.
Qed.

Lemma inv_method c n t p p' : flat t -> inv c p -> parse_method n t p = Ok p' -> inv c p'.
Proof.
  intros Ht Hp. unfold parse_method. cbv zeta. rewrite reject_seq_Ok. intros [_ H]. injection H as <-. apply inv_change; [|done].
  apply tidy_authentication. intros a H1 H2. split; [done|]. simpl. rewrite Forall_app. split; [done|]. constructor; [by apply clean_item|constructor].
Qed.

Lemma inv_signal c n t p p' : flat t -> inv c p -> parse_signal n t p = Ok p' -> inv c p'.
Proof.
  intros Ht Hp. unfold parse_signal. destruct (te_OTLP _) as [o|] eqn:Ho; [|done]. intros H. injection H as <-. apply inv_change; [|done].
  apply tidy_telemetry, Forall_app. split; [|constructor; [by apply clean_item|constructor]].
  destruct Hp as (_ & (_ & _ & _ & T4 & _) & _). by rewrite Ho in T4.
Qed.

Lemma inv_generation c n t p p' : inv c p -> parse_generation n t p = Ok p' -> inv c p'.
Proof.
  intros Hp. unfold parse_generation. cbv zeta. destruct (secretRequirementPointer _ _ _) as [[name [g|]]|]; [|done..].
  rewrite reject_seq_Ok, bind_Ok. intros (_ & g' & _ & H). keep H.
Qed.

Lemma inv_extend c p p' f :
  (forall x y, tidy_permission x -> f x = Ok y -> tidy_permission y) -> inv c p -> extend_permission f p = Ok p' -> inv c p'.
Proof.
  intros Hf Hp. unfold extend_permission. rewrite bind_Ok. intros (l & Hl & H). injection H as <-. apply inv_change; [|done].
  apply tidy_runtime. eapply assign_at_Forall; [apply Hp|exact Hf|exact Hl].
Qed.

(** ** The levels *)

Lemma inv_top c n t p p' : inv c p -> parseTopLevel n t p = Ok p' -> inv c p'.
Proof.
  intros Hp. unfold parseTopLevel. destruct (HasPrefix t "version:").
  { rewrite bind_Ok. intros (v & _ & H). keep H. }
  destruct (HasPrefix t "ha:").
  { rewrite bind_Ok. intros (v & _ & H). keep H. }
  destruct (List.find _ _) as [s|]; [|done]. intros H. keep H.
Qed.

Lemma inv_2 c n t p p' : shown t -> inv c p -> parseIndent2 n t p = Ok p' -> inv c p'.
Proof.
  intros Hs Hp. pose proof Hs as [[[_ Ht] _] _]. fold (flat t) in Ht. unfold parseIndent2. cbv zeta.
  assert (inv c (nested p (fun s => set_ns_secretGenerate false (set_ns_secretIndex (-1) (set_ns_serviceField "" s))))) as Hq by eauto with tidy.
  revert Hq. generalize (nested p (fun s => set_ns_secretGenerate false (set_ns_secretIndex (-1) (set_ns_serviceField "" s)))). clear p Hp. intros p Hp.
  destruct (_ && _); [by apply inv_consumption|]. destruct (_ && _); [by apply inv_override|].
  destruct (section p "app"); [by apply inv_app_field|]. destruct (section p "services"); [by apply inv_service_section|].
  destruct (_ && _); [intros H; keep H|]. destruct (_ && _); [intros H; keep H|].
  destruct (_ && _); [intros H; injection H as <-; apply inv_nested; [done|]; by apply inv_change; [apply tidy_telemetry; constructor|]|].
  do 3 (destruct (_ && _); [intros H; keep H|]). destruct (section p "identity").
  { destruct (List.find _ _) as [f|]; [|done]. intros H. keep H. }
  destruct (section p "workload"); [|done]. unfold parseWorkloadField. rewrite reject_seq_Ok. intros [_ H]. keep H.
Qed.

Lemma inv_4 c n t p p' : flat t -> inv c p -> parseIndent4 n t p = Ok p' -> inv c p'.
Proof.
  intros Ht Hp. unfold parseIndent4. cbv zeta.
  assert (inv c (nested p (set_ns_secretGenerate false))) as Hq by eauto with tidy.
  revert Hq. generalize (nested p (set_ns_secretGenerate false)). clear p Hp. intros p Hp.
  destruct (_ && _); [by apply inv_consumption_field|]. destruct (_ && _); [by apply inv_override_field|].
  destruct (_ && _); [by apply inv_service_field|]. destruct (_ && _ && _); [by apply inv_secret_requirement|].
  destruct (_ && _ && _). { unfold parse_component. cbv zeta. rewrite reject_seq_Ok. intros [_ H]. keep H. }
  destruct (_ && _ && _); [intros H; keep H|].
  destruct (_ && _ && _).
  { unfold parse_log. cbv zeta. rewrite reject_seq_Ok. intros [_ H]. injection H as <-. apply inv_change; [|done]. by apply tidy_log, clean_item. }
  destruct (_ && _ && _); [by apply inv_metrics_source|]. destruct (_ && _ && _); [by apply inv_permission|].
  destruct (_ && _ && _); [by apply inv_exposure|]. destruct (section p "identity"); [|done].
  destruct (_ == _); [by apply inv_authentication_field|by apply inv_identity_item].
Qed.

Lemma inv_6 c n t p p' : flat t -> inv c p -> parseIndent6 n t p = Ok p' -> inv c p'.
Proof.
  intros Ht Hp. unfold parseIndent6. cbv zeta. do 2 (destruct (_ && _); [intros H; keep H|]).
  destruct (_ && _ && _); [by apply inv_method|]. destruct (_ && _ && _); [by apply inv_signal|].
  destruct (_ && _ && _); [by apply inv_metrics_field|]. destruct (_ && _ && _); [by apply inv_exposure_field|].
  destruct (_ && _ && _ && _); [|by apply inv_instance]. unfold parse_generate. cbv zeta.
  destruct (secretRequirementPointer _ _ _) as [r|]; [|done]. intros H. keep H.
Qed.

Lemma inv_8 c n t p p' : flat t -> inv c p -> parseIndent8 n t p = Ok p' -> inv c p'.
Proof.
  intros Ht Hp. pose proof (clean_item t Ht) as Hi. unfold parseIndent8. cbv zeta. destruct (_ && _ && _); [|destruct (_ && _ && _); [|by apply inv_generation]].
  - apply inv_extend; [|done]. intros x y [C1 C2] [= <-]. done.
  - apply inv_extend; [|done]. intros x y [C1 C2] [= <-]. split; [done|]. simpl. rewrite Forall_app. split; [done|by constructor].
Qed.

Lemma inv_line c n i t p p' : shown t -> inv c p -> parseLine n i t p = Ok p' -> inv c p'.
Proof.
  intros Hs Hp. pose proof Hs as [[[_ Ht] _] _]. fold (flat t) in Ht.
  destruct i as [|[|[|[|[|[|[|[|[|i]]]]]]]]]; simpl; try done;
    [by apply inv_top|by apply inv_2|by apply inv_4|by apply inv_6|by apply inv_8].
Qed.

(** ** Whole texts *)

Lemma scan_flat s line : flat line -> Forall flat (scan s line).
Proof.
  revert line. induction s as [|d s IH]; intros line Hl; cbn [scan].
  - case_bool_decide; [constructor|by constructor].
  - case_bool_decide as Hd; [constructor; [done|by apply IH]|]. apply IH, flat_app. split; [done|]. unfold flat. simpl.
    by rewrite (proj2 (eqb_false d lf) Hd).
Qed.

Lemma flat_trim_end s : flat s -> flat (trim_end s).
Proof.
  intros H. unfold trim_end. rewrite flat_rev. apply flat_rev in H. destruct (trim_left_suffix [" "; String (byte_of 9) ""; String (byte_of 13) ""] (String.rev s)) as [pre Hpre].
  rewrite Hpre in H. apply flat_app in H. tauto.
Qed.

Lemma inv_text c n s p p' : flat s -> inv c p -> parse_text n s p = Ok p' -> inv c p'.
Proof.
  intros Hs Hp. unfold parse_text. cbv zeta. destruct (_ || _) eqn:H; [by intros [= <-]|].
  apply orb_false_iff in H as [Hn%bool_decide_eq_false Hh]. apply inv_line; [|done].
  split; [|done]. split; [|done]. by apply clean_cut, flat_trim_end.
Qed.

Lemma inv_texts c n l p p' : Forall flat l -> inv c p -> parse_texts n l p = Ok p' -> inv c p'.
Proof.
  intros Hl. revert n p. induction Hl as [|s l Hs _ IH]; intros n p Hp; simpl; [by intros [= <-]|].
  destruct (_ <? _)%nat; [done|]. rewrite bind_Ok. intros (q & Hq & H). eapply IH; [|exact H].
  eapply inv_text; [|exact Hp|exact Hq]. by apply flat_TrimSuffix.
Qed.

Lemma inv_new c : inv c (newManifestYAMLParser c).
Proof.
  split_and!; [done| |apply (bool_decide_unpack _); by vm_compute|done].
  split_and!; try (apply (bool_decide_unpack _); by vm_compute); constructor.
Qed.

(** Parsing yields valid and tidy manifests; an authored text has no
    application identity. *)
Lemma parsed {order : MapOrder} input c m :
  parseManifestYAML input c = Ok m -> valid false m /\ tidy m /\ (c = false -> mf_ApplicationID m = "").
Proof.
  unfold parseManifestYAML. rewrite bind_Ok. intros (p & Hp & H). apply unit_seq_Ok in H as [Hv [= <-]].
  apply validate_Ok in Hv. eapply inv_texts in Hp; [|apply scan_flat; by vm_compute|apply inv_new]. destruct Hp as (_ & Ht & _ & Hid). done.
Qed.
