(* ===== verification/ManifestTheorems.v ===== *)
(** * Properties of manifests

    Exactness of the validation, the round trips of the serialisation, and what
    an authored text can and cannot say. *)

From S2P Require Import Prelude GoStrings StableId Orders Availability Capability Manifest ManifestValidate ManifestYAML ManifestFacts ManifestText.
From S2P Require Import ManifestRoundtrip ManifestServices ManifestExact ManifestTidy.

(** ** Sorting twice *)

Lemma sort_strings_idem l : sort_strings (sort_strings l) = sort_strings l.
Proof.
  apply (StronglySorted_unique String.le); [apply StronglySorted_merge_sort; apply _..|apply sort_strings_Permutation].
Qed.

Lemma before_key {A} (key : A -> string) x y : String.ltb (key y) (key x) = false <-> String.le (key x) (key y).
Proof. apply ltb_false. Qed.

Lemma by_key_canonical {A} (key : A -> string) l k : NoDup (map key l) -> l ≡ₚ k -> by_key key l = by_key key k.
Proof. apply (sort_slice_canonical key String.le (fun a b => String.ltb (key a) (key b))). intros x y. apply before_key. Qed.

Lemma by_key_idem {A} (key : A -> string) l : NoDup (map key l) -> by_key key (by_key key l) = by_key key l.
Proof. intros H. symmetry. apply by_key_canonical; [done|]. by rewrite by_key_Permutation. Qed.

Lemma StronglySorted_map {A B} (R : A -> A -> Prop) (S : B -> B -> Prop) (f : A -> B) l :
  (forall x y, R x y -> S (f x) (f y)) -> StronglySorted R l -> StronglySorted S (map f l).
Proof.
  intros H. induction 1 as [|x l _ IH Hx]; [constructor|]. simpl. constructor; [done|]. rewrite Forall_map.
  eapply Forall_impl; [exact Hx|]. simpl. eauto.
Qed.

(** Elements that are mapped and keep their keys stay in order. *)
Lemma by_key_map {A} (key : A -> string) (f : A -> A) l :
  (forall x, key (f x) = key x) -> NoDup (map key l) -> by_key key (map f (by_key key l)) = map f (by_key key l).
Proof.
  intros Hf Hn. set (before := fun a b => String.ltb (key a) (key b)).
  assert (forall x y, before y x = false <-> String.le (key x) (key y)) as Hb by (intros x y; apply before_key).
  assert (NoDup (map key (map f (by_key key l)))) as Hn'.
  { rewrite map_map, (map_ext (fun x => key (f x)) key) by done. by rewrite by_key_Permutation. }
  apply (StronglySorted_unique_strong (not_after before)).
  - intros x y Hx Hy H1 H2. unfold by_key in Hx. rewrite sort_slice_Permutation in Hx.
    apply (NoDup_map_inj key (map f (by_key key l))); [done..|]. apply (anti_symm String.le); by apply Hb.
  - apply (sort_slice_sorted key String.le before Hb).
  - eapply StronglySorted_map; [|apply (sort_slice_sorted key String.le before Hb)].
    intros x y. unfold not_after, before. by rewrite !Hf.
  - apply sort_slice_Permutation.
Qed.

(** ** The canonical form is written as the manifest is *)

Lemma writeService_canonical x enabled l : writeServiceYAML x (enabled || has_instances l) l = writeServiceYAML x enabled l.
Proof. unfold writeServiceYAML, has_instances. case_bool_decide; [by rewrite orb_false_r|done]. Qed.

Lemma writeObjectStorage_canonical enabled l : writeObjectStorageYAML (enabled || has_instances l) l = writeObjectStorageYAML enabled l.
Proof. unfold writeObjectStorageYAML, has_instances. case_bool_decide; [by rewrite orb_false_r|done]. Qed.

Lemma or_twice (a b : bool) : (a || b) || b = a || b.
Proof. by destruct a, b. Qed.

Lemma services_lines_canonical s : services_lines (canonical_services s) = services_lines s.
Proof.
  assert (hasManifestServices (canonical_services s) = hasManifestServices s) as Hh.
  { unfold hasManifestServices, canonical_services. simpl.
    apply eq_true_iff_eq. rewrite !orb_true_iff. tauto. }
  unfold services_lines, messaging_lines. rewrite Hh. unfold canonical_services. cbn [sv_SQL sv_Cache sv_KeyValue sv_DocumentDatabase
    sv_MessagingQueue sv_MessagingPubSub sv_MessagingStream sv_Secrets sv_ObjectStorage sv_Identity sv_SQLManagementUI sv_CacheManagementUI
    sv_KeyValueManagementUI sv_DocumentDatabaseManagementUI sv_MessagingManagementUI sv_SecretsManagementUI sv_ObjectStorageManagementUI
    sv_IdentityManagementUI sv_ObservabilityManagementUI sv_SQLInstances sv_CacheInstances sv_KeyValueInstances sv_DocumentDatabaseInstances
    sv_MessagingQueueInstances sv_MessagingPubSubInstances sv_MessagingStreamInstances sv_ObjectStorageBuckets].
  by rewrite !writeService_canonical, writeObjectStorage_canonical, !or_twice.
Qed.

(** What makes the order of the lists unique. *)
Definition distinct_keys (m : Manifest) : Prop :=
  NoDup (map cn_Name (mf_Consumes m)) /\ NoDup (map sr_Name (se_Required (mf_Secrets m))) /\ NoDup (map sr_Name (se_Optional (mf_Secrets m))) /\
  NoDup (map ex_Name (mf_Exposures m)) /\ NoDup (map ms_Name (me_Sources (mf_Metrics m))) /\
  NoDup (map rp_Capability (ru_Permissions (mf_Runtime m))).

Lemma valid_distinct id m : valid false (set_mf_ApplicationID id m) -> distinct_keys m.
Proof.
  intros (_ & _ & [_ V1] & _ & _ & _ & _ & _ & (_ & [_ V2]) & _ & (_ & [_ V3]) & _ & [_ V4] & _ & [_ V5]).
  rewrite map_app in V2. apply NoDup_app in V2 as (V2 & _ & V2'). split_and!; try done.
  apply (NoDup_fmap_1 TrimSpace). by rewrite <- list_fmap_compose.
Qed.

Lemma when_nonempty_eq {A} (l k : list A) (ls : lines) : l ≡ₚ k -> when (negb (is_nil l)) ls = when (negb (is_nil k)) ls.
Proof. intros H. by rewrite (is_nil_perm _ _ H). Qed.

Lemma item_lines_sorted indent l : item_lines indent (sort_strings l) = item_lines indent l.
Proof. unfold item_lines. by rewrite sort_strings_idem. Qed.

Lemma writeStringList_sorted f l indent : writeStringListYAML f (sort_strings l) indent = writeStringListYAML f l indent.
Proof. unfold writeStringListYAML. by rewrite sort_strings_idem, (is_nil_perm _ _ (sort_strings_Permutation l)). Qed.

Lemma writeSecrets_sorted f l : NoDup (map sr_Name l) -> writeSecretRequirementsYAML f (by_key sr_Name l) = writeSecretRequirementsYAML f l.
Proof. intros H. unfold writeSecretRequirementsYAML. by rewrite by_key_idem, (is_nil_perm _ _ (by_key_Permutation _ l)). Qed.

Lemma authentication_lines_canonical a : authentication_lines (canonical_authentication a) = authentication_lines a.
Proof.
  unfold authentication_lines, canonical_authentication. cbn [ia_MFA ia_Methods ia_Passwordless].
  by rewrite writeStringList_sorted, (is_nil_perm _ _ (sort_strings_Permutation _)).
Qed.

Lemma permission_lines_canonical p : permission_lines (canonical_permission p) = permission_lines p.
Proof. unfold permission_lines, canonical_permission. simpl. by rewrite !item_lines_sorted. Qed.

Lemma exposure_lines_canonical e : exposure_lines (canonical_exposure e) = exposure_lines e.
Proof. unfold exposure_lines, canonical_exposure. simpl. by rewrite normalized_idem. Qed.

(** A list of mapped elements. *)
Lemma concat_map_canonical {A} (f : A -> lines) (g : A -> A) (key : A -> string) l :
  (forall x, f (g x) = f x) -> (forall x, key (g x) = key x) -> NoDup (map key l) ->
  concat (map f (by_key key (map g (by_key key l)))) = concat (map f (by_key key l)).
Proof. intros Hf Hk Hn. rewrite by_key_map by done. rewrite map_map. f_equal. by apply map_ext. Qed.

Lemma is_nil_map {A B} (f : A -> B) l : is_nil (map f l) = is_nil l.
Proof. by destruct l. Qed.

Lemma yaml_lines_canonical m : distinct_keys m -> yaml_lines (canonical m) = yaml_lines m.
Proof.
  intros (D1 & D2 & D3 & D4 & D5 & D6). unfold yaml_lines.
  do 11 apply (f_equal2 app) || idtac. all: try reflexivity.
  - unfold consumes_lines. cbn [canonical mf_Consumes]. by rewrite by_key_idem, (is_nil_perm _ _ (by_key_Permutation _ _)).
  - apply services_lines_canonical.
  - unfold identity_lines. cbn [canonical mf_Identity mf_Services canonical_services sv_Identity canonical_identity ir_CallbackPaths ir_LogoutPaths
      ir_Scopes ir_Claims ir_Authentication]. by rewrite !writeStringList_sorted, authentication_lines_canonical.
  - unfold secrets_lines. cbn [canonical mf_Secrets canonical_secrets se_Required se_Optional].
    by rewrite !writeSecrets_sorted, !(is_nil_perm _ _ (by_key_Permutation _ _)).
  - unfold runtime_lines. cbn [canonical mf_Runtime ru_Permissions].
    rewrite (concat_map_canonical permission_lines canonical_permission) by (done || apply permission_lines_canonical).
    by rewrite is_nil_map, (is_nil_perm _ _ (by_key_Permutation _ _)).
  - unfold workload_lines. cbn [canonical mf_Workload wc_Components].
    by rewrite item_lines_sorted, (is_nil_perm _ _ (sort_strings_Permutation _)).
  - unfold metrics_lines. cbn [canonical mf_Metrics me_Sources]. by rewrite by_key_idem, (is_nil_perm _ _ (by_key_Permutation _ _)).
  - unfold logs_lines. cbn [canonical mf_Logs lr_Collect]. by rewrite item_lines_sorted, (is_nil_perm _ _ (sort_strings_Permutation _)).
  - unfold telemetry_lines. cbn [canonical mf_Telemetry]. unfold canonical_telemetry. destruct (te_OTLP (mf_Telemetry m)) as [o|]; simpl; [|done].
    by rewrite item_lines_sorted.
  - unfold exposures_lines. cbn [canonical mf_Exposures].
    rewrite (concat_map_canonical exposure_lines canonical_exposure) by (done || apply exposure_lines_canonical).
    by rewrite is_nil_map, (is_nil_perm _ _ (by_key_Permutation _ _)).
Qed.

(** ** Reading the serialisation *)

Section reading.
Context {order : MapOrder}.

Lemma parse_YAML c id m :
  valid false (set_mf_ApplicationID id m) -> tidy m -> (mf_ApplicationID m <> "" -> c = true) -> fits (yaml_lines m) ->
  parseManifestYAML (YAML m) c = (ValidateIntent (canonical m) ;; Ok (canonical m)).
Proof.
  intros Hv Ht Hc Hf. destruct (yaml_runs c id m Hv Ht Hc) as [Hs Hr]. destruct (Hr 0%Z) as (q & Hq & Hm).
  unfold parseManifestYAML, YAML. rewrite parse_written, Hq by done. cbn [mbind result_bind]. by rewrite Hm.
Qed.

Lemma valid_intent_canonical m : valid false m -> ValidateIntent (canonical m) = Ok tt.
Proof. intros H. apply validate_Ok. by apply valid_canonical. Qed.

Lemma same_identity m : set_mf_ApplicationID (mf_ApplicationID m) m = m.
Proof. by destruct m. Qed.

Lemma parse_YAML_valid c m :
  valid false m -> tidy m -> (mf_ApplicationID m <> "" -> c = true) -> fits (yaml_lines m) ->
  parseManifestYAML (YAML m) c = Ok (canonical m).
Proof.
  intros Hv Ht Hc Hf. rewrite (parse_YAML c (mf_ApplicationID m)) by (rewrite ?same_identity; done).
  by rewrite valid_intent_canonical.
Qed.

Lemma ParseCanonicalYAML_parsed input m :
  ParseCanonicalYAML input = Ok m -> parseManifestYAML input true = Ok m /\ valid_uuid (mf_ApplicationID m) = true.
Proof.
  unfold ParseCanonicalYAML. rewrite bind_Ok. intros (m' & Hm & H). apply unit_seq_Ok in H as [Hid [= ->]].
  by rewrite wrap_err_Ok, ValidateApplicationID_Ok in Hid.
Qed.

Lemma AuthoredYAML_eq m : mf_ApplicationID m = "" -> AuthoredYAML m = YAML m.
Proof. intros H. unfold AuthoredYAML. by rewrite <- H, same_identity. Qed.

(** Leaving the identity out only leaves a line out. *)
Lemma fits_authored m : fits (yaml_lines m) -> fits (yaml_lines (set_mf_ApplicationID "" m)).
Proof.
  unfold fits, yaml_lines. rewrite !(Forall_app _ (app_lines _)). intros [Ha Hr]. split; [|exact Hr]. revert Ha.
  unfold app_lines. cbn [set_mf_ApplicationID mf_Version mf_ApplicationID mf_Name mf_Environment mf_HA]. rewrite !Forall_app.
  intros (H1 & _ & H3). split; [exact H1|]. split; [constructor|exact H3].
Qed.

(** The consumptions of an authored text name their applications. *)
Lemma consumption_unnamed c : cn_ApplicationID c = "" -> ~ consumption_ok "" c.
Proof. intros Hc (_ & Hv & _). unfold producer_id in Hv. rewrite Hc in Hv. by vm_compute in Hv. Qed.

Lemma consumption_named current c : tidy_consumption c -> cn_ApplicationID c <> "" -> consumption_ok current c -> consumption_ok "" c.
Proof.
  intros (_ & [Ht _] & _) Hn (H1 & H2 & H). split; [done|]. split; [|done]. unfold producer_id in *.
  rewrite (trimmed_TrimSpace _ Ht), (bool_decide_eq_false_2 _ Hn) in H2 |- *. exact H2.
Qed.

Lemma valid_authored m :
  valid false m -> tidy m -> (valid false (set_mf_ApplicationID "" m) <-> Forall (fun c => cn_ApplicationID c <> "") (mf_Consumes m)).
Proof.
  intros (V1 & V2 & [V3 V3'] & V) (_ & T2 & _). split.
  - intros (_ & _ & [W3 _] & _). eapply Forall_impl; [exact W3|]. intros c Hc Hn. by apply (consumption_unnamed c Hn) in Hc.
  - intros Hn. split; [destruct V1 as (? & _ & ? & ?); by split_and!|]. split; [exact V2|]. split; [|exact V]. split; [|exact V3'].
    rewrite Forall_forall in *. intros c Hc. eapply consumption_named; [by apply T2|by apply Hn|by apply V3].
Qed.
End reading.

(** * Properties *)

(** C12: The validation accepts exactly the manifests that [valid] describes,
    in whichever order the loops over map literals run; so it accepts a
    manifest if and only if it accepts its canonical form. *)
Theorem validate_exact (order order' : MapOrder) requireWorkload m :
  (validate (order := order) requireWorkload m = Ok tt <-> valid requireWorkload m) /\
  is_ok (validate (order := order) requireWorkload m) = is_ok (validate (order := order') requireWorkload (canonical m)).
Proof.
  split; [apply validate_Ok|]. apply eq_true_iff_eq. by rewrite !is_ok_unit, !validate_Ok, valid_canonical.
Qed.

(** C11: A manifest that was read from a text of the canonical grammar, written
    out by [YAML], is read back as its canonical form, provided that its lines
    fit the scanner; the canonical form is written as the same text, so that
    further rounds change nothing. *)
Theorem ParseCanonicalYAML_YAML {order : MapOrder} input m :
  ParseCanonicalYAML input = Ok m -> fits (yaml_lines m) ->
  ParseCanonicalYAML (YAML m) = Ok (canonical m) /\ YAML (canonical m) = YAML m.
Proof.
  intros [Hp Hid]%ParseCanonicalYAML_parsed Hf. destruct (parsed _ _ _ Hp) as (Hv & Ht & _). split.
  - unfold ParseCanonicalYAML. rewrite parse_YAML_valid by done. cbn [mbind result_bind canonical mf_ApplicationID].
    by rewrite (proj2 (ValidateApplicationID_Ok _) Hid).
  - unfold YAML. rewrite yaml_lines_canonical; [done|]. apply (valid_distinct (mf_ApplicationID m)). by rewrite same_identity.
Qed.

(** C39: A text that a developer wrote never sets the identity of the application,
    which BaseHarbor assigns, and what is read from it is valid.  When every
    line of its authored text fits the scanner, that text is read back as the
    canonical form, which has the same authored text, so that further rounds
    change nothing. *)
Theorem ParseYAML_authored {order : MapOrder} input m :
  ParseYAML input = Ok m ->
  mf_ApplicationID m = "" /\ valid false m /\
  (fits (yaml_lines m) -> ParseYAML (AuthoredYAML m) = Ok (canonical m) /\ AuthoredYAML (canonical m) = AuthoredYAML m).
Proof.
  intros Hp. destruct (parsed _ _ _ Hp) as (Hv & Ht & Hid). specialize (Hid eq_refl). split_and!; [done|done|].
  intros Hf. unfold ParseYAML. rewrite !AuthoredYAML_eq by done. split; [by apply parse_YAML_valid|].
  unfold YAML. rewrite yaml_lines_canonical; [done|]. apply (valid_distinct (mf_ApplicationID m)). by rewrite same_identity.
Qed.

(** The authored text of a manifest of the canonical grammar is accepted
    exactly when each of its consumptions names the application of its
    producer.  One that leaves it out, for the application itself, makes
    [ParseYAML] fail, although docs/spec/application-consumption-v1.md says that
    it may be left out. *)
Theorem AuthoredYAML_accepted {order : MapOrder} input m :
  ParseCanonicalYAML input = Ok m -> fits (yaml_lines m) ->
  (is_ok (ParseYAML (AuthoredYAML m)) = true <-> Forall (fun c => cn_ApplicationID c <> "") (mf_Consumes m)).
Proof.
  intros [Hp _]%ParseCanonicalYAML_parsed Hf. destruct (parsed _ _ _ Hp) as (Hv & Ht & _). rewrite <- valid_authored by done.
  set (a := set_mf_ApplicationID "" m). unfold ParseYAML, AuthoredYAML. fold a.
  rewrite (parse_YAML false (mf_ApplicationID m)); [|by unfold a; destruct m|by destruct Ht as [_ Ht]; split; [apply clean_nil|]|done|by apply fits_authored].
  rewrite <- valid_canonical, <- validate_Ok. fold (ValidateIntent (canonical a)). destruct (ValidateIntent (canonical a)) as [[]|]; done.
Qed.

(** ** Concrete manifests *)

Module Example_manifest.

Definition callbacks_then_scopes : MapOrder := mkMapOrder true true.

(** A record with an availability override, a consumption of another
    application, instances, a generated secret, a workload and an exposure. *)
Definition sample_lines (app consumption : lines) : lines :=
  [(0%nat, "# written by hand"); (0%nat, "version: 1"); (0%nat, "app:")] ++ app ++
  [(2%nat, "name: shop"); (2%nat, "environment: dev"); (0%nat, "availability:"); (2%nat, "sql:"); (4%nat, "ha: true"); (4%nat, "instances: 3");
   (0%nat, "consumes:"); (2%nat, "- name: payments")] ++ consumption ++
  [(4%nat, "component: api"); (4%nat, "interface: http");
   (0%nat, "services:"); (2%nat, "sql:"); (4%nat, "instances:"); (6%nat, "orders: {}"); (6%nat, "audit: {}"); (2%nat, "secrets: true");
   (0%nat, "secrets:"); (2%nat, "required:"); (4%nat, "- name: TOKEN"); (4%nat, "- name: API_KEY"); (6%nat, "generate:"); (8%nat, "type: hex");
   (8%nat, "bytes: 32");
   (0%nat, "workload:"); (2%nat, "components:"); (4%nat, "- web"); (4%nat, "- api");
   (0%nat, "exposure:"); (2%nat, "http:"); (4%nat, "- name: public"); (6%nat, "service: web"); (6%nat, "port: 8080"); (6%nat, "protocol: http")].

Definition app_id : lines := [(2%nat, "id: 7a9dc6a7-9cab-4c62-a0dd-e55d5bf7ff75")].
Definition producer : lines := [(4%nat, "application_id: b6e60b14-e4d3-4d27-bb91-26589f9dced5")].

Definition sample : string := write_lines (sample_lines app_id producer).
Definition authored_sample : string := write_lines (sample_lines [] producer).

Definition read (parsed : result error Manifest) : Manifest := match parsed with Ok m => m | Err _ => no_Manifest end.

Definition sample_manifest : Manifest := read (ParseCanonicalYAML (order := callbacks_then_scopes) sample).
Definition authored_manifest : Manifest := read (ParseYAML (order := callbacks_then_scopes) authored_sample).

Example sample_read : ParseCanonicalYAML (order := callbacks_then_scopes) sample = Ok sample_manifest.
Proof. vm_compute. reflexivity. Qed.

Example authored_read : ParseYAML (order := callbacks_then_scopes) authored_sample = Ok authored_manifest.
Proof. vm_compute. reflexivity. Qed.

(** The same-application consumption of docs/spec/application-consumption-v1.md
    cannot be authored: the empty identity of the authored text is validated
    as the producer's. *)
Example same_application_rejected :
  ParseYAML (order := callbacks_then_scopes) (write_lines (sample_lines [] [])) =
  Err (Errorf "consumption %q producer application: %w" [AStr "payments"; ATxt (Errorf "%s id %q must be a UUIDv4" [AStr "application"; AStr ""])]).
Proof. vm_compute. reflexivity. Qed.

(** A switch after the instances of a service says nothing: the service stays
    on. *)
Definition switched_off : string :=
  write_lines [(0%nat, "version: 1"); (0%nat, "app:"); (2%nat, "name: shop"); (2%nat, "environment: dev"); (0%nat, "services:"); (2%nat, "sql:");
    (4%nat, "instances:"); (6%nat, "orders: {}"); (4%nat, "enabled: false")].

Example switched_off_stays_on :
  let m := read (ParseYAML (order := callbacks_then_scopes) switched_off) in
  sv_SQL (mf_Services m) = false /\ SQLInstanceNames m = ["orders"] /\ sv_SQL (mf_Services (canonical m)) = true.
Proof. vm_compute. done. Qed.

End Example_manifest.

Import Example_manifest.

Lemma ParseCanonicalYAML_YAML_witness :
  ParseCanonicalYAML (order := callbacks_then_scopes) (YAML sample_manifest) = Ok (canonical sample_manifest) /\
  YAML (canonical sample_manifest) = YAML sample_manifest /\ YAML sample_manifest <> sample.
Proof.
  destruct (@ParseCanonicalYAML_YAML callbacks_then_scopes sample sample_manifest) as [H1 H2].
  - vm_compute. reflexivity.
  - apply (bool_decide_unpack _). vm_compute. exact I.
  - split; [exact H1|]. split; [exact H2|]. apply (bool_decide_unpack _). vm_compute. exact I.
Defined.

Lemma ParseYAML_authored_witness :
  mf_ApplicationID authored_manifest = "" /\ valid false authored_manifest /\
  ParseYAML (order := callbacks_then_scopes) (AuthoredYAML authored_manifest) = Ok (canonical authored_manifest) /\
  AuthoredYAML (canonical authored_manifest) = AuthoredYAML authored_manifest.
Proof.
  destruct (@ParseYAML_authored callbacks_then_scopes authored_sample authored_manifest) as (H1 & H2 & H3).
  - vm_compute. reflexivity.
  - split; [exact H1|]. split; [exact H2|]. apply H3. apply (bool_decide_unpack _). vm_compute. exact I.
Defined.

(** One consumption without its application is enough. *)
Lemma AuthoredYAML_accepted_witness :
  is_ok (ParseYAML (order := callbacks_then_scopes) (AuthoredYAML sample_manifest)) = true /\
  (let m := read (ParseCanonicalYAML (order := callbacks_then_scopes) (write_lines (sample_lines app_id []))) in
   is_ok (ParseYAML (order := callbacks_then_scopes) (AuthoredYAML m)) = false).
Proof.
  split.
  - apply (@AuthoredYAML_accepted callbacks_then_scopes sample sample_manifest).
    + vm_compute. reflexivity.
    + apply (bool_decide_unpack _). vm_compute. exact I.
    + apply (bool_decide_unpack _). vm_compute. exact I.
  - cbv zeta. apply not_true_is_false. intros H.
    apply (@AuthoredYAML_accepted callbacks_then_scopes (write_lines (sample_lines app_id []))) in H.
    + revert H. apply (bool_decide_unpack _). vm_compute. exact I.
    + vm_compute. reflexivity.
    + apply (bool_decide_unpack _). vm_compute. exact I.
Defined.
