(* ===== verification/ManifestErrors.v ===== *)
(** * The errors of the manifest parser

    Every line is either read or refused with its number: no index of the
    parser is ever outside of the list it points into. *)

From S2P Require Import Prelude GoStrings StableId Availability Capability Manifest ManifestValidate ManifestYAML ManifestFacts.

(** ** Indices *)

(** Each index is that of an element, or negative. *)
Definition bounded (p : Parser) : Prop :=
  (ns_consumptionIndex (ps_nested p) < Z.of_nat (length (mf_Consumes (ps_manifest p))))%Z /\
  (ns_metricsIndex (ps_nested p) < Z.of_nat (length (me_Sources (mf_Metrics (ps_manifest p)))))%Z /\
  (ns_exposureIndex (ps_nested p) < Z.of_nat (length (mf_Exposures (ps_manifest p))))%Z /\
  (ns_runtimePermissionIndex (ps_nested p) < Z.of_nat (length (ru_Permissions (mf_Runtime (ps_manifest p)))))%Z.

Definition at_some_line (n : Z) (e : error) : Prop := exists format args, e = at_line n format args.

(** What a step on line [n] may return. *)
Definition good (n : Z) (r : result error Parser) : Prop :=
  match r with Ok p => bounded p | Err e => at_some_line n e end.

(** A computation of a value that fails with the line. *)
Definition located {A} (n : Z) (r : result error A) : Prop :=
  match r with Ok _ => True | Err e => at_some_line n e end.

Lemma at_line_some n format args : at_some_line n (at_line n format args).
Proof. by exists format, args. Qed.

Lemma good_reject n b format args r : (b = false -> good n r) -> good n (reject b (at_line n format args) ;; r).
Proof. rewrite reject_seq. destruct b; intros H; [apply at_line_some|by apply H]. Qed.

Lemma good_bind {A} n (r : result error A) k : located n r -> (forall a, r = Ok a -> good n (k a)) -> good n (r ≫= k).
Proof. destruct r; simpl; intros H1 H2; [by apply H2|done]. Qed.

Lemma good_step n r k : good n r -> (forall p, bounded p -> good n (k p)) -> good n (r ≫= k).
Proof. destruct r; simpl; intros H1 H2; [by apply H2|done]. Qed.

Lemma located_or_error {A} n (o : option A) format args : located n (or_error o (at_line n format args)).
Proof. destruct o; [done|apply at_line_some]. Qed.

Lemma located_bind {A B} n (r : result error A) (k : A -> result error B) :
  located n r -> (forall a, r = Ok a -> located n (k a)) -> located n (r ≫= k).
Proof. destruct r; simpl; intros H1 H2; [by apply H2|done]. Qed.

Lemma located_key_value n s format args : located n (key_value s (at_line n format args)).
Proof. unfold key_value. destruct (Cut s ":") as [[k v] []]; [done|apply at_line_some]. Qed.

Lemma located_named n what key s : located n (parse_named n what key s).
Proof.
  unfold parse_named. destruct (Cut _ _) as [[k v] b]. rewrite reject_seq. destruct (_ || _); [apply at_line_some|done].
Qed.

Lemma located_reject {A} n b format args (r : result error A) : located n r -> located n (reject b (at_line n format args) ;; r).
Proof. rewrite reject_seq. destruct b; [intros; apply at_line_some|done]. Qed.

(** An index that was checked finds its element. *)
Lemma located_assign {A} n (f : A -> result error A) i l :
  (0 <= i < Z.of_nat (length l))%Z -> (forall x, located n (f x)) -> located n (assign_at f i l).
Proof.
  intros Hi Hf. unfold assign_at. destruct (Z.ltb_spec i 0); [lia|].
  destruct (lookup_lt_is_Some_2 l (Z.to_nat i)) as [x ->]; [lia|]. specialize (Hf x). by destruct (f x).
Qed.

Lemma assign_at_length {A} (f : A -> result error A) i l l' : assign_at f i l = Ok l' -> length l' = length l.
Proof.
  unfold assign_at. destruct (if (i <? 0)%Z then None else l !! Z.to_nat i); [|done].
  rewrite bind_Ok. intros (y & _ & [= <-]). apply length_insert.
Qed.

Create HintDb located.
#[export] Hint Resolve at_line_some located_or_error located_key_value located_named located_reject : located.

Ltac in_bounds := cbn [good]; unfold bounded in *; simpl in *; unfold last_index; rewrite ?length_app; simpl; lia.

(** Runs through a step: tests, bindings and results. *)
Ltac good_steps :=
  repeat first
    [ progress cbv zeta
    | apply good_reject; intros _
    | apply at_line_some
    | lazymatch goal with
      | |- good _ (if ?b then _ else _) => destruct b
      | |- good _ (let '(_, _) := ?c in _) => destruct c
      | |- good _ (match ?c with _ => _ end) => destruct c eqn:?
      | |- good _ (Ok _) => simpl; try in_bounds
      | |- good _ (Err _) => apply at_line_some
      | |- good _ (_ ≫= _) => apply good_bind; [solve [auto with located]|intros ? ?]
      end ].

(** ** The steps *)

Section steps.
Context (n : Z) (p : Parser) (Hp : bounded p).

Lemma good_secret t : good n (parseSecretRequirement n t p).
Proof using Hp. unfold parseSecretRequirement. good_steps. Qed.

Lemma good_source t : good n (parseMetricsSource n t p).
Proof using Hp. unfold parseMetricsSource. good_steps. Qed.

Lemma good_permission t : good n (parseRuntimePermission n t p).
Proof using Hp. unfold parseRuntimePermission. good_steps. Qed.

Lemma good_exposure t : good n (parseHTTPExposure n t p).
Proof using Hp. unfold parseHTTPExposure. good_steps. Qed.

Lemma good_consumption t : good n (parse_consumption n t p).
Proof using Hp. unfold parse_consumption. good_steps. Qed.

Lemma good_override t : good n (parse_override n t p).
Proof using Hp. unfold parse_override. good_steps. Qed.

Lemma good_service_field t : good n (parseServiceField n t p).
Proof using Hp. unfold parseServiceField. good_steps. Qed.

Lemma good_instance t : good n (parseServiceInstance n t p).
Proof using Hp.
  unfold parseServiceInstance. good_steps. destruct (validateSlug _ _); simpl; [done|apply at_line_some].
Qed.

Lemma good_app_field t : good n (parseAppField n t p).
Proof using Hp. unfold parseAppField. good_steps. Qed.

Lemma good_top t : good n (parseTopLevel n t p).
Proof using Hp. unfold parseTopLevel. good_steps. Qed.

Lemma good_authentication t : good n (parse_authentication_field n t p).
Proof using Hp. unfold parse_authentication_field. good_steps. Qed.

Lemma good_identity_item t : good n (parse_identity_item n t p).
Proof using Hp. unfold parse_identity_item. good_steps. Qed.

Lemma good_component t : good n (parse_component n t p).
Proof using Hp. unfold parse_component. good_steps. Qed.

Lemma good_log t : good n (parse_log n t p).
Proof using Hp. unfold parse_log. good_steps. Qed.

Lemma good_method t : good n (parse_method n t p).
Proof using Hp. unfold parse_method. good_steps. Qed.

Lemma good_signal t : good n (parse_signal n t p).
Proof using Hp. unfold parse_signal. good_steps. Qed.

Lemma good_generate : good n (parse_generate n p).
Proof using Hp. unfold parse_generate. good_steps. Qed.

Lemma good_override_field t : good n (parse_override_field n t p).
Proof using Hp.
  unfold parse_override_field. good_steps. apply good_bind; [|intros ? ?; good_steps].
  destruct (_ == _); [|destruct (_ == _); [|apply at_line_some]]; apply located_bind; auto with located; by intros.
Qed.

Lemma good_consumption_field t : (0 <= ns_consumptionIndex (ps_nested p))%Z -> good n (parse_consumption_field n t p).
Proof using Hp.
  intros Hi. unfold parse_consumption_field. apply good_bind; [auto with located|]. intros [key v] _. apply good_bind.
  - apply located_assign; [split; [done|apply Hp]|]. intros x. unfold set_consumption_field. repeat case_bool_decide; first [exact I|apply at_line_some].
  - intros l Hl%assign_at_length. in_bounds.
Qed.

Lemma good_source_field t : (0 <= ns_metricsIndex (ps_nested p))%Z -> good n (parseMetricsSourceField n t p).
Proof using Hp.
  intros Hi. unfold parseMetricsSourceField. apply good_bind; [auto with located|]. intros [key v] _. apply good_bind.
  - apply located_assign; [split; [done|apply Hp]|]. intros x. unfold set_source_field.
    repeat case_bool_decide; first [exact I|apply at_line_some|apply located_bind; [auto with located|done]].
  - intros l Hl%assign_at_length. in_bounds.
Qed.

Lemma good_exposure_field t : (0 <= ns_exposureIndex (ps_nested p))%Z -> good n (parseHTTPExposureField n t p).
Proof using Hp.
  intros Hi. unfold parseHTTPExposureField. apply good_bind; [auto with located|]. intros [key v] _. apply good_bind.
  - apply located_assign; [split; [done|apply Hp]|]. intros x. unfold set_exposure_field.
    repeat case_bool_decide; first [exact I|apply at_line_some|apply located_bind; [auto with located|done]].
  - intros l Hl%assign_at_length. in_bounds.
Qed.

Lemma good_extend f :
  (forall x, located n (f x)) -> (0 <= ns_runtimePermissionIndex (ps_nested p))%Z -> good n (extend_permission f p).
Proof using Hp.
  intros Hf Hi. unfold extend_permission. apply good_bind.
  - apply located_assign; [split; [done|apply Hp]|done].
  - intros l Hl%assign_at_length. in_bounds.
Qed.

Lemma good_generation t : good n (parse_generation n t p).
Proof using Hp.
  unfold parse_generation. cbv zeta. destruct (secretRequirementPointer _ _ _) as [[name [g|]]|]; [|apply at_line_some..].
  apply good_reject. intros _. apply good_bind; [|intros ? ?; in_bounds].
  unfold parseSecretGenerationField. apply located_bind; [auto with located|]. intros [key v] _.
  repeat case_bool_decide; first [exact I|apply at_line_some|apply located_bind; [auto with located|done]].
Qed.
End steps.

Lemma good_service_section n p t : bounded p -> good n (parseServiceSection n t p).
Proof.
  intros Hp. unfold parseServiceSection. good_steps. apply good_step; [apply good_service_field|intros q Hq]; in_bounds.
Qed.

(** ** The levels *)

Lemma bounded_nested p f :
  (forall s, ns_consumptionIndex (f s) = ns_consumptionIndex s /\ ns_metricsIndex (f s) = ns_metricsIndex s /\
    ns_exposureIndex (f s) = ns_exposureIndex s /\ ns_runtimePermissionIndex (f s) = ns_runtimePermissionIndex s) ->
  bounded p -> bounded (nested p f).
Proof. intros Hf Hp. unfold bounded. simpl. destruct (Hf (ps_nested p)) as (-> & -> & -> & ->). exact Hp. Qed.

Lemma good_2 n t p : bounded p -> good n (parseIndent2 n t p).
Proof.
  intros Hp. unfold parseIndent2. cbv zeta.
  assert (bounded (nested p (fun s => set_ns_secretGenerate false (set_ns_secretIndex (-1) (set_ns_serviceField "" s))))) as Hq by by apply bounded_nested.
  revert Hq. generalize (nested p (fun s => set_ns_secretGenerate false (set_ns_secretIndex (-1) (set_ns_serviceField "" s)))). clear p Hp. intros p Hp.
  destruct (_ && _); [by apply good_consumption|]. destruct (_ && _); [by apply good_override|].
  destruct (section p "app"); [by apply good_app_field|]. destruct (section p "services"); [by apply good_service_section|].
  good_steps.
Qed.

Lemma good_4 n t p : bounded p -> good n (parseIndent4 n t p).
Proof.
  intros Hp. unfold parseIndent4. cbv zeta.
  assert (bounded (nested p (set_ns_secretGenerate false))) as Hq by by apply bounded_nested.
  revert Hq. generalize (nested p (set_ns_secretGenerate false)). clear p Hp. intros p Hp.
  destruct (section p "consumes" && (0 <=? ns_consumptionIndex (ps_nested p))%Z) eqn:Hc.
  { apply andb_true_iff in Hc as [_ Hc%Z.leb_le]. by apply good_consumption_field. }
  clear Hc. destruct (_ && _); [by apply good_override_field|]. destruct (_ && _); [by apply good_service_field|].
  destruct (_ && _ && _); [by apply good_secret|]. destruct (_ && _ && _); [by apply good_component|].
  destruct (_ && _ && _); [in_bounds|]. destruct (_ && _ && _); [by apply good_log|]. destruct (_ && _ && _); [by apply good_source|].
  destruct (_ && _ && _); [by apply good_permission|]. destruct (_ && _ && _); [by apply good_exposure|].
  destruct (section p "identity"); [|apply at_line_some]. destruct (_ == _); [by apply good_authentication|by apply good_identity_item].
Qed.

Lemma good_6 n t p : bounded p -> good n (parseIndent6 n t p).
Proof.
  intros Hp. unfold parseIndent6. cbv zeta. do 2 (destruct (_ && _); [in_bounds|]).
  destruct (_ && _ && _); [by apply good_method|]. destruct (_ && _ && _); [by apply good_signal|].
  destruct (_ && _ && _) eqn:Hm.
  { apply andb_true_iff in Hm as [_ Hm%Z.leb_le]. by apply good_source_field. }
  clear Hm. destruct (_ && _ && _) eqn:He.
  { apply andb_true_iff in He as [_ He%Z.leb_le]. by apply good_exposure_field. }
  clear He. destruct (_ && _ && _ && _); [by apply good_generate|by apply good_instance].
Qed.

Lemma good_8 n t p : bounded p -> good n (parseIndent8 n t p).
Proof.
  intros Hp. unfold parseIndent8. cbv zeta.
  destruct (in_permission p && _ && _) eqn:H1.
  { unfold in_permission in H1. rewrite !andb_true_iff in H1. apply good_extend; [done|done|]. apply Z.leb_le. tauto. }
  clear H1. destruct (in_permission p && _ && _) eqn:H2; [|by apply good_generation].
  unfold in_permission in H2. rewrite !andb_true_iff in H2. apply good_extend; [done|done|]. apply Z.leb_le. tauto.
Qed.

Lemma good_line n i t p : bounded p -> good n (parseLine n i t p).
Proof.
  intros Hp. destruct i as [|[|[|[|[|[|[|[|[|i]]]]]]]]]; simpl; try apply at_line_some;
    [by apply good_top|by apply good_2|by apply good_4|by apply good_6|by apply good_8].
Qed.

(** ** Whole texts *)

Definition too_long : error := errorsNew "bufio.Scanner: token too long".

Lemma parse_texts_errors l n p :
  bounded p ->
  match parse_texts n l p with
  | Ok q => bounded q /\ Forall (fun s => (strlen s <= max_line)%nat) l
  | Err e =>
      (exists k, (n < k <= n + Z.of_nat (length l))%Z /\ at_some_line k e) \/ (e = too_long /\ Exists (fun s => (max_line < strlen s)%nat) l)
  end.
Proof.
  revert n p. induction l as [|s l IH]; intros n p Hp; cbn [parse_texts]; [by split|].
  destruct (Nat.ltb_spec max_line (strlen s)) as [Hs|Hs]; [right; split; [done|by constructor]|].
  assert (good (n + 1) (parse_text (n + 1) (drop_return s) p)) as Hg.
  { unfold parse_text. cbv zeta. destruct (_ || _); [done|by apply good_line]. }
  destruct (parse_text _ _ _) as [q|e]; cbn [mbind result_bind good] in *.
  - specialize (IH (n + 1)%Z q Hg). destruct (parse_texts _ l q) as [r|e].
    + destruct IH as [H1 H2]. split; [done|by constructor].
    + destruct IH as [(k & Hk & He)|[-> He]]; [left|right].
      * exists k. split; [|done]. simpl. lia.
      * split; [done|by constructor 2].
  - left. exists (n + 1)%Z. split; [simpl; lia|done].
Qed.

(** * Properties *)

(** C13: Every text is either read, or refused with the number of one of its
    lines, or refused because a line does not fit the scanner, or refused by
    the validation of the manifest that all of its lines describe: no step of
    the parser reaches outside of a list. *)
Theorem parse_errors {order : MapOrder} input canonical e :
  parseManifestYAML input canonical = Err e ->
  (exists n, (1 <= n <= Z.of_nat (length (scan input "")))%Z /\ at_some_line n e) \/
  (e = too_long /\ Exists (fun line => (max_line < strlen line)%nat) (scan input "")) \/
  (exists p, parse_texts 0 (scan input "") (newManifestYAMLParser canonical) = Ok p /\ ValidateIntent (ps_manifest p) = Err e).
Proof.
  unfold parseManifestYAML. rewrite bind_Err.
  pose proof (parse_texts_errors (scan input "") 0 (newManifestYAMLParser canonical) ltac:(done)) as H.
  intros [He|(p & Hp & He)].
  - rewrite He in H. destruct H as [(k & Hk & Ha)|H]; [left; exists k; split; [lia|done]|by right; left].
  - right. right. exists p. split; [done|]. apply bind_Err in He as [He|(u & _ & He)]; done.
Qed.

(** The second line, at an indentation of one level too many. *)
Lemma parse_errors_witness :
  let input := write_lines [(0%nat, "version: 1"); (6%nat, "name: shop")] in
  exists e, parseManifestYAML (order := mkMapOrder true true) input false = Err e /\ at_some_line 2 e.
Proof.
  intros input. exists (at_line 2 "invalid manifest structure" []). split; [vm_compute; reflexivity|].
  destruct (@parse_errors (mkMapOrder true true) input false (at_line 2 "invalid manifest structure" [])) as [(n & Hn & Hl)|[[He _]|(p & Hp & _)]].
  - vm_compute. reflexivity.
  - destruct Hl as (format & args & Hl). exists "invalid manifest structure", []. reflexivity.
  - discriminate He.
  - exfalso. vm_compute in Hp. discriminate Hp.
Defined.
