(* ===== verification/Cutover.v ===== *)
(** * The cutover of the cluster store (internal/coreupdate: dcs_cutover.go)

    The etcd cluster that coordinates Patroni is replaced by one restored from a
    snapshot.  The phase of the cutover is kept in a receipt that is bound to
    the identity of the snapshot; the runtime is reached through operations on
    an arbitrary state. *)

From S2P Require Import Prelude GoStrings FileSystem Effects StableId Sha256 UpdatePlan UpdateJournal Patroni.

(** ** Operations *)

Record DCSCutoverOps (S : Type) := mkCutoverOps {
  co_FenceOldDCS : M S unit;
  co_VerifyFenced : M S unit;
  co_ActivateIsolated : DCSRecoveryEvidence -> M S unit;
  co_VerifyNewQuorum : DCSRecoveryEvidence -> M S unit;
  co_VerifyPatroniDCS : M S unit;
  co_CommitCutover : DCSRecoveryEvidence -> M S unit }.

Arguments mkCutoverOps {S}.
Arguments co_FenceOldDCS {S}.
Arguments co_VerifyFenced {S}.
Arguments co_ActivateIsolated {S}.
Arguments co_VerifyNewQuorum {S}.
Arguments co_VerifyPatroniDCS {S}.
Arguments co_CommitCutover {S}.

(** ** The receipt *)

Record DCSCutoverJournal := mkCutoverJournal {
  cj_Path : string;
  cj_binding : string }.

Definition cutover_states : list string := ["prepared"; "fenced"; "activated"; "verified"; "committed"].

(** The text of a receipt: [next + " " + binding + "\n"]. *)
Definition receipt (phase binding : string) : string := phase +:+ " " +:+ binding +:+ newline.

(** What [hex.DecodeString] says of the first byte that is no digit. *)
Fixpoint hex_error (s : string) : error :=
  match s with
  | EmptyString => errorsNew "encoding/hex: odd length hex string"
  | String c s' => if is_hex c then hex_error s' else Errorf "encoding/hex: invalid byte: %#U" [AStr (String c "")]
  end.

(** The phase a receipt names. *)
Definition receipt_phase (binding data : string) : result error string :=
  match Fields data with
  | [phase; bound] =>
      reject (len bound != 64%Z) (errorsNew "unbound DCS cutover receipt") ;;
      reject (negb (hex_decodes bound)) (hex_error bound) ;;
      reject ((binding != "") && (bound != binding)) (errorsNew "DCS recovery identity changed on resume") ;;
      if bool_decide (phase ∈ cutover_states) then Ok phase
      else Err (errorsNew "corrupt or unknown DCS cutover state")
  | _ => Err (errorsNew "unbound DCS cutover receipt")
  end.

Section journal.
Context {os : OS} {dirs : Dirs} {names : TempNames}.

Definition cutover_load (j : DCSCutoverJournal) (fs : fsys) : result error string :=
  reject (cj_Path j == "") (errorsNew "durable DCS cutover journal path required") ;;
  match Lstat fs (cj_Path j) with
  | Err err => if oe_NotExist err then Ok "" else Err (oe_text err)
  | Ok st =>
      reject (negb (f_Regular st) || (Z.land (f_Perm st) shared_bits != 0)%Z || (160 <? len (f_Data st))%Z)
        (errorsNew "unsafe DCS cutover journal") ;;
      data ← wrap_err oe_text (ReadFile fs (cj_Path j));
      receipt_phase (cj_binding j) data
  end.

Definition cutover_record (j : DCSCutoverJournal) (previous next : string) : M disk unit := fun dk =>
  let dir := dir_of (cj_Path j) in
  let checked :=
    reject ((cj_Path j == "") || (cj_binding j == "")) (errorsNew "durable identity-bound DCS cutover journal required") ;;
    private_dir dir "DCS cutover journal directory not private" ;;
    observed ← cutover_load j (dk_Files dk);
    reject (observed != previous) (errorsNew "DCS cutover phase changed unexpectedly") in
  match checked with
  | Err err => (dk, Err err)
  | Ok _ => replace_synced dir (temp_name dir ".dcs-cutover-") (cj_Path j) (receipt next (cj_binding j)) dk
  end.

Definition nul_text : string := bytes [0].

Definition dcsCutoverBinding (evidence : DCSRecoveryEvidence) : result error string :=
  let fields := [ev_Installation evidence; ev_Target evidence; ev_Cluster evidence; ev_Release evidence;
                 ev_SnapshotID evidence; ev_SHA256 evidence] in
  forE (fun _ field => reject ((field == "") || has_byte (byte_of 0) field)
                         (errorsNew "invalid DCS cutover identity field")) tt fields ;;
  Ok (digest_text (Join fields nul_text)).

(** The lock must not exist. *)
Definition create_lock (path : string) : M disk unit :=
  wrapM (fun err => Errorf "exclusive DCS cutover lock unavailable: %w" [ATxt err]) (create_exclusive path).

Definition remove_file (path : string) : M disk unit := fun dk => (visit dk (Remove (dk_Files dk) path), Ok tt).

(** ** The cutover

    The state is that of the runtime and the disk. *)
Context {S : Type} (ctx : Ctx S).
Abbreviation state := (S * disk)%type.

Definition record_phase (j : DCSCutoverJournal) (previous next : string) : M state unit :=
  onSnd (cutover_record j previous next).

(** The first attempt: the receipt says so before the old cluster is fenced. *)
Definition fence_phase (adapter : DCSRecoveryAdapter S) (evidence : DCSRecoveryEvidence) (ops : DCSCutoverOps S)
    (j : DCSCutoverJournal) : M state unit :=
  wrapM (fun err => Errorf "isolated DCS recovery proof before fencing: %w" [ATxt err])
    (onFst (da_VerifyRestorable adapter evidence)) ;;
  record_phase j "" "prepared" ;;
  wrapM (fun err => Errorf "old DCS fence outcome ambiguous: %w" [ATxt err]) (onFst (co_FenceOldDCS ops)) ;;
  wrapM (fun err => Errorf "old DCS fence not proven: %w" [ATxt err]) (onFst (co_VerifyFenced ops)) ;;
  record_phase j "prepared" "fenced".

(** From the fenced phase on. *)
Definition activate_phase (evidence : DCSRecoveryEvidence) (ops : DCSCutoverOps S) (j : DCSCutoverJournal) (phase : string)
    : M state string :=
  if phase == "fenced" then
    wrapM (fun err => Errorf "isolated DCS activation interrupted: %w" [ATxt err]) (onFst (co_ActivateIsolated ops evidence)) ;;
    record_phase j "fenced" "activated" ;;
    mret "activated"
  else mret phase.

Definition commit_phase (evidence : DCSRecoveryEvidence) (ops : DCSCutoverOps S) (j : DCSCutoverJournal) (phase : string)
    : M state unit :=
  phase ← (if phase == "activated" then record_phase j "activated" "verified" ;; mret "verified" else mret phase);
  if phase == "verified" then
    onFst (co_CommitCutover ops evidence) ;;
    record_phase j "verified" "committed"
  else pureM (reject (phase != "committed") (Errorf "unsupported DCS phase %s" [AStr phase])).

Definition run_cutover (adapter : DCSRecoveryAdapter S) (evidence : DCSRecoveryEvidence) (ops : DCSCutoverOps S)
    (j : DCSCutoverJournal) (phase : string) : M state unit :=
  checkM (phase == "verified")
    (errorsNew "UNSUPPORTED: interrupted DCS commit requires operator reconciliation before replay") ;;
  phase ← (if phase == "" then fence_phase adapter evidence ops j ;; mret "fenced"
           else
             checkM (phase == "prepared")
               (errorsNew "UNSUPPORTED: interrupted DCS fencing requires operator verification; refusing automatic dual-primary cutover") ;;
             mret phase);
  if phase == "committed" then
    wrapM (fun err => Errorf "committed DCS quorum no longer healthy: %w" [ATxt err]) (onFst (co_VerifyNewQuorum ops evidence)) ;;
    onFst (co_VerifyPatroniDCS ops)
  else
    wrapM (fun err => Errorf "DCS fence evidence lost: %w" [ATxt err]) (onFst (co_VerifyFenced ops)) ;;
    phase ← activate_phase evidence ops j phase;
    wrapM (fun err => Errorf "new DCS quorum is unverified: %w" [ATxt err]) (onFst (co_VerifyNewQuorum ops evidence)) ;;
    wrapM (fun err => Errorf "Patroni DCS readiness unverified: %w" [ATxt err]) (onFst (co_VerifyPatroniDCS ops)) ;;
    commit_phase evidence ops j phase.

(** The lock is removed however the cutover ends. *)
Definition deferred {A} (m : M state A) (cleanup : M disk unit) : M state A := fun s =>
  let '(s, r) := m s in (fst (onSnd cleanup s), r).

Definition RunVerifiedDCSCutover (adapter : option (DCSRecoveryAdapter S)) (evidence : DCSRecoveryEvidence) (i : identity)
    (ops : option (DCSCutoverOps S)) (journal : DCSCutoverJournal) : M state unit :=
  ops ← pureM (requireM ops ErrDCSUnsupported);
  adapter ← onFst (validateDCSEvidence ctx adapter evidence i);
  binding ← pureM (dcsCutoverBinding evidence);
  let journal := mkCutoverJournal (cj_Path journal) binding in
  checkM (cj_Path journal == "") (errorsNew "durable DCS cutover journal path required") ;;
  pureM (private_dir (dir_of (cj_Path journal)) "DCS cutover lock directory must be owner-only") ;;
  let lock := cj_Path journal +:+ ".lock" in
  onSnd (create_lock lock) ;;
  pureM (attempt (OpClose lock)) ;;
  deferred (fun s => (phase ← pureM (cutover_load journal (dk_Files (snd s)));
                      run_cutover adapter evidence ops journal phase) s)
    (remove_file lock).
End journal.

(** ** Calls *)

Inductive cutover_event : Type :=
| EvFence (ok : bool)
| EvVerifyFenced (ok : bool)
| EvActivate (ok : bool)
| EvQuorum (ok : bool)
| EvPatroni (ok : bool)
| EvCommit (ok : bool).

Global Instance cutover_event_eq_dec : EqDecision cutover_event.
Proof. solve_decision. Defined.

Definition watch_cutover {S} (ops : DCSCutoverOps S) : DCSCutoverOps (S * list cutover_event) :=
  let seen (event : bool -> cutover_event) := watch (fun r : result error unit => event (is_ok r)) in
  mkCutoverOps (seen EvFence (co_FenceOldDCS ops)) (seen EvVerifyFenced (co_VerifyFenced ops))
    (fun evidence => seen EvActivate (co_ActivateIsolated ops evidence))
    (fun evidence => seen EvQuorum (co_VerifyNewQuorum ops evidence)) (seen EvPatroni (co_VerifyPatroniDCS ops))
    (fun evidence => seen EvCommit (co_CommitCutover ops evidence)).

Definition is_fence (e : cutover_event) : bool := match e with EvFence _ => true | _ => false end.
Definition is_commit (e : cutover_event) : bool := match e with EvCommit _ => true | _ => false end.

Definition calls (p : cutover_event -> bool) (evs : list cutover_event) : nat := length (List.filter p evs).

(** What must have succeeded before a call. *)
Definition prerequisites (e : cutover_event) : list cutover_event :=
  match e with
  | EvActivate _ => [EvFence true; EvVerifyFenced true]
  | EvCommit _ => [EvFence true; EvVerifyFenced true; EvActivate true; EvQuorum true; EvPatroni true]
  | _ => []
  end.

Definition orderly : list cutover_event -> Prop :=
  obeys (fun before e => forall p, p ∈ prerequisites e -> p ∈ before).

(** The cutover is attempted any number of times, each time with other faults
    of the disk, another context, other evidence and other operations; in
    between, other files may change in any way. *)
Inductive attempts {S} (path : string) : disk -> list cutover_event -> Prop :=
| attempts_start dk : dk_Files dk !! path = None -> attempts path dk []
| attempts_run (os : OS) (dirs : Dirs) (names : TempNames) (ctx : Ctx S) adapter evidence i ops binding w w' dk dk' evs evs' r :
    attempts path dk evs -> temp_name (dir_of path) ".dcs-cutover-" <> path ->
    RunVerifiedDCSCutover (beside_ctx ctx) (beside_adapter <$> adapter) evidence i (watch_cutover <$> ops)
      (mkCutoverJournal path binding) ((w, evs), dk) = (((w', evs'), dk'), r) ->
    attempts path dk' evs'
| attempts_other dk dk' evs :
    attempts path dk evs -> dk_Files dk' !! path = dk_Files dk !! path -> attempts path dk' evs.
