(* ===== verification/CutoverFacts.v ===== *)
(** * Properties of the cutover

    Whatever fails, and however often the cutover is attempted, the old cluster
    is fenced at most once and the cutover committed at most once, each step
    after the proofs it needs. *)

From S2P Require Import Prelude GoStrings FileSystem Effects StableId Sha256 UpdatePlan UpdateJournal Patroni Cutover.

(** ** Receipts *)

(** A binding: the text of a digest. *)
Definition binding_text (b : string) : Prop :=
  strlen b = 64%nat /\ forall c, has_byte c b = true -> is_lower_hex c = true.

Lemma binding_visible b : binding_text b -> visible_text b /\ b <> "" /\ hex_decodes b = true.
Proof.
  intros [Hlen Hb]. split_and!.
  - intros c Hc. by apply hex_not_space, Hb.
  - by intros ->.
  - unfold hex_decodes. rewrite Hlen. change (Nat.even 64) with true. rewrite andb_true_l.
    clear Hlen. induction b as [|c b IH]; [done|]. simpl. apply andb_true_iff. split.
    + assert (is_lower_hex c = true) as Hc by (apply Hb; simpl; by rewrite (proj2 (eqb_true c c))).
      pose proof (ascii_table (fun c => negb (is_lower_hex c) || is_hex c) ltac:(by vm_compute) c) as Ht.
      cbv beta in Ht. by rewrite Hc in Ht.
    + apply IH. intros d Hd. apply Hb. simpl. by rewrite Hd, orb_true_r.
Qed.

Lemma state_visible phase : phase ∈ cutover_states -> visible_text phase /\ phase <> "".
Proof.
  assert (Forall (fun w => (forallb (fun c => visible c) (Stdlib.Strings.String.list_ascii_of_string w) && (w != "")) = true) cutover_states) as H
    by by repeat constructor.
  rewrite Forall_forall in H. intros [Hp Hn]%H%andb_true_iff. rewrite neqb_true in Hn. split; [|done].
  clear H Hn. induction phase as [|d w IH]; intros c; simpl in *; [done|].
  apply andb_true_iff in Hp as [Hd Hw]. intros [Hc|Hc]%orb_true_iff; [apply bool_decide_eq_true in Hc; by subst|by apply IH].
Qed.

Lemma Fields_receipt phase b : phase ∈ cutover_states -> binding_text b -> Fields (receipt phase b) = [phase; b].
Proof. intros [Hp Hp0]%state_visible (Hb & Hb0 & _)%binding_visible. by apply Fields_two. Qed.

(** What a load makes of a receipt: its phase, or an error. *)
Lemma receipt_phase_spec phase b b' p :
  phase ∈ cutover_states -> binding_text b -> receipt_phase b' (receipt phase b) = Ok p -> p = phase.
Proof.
  intros Hp Hb. unfold receipt_phase. rewrite Fields_receipt by done. rewrite !reject_seq_Ok.
  intros (_ & _ & _ & H). case_match; [by injection H as <-|done].
Qed.

Lemma dcsCutoverBinding_text evidence b : dcsCutoverBinding evidence = Ok b -> binding_text b.
Proof. unfold dcsCutoverBinding. rewrite seq_Ok. intros [_ [= <-]]. apply digest_text_spec. Qed.

(** ** The calls so far, by the phase of the receipt *)

(** No receipt is phase 0. *)
Definition phase_number (phase : string) : nat :=
  if phase == "prepared" then 1 else if phase == "fenced" then 2 else if phase == "activated" then 3
  else if phase == "verified" then 4 else if phase == "committed" then 5 else 0.

(** What succeeded when the receipt reached a phase. *)
Definition proven_by (n : nat) : list cutover_event :=
  (if 2 <=? n then [EvFence true; EvVerifyFenced true] else []) ++ (if 3 <=? n then [EvActivate true] else []) ++
  (if 4 <=? n then [EvQuorum true; EvPatroni true] else []).

Record stage (n : nat) (evs : list cutover_event) : Prop := mkStage {
  sg_orderly : orderly evs;
  sg_fences : (calls is_fence evs <= if (n =? 0)%nat then 0 else 1)%nat;
  sg_commits : (calls is_commit evs <= if (n <? 4)%nat then 0 else 1)%nat;
  sg_proven : forall p, p ∈ proven_by n -> p ∈ evs }.

(** The receipt on the disk. *)
Definition at_phase (f : option file) (n : nat) : Prop :=
  match f with
  | None => n = 0%nat
  | Some f => exists phase b, f_Data f = receipt phase b /\ phase ∈ cutover_states /\ binding_text b /\ phase_number phase = n
  end.

Lemma calls_snoc p evs e : calls p (evs ++ [e]) = (calls p evs + (if p e then 1 else 0))%nat.
Proof. unfold calls. rewrite List.filter_app, length_app. simpl. by destruct (p e). Qed.

Lemma orderly_snoc evs e : orderly evs -> (forall p, p ∈ prerequisites e -> p ∈ evs) -> orderly (evs ++ [e]).
Proof. apply (obeys_snoc (fun before e => forall p, p ∈ prerequisites e -> p ∈ before)). Qed.

(** One more call, by an operation that was not called before or need not be. *)
Lemma stage_snoc n evs e :
  stage n evs -> (forall p, p ∈ prerequisites e -> p ∈ evs) ->
  (is_fence e = true -> calls is_fence evs = 0%nat /\ n <> 0%nat) ->
  (is_commit e = true -> calls is_commit evs = 0%nat /\ (4 <= n)%nat) -> stage n (evs ++ [e]).
Proof.
  intros [Ho Hf Hc Hp] Hpre Hfe Hce. split.
  - by apply orderly_snoc.
  - rewrite calls_snoc. destruct (is_fence e); [|by rewrite Nat.add_0_r]. destruct Hfe as [-> Hn]; [done|].
    by apply Nat.eqb_neq in Hn as ->.
  - rewrite calls_snoc. destruct (is_commit e); [|by rewrite Nat.add_0_r]. destruct Hce as [-> Hn]; [done|].
    apply Nat.ltb_ge in Hn. by rewrite Hn.
  - intros p H. apply elem_of_app. left. by apply Hp.
Qed.

(** The receipt may say that the next phase is reached. *)
Lemma stage_next n evs : stage n evs -> (forall p, p ∈ proven_by (S n) -> p ∈ evs) -> stage (S n) evs.
Proof.
  intros [Ho Hf Hc _] Hp. split; [done| |..|done].
  - simpl. destruct (n =? 0)%nat; lia.
  - destruct (Nat.ltb_spec n 4), (Nat.ltb_spec (S n) 4); lia.
Qed.

(** ** One attempt *)

Section attempt.
Context {os : OS} {dirs : Dirs} {names : TempNames} {S : Type} (path binding : string).
Context (tmp_neq : temp_name (dir_of path) ".dcs-cutover-" <> path) (bound : binding_text binding).
Context (adapter : DCSRecoveryAdapter S) (evidence : DCSRecoveryEvidence) (ops : DCSCutoverOps S).
Abbreviation state := (S * list cutover_event * disk)%type.
Abbreviation J := (mkCutoverJournal path binding).
Abbreviation O := (watch_cutover ops).
Abbreviation A := (beside_adapter adapter).

Definition reached (n : nat) (evs : list cutover_event) (s : state) : Prop :=
  snd (fst s) = evs /\ at_phase (dk_Files (snd s) !! path) n /\ stage n evs.

(** How every attempt ends. *)
Definition sound (s : state) : Prop := exists n evs, reached n evs s.

Lemma reached_sound n evs s : reached n evs s -> sound s.
Proof. intros H. by exists n, evs. Qed.

Lemma run_op (event : bool -> cutover_event) (m : M S unit) n evs s (Q : unit -> state -> Prop) :
  reached n evs s -> (forall ok, stage n (evs ++ [event ok])) ->
  (forall s', reached n (evs ++ [event true]) s' -> Q tt s') ->
  run (onFst (watch (fun r => event (is_ok r)) m)) s Q sound.
Proof.
  intros (<- & Hf & Hs) Hst HQ. unfold run, onFst, watch. destruct s as [[w evs] dk]. simpl in *.
  destruct (m w) as [w' [[]|e]]; simpl; [apply HQ|exists n, (evs ++ [event false])]; by split_and!.
Qed.

Lemma run_quiet {B} (m : M S B) n evs s (Q : B -> state -> Prop) :
  reached n evs s -> (forall b s', reached n evs s' -> Q b s') -> run (onFst (onFst m)) s Q sound.
Proof.
  intros (<- & Hf & Hs) HQ. unfold run, onFst. destruct s as [[w evs] dk]. simpl in *.
  destruct (m w) as [w' [b|e]]; simpl; [apply HQ|exists n, evs]; by split_and!.
Qed.

Lemma run_phase_record previous next n evs s (Q : unit -> state -> Prop) :
  reached n evs s -> next ∈ cutover_states -> stage (phase_number next) evs ->
  (forall s', reached (phase_number next) evs s' -> Q tt s') ->
  run (record_phase J previous next) s Q sound.
Proof.
  intros (<- & Hf & Hs) Hnext Hst HQ. unfold run, record_phase, onSnd, cutover_record. destruct s as [[w evs] dk]. simpl in *.
  destruct (_ ;; _) as [[]|e]; [|by exists n, evs].
  destruct (replace_synced _ _ _ _ dk) as [dk' r] eqn:Hr.
  apply replace_synced_atomic in Hr as [(visited & _ & Hin & Hv & _) Hok]; [|done].
  assert (forall fs : fsys, fs !! path = Some (mkFile (receipt next binding) true owner_only) -> at_phase (fs !! path) (phase_number next)) as Hnew
    by (intros fs ->; by exists next, binding).
  destruct r as [[]|e]; simpl; [apply HQ; split_and!; auto|].
  apply elem_of_cons in Hin as [Heq|Hin].
  - exists n, evs. split_and!; [done| |done]. simpl. by rewrite Heq.
  - rewrite Forall_forall in Hv. destruct (Hv _ Hin) as [Heq|[_ Heq]].
    + exists n, evs. split_and!; [done| |done]. simpl. by rewrite Heq.
    + exists (phase_number next), evs. split_and!; [done| |done]. by apply Hnew.
Qed.

Lemma run_stop {B} (e : error) n evs s (Q : B -> state -> Prop) : reached n evs s -> run (pureM (Err e)) s Q sound.
Proof. intros H. apply run_pure. by eapply reached_sound. Qed.

Lemma run_guard (cond : bool) e n evs s (Q : unit -> state -> Prop) :
  reached n evs s -> (cond = false -> Q tt s) -> run (checkM cond e) s Q sound.
Proof. intros H HQ. apply run_pure. destruct cond; [by eapply reached_sound|by apply HQ]. Qed.

(** Calls that have no prerequisites and are not counted. *)
Lemma stage_check n evs e :
  stage n evs -> prerequisites e = [] -> is_fence e = false -> is_commit e = false -> stage n (evs ++ [e]).
Proof. intros H Hp Hf Hc. apply stage_snoc; [done| |by rewrite Hf|by rewrite Hc]. intros p. rewrite Hp. by intros ?%not_elem_of_nil. Qed.

Ltac in_events := rewrite ?elem_of_app, ?list_elem_of_singleton; tauto.

Lemma run_fence s :
  reached 0 (snd (fst s)) s ->
  run (fence_phase A evidence O J) s (fun _ s' => reached 2 (snd (fst s')) s') sound.
Proof.
  intros Hs. unfold fence_phase. apply run_bind, run_wrap. eapply run_quiet; [exact Hs|]. intros [] s1 Hs1.
  assert (calls is_fence (snd (fst s)) = 0%nat) as Hno by (destruct Hs as (_ & _ & [_ Hf _ _]); simpl in Hf; lia).
  apply run_bind. eapply run_phase_record; [exact Hs1|set_solver| |].
  { destruct Hs as (_ & _ & Hst). apply (stage_next 0); [done|]. intros p Hp. by apply not_elem_of_nil in Hp. }
  change (phase_number "prepared") with 1%nat. intros s2 Hs2.
  apply run_bind, run_wrap. eapply run_op; [exact Hs2| |].
  { intros ok. destruct Hs2 as (_ & _ & Hst). apply stage_snoc; [done|set_solver|done|done]. }
  intros s3 Hs3. apply run_bind, run_wrap. eapply run_op; [exact Hs3| |].
  { intros ok. by apply stage_check; [apply Hs3|..]. }
  intros s4 Hs4. eapply run_phase_record; [exact Hs4|set_solver| |].
  { destruct Hs4 as (_ & _ & Hst). apply (stage_next 1); [done|]. intros p Hp. unfold proven_by in Hp. simpl in Hp.
    rewrite !elem_of_cons in Hp. rewrite !elem_of_app, !list_elem_of_singleton. set_solver. }
  intros s5 Hs5. destruct Hs5 as (He & Hf & Hst). unfold reached. by rewrite He.
Qed.

(** The events of the previous phases are kept. *)
Lemma proven_app n evs new p : stage n evs -> p ∈ proven_by n -> p ∈ evs ++ new.
Proof. intros [_ _ _ H] Hp. apply elem_of_app. left. by apply H. Qed.

Lemma run_activate n phase s :
  reached n (snd (fst s)) s -> phase_number phase = n -> (2 <= n)%nat ->
  run (activate_phase evidence O J phase) s
    (fun phase' s' => exists n', reached n' (snd (fst s')) s' /\ phase_number phase' = n' /\ (3 <= n')%nat /\
       (phase' = "activated" \/ phase' = phase)) sound.
Proof.
  intros Hs Hn H2. unfold activate_phase. case_bool_decide as Hp.
  - subst phase. change (phase_number "fenced") with 2%nat in Hn. subst n.
    apply run_bind, run_wrap. eapply run_op; [exact Hs| |].
    { intros ok. destruct Hs as (_ & _ & Hst). apply stage_snoc; [done| |done|done]. intros p Hp. by apply (sg_proven 2). }
    intros s1 Hs1. apply run_bind. eapply run_phase_record; [exact Hs1|set_solver| |].
    { destruct Hs1 as (_ & _ & Hst). apply (stage_next 2); [done|]. intros p Hp. unfold proven_by in Hp. simpl in Hp.
      rewrite !elem_of_cons in Hp. destruct_or!; subst; try (apply (sg_proven 2 _ Hst); set_solver); set_solver. }
    intros s2 Hs2. apply run_ret. exists 3%nat. change (phase_number "activated") with 3%nat in *.
    pose proof Hs2 as (-> & _). split_and!; [done|done|lia|by left].
  - apply run_ret. exists n. split_and!; [done|done| |by right]. subst n. unfold phase_number in *.
    rewrite (proj2 (eqb_false phase "fenced") Hp) in *. repeat case_match; lia.
Qed.

Lemma run_commit n phase s :
  reached n (snd (fst s)) s -> phase_number phase = n -> n = 3%nat ->
  EvQuorum true ∈ snd (fst s) -> EvPatroni true ∈ snd (fst s) ->
  run (commit_phase evidence O J phase) s (fun _ => sound) sound.
Proof.
  intros Hs Hn -> Hq Hp.
  assert (phase = "activated") as -> by (unfold phase_number in Hn; repeat case_bool_decide; done).
  unfold commit_phase. apply run_bind, run_bind.
  eapply run_phase_record; [exact Hs|set_solver| |].
  { destruct Hs as (_ & _ & Hst). apply (stage_next 3); [done|]. intros p. unfold proven_by. simpl. rewrite !elem_of_cons.
    intros H. destruct_or!; subst; try done; try (apply (sg_proven 3 _ Hst); set_solver); set_solver. }
  change (phase_number "verified") with 4%nat. intros s1 Hs1. apply run_ret. simpl.
  pose proof Hs as (_ & _ & Hst). pose proof Hs1 as (Hevs & _ & Hst1).
  apply run_bind. eapply run_op; [exact Hs1| |].
  { intros ok. apply stage_snoc; [done| |done|].
    - intros p Hpp. apply (sg_proven 4 _ Hst1). exact Hpp.
    - intros _. split; [|done]. destruct Hst as [_ _ Hc _]. simpl in Hc. lia. }
  intros s2 Hs2. eapply run_phase_record; [exact Hs2|set_solver| |].
  { destruct Hs2 as (_ & _ & Hst2). apply (stage_next 4); [done|]. intros p Hpp. by apply (sg_proven 4). }
  intros s3 Hs3. by eapply reached_sound.
Qed.

Lemma run_run_cutover n phase s :
  reached n (snd (fst s)) s -> phase_number phase = n -> (phase = "" \/ phase ∈ cutover_states) ->
  run (run_cutover A evidence O J phase) s (fun _ => sound) sound.
Proof.
  intros Hs Hn Hphase. unfold run_cutover.
  apply run_bind. eapply run_guard; [exact Hs|]. intros Hv%eqb_false. apply run_bind.
  apply (run_mono _ _ (fun phase' s' => exists n', reached n' (snd (fst s')) s' /\ phase_number phase' = n' /\ (2 <= n')%nat /\
    phase' <> "verified") _ sound); [|done|].
  - clear phase n Hs Hn Hphase Hv s. intros phase s (n & Hs & Hn & H2 & Hv). case_bool_decide as Hc.
    { apply run_bind, run_wrap. eapply run_op; [exact Hs| |].
      { intros ok. by apply stage_check; [apply Hs|..]. }
      intros s1 Hs1. eapply run_op; [exact Hs1| |].
      { intros ok. by apply stage_check; [apply Hs1|..]. }
      intros s2 Hs2. by eapply reached_sound. }
    apply run_bind, run_wrap. eapply run_op; [exact Hs| |].
    { intros ok. by apply stage_check; [apply Hs|..]. }
    intros s1 Hs1. apply run_bind.
    eapply run_mono; [|intros ? H; exact H|eapply (run_activate n)].
    2:{ pose proof Hs1 as (-> & _). exact Hs1. } 2: done. 2: done.
    intros phase' s2 (n' & Hs2 & Hn' & H3 & Heq).
    apply run_bind, run_wrap. eapply run_op; [exact Hs2| |].
    { intros ok. by apply stage_check; [apply Hs2|..]. }
    intros s3 Hs3. apply run_bind, run_wrap. eapply run_op; [exact Hs3| |].
    { intros ok. by apply stage_check; [apply Hs3|..]. }
    intros s4 Hs4. pose proof Hs4 as (He4 & _). eapply (run_commit n').
    + by rewrite He4.
    + done.
    + destruct Heq as [->| ->]; [by rewrite <- Hn'|]. unfold phase_number in Hn'. repeat case_bool_decide; try done; lia.
    + rewrite He4. in_events.
    + rewrite He4. in_events.
  - case_bool_decide as H0.
    + subst phase. change (phase_number "") with 0%nat in Hn. subst n. apply run_bind.
      eapply run_mono; [|intros ? H; exact H|by apply run_fence].
      intros [] s1 Hs1. apply run_ret. by exists 2%nat.
    + apply run_bind. eapply run_guard; [exact Hs|]. intros Hp%eqb_false. apply run_ret. exists n.
      split_and!; [done|done| |done]. destruct Hphase as [?|Hin]; [done|].
      unfold cutover_states in Hin. rewrite !elem_of_cons, elem_of_nil in Hin. subst n.
      destruct_or!; subst; try done; unfold phase_number; simpl; lia.
Qed.
End attempt.

(** The evidence is validated without a recorded call. *)
Lemma run_validate {S R} (ctx : Ctx S) adapter evidence i (t : S * R) (Q : DCSRecoveryAdapter (S * R) -> S * R -> Prop) (X : S * R -> Prop) :
  (forall w, X (w, snd t)) -> (forall a w, Q (beside_adapter a) (w, snd t)) ->
  run (validateDCSEvidence (beside_ctx ctx) (beside_adapter <$> adapter) evidence i) t Q X.
Proof.
  intros HX HQ. unfold validateDCSEvidence. apply run_bind. simpl. unfold run, onFst.
  destruct (cx_Err ctx (fst t)) as [w [[]|e]]; [|apply HX].
  apply run_bind, run_pure. destruct adapter as [a|]; simpl; [|apply HX].
  apply run_bind, run_pure. destruct (negb (evidence_matches evidence i)); simpl; [apply HX|].
  apply run_bind, run_wrap. unfold run, onFst. simpl. destruct (da_Validate a evidence w) as [w' [[]|e]]; [apply HQ|apply HX].
Qed.

Section attempt_run.
Context {os : OS} {dirs : Dirs} {names : TempNames} {S : Type} (path : string).
Context (tmp_neq : temp_name (dir_of path) ".dcs-cutover-" <> path).
Abbreviation state := (S * list cutover_event * disk)%type.

(** Changing another file keeps what the receipt says. *)
Lemma reached_disk n evs (s s' : state) :
  reached path n evs s -> fst s' = fst s -> dk_Files (snd s') !! path = dk_Files (snd s) !! path -> reached path n evs s'.
Proof. intros (H1 & H2 & H3) Hs Hf. unfold reached. by rewrite Hs, Hf. Qed.

Lemma run_lock n evs (s : state) (Q : unit -> state -> Prop) :
  reached path n evs s -> (forall s', reached path n evs s' -> Q tt s') ->
  run (onSnd (create_lock (path +:+ ".lock"))) s Q (sound path).
Proof.
  intros Hs HQ. apply run_onSnd, run_wrap. unfold run, create_exclusive. destruct (os_fault _); [by exists n, evs; destruct s|].
  destruct (_ !! _); [by exists n, evs; destruct s|]. apply HQ. eapply reached_disk; [exact Hs|done|].
  simpl. rewrite lookup_insert_ne; [done|]. intros Heq. by apply (suffix_neq path ".lock").
Qed.

Lemma sound_unlocked (s : state) : sound path s -> sound path (fst (onSnd (remove_file (path +:+ ".lock")) s)).
Proof.
  intros (n & evs & Hs). exists n, evs. eapply reached_disk; [exact Hs|done|]. simpl. unfold Remove.
  destruct (os_fault _); [done|]. rewrite lookup_delete_ne; [done|]. intros Heq. by apply (suffix_neq path ".lock").
Qed.

Lemma run_deferred {A} (m : M state A) (cleanup : M disk unit) s (Q : A -> state -> Prop) (X : state -> Prop) :
  run m s (fun a s' => Q a (fst (onSnd cleanup s'))) (fun s' => X (fst (onSnd cleanup s'))) -> run (deferred m cleanup) s Q X.
Proof. unfold run, deferred. by destruct (m s) as [s' [a|e]]. Qed.

(** The phase that is loaded is the one of the receipt. *)
Lemma load_phase binding (fs : fsys) n phase :
  at_phase (fs !! path) n -> cutover_load (mkCutoverJournal path binding) fs = Ok phase ->
  phase_number phase = n /\ (phase = "" \/ phase ∈ cutover_states).
Proof.
  unfold cutover_load. simpl. rewrite reject_seq_Ok. intros Hf [_ H]. unfold Lstat, ReadFile in H.
  destruct (os_fault (OpLstat path)); [done|]. destruct (fs !! path) as [f|]; simpl in *.
  - apply reject_seq_Ok in H as [_ H]. apply bind_Ok in H as (data & Hd & H). apply wrap_err_Ok in Hd.
    destruct (os_fault (OpRead path)); [done|]. injection Hd as <-.
    destruct Hf as (p & b & Hdata & Hp & Hb & <-). rewrite Hdata in H. apply receipt_phase_spec in H as ->; [|done..].
    split; [done|by right].
  - injection H as <-. subst n. split; [done|by left].
Qed.

Lemma run_RunVerifiedDCSCutover ctx adapter evidence i ops binding n (s : state) :
  reached path n (snd (fst s)) s ->
  run (RunVerifiedDCSCutover (beside_ctx ctx) (beside_adapter <$> adapter) evidence i (watch_cutover <$> ops)
         (mkCutoverJournal path binding)) s (fun _ => sound path) (sound path).
Proof.
  intros Hs. unfold RunVerifiedDCSCutover.
  apply run_bind, run_pure. destruct ops as [ops|]; simpl; [|by eapply reached_sound].
  apply run_bind, run_onFst.
  assert (forall w : S, reached path n (snd (fst s)) ((w, snd (fst s)), snd s)) as Hw
    by (intros w; destruct Hs as (_ & H2 & H3); by split_and!).
  apply run_validate; [intros w; by eapply reached_sound|]. intros a w. specialize (Hw w).
  revert Hw. set (s1 := ((w, snd (fst s)), snd s)). generalize s1. clear s1. intros s1 Hs1.
  apply run_bind, run_pure. destruct (dcsCutoverBinding evidence) as [b|e] eqn:Hb; [|by eapply reached_sound].
  apply dcsCutoverBinding_text in Hb. apply run_bind. simpl. eapply run_guard; [exact Hs1|]. intros _.
  apply run_bind, run_pure. destruct (private_dir _ _) as [[]|e]; [|by eapply reached_sound].
  apply run_bind. eapply run_lock; [exact Hs1|]. intros s2 Hs2.
  apply run_bind, run_pure. destruct (attempt _) as [[]|e]; [|by eapply reached_sound].
  assert (run (phase ← pureM (cutover_load (mkCutoverJournal path b) (dk_Files (snd s2)));
               run_cutover (beside_adapter a) evidence (watch_cutover ops) (mkCutoverJournal path b) phase) s2
            (fun _ => sound path) (sound path)) as Hrun.
  { apply run_bind, run_pure. destruct (cutover_load _ _) as [phase|e] eqn:Hl; [|by eapply reached_sound].
    destruct Hs2 as (He & Hf & Hst). destruct (load_phase _ _ _ _ Hf Hl) as [Hn Hp].
    eapply run_run_cutover; [exact tmp_neq|exact Hb| |exact Hn|exact Hp]. unfold reached. by rewrite He. }
  apply run_deferred. eapply run_mono; [| |unfold run in *; exact Hrun]; intros; by apply sound_unlocked.
Qed.
End attempt_run.

(** ** Any number of attempts *)

Lemma attempts_stage {S} path dk evs :
  attempts (S := S) path dk evs -> exists n, at_phase (dk_Files dk !! path) n /\ stage n evs.
Proof.
  induction 1 as [dk Hdk|os dirs names ctx adapter evidence i ops binding w w' dk dk' evs evs' r _ (n & Hf & Hst) Hne Heq
                 |dk dk' evs _ (n & Hf & Hst) Hdk].
  - exists 0%nat. rewrite Hdk. split; [done|]. split; [apply obeys_nil|done|done|]. by intros p ?%not_elem_of_nil.
  - pose proof (run_RunVerifiedDCSCutover path Hne ctx adapter evidence i ops binding n ((w, evs), dk)) as H.
    unfold run in H. rewrite Heq in H.
    destruct (r : result error unit) as [[]|e]; destruct H as (n' & evs'' & He & Hf' & Hst'); try done;
      simpl in He, Hf'; subst evs''; by exists n'.
  - exists n. by rewrite Hdk.
Qed.

(** C4: However often the cutover is attempted, with whatever faults, evidence and
    operations: the old cluster is fenced at most once and the cutover is
    committed at most once; a snapshot is activated only after the fence
    succeeded and was verified, and the cutover committed only after, besides,
    the new cluster had its quorum and Patroni used it. *)
Theorem cutover_attempts_once {S} path dk evs :
  attempts (S := S) path dk evs -> (calls is_fence evs <= 1)%nat /\ (calls is_commit evs <= 1)%nat /\ orderly evs.
Proof.
  intros (n & _ & [Ho Hf Hc _])%attempts_stage. split_and!; [| |done].
  - destruct (n =? 0)%nat; lia.
  - destruct (n <? 4)%nat; lia.
Qed.

(** ** A cutover that is attempted twice

    The new cluster has no quorum at first; the second attempt goes on from the
    receipt. *)
Module Example_cutover.
Definition ops (quorum : bool) : DCSCutoverOps unit :=
  mkCutoverOps (mret tt) (mret tt) (fun _ => mret tt)
    (fun _ => pureM (reject (negb quorum) (errorsNew "no quorum"))) (mret tt) (fun _ => mret tt).

Definition adapter : DCSRecoveryAdapter unit :=
  mkAdapter (mret (mkEvidence "" "" "" "" "" "")) (fun _ => mret tt) (fun _ => mret tt) (fun _ => mret tt).

Definition background : Ctx unit := mkCtx (mret tt) (mret tt) (fun _ => O) (fun _ => errorsNew "deadline").

Definition path : string := "/core/dcs".

Definition attempt (quorum : bool) (dk : disk) (evs : list cutover_event) :=
  RunVerifiedDCSCutover (os := sample_journal_os) (dirs := sample_dirs) (names := fun dir _ => dir +:+ "/.dcs-cutover-1")
    (beside_ctx background) (beside_adapter <$> Some adapter) (mkEvidence "i" "t" "c" "r" "s" (Join (repeat "0" 64) ""))
    (mkIdentity "i" "t" "c" "r") (watch_cutover <$> Some (ops quorum)) (mkCutoverJournal path "") (((), evs), dk).

Definition first := attempt false (mkDisk ∅ []) [].
Definition second := attempt true (snd (fst first)) (snd (fst (fst first))).
End Example_cutover.

Lemma cutover_attempts_once_witness :
  snd Example_cutover.second = Ok tt /\ calls is_commit (snd (fst (fst Example_cutover.second))) = 1%nat /\
  orderly (snd (fst (fst Example_cutover.second))).
Proof.
  split; [vm_compute; reflexivity|]. split; [vm_compute; reflexivity|].
  apply (cutover_attempts_once (S := unit) Example_cutover.path (snd (fst Example_cutover.second))).
  apply (attempts_run Example_cutover.path sample_journal_os sample_dirs (fun dir _ => dir +:+ "/.dcs-cutover-1")
    Example_cutover.background (Some Example_cutover.adapter) (mkEvidence "i" "t" "c" "r" "s" (Join (repeat "0" 64) ""))
    (mkIdentity "i" "t" "c" "r") (Some (Example_cutover.ops true)) "" tt (fst (fst (fst Example_cutover.second)))
    (snd (fst Example_cutover.first)) (snd (fst Example_cutover.second)) (snd (fst (fst Example_cutover.first)))
    (snd (fst (fst Example_cutover.second))) (snd Example_cutover.second)); [|discriminate|].
  - apply (attempts_run Example_cutover.path sample_journal_os sample_dirs (fun dir _ => dir +:+ "/.dcs-cutover-1")
      Example_cutover.background (Some Example_cutover.adapter) (mkEvidence "i" "t" "c" "r" "s" (Join (repeat "0" 64) ""))
      (mkIdentity "i" "t" "c" "r") (Some (Example_cutover.ops false)) "" tt (fst (fst (fst Example_cutover.first)))
      (mkDisk ∅ []) (snd (fst Example_cutover.first)) [] (snd (fst (fst Example_cutover.first))) (snd Example_cutover.first));
      [by apply attempts_start|discriminate|].
    vm_compute. reflexivity.
  - vm_compute. reflexivity.
Defined.
