(* ===== verification/Rotation.v ===== *)
(** * Credential rotation (internal/credential: rotation.go, rotation_journal.go,
    prepared_material.go)

    The replacement of one credential in four steps, whose progress is kept in a
    journal so that an attempt that was interrupted is taken up again.  What the
    steps do is arbitrary; encoding/json enters as an interface. *)

From S2P Require Import Prelude GoStrings FileSystem Effects Sha256 UpdateJournal.

(** ** Phases and keys *)

Definition RotationPrepared : string := "PREPARED".
Definition RotationReconciled : string := "RECONCILED".
Definition RotationVerified : string := "VERIFIED".
Definition RotationRetired : string := "RETIRED".

Definition validRotationPhase (phase : string) : bool :=
  bool_decide (phase ∈ [RotationPrepared; RotationReconciled; RotationVerified; RotationRetired]).

(** A missing entry of the map is 0, as the entry of the empty phase is. *)
Definition phase_order (phase : string) : nat :=
  if phase == RotationPrepared then 1 else if phase == RotationReconciled then 2
  else if phase == RotationVerified then 3 else if phase == RotationRetired then 4 else 0.

Definition rotationPhaseAtLeast (current required : string) : bool := (phase_order required <=? phase_order current)%nat.

Definition validateRotationKey (key : string) : result error string :=
  let key := TrimSpace key in
  reject (key == "") (errorsNew "credential rotation key is required") ;;
  reject (ContainsAny key [byte_of 13; byte_of 10]) (errorsNew "credential rotation key must be a single line") ;;
  Ok key.

(** ** Interfaces of a rotation *)

Record RotationJournal (S : Type) := mkRotationJournal {
  rj_Load : string -> M S string;
  rj_Save : string -> string -> M S unit;
  rj_Clear : string -> M S unit }.

Arguments mkRotationJournal {S}.
Arguments rj_Load {S}.
Arguments rj_Save {S}.
Arguments rj_Clear {S}.

(** The empty text is no material ([nil]). *)
Record PreparedMaterialStore (S : Type) := mkPreparedStore {
  pm_Load : string -> M S string;
  pm_Save : string -> string -> M S unit;
  pm_Clear : string -> M S unit }.

Arguments mkPreparedStore {S}.
Arguments pm_Load {S}.
Arguments pm_Save {S}.
Arguments pm_Clear {S}.

(** A missing function is a nil function. *)
Record Rotation (S : Type) := mkRotation {
  ro_Prepare : option (M S unit);
  ro_Reconcile : option (M S unit);
  ro_Verify : option (M S unit);
  ro_Retire : option (M S unit);
  ro_Rollback : option (M S unit);
  ro_Journal : option (RotationJournal S);
  ro_Prepared : option (PreparedMaterialStore S);
  ro_Key : string }.

Arguments mkRotation {S}.
Arguments ro_Prepare {S}.
Arguments ro_Reconcile {S}.
Arguments ro_Verify {S}.
Arguments ro_Retire {S}.
Arguments ro_Rollback {S}.
Arguments ro_Journal {S}.
Arguments ro_Prepared {S}.
Arguments ro_Key {S}.

(** ** The rotation *)

Section rotation.
Context {S : Type}.

(** The four steps by their names. *)
Definition step_of (r : Rotation S) (name : string) : option (M S unit) :=
  if name == "prepare" then ro_Prepare r else if name == "reconcile" then ro_Reconcile r
  else if name == "verify" then ro_Verify r else ro_Retire r.

Definition step_names : list string := ["prepare"; "reconcile"; "verify"; "retire"].

(** [order] is the order of the [range] over the map of the steps. *)
Definition require_steps (order : list string) (r : Rotation S) : result error unit :=
  forE (fun _ name => match step_of r name with
                      | None => Err (Errorf "credential rotation %s step is required" [AStr name])
                      | Some _ => Ok tt
                      end) tt order.

Definition call (f : option (M S unit)) : M S unit := default (mret tt) f.

Definition savePhase (r : Rotation S) (phase : string) : M S unit :=
  match ro_Journal r with
  | None => mret tt
  | Some journal =>
      wrapM (fun err => Errorf "persist credential rotation phase %s: %w" [AStr phase; ATxt err]) (rj_Save journal (ro_Key r) phase)
  end.

Definition rotation_rollback (r : Rotation S) : M S unit :=
  match ro_Rollback r with
  | None => fail "rotation failed before verification and no rollback path is available"
  | Some rollback => wrapM (fun err => Errorf "restore previous valid credential path: %w" [ATxt err]) rollback
  end.

Definition clear_journal (text : string) (r : Rotation S) : M S unit :=
  match ro_Journal r with
  | None => mret tt
  | Some journal => wrapM (fun err => Errorf text [ATxt err]) (rj_Clear journal (ro_Key r))
  end.

Definition clear_prepared (text : string) (r : Rotation S) : M S unit :=
  match ro_Prepared r with
  | None => mret tt
  | Some prepared => wrapM (fun err => Errorf text [ATxt err]) (pm_Clear prepared (ro_Key r))
  end.

Definition rollbackAndReset (r : Rotation S) : M S unit :=
  rotation_rollback r ;;
  clear_journal "clear rolled-back credential rotation journal: %w" r ;;
  clear_prepared "clear rolled-back prepared credential material: %w" r.

(** A step whose failure takes everything back. *)
Definition or_rollback (r : Rotation S) (text : string) (step : M S unit) : M S unit :=
  onErrM step (fun err => reset ← tryM (rollbackAndReset r); pureM (Err (join_result (Errorf text [ATxt err]) reset))) mret.

(** A step that is done unless the phase says that it was. *)
Definition unless_reached (r : Rotation S) (required : string) (step : M S unit) (phase : string) : M S string :=
  if rotationPhaseAtLeast phase required then mret phase
  else step ;; savePhase r required ;; mret required.

Definition load_phase (r : Rotation S) : M S string :=
  match ro_Journal r with
  | None => mret ""
  | Some journal =>
      pureM (validateRotationKey (ro_Key r)) ;;
      wrapM (fun err => Errorf "load credential rotation journal: %w" [ATxt err]) (rj_Load journal (ro_Key r))
  end.

Definition Rotation_Run (order : list string) (r : Rotation S) : M S unit :=
  pureM (require_steps order r) ;;
  phase ← load_phase r;
  phase ← unless_reached r RotationPrepared
            (wrapM (fun err => Errorf "prepare new credential material: %w" [ATxt err]) (call (ro_Prepare r))) phase;
  phase ← unless_reached r RotationReconciled (or_rollback r "reconcile credential consumers: %w" (call (ro_Reconcile r))) phase;
  phase ← unless_reached r RotationVerified (or_rollback r "verify rotated credential: %w" (call (ro_Verify r))) phase;
  unless_reached r RotationRetired
    (wrapM (fun err => Errorf "retire old credential material: %w" [ATxt err]) (call (ro_Retire r))) phase ;;
  clear_journal "clear completed credential rotation journal: %w" r ;;
  clear_prepared "clear completed prepared credential material: %w" r.
End rotation.

(** ** The journal in a file *)

(** [json_decode_entries] gives the map of a document, [None] when it is nil. *)
Class RotationJSON := mkRotationJSON {
  json_encode_entries : gmap string string -> result error string;
  json_decode_entries : string -> result error (option (gmap string string)) }.

(** Which operations fail, and the names of temporary files, at each call: it
    may depend on everything that happened on the disk. *)
Class Faults := mkFaults {
  faults_os : disk -> OS;
  faults_names : disk -> TempNames }.

(** The directory of a file is created and protected. *)
Definition own_directory {os : OS} (what dir : string) : result error unit :=
  wrap_err (fun err => Errorf ("create " +:+ what +:+ " directory: %w") [ATxt err]) (attempt (OpMkdirAll dir)) ;;
  wrap_err (fun err => Errorf ("protect " +:+ what +:+ " directory: %w") [ATxt err]) (attempt (OpChmod dir)).

(** A filled temporary file is renamed over the file, which is protected again. *)
Definition replace_owned {os : OS} {names : TempNames} (what pattern path data : string) : M disk unit := fun dk =>
  let dir := dir_of path in
  let '(dk, renamed) :=
    rename_filled_via (fun err => Errorf ("create " +:+ what +:+ " temporary file: %w") [ATxt err])
      (fun err => Errorf ("replace " +:+ what +:+ ": %w") [ATxt err])
      (fun _ => Ok tt) dir (temp_name dir pattern) path data dk in
  match renamed with
  | Err err => (dk, Err err)
  | Ok _ => let '(fs, secured) := Chmod (dk_Files dk) path owner_only in (visit dk fs, secured)
  end.

Record FileRotationJournal := mkFileJournal { fj_Path : string }.

Definition required_path (path : string) (missing : error) : result error string :=
  let path := Clean (TrimSpace path) in
  reject ((path == ".") || (path == "")) missing ;;
  Ok path.

Definition journal_path (j : FileRotationJournal) : result error string :=
  required_path (fj_Path j) (errorsNew "credential rotation journal path is required").

Section file_journal.
Context {json : RotationJSON}.

Section calls.
Context {os : OS} {names : TempNames}.

Definition journal_read (j : FileRotationJournal) (fs : fsys) : result error (gmap string string) :=
  path ← journal_path j;
  match ReadFile fs path with
  | Err err => if oe_NotExist err then Ok ∅ else Err (Errorf "read credential rotation journal: %w" [ATxt (oe_text err)])
  | Ok data =>
      entries ← wrap_err (fun err => Errorf "parse credential rotation journal: %w" [ATxt err]) (json_decode_entries data);
      Ok (default ∅ entries)
  end.

Definition journal_write (j : FileRotationJournal) (entries : gmap string string) : M disk unit :=
  path ← pureM (journal_path j);
  pureM (own_directory "credential rotation journal" (dir_of path)) ;;
  data ← pureM (wrap_err (fun err => Errorf "encode credential rotation journal: %w" [ATxt err]) (json_encode_entries entries));
  replace_owned "credential rotation journal" ".rotation-journal-*" path (data +:+ newline).

Definition journal_Load (j : FileRotationJournal) (key : string) : M disk string := fun dk =>
  (dk, key ← validateRotationKey key;
       entries ← journal_read j (dk_Files dk);
       let phase := default "" (entries !! key) in
       reject ((phase != "") && negb (validRotationPhase phase))
         (Errorf "credential rotation journal contains invalid phase %q for %q" [AStr phase; AStr key]) ;;
       Ok phase).

Definition journal_Save (j : FileRotationJournal) (key phase : string) : M disk unit := fun dk =>
  (key ← pureM (validateRotationKey key);
   checkM (negb (validRotationPhase phase)) (Errorf "credential rotation phase %q is invalid" [AStr phase]) ;;
   entries ← pureM (journal_read j (dk_Files dk));
   journal_write j (<[key := phase]> entries)) dk.

Definition journal_Clear (j : FileRotationJournal) (key : string) : M disk unit := fun dk =>
  (key ← pureM (validateRotationKey key);
   entries ← pureM (journal_read j (dk_Files dk));
   journal_write j (delete key entries)) dk.
End calls.

(** Every call meets its own faults. *)
Definition file_journal {faults : Faults} (j : FileRotationJournal) : RotationJournal disk :=
  mkRotationJournal
    (fun key dk => journal_Load (os := faults_os dk) j key dk)
    (fun key phase dk => journal_Save (os := faults_os dk) (names := faults_names dk) j key phase dk)
    (fun key dk => journal_Clear (os := faults_os dk) (names := faults_names dk) j key dk).
End file_journal.

(** ** Prepared material in files *)

Record FilePreparedMaterialStore := mkFilePrepared { fp_Dir : string }.

(** [os.Remove], whose error says whether the file was there. *)
Definition RemoveFile {os : OS} (fs : fsys) (path : string) : fsys * result os_error unit :=
  match os_fault (OpRemove path) with
  | Some err => (fs, Err (mkOsError err false))
  | None => match fs !! path with Some _ => (delete path fs, Ok tt) | None => (fs, Err (not_exist path)) end
  end.

Section prepared.
Context {os : OS} {names : TempNames}.

Definition material_path (s : FilePreparedMaterialStore) (key : string) : result error string :=
  key ← validateRotationKey key;
  dir ← required_path (fp_Dir s) (errorsNew "prepared credential material directory is required");
  Ok (filepath_Join [dir; digest_text key +:+ ".material"]).

Definition material_Load (s : FilePreparedMaterialStore) (key : string) : M disk string := fun dk =>
  (dk, path ← material_path s key;
       match ReadFile (dk_Files dk) path with
       | Err err => if oe_NotExist err then Ok "" else Err (Errorf "read prepared credential material: %w" [ATxt (oe_text err)])
       | Ok data => Ok data
       end).

Definition material_Save (s : FilePreparedMaterialStore) (key material : string) : M disk unit :=
  checkM (material == "") (errorsNew "prepared credential material is empty") ;;
  path ← pureM (material_path s key);
  pureM (own_directory "prepared credential material" (dir_of path)) ;;
  replace_owned "prepared credential material" ".prepared-*" path material.

Definition material_Clear (s : FilePreparedMaterialStore) (key : string) : M disk unit := fun dk =>
  match material_path s key with
  | Err err => (dk, Err err)
  | Ok path =>
      let '(fs, removed) := RemoveFile (dk_Files dk) path in
      (visit dk fs,
       match removed with
       | Ok _ => Ok tt
       | Err err => if oe_NotExist err then Ok tt else Err (Errorf "remove prepared credential material: %w" [ATxt (oe_text err)])
       end)
  end.
End prepared.

Definition file_prepared {faults : Faults} (s : FilePreparedMaterialStore) : PreparedMaterialStore disk :=
  mkPreparedStore
    (fun key dk => material_Load (os := faults_os dk) s key dk)
    (fun key material dk => material_Save (os := faults_os dk) (names := faults_names dk) s key material dk)
    (fun key dk => material_Clear (os := faults_os dk) s key dk).

(** ** Credential classes (classification.go) *)

Definition ClassHumanManagement : string := "human-management".
Definition ClassApplicationService : string := "application-service".
Definition ClassInternalMachine : string := "internal-machine".

Definition ParseClass (value : string) : result error string :=
  let class := TrimSpace value in
  if bool_decide (class ∈ [ClassHumanManagement; ClassApplicationService; ClassInternalMachine]) then Ok class
  else Err (Errorf "unsupported credential class %q" [AStr value]).

Definition Shareable (class : string) : bool := (class == ClassHumanManagement) || (class == ClassApplicationService).
Definition IsMachineIdentity (class : string) : bool := class == ClassInternalMachine.
