(* ===== verification/RotationFacts.v ===== *)
(** * Properties of credential rotation

    Rotations are attempted any number of times, and the process may stop at
    every call.  The journal enters by its laws, which the one in a file is shown
    to have. *)

From S2P Require Import Prelude GoStrings FileSystem Codec Effects Sha256 UpdateJournal Rotation.

(** ** What a journal promises

    The phase a key has in a state.  A call that fails may have had its effect
    or not. *)
Class RotationJournalLaws {S} (journal : RotationJournal S) (key : string) := mkRotationJournalLaws {
  phase_of : S -> string;
  load_law : forall s s' r, rj_Load journal key s = (s', r) ->
    phase_of s' = phase_of s /\ forall phase, r = Ok phase -> phase = phase_of s;
  save_law : forall phase s s' r, rj_Save journal key phase s = (s', r) ->
    (phase_of s' = phase_of s \/ phase_of s' = phase) /\ (r = Ok tt -> phase_of s' = phase);
  clear_law : forall s s' r, rj_Clear journal key s = (s', r) ->
    (phase_of s' = phase_of s \/ phase_of s' = "") /\ (r = Ok tt -> phase_of s' = "") }.

Arguments phase_of {S} journal key {_}.

(** ** Calls *)

Inductive rotation_event : Type :=
| EvPrepare (ok : bool)
| EvReconcile (ok : bool)
| EvVerify (ok : bool)
| EvRetire (ok : bool)
| EvRollback (ok : bool).

Global Instance rotation_event_eq_dec : EqDecision rotation_event.
Proof. solve_decision. Defined.

Definition is_prepare (e : rotation_event) : bool := match e with EvPrepare _ => true | _ => false end.
Definition is_reconcile (e : rotation_event) : bool := match e with EvReconcile _ => true | _ => false end.
Definition is_verify (e : rotation_event) : bool := match e with EvVerify _ => true | _ => false end.
Definition is_retire (e : rotation_event) : bool := match e with EvRetire _ => true | _ => false end.
Definition is_rollback (e : rotation_event) : bool := match e with EvRollback _ => true | _ => false end.

Abbreviation events := (list rotation_event).

(** A call of a process that ends after [life] more calls: those after its end
    do nothing and are not recorded. *)
Definition mortal {S A} (event : bool -> events) (m : M S A) : M (S * events * nat) A := fun st =>
  match snd st with
  | O => (st, Err (errorsNew "the process has ended"))
  | Datatypes.S life =>
      let '(s', r) := m (fst (fst st)) in ((s', snd (fst st) ++ event (is_ok r), life), r)
  end.

Definition quiet (_ : bool) : events := [].

Definition watch_journal {S} (j : RotationJournal S) : RotationJournal (S * events * nat) :=
  mkRotationJournal (fun key => mortal quiet (rj_Load j key)) (fun key phase => mortal quiet (rj_Save j key phase))
    (fun key => mortal quiet (rj_Clear j key)).

Definition watch_prepared {S} (p : PreparedMaterialStore S) : PreparedMaterialStore (S * events * nat) :=
  mkPreparedStore (fun key => mortal quiet (pm_Load p key)) (fun key material => mortal quiet (pm_Save p key material))
    (fun key => mortal quiet (pm_Clear p key)).

Definition watch_rotation {S} (r : Rotation S) : Rotation (S * events * nat) :=
  let seen (event : bool -> rotation_event) := mortal (A := unit) (fun ok => [event ok]) in
  mkRotation (seen EvPrepare <$> ro_Prepare r) (seen EvReconcile <$> ro_Reconcile r) (seen EvVerify <$> ro_Verify r)
    (seen EvRetire <$> ro_Retire r) (seen EvRollback <$> ro_Rollback r) (watch_journal <$> ro_Journal r)
    (watch_prepared <$> ro_Prepared r) (ro_Key r).

(** ** Attempts *)

Section attempts.
Context {S : Type} (journal : RotationJournal S) (key : string) {laws : RotationJournalLaws journal key}.

Definition leaves_phase {A} (m : M S A) : Prop := forall s, phase_of journal key (fst (m s)) = phase_of journal key s.

Definition all_leave {A} (f : option (M S A)) : Prop := forall m, f = Some m -> leaves_phase m.

(** The rotation uses this journal, and nothing else of it touches the entry. *)
Record uses_journal (r : Rotation S) : Prop := mkUses {
  us_journal : ro_Journal r = Some journal;
  us_key : ro_Key r = key;
  us_prepare : all_leave (ro_Prepare r);
  us_reconcile : all_leave (ro_Reconcile r);
  us_verify : all_leave (ro_Verify r);
  us_retire : all_leave (ro_Retire r);
  us_rollback : all_leave (ro_Rollback r);
  us_prepared : forall p, ro_Prepared r = Some p -> leaves_phase (pm_Clear p key) }.

(** Each attempt with other steps and another end of the process; in between
    everything but the entry may change. *)
Inductive rotations : S -> events -> Prop :=
| rotations_none s : phase_of journal key s = "" -> rotations s []
| rotations_attempt order r life life' s s' evs evs' res :
    rotations s evs -> uses_journal r -> order ≡ₚ step_names ->
    Rotation_Run order (watch_rotation r) ((s, evs), life) = (((s', evs'), life'), res) ->
    rotations s' evs'
| rotations_other s s' evs : rotations s evs -> phase_of journal key s' = phase_of journal key s -> rotations s' evs.
End attempts.

(** ** The order of the calls *)

(** [e] was called, and after it only calls that satisfy [q]. *)
Definition since (e : rotation_event) (q : rotation_event -> bool) (evs : events) : Prop :=
  exists before after, evs = before ++ e :: after /\ forallb q after = true.

(** The calls after the last preparation. *)
Definition current (evs : events) : events := foldl (fun acc e => if is_prepare e then [] else acc ++ [e]) [] evs.

(** When the retirement of the old material was begun, it succeeded. *)
Definition closed (evs : events) : Prop := existsb is_retire (current evs) = true -> EvRetire true ∈ current evs.

Definition permitted (before : events) (e : rotation_event) : Prop :=
  match e with
  | EvPrepare _ => closed before
  | EvReconcile _ => since (EvPrepare true) (fun e => is_reconcile e || is_rollback e) before
  | EvVerify _ => since (EvReconcile true) (fun e => is_verify e || is_rollback e) before
  | EvRetire _ => since (EvVerify true) is_retire before
  | EvRollback _ => exists earlier, before = earlier ++ [EvReconcile false] \/ before = earlier ++ [EvVerify false]
  end.

(** The calls that led to a phase of the journal. *)
Definition stage (n : nat) (evs : events) : Prop :=
  match n with
  | 0 => closed evs
  | 1 => closed evs /\ since (EvPrepare true) (fun e => is_reconcile e || is_rollback e) evs
  | 2 => closed evs /\ since (EvReconcile true) (fun e => is_verify e || is_rollback e) evs
  | 3 => since (EvVerify true) is_retire evs
  | _ => since (EvRetire true) is_retire evs
  end.

Lemma current_snoc evs e : current (evs ++ [e]) = if is_prepare e then [] else current evs ++ [e].
Proof. unfold current. by rewrite foldl_app. Qed.

Lemma current_app evs new : forallb (fun e => negb (is_prepare e)) new = true -> current (evs ++ new) = current evs ++ new.
Proof.
  induction new as [|e new IH] using rev_ind; [by rewrite !app_nil_r|]. rewrite forallb_app. simpl. rewrite andb_true_r.
  intros [Hn He%negb_true_iff]%andb_true_iff. rewrite app_assoc, current_snoc, He, IH by done. by rewrite app_assoc.
Qed.

Lemma since_here e q evs : since e q (evs ++ [e]).
Proof. by exists evs, []. Qed.

Lemma since_snoc e q evs e' : since e q evs -> q e' = true -> since e q (evs ++ [e']).
Proof. intros (b & a & -> & Ha) He. exists b, (a ++ [e']). rewrite <- app_assoc, forallb_app, Ha. simpl. by rewrite He. Qed.

Lemma closed_snoc evs e : closed evs -> is_retire e = false -> closed (evs ++ [e]).
Proof.
  unfold closed. rewrite current_snoc. intros Hc He. destruct (is_prepare e); [done|]. rewrite existsb_app. simpl. rewrite He.
  rewrite !orb_false_r. intros H. apply elem_of_app. by left; apply Hc.
Qed.

Lemma closed_retired evs : since (EvRetire true) is_retire evs -> closed evs.
Proof.
  intros (b & a & -> & Ha) _. rewrite current_app.
  - apply elem_of_app. right. left.
  - simpl. apply forallb_forall. intros e He. rewrite forallb_forall in Ha. specialize (Ha e He). by destruct e.
Qed.

(** ** One attempt *)

Lemma run_mortal {S A} event (m : M S A) (st : S * events * nat) (Q : A -> S * events * nat -> Prop) (X : S * events * nat -> Prop) :
  (snd st = 0 -> X st) ->
  (forall life s' a, snd st = Datatypes.S life -> m (fst (fst st)) = (s', Ok a) -> Q a ((s', snd (fst st) ++ event true), life)) ->
  (forall life s' e, snd st = Datatypes.S life -> m (fst (fst st)) = (s', Err e) -> X ((s', snd (fst st) ++ event false), life)) ->
  run (mortal event m) st Q X.
Proof.
  intros H0 HQ HX. unfold run, mortal. destruct (snd st) as [|life]; [by apply H0|].
  destruct (m (fst (fst st))) as [s' [a|e]]; simpl; [by apply HQ|by eapply HX].
Qed.

Section attempt.
Context {S : Type} (journal : RotationJournal S) (key : string) {laws : RotationJournalLaws journal key}.
Abbreviation state := (S * events * nat)%type.

Definition phase_at (st : state) : string := phase_of journal key (fst (fst st)).

Definition at_stage (n : nat) (st : state) : Prop := stage n (snd (fst st)) /\ obeys permitted (snd (fst st)).

(** How every attempt ends. *)
Definition sound (st : state) : Prop := at_stage (phase_order (phase_at st)) st.

(** A journal call that moves the phase to [phase], or not. *)
Lemma run_journal (m : M S unit) phase st :
  (forall s' r, m (fst (fst st)) = (s', r) ->
     (phase_of journal key s' = phase_at st \/ phase_of journal key s' = phase) /\ (r = Ok tt -> phase_of journal key s' = phase)) ->
  sound st -> at_stage (phase_order phase) st ->
  run (mortal quiet m) st (fun _ st' => phase_at st' = phase /\ sound st') sound.
Proof.
  intros Hm Hs Hn. apply run_mortal; [done| |]; intros life s' x Hl Hx; destruct (Hm _ _ Hx) as [Hor Hok];
    unfold sound, at_stage, phase_at in *; simpl; rewrite app_nil_r.
  - destruct x. by rewrite Hok.
  - by destruct Hor as [-> | ->].
Qed.

Context (r : Rotation S) (uses : uses_journal journal key r).
Abbreviation R := (watch_rotation r).

Lemma run_save phase st :
  sound st -> at_stage (phase_order phase) st -> run (savePhase R phase) st (fun _ st' => phase_at st' = phase /\ sound st') sound.
Proof.
  intros Hs Hn. unfold savePhase. simpl. rewrite (us_journal _ _ _ uses), (us_key _ _ _ uses). simpl.
  apply run_wrap, run_journal; [|done..]. intros s' x. apply save_law.
Qed.

Lemma run_clear_journal text st :
  sound st -> closed (snd (fst st)) -> run (clear_journal text R) st (fun _ st' => phase_at st' = "" /\ sound st') sound.
Proof.
  intros Hs Hc. unfold clear_journal. simpl. rewrite (us_journal _ _ _ uses), (us_key _ _ _ uses). simpl.
  apply run_wrap, run_journal; [|done|split; [exact Hc|apply Hs]]. intros s' x. apply clear_law.
Qed.

Lemma run_clear_prepared text st : sound st -> run (clear_prepared text R) st (fun _ => sound) sound.
Proof.
  intros Hs. unfold clear_prepared. simpl. destruct (ro_Prepared r) as [p|] eqn:Hp; simpl; [|done].
  apply run_wrap, run_mortal; [done| |]; intros life s' x Hl Hx; pose proof (us_prepared _ _ _ uses p Hp (fst (fst st))) as Hph;
    rewrite (us_key _ _ _ uses) in Hx; rewrite Hx in Hph; simpl in Hph; unfold sound, at_stage, phase_at in *; simpl;
    by rewrite app_nil_r, Hph.
Qed.

(** A step of the rotation, recorded as [event]. *)
Lemma run_step event (f : option (M S unit)) st (Q : unit -> state -> Prop) (X : state -> Prop) :
  all_leave journal key f -> is_Some f ->
  (snd st = 0 -> X st) ->
  (forall st', phase_at st' = phase_at st -> snd (fst st') = snd (fst st) ++ [event true] -> Q tt st') ->
  (forall st', phase_at st' = phase_at st -> snd (fst st') = snd (fst st) ++ [event false] -> X st') ->
  run (call (mortal (fun ok => [event ok]) <$> f)) st Q X.
Proof.
  intros Hl [m ->] H0 HQ HX. simpl. apply run_mortal; [done| |]; intros life s' x _ Hx; specialize (Hl m eq_refl (fst (fst st)));
    rewrite Hx in Hl; [destruct x; apply HQ|apply HX]; done.
Qed.

Lemma sound_grown st st' e n :
  sound st -> phase_order (phase_at st) = n -> phase_at st' = phase_at st -> snd (fst st') = snd (fst st) ++ [e] ->
  permitted (snd (fst st)) e -> stage n (snd (fst st) ++ [e]) -> sound st'.
Proof.
  intros [_ Ho] Hn Hp He Hper Hst. unfold sound, at_stage. rewrite Hp, He, Hn. split; [done|]. by apply obeys_snoc.
Qed.

(** Taking the rotation back. *)
Lemma run_rollback n st :
  sound st -> phase_order (phase_at st) = n -> closed (snd (fst st)) -> 
  (snd st = 0 \/ permitted (snd (fst st)) (EvRollback true)) ->
  (forall ok, stage n (snd (fst st) ++ [EvRollback ok])) ->
  run (rollbackAndReset R) st (fun _ => sound) sound.
Proof.
  intros Hs Hn Hc Hp Hst. unfold rollbackAndReset, rotation_rollback. simpl. apply run_bind.
  destruct (ro_Rollback r) as [m|] eqn:Hm; simpl; [|by apply run_pure].
  apply run_wrap, run_mortal; [done| |]; intros life s' x Hl Hx; destruct Hp as [Hp|Hp]; try congruence;
    pose proof (us_rollback _ _ _ uses m Hm (fst (fst st))) as Hph; rewrite Hx in Hph; simpl in Hph.
  - set (st' := ((s', snd (fst st) ++ [EvRollback true]), life)).
    assert (sound st') as Hs' by (by apply (sound_grown st st' (EvRollback true) n)).
    apply run_bind. eapply run_mono; [|done|apply run_clear_journal; [exact Hs'|by apply closed_snoc]].
    intros [] st2 [_ Hs2]. by apply run_clear_prepared.
  - by apply (sound_grown st _ (EvRollback false) n).
Qed.

(** A step that is taken back when it fails. *)
Lemma run_or_rollback event text f n st (Q : unit -> state -> Prop) :
  all_leave journal key f -> is_Some f -> sound st -> phase_order (phase_at st) = n -> closed (snd (fst st)) ->
  (event = EvReconcile \/ event = EvVerify) ->
  (forall ok, permitted (snd (fst st)) (event ok)) -> (forall ok, stage n (snd (fst st) ++ [event ok])) ->
  (forall ok, stage n (snd (fst st) ++ [event false; EvRollback ok])) -> (forall ok, stage n (snd (fst st) ++ [EvRollback ok])) ->
  (forall st', sound st' -> phase_at st' = phase_at st -> snd (fst st') = snd (fst st) ++ [event true] -> Q tt st') ->
  run (or_rollback R text (call (mortal (fun ok => [event ok]) <$> f))) st Q sound.
Proof.
  intros Hl Hf Hs Hn Hc Hev Hper Hst Hst2 Hst3 HQ. unfold or_rollback. apply run_onErr. apply run_step; [done..| | |].
  - intros H0 e. apply run_bind, run_try. eapply run_mono; [| |apply (run_rollback n); [done..|by left|done]];
      intros; by apply run_pure.
  - intros st' Hp He. apply run_ret. apply HQ; [|done..]. by apply (sound_grown st st' (event true) n).
  - intros st' Hp He e. apply run_bind, run_try. eapply run_mono; [| |apply (run_rollback n)].
    + intros; by apply run_pure.
    + intros; by apply run_pure.
    + by apply (sound_grown st st' (event false) n).
    + by rewrite Hp.
    + rewrite He. apply closed_snoc; [done|]. by destruct Hev; subst event.
    + right. rewrite He. exists (snd (fst st)). destruct Hev; subst event; [by left|by right].
    + intros ok. rewrite He, <- app_assoc. apply Hst2.
Qed.

Lemma run_unless required (step : M state unit) st phase :
  phase_at st = phase -> sound st ->
  (phase_order phase < phase_order required -> run step st (fun _ st' => sound st' /\ at_stage (phase_order required) st') sound) ->
  run (unless_reached R required step phase) st
    (fun phase' st' => phase_at st' = phase' /\ sound st' /\ phase_order required <= phase_order phase') sound.
Proof.
  intros Hp Hs Hstep. unfold unless_reached, rotationPhaseAtLeast. destruct (Nat.leb_spec (phase_order required) (phase_order phase)) as [Hle|Hlt].
  - by apply run_ret.
  - apply run_bind. eapply run_mono; [|done|by apply Hstep]. intros [] st1 [Hs1 Hn1].
    apply run_bind. eapply run_mono; [|done|by apply run_save]. intros [] st2 [Hp2 Hs2]. by apply run_ret.
Qed.

Context (full : is_Some (ro_Prepare r) /\ is_Some (ro_Reconcile r) /\ is_Some (ro_Verify r) /\ is_Some (ro_Retire r)).

Lemma run_prepare st :
  sound st -> phase_order (phase_at st) = 0 ->
  run (wrapM (fun err => Errorf "prepare new credential material: %w" [ATxt err]) (call (ro_Prepare R))) st
    (fun _ st' => sound st' /\ at_stage 1 st') sound.
Proof.
  intros Hs H0. pose proof Hs as [Hst Ho]. rewrite H0 in Hst. apply run_wrap.
  assert (forall ok, closed (snd (fst st) ++ [EvPrepare ok])) as Hc by (intros ok; by apply closed_snoc).
  eapply run_step; [apply uses|apply full|done| |].
  - intros st' Hp He. split; [apply (sound_grown st st' (EvPrepare true) 0); [done..|apply Hc]|]. unfold at_stage. rewrite He.
    split; [split; [apply Hc|apply since_here]|by apply obeys_snoc].
  - intros st' Hp He. apply (sound_grown st st' (EvPrepare false) 0); [done..|apply Hc].
Qed.

Lemma run_move st :
  sound st -> phase_order (phase_at st) = 1 ->
  run (or_rollback R "reconcile credential consumers: %w" (call (ro_Reconcile R))) st
    (fun _ st' => sound st' /\ at_stage 2 st') sound.
Proof.
  intros Hs H1. pose proof Hs as [Hst Ho]. rewrite H1 in Hst. destruct Hst as [Hc Hsince].
  assert (forall e, is_reconcile e || is_rollback e = true -> stage 1 (snd (fst st) ++ [e])) as Hone.
  { intros e He. split; [apply closed_snoc; [done|by destruct e]|by apply since_snoc]. }
  eapply (run_or_rollback EvReconcile _ _ 1); [apply uses|apply full|done..|by left|intros ok; exact Hsince|intros ok; by apply Hone| |intros ok; by apply Hone|].
  - intros ok. change [EvReconcile false; EvRollback ok] with ([EvReconcile false] ++ [EvRollback ok]). rewrite app_assoc.
    split; [apply closed_snoc; [apply closed_snoc|]; done|by apply since_snoc; [apply since_snoc|]].
  - intros st' Hs' Hp He. split; [done|]. unfold at_stage. rewrite He.
    split; [split; [by apply closed_snoc|apply since_here]|by apply obeys_snoc].
Qed.

Lemma run_verify st :
  sound st -> phase_order (phase_at st) = 2 ->
  run (or_rollback R "verify rotated credential: %w" (call (ro_Verify R))) st
    (fun _ st' => sound st' /\ at_stage 3 st') sound.
Proof.
  intros Hs H2. pose proof Hs as [Hst Ho]. rewrite H2 in Hst. destruct Hst as [Hc Hsince].
  assert (forall e, is_verify e || is_rollback e = true -> stage 2 (snd (fst st) ++ [e])) as Htwo.
  { intros e He. split; [apply closed_snoc; [done|by destruct e]|by apply since_snoc]. }
  eapply (run_or_rollback EvVerify _ _ 2); [apply uses|apply full|done..|by right|intros ok; exact Hsince|intros ok; by apply Htwo| |intros ok; by apply Htwo|].
  - intros ok. change [EvVerify false; EvRollback ok] with ([EvVerify false] ++ [EvRollback ok]). rewrite app_assoc.
    split; [apply closed_snoc; [apply closed_snoc|]; done|by apply since_snoc; [apply since_snoc|]].
  - intros st' Hs' Hp He. split; [done|]. unfold at_stage. rewrite He. split; [apply since_here|by apply obeys_snoc].
Qed.

Lemma run_retire st :
  sound st -> phase_order (phase_at st) = 3 ->
  run (wrapM (fun err => Errorf "retire old credential material: %w" [ATxt err]) (call (ro_Retire R))) st
    (fun _ st' => sound st' /\ at_stage 4 st') sound.
Proof.
  intros Hs H3. pose proof Hs as [Hst Ho]. rewrite H3 in Hst. apply run_wrap.
  eapply run_step; [apply uses|apply full|done| |].
  - intros st' Hp He. split; [apply (sound_grown st st' (EvRetire true) 3); [done..|by apply since_snoc]|]. unfold at_stage. rewrite He.
    split; [apply since_here|by apply obeys_snoc].
  - intros st' Hp He. apply (sound_grown st st' (EvRetire false) 3); [done..|by apply since_snoc].
Qed.

Lemma run_load st : sound st -> run (load_phase R) st (fun phase st' => phase_at st' = phase /\ sound st') sound.
Proof.
  intros Hs. unfold load_phase. simpl. rewrite (us_journal _ _ _ uses), (us_key _ _ _ uses). simpl.
  apply run_bind, run_pure. destruct (validateRotationKey key) as [k|e]; [|done]. apply run_wrap, run_mortal; [done| |];
    intros life s' x _ Hx; apply load_law in Hx as [Hp Hok]; unfold sound, at_stage, phase_at in *; simpl; rewrite app_nil_r, Hp;
    [|done]. split; [by rewrite (Hok x)|done].
Qed.

Lemma phase_order_le_4 phase : phase_order phase <= 4.
Proof. unfold phase_order. repeat case_bool_decide; lia. Qed.

Ltac order_lia :=
  change (phase_order RotationPrepared) with 1 in *; change (phase_order RotationReconciled) with 2 in *;
  change (phase_order RotationVerified) with 3 in *; change (phase_order RotationRetired) with 4 in *; lia.

Lemma run_steps st :
  sound st ->
  run (phase ← load_phase R;
       phase ← unless_reached R RotationPrepared
                 (wrapM (fun err => Errorf "prepare new credential material: %w" [ATxt err]) (call (ro_Prepare R))) phase;
       phase ← unless_reached R RotationReconciled (or_rollback R "reconcile credential consumers: %w" (call (ro_Reconcile R))) phase;
       phase ← unless_reached R RotationVerified (or_rollback R "verify rotated credential: %w" (call (ro_Verify R))) phase;
       unless_reached R RotationRetired
         (wrapM (fun err => Errorf "retire old credential material: %w" [ATxt err]) (call (ro_Retire R))) phase ;;
       clear_journal "clear completed credential rotation journal: %w" R ;;
       clear_prepared "clear completed prepared credential material: %w" R) st (fun _ => sound) sound.
Proof.
  intros Hs. apply run_bind. eapply run_mono; [|done|by apply run_load]. intros phase st1 [Hp1 Hs1].
  apply run_bind. eapply run_mono; [|done|apply run_unless; [done..|]]. 2:{ intros Hlt. apply run_prepare; [done|]. rewrite Hp1. order_lia. }
  intros phase2 st2 (Hp2 & Hs2 & Hn2). apply run_bind. eapply run_mono; [|done|apply run_unless; [done..|]].
  2:{ intros Hlt. apply run_move; [done|]. rewrite Hp2. order_lia. }
  intros phase3 st3 (Hp3 & Hs3 & Hn3). apply run_bind. eapply run_mono; [|done|apply run_unless; [done..|]].
  2:{ intros Hlt. apply run_verify; [done|]. rewrite Hp3. order_lia. }
  intros phase4 st4 (Hp4 & Hs4 & Hn4). apply run_bind. eapply run_mono; [|done|apply run_unless; [done..|]].
  2:{ intros Hlt. apply run_retire; [done|]. rewrite Hp4. order_lia. }
  intros phase5 st5 (Hp5 & Hs5 & Hn5). apply run_bind.
  assert (phase_order (phase_at st5) = 4) as H4.
  { rewrite Hp5. pose proof (phase_order_le_4 phase5). order_lia. }
  eapply run_mono; [|done|apply run_clear_journal; [exact Hs5|]].
  - intros [] st6 [_ Hs6]. by apply run_clear_prepared.
  - pose proof Hs5 as [Hst _]. rewrite H4 in Hst. by apply closed_retired.
Qed.
End attempt.

(** Every function is there when the loop over the steps found none missing,
    in whichever order. *)
Lemma require_steps_Ok {S} order (r : Rotation S) :
  order ≡ₚ step_names -> require_steps order r = Ok tt ->
  is_Some (ro_Prepare r) /\ is_Some (ro_Reconcile r) /\ is_Some (ro_Verify r) /\ is_Some (ro_Retire r).
Proof.
  intros Hperm Hreq.
  assert (forall name, name ∈ order -> is_Some (step_of r name)) as Hall.
  { clear Hperm. unfold require_steps in Hreq. induction order as [|n order IH]; intros name Hin; [by apply not_elem_of_nil in Hin|].
    cbn [forE] in Hreq. destruct (step_of r n) as [m|] eqn:Hm; [|done]. apply elem_of_cons in Hin as [->|Hin]; [by rewrite Hm|].
    by apply IH. }
  assert (forall name, name ∈ step_names -> is_Some (step_of r name)) as Hn by (intros name Hin; apply Hall; by rewrite Hperm).
  split_and!; [apply (Hn "prepare")|apply (Hn "reconcile")|apply (Hn "verify")|apply (Hn "retire")]; set_solver.
Qed.

Lemma watched_some {A B} (f : A -> B) (o : option A) : is_Some (f <$> o) -> is_Some o.
Proof. destruct o; [done|]. by intros [? ?]. Qed.

Lemma rotations_sound {S} (journal : RotationJournal S) key {laws : RotationJournalLaws journal key} s evs :
  rotations journal key s evs -> sound journal key ((s, evs), 0).
Proof.
  induction 1 as [s Hs|order r life life' s s' evs evs' res _ IH Hu Hperm Heq|s s' evs _ IH Hp].
  - unfold sound, at_stage, phase_at. simpl. rewrite Hs. split; [done|apply obeys_nil].
  - assert (sound journal key ((s, evs), life)) as Hs by exact IH.
    assert (run (Rotation_Run order (watch_rotation r)) ((s, evs), life) (fun _ => sound journal key) (sound journal key)) as Hrun.
    { unfold Rotation_Run. apply run_bind, run_pure. destruct (require_steps _ _) as [[]|e] eqn:Hreq; [|done].
      apply require_steps_Ok in Hreq as (H1 & H2 & H3 & H4); [|done]. simpl in *.
      apply (run_steps journal key r Hu); [|done]. split_and!; by eapply watched_some. }
    unfold run in Hrun. rewrite Heq in Hrun. by destruct (res : result error unit).
  - unfold sound, at_stage, phase_at in *. simpl in *. by rewrite Hp.
Qed.

(** ** Attempts in which nothing fails

    Nothing fails in the states of [fine], which the calls do not leave. *)

Section smooth.
Context {S : Type} (journal : RotationJournal S) (key : string) {laws : RotationJournalLaws journal key}.
Context (fine : S -> Prop).
Abbreviation state := (S * events * nat)%type.

Definition succeeds {A} (m : M S A) : Prop := forall s, fine s -> is_ok (snd (m s)) = true /\ fine (fst (m s)).

Definition all_succeed {A} (f : option (M S A)) : Prop := exists m, f = Some m /\ succeeds m.

Record smooth (r : Rotation S) : Prop := mkSmooth {
  sm_key : is_ok (validateRotationKey key) = true;
  sm_prepare : all_succeed (ro_Prepare r);
  sm_reconcile : all_succeed (ro_Reconcile r);
  sm_verify : all_succeed (ro_Verify r);
  sm_retire : all_succeed (ro_Retire r);
  sm_load : succeeds (rj_Load journal key);
  sm_save : forall phase, validRotationPhase phase = true -> succeeds (rj_Save journal key phase);
  sm_clear : succeeds (rj_Clear journal key);
  sm_prepared : forall p, ro_Prepared r = Some p -> succeeds (pm_Clear p key) }.

Context (r : Rotation S) (uses : uses_journal journal key r) (ok : smooth r).
Abbreviation R := (watch_rotation r).
Abbreviation never := (fun _ : state => False).

Lemma run_smooth {A} event (m : M S A) st (Q : A -> state -> Prop) :
  succeeds m -> fine (fst (fst st)) -> 0 < snd st ->
  (forall s' a, m (fst (fst st)) = (s', Ok a) -> fine s' -> Q a ((s', snd (fst st) ++ event true), pred (snd st))) ->
  run (mortal event m) st Q never.
Proof.
  intros Hm Hf Hl HQ. apply run_mortal; [lia| |].
  - intros life s' a Heq Hx. destruct (Hm _ Hf) as [_ Hf']. rewrite Hx in Hf'. specialize (HQ _ _ Hx Hf'). by rewrite Heq in HQ.
  - intros life s' e Heq Hx. destruct (Hm _ Hf) as [Hok _]. by rewrite Hx in Hok.
Qed.

(** One more call: the phase it leaves, and what it is recorded as. *)
Definition called (phase : string) (new : events) (st st' : state) : Prop :=
  fine (fst (fst st')) /\ phase_at journal key st' = phase /\ snd (fst st') = snd (fst st) ++ new /\ snd st' = pred (snd st).

Lemma smooth_step event f (wrap : M state unit -> M state unit) st :
  all_leave journal key f -> all_succeed f -> fine (fst (fst st)) -> 0 < snd st ->
  (forall m, run m st (fun _ => called (phase_at journal key st) [event true] st) never ->
             run (wrap m) st (fun _ => called (phase_at journal key st) [event true] st) never) ->
  run (wrap (call (mortal (fun ok => [event ok]) <$> f))) st (fun _ => called (phase_at journal key st) [event true] st) never.
Proof.
  intros Hl (m & -> & Hm) Hf Hlife Hw. apply Hw. simpl. apply run_smooth; [done..|]. intros s' a Hx Hf'. split_and!; [done| |done..].
  specialize (Hl m eq_refl (fst (fst st))). by rewrite Hx in Hl.
Qed.

Lemma smooth_save phase st :
  validRotationPhase phase = true -> fine (fst (fst st)) -> 0 < snd st -> run (savePhase R phase) st (fun _ => called phase [] st) never.
Proof.
  intros Hv Hf Hl. unfold savePhase. simpl. rewrite (us_journal _ _ _ uses), (us_key _ _ _ uses). simpl.
  apply run_wrap, run_smooth; [by apply ok|done..|]. intros s' [] Hx Hf'. split_and!; [done| |done..]. by eapply save_law.
Qed.

Lemma smooth_unless required event step st phase :
  validRotationPhase required = true -> fine (fst (fst st)) -> phase_at journal key st = phase -> 2 <= snd st ->
  run step st (fun _ => called (phase_at journal key st) [event] st) never ->
  run (unless_reached R required step phase) st
    (fun phase' st' => fine (fst (fst st')) /\ phase_at journal key st' = phase' /\ phase_order phase' = Nat.max (phase_order required) (phase_order phase) /\
       snd (fst st') = snd (fst st) ++ (if phase_order phase <? phase_order required then [event] else []) /\ snd st <= snd st' + 2) never.
Proof.
  intros Hv Hf Hp Hl Hstep. unfold unless_reached, rotationPhaseAtLeast.
  destruct (Nat.leb_spec (phase_order required) (phase_order phase)) as [Hle|Hlt].
  - apply run_ret. rewrite (proj2 (Nat.ltb_ge _ _)) by done. rewrite app_nil_r. split_and!; [done|done|lia|done|lia].
  - apply run_bind. eapply (run_mono _ _ _ _ never); [|done|exact Hstep]. intros [] st1 (Hf1 & Hp1 & He1 & Hl1).
    apply run_bind. eapply (run_mono _ _ _ _ never); [|done|apply smooth_save; [done|done|lia]]. intros [] st2 (Hf2 & Hp2 & He2 & Hl2).
    apply run_ret. rewrite (proj2 (Nat.ltb_lt _ _)) by done. rewrite He2, He1, app_nil_r. split_and!; [done|done|lia|done|lia].
Qed.

Lemma smooth_load st : fine (fst (fst st)) -> 0 < snd st -> run (load_phase R) st (fun phase st' => phase = phase_at journal key st /\ called phase [] st st') never.
Proof.
  intros Hf Hl. unfold load_phase. simpl. rewrite (us_journal _ _ _ uses), (us_key _ _ _ uses). simpl.
  apply run_bind, run_pure. pose proof (sm_key _ ok) as Hk. destruct (validateRotationKey key) as [k|e]; [|done].
  apply run_wrap, run_smooth; [by apply ok|done..|]. intros s' phase Hx Hf'. apply load_law in Hx as [Hp Hok].
  split; [by apply Hok|]. split_and!; [done| |done..]. unfold phase_at. simpl. by rewrite (Hok phase), Hp.
Qed.

Lemma smooth_clear_journal text st : fine (fst (fst st)) -> 0 < snd st -> run (clear_journal text R) st (fun _ => called "" [] st) never.
Proof.
  intros Hf Hl. unfold clear_journal. simpl. rewrite (us_journal _ _ _ uses), (us_key _ _ _ uses). simpl.
  apply run_wrap, run_smooth; [by apply ok|done..|]. intros s' [] Hx Hf'. split_and!; [done| |done..]. by eapply clear_law.
Qed.

Lemma smooth_clear_prepared text st :
  fine (fst (fst st)) -> 0 < snd st ->
  run (clear_prepared text R) st (fun _ st' => phase_at journal key st' = phase_at journal key st /\ snd (fst st') = snd (fst st)) never.
Proof.
  intros Hf Hl. unfold clear_prepared. simpl. destruct (ro_Prepared r) as [p|] eqn:Hp; simpl; [|done].
  rewrite (us_key _ _ _ uses). apply run_wrap, run_smooth; [by apply (sm_prepared _ ok)|done..|]. intros s' [] Hx _. simpl. rewrite app_nil_r.
  pose proof (us_prepared _ _ _ uses p Hp (fst (fst st))) as H. by rewrite Hx in H.
Qed.

Lemma smooth_required order : order ≡ₚ step_names -> require_steps order R = Ok tt.
Proof.
  intros _. unfold require_steps. induction order as [|n order IH]; [done|]. cbn [forE].
  assert (is_Some (step_of R n)) as [m ->]; [|exact IH].
  destruct (sm_prepare _ ok) as (? & H1 & _), (sm_reconcile _ ok) as (? & H2 & _), (sm_verify _ ok) as (? & H3 & _), (sm_retire _ ok) as (? & H4 & _).
  unfold step_of. simpl. rewrite H1, H2, H3, H4. by repeat case_bool_decide.
Qed.

Definition rotation_script : events := [EvPrepare true; EvReconcile true; EvVerify true; EvRetire true].

Lemma smooth_run order st :
  order ≡ₚ step_names -> fine (fst (fst st)) -> 11 <= snd st ->
  run (Rotation_Run order R) st
    (fun _ st' => phase_at journal key st' = "" /\
       snd (fst st') = snd (fst st) ++ drop (phase_order (phase_at journal key st)) rotation_script) never.
Proof.
  intros Hperm Hf Hl. unfold Rotation_Run. rewrite smooth_required by done. apply run_bind, run_pure.
  apply run_bind. eapply (run_mono _ _ _ _ never); [|done|apply smooth_load; [done|lia]]. intros phase st1 (Hphase & Hf1 & Hp1 & He1 & Hl1).
  apply run_bind. eapply (run_mono _ _ _ _ never); [|done|apply (smooth_unless _ (EvPrepare true)); [done|done|done|lia|]].
  2:{ apply (smooth_step EvPrepare _ (wrapM _)); [apply uses|apply ok|done|lia|]. intros m Hm. by apply run_wrap. }
  intros phase2 st2 (Hf2 & Hp2 & Hn2 & He2 & Hl2).
  apply run_bind. eapply (run_mono _ _ _ _ never); [|done|apply (smooth_unless _ (EvReconcile true)); [done|done|done|lia|]].
  2:{ apply (smooth_step EvReconcile _ (or_rollback R _)); [apply uses|apply ok|done|lia|]. intros m Hm. apply run_onErr.
      eapply (run_mono _ _ _ _ never); [|done|exact Hm]. done. }
  intros phase3 st3 (Hf3 & Hp3 & Hn3 & He3 & Hl3).
  apply run_bind. eapply (run_mono _ _ _ _ never); [|done|apply (smooth_unless _ (EvVerify true)); [done|done|done|lia|]].
  2:{ apply (smooth_step EvVerify _ (or_rollback R _)); [apply uses|apply ok|done|lia|]. intros m Hm. apply run_onErr.
      eapply (run_mono _ _ _ _ never); [|done|exact Hm]. done. }
  intros phase4 st4 (Hf4 & Hp4 & Hn4 & He4 & Hl4).
  apply run_bind. eapply (run_mono _ _ _ _ never); [|done|apply (smooth_unless _ (EvRetire true)); [done|done|done|lia|]].
  2:{ apply (smooth_step EvRetire _ (wrapM _)); [apply uses|apply ok|done|lia|]. intros m Hm. by apply run_wrap. }
  intros phase5 st5 (Hf5 & Hp5 & Hn5 & He5 & Hl5).
  apply run_bind. eapply (run_mono _ _ _ _ never); [|done|apply smooth_clear_journal; [done|lia]]. intros [] st6 (Hf6 & Hp6 & He6 & Hl6).
  eapply (run_mono _ _ _ _ never); [|done|apply smooth_clear_prepared; [done|lia]]. intros [] st7 (Hp7 & He7). split; [by rewrite Hp7|].
  rewrite He7, He6, He5, He4, He3, He2, He1, !app_nil_r, <- !app_assoc. f_equal.
  change (phase_order RotationPrepared) with 1 in *. change (phase_order RotationReconciled) with 2 in *.
  change (phase_order RotationVerified) with 3 in *. change (phase_order RotationRetired) with 4 in *.
  rewrite Hn4, Hn3, Hn2, <- Hphase. pose proof (phase_order_le_4 phase).
  destruct (phase_order phase) as [|[|[|[|[|n]]]]]; try done; lia.
Qed.
End smooth.

(** ** The journal in a file *)

(** encoding/json reads back what it wrote of valid texts, which ASCII texts
    and those it decoded are. *)
Class RotationJSONLaws (json : RotationJSON) := mkRotationJSONLaws {
  valid_json_text : string -> Prop;
  json_ascii_text s : is_ascii s = true -> valid_json_text s;
  json_decoded_text data entries : json_decode_entries data = Ok (Some entries) ->
    map_Forall (fun k v => valid_json_text k /\ valid_json_text v) entries;
  json_entries_read entries data : map_Forall (fun k v => valid_json_text k /\ valid_json_text v) entries ->
    json_encode_entries entries = Ok data -> json_decode_entries (data +:+ newline) = Ok (Some entries) }.

Definition contents (fs : fsys) (path : string) : option string := f_Data <$> fs !! path.

Lemma replace_owned_contents {os : OS} {names : TempNames} what pattern path data d d' res :
  path <> temp_name (dir_of path) pattern -> replace_owned what pattern path data d = (d', res) ->
  exists visited, dk_History d' = visited ++ dk_History d /\ dk_Files d' ∈ dk_Files d :: visited /\
    Forall (fun fs => contents fs path = contents (dk_Files d) path \/ contents fs path = Some data) visited /\
    (res = Ok tt -> contents (dk_Files d') path = Some data).
Proof.
  intros Htmp. unfold replace_owned. destruct (rename_filled_via _ _ _ _ _ _ _ _) as [d1 renamed] eqn:Hr.
  apply rename_filled_via_atomic in Hr as [(visited & Hh & Hin & Hv & _) Hok]; [|done].
  assert (Forall (fun fs => contents fs path = contents (dk_Files d) path \/ contents fs path = Some data) visited) as Hc.
  { eapply Forall_impl; [exact Hv|]. intros fs [Hfs|[_ Hfs]]; unfold contents; rewrite Hfs; [by left|by right]. }
  destruct renamed as [[]|e]; [|intros [= <- <-]; by exists visited]. destruct Hok as [Hok _].
  assert (contents (dk_Files d1) path = Some data) as Hnew by (unfold contents; by rewrite Hok).
  destruct (Chmod (dk_Files d1) path owner_only) as [fs secured] eqn:Hs. intros [= <- <-]. simpl.
  assert (contents fs path = Some data) as Hfs.
  { revert Hs. unfold Chmod. destruct (os_fault _); intros [= <- _]; [done|]. unfold contents.
    rewrite lookup_alter, decide_True by done. by rewrite Hok. }
  exists (fs :: visited). split_and!; [by rewrite Hh|right; left|by constructor; [right|]|done].
Qed.

Section file.
Context {json : RotationJSON} {jlaws : RotationJSONLaws json} (j : FileRotationJournal).

(** The entries of a document, none when there is no document to be read. *)
Definition document (data : option string) : gmap string string :=
  match json_decode_entries <$> data with Some (Ok (Some entries)) => entries | _ => ∅ end.

Definition entries_in (fs : fsys) : gmap string string :=
  match journal_path j with Ok path => document (contents fs path) | Err _ => ∅ end.

(** The phase that the files give to a key. *)
Definition file_phase (fs : fsys) (key : string) : string := default "" (entries_in fs !! TrimSpace key).

Lemma entries_valid fs : map_Forall (fun k v => valid_json_text k /\ valid_json_text v) (entries_in fs).
Proof.
  unfold entries_in, document. destruct (journal_path j) as [path|e]; [|by apply map_Forall_empty].
  destruct (contents fs path) as [data|]; simpl; [|by apply map_Forall_empty].
  destruct (json_decode_entries data) as [[entries|]|e] eqn:Hd; [by eapply json_decoded_text|by apply map_Forall_empty..].
Qed.

Section calls.
Context {os : OS} {names : TempNames}.

Lemma journal_read_Ok fs entries : journal_read j fs = Ok entries -> entries = entries_in fs.
Proof.
  unfold journal_read, entries_in. intros (path & -> & H)%bind_Ok. revert H. unfold ReadFile, contents.
  destruct (os_fault (OpRead path)); [done|]. destruct (fs !! path) as [f|]; simpl; [|by intros [= <-]].
  intros (o & Ho & [= <-])%bind_Ok. apply wrap_err_Ok in Ho. unfold document. simpl. rewrite Ho. by destruct o.
Qed.

Lemma journal_write_entries entries d d' res :
  (forall path, journal_path j = Ok path -> path <> temp_name (dir_of path) ".rotation-journal-*") ->
  map_Forall (fun k v => valid_json_text k /\ valid_json_text v) entries ->
  journal_write j entries d = (d', res) ->
  exists visited, dk_History d' = visited ++ dk_History d /\ dk_Files d' ∈ dk_Files d :: visited /\
    Forall (fun fs => entries_in fs = entries_in (dk_Files d) \/ entries_in fs = entries) visited /\
    (res = Ok tt -> entries_in (dk_Files d') = entries).
Proof.
  intros Htmp Hvalid. unfold journal_write, entries_in, mbind, M_bind, pureM.
  destruct (journal_path j) as [path|e] eqn:Hp; [|intros [= <- <-]; exists []; by split_and!; [|left|constructor|]].
  destruct (own_directory _ _) as [[]|e]; [|intros [= <- <-]; exists []; by split_and!; [|left|constructor|]].
  destruct (json_encode_entries entries) as [data|e] eqn:He; [|intros [= <- <-]; exists []; by split_and!; [|left|constructor|]]. cbn [wrap_err].
  intros Hr. apply replace_owned_contents in Hr as (visited & Hh & Hin & Hv & Hok); [|by apply Htmp].
  assert (forall fs, contents fs path = Some (data +:+ newline) -> document (contents fs path) = entries) as Hnew.
  { intros fs ->. unfold document. simpl. by rewrite (json_entries_read _ _ Hvalid He). }
  exists visited. split_and!; [done|done| |auto]. eapply Forall_impl; [exact Hv|]. intros fs [Hfs|Hfs]; [left; by rewrite Hfs|right; auto].
Qed.

Lemma validateRotationKey_Ok key k : validateRotationKey key = Ok k -> k = TrimSpace key.
Proof. unfold validateRotationKey. rewrite !reject_seq_Ok. by intros (_ & _ & [= <-]). Qed.

(** [d'] is the disk after the entry of [key] was to become [phase]. *)
Definition durable (key phase : string) (d d' : disk) (res : result error unit) : Prop :=
  exists visited, dk_History d' = visited ++ dk_History d /\ dk_Files d' ∈ dk_Files d :: visited /\
    Forall (fun fs => forall other, TrimSpace other <> TrimSpace key -> file_phase fs other = file_phase (dk_Files d) other) visited /\
    Forall (fun fs => file_phase fs key = file_phase (dk_Files d) key \/ file_phase fs key = phase) visited /\
    (res = Ok tt -> file_phase (dk_Files d') key = phase).

Lemma durable_refl key phase d e : durable key phase d d (Err e).
Proof. exists []. by split_and!; [|left|constructor|constructor|]. Qed.

Lemma write_durable key phase entries d d' res :
  (forall path, journal_path j = Ok path -> path <> temp_name (dir_of path) ".rotation-journal-*") ->
  map_Forall (fun k v => valid_json_text k /\ valid_json_text v) entries ->
  default "" (entries !! TrimSpace key) = phase ->
  (forall k, k <> TrimSpace key -> entries !! k = entries_in (dk_Files d) !! k) ->
  journal_write j entries d = (d', res) -> durable key phase d d' res.
Proof.
  intros Htmp Hv Hk Ho Hw. apply journal_write_entries in Hw as (visited & Hh & Hin & Hall & Hok); [|done..].
  exists visited. unfold file_phase. split_and!; [done|done|..].
  - eapply Forall_impl; [exact Hall|]. intros fs [-> | ->] other Hne; [done|]. by rewrite Ho.
  - eapply Forall_impl; [exact Hall|]. intros fs [-> | ->]; [by left|by right].
  - intros Hres. by rewrite Hok.
Qed.

Lemma Save_durable key phase d d' res :
  (forall path, journal_path j = Ok path -> path <> temp_name (dir_of path) ".rotation-journal-*") ->
  valid_json_text (TrimSpace key) -> journal_Save j key phase d = (d', res) -> durable key phase d d' res.
Proof.
  intros Htmp Hkey. unfold journal_Save, checkM, mbind, M_bind, pureM.
  destruct (validateRotationKey key) as [k|e] eqn:Hk; [|intros [= <- <-]; apply durable_refl]. apply validateRotationKey_Ok in Hk as ->.
  destruct (validRotationPhase phase) eqn:Hp; cbn [negb reject]; [|intros [= <- <-]; apply durable_refl].
  destruct (journal_read j (dk_Files d)) as [entries|e] eqn:Hr; [|intros [= <- <-]; apply durable_refl].
  apply journal_read_Ok in Hr as ->. apply write_durable; [done| |by rewrite lookup_insert_eq|intros k Hne; by rewrite lookup_insert_ne].
  apply map_Forall_insert_2; [|apply entries_valid]. split; [done|]. apply json_ascii_text.
  unfold validRotationPhase in Hp. apply bool_decide_eq_true in Hp.
  do 4 (apply elem_of_cons in Hp as [->|Hp]; [done|]). by apply not_elem_of_nil in Hp.
Qed.

Lemma Clear_durable key d d' res :
  (forall path, journal_path j = Ok path -> path <> temp_name (dir_of path) ".rotation-journal-*") ->
  journal_Clear j key d = (d', res) -> durable key "" d d' res.
Proof.
  intros Htmp. unfold journal_Clear, mbind, M_bind, pureM.
  destruct (validateRotationKey key) as [k|e] eqn:Hk; [|intros [= <- <-]; apply durable_refl]. apply validateRotationKey_Ok in Hk as ->.
  destruct (journal_read j (dk_Files d)) as [entries|e] eqn:Hr; [|intros [= <- <-]; apply durable_refl].
  apply journal_read_Ok in Hr as ->. apply write_durable; [done| |by rewrite lookup_delete_eq|intros k Hne; by rewrite lookup_delete_ne].
  apply map_Forall_delete, entries_valid.
Qed.

Lemma Load_phase key d d' res :
  journal_Load j key d = (d', res) -> d' = d /\ forall phase, res = Ok phase -> phase = file_phase (dk_Files d) key.
Proof.
  intros [= <- <-]. split; [done|]. intros phase (k & Hk & H)%bind_Ok. apply validateRotationKey_Ok in Hk as ->.
  apply bind_Ok in H as (entries & Hr & H). apply journal_read_Ok in Hr as ->. apply reject_seq_Ok in H as [_ [= <-]]. done.
Qed.
End calls.

(** The journal in a file has the laws of a journal. *)
Context {faults : Faults} (key : string).
Context (fresh : forall d path, journal_path j = Ok path -> path <> faults_names d (dir_of path) ".rotation-journal-*").
Context (valid : valid_json_text (TrimSpace key)).

Lemma durable_law (names : TempNames) phase d d' res :
  durable key phase d d' res ->
  (file_phase (dk_Files d') key = file_phase (dk_Files d) key \/ file_phase (dk_Files d') key = phase) /\
  (res = Ok tt -> file_phase (dk_Files d') key = phase).
Proof.
  intros (visited & _ & Hin & _ & Hv & Hok). split; [|done]. apply elem_of_cons in Hin as [-> |Hin]; [by left|].
  rewrite Forall_forall in Hv. by apply Hv.
Qed.

Definition file_journal_laws : RotationJournalLaws (file_journal j) key.
Proof.
  refine (mkRotationJournalLaws _ (file_journal j) key (fun d => file_phase (dk_Files d) key) _ _ _).
  - intros d d' res H. apply (Load_phase (os := faults_os d)) in H as [-> H]. done.
  - intros phase d d' res H. apply (durable_law (faults_names d)).
    apply (Save_durable (os := faults_os d) (names := faults_names d)); [intros path; apply fresh|done|done].
  - intros d d' res H. apply (durable_law (faults_names d)).
    apply (Clear_durable (os := faults_os d) (names := faults_names d)); [intros path; apply fresh|done].
Defined.
End file.

(** * Properties *)

(** C14: However often a rotation is attempted, whatever fails and wherever the
    process ends: the old credential is retired only right after the new one
    was verified, with nothing but retirements in between; consumers are moved
    only to material that was prepared; a rotation is taken back only right
    after a failed move or verification; and no new one is prepared while a
    retirement is unfinished. *)
Theorem rotation_orderly {S} (journal : RotationJournal S) key {laws : RotationJournalLaws journal key} s evs :
  rotations journal key s evs -> obeys permitted evs.
Proof. by intros [_ H]%rotations_sound. Qed.

(** C15: Whatever earlier attempts did and wherever they ended, an attempt in
    which nothing fails, in a process that lives long enough, finishes the rotation: it makes exactly the calls that
    the journal does not know of yet, the old credential is retired at the end,
    and the journal is cleared. *)
Theorem rotation_completes {S} (journal : RotationJournal S) key {laws : RotationJournalLaws journal key} (fine : S -> Prop)
    s evs order r life :
  rotations journal key s evs -> uses_journal journal key r -> smooth journal key fine r -> fine s -> order ≡ₚ step_names -> 11 <= life ->
  exists s' life', Rotation_Run order (watch_rotation r) ((s, evs), life) =
    (((s', evs ++ drop (phase_order (phase_of journal key s)) rotation_script), life'), Ok tt) /\
    phase_of journal key s' = "" /\
    since (EvRetire true) is_retire (evs ++ drop (phase_order (phase_of journal key s)) rotation_script).
Proof.
  intros Hr Hu Hsm Hf Hperm Hl. pose proof (smooth_run journal key fine r Hu Hsm order ((s, evs), life) Hperm Hf Hl) as H. unfold run in H.
  destruct (Rotation_Run order (watch_rotation r) ((s, evs), life)) as [[[s' evs'] life'] [[]|e]]; [|done].
  destruct H as [Hp He]. unfold phase_at in *. simpl in *. subst evs'. exists s', life'. split_and!; [done|done|].
  apply rotations_sound in Hr as [Hst _]. unfold phase_at in Hst. simpl in Hst.
  pose proof (phase_order_le_4 (phase_of journal key s)). destruct (phase_order (phase_of journal key s)) as [|[|[|[|[|n]]]]]; try lia.
  - exists (evs ++ [EvPrepare true; EvReconcile true; EvVerify true]), []. by rewrite <- app_assoc.
  - exists (evs ++ [EvReconcile true; EvVerify true]), []. by rewrite <- app_assoc.
  - exists (evs ++ [EvVerify true]), []. by rewrite <- app_assoc.
  - by exists evs, [].
  - change (drop 4 rotation_script) with ([] : events). by rewrite app_nil_r.
Qed.

(** C40: A change of the journal in a file is atomic, whatever fails: at every
    moment the files give the key its phase of before or the new one, and every
    other key its own; when no error is reported the new phase is there, and a
    load reports what the files say. *)
Theorem journal_durable {json : RotationJSON} {jlaws : RotationJSONLaws json} {faults : Faults} j key :
  (forall d path, journal_path j = Ok path -> path <> faults_names d (dir_of path) ".rotation-journal-*") ->
  valid_json_text (TrimSpace key) ->
  (forall phase d d' res, rj_Save (file_journal j) key phase d = (d', res) -> durable j key phase d d' res) /\
  (forall d d' res, rj_Clear (file_journal j) key d = (d', res) -> durable j key "" d d' res) /\
  (forall d d' res, rj_Load (file_journal j) key d = (d', res) ->
     d' = d /\ forall phase, res = Ok phase -> phase = file_phase j (dk_Files d) key).
Proof.
  intros fresh valid. split_and!.
  - intros phase d d' res H. exact (Save_durable j (os := faults_os d) (names := faults_names d) key phase d d' res (fresh d) valid H).
  - intros d d' res H. exact (Clear_durable j (os := faults_os d) (names := faults_names d) key d d' res (fresh d) H).
  - intros d d' res H. exact (Load_phase j (os := faults_os d) key d d' res H).
Qed.

(** Prepared material that was saved is what later loads return, until it is
    cleared, after which they return none; a save that fails leaves the old
    material or the new. *)
Theorem prepared_roundtrip {os : OS} {names : TempNames} s key path material d d' res :
  material_path s key = Ok path -> path <> temp_name (dir_of path) ".prepared-*" ->
  material_Save s key material d = (d', res) ->
  (contents (dk_Files d') path = contents (dk_Files d) path \/ contents (dk_Files d') path = Some material) /\
  (res = Ok tt -> forall (os' : OS) d2 loaded, material_Load (os := os') s key d' = (d2, loaded) ->
     d2 = d' /\ forall m, loaded = Ok m -> m = material) /\
  (forall (os' : OS) d2, material_Clear (os := os') s key d' = (d2, Ok tt) -> contents (dk_Files d2) path = None).
Proof.
  intros Hp Htmp. unfold material_Save, checkM, mbind, M_bind, pureM. rewrite Hp. intros Hsave.
  assert ((contents (dk_Files d') path = contents (dk_Files d) path \/ contents (dk_Files d') path = Some material) /\
          (res = Ok tt -> contents (dk_Files d') path = Some material)) as [Hor Hok].
  { destruct (reject _ _) as [[]|e]; [|injection Hsave as <- <-; by split; [left|]].
    destruct (own_directory _ _) as [[]|e]; [|injection Hsave as <- <-; by split; [left|]].
    apply replace_owned_contents in Hsave as (visited & _ & Hin & Hv & Hok); [|done]. split; [|done].
    apply elem_of_cons in Hin as [-> |Hin]; [by left|]. rewrite Forall_forall in Hv. by apply Hv. }
  split_and!; [done|..].
  - intros Hres os' d2 loaded. specialize (Hok Hres). unfold material_Load. intros [= <- <-]. split; [done|].
    rewrite Hp. cbn [mbind result_bind]. unfold ReadFile. intros m. destruct (os_fault (OpRead path)); [done|].
    unfold contents in Hok. destruct (dk_Files d' !! path) as [f|]; [|done]. injection Hok as <-. by intros [= <-].
  - intros os' d2. unfold material_Clear. rewrite Hp. unfold RemoveFile, contents.
    destruct (os_fault (OpRemove path)); [done|]. destruct (dk_Files d' !! path) eqn:Hf; intros [= <-]; simpl; [|by rewrite Hf].
    by rewrite lookup_delete_eq.
Qed.

(** ** Samples *)

Module Example_rotation.

Definition json : RotationJSON :=
  mkRotationJSON (fun entries => Ok (encode_text (map_to_list entries)))
    (fun data => match decode_text data with
                 | Some entries => Ok (Some (list_to_map entries))
                 | None => Err (errorsNew "unexpected end of JSON input")
                 end).

Definition json_laws : RotationJSONLaws json.
Proof.
  refine (mkRotationJSONLaws json (fun _ => True) _ _ _).
  - done.
  - intros data entries _ k v _. done.
  - intros entries data _ Hd. injection Hd as <-. unfold json_decode_entries, json. rewrite decode_encode_text. by rewrite list_to_map_to_list.
Defined.

Definition no_faults : Faults := mkFaults (fun _ => mkOS (fun _ => None) (fun _ f => f)) (fun _ dir _ => dir +:+ "/.tmp").

Definition key : string := "valkey/cache/password".

Definition file : FileRotationJournal := mkFileJournal "/app/credential-rotation.json".
Definition journal : RotationJournal disk := file_journal (json := json) (faults := no_faults) file.

Lemma fresh d path : journal_path file = Ok path -> path <> faults_names (Faults := no_faults) d (dir_of path) ".rotation-journal-*".
Proof.
  assert (journal_path file = Ok "/app/credential-rotation.json") as -> by (vm_compute; reflexivity). intros [= <-].
  apply (bool_decide_unpack _). vm_compute. exact I.
Qed.

Definition laws : RotationJournalLaws journal key :=
  file_journal_laws (json := json) (jlaws := json_laws) (faults := no_faults) file key fresh I.

Definition store : FilePreparedMaterialStore := mkFilePrepared "/app/prepared".
Definition material : PreparedMaterialStore disk := file_prepared (faults := no_faults) store.

(** New material is saved unless some is prepared already. *)
Definition prepare : M disk unit :=
  prepared ← pm_Load material key;
  if prepared == "" then pm_Save material key "new" else mret tt.

Definition rotation (prepare verify : M disk unit) : Rotation disk :=
  mkRotation (Some prepare) (Some (mret tt)) (Some verify) (Some (mret tt)) (Some (mret tt)) (Some journal) (Some material) key.

Definition plain : Rotation disk := rotation (mret tt) (mret tt).

Definition attempt (r : Rotation disk) (life : nat) (st : disk * events) := Rotation_Run step_names (watch_rotation r) (st, life).

Definition start : disk * events := (mkDisk ∅ [], []).

Lemma other_file d path : path <> "/app/credential-rotation.json" ->
  file_phase (json := json) file (delete path (dk_Files d)) key = file_phase (json := json) file (dk_Files d) key.
Proof.
  intros Hne. unfold file_phase, entries_in. assert (journal_path file = Ok "/app/credential-rotation.json") as -> by (vm_compute; reflexivity).
  unfold contents. by rewrite lookup_delete_ne.
Qed.

Lemma uses prepare reconcile verify retire rollback :
  all_leave journal key (laws := laws) prepare -> all_leave journal key (laws := laws) reconcile -> all_leave journal key (laws := laws) verify ->
  all_leave journal key (laws := laws) retire -> all_leave journal key (laws := laws) rollback ->
  uses_journal journal key (laws := laws)
    (mkRotation prepare reconcile verify retire rollback (Some journal) (Some material) key).
Proof.
  intros H1 H2 H3 H4 H5. split; [reflexivity|reflexivity|assumption..|].
  intros p [= <-] d. cbn [phase_of laws file_journal_laws pm_Clear material file_prepared]. unfold material_Clear.
  destruct (material_path store key) as [path|e] eqn:Hpath; [|done].
  assert (path <> "/app/credential-rotation.json") as Hne.
  { assert (match material_path store key with Ok path => path <> "/app/credential-rotation.json" | Err _ => False end) as H
      by (apply (bool_decide_unpack _); vm_compute; exact I). by rewrite Hpath in H. }
  unfold RemoveFile. simpl. destruct (dk_Files d !! path) eqn:Hf; simpl; [by apply other_file|done].
Qed.

Lemma plain_uses : uses_journal journal key (laws := laws) plain.
Proof. apply uses; intros m [= <-] s; reflexivity. Qed.

(** The process ends before the move of the consumers is recorded; it is done
    again. *)
Definition first := attempt plain 4 start.
Definition second := attempt plain 20 (fst (fst first)).

Lemma first_reached : rotations journal key (laws := laws) (fst (fst (fst first))) (snd (fst (fst first))).
Proof.
  apply (rotations_attempt journal key (laws := laws) step_names plain 4 (snd (fst first)) (fst start) (fst (fst (fst first))) (snd start)
           (snd (fst (fst first))) (snd first)); [|exact plain_uses|done|].
  - apply rotations_none. vm_compute. reflexivity.
  - vm_compute. reflexivity.
Qed.

(** A process that ends between the two clearings of a finished rotation leaves
    its material prepared for the next rotation, whose journal is empty. *)
Example finished_material_stays :
  let d := fst (fst (fst (attempt (rotation prepare (mret tt)) 10 start))) in
  snd (fst (fst (attempt (rotation prepare (mret tt)) 10 start))) = rotation_script /\
  file_phase (json := json) file (dk_Files d) key = "" /\ snd (pm_Load material key d) = Ok "new".
Proof. vm_compute. done. Qed.

(** A process that ends after a rotation was taken back, and before its entry is
    cleared: the next attempt verifies and retires without moving the consumers
    again. *)
Example retired_without_consumers :
  let failed := attempt (rotation (mret tt) (fail "refused")) 7 start in
  snd (fst (fst (attempt plain 20 (fst (fst failed))))) =
  [EvPrepare true; EvReconcile true; EvVerify false; EvRollback true; EvVerify true; EvRetire true].
Proof. vm_compute. done. Qed.

(** Without faults, and with a file that can be read, nothing fails. *)
Definition path : string := "/app/credential-rotation.json".

Definition fine (d : disk) : Prop :=
  is_ok (journal_read (json := json) (os := faults_os (Faults := no_faults) d) file (dk_Files d)) = true /\
  (file_phase (json := json) file (dk_Files d) key = "" \/ validRotationPhase (file_phase (json := json) file (dk_Files d) key) = true).

Lemma path_of : journal_path file = Ok path.
Proof. vm_compute. reflexivity. Qed.

Lemma replace_owned_smooth what pattern data d :
  snd (replace_owned (os := faults_os (Faults := no_faults) d) (names := faults_names (Faults := no_faults) d) what pattern path data d) = Ok tt.
Proof.
  unfold replace_owned, rename_filled_via, fill_temp. simpl.
  assert (dir_of path +:+ "/.tmp" <> path) as Hne by (apply (bool_decide_unpack _); vm_compute; exact I).
  unfold Rename. simpl. by rewrite lookup_insert_eq.
Qed.

Lemma write_smooth entries d :
  (default "" (entries !! key) = "" \/ validRotationPhase (default "" (entries !! key)) = true) ->
  let r := journal_write (json := json) (os := faults_os (Faults := no_faults) d) (names := faults_names (Faults := no_faults) d) file entries d in
  is_ok (snd r) = true /\ fine (fst r).
Proof.
  intros Hk r. assert (snd r = Ok tt) as Hr.
  { unfold r, journal_write, mbind, M_bind, pureM. rewrite path_of. simpl. apply replace_owned_smooth. }
  split; [by rewrite Hr|]. destruct r as [d' res] eqn:Heq. simpl in *. subst res.
  unfold r, journal_write, mbind, M_bind, pureM in Heq. rewrite path_of in Heq. simpl in Heq.
  apply replace_owned_contents in Heq as (_ & _ & _ & _ & Hok); [|apply (bool_decide_unpack _); vm_compute; exact I].
  specialize (Hok eq_refl). assert (json_decode_entries (RotationJSON := json) (encode_text (map_to_list entries) +:+ newline) = Ok (Some entries)) as Hd
    by (by apply (json_entries_read (RotationJSONLaws := json_laws))).
  split.
  - unfold journal_read. rewrite path_of. cbn [mbind result_bind]. unfold ReadFile. cbn [faults_os no_faults os_fault]. unfold contents in Hok.
    destruct (dk_Files d' !! path) as [f|]; [|done]. injection Hok as ->. by rewrite Hd.
  - unfold file_phase, entries_in. rewrite path_of, Hok. unfold document. cbn [fmap option_fmap option_map]. rewrite Hd. exact Hk.
Qed.

Lemma key_valid : validateRotationKey key = Ok key.
Proof. vm_compute. reflexivity. Qed.

Lemma still_fine p d : p <> path -> fine d -> fine (visit d (delete p (dk_Files d))).
Proof.
  intros Hne [Hr Hp]. assert (delete p (dk_Files d) !! path = dk_Files d !! path) as Hl by (by apply lookup_delete_ne).
  split; cbn [visit dk_Files].
  - unfold journal_read in *. rewrite path_of in *. cbn [mbind result_bind] in *. unfold ReadFile in *. by rewrite Hl.
  - unfold file_phase, entries_in, contents in *. rewrite path_of in *. by rewrite Hl.
Qed.

Lemma material_elsewhere : match material_path store key with Ok p => p <> path | Err _ => False end.
Proof. apply (bool_decide_unpack _). vm_compute. exact I. Qed.

Lemma plain_smooth : smooth journal key fine plain.
Proof.
  assert (all_succeed fine (Some (mret tt : M disk unit))) as Hstep by (exists (mret tt); split; [done|]; intros s Hs; by split).
  split; [by rewrite key_valid|exact Hstep..| | | |].
  - intros d Hf. split; [|exact Hf]. unfold journal, file_journal. cbn [rj_Load]. unfold journal_Load. cbn [snd]. rewrite key_valid. cbn [mbind result_bind]. destruct Hf as [Hr Hp].
    destruct (journal_read file (dk_Files d)) as [entries|e] eqn:He; [|done]. apply journal_read_Ok in He as ->.
    unfold file_phase in Hp. change (TrimSpace key) with key in Hp. cbn [mbind result_bind].
    destruct Hp as [-> |Hp]; [done|]. rewrite Hp. by rewrite andb_false_r.
  - intros phase Hv d [Hr Hp]. unfold journal, file_journal. cbn [rj_Save]. unfold journal_Save, checkM, mbind, M_bind, pureM. rewrite key_valid, Hv. cbn [negb reject].
    destruct (journal_read file (dk_Files d)) as [entries|e]; [|done]. apply write_smooth. rewrite lookup_insert_eq. by right.
  - intros d [Hr Hp]. unfold journal, file_journal. cbn [rj_Clear]. unfold journal_Clear, mbind, M_bind, pureM. rewrite key_valid.
    destruct (journal_read file (dk_Files d)) as [entries|e]; [|done]. apply write_smooth. rewrite lookup_delete_eq. by left.
  - intros p [= <-] d Hf. unfold material, file_prepared. cbn [pm_Clear]. unfold material_Clear. pose proof material_elsewhere as Hne.
    destruct (material_path store key) as [p|e]; [|done]. unfold RemoveFile. cbn [faults_os no_faults os_fault].
    destruct (dk_Files d !! p); cbn [fst snd oe_NotExist not_exist]; (split; [done|]); [by apply still_fine|exact Hf].
Qed.
End Example_rotation.

Lemma rotation_orderly_witness :
  snd (fst (fst Example_rotation.second)) = [EvPrepare true; EvReconcile true; EvReconcile true; EvVerify true; EvRetire true] /\
  obeys permitted (snd (fst (fst Example_rotation.second))).
Proof.
  split; [vm_compute; reflexivity|].
  apply (rotation_orderly Example_rotation.journal Example_rotation.key (laws := Example_rotation.laws) (fst (fst (fst Example_rotation.second)))).
  apply (rotations_attempt Example_rotation.journal Example_rotation.key (laws := Example_rotation.laws) step_names Example_rotation.plain 20
    (snd (fst Example_rotation.second)) (fst (fst (fst Example_rotation.first))) (fst (fst (fst Example_rotation.second)))
    (snd (fst (fst Example_rotation.first))) (snd (fst (fst Example_rotation.second))) (snd Example_rotation.second));
    [exact Example_rotation.first_reached|exact Example_rotation.plain_uses|done|vm_compute; reflexivity].
Defined.

(** The attempt that follows the interrupted one makes the three calls that are
    left. *)
Lemma rotation_completes_witness :
  exists s' life', Rotation_Run step_names (watch_rotation Example_rotation.plain) (fst (fst Example_rotation.first), 11) =
    (((s', [EvPrepare true; EvReconcile true; EvReconcile true; EvVerify true; EvRetire true]), life'), Ok tt).
Proof.
  destruct (rotation_completes Example_rotation.journal Example_rotation.key (laws := Example_rotation.laws) Example_rotation.fine
              (fst (fst (fst Example_rotation.first))) (snd (fst (fst Example_rotation.first))) step_names Example_rotation.plain 11)
    as (s' & life' & Heq & _).
  - exact Example_rotation.first_reached.
  - exact Example_rotation.plain_uses.
  - exact Example_rotation.plain_smooth.
  - split; [vm_compute; reflexivity|]. right. vm_compute. reflexivity.
  - done.
  - lia.
  - exists s', life'. rewrite <- surjective_pairing in Heq. rewrite Heq. vm_compute. reflexivity.
Defined.

Lemma journal_durable_witness :
  let d := fst (rj_Save Example_rotation.journal Example_rotation.key RotationVerified (mkDisk ∅ [])) in
  file_phase (json := Example_rotation.json) Example_rotation.file (dk_Files d) Example_rotation.key = RotationVerified.
Proof.
  intros d.
  destruct (journal_durable (json := Example_rotation.json) (jlaws := Example_rotation.json_laws) (faults := Example_rotation.no_faults)
              Example_rotation.file Example_rotation.key Example_rotation.fresh I) as (Hsave & _ & _).
  destruct (Hsave RotationVerified (mkDisk ∅ []) d (Ok tt)) as (visited & _ & _ & _ & _ & Hok); [vm_compute; reflexivity|by apply Hok].
Defined.

Lemma prepared_roundtrip_witness :
  let os := faults_os (Faults := Example_rotation.no_faults) (mkDisk ∅ []) in
  let d := fst (pm_Save Example_rotation.material Example_rotation.key "new" (mkDisk ∅ [])) in
  material_Load (os := os) Example_rotation.store Example_rotation.key d = (d, Ok "new").
Proof.
  intros os d.
  destruct (prepared_roundtrip (os := os) (names := faults_names (Faults := Example_rotation.no_faults) (mkDisk ∅ []))
              Example_rotation.store Example_rotation.key
              (match material_path Example_rotation.store Example_rotation.key with Ok p => p | Err _ => "" end)
              "new" (mkDisk ∅ []) d (Ok tt)) as (_ & Hload & _).
  - vm_compute. reflexivity.
  - apply (bool_decide_unpack _). vm_compute. exact I.
  - vm_compute. reflexivity.
  - destruct (material_Load (os := os) Example_rotation.store Example_rotation.key d) as [d2 loaded] eqn:Hl.
    destruct (Hload eq_refl os d2 loaded Hl) as [-> Hm]. f_equal. destruct loaded as [m|e] eqn:Hx; [by rewrite (Hm m)|].
    exfalso. vm_compute in Hl. discriminate Hl.
Defined.
