(* ===== verification/Access.v ===== *)
(** * Endpoints, policy, tenancy, roles and target access (internal/endpoint,
    policy, tenancy, authorization, targetaccess)

    The small packages that decide whether something is reachable, allowed, or
    within one tenant.  The HTTP client and the parser of IP addresses of the
    standard library enter as an interface. *)

From S2P Require Import Prelude GoStrings Orders.

(** ** Endpoints (internal/endpoint/domain.go) *)

Record Endpoint := mkEndpoint {
  ep_Service : string;
  ep_Scheme : string;
  ep_Host : string;
  ep_Port : Z }.

Record ExposureStatus := mkExposureStatus {
  es_Service : string;
  es_Scheme : string;
  es_Host : string;
  es_Port : Z;
  es_Ready : bool;
  es_Detail : text }.

(** With the [Ready] and [Detail] that the callers assign. *)
Definition exposureStatus (ep : Endpoint) (ready : bool) (detail : text) : ExposureStatus :=
  mkExposureStatus (ep_Service ep) (ep_Scheme ep) (ep_Host ep) (ep_Port ep) ready detail.

Definition Endpoint_Validate (e : Endpoint) : result error unit :=
  reject (TrimSpace (ep_Service e) == "") (Errorf "endpoint service is required" []) ;;
  reject (negb (bool_decide (ep_Scheme e ∈ ["http"; "https"]))) (Errorf "endpoint scheme %q is unsupported" [AStr (ep_Scheme e)]) ;;
  reject (TrimSpace (ep_Host e) == "") (Errorf "endpoint host is required" []) ;;
  reject ((ep_Port e <? 1)%Z || (65535 <? ep_Port e)%Z) (Errorf "endpoint port %d is invalid" [AInt (ep_Port e)]).

Definition https_ports : list Z := [443; 8443]%Z.
Definition http_ports : list Z := [80; 3000; 3001; 5000; 8000; 8080; 8081; 8888]%Z.

(** [None] is [("", false)]. *)
Definition HTTPPortScheme (targetPort publishedPort : Z) : option string :=
  let known (ports : list Z) := existsb (fun port => bool_decide (port ∈ ports)) [targetPort; publishedPort] in
  if known https_ports then Some "https" else if known http_ports then Some "http" else None.

(** [strings.Trim(s, "[]")] *)
Fixpoint trim_brackets_left (s : string) : string :=
  match s with String c s' => if bool_decide (c ∈ ["["; "]"]%char) then trim_brackets_left s' else s | EmptyString => s end.
Definition trim_brackets (s : string) : string := String.rev (trim_brackets_left (String.rev (trim_brackets_left s))).

Definition NormalizePublishedHost (host : string) : string :=
  let host := TrimSpace host in
  if bool_decide (host ∈ [""; "0.0.0.0"; "::"; "[::]"]) then "127.0.0.1" else trim_brackets host.

(** [strings.EqualFold] with a text of lower-case letters other than "k": besides
    the capitals, only U+017F (long s) folds to one of them, to "s". *)
Definition after_long_s (s : string) : option string :=
  match s with
  | String a (String b s) => if (nat_of_ascii a =? 197)%nat && (nat_of_ascii b =? 191)%nat then Some s else None
  | _ => None
  end.

Fixpoint folds_to (letters s : string) : bool :=
  match letters with
  | EmptyString => s == ""
  | String l letters =>
      match after_long_s s, s with
      | Some s, _ => (l == "s"%char) && folds_to letters s
      | None, String c s => (lower_byte c == l) && folds_to letters s
      | None, EmptyString => false
      end
  end.

(** What the code asks of net and net/http: whether a text is a loopback IP
    address, whether a URL can be requested, and the status of the response
    when one is dialled. *)
Class HTTPWorld := mkHTTPWorld {
  ip_loopback : string -> bool;
  url_valid : string -> bool;
  http_status : string -> string -> option Z }.

Section probe.
Context {world : HTTPWorld}.

Definition IsLoopbackHost (host : string) : bool := folds_to "localhost" host || ip_loopback (trim_brackets host).

(** [net.JoinHostPort] *)
Definition JoinHostPort (host : string) (port : Z) : string :=
  (if has_byte ":"%char host then "[" +:+ host +:+ "]" else host) +:+ ":" +:+ Itoa port.

(** From the dial address on. *)
Definition probe (ep : Endpoint) (dialAddress : string) : ExposureStatus :=
  let url := ep_Scheme ep +:+ "://" +:+ JoinHostPort (ep_Host ep) (ep_Port ep) +:+ "/" in
  if negb (url_valid url) then exposureStatus ep false (Lit "invalid endpoint")
  else match http_status dialAddress url with
  | None => exposureStatus ep false (Lit "unreachable")
  | Some code => exposureStatus ep (code <? 500)%Z (Sprintf "HTTP %d" [AInt code])
  end.

Definition ProbeHTTP (ep : Endpoint) : ExposureStatus :=
  if is_err (Endpoint_Validate ep) then exposureStatus ep false (Lit "invalid endpoint")
  else probe ep (JoinHostPort (ep_Host ep) (ep_Port ep)).

Definition ProbeHTTPDialTarget (logical : Endpoint) (dialHost : string) (dialPort : Z) : ExposureStatus :=
  if is_err (Endpoint_Validate logical) || (TrimSpace dialHost == "") || (dialPort <? 1)%Z || (65535 <? dialPort)%Z
  then exposureStatus logical false (Lit "invalid endpoint")
  else probe logical (JoinHostPort dialHost dialPort).
End probe.

Definition status_before (a b : ExposureStatus) : bool :=
  if es_Service a != es_Service b then String.ltb (es_Service a) (es_Service b)
  else if (es_Port a =? es_Port b)%Z then String.ltb (es_Scheme a) (es_Scheme b)
  else (es_Port a <? es_Port b)%Z.

Definition SortExposureStatuses : list ExposureStatus -> list ExposureStatus := sort_slice status_before.

(** ** Policy decisions (internal/policy/model.go) *)

Definition Allow : string := "allow".
Definition Warn : string := "warn".
Definition Deny : string := "deny".

Record Finding := mkFinding {
  fi_Code : string;
  fi_Decision : string;
  fi_Scope : string;
  fi_Subject : string;
  fi_Field : string;
  fi_Value : string;
  fi_Message : string;
  fi_Source : string }.

(** The loop of [Aggregate]. *)
Fixpoint aggregate_from (decision : string) (findings : list Finding) : string :=
  match findings with
  | [] => decision
  | finding :: findings =>
      if fi_Decision finding == Deny then Deny
      else if fi_Decision finding == Warn then aggregate_from Warn findings
      else aggregate_from decision findings
  end.

Definition Aggregate (findings : list Finding) : string := aggregate_from Allow findings.

Definition Denied (decision : string) : bool := decision == Deny.

(** ** Tenants (internal/tenancy/context.go) *)

Record TenantContext := mkTenantContext {
  tc_TenantID : string;
  tc_ExternalIdentityID : string;
  tc_Roles : list string }.

Record Membership := mkMembership {
  mb_TenantID : string;
  mb_Role : string }.

Definition ErrNoMembership : error := errorsNew "no tenant membership".
Definition ErrAmbiguousTenant : error := errorsNew "ambiguous tenant membership".
Definition ErrInvalidMembership : error := errorsNew "invalid tenant membership".

Definition resolve_membership (acc : string * gset string) (m : Membership) : result error (string * gset string) :=
  let '(tenantID, roles) := acc in
  reject ((mb_TenantID m == "") || (mb_Role m == "")) ErrInvalidMembership ;;
  if tenantID == "" then Ok (mb_TenantID m, {[mb_Role m]} ∪ roles)
  else
    reject (mb_TenantID m != tenantID) ErrAmbiguousTenant ;;
    Ok (tenantID, {[mb_Role m]} ∪ roles).

Definition Tenant_Resolve (externalIdentityID : string) (memberships : list Membership) : result error TenantContext :=
  reject (externalIdentityID == "") ErrInvalidMembership ;;
  reject (match memberships with [] => true | _ => false end) ErrNoMembership ;;
  '(tenantID, roles) ← forE resolve_membership ("", ∅) memberships;
  Ok (mkTenantContext tenantID externalIdentityID (sort_strings (elements roles))).

(** ** Roles (internal/authorization/rbac.go) *)

Definition PermRead : string := "read".
Definition PermCreate : string := "create".
Definition PermUpdate : string := "update".
Definition PermDelete : string := "delete".
Definition RoleEditor : string := "editor".
Definition RoleViewer : string := "viewer".

Definition rolePermissions : gmap string (list string) :=
  {[RoleEditor := [PermRead; PermCreate; PermUpdate; PermDelete]; RoleViewer := [PermRead]]}.

Definition grants (permission role : string) : bool :=
  match rolePermissions !! role with Some permissions => bool_decide (permission ∈ permissions) | None => false end.

Definition Allowed (roles : list string) (permission : string) : bool := existsb (grants permission) roles.

Definition PermissionError (permission : string) : error := Errorf "forbidden" [AStr permission].

Definition Authorize (roles : list string) (permission : string) : result error unit :=
  if Allowed roles permission then Ok tt else Err (PermissionError permission).

(** ** Descriptors of target access (internal/targetaccess/contract.go) *)

Definition ContractVersion : string := "baseharbor.target-access/v1".
Definition ProviderLocal : string := "local".
Definition ProviderNodeConnector : string := "baseharbor-node-connector".
Definition ProviderNativeAPI : string := "native-api".

Record Capabilities := mkCapabilities {
  ac_Connect : bool;
  ac_Stream : bool;
  ac_ExecTransport : bool;
  ac_TypedRealization : bool;
  ac_PeerIdentity : bool;
  ac_NativeContext : bool }.

Definition Capabilities_Supports (c : Capabilities) (capability : string) : bool :=
  if capability == "connect" then ac_Connect c
  else if capability == "stream" then ac_Stream c
  else if capability == "exec-transport" then ac_ExecTransport c
  else if capability == "typed-realization" then ac_TypedRealization c
  else if capability == "peer-identity" then ac_PeerIdentity c
  else if capability == "native-context" then ac_NativeContext c
  else false.

Record Descriptor := mkDescriptor {
  de_Kind : string;
  de_ContractVersion : string;
  de_Remote : bool;
  de_Capabilities : Capabilities }.

(** [^seg(?:/seg)*$] with [seg] one or more of the letters, digits and ".", "_"
    and "-", the first and the last a letter or digit. *)
Definition is_alnum (c : ascii) : bool :=
  let n := nat_of_ascii c in ((97 <=? n)%nat && (n <=? 122)%nat) || ((48 <=? n)%nat && (n <=? 57)%nat).
Definition is_segment_byte (c : ascii) : bool := is_alnum c || bool_decide (c ∈ ["."; "_"; "-"]%char).

Fixpoint segment_rest (s : string) : bool :=
  match s with
  | EmptyString => true
  | String c EmptyString => is_alnum c
  | String c s => is_segment_byte c && segment_rest s
  end.

Definition segment (s : string) : bool := match s with String c s => is_alnum c && segment_rest s | EmptyString => false end.

Definition providerKindPattern (s : string) : bool := forallb segment (Split s "/"%char).

Definition ParseProviderKind (value : string) : result error string :=
  let normalized := TrimSpace (ToLower value) in
  reject (normalized == "") (Errorf "target access provider is required" []) ;;
  reject (negb (providerKindPattern normalized)) (Errorf "invalid target access provider %q" [AStr value]) ;;
  Ok normalized.

Definition BuiltInDescriptor (kind : string) : option Descriptor :=
  if kind == ProviderLocal then
    Some (mkDescriptor ProviderLocal ContractVersion false (mkCapabilities true true true true false false))
  else if kind == ProviderNodeConnector then
    Some (mkDescriptor ProviderNodeConnector ContractVersion true (mkCapabilities true true true true true false))
  else if kind == ProviderNativeAPI then
    Some (mkDescriptor ProviderNativeAPI ContractVersion true (mkCapabilities true true true true true true))
  else None.

Definition require_capability (descriptor : Descriptor) (_ : unit) (capability : string) : result error unit :=
  reject (capability == "") (Errorf "target access provider %q: empty capability requirement" [AStr (de_Kind descriptor)]) ;;
  reject (negb (Capabilities_Supports (de_Capabilities descriptor) capability))
    (Errorf "target access provider %q does not support required capability %q" [AStr (de_Kind descriptor); AStr capability]).

Definition RequireCapabilities (descriptor : Descriptor) (required : list string) : result error unit :=
  reject (de_ContractVersion descriptor != ContractVersion)
    (Errorf "target access provider %q uses contract %q, require %q" [AStr (de_Kind descriptor); AStr (de_ContractVersion descriptor); AStr ContractVersion]) ;;
  forE (require_capability descriptor) tt required.

(** ** Tenants and roles *)

Lemma resolve_memberships tenant (roles : gset string) ms t' roles' :
  (tenant = "" -> roles = ∅) ->
  forE resolve_membership (tenant, roles) ms = Ok (t', roles') <->
  Forall (fun m => mb_TenantID m = t' /\ mb_TenantID m <> "" /\ mb_Role m <> "") ms /\
  (tenant = "" -> ms = [] -> t' = "") /\ (tenant <> "" -> t' = tenant) /\ roles' = list_to_set (map mb_Role ms) ∪ roles.
Proof.
  revert tenant roles. induction ms as [|m ms IH]; intros tenant roles He.
  - rewrite forE_nil. simpl. split.
    + intros [= -> ->]. split_and!; [constructor|done|done|set_solver].
    + intros (_ & H1 & H2 & ->). destruct (decide (tenant = "")) as [->|Hne]; [rewrite H1 by done|rewrite H2 by done]; f_equal; f_equal; set_solver.
  - rewrite forE_cons, bind_Ok. unfold resolve_membership at 1. rewrite Forall_cons. split.
    + intros (acc & H & Hrest). apply reject_seq_Ok in H as [[Ht%bool_decide_eq_false Hr%bool_decide_eq_false]%orb_false_iff H].
      assert (Hacc : acc = (mb_TenantID m, {[mb_Role m]} ∪ roles) /\ (tenant <> "" -> mb_TenantID m = tenant)).
      { case_bool_decide as H0; [by injection H as <-|]. apply reject_seq_Ok in H as [Hs [= <-]]. rewrite neqb_false in Hs. by rewrite Hs. }
      destruct Hacc as [-> Hsame]. apply IH in Hrest as (Hall & _ & Hkeep & ->); [|intros; contradiction].
      specialize (Hkeep Ht). subst t'.
      split; [by split|]. split; [intros _ [=]|]. split; [intros H1; exact (Hsame H1)|simpl; set_solver +].
    + intros ([(Hm & Hn & Hr) Hall] & _ & Hkeep & ->). exists (mb_TenantID m, {[mb_Role m]} ∪ roles). split.
      * apply reject_seq_Ok. split; [by rewrite !(proj2 (bool_decide_eq_false _))|]. case_bool_decide as H0; [done|].
        apply reject_seq_Ok. split; [|by rewrite Hm, (Hkeep H0)]. rewrite neqb_false, Hm. symmetry. exact (eq_sym (Hkeep H0)).
      * apply IH; [intros; contradiction|]. split; [exact Hall|]. split; [intros; contradiction|].
        split; [intros _; symmetry; exact Hm|simpl; set_solver +].
Qed.

(** A scope is resolved exactly when every membership is complete and in the
    one tenant of the scope. *)
Theorem Tenant_Resolve_exact id ms c :
  Tenant_Resolve id ms = Ok c <->
  id <> "" /\ ms <> [] /\ Forall (fun m => mb_TenantID m = tc_TenantID c /\ mb_TenantID m <> "" /\ mb_Role m <> "") ms /\
  tc_ExternalIdentityID c = id /\ tc_Roles c = sort_strings (elements (list_to_set (map mb_Role ms) : gset string)).
Proof.
  unfold Tenant_Resolve. rewrite !reject_seq_Ok, bind_Ok, bool_decide_eq_false. split.
  - intros (Hid & Hms & (t & roles) & Hr & [= <-]). apply resolve_memberships in Hr as (Hall & _ & _ & ->); [|done].
    split_and!; try done; [by destruct ms|]. by rewrite (right_id_L ∅ (∪)).
  - intros (Hid & Hms & Hall & He & Hr). split; [done|]. split; [by destruct ms|].
    exists (tc_TenantID c, list_to_set (map mb_Role ms)). split; [|by destruct c; simpl in *; subst].
    apply resolve_memberships; [done|]. split_and!; [done|done|done|by rewrite (right_id_L ∅ (∪))].
Qed.

Lemma Allowed_exact roles permission :
  Allowed roles permission = true <->
  (RoleEditor ∈ roles /\ permission ∈ [PermRead; PermCreate; PermUpdate; PermDelete]) \/ (RoleViewer ∈ roles /\ permission = PermRead).
Proof.
  unfold Allowed. rewrite existsb_exists. unfold grants, rolePermissions. split.
  - intros (role & Hin%list_elem_of_In & H). destruct (decide (role = RoleEditor)) as [->|He].
    + rewrite lookup_insert_eq in H. apply bool_decide_eq_true in H. by left.
    + rewrite lookup_insert_ne in H by done. destruct (decide (role = RoleViewer)) as [->|Hv].
      * rewrite lookup_singleton_eq in H. apply bool_decide_eq_true, list_elem_of_singleton in H. by right.
      * by rewrite lookup_singleton_ne in H.
  - intros [[Hin Hp]|[Hin ->]].
    + exists RoleEditor. split; [by apply list_elem_of_In|]. rewrite lookup_insert_eq. by apply bool_decide_eq_true.
    + exists RoleViewer. split; [by apply list_elem_of_In|]. rewrite lookup_insert_ne, lookup_singleton_eq by done.
      apply bool_decide_eq_true. by apply list_elem_of_singleton.
Qed.

(** ** Probes, decisions and capabilities *)

(** A probe reports ready exactly for a valid endpoint that answered with a
    status below 500; whatever it reports, it is about that endpoint. *)
Lemma ProbeHTTP_exact `{HTTPWorld} ep :
  let url := ep_Scheme ep +:+ "://" +:+ JoinHostPort (ep_Host ep) (ep_Port ep) +:+ "/" in
  (es_Ready (ProbeHTTP ep) = true <->
   Endpoint_Validate ep = Ok tt /\ url_valid url = true /\
   exists code, http_status (JoinHostPort (ep_Host ep) (ep_Port ep)) url = Some code /\ (code < 500)%Z) /\
  (es_Service (ProbeHTTP ep), es_Scheme (ProbeHTTP ep), es_Host (ProbeHTTP ep), es_Port (ProbeHTTP ep)) =
  (ep_Service ep, ep_Scheme ep, ep_Host ep, ep_Port ep).
Proof.
  unfold ProbeHTTP, probe. destruct (Endpoint_Validate ep) as [[]|]; cbn [is_err]; [|split; [split; [done|by intros [? _]]|done]].
  destruct (url_valid _); cbn [negb]; [|split; [split; [done|by intros (_ & ? & _)]|done]].
  destruct (http_status _ _) as [code|]; cbn; (split; [|done]).
  - rewrite Z.ltb_lt. split; [by eauto|by intros (_ & _ & ? & [= <-] & ?)].
  - split; [done|by intros (_ & _ & ? & ? & _)].
Qed.

(** A denial anywhere decides; otherwise a warning anywhere does. *)
Lemma Aggregate_exact findings :
  Aggregate findings =
  if bool_decide (Deny ∈ map fi_Decision findings) then Deny
  else if bool_decide (Warn ∈ map fi_Decision findings) then Warn else Allow.
Proof.
  unfold Aggregate. generalize Allow. induction findings as [|f findings IH]; intros decision; [done|].
  cbn [aggregate_from map]. destruct (decide (fi_Decision f = Deny)) as [->|Hd].
  - rewrite !(bool_decide_eq_true_2 _); [done|constructor|done].
  - rewrite (bool_decide_eq_false_2 (fi_Decision f = Deny)) by done.
    rewrite (bool_decide_ext (Deny ∈ _ :: _) (Deny ∈ map fi_Decision findings)) by (rewrite elem_of_cons; naive_solver).
    destruct (decide (fi_Decision f = Warn)) as [->|Hw].
    + rewrite !(bool_decide_eq_true_2 (Warn = Warn)), (bool_decide_eq_true_2 (Warn ∈ Warn :: _)) by (done || constructor).
      rewrite IH. by repeat case_bool_decide.
    + rewrite (bool_decide_eq_false_2 (fi_Decision f = Warn)), IH by done.
      by rewrite (bool_decide_ext (Warn ∈ _ :: _) (Warn ∈ map fi_Decision findings)) by (rewrite elem_of_cons; naive_solver).
Qed.

(** The requirements of an operation are met exactly when the descriptor is of
    this contract and offers every one of them. *)
Lemma RequireCapabilities_exact d required :
  RequireCapabilities d required = Ok tt <->
  de_ContractVersion d = ContractVersion /\
  Forall (fun capability => Capabilities_Supports (de_Capabilities d) capability = true) required.
Proof.
  unfold RequireCapabilities. rewrite reject_seq_Ok, neqb_false. apply and_iff_compat_l.
  induction required as [|c required IH]; [done|]. rewrite forE_cons, bind_Ok, Forall_cons. unfold require_capability at 1. split.
  - intros ([] & H & Hrest). apply reject_seq_Ok in H as [_ Hs%reject_Ok%negb_false_iff]. split; [exact Hs|by apply IH].
  - intros [Hs Hrest]. exists tt. split; [|by apply IH]. apply reject_seq_Ok. split; [|by rewrite Hs].
    apply bool_decide_eq_false. by intros ->.
Qed.

Example folds_localhost :
  map (folds_to "localhost") ["LocalHost"; "localhosts"; "localhos"; "local"; "lokalhost"] = [true; false; false; false; false].
Proof. vm_compute. reflexivity. Qed.
